(* ===== verification/_CoqProject ===== *)
-Q . S2P
Prelude.v
Spinlock.v
Riscv.v
Kalloc.v
Vm.v
VmProofs.v
VmExample.v
VmSpace.v
VmCopy.v
VmFree.v
Queue.v
PriorityQueue.v
KString.v
Ulib.v
Grep.v
Umalloc.v
Sh.v
ShParse.v
ShRun.v
UPrintf.v
UPrintfTheorems.v
UserProg.v
UserRun.v
UserTheorems.v
UserProcs.v
UserGrep.v
Proc.v
ProcMem.v
ProcProofs.v
ProcLife.v
ProcFork.v
ProcExample.v
ProcTheorems.v
Sched.v
SchedTheorems.v
Pipe.v
PipeTheorems.v
Asm.v
Boot.v
FsState.v
FsBytes.v
Env.v
Sleeplock.v
Virtio.v
World.v
VirtioProofs.v
Bio.v
Lru.v
BioProofs.v
Log.v
LogSpec.v
LogProofs.v
FsBoot.v
FsExample.v
LogTheorems.v
TxProofs.v
Fs.v
BlockAlloc.v
Console.v
ConsoleTheorems.v
File.v
SysArgs.v
Exec.v
Sysfile.v
Sysproc.v
Trap.v
Printf.v
FsTheorems.v
InodeProofs.v
InodeTheorems.v
PrintfTheorems.v
Mkfs.v
MkfsProofs.v
MkfsAppend.v
MkfsTheorems.v
MkfsBoot.v
UserTests.v
UserVerdict.v
KernelRun.v
