(* ===== verification/Prelude.v ===== *)
(** * A verification library for Custom-XV6

    Custom-XV6 is the xv6 teaching kernel for RISC-V with threads, a priority
    queue and CPU quotas added to its scheduler, its user programs, and the
    program that builds its disk image.  The library models the C code as
    executable functions and proves what makes its parts correct.

    ** The program and the files that model it

    - Machine: [Prelude] (integers at their width, the kernel monad and its
      weakest preconditions), [Riscv] (kernel/riscv.h, memlayout.h, param.h),
      [Spinlock] (spinlock.c, with the interleavings of several harts).
    - Memory: [Kalloc] (kalloc.c), [Vm] (vm.c) with [VmProofs], [VmSpace],
      [VmCopy], [VmFree] and the address space of [VmExample].
    - Processes: [Queue] (queue.h), [PriorityQueue] (priority_queue.h), [Proc]
      (proc.c, proc.h) with [ProcMem], [ProcProofs], [ProcLife], [ProcFork],
      [ProcExample] and [ProcTheorems]; [Sched] (the scheduler of proc.c) with
      [SchedTheorems]; [Pipe] (pipe.c) with [PipeTheorems].
    - Devices and files: [FsState] (the state of all of them), [FsBytes]
      (integers in blocks), [Sleeplock] (sleeplock.c), [Virtio]
      (virtio_disk.c), [Bio] (bio.c), [Log] (log.c), [Fs] (fs.c), [Console]
      (console.c, uart.c), [File] (file.c), [Exec] (exec.c), [SysArgs]
      (syscall.c), [Sysfile] (sysfile.c), [Sysproc] (sysproc.c), [Trap]
      (trap.c, plic.c), [Printf] (printf.c), [KString] (string.c).  Their
      proofs: [Env] (what other processes and the disk may do while a process
      sleeps), [World], [VirtioProofs], [Lru], [BioProofs], [LogSpec],
      [LogProofs], [TxProofs], [BlockAlloc], [InodeProofs], the states of
      [FsBoot] and [FsExample], and [LogTheorems], [FsTheorems],
      [InodeTheorems], [PrintfTheorems].
    - User programs: [Ulib] (user/ulib.c), [Umalloc] (umalloc.c), [UPrintf]
      (printf.c, wc.c) with [UPrintfTheorems], [Grep] (grep.c), the shell in
      [Sh] (the parser of sh.c) with [ShParse], and [ShRun] (runcmd and main).
    - Image builder: [Mkfs] (mkfs/mkfs.c) with [MkfsProofs], [MkfsAppend],
      [MkfsTheorems] and [MkfsBoot].

    Definitions carry the names of the C functions.  A kernel function is a
    value of the monad [M]: it runs on the locks held and on the state of its
    component, and it returns, panics, dereferences an invalid pointer
    ([Fault]), gives up the processor ([Swtch], resumed in whatever state the
    machine is in by then) or uses up a bound on waiting ([NoFuel]).  A pointer
    to an object of a table is its index; memory is pages of bytes or of
    page-table entries.  User functions are plain functions, [None] being a
    store or load outside an object.

    ** What the theorems show

    - Crash safety: whatever prefix of [end_op]'s writes reaches the disk, and
      however often recovery is itself cut short, the disk ends up with all or
      none of a transaction ([LogTheorems]).
    - Files: what [writei] writes [readi] reads; [balloc] and [bfree] change
      exactly one block of the map ([InodeTheorems]); inodes and paths
      ([FsTheorems]).  The image [mkfs] builds meets the layout that these
      require, its files read as what was put in ([MkfsTheorems]), and the kernel mounts
      it ([MkfsBoot]).
    - Memory: allocation, mapping, unmapping, copying and freeing of address
      spaces, all or nothing where the code promises it; copies between user
      and kernel ([Kalloc], [VmSpace], [VmCopy], [VmFree]).
    - Processes: locks exclude each other under every interleaving; fork, exit,
      wait, sleep and wakeup; the queues against their specifications; pipes as
      bounded queues ([Spinlock], [ProcTheorems], [SchedTheorems], [Queue],
      [PriorityQueue], [PipeTheorems]).
    - User programs: the shell's parser accepts exactly its grammar, and a
      session runs each program with exactly the descriptors its line means;
      [malloc] and [free] keep blocks apart; grep's matcher decides the meaning
      of patterns; numbers printed are read back ([ShParse], [ShRun],
      [Umalloc], [Grep], [UPrintfTheorems]).

    Some theorems show where the code does not do what it means to: an overrun
    in the kernel's [printint], a priority queue put out of order, a newborn
    process killed by [kill], a wrapped size in [malloc], truncated numbers in
    the user [printf].

    ** Interfaces and bounds

    Code outside the sources, and choices of the hardware, are parameters with
    their laws in a class, instantiated where a theorem is applied: [Sbrk], [Reads], [Calls],
    [Resources], [VirtioMmio], [Image].  The block layer offers [BlockLayer] to
    the log and the file system, which are proved against it; the buffer cache
    over the disk driver is an instance.  [Waits] bounds how often a sleeping
    process may be woken for nothing.  Other fuel is a bound that the loop
    cannot exceed (the length of the input, the number of entries of a table,
    the digits of a number), and the theorems establish that it is enough.

    ** Not modelled

    Assembly and machine set-up (entry.S, start.c, main.c, trampoline.S,
    kernelvec.S, swtch.S) move registers, which the models do not have; defs.h,
    types.h and the system-call stubs hold no behaviour.  The other user
    programs are short sequences of system calls, and usertests.c, grind.c,
    forktest.c and stressfs.c are tests of the kernel.  The lock of the
    kernel's [printf], which keeps the output of harts apart, and weak memory
    order are left out: the interleavings considered are sequentially
    consistent. *)

From stdpp Require Export base option list gmap functions strings numbers sorting.
From Stdlib Require Export ZArith Lia ZifyNat ZifyBool.

#[export] Set Default Goal Selector "!".
Open Scope Z_scope.

(** ** Machine integers

    C integers are kept as [Z]; the conversions below are applied where the
    source stores into a type of that width. *)

Definition u8 (x : Z) : Z := x mod 2 ^ 8.
Definition u16 (x : Z) : Z := x mod 2 ^ 16.
Definition u32 (x : Z) : Z := x mod 2 ^ 32.
Definition u64 (x : Z) : Z := x mod 2 ^ 64.

(** Conversion to a signed [int]: two's complement on 32 bits. *)
Definition i32 (x : Z) : Z :=
  let y := x mod 2 ^ 32 in if y <? 2 ^ 31 then y else y - 2 ^ 32.

(** ** Lock identities

    One constructor for every spinlock object of the kernel that the models
    mention. *)

Inductive lockid : Type :=
| LkProc (i : nat)      (* proc[i].lock *)
| LkWait                (* wait_lock *)
| LkPid                 (* pid_lock *)
| LkPq                  (* pq.lock *)
| LkQueue               (* q.lock *)
| LkKmem                (* kmem.lock *)
| LkTicks               (* tickslock *)
| LkFtable              (* ftable.lock *)
| LkItable              (* itable.lock *)
| LkBcache              (* bcache.lock *)
| LkLog                 (* log.lock *)
| LkCons                (* cons.lock *)
| LkUart                (* uart_tx_lock *)
| LkVdisk               (* disk.vdisk_lock *)
| LkPipe (pi : Z)       (* pi->lock, by the pipe's page address *)
| LkSleep (i : Z).      (* the spinlock inside a sleep-lock *)

#[export] Instance lockid_eq_dec : EqDecision lockid.
Proof. solve_decision. Defined.

(** ** The kernel monad

    A kernel operation runs on the locks this hart holds and on a component
    state.  It returns, panics, dereferences an invalid pointer, gives up the
    processor ([swtch] into the scheduler, to be resumed in whatever state the
    machine is in by then), or exhausts the fuel of a sleeping loop. *)

Record st (S : Type) : Type := mk_st { held : list lockid; data : S }.
Arguments mk_st {S} _ _.
Arguments held {S} _.
Arguments data {S} _.

Inductive outcome (S A : Type) : Type :=
| Ret (a : A) (s : st S)
| Panic (msg : string)
| Fault
| Swtch (s : st S) (k : st S -> outcome S A)
| NoFuel.
Arguments Ret {S A} _ _.
Arguments Panic {S A} _.
Arguments Fault {S A}.
Arguments Swtch {S A} _ _.
Arguments NoFuel {S A}.

Definition M (S A : Type) : Type := st S -> outcome S A.

Fixpoint obind {S A B} (o : outcome S A) (f : A -> M S B) : outcome S B :=
  match o with
  | Ret a s => f a s
  | Panic msg => Panic msg
  | Fault => Fault
  | Swtch s k => Swtch s (fun s' => obind (k s') f)
  | NoFuel => NoFuel
  end.

Definition ret {S A} (a : A) : M S A := fun s => Ret a s.
Definition bind {S A B} (m : M S A) (f : A -> M S B) : M S B :=
  fun s => obind (m s) f.
Definition panic {S A} (msg : string) : M S A := fun _ => Panic msg.
Definition fault {S A} : M S A := fun _ => Fault.
Definition nofuel {S A} : M S A := fun _ => NoFuel.
Definition gets {S A} (f : S -> A) : M S A := fun s => Ret (f (data s)) s.
Definition modify {S} (f : S -> S) : M S unit :=
  fun s => Ret tt (mk_st (held s) (f (data s))).

Declare Scope kernel_scope.
Delimit Scope kernel_scope with kernel.
Notation "x <- m ;; k" := (bind m (fun x => k))
  (at level 100, m at next level, right associativity) : kernel_scope.
Notation "m ;; k" := (bind m (fun _ => k))
  (at level 100, k at level 200, right associativity) : kernel_scope.
Open Scope kernel_scope.

(** Reading through a pointer that may be invalid. *)
Definition deref {S A} (o : S -> option A) : M S A :=
  fun s => match o (data s) with Some a => Ret a s | None => Fault end.

(** Conditional execution: [if (b) m;]. *)
Definition when {S} (b : bool) (m : M S unit) : M S unit :=
  if b then m else ret tt.

(** The C loops over a table: [for_each] runs the body on every index,
    [for_find] stops at the first index whose body returns a value (an early
    [return], [break] or [goto] out of the loop). *)
Fixpoint for_each {S I} (idx : list I) (body : I -> M S unit) : M S unit :=
  match idx with
  | [] => ret tt
  | i :: idx' => body i ;; for_each idx' body
  end.

Fixpoint for_find {S I R} (idx : list I) (body : I -> M S (option R))
    : M S (option R) :=
  match idx with
  | [] => ret None
  | i :: idx' =>
      r <- body i ;;
      match r with Some x => ret (Some x) | None => for_find idx' body end
  end.

(** The number of times a process that sleeps in a loop may find, once woken,
    that what it waits for has not happened. *)
Class Waits : Type := max_waits : nat.

(** Running an operation of a component on a state that contains it. *)
Definition zoom_st {S T} (get : S -> T) (s : st S) : st T :=
  mk_st (held s) (get (data s)).
Definition unzoom_st {S T} (put : T -> S -> S) (s : st S) (t : st T) : st S :=
  mk_st (held t) (put (data t) (data s)).

Fixpoint ozoom {S T A} (get : S -> T) (put : T -> S -> S) (s : st S)
    (o : outcome T A) : outcome S A :=
  match o with
  | Ret a t => Ret a (unzoom_st put s t)
  | Panic msg => Panic msg
  | Fault => Fault
  | Swtch t k =>
      Swtch (unzoom_st put s t)
        (fun s' => ozoom get put s' (k (zoom_st get s')))
  | NoFuel => NoFuel
  end.

Definition zoom {S T A} (get : S -> T) (put : T -> S -> S) (m : M T A) : M S A :=
  fun s => ozoom get put s (m (zoom_st get s)).

(** ** Total-correctness weakest preconditions

    [wp m Q s]: run from [s], [m] returns (no panic, no fault, no sleep) and
    the result satisfies [Q]. *)

Definition owp {S A} (o : outcome S A) (Q : A -> st S -> Prop) : Prop :=
  match o with Ret a s => Q a s | _ => False end.
Definition wp {S A} (m : M S A) (Q : A -> st S -> Prop) (s : st S) : Prop :=
  owp (m s) Q.

Section wp_rules.
Context {S A B : Type}.
Implicit Types (m : M S A) (s : st S).

Lemma wp_ret (a : A) Q s : Q a s -> wp (ret a) Q s.
Proof. done. Qed.

Lemma wp_bind m (f : A -> M S B) Q s :
  wp m (fun a s' => wp (f a) Q s') s -> wp (bind m f) Q s.
Proof. unfold wp, bind. by destruct (m s). Qed.

Lemma wp_bind_inv m (f : A -> M S B) Q s :
  wp (bind m f) Q s -> wp m (fun a s' => wp (f a) Q s') s.
Proof. unfold wp, bind. by destruct (m s). Qed.

Lemma wp_gets (f : S -> A) Q s : Q (f (data s)) s -> wp (gets f) Q s.
Proof. done. Qed.

Lemma wp_modify (f : S -> S) Q s :
  Q tt (mk_st (held s) (f (data s))) -> wp (modify f) Q s.
Proof. done. Qed.

Lemma wp_deref (o : S -> option A) a Q s :
  o (data s) = Some a -> Q a s -> wp (deref o) Q s.
Proof. unfold wp, deref. by intros ->. Qed.

Lemma wp_mono m (Q Q' : A -> st S -> Prop) s :
  wp m Q s -> (forall a s', Q a s' -> Q' a s') -> wp m Q' s.
Proof. unfold wp. destruct (m s); simpl; auto. Qed.

Lemma wp_run m Q s :
  wp m Q s <-> exists a s', m s = Ret a s' /\ Q a s'.
Proof.
  unfold wp. split.
  - destruct (m s) eqn:E; simpl; try done. eauto.
  - by intros (a & s' & -> & HQ).
Qed.

Lemma wp_frame_eq m a s s' (Q : A -> st S -> Prop) :
  m s = Ret a s' -> Q a s' -> wp m Q s.
Proof. unfold wp. by intros ->. Qed.

End wp_rules.

Lemma wp_when {S} b (m : M S unit) Q s :
  (b = true -> wp m Q s) -> (b = false -> Q tt s) -> wp (when b m) Q s.
Proof. intros H1 H2. destruct b; [by apply H1|by apply H2]. Qed.

Lemma wp_zoom {S T A} (get : S -> T) put (m : M T A) Q s :
  wp m (fun a t => Q a (unzoom_st put s t)) (zoom_st get s) ->
  wp (zoom get put m) Q s.
Proof. unfold wp, zoom. by destruct (m (zoom_st get s)). Qed.

(** The loop rule: an invariant indexed by what remains to be visited. *)
Lemma wp_for_each {S I} (Inv : list I -> st S -> Prop) (body : I -> M S unit)
    idx (Q : unit -> st S -> Prop) s :
  Inv idx s ->
  (forall i rest s', Inv (i :: rest) s' ->
     wp (body i) (fun _ s'' => Inv rest s'') s') ->
  (forall s', Inv [] s' -> Q tt s') ->
  wp (for_each idx body) Q s.
Proof.
  intros Hi Hb HQ. revert s Hi.
  induction idx as [|i idx IH]; intros s Hi; simpl.
  - by apply wp_ret, HQ.
  - apply wp_bind. eapply wp_mono; [by apply Hb|]. intros ? s' Hs. by apply IH.
Qed.

(** The same for the indices below [n]. *)
Lemma wp_for_seq {S} (Inv : nat -> st S -> Prop) (body : nat -> M S unit) n (Q : unit -> st S -> Prop) s :
  Inv 0%nat s ->
  (forall t s', (t < n)%nat -> Inv t s' -> wp (body t) (fun _ s'' => Inv (Datatypes.S t) s'') s') ->
  (forall s', Inv n s' -> Q tt s') ->
  wp (for_each (seq 0 n) body) Q s.
Proof.
  intros H0 Hb HQ. apply (wp_for_each (fun rest s' => exists t, rest = seq t (n - t) /\ (t <= n)%nat /\ Inv t s')).
  - exists 0%nat. by rewrite Nat.sub_0_r; split_and!; [|lia|].
  - intros j rest s' (t & E & Ht & HI). destruct (n - t)%nat as [|c] eqn:Ec; [done|]. cbn in E. injection E as -> ->.
    eapply wp_mono; [apply Hb; [lia|done]|]. intros [] s'' HI'. exists (Datatypes.S t). split_and!; [|lia|done]. f_equal. lia.
  - intros s' (t & E & Ht & HI). apply HQ. destruct (n - t)%nat eqn:Ec; [|done]. by replace n with t by lia.
Qed.

Lemma wp_for_find {S I R} (Inv : list I -> st S -> Prop)
    (body : I -> M S (option R)) idx (Q : option R -> st S -> Prop) s :
  Inv idx s ->
  (forall i rest s', Inv (i :: rest) s' ->
     wp (body i) (fun r s'' =>
       match r with Some x => Q (Some x) s'' | None => Inv rest s'' end) s') ->
  (forall s', Inv [] s' -> Q None s') ->
  wp (for_find idx body) Q s.
Proof.
  intros Hi Hb HQ. revert s Hi.
  induction idx as [|i idx IH]; intros s Hi; simpl.
  - by apply wp_ret, HQ.
  - apply wp_bind. eapply wp_mono; [by apply Hb|].
    intros [x|] s' Hs; [done|]. by apply IH.
Qed.

(** The symbolic-execution step used by the component proofs. *)
Ltac wp_step :=
  match goal with
  | |- wp (bind _ _) _ _ => apply wp_bind
  | |- wp (ret _) _ _ => apply wp_ret
  | |- wp (gets _) _ _ => apply wp_gets
  | |- wp (modify _) _ _ => apply wp_modify
  | |- wp (zoom _ _ _) _ _ => apply wp_zoom
  end; cbn beta.
Ltac wp_steps := repeat wp_step.

(** The facts that the components' proofs use without naming them: what an
    invariant says of lengths, ranges and lookups. *)
Create HintDb xv6.
#[export] Hint Resolve lookup_lt_Some lookup_lt_is_Some_2 list_lookup_insert_eq : xv6.
