(* ===== verification/Spinlock.v ===== *)
(** * Spinlocks (kernel/spinlock.c, kernel/spinlock.h)

    Three layers:
    - the code of spinlock.c on the machine state it touches (the [cpus] array
      and the lock objects), one definition per C function;
    - an interleaving step relation in which any number of harts run that code
      at the granularity of its atomic memory operations;
    - the abstract lock interface [acquire]/[release] of the kernel monad used
      by the other components, which records only the locks this hart holds.

    The theorems show mutual exclusion over every interleaving and that the
    abstract interface is refined by the code. *)

From S2P Require Import Prelude.

(** ** The code *)

Record spinlock : Type := mk_spinlock { locked : Z; lk_cpu : option nat }.
Record cpu : Type := mk_cpu { noff : Z; intena : bool; sie : bool }.
Record machine : Type := mk_machine {
  cpus : nat -> cpu;
  locks : lockid -> spinlock
}.

Definition set_cpu (h : nat) (c : cpu) (m : machine) : machine :=
  mk_machine (<[h := c]> (cpus m)) (locks m).
Definition set_lock (l : lockid) (k : spinlock) (m : machine) : machine :=
  mk_machine (cpus m) (<[l := k]> (locks m)).

(** What a call of spinlock.c can do: return, panic, or spin for as long as
    another hart keeps the lock. *)
Inductive lresult : Type :=
| LDone (m : machine)
| LPanic (msg : string)
| LSpin.

Definition initlock (l : lockid) (m : machine) : machine :=
  set_lock l (mk_spinlock 0 None) m.

Definition push_off (h : nat) (m : machine) : machine :=
  let c := cpus m h in
  let old := sie c in
  let intena' := if noff c =? 0 then old else intena c in
  set_cpu h (mk_cpu (noff c + 1) intena' false) m.

Definition pop_off (h : nat) (m : machine) : lresult :=
  let c := cpus m h in
  if sie c then LPanic "pop_off - interruptible"
  else if noff c <? 1 then LPanic "pop_off"
  else
    let n := noff c - 1 in
    LDone (set_cpu h (mk_cpu n (intena c) ((n =? 0) && intena c)) m).

Definition holding (h : nat) (l : lockid) (m : machine) : bool :=
  negb (locked (locks m l) =? 0) && bool_decide (lk_cpu (locks m l) = Some h).

(** [__sync_lock_test_and_set(&lk->locked, 1)]: the old value, and 1 stored. *)
Definition test_and_set (l : lockid) (m : machine) : Z * machine :=
  (locked (locks m l), set_lock l (mk_spinlock 1 (lk_cpu (locks m l))) m).

Definition set_owner (l : lockid) (o : option nat) (m : machine) : machine :=
  set_lock l (mk_spinlock (locked (locks m l)) o) m.
Definition lock_release_word (l : lockid) (m : machine) : machine :=
  set_lock l (mk_spinlock 0 (lk_cpu (locks m l))) m.

Definition acquire_code (h : nat) (l : lockid) (m : machine) : lresult :=
  let m := push_off h m in
  if holding h l m then LPanic "acquire"
  else
    let (old, m) := test_and_set l m in
    if old =? 0 then LDone (set_owner l (Some h) m) else LSpin.

Definition release_code (h : nat) (l : lockid) (m : machine) : lresult :=
  if holding h l m then
    pop_off h (lock_release_word l (set_owner l None m))
  else LPanic "release".

(** ** The abstract lock interface of the kernel monad *)

Definition acquire {S} (l : lockid) : M S unit := fun s =>
  if bool_decide (l ∈ held s) then Panic "acquire"
  else Ret tt (mk_st (l :: held s) (data s)).

Definition without (l : lockid) (hl : list lockid) : list lockid :=
  filter (fun x => x <> l) hl.

Definition release {S} (l : lockid) : M S unit := fun s =>
  if bool_decide (l ∈ held s) then Ret tt (mk_st (without l (held s)) (data s))
  else Panic "release".

(** ** Interleavings

    A hart is running kernel code, spinning in [acquire], past the winning
    test-and-set but not yet recorded as owner, or between the two stores of
    [release].  [hheld] is ghost: the critical sections the hart is inside. *)

Inductive lpc : Type :=
| Running
| Spinning (l : lockid)
| Won (l : lockid)
| Unlocking (l : lockid).

Record hart : Type := mk_hart { pc : lpc; hheld : list lockid }.
Record system : Type := mk_system { mach : machine; harts : nat -> hart }.

Definition set_hart (h : nat) (x : hart) (s : system) (m : machine) : system :=
  mk_system m (<[h := x]> (harts s)).

Inductive step : system -> system -> Prop :=
| step_enter s h l hl :
    harts s h = mk_hart Running hl ->
    holding h l (push_off h (mach s)) = false ->
    step s (set_hart h (mk_hart (Spinning l) hl) s (push_off h (mach s)))
| step_spin s h l hl :
    harts s h = mk_hart (Spinning l) hl ->
    (test_and_set l (mach s)).1 <> 0 ->
    step s (set_hart h (mk_hart (Spinning l) hl) s (test_and_set l (mach s)).2)
| step_win s h l hl :
    harts s h = mk_hart (Spinning l) hl ->
    (test_and_set l (mach s)).1 = 0 ->
    step s (set_hart h (mk_hart (Won l) hl) s (test_and_set l (mach s)).2)
| step_own s h l hl :
    harts s h = mk_hart (Won l) hl ->
    step s (set_hart h (mk_hart Running (l :: hl)) s
              (set_owner l (Some h) (mach s)))
| step_disown s h l hl :
    harts s h = mk_hart Running hl ->
    holding h l (mach s) = true ->
    step s (set_hart h (mk_hart (Unlocking l) (without l hl)) s
              (set_owner l None (mach s)))
| step_unlock s h l hl m' :
    harts s h = mk_hart (Unlocking l) hl ->
    pop_off h (lock_release_word l (mach s)) = LDone m' ->
    step s (set_hart h (mk_hart Running hl) s m')
| step_intr s h b hl :
    harts s h = mk_hart Running hl ->
    noff (cpus (mach s) h) = 0 ->
    step s (set_hart h (mk_hart Running hl) s
              (set_cpu h (mk_cpu 0 (intena (cpus (mach s) h)) b) (mach s))).

(** Boot: every lock initialised and free, no hart inside a section. *)
Definition initial (s : system) : Prop :=
  (forall h, harts s h = mk_hart Running [] /\ noff (cpus (mach s) h) = 0) /\
  (forall l, locks (mach s) l = mk_spinlock 0 None).

Definition reachable (s : system) : Prop :=
  exists s0, initial s0 /\ rtc step s0 s.

(** ** Facts about the abstract interface *)

Lemma without_notin l hl : l ∉ without l hl.
Proof. unfold without. rewrite list_elem_of_filter. tauto. Qed.

Lemma elem_of_without l x hl : x ∈ without l hl <-> x <> l /\ x ∈ hl.
Proof. unfold without. by rewrite list_elem_of_filter. Qed.

Lemma without_id l hl : l ∉ hl -> without l hl = hl.
Proof.
  induction hl as [|x hl IH]; [done|]. rewrite not_elem_of_cons. intros [Hx Hl].
  unfold without. rewrite filter_cons_True by done. f_equal. by apply IH.
Qed.

Lemma without_head l hl : l ∉ hl -> without l (l :: hl) = hl.
Proof.
  intros Hl. unfold without. rewrite filter_cons_False by naive_solver.
  by apply without_id.
Qed.

Lemma without_cons_ne l x hl : x <> l -> without l (x :: hl) = x :: without l hl.
Proof. intros. unfold without. by rewrite filter_cons_True. Qed.

Lemma without_NoDup l hl : NoDup hl -> NoDup (without l hl).
Proof. apply NoDup_filter. Qed.

Lemma without_length l hl :
  NoDup hl -> l ∈ hl -> Z.of_nat (length (without l hl)) = Z.of_nat (length hl) - 1.
Proof.
  induction 1 as [|x hl Hx Hnd IH]; [by intros ?%not_elem_of_nil|].
  rewrite elem_of_cons. intros [->|Hl].
  - rewrite without_head by done. simpl. lia.
  - rewrite without_cons_ne by (intros ->; done). simpl. specialize (IH Hl). lia.
Qed.

Lemma wp_acquire {S} l (Q : unit -> st S -> Prop) s :
  l ∉ held s -> Q tt (mk_st (l :: held s) (data s)) -> wp (acquire l) Q s.
Proof. intros Hl HQ. unfold wp, acquire. by rewrite bool_decide_false. Qed.

Lemma wp_release {S} l (Q : unit -> st S -> Prop) s :
  l ∈ held s -> Q tt (mk_st (without l (held s)) (data s)) -> wp (release l) Q s.
Proof. intros Hl HQ. unfold wp, release. by rewrite bool_decide_true. Qed.

(** The common case: the lock released is the one acquired last. *)
Lemma wp_release_head {S} l hl (d : S) (Q : unit -> st S -> Prop) :
  l ∉ hl -> Q tt (mk_st hl d) -> wp (release l) Q (mk_st (l :: hl) d).
Proof.
  intros Hl HQ. apply wp_release; simpl; [by left|]. by rewrite without_head.
Qed.

(** ** Mutual exclusion

    For one lock, every hart is of one of four kinds; the lock word determines,
    and is determined by, the only hart that is not [KNone]. *)

Inductive kind : Type := KNone | KSection | KWon | KReleasing.

Definition kind_of (l : lockid) (x : hart) : kind :=
  if bool_decide (l ∈ hheld x) then KSection
  else match pc x with
       | Won l' => if bool_decide (l' = l) then KWon else KNone
       | Unlocking l' => if bool_decide (l' = l) then KReleasing else KNone
       | _ => KNone
       end.

Definition word_of (h : nat) (k : kind) : spinlock :=
  mk_spinlock 1 (match k with KSection => Some h | _ => None end).

Definition lock_ok (ks : nat -> kind) (w : spinlock) : Prop :=
  ((forall h, ks h = KNone) /\ w = mk_spinlock 0 None) \/
  (exists h, ks h <> KNone /\ (forall h', h' <> h -> ks h' = KNone) /\
     w = word_of h (ks h)).

Definition depth (x : hart) : Z :=
  Z.of_nat (length (hheld x)) + match pc x with Running => 0 | _ => 1 end.

Record hart_ok (x : hart) (c : cpu) : Prop := {
  hart_nodup : NoDup (hheld x);
  hart_fresh l : pc x = Won l \/ pc x = Unlocking l -> l ∉ hheld x;
  hart_noff : noff c = depth x;
  hart_sie : noff c <> 0 -> sie c = false
}.

Definition lock_inv (s : system) : Prop :=
  (forall l, lock_ok (fun h => kind_of l (harts s h)) (locks (mach s) l)) /\
  (forall h, hart_ok (harts s h) (cpus (mach s) h)).

Lemma lock_ok_ext ks ks' w : (forall h, ks' h = ks h) -> lock_ok ks w -> lock_ok ks' w.
Proof.
  intros E [[H ->]|(h & Hh & Hx & ->)]; [left|right].
  - split; [|done]. intros h. by rewrite E.
  - exists h. rewrite E. split_and!; [done| |done]. intros h' Hh'. rewrite E. auto.
Qed.

(** One hart moves and at most the word of [l] changes. *)
Lemma lock_inv_update s h x c m' l :
  lock_inv s ->
  hart_ok x c ->
  (forall h', cpus m' h' = if decide (h = h') then c else cpus (mach s) h') ->
  (forall l', l' <> l -> locks m' l' = locks (mach s) l') ->
  (forall l', l' <> l -> kind_of l' x = kind_of l' (harts s h)) ->
  lock_ok (<[h := kind_of l x]> (fun h' => kind_of l (harts s h'))) (locks m' l) ->
  lock_inv (set_hart h x s m').
Proof.
  intros [Hl Hh] Hx Hc Hfl Hk Hok. split.
  - intros l'. destruct (decide (l' = l)) as [->|Hne]; simpl.
    + eapply lock_ok_ext; [|exact Hok]. intros h'. simpl.
      destruct (decide (h = h')) as [->|]; by rewrite ?fn_lookup_insert, ?fn_lookup_insert_ne.
    + rewrite Hfl by done. eapply lock_ok_ext; [|apply Hl]. intros h'. simpl.
      destruct (decide (h = h')) as [->|];
        rewrite ?fn_lookup_insert, ?fn_lookup_insert_ne by done; auto.
  - intros h'. simpl. rewrite Hc. case_decide as Hd.
    + subst h'. by rewrite fn_lookup_insert.
    + by rewrite fn_lookup_insert_ne.
Qed.

Lemma lock_ok_id ks h w k :
  ks h = k -> lock_ok ks w -> lock_ok (<[h := k]> ks) w.
Proof.
  intros <- H. eapply lock_ok_ext; [|exact H]. intros h'.
  destruct (decide (h = h')) as [->|]; by rewrite ?fn_lookup_insert, ?fn_lookup_insert_ne.
Qed.

(** The owner moves from one kind to another. *)
Lemma lock_ok_owner ks h w k :
  lock_ok ks w -> ks h <> KNone -> k <> KNone ->
  w = word_of h (ks h) /\ lock_ok (<[h := k]> ks) (word_of h k).
Proof.
  intros [[H ->]|(h0 & Hh0 & Hx & ->)] Hh Hk; [by rewrite H in Hh|].
  assert (h = h0) as <-.
  { destruct (decide (h = h0)) as [|Hne]; [done|]. by rewrite (Hx h Hne) in Hh. }
  split; [done|]. right. exists h. rewrite fn_lookup_insert. split_and!; [done| |done].
  intros h' Hh'. rewrite fn_lookup_insert_ne by done. auto.
Qed.

Lemma lock_ok_free ks h w :
  lock_ok ks w -> ks h <> KNone -> lock_ok (<[h := KNone]> ks) (mk_spinlock 0 None).
Proof.
  intros [[H ->]|(h0 & Hh0 & Hx & ->)] Hh; [by rewrite H in Hh|].
  assert (h = h0) as <-.
  { destruct (decide (h = h0)) as [|Hne]; [done|]. by rewrite (Hx h Hne) in Hh. }
  left. split; [|done]. intros h'. destruct (decide (h = h')) as [->|Hne].
  - by rewrite fn_lookup_insert.
  - rewrite fn_lookup_insert_ne by done. auto.
Qed.

Lemma lock_ok_taken ks h w :
  lock_ok ks w -> locked w = 0 -> ks h = KNone /\ w = mk_spinlock 0 None /\
    lock_ok (<[h := KWon]> ks) (mk_spinlock 1 None).
Proof.
  intros [[H ->]|(h0 & Hh0 & Hx & ->)] Hw; [|done]. split_and!; [done|done|].
  right. exists h. rewrite fn_lookup_insert. split_and!; [done| |done].
  intros h' Hh'. by rewrite fn_lookup_insert_ne.
Qed.

Lemma lock_ok_word ks w : lock_ok ks w -> locked w <> 0 -> locked w = 1.
Proof. intros [[H ->]|(h0 & Hh0 & Hx & ->)] Hw; done. Qed.

Lemma lock_ok_section ks h w :
  lock_ok ks w -> lk_cpu w = Some h -> ks h = KSection.
Proof.
  intros [[H ->]|(h0 & Hh0 & Hx & ->)] Hw; [done|].
  unfold word_of in Hw. simpl in Hw. by repeat case_match; simplify_eq.
Qed.

Lemma lock_inv_initial s : initial s -> lock_inv s.
Proof.
  intros [Hh Hl]. split.
  - intros l. left. split; [|by rewrite Hl]. intros h. by rewrite (proj1 (Hh h)).
  - intros h. destruct (Hh h) as [-> Hn]. split; simpl.
    + constructor.
    + intros l [?|?]; done.
    + by rewrite Hn.
    + by rewrite Hn.
Qed.

(** Each rule of [step] preserves the invariant. *)
Lemma kind_of_other l l' x pc' hl' :
  l' <> l -> (pc x = Running \/ pc x = Spinning l \/ pc x = Won l \/ pc x = Unlocking l) ->
  (pc' = Running \/ pc' = Spinning l \/ pc' = Won l \/ pc' = Unlocking l) ->
  (l' ∈ hl' <-> l' ∈ hheld x) ->
  kind_of l' (mk_hart pc' hl') = kind_of l' x.
Proof.
  intros Hne Hx Hp Hl. unfold kind_of. simpl.
  rewrite (bool_decide_ext _ _ Hl). case_bool_decide; [done|].
  destruct Hx as [-> |[-> |[-> | ->]]]; destruct Hp as [-> |[-> |[-> | ->]]];
    rewrite ?bool_decide_false by congruence; done.
Qed.

Lemma inv_step_enter s h l hl :
  lock_inv s -> harts s h = mk_hart Running hl ->
  lock_inv (set_hart h (mk_hart (Spinning l) hl) s (push_off h (mach s))).
Proof.
  intros Hinv Hh. destruct (proj2 Hinv h) as [Hnd Hfr Hno Hsi].
  rewrite Hh in Hnd, Hfr, Hno. simpl in *.
  eapply lock_inv_update with (l := l); [done| | |done| |].
  2: { intros h'. unfold push_off. simpl. case_decide as Hd.
       - subst h'. by rewrite fn_lookup_insert.
       - by rewrite fn_lookup_insert_ne. }
  - split; simpl; [done| |unfold depth in *; simpl in *; lia|done].
    intros l' [?|?]; done.
  - intros l' Hl'. rewrite Hh. by apply (kind_of_other l); auto.
  - apply lock_ok_id; [by rewrite Hh|]. apply (proj1 Hinv).
Qed.

Lemma inv_step_spin s h l hl :
  lock_inv s -> harts s h = mk_hart (Spinning l) hl ->
  (test_and_set l (mach s)).1 <> 0 ->
  lock_inv (set_hart h (mk_hart (Spinning l) hl) s (test_and_set l (mach s)).2).
Proof.
  intros Hinv Hh Ht. simpl in *.
  eapply lock_inv_update with (l := l) (c := cpus (mach s) h); [done| | | | |].
  - rewrite <- Hh. apply (proj2 Hinv).
  - intros h'. simpl. case_decide as Hd; by subst.
  - intros l' Hl'. simpl. by rewrite fn_lookup_insert_ne.
  - intros l' Hl'. by rewrite Hh.
  - simpl. rewrite fn_lookup_insert. apply lock_ok_id; [by rewrite Hh|].
    pose proof (proj1 Hinv l) as Hok.
    rewrite <- (lock_ok_word _ _ Hok Ht). by destruct (locks (mach s) l).
Qed.

Lemma inv_step_win s h l hl :
  lock_inv s -> harts s h = mk_hart (Spinning l) hl ->
  (test_and_set l (mach s)).1 = 0 ->
  lock_inv (set_hart h (mk_hart (Won l) hl) s (test_and_set l (mach s)).2).
Proof.
  intros Hinv Hh Ht. simpl in *.
  destruct (lock_ok_taken _ h _ (proj1 Hinv l) Ht) as (Hk & Hw & Hok).
  assert (l ∉ hl) as Hnl.
  { rewrite Hh in Hk. unfold kind_of in Hk. simpl in Hk. by case_bool_decide. }
  destruct (proj2 Hinv h) as [Hnd Hfr Hno Hsi]. rewrite Hh in Hnd, Hno.
  eapply lock_inv_update with (l := l) (c := cpus (mach s) h); [done| | | | |].
  - split; simpl; [done| |done|done]. intros l' [?|?]; by simplify_eq.
  - intros h'. simpl. case_decide as Hd; by subst.
  - intros l' Hl'. simpl. by rewrite fn_lookup_insert_ne.
  - intros l' Hl'. rewrite Hh. by apply (kind_of_other l); auto.
  - simpl. rewrite fn_lookup_insert, Hw. simpl.
    unfold kind_of at 1. simpl. by rewrite bool_decide_false, bool_decide_true.
Qed.

Lemma inv_step_own s h l hl :
  lock_inv s -> harts s h = mk_hart (Won l) hl ->
  lock_inv (set_hart h (mk_hart Running (l :: hl)) s (set_owner l (Some h) (mach s))).
Proof.
  intros Hinv Hh. destruct (proj2 Hinv h) as [Hnd Hfr Hno Hsi].
  rewrite Hh in Hnd, Hno, Hfr. simpl in *. specialize (Hfr l (or_introl eq_refl)).
  assert (kind_of l (harts s h) = KWon) as Hk.
  { rewrite Hh. unfold kind_of. simpl. by rewrite bool_decide_false, bool_decide_true. }
  destruct (lock_ok_owner _ h _ KSection (proj1 Hinv l)) as [Hw Hok];
    [by rewrite Hk|done|].
  eapply lock_inv_update with (l := l) (c := cpus (mach s) h); [done| | | | |].
  - split; simpl; [by constructor| |unfold depth in *; simpl in *; lia|done].
    intros l' [?|?]; done.
  - intros h'. simpl. case_decide as Hd; by subst.
  - intros l' Hl'. simpl. by rewrite fn_lookup_insert_ne.
  - intros l' Hl'. rewrite Hh. apply (kind_of_other l); simpl; auto. set_solver.
  - simpl. rewrite fn_lookup_insert, Hw, Hk. simpl.
    unfold kind_of at 1. simpl. rewrite bool_decide_true by (by left). done.
Qed.

Lemma inv_step_disown s h l hl :
  lock_inv s -> harts s h = mk_hart Running hl -> holding h l (mach s) = true ->
  lock_inv (set_hart h (mk_hart (Unlocking l) (without l hl)) s
              (set_owner l None (mach s))).
Proof.
  intros Hinv Hh Hhold. apply andb_prop in Hhold as [_ Hc%bool_decide_eq_true].
  pose proof (lock_ok_section _ _ _ (proj1 Hinv l) Hc) as Hk. simpl in Hk.
  assert (l ∈ hl) as Hl.
  { rewrite Hh in Hk. unfold kind_of in Hk. simpl in Hk. by case_bool_decide. }
  destruct (lock_ok_owner _ h _ KReleasing (proj1 Hinv l)) as [Hw Hok];
    [by rewrite Hk|done|].
  destruct (proj2 Hinv h) as [Hnd Hfr Hno Hsi]. rewrite Hh in Hnd, Hno. simpl in *.
  eapply lock_inv_update with (l := l) (c := cpus (mach s) h); [done| | | | |].
  - split; simpl; [by apply without_NoDup| | |done].
    + intros l' [?|?]; simplify_eq. apply without_notin.
    + unfold depth in *. simpl in *. rewrite without_length by done. lia.
  - intros h'. simpl. case_decide as Hd; by subst.
  - intros l' Hl'. simpl. by rewrite fn_lookup_insert_ne.
  - intros l' Hl'. rewrite Hh. apply (kind_of_other l); simpl; auto.
    rewrite elem_of_without. tauto.
  - simpl. rewrite fn_lookup_insert, Hw, Hk. simpl.
    unfold kind_of at 1. simpl. rewrite bool_decide_false by apply without_notin.
    by rewrite bool_decide_true.
Qed.

Lemma pop_off_ok h m :
  sie (cpus m h) = false -> 1 <= noff (cpus m h) ->
  exists m', pop_off h m = LDone m' /\ locks m' = locks m /\
    cpus m' = <[h := mk_cpu (noff (cpus m h) - 1) (intena (cpus m h))
      ((noff (cpus m h) - 1 =? 0) && intena (cpus m h))]> (cpus m).
Proof.
  intros Hs Hn. unfold pop_off. rewrite Hs.
  destruct (Z.ltb_spec (noff (cpus m h)) 1); [lia|]. eauto.
Qed.

Lemma inv_step_unlock s h l hl m' :
  lock_inv s -> harts s h = mk_hart (Unlocking l) hl ->
  pop_off h (lock_release_word l (mach s)) = LDone m' ->
  lock_inv (set_hart h (mk_hart Running hl) s m').
Proof.
  intros Hinv Hh Hpop. destruct (proj2 Hinv h) as [Hnd Hfr Hno Hsi].
  rewrite Hh in Hnd, Hno, Hfr. unfold depth in Hno. simpl in *.
  specialize (Hfr l (or_intror eq_refl)).
  assert (kind_of l (harts s h) = KReleasing) as Hk.
  { rewrite Hh. unfold kind_of. simpl. by rewrite bool_decide_false, bool_decide_true. }
  destruct (lock_ok_owner _ h _ KReleasing (proj1 Hinv l)) as [Hw _]; [by rewrite Hk|done|].
  assert (lock_ok (<[h := KNone]> (fun h' => kind_of l (harts s h'))) (mk_spinlock 0 None))
    as Hok by (eapply lock_ok_free; [apply (proj1 Hinv l)|by rewrite Hk]).
  destruct (pop_off_ok h (lock_release_word l (mach s))) as (m1 & E & El & Ec);
    [simpl; apply Hsi; lia|simpl; lia|].
  rewrite E in Hpop. simplify_eq. simpl in *.
  eapply lock_inv_update with (l := l); [done| | | | |].
  2: { intros h'. rewrite Ec. case_decide as Hd.
       - subst h'. by rewrite fn_lookup_insert.
       - by rewrite fn_lookup_insert_ne. }
  - split; simpl; [done|intros l' [?|?]; done|unfold depth; simpl; lia|].
    intros Hz. destruct (Z.eqb_spec (noff (cpus (mach s) h) - 1) 0); [lia|done].
  - intros l' Hl'. rewrite El. simpl. by rewrite fn_lookup_insert_ne.
  - intros l' Hl'. rewrite Hh. by apply (kind_of_other l); auto.
  - rewrite El. simpl. rewrite fn_lookup_insert, Hw, Hk. simpl.
    unfold kind_of at 1. simpl. by rewrite bool_decide_false.
Qed.

Lemma inv_step_intr s h b hl :
  lock_inv s -> harts s h = mk_hart Running hl -> noff (cpus (mach s) h) = 0 ->
  lock_inv (set_hart h (mk_hart Running hl) s
              (set_cpu h (mk_cpu 0 (intena (cpus (mach s) h)) b) (mach s))).
Proof.
  intros Hinv Hh Hz. destruct (proj2 Hinv h) as [Hnd Hfr Hno Hsi].
  rewrite Hh in Hnd, Hno, Hfr. simpl in *.
  eapply lock_inv_update with (l := LkPid); [done| | |done| |].
  2: { intros h'. simpl. case_decide as Hd.
       - subst h'. by rewrite fn_lookup_insert.
       - by rewrite fn_lookup_insert_ne. }
  - split; simpl; [done|intros l' [?|?]; done|congruence|done].
  - intros l' Hl'. by rewrite Hh.
  - apply lock_ok_id; [by rewrite Hh|]. apply (proj1 Hinv).
Qed.

Lemma lock_inv_step s s' : lock_inv s -> step s s' -> lock_inv s'.
Proof.
  intros Hinv Hst. destruct Hst.
  - by apply inv_step_enter.
  - by apply inv_step_spin.
  - by apply inv_step_win.
  - by apply inv_step_own.
  - by apply inv_step_disown.
  - by eapply inv_step_unlock.
  - by apply inv_step_intr.
Qed.

Lemma lock_inv_reachable s : reachable s -> lock_inv s.
Proof.
  intros (s0 & Hi & Hr). apply lock_inv_initial in Hi. revert Hi.
  induction Hr; eauto using lock_inv_step.
Qed.

Lemma kind_of_held l x : l ∈ hheld x -> kind_of l x = KSection.
Proof. intros H. unfold kind_of. by rewrite bool_decide_true. Qed.

Lemma lock_ok_unique ks w h1 h2 :
  lock_ok ks w -> ks h1 <> KNone -> ks h2 <> KNone -> h1 = h2.
Proof.
  intros [[H _]|(h & _ & Hx & _)] H1 H2; [by rewrite H in H1|].
  destruct (decide (h1 = h)) as [->|N1]; [|by rewrite Hx in H1].
  destruct (decide (h2 = h)) as [->|N2]; [done|by rewrite Hx in H2].
Qed.

(** C12: over every interleaving of any number of harts running [acquire] and
    [release], at most one hart is inside the critical section of a lock, a
    hart inside one runs with interrupts off, and [holding] answers exactly
    whether the asking hart is inside. *)
Theorem mutual_exclusion s :
  reachable s ->
  (forall h1 h2 l, l ∈ hheld (harts s h1) -> l ∈ hheld (harts s h2) -> h1 = h2) /\
  (forall h l, l ∈ hheld (harts s h) -> sie (cpus (mach s) h) = false) /\
  (forall h l, holding h l (mach s) = true <-> l ∈ hheld (harts s h)).
Proof.
  intros [Hl Hh]%lock_inv_reachable. split_and!.
  - intros h1 h2 l H1 H2. eapply (lock_ok_unique _ _ _ _ (Hl l)); simpl;
      by rewrite kind_of_held.
  - intros h l H. destruct (Hh h) as [_ _ Hn Hs]. apply Hs. rewrite Hn. unfold depth.
    destruct (hheld (harts s h)); [by apply not_elem_of_nil in H|].
    simpl. case_match; lia.
  - intros h l. unfold holding. rewrite andb_true_iff, bool_decide_eq_true. split.
    + intros [_ Hc]. pose proof (lock_ok_section _ _ _ (Hl l) Hc) as Hk. simpl in Hk.
      unfold kind_of in Hk. case_bool_decide; [done|]. by repeat case_match.
    + intros Hin. destruct (lock_ok_owner _ h _ KSection (Hl l)) as [Hw _];
        [by rewrite kind_of_held|done|].
      simpl in Hw. rewrite kind_of_held in Hw by done. by rewrite Hw.
Qed.

Definition boot_system : system :=
  mk_system (mk_machine (fun _ => mk_cpu 0 false true) (fun _ => mk_spinlock 0 None))
            (fun _ => mk_hart Running []).

(** Hart 0 inside the section of [pid_lock] while hart 1 spins on it. *)
Definition busy_system : system :=
  let s1 := set_hart 0%nat (mk_hart (Spinning LkPid) []) boot_system
              (push_off 0%nat (mach boot_system)) in
  let s2 := set_hart 0%nat (mk_hart (Won LkPid) []) s1 (test_and_set LkPid (mach s1)).2 in
  let s3 := set_hart 0%nat (mk_hart Running [LkPid]) s2
              (set_owner LkPid (Some 0%nat) (mach s2)) in
  set_hart 1%nat (mk_hart (Spinning LkPid) []) s3 (push_off 1%nat (mach s3)).

Lemma busy_reachable : reachable busy_system.
Proof.
  exists boot_system. split; [by split|].
  eapply rtc_l; [apply (step_enter _ 0%nat LkPid []); done|].
  eapply rtc_l; [apply (step_win _ 0%nat LkPid []); done|].
  eapply rtc_l; [apply (step_own _ 0%nat LkPid []); done|].
  eapply rtc_l; [apply (step_enter _ 1%nat LkPid []); done|].
  apply rtc_refl.
Qed.

Lemma mutual_exclusion_witness :
  reachable busy_system /\ holding 0%nat LkPid (mach busy_system) = true /\
  LkPid ∈ hheld (harts busy_system 0%nat) /\ sie (cpus (mach busy_system) 0%nat) = false.
Proof.
  destruct (mutual_exclusion busy_system busy_reachable) as (_ & Hs & Hh).
  assert (LkPid ∈ hheld (harts busy_system 0%nat)) as Hin.
  { apply (proj1 (Hh 0%nat LkPid)). reflexivity. }
  split; [exact busy_reachable|]. split; [reflexivity|]. split; [exact Hin|].
  exact (Hs 0%nat LkPid Hin).
Defined.

(** ** Nesting of [push_off] and [pop_off] *)

Definition pushes (n h : nat) (m : machine) : machine := Nat.iter n (push_off h) m.

Fixpoint pops (n h : nat) (m : machine) : lresult :=
  match n with
  | O => LDone m
  | S n' =>
      match pop_off h m with LDone m' => pops n' h m' | r => r end
  end.

Lemma pushes_cpu n h m :
  noff (cpus m h) = 0 ->
  cpus (pushes (S n) h m) h = mk_cpu (Z.of_nat (S n)) (sie (cpus m h)) false.
Proof.
  intros Hz. induction n as [|n IH]; simpl in *.
  - rewrite fn_lookup_insert, Hz. done.
  - rewrite fn_lookup_insert, IH. simpl. f_equal. lia.
Qed.

Lemma pops_cpu k n h m b :
  (k <= n)%nat -> cpus m h = mk_cpu (Z.of_nat n) b false ->
  exists m', pops k h m = LDone m' /\ locks m' = locks m /\
    cpus m' h = mk_cpu (Z.of_nat (n - k)) b
      (if decide (k = n /\ k <> 0%nat) then b else false).
Proof.
  revert n m. induction k as [|k IH]; intros n m Hk Hc; simpl.
  - exists m. rewrite decide_False by lia. rewrite Nat.sub_0_r. done.
  - destruct (pop_off_ok h m) as (m1 & -> & El & Ec); rewrite ?Hc; simpl; [done|lia|].
    assert (cpus m1 h = mk_cpu (Z.of_nat (n - 1)) b (bool_decide (n = 1%nat) && b)) as Hc1.
    { rewrite Ec, fn_lookup_insert, Hc. simpl. f_equal; [lia|]. f_equal.
      case_bool_decide; [subst; done|]. destruct (Z.eqb_spec (Z.of_nat n - 1) 0); [lia|done]. }
    destruct (decide (n = 1%nat)) as [->|Hn].
    + assert (k = 0%nat) as -> by lia. simpl. exists m1. rewrite Hc1. done.
    + rewrite bool_decide_false in Hc1 by done.
      destruct (IH (n - 1)%nat m1) as (m' & -> & El' & Hc'); [lia|done|].
      exists m'. split; [done|]. split; [congruence|]. rewrite Hc'. f_equal; [lia|].
      destruct (decide (k = (n - 1)%nat /\ k <> 0%nat)), (decide (S k = n /\ S k <> 0%nat));
        try done; lia.
Qed.

(** [push_off]/[pop_off] nest: after [n] calls of [push_off], [k] calls of
    [pop_off] never panic, keep interrupts off while [k < n], and the [n]-th
    restores the interrupt flag the first [push_off] found. *)
Theorem push_pop_nesting n k h m :
  (1 <= n)%nat -> (k <= n)%nat -> noff (cpus m h) = 0 ->
  exists m', pops k h (pushes n h m) = LDone m' /\
    noff (cpus m' h) = Z.of_nat (n - k) /\
    sie (cpus m' h) = (if decide (k = n) then sie (cpus m h) else false).
Proof.
  intros Hn Hk Hz. destruct n as [|n]; [lia|].
  destruct (pops_cpu k (S n) h (pushes (S n) h m) (sie (cpus m h)))
    as (m' & E & _ & Hc); [lia|by apply pushes_cpu|].
  exists m'. rewrite Hc. split_and!; [done|done|]. simpl.
  destruct (decide (k = S n /\ k <> 0%nat)), (decide (k = S n)); try done; lia.
Qed.

Lemma push_pop_nesting_witness :
  exists m', pops 2 0 (pushes 2 0 (mach boot_system)) = LDone m' /\
    sie (cpus m' 0%nat) = true.
Proof.
  destruct (push_pop_nesting 2 2 0 (mach boot_system)) as (m' & E & _ & Hs);
    [lia|lia|reflexivity|].
  exists m'. split; [exact E|exact Hs].
Defined.

(** ** The monadic interface is what the code implements *)

(** Hart [h] of machine [m] holds exactly the locks [hl]. *)
Record holds_exactly (m : machine) (h : nat) (hl : list lockid) : Prop := {
  he_nodup : NoDup hl;
  he_iff l : holding h l m = true <-> l ∈ hl;
  he_noff : noff (cpus m h) = Z.of_nat (length hl);
  he_sie : hl <> [] -> sie (cpus m h) = false
}.

Lemma holding_push_off h l m : holding h l (push_off h m) = holding h l m.
Proof. done. Qed.

Lemma holding_set_other h l l' k m :
  l <> l' -> holding h l' (set_lock l k m) = holding h l' m.
Proof. intros Hne. unfold holding. simpl. by rewrite fn_lookup_insert_ne. Qed.

Lemma acquire_code_free h l m :
  holding h l m = false -> locked (locks m l) = 0 ->
  acquire_code h l m =
    LDone (set_owner l (Some h) (set_lock l (mk_spinlock 1 (lk_cpu (locks m l))) (push_off h m))).
Proof.
  intros Hh Hl. unfold acquire_code. rewrite holding_push_off, Hh. simpl. by rewrite Hl.
Qed.

Lemma holds_exactly_acquire m h hl l m' :
  holds_exactly m h hl -> l ∉ hl -> acquire_code h l m = LDone m' ->
  holds_exactly m' h (l :: hl).
Proof.
  intros [Hnd Hiff Hn Hs] Hl E. unfold acquire_code in E.
  rewrite holding_push_off in E. destruct (holding h l m) eqn:Eh.
  { by apply Hiff in Eh. }
  simpl in E. destruct (locked (locks m l) =? 0); [|done]. simplify_eq. split; simpl.
  - by constructor.
  - intros l'. rewrite elem_of_cons. destruct (decide (l = l')) as [->|Hne].
    + unfold holding. simpl. rewrite !fn_lookup_insert. simpl.
      rewrite bool_decide_true by done. tauto.
    + unfold set_owner. rewrite holding_set_other, holding_set_other by done.
      rewrite holding_push_off, Hiff. naive_solver.
  - rewrite fn_lookup_insert. simpl. lia.
  - by rewrite fn_lookup_insert.
Qed.

Lemma holds_exactly_release m h hl l :
  holds_exactly m h hl -> l ∈ hl ->
  exists m', release_code h l m = LDone m' /\ holds_exactly m' h (without l hl).
Proof.
  intros [Hnd Hiff Hn Hs] Hl. unfold release_code.
  rewrite (proj2 (Hiff l) Hl).
  assert (1 <= Z.of_nat (length hl)) as Hlen.
  { destruct hl; [by apply not_elem_of_nil in Hl|simpl; lia]. }
  assert (hl <> []) as Hnil by (intros ->; by apply not_elem_of_nil in Hl).
  destruct (pop_off_ok h (lock_release_word l (set_owner l None m)))
    as (m' & E & El & Ec); simpl; [by apply Hs|lia|].
  exists m'. split; [done|]. split.
  - by apply without_NoDup.
  - intros l'. rewrite elem_of_without, <- Hiff. unfold holding. rewrite El. simpl.
    destruct (decide (l = l')) as [->|Hne].
    + rewrite fn_lookup_insert. simpl. split; [done|by intros []].
    + rewrite !fn_lookup_insert_ne by done. naive_solver.
  - rewrite Ec, fn_lookup_insert, without_length by done. simpl. lia.
  - intros Hne. rewrite Ec, fn_lookup_insert. simpl.
    assert (Z.of_nat (length (without l hl)) = Z.of_nat (length hl) - 1)
      as Hw by by apply without_length.
    destruct (without l hl); [done|]. simpl in Hw.
    destruct (Z.eqb_spec (noff (cpus m h) - 1) 0); [lia|done].
Qed.

(** the abstract [acquire]/[release] that the other components use are
    refined by spinlock.c.  When this hart holds exactly the locks recorded in
    the monad state, the code panics exactly when the abstract operation does,
    with the same message, and otherwise (for [acquire]: when no other hart
    has the word, else it spins) ends in a machine whose held locks are the
    abstract result. *)
Theorem lock_interface_refined m h hl l (d : unit) :
  holds_exactly m h hl ->
  (match acquire l (mk_st hl d) with
   | Panic msg => acquire_code h l m = LPanic msg
   | Ret _ s' =>
       (locked (locks m l) = 0 ->
          exists m', acquire_code h l m = LDone m' /\ holds_exactly m' h (held s')) /\
       (locked (locks m l) <> 0 -> acquire_code h l m = LSpin)
   | _ => False
   end) /\
  (match release l (mk_st hl d) with
   | Panic msg => release_code h l m = LPanic msg
   | Ret _ s' => exists m', release_code h l m = LDone m' /\ holds_exactly m' h (held s')
   | _ => False
   end).
Proof.
  intros Hex. pose proof (he_iff _ _ _ Hex l) as Hiff.
  unfold acquire, release. simpl. case_bool_decide as Hl; simpl; split.
  - unfold acquire_code. rewrite holding_push_off. by rewrite (proj2 Hiff Hl).
  - by apply holds_exactly_release.
  - assert (holding h l m = false) as Hf by (destruct (holding h l m); naive_solver).
    split; intros Hw.
    + eexists. split; [by apply acquire_code_free|].
      eapply holds_exactly_acquire; [done|done|]. by apply acquire_code_free.
    + unfold acquire_code. rewrite holding_push_off, Hf. simpl.
      destruct (Z.eqb_spec (locked (locks m l)) 0); done.
  - unfold release_code. destruct (holding h l m) eqn:E; [|done]. naive_solver.
Qed.

Lemma lock_interface_refined_witness :
  exists m', acquire_code 0 LkPid (mach boot_system) = LDone m' /\
    holds_exactly m' 0 [LkPid].
Proof.
  destruct (lock_interface_refined (mach boot_system) 0 [] LkPid tt) as [Ha _].
  - split.
    + constructor.
    + intros l. split; [discriminate|intros H; inversion H].
    + reflexivity.
    + intros H. contradiction.
  - simpl in Ha. destruct Ha as [Ha _]. exact (Ha eq_refl).
Defined.
