(* ===== verification/Riscv.v ===== *)
(** * Constants and address arithmetic
      (kernel/riscv.h, kernel/memlayout.h, kernel/param.h)

    The macros that round addresses, split virtual addresses into page-table
    indices and pack page-table entries, on [uint64] values.  The theorems give
    their arithmetic meaning and the ranges on which they do not wrap. *)

From S2P Require Import Prelude.

Definition PGSIZE : Z := 4096.
Definition PGSHIFT : Z := 12.

Definition PGROUNDUP (sz : Z) : Z := Z.land (u64 (sz + PGSIZE - 1)) (Z.lnot (PGSIZE - 1)).
Definition PGROUNDDOWN (a : Z) : Z := Z.land a (Z.lnot (PGSIZE - 1)).

Definition PTE_V : Z := Z.shiftl 1 0.
Definition PTE_R : Z := Z.shiftl 1 1.
Definition PTE_W : Z := Z.shiftl 1 2.
Definition PTE_X : Z := Z.shiftl 1 3.
Definition PTE_U : Z := Z.shiftl 1 4.

Definition PA2PTE (pa : Z) : Z := u64 (Z.shiftl (Z.shiftr pa 12) 10).
Definition PTE2PA (pte : Z) : Z := u64 (Z.shiftl (Z.shiftr pte 10) 12).
Definition PTE_FLAGS (pte : Z) : Z := Z.land pte 0x3FF.

Definition PXMASK : Z := 0x1FF.
Definition PXSHIFT (level : Z) : Z := PGSHIFT + 9 * level.
Definition PX (level va : Z) : Z := Z.land (Z.shiftr va (PXSHIFT level)) PXMASK.

Definition MAXVA : Z := Z.shiftl 1 (9 + 9 + 9 + 12 - 1).

Definition SATP_SV39 : Z := Z.shiftl 8 60.
Definition MAKE_SATP (pagetable : Z) : Z := Z.lor SATP_SV39 (Z.shiftr pagetable 12).

Definition UART0 : Z := 0x10000000.
Definition UART0_IRQ : Z := 10.
Definition VIRTIO0 : Z := 0x10001000.
Definition VIRTIO0_IRQ : Z := 1.
Definition PLIC : Z := 0x0c000000.
Definition KERNBASE : Z := 0x80000000.
Definition PHYSTOP : Z := KERNBASE + 128 * 1024 * 1024.
Definition TRAMPOLINE : Z := MAXVA - PGSIZE.
Definition KSTACK (p : Z) : Z := TRAMPOLINE - (p + 1) * 2 * PGSIZE.
Definition TRAPFRAME : Z := TRAMPOLINE - PGSIZE.

(** kernel/param.h *)
Definition NCPU : Z := 8.
Definition MAX_THREAD : nat := 4.
Definition NOFILE : nat := 16.
Definition MAX_UINT : Z := 4000000000.
Definition USERSTACK : Z := 1.
Definition MAXARG : Z := 32.

(** Symbols placed by the linker script kernel.ld. *)
Class Image : Type := {
  kernel_end : Z;          (* char end[] *)
  etext : Z;               (* char etext[] *)
  trampoline : Z;          (* char trampoline[] *)
  image_layout :
    KERNBASE <= trampoline < etext /\ etext < kernel_end < PHYSTOP /\
    etext mod PGSIZE = 0 /\ trampoline mod PGSIZE = 0
}.

(** ** Rounding *)

Lemma land_lnot_ones a n :
  0 <= n -> Z.land a (Z.lnot (Z.ones n)) = a / 2 ^ n * 2 ^ n.
Proof.
  intros Hn. rewrite <- Z.ldiff_land, Z.ldiff_ones_r by done.
  by rewrite Z.shiftl_mul_pow2, Z.shiftr_div_pow2.
Qed.

Lemma PGROUNDDOWN_eq a : PGROUNDDOWN a = a / PGSIZE * PGSIZE.
Proof. unfold PGROUNDDOWN. exact (land_lnot_ones a 12 ltac:(lia)). Qed.

Lemma PGROUNDUP_eq sz :
  0 <= sz -> sz + PGSIZE - 1 < 2 ^ 64 ->
  PGROUNDUP sz = (sz + PGSIZE - 1) / PGSIZE * PGSIZE.
Proof.
  intros Hz Hlt. unfold PGROUNDUP, u64. rewrite Z.mod_small by (unfold PGSIZE in *; lia).
  exact (land_lnot_ones _ 12 ltac:(lia)).
Qed.

(** ** Bit fields *)

Lemma land_ones_mod a n : 0 <= n -> Z.land a (Z.ones n) = a mod 2 ^ n.
Proof. apply Z.land_ones. Qed.

Lemma PX_eq level va :
  0 <= level -> PX level va = va / 2 ^ (12 + 9 * level) mod 512.
Proof.
  intros Hl. unfold PX, PXSHIFT, PGSHIFT, PXMASK. rewrite Z.shiftr_div_pow2 by lia.
  exact (land_ones_mod _ 9 ltac:(lia)).
Qed.

Lemma PX_bound level va : 0 <= level -> 0 <= PX level va < 512.
Proof. intros. rewrite PX_eq by done. apply Z.mod_pos_bound. lia. Qed.

Lemma PTE_FLAGS_eq pte : PTE_FLAGS pte = pte mod 1024.
Proof. exact (land_ones_mod pte 10 ltac:(lia)). Qed.

(** A page-aligned physical address inside the 56 bits a PTE can hold. *)
Definition pa_ok (pa : Z) : Prop := 0 <= pa < 2 ^ 56 /\ pa mod PGSIZE = 0.

Lemma PA2PTE_eq pa : pa_ok pa -> PA2PTE pa = pa / 4.
Proof.
  intros [Hb Ha]. unfold PA2PTE, u64, PGSIZE in *.
  rewrite Z.shiftr_div_pow2, Z.shiftl_mul_pow2 by lia.
  rewrite Z.mod_small; [|split; lia].
  change (2 ^ 12) with 4096. change (2 ^ 10) with 1024.
  rewrite (Z.div_mod pa 4096) at 2 by lia. rewrite Ha, Z.add_0_r.
  replace (4096 * (pa / 4096)) with ((pa / 4096 * 1024) * 4) by lia.
  by rewrite Z.div_mul.
Qed.

Lemma lor_disjoint_add a b n :
  0 <= n -> 0 <= b < 2 ^ n -> a mod 2 ^ n = 0 -> Z.lor a b = a + b.
Proof.
  intros Hn Hb Ha.
  assert (Z.land a b = 0) as Hd.
  { rewrite <- (Z.mod_small b (2 ^ n)) by done. rewrite <- Z.land_ones by done.
    rewrite (Z.land_comm b), Z.land_assoc, Z.land_ones, Ha by done. apply Z.land_0_l. }
  pose proof (Z.add_lor_land a b). lia.
Qed.

Lemma PA2PTE_flags pa f :
  pa_ok pa -> 0 <= f < 1024 -> Z.lor (PA2PTE pa) f = pa / 4 + f.
Proof.
  intros Hp Hf. rewrite PA2PTE_eq by done. apply (lor_disjoint_add _ _ 10); [lia|done|].
  destruct Hp as [Hb Ha]. unfold PGSIZE in *.
  rewrite (Z.div_mod pa 4096) by lia. rewrite Ha, Z.add_0_r.
  replace (4096 * (pa / 4096)) with ((1024 * (pa / 4096)) * 4) by lia.
  rewrite Z.div_mul by lia. change (2 ^ 10) with 1024.
  rewrite Z.mul_comm. by apply Z.mod_mul.
Qed.

Lemma pte_pa pa f : pa_ok pa -> 0 <= f < 1024 -> PTE2PA (Z.lor (PA2PTE pa) f) = pa.
Proof.
  intros Hp Hf. rewrite PA2PTE_flags by done. destruct Hp as [Hb Ha].
  unfold PTE2PA, u64, PGSIZE in *. rewrite Z.shiftr_div_pow2, Z.shiftl_mul_pow2 by lia.
  change (2 ^ 12) with 4096. change (2 ^ 10) with 1024.
  assert (pa / 4 = pa / 4096 * 1024) as E.
  { rewrite (Z.div_mod pa 4096) at 1 by lia. rewrite Ha, Z.add_0_r.
    replace (4096 * (pa / 4096)) with ((pa / 4096 * 1024) * 4) by lia.
    by rewrite Z.div_mul. }
  rewrite E, Z.div_add_l, (Z.div_small f) by lia. rewrite Z.mod_small; [|lia].
  pose proof (Z.div_mod pa 4096 ltac:(lia)). lia.
Qed.

Lemma pte_flags pa f : pa_ok pa -> 0 <= f < 1024 -> PTE_FLAGS (Z.lor (PA2PTE pa) f) = f.
Proof.
  intros Hp Hf. rewrite PTE_FLAGS_eq, PA2PTE_flags by done. destruct Hp as [Hb Ha].
  unfold PGSIZE in *.
  assert (pa / 4 = pa / 4096 * 1024) as E.
  { rewrite (Z.div_mod pa 4096) at 1 by lia. rewrite Ha, Z.add_0_r.
    replace (4096 * (pa / 4096)) with ((pa / 4096 * 1024) * 4) by lia.
    by rewrite Z.div_mul. }
  rewrite E, Z.add_comm, Z.mod_add by lia. by apply Z.mod_small.
Qed.

(** A virtual address below [MAXVA] is its three indices and its page offset. *)
Lemma va_split va :
  0 <= va < MAXVA ->
  va = PX 2 va * 2 ^ 30 + PX 1 va * 2 ^ 21 + PX 0 va * 2 ^ 12 + va mod PGSIZE.
Proof.
  intros Hb. rewrite !PX_eq by lia. unfold PGSIZE.
  change (MAXVA) with (2 ^ 38) in Hb.
  change (12 + 9 * 2) with 30. change (12 + 9 * 1) with 21. change (12 + 9 * 0) with 12.
  change (2 ^ 30) with 1073741824. change (2 ^ 21) with 2097152. change (2 ^ 12) with 4096.
  change (2 ^ 38) with 274877906944 in Hb.
  Z.div_mod_to_equations. lia.
Qed.

Lemma PX_inj va va' :
  0 <= va < MAXVA -> 0 <= va' < MAXVA ->
  PX 2 va = PX 2 va' -> PX 1 va = PX 1 va' -> PX 0 va = PX 0 va' ->
  va / PGSIZE = va' / PGSIZE.
Proof.
  intros Hb Hb' H2 H1 H0.
  pose proof (va_split va Hb) as E. pose proof (va_split va' Hb') as E'.
  rewrite H2, H1, H0 in E. unfold PGSIZE in *.
  pose proof (Z.div_mod va 4096). pose proof (Z.div_mod va' 4096). lia.
Qed.

(** [PGROUNDUP] and [PGROUNDDOWN] give the least page boundary at or above,
    and the greatest at or below, their argument; [PGROUNDUP] wraps to 0
    exactly for the last, incomplete page of the 64-bit space. *)
Theorem page_rounding a :
  0 <= a < 2 ^ 64 ->
  (PGROUNDDOWN a mod PGSIZE = 0 /\ PGROUNDDOWN a <= a < PGROUNDDOWN a + PGSIZE) /\
  (a <= 2 ^ 64 - PGSIZE ->
     PGROUNDUP a mod PGSIZE = 0 /\ a <= PGROUNDUP a < a + PGSIZE) /\
  (2 ^ 64 - PGSIZE < a -> PGROUNDUP a = 0).
Proof.
  intros Ha. rewrite PGROUNDDOWN_eq. split_and!.
  - rewrite Z.mod_mul by done. done.
  - pose proof (Z.mod_pos_bound a PGSIZE eq_refl). pose proof (Z.div_mod a PGSIZE).
    unfold PGSIZE in *. lia.
  - pose proof (Z.mod_pos_bound a PGSIZE eq_refl). pose proof (Z.div_mod a PGSIZE).
    unfold PGSIZE in *. lia.
  - intros Hle. rewrite PGROUNDUP_eq by (unfold PGSIZE in *; lia).
    rewrite Z.mod_mul by done. split; [done|].
    pose proof (Z.mod_pos_bound (a + PGSIZE - 1) PGSIZE eq_refl).
    pose proof (Z.div_mod (a + PGSIZE - 1) PGSIZE). unfold PGSIZE in *. lia.
  - intros Hlt. unfold PGROUNDUP, u64.
    assert ((a + PGSIZE - 1) mod 2 ^ 64 = a + PGSIZE - 1 - 2 ^ 64) as ->.
    { rewrite <- (Z.mod_small (a + PGSIZE - 1 - 2 ^ 64) (2 ^ 64))
        by (unfold PGSIZE in *; lia).
      rewrite <- (Z.mod_add (a + PGSIZE - 1 - 2 ^ 64) 1) by lia. f_equal. lia. }
    rewrite (land_lnot_ones _ 12 ltac:(lia) : Z.land _ (Z.lnot (PGSIZE - 1)) = _).
    change (2 ^ 12) with PGSIZE. rewrite Z.div_small; [done|]. unfold PGSIZE in *. lia.
Qed.

Lemma page_rounding_witness :
  PGROUNDUP 4097 mod PGSIZE = 0 /\ PGROUNDUP (2 ^ 64 - 1) = 0.
Proof.
  split.
  - apply (page_rounding 4097); vm_compute; [split|]; discriminate || reflexivity.
  - apply (page_rounding (2 ^ 64 - 1)); vm_compute; [split|]; discriminate || reflexivity.
Defined.

(** packing and unpacking agree: a page-table entry made from a page address
    and ten flag bits gives both back, and the three indices [PX] select are
    in range and determine the page of a user address. *)
Theorem pte_roundtrip pa flags va va' :
  pa_ok pa -> 0 <= flags < 1024 -> 0 <= va < MAXVA -> 0 <= va' < MAXVA ->
  PTE2PA (Z.lor (PA2PTE pa) flags) = pa /\
  PTE_FLAGS (Z.lor (PA2PTE pa) flags) = flags /\
  (forall level, 0 <= level -> 0 <= PX level va < 512) /\
  (PX 2 va = PX 2 va' /\ PX 1 va = PX 1 va' /\ PX 0 va = PX 0 va' <->
   PGROUNDDOWN va = PGROUNDDOWN va').
Proof.
  intros Hpa Hf Hv Hv'. split_and!.
  - by apply pte_pa.
  - by apply pte_flags.
  - intros. by apply PX_bound.
  - split.
    + intros (H2 & H1 & H0). rewrite !PGROUNDDOWN_eq. f_equal. by apply PX_inj.
    + rewrite !PGROUNDDOWN_eq. intros E.
      assert (va / PGSIZE = va' / PGSIZE) as Ed by (unfold PGSIZE in *; lia).
      rewrite !PX_eq by lia.
      assert (forall x l, 0 <= l -> x / 2 ^ (12 + 9 * l) = x / PGSIZE / 2 ^ (9 * l)) as Hd.
      { intros x l Hl. rewrite Z.pow_add_r by lia. change (2 ^ 12) with PGSIZE.
        symmetry. apply Z.div_div; [done|]. apply Z.pow_pos_nonneg; lia. }
      rewrite !Hd, Ed by lia. done.
Qed.

Lemma pte_roundtrip_witness :
  PTE2PA (Z.lor (PA2PTE 0x80200000) 0x1F) = 0x80200000 /\ 0 <= PX 2 0x3FFFFFF000 < 512.
Proof.
  destruct (pte_roundtrip 0x80200000 0x1F 0x3FFFFFF000 0) as (H1 & _ & H2 & _).
  - split; [split; [discriminate|reflexivity]|reflexivity].
  - split; [discriminate|reflexivity].
  - split; [discriminate|reflexivity].
  - split; [discriminate|reflexivity].
  - split; [exact H1|]. apply H2. discriminate.
Defined.

(** the kernel stacks of the 64 processes are page-aligned virtual pages
    below the trampoline page, pairwise distinct, and the page just below
    each stack belongs to no other stack and not to the trampoline, so it can
    serve as a guard page. *)
Theorem kstack_layout i j :
  0 <= i < 64 -> 0 <= j < 64 ->
  KSTACK i mod PGSIZE = 0 /\ 0 < KSTACK i /\ KSTACK i + PGSIZE < TRAMPOLINE /\
  (i <> j -> KSTACK i <> KSTACK j) /\
  KSTACK i - PGSIZE <> KSTACK j /\ KSTACK i - PGSIZE <> TRAMPOLINE.
Proof.
  intros Hi Hj. unfold KSTACK, TRAMPOLINE, PGSIZE. change MAXVA with 274877906944.
  split_and!; lia.
Qed.

Lemma kstack_layout_witness : KSTACK 0 <> KSTACK 63 /\ 0 < KSTACK 63.
Proof.
  split.
  - apply (kstack_layout 0 63); lia.
  - apply (kstack_layout 63 0); lia.
Defined.
