(* ===== verification/Kalloc.v ===== *)
(** * Physical pages and their allocator (kernel/kalloc.c)

    Physical memory is a map from page addresses to page contents.  A page
    holds what the kernel keeps in it: the free-list link of [struct run],
    plain bytes, a page table, a trapframe, a [struct cpu_usage] or a
    [struct pipe] (the types that the kernel allocates with [kalloc]).
    Reading a page as something it does not hold, or a page that was freed, is
    a [Fault].

    The free list is the linked list threaded through the free pages, as in
    the code; the theorems relate it to an abstract list of distinct pages. *)

From S2P Require Import Prelude Spinlock Riscv.

(** ** Page contents *)

(** kernel/proc.h *)
Record cpu_usage : Type := mk_usage {
  sum_of_ticks : Z;
  start_tick : Z;
  quota : Z;
  last_sched_tick : Z;
  deadline : Z
}.

(** A trapframe is its 36 64-bit words, in the order of the struct. *)
Definition trapframe : Type := list Z.
Definition TF_kernel_satp : nat := 0.
Definition TF_kernel_sp : nat := 1.
Definition TF_kernel_trap : nat := 2.
Definition TF_epc : nat := 3.
Definition TF_kernel_hartid : nat := 4.
Definition TF_ra : nat := 5.
Definition TF_sp : nat := 6.
Definition TF_a0 : nat := 14.
Definition TF_a1 : nat := 15.
Definition TF_a7 : nat := 21.
Definition TF_words : nat := 36.

(** kernel/pipe.c *)
Definition PIPESIZE : Z := 512.
Record pipe : Type := mk_pipe {
  pdata : list Z;
  nread : Z;
  nwrite : Z;
  readopen : Z;
  writeopen : Z
}.

Inductive page : Type :=
| PgRun (next : Z)
| PgBytes (b : list Z)
| PgTable (t : list Z)
| PgTrapframe (tf : trapframe)
| PgUsage (u : cpu_usage)
| PgPipe (pi : pipe).

Record pmem : Type := mk_pmem { mem : gmap Z page; freelist : Z }.

Definition set_page (pa : Z) (pg : page) (s : pmem) : pmem :=
  mk_pmem (<[pa := pg]> (mem s)) (freelist s).
Definition set_freelist (r : Z) (s : pmem) : pmem := mk_pmem (mem s) r.

(** Bytes of a page after [memset(pa, c, PGSIZE)]. *)
Definition filled (c : Z) : page := PgBytes (replicate (Z.to_nat PGSIZE) c).

Definition run_next (pa : Z) (s : pmem) : option Z :=
  match mem s !! pa with Some (PgRun n) => Some n | _ => None end.

(** ** The code *)

Section kalloc.
Context {img : Image}.

Definition bad_page (pa : Z) : bool :=
  negb (pa mod PGSIZE =? 0) || (pa <? kernel_end) || (PHYSTOP <=? pa).

Definition kfree (pa : Z) : M pmem unit :=
  if bad_page pa then panic "kfree"
  else
    modify (set_page pa (filled 1)) ;;
    acquire LkKmem ;;
    fl <- gets freelist ;;
    modify (set_page pa (PgRun fl)) ;;
    modify (set_freelist pa) ;;
    release LkKmem.

Definition kalloc : M pmem Z :=
  acquire LkKmem ;;
  r <- gets freelist ;;
  (if r =? 0 then ret tt
   else next <- deref (run_next r) ;; modify (set_freelist next)) ;;
  release LkKmem ;;
  (if r =? 0 then ret tt else modify (set_page r (filled 5))) ;;
  ret r.

(** [for(; p + PGSIZE <= pa_end; p += PGSIZE) kfree(p);] *)
Fixpoint freerange_loop (fuel : nat) (p pa_end : Z) : M pmem unit :=
  match fuel with
  | O => nofuel
  | S fuel' =>
      if p + PGSIZE <=? pa_end then
        kfree p ;; freerange_loop fuel' (p + PGSIZE) pa_end
      else ret tt
  end.

Definition freerange (pa_start pa_end : Z) : M pmem unit :=
  let p := PGROUNDUP pa_start in
  freerange_loop (S (Z.to_nat ((pa_end - p) / PGSIZE))) p pa_end.

Definition kinit : M pmem unit := freerange kernel_end PHYSTOP.

(** ** The free list *)

Definition page_ok (pa : Z) : Prop :=
  pa mod PGSIZE = 0 /\ kernel_end <= pa < PHYSTOP.

Lemma bad_page_false pa : bad_page pa = false <-> page_ok pa.
Proof. unfold bad_page, page_ok. lia. Qed.

Lemma page_ok_nonzero pa : page_ok pa -> pa <> 0.
Proof.
  destruct image_layout as ([Ht Ht'] & [He He'] & _). unfold page_ok, KERNBASE in *. lia.
Qed.

Lemma page_ok_pa_ok pa : page_ok pa -> pa_ok pa.
Proof.
  destruct image_layout as ([Ht Ht'] & [He He'] & _).
  unfold page_ok, pa_ok, PHYSTOP, KERNBASE in *. intros. lia.
Qed.

(** [chain m a l]: following [next] from [a] visits exactly the pages [l]. *)
Fixpoint chain (m : gmap Z page) (a : Z) (l : list Z) : Prop :=
  match l with
  | [] => a = 0
  | p :: l' => a = p /\ exists n, m !! p = Some (PgRun n) /\ chain m n l'
  end.

(** The allocator's invariant, for the abstract free list [l]. *)
Record free_inv (s : pmem) (l : list Z) : Prop := {
  fi_chain : chain (mem s) (freelist s) l;
  fi_nodup : NoDup l;
  fi_pages pa pg : mem s !! pa = Some pg -> page_ok pa;
  fi_run pa n : mem s !! pa = Some (PgRun n) -> pa ∈ l
}.

(** The pages handed out and not yet freed. *)
Definition in_use (s : pmem) (l : list Z) (pa : Z) : Prop :=
  is_Some (mem s !! pa) /\ pa ∉ l.

Lemma chain_elem m a l p : chain m a l -> p ∈ l -> exists n, m !! p = Some (PgRun n).
Proof.
  revert a. induction l as [|q l IH]; intros a Hc Hp; [by apply not_elem_of_nil in Hp|].
  destruct Hc as (-> & n & Hn & Hc). apply elem_of_cons in Hp as [->|Hp]; eauto.
Qed.

Lemma chain_insert m a l p pg : p ∉ l -> chain m a l -> chain (<[p := pg]> m) a l.
Proof.
  revert a. induction l as [|q l IH]; intros a Hp Hc; [done|]. simpl in *.
  apply not_elem_of_cons in Hp as [Hpq Hp]. destruct Hc as (-> & n & Hn & Hc).
  split; [done|]. exists n. rewrite lookup_insert_ne by done. auto.
Qed.

Lemma free_inv_ok s l pa : free_inv s l -> pa ∈ l -> page_ok pa.
Proof.
  intros Hi Hp. destruct (chain_elem _ _ _ _ (fi_chain _ _ Hi) Hp) as [n Hn].
  by eapply fi_pages.
Qed.

(** Writing a page that is in use, with anything but a free-list link, keeps
    the invariant. *)
Lemma free_inv_write s l pa pg :
  free_inv s l -> in_use s l pa -> (forall n, pg <> PgRun n) ->
  free_inv (set_page pa pg s) l.
Proof.
  intros Hi [[pg0 Hpg0] Hp] Hpg. destruct Hi as [Hc Hnd Hok Hrun]. split; simpl.
  - by apply chain_insert.
  - done.
  - intros pa' pg' H. apply lookup_insert_Some in H as [[<- _]|[_ H]]; eauto.
  - intros pa' n H. apply lookup_insert_Some in H as [[<- ?]|[_ H]]; [|eauto].
    by destruct (Hpg n).
Qed.

Lemma in_use_write s l pa pg pa' :
  in_use s l pa' -> in_use (set_page pa pg s) l pa'.
Proof.
  intros [Hs Hl]. split; [|done]. simpl. rewrite lookup_insert_is_Some'. auto.
Qed.

Lemma kalloc_spec s l hl (Q : Z -> st pmem -> Prop) :
  free_inv s l -> LkKmem ∉ hl ->
  (l = [] -> Q 0 (mk_st hl s)) ->
  (forall p l' n, l = p :: l' -> mem s !! p = Some (PgRun n) -> page_ok p ->
     let s' := mk_pmem (<[p := filled 5]> (mem s)) n in
     free_inv s' l' -> in_use s' l' p -> (forall pa, in_use s l pa -> pa <> p /\ in_use s' l' pa) ->
     Q p (mk_st hl s')) ->
  wp kalloc Q (mk_st hl s).
Proof.
  intros Hi Hh Hnil Hcons. unfold kalloc.
  wp_step. apply wp_acquire; [done|]. cbn beta. wp_steps. simpl.
  destruct l as [|p l].
  - assert (freelist s = 0) as -> by apply Hi. simpl. wp_steps.
    apply wp_release_head; [done|]. wp_steps. by apply Hnil.
  - destruct (fi_chain _ _ Hi) as (Hfl & n & Hn & Hc).
    assert (page_ok p) as Hok by (eapply fi_pages; eauto).
    pose proof (page_ok_nonzero p Hok) as Hnz. rewrite Hfl.
    destruct (Z.eqb_spec p 0); [done|]. wp_steps. simpl.
    eapply wp_deref; [unfold run_next; simpl; by rewrite Hn|]. wp_steps. simpl.
    apply wp_release_head; [done|]. wp_steps. simpl.
    destruct Hi as [_ Hnd Hpg Hrun]. apply NoDup_cons in Hnd as [Hp Hnd].
    apply (Hcons p l n); [done|done|done| | |].
    + split; simpl.
      * by apply chain_insert.
      * done.
      * intros pa pg H. apply lookup_insert_Some in H as [[<- _]|[_ H]]; eauto.
      * intros pa n' H. apply lookup_insert_Some in H as [[<- ?]|[Hne H]]; [done|].
        apply Hrun in H. by apply elem_of_cons in H as [->|].
    + split; [|done]. simpl. by rewrite lookup_insert_eq.
    + intros pa [Hs Hl]. apply not_elem_of_cons in Hl as [Hne Hl].
      split; [done|]. split; [|done]. simpl. by rewrite lookup_insert_ne.
Qed.

Lemma kfree_spec s l hl pa (Q : unit -> st pmem -> Prop) :
  free_inv s l -> LkKmem ∉ hl -> page_ok pa -> pa ∉ l ->
  (let s' := mk_pmem (<[pa := PgRun (freelist s)]> (mem s)) pa in
   free_inv s' (pa :: l) ->
   (forall pa', in_use s l pa' -> pa' <> pa -> in_use s' (pa :: l) pa') ->
   Q tt (mk_st hl s')) ->
  wp (kfree pa) Q (mk_st hl s).
Proof.
  intros Hi Hh Hok Hl HQ. unfold kfree. rewrite (proj2 (bad_page_false pa) Hok).
  wp_steps. simpl. apply wp_acquire; [done|]. wp_steps. simpl.
  apply wp_release_head; [done|]. unfold set_page, set_freelist in *. simpl.
  rewrite insert_insert_eq.
  destruct Hi as [Hc Hnd Hpg Hrun]. apply HQ; [split; simpl|].
  - split; [done|]. exists (freelist s). split; [apply lookup_insert_eq|].
    by apply chain_insert.
  - by constructor.
  - intros pa' pg H. apply lookup_insert_Some in H as [[<- _]|[_ H]]; eauto.
  - intros pa' n H. apply lookup_insert_Some in H as [[<- ?]|[Hne H]]; [by left|].
    right. eauto.
  - intros pa' [Hs Hl'] Hne. split; simpl.
    + by rewrite lookup_insert_ne.
    + apply not_elem_of_cons. done.
Qed.

(** ** Boot-time population of the free list *)

(** The [n] consecutive pages from [p]. *)
Definition pages_from (p : Z) (n : nat) : list Z :=
  (fun k => p + Z.of_nat k * PGSIZE) <$> seq 0 n.

Lemma pages_from_S p n : pages_from p (S n) = p :: pages_from (p + PGSIZE) n.
Proof.
  unfold pages_from. simpl. f_equal; [lia|].
  rewrite <- fmap_S_seq, <- list_fmap_compose. apply list_fmap_ext.
  intros ? k _. simpl. lia.
Qed.

Lemma elem_of_pages_from pa p n :
  pa ∈ pages_from p n <-> exists k, (k < n)%nat /\ pa = p + Z.of_nat k * PGSIZE.
Proof.
  unfold pages_from. rewrite list_elem_of_fmap. split.
  - intros (k & -> & Hk%elem_of_seq). exists k. split; [lia|done].
  - intros (k & Hk & ->). exists k. split; [done|]. apply elem_of_seq. lia.
Qed.

Lemma freerange_loop_spec n fuel p pa_end s l hl (Q : unit -> st pmem -> Prop) :
  (n < fuel)%nat -> p + Z.of_nat n * PGSIZE <= pa_end < p + (Z.of_nat n + 1) * PGSIZE ->
  (forall k, (k < n)%nat -> page_ok (p + Z.of_nat k * PGSIZE)) ->
  free_inv s l -> LkKmem ∉ hl -> (forall pa, pa ∈ l -> pa < p) ->
  (forall s', free_inv s' (reverse (pages_from p n) ++ l) -> Q tt (mk_st hl s')) ->
  wp (freerange_loop fuel p pa_end) Q (mk_st hl s).
Proof.
  revert fuel p s l. induction n as [|n IH]; intros fuel p s l Hf Hb Hok Hi Hh Hlt HQ.
  - destruct fuel as [|fuel]; [lia|]. simpl.
    destruct (Z.leb_spec (p + PGSIZE) pa_end); [lia|]. apply wp_ret. by apply HQ.
  - destruct fuel as [|fuel]; [lia|]. simpl.
    assert (0 < PGSIZE) by (unfold PGSIZE; lia).
    destruct (Z.leb_spec (p + PGSIZE) pa_end); [|unfold PGSIZE in *; lia].
    wp_step. eapply kfree_spec; [done|done| | |].
    { specialize (Hok 0%nat ltac:(lia)). by rewrite Z.add_0_r in Hok. }
    { intros Hin%Hlt. lia. }
    intros s' Hi' _. cbn beta. eapply IH; [lia| | |exact Hi'|done| |].
    + unfold PGSIZE in *. lia.
    + intros k Hk. specialize (Hok (S k) ltac:(lia)).
      by replace (p + PGSIZE + Z.of_nat k * PGSIZE) with (p + Z.of_nat (S k) * PGSIZE) by lia.
    + intros pa [->|Hin]%elem_of_cons; [lia|]. apply Hlt in Hin. lia.
    + intros s'' Hi''. apply HQ. rewrite pages_from_S, reverse_cons, <- app_assoc. exact Hi''.
Qed.

Definition first_page : Z := PGROUNDUP kernel_end.
Definition npages : nat := Z.to_nat ((PHYSTOP - first_page) / PGSIZE).

Lemma first_page_bounds :
  first_page mod PGSIZE = 0 /\ kernel_end <= first_page < kernel_end + PGSIZE /\
  first_page <= PHYSTOP.
Proof.
  destruct image_layout as ([Ht Ht'] & [He He'] & _).
  unfold first_page. rewrite PGROUNDUP_eq; unfold PHYSTOP, KERNBASE, PGSIZE in *; lia.
Qed.

Lemma pages_ok k : (k < npages)%nat -> page_ok (first_page + Z.of_nat k * PGSIZE).
Proof.
  intros Hk. destruct first_page_bounds as (Ha & Hb & Hp).
  unfold npages, page_ok, PGSIZE in *. lia.
Qed.

Lemma page_ok_is_page pa : page_ok pa -> pa ∈ pages_from first_page npages.
Proof.
  intros [Ha Hb]. destruct first_page_bounds as (Hfa & Hfb & Hfp).
  apply elem_of_pages_from. exists (Z.to_nat ((pa - first_page) / PGSIZE)).
  assert (PHYSTOP mod 4096 = 0) by done.
  unfold npages, PGSIZE in *. split; lia.
Qed.

(** [kalloc] is total under the allocator's invariant.  With no free page
    it returns 0 and changes nothing; otherwise it returns a page that nobody
    was using, takes exactly that page off the free list, leaves the contents
    of every page in use alone, and no lock stays held. *)
Theorem kalloc_fresh s l hl :
  free_inv s l -> LkKmem ∉ hl ->
  exists r s', kalloc (mk_st hl s) = Ret r (mk_st hl s') /\
  match l with
  | [] => r = 0 /\ s' = s
  | p :: l' =>
      r = p /\ page_ok p /\ ~ in_use s l p /\ free_inv s' l' /\ in_use s' l' p /\
      (forall pa, in_use s l pa -> in_use s' l' pa /\ mem s' !! pa = mem s !! pa)
  end.
Proof.
  intros Hi Hh.
  assert (wp kalloc (fun r s1 => exists s', s1 = mk_st hl s' /\
    match l with
    | [] => r = 0 /\ s' = s
    | p :: l' =>
      r = p /\ page_ok p /\ ~ in_use s l p /\ free_inv s' l' /\ in_use s' l' p /\
      (forall pa, in_use s l pa -> in_use s' l' pa /\ mem s' !! pa = mem s !! pa)
    end) (mk_st hl s)) as Hwp.
  { eapply kalloc_spec; [done|done| |].
    - intros ->. eauto.
    - intros p l' n -> Hn Hok s' Hi' Hu Hus. exists s'. split; [done|].
      split_and!; [done|done| |done|done|].
      + intros [_ Hp]. apply Hp. by left.
      + intros pa Hpa. destruct (Hus pa Hpa) as [Hne Hu']. split; [done|].
        simpl. by rewrite lookup_insert_ne. }
  apply wp_run in Hwp as (r & s1 & E & s' & -> & H). eauto.
Qed.

(** [kfree] panics exactly on an address that is not a page of the managed
    range; freeing a page in use puts it at the head of the free list without
    touching the other pages in use, so the next [kalloc] returns it. *)
Theorem kfree_then_kalloc s l hl pa :
  free_inv s l -> LkKmem ∉ hl ->
  (~ page_ok pa -> kfree pa (mk_st hl s) = Panic "kfree") /\
  (in_use s l pa ->
     exists s' s'', kfree pa (mk_st hl s) = Ret tt (mk_st hl s') /\
       free_inv s' (pa :: l) /\ ~ in_use s' (pa :: l) pa /\
       (forall pa', in_use s l pa' -> pa' <> pa ->
          in_use s' (pa :: l) pa' /\ mem s' !! pa' = mem s !! pa') /\
       kalloc (mk_st hl s') = Ret pa (mk_st hl s'') /\ free_inv s'' l).
Proof.
  intros Hi Hh. split.
  - intros Hbad. unfold kfree. destruct (bad_page pa) eqn:E; [done|].
    by apply bad_page_false in E.
  - intros [[pg Hpg] Hpa].
    assert (page_ok pa) as Hok by (by eapply fi_pages).
    assert (wp (kfree pa ;; kalloc) (fun r s2 => exists s' s'',
      kfree pa (mk_st hl s) = Ret tt (mk_st hl s') /\
       free_inv s' (pa :: l) /\ ~ in_use s' (pa :: l) pa /\
       (forall pa', in_use s l pa' -> pa' <> pa ->
          in_use s' (pa :: l) pa' /\ mem s' !! pa' = mem s !! pa') /\
       r = pa /\ s2 = mk_st hl s'' /\ free_inv s'' l /\
       kalloc (mk_st hl s') = Ret r s2) (mk_st hl s)) as Hwp.
    { assert (wp (kfree pa) (fun _ s1 => s1 = mk_st hl
        (mk_pmem (<[pa := PgRun (freelist s)]> (mem s)) pa)) (mk_st hl s)) as Hrun
        by (by eapply kfree_spec).
      apply wp_run in Hrun as ([] & s1 & Erun & ->).
      wp_step. eapply kfree_spec; [done|done|done|done|].
      intros s' Hi' Hu'. cbn beta.
      assert (wp kalloc (fun r s2 => exists s'', r = pa /\ s2 = mk_st hl s'' /\ free_inv s'' l)
        (mk_st hl s')) as Hk.
      { eapply kalloc_spec; [done|done|done|].
        intros p l' n [= <- <-] Hn _ s'' Hi'' _ _. eauto. }
      apply wp_run in Hk as (r & s2 & Ek & s'' & -> & -> & Hi'').
      apply wp_run. exists pa, (mk_st hl s''). split; [done|].
      exists s', s''. split_and!; try done.
      - intros [_ Hin]. apply Hin. by left.
      - intros pa' Hpa' Hne. split; [by apply Hu'|].
        unfold s'. simpl. by rewrite lookup_insert_ne. }
    apply wp_run in Hwp as (r & s2 & _ & s' & s'' & H1 & H2 & H3 & H4 & -> & -> & H7 & H8).
    eauto 10.
Qed.

(** [kinit] terminates without panicking and puts every whole page between
    the end of the kernel image and [PHYSTOP] on the free list, each once. *)
Theorem kinit_frees_all hl :
  LkKmem ∉ hl ->
  exists s', kinit (mk_st hl (mk_pmem ∅ 0)) = Ret tt (mk_st hl s') /\
    free_inv s' (reverse (pages_from first_page npages)) /\
    (forall pa, pa ∈ reverse (pages_from first_page npages) <-> page_ok pa).
Proof.
  intros Hh.
  assert (wp kinit (fun _ s1 => exists s', s1 = mk_st hl s' /\
    free_inv s' (reverse (pages_from first_page npages))) (mk_st hl (mk_pmem ∅ 0))) as Hwp.
  { unfold kinit, freerange. fold first_page. fold npages.
    destruct first_page_bounds as (Ha & Hb & Hp).
    eapply (freerange_loop_spec npages) with (l := []); [lia| | | |done| |].
    - unfold npages, PGSIZE in *. lia.
    - apply pages_ok.
    - split; simpl; [done|constructor| |]; intros ? ?; by rewrite lookup_empty.
    - intros pa Hpa. by apply not_elem_of_nil in Hpa.
    - intros s' Hi. rewrite app_nil_r in Hi. eauto. }
  apply wp_run in Hwp as ([] & s1 & E & s' & -> & Hi). exists s'. split_and!; [done|done|].
  intros pa. rewrite elem_of_reverse. split; [|apply page_ok_is_page].
  intros (k & Hk & ->)%elem_of_pages_from. by apply pages_ok.
Qed.
End kalloc.

(** ** Witnesses: an image whose kernel ends two pages below [PHYSTOP] *)

Lemma small_image_layout :
  KERNBASE <= KERNBASE < KERNBASE + 4096 /\
  KERNBASE + 4096 < PHYSTOP - 8192 < PHYSTOP /\
  (KERNBASE + 4096) mod PGSIZE = 0 /\ KERNBASE mod PGSIZE = 0.
Proof. vm_compute. done. Qed.

Definition small_image : Image :=
  {| kernel_end := PHYSTOP - 8192; etext := KERNBASE + 4096; trampoline := KERNBASE;
     image_layout := small_image_layout |}.

(** One page free, the other in use. *)
Definition small_pmem : pmem :=
  mk_pmem (<[PHYSTOP - 4096 := PgRun 0]> {[PHYSTOP - 8192 := filled 5]}) (PHYSTOP - 4096).

Lemma small_free_inv : @free_inv small_image small_pmem [PHYSTOP - 4096].
Proof.
  split; simpl.
  - split; [done|]. exists 0. split; [apply lookup_insert_eq|done].
  - apply NoDup_singleton.
  - intros pa pg [[<- _]|[_ [<- _]%lookup_singleton_Some]]%lookup_insert_Some; by vm_compute.
  - intros pa n [[<- _]|[_ [_ ?]%lookup_singleton_Some]]%lookup_insert_Some; [by left|done].
Qed.

Lemma small_in_use : in_use small_pmem [PHYSTOP - 4096] (PHYSTOP - 8192).
Proof.
  split.
  - simpl. rewrite lookup_insert_ne by done. by rewrite lookup_singleton_eq.
  - apply (bool_decide_unpack _). by vm_compute.
Qed.

Lemma kalloc_fresh_witness :
  exists s', @kalloc (mk_st [] small_pmem) = Ret (PHYSTOP - 4096) (mk_st [] s') /\
    @free_inv small_image s' [].
Proof.
  destruct (@kalloc_fresh small_image small_pmem [PHYSTOP - 4096] [] small_free_inv
              (not_elem_of_nil _)) as (r & s' & E & -> & _ & _ & Hi & _).
  exists s'. split; [exact E|exact Hi].
Defined.

Lemma kfree_then_kalloc_witness :
  @kfree small_image 12 (mk_st [] small_pmem) = Panic "kfree" /\
  exists s', @kfree small_image (PHYSTOP - 8192) (mk_st [] small_pmem) = Ret tt (mk_st [] s').
Proof.
  destruct (@kfree_then_kalloc small_image small_pmem [PHYSTOP - 4096] [] 12 small_free_inv
              (not_elem_of_nil _)) as [H1 _].
  destruct (@kfree_then_kalloc small_image small_pmem [PHYSTOP - 4096] [] (PHYSTOP - 8192)
              small_free_inv (not_elem_of_nil _)) as [_ H2].
  split.
  - apply H1. intros [H _]. discriminate H.
  - destruct (H2 small_in_use) as (s' & s'' & E & _). exists s'. exact E.
Defined.

Lemma kinit_frees_all_witness :
  exists s', @kinit small_image (mk_st [] (mk_pmem ∅ 0)) = Ret tt (mk_st [] s') /\
    @free_inv small_image s' [PHYSTOP - 4096; PHYSTOP - 8192].
Proof.
  destruct (@kinit_frees_all small_image [] (not_elem_of_nil _)) as (s' & E & Hi & _).
  exists s'. split; [exact E|exact Hi].
Defined.
