(* ===== verification/Vm.v ===== *)
(** * Virtual memory (kernel/vm.c): the code

    One definition per function of vm.c, on the physical memory of Kalloc.v.
    A [pagetable_t] is the address of the page that holds the table, a
    [pte_t *] the pair of that address and an index.  Loops carry fuel equal
    to (or above) the number of pages or bytes they visit; VmProofs.v shows it
    is never exhausted. *)

From S2P Require Import Prelude Spinlock Riscv Kalloc.

(** ** Page-table entries in memory *)

Definition table_at (a : Z) (s : pmem) : option (list Z) :=
  match mem s !! a with Some (PgTable t) => Some t | _ => None end.
Definition bytes_at (a : Z) (s : pmem) : option (list Z) :=
  match mem s !! a with Some (PgBytes b) => Some b | _ => None end.

Definition pte_ptr : Type := Z * Z.

Definition load_pte (p : pte_ptr) : M pmem Z :=
  t <- deref (table_at p.1) ;; deref (fun _ => t !! Z.to_nat p.2).

Definition store_pte (p : pte_ptr) (v : Z) : M pmem unit :=
  t <- deref (table_at p.1) ;;
  _ <- deref (fun _ => t !! Z.to_nat p.2) ;;
  modify (set_page p.1 (PgTable (<[Z.to_nat p.2 := v]> t))).

(** [memset(p, 0, PGSIZE)], on a page about to be used as a table and on a
    page of bytes; address 0, which [kalloc] returns when out of memory, is
    not a page. *)
Definition empty_table : list Z := replicate 512 0.
Definition zero_table (a : Z) : M pmem unit :=
  _ <- deref (fun s => mem s !! a) ;; modify (set_page a (PgTable empty_table)).
Definition zero_page (a : Z) : M pmem unit :=
  _ <- deref (fun s => mem s !! a) ;; modify (set_page a (filled 0)).

(** [memmove] out of and into a page of bytes, at an offset inside it. *)
Definition read_bytes (pa off n : Z) : M pmem (list Z) :=
  b <- deref (bytes_at pa) ;; ret (take (Z.to_nat n) (drop (Z.to_nat off) b)).

Definition splice (b : list Z) (off : nat) (src : list Z) : list Z :=
  take off b ++ src ++ drop (off + length src) b.

Definition write_bytes (pa off : Z) (src : list Z) : M pmem unit :=
  b <- deref (bytes_at pa) ;; modify (set_page pa (PgBytes (splice b (Z.to_nat off) src))).

Definition flag_set (pte f : Z) : bool := negb (Z.land pte f =? 0).

Section vm.
Context {img : Image}.

(** ** Walking *)

(** The loop of [walk] from level [level] down to 1. *)
Fixpoint walk_from (level : nat) (pagetable va : Z) (alloc : bool) : M pmem (option pte_ptr) :=
  match level with
  | O => ret (Some (pagetable, PX 0 va))
  | S level' =>
      let pte := (pagetable, PX (Z.of_nat level) va) in
      v <- load_pte pte ;;
      if flag_set v PTE_V then walk_from level' (PTE2PA v) va alloc
      else if negb alloc then ret None
      else
        r <- kalloc ;;
        if r =? 0 then ret None
        else
          zero_table r ;;
          store_pte pte (Z.lor (PA2PTE r) PTE_V) ;;
          walk_from level' r va alloc
  end.

Definition walk (pagetable va : Z) (alloc : bool) : M pmem (option pte_ptr) :=
  if MAXVA <=? va then panic "walk" else walk_from 2 pagetable va alloc.

Definition walkaddr (pagetable va : Z) : M pmem Z :=
  if MAXVA <=? va then ret 0
  else
    pte <- walk pagetable va false ;;
    match pte with
    | None => ret 0
    | Some p =>
        v <- load_pte p ;;
        if negb (flag_set v PTE_V) then ret 0
        else if negb (flag_set v PTE_U) then ret 0
        else ret (PTE2PA v)
    end.

(** ** Mapping and unmapping *)

Fixpoint mappages_loop (fuel : nat) (pagetable a last pa perm : Z) : M pmem Z :=
  match fuel with
  | O => nofuel
  | S fuel' =>
      pte <- walk pagetable a true ;;
      match pte with
      | None => ret (-1)
      | Some p =>
          v <- load_pte p ;;
          if flag_set v PTE_V then panic "mappages: remap"
          else
            store_pte p (Z.lor (Z.lor (PA2PTE pa) perm) PTE_V) ;;
            if a =? last then ret 0
            else mappages_loop fuel' pagetable (u64 (a + PGSIZE)) last (u64 (pa + PGSIZE)) perm
      end
  end.

Definition mappages (pagetable va size pa perm : Z) : M pmem Z :=
  if negb (va mod PGSIZE =? 0) then panic "mappages: va not aligned"
  else if negb (size mod PGSIZE =? 0) then panic "mappages: size not aligned"
  else if size =? 0 then panic "mappages: size"
  else
    mappages_loop (Z.to_nat (size / PGSIZE)) pagetable va (u64 (va + size - PGSIZE)) pa perm.

Definition kvmmap (kpgtbl va pa sz perm : Z) : M pmem unit :=
  r <- mappages kpgtbl va sz pa perm ;;
  if negb (r =? 0) then panic "kvmmap" else ret tt.

Fixpoint uvmunmap_loop (fuel : nat) (pagetable a stop : Z) (do_free : bool) : M pmem unit :=
  match fuel with
  | O => nofuel
  | S fuel' =>
      if a <? stop then
        pte <- walk pagetable a false ;;
        match pte with
        | None => panic "uvmunmap: walk"
        | Some p =>
            v <- load_pte p ;;
            if negb (flag_set v PTE_V) then panic "uvmunmap: not mapped"
            else if PTE_FLAGS v =? PTE_V then panic "uvmunmap: not a leaf"
            else
              when do_free (kfree (PTE2PA v)) ;;
              store_pte p 0 ;;
              uvmunmap_loop fuel' pagetable (u64 (a + PGSIZE)) stop do_free
        end
      else ret tt
  end.

Definition uvmunmap (pagetable va npages : Z) (do_free : bool) : M pmem unit :=
  if negb (va mod PGSIZE =? 0) then panic "uvmunmap: not aligned"
  else uvmunmap_loop (S (Z.to_nat npages)) pagetable va (u64 (va + npages * PGSIZE)) do_free.

(** ** User address spaces *)

Definition uvmcreate : M pmem Z :=
  pagetable <- kalloc ;;
  if pagetable =? 0 then ret 0
  else zero_table pagetable ;; ret pagetable.

(** [memmove(mem, src, sz)] into a zeroed page. *)
Definition uvmfirst (pagetable : Z) (src : list Z) : M pmem unit :=
  if PGSIZE <=? Z.of_nat (length src) then panic "uvmfirst: more than a page"
  else
    m <- kalloc ;;
    zero_page m ;;
    _ <- mappages pagetable 0 PGSIZE m
           (Z.lor (Z.lor (Z.lor PTE_W PTE_R) PTE_X) PTE_U) ;;
    write_bytes m 0 src.

Definition uvmdealloc (pagetable oldsz newsz : Z) : M pmem Z :=
  if oldsz <=? newsz then ret oldsz
  else
    when (PGROUNDUP newsz <? PGROUNDUP oldsz)
      (let npages := (PGROUNDUP oldsz - PGROUNDUP newsz) / PGSIZE in
       uvmunmap pagetable (PGROUNDUP newsz) (u64 (i32 npages)) true) ;;
    ret newsz.

Fixpoint uvmalloc_loop (fuel : nat) (pagetable a oldsz newsz xperm : Z) : M pmem Z :=
  match fuel with
  | O => nofuel
  | S fuel' =>
      if a <? newsz then
        m <- kalloc ;;
        if m =? 0 then
          _ <- uvmdealloc pagetable a oldsz ;; ret 0
        else
          zero_page m ;;
          r <- mappages pagetable a PGSIZE m (Z.lor (Z.lor PTE_R PTE_U) xperm) ;;
          if negb (r =? 0) then
            kfree m ;;
            _ <- uvmdealloc pagetable a oldsz ;; ret 0
          else uvmalloc_loop fuel' pagetable (u64 (a + PGSIZE)) oldsz newsz xperm
      else ret newsz
  end.

Definition uvmalloc (pagetable oldsz newsz xperm : Z) : M pmem Z :=
  if newsz <? oldsz then ret oldsz
  else
    let oldsz := PGROUNDUP oldsz in
    uvmalloc_loop (S (Z.to_nat ((newsz - oldsz + PGSIZE - 1) / PGSIZE)))
      pagetable oldsz oldsz newsz xperm.

(** [depth] bounds the recursion by the number of levels of the tree. *)
Fixpoint freewalk (depth : nat) (pagetable : Z) : M pmem unit :=
  match depth with
  | O => nofuel
  | S depth' =>
      for_each (seq 0 512) (fun i =>
        let slot := (pagetable, Z.of_nat i) in
        pte <- load_pte slot ;;
        if flag_set pte PTE_V && (Z.land pte (Z.lor (Z.lor PTE_R PTE_W) PTE_X) =? 0) then
          let child := PTE2PA pte in
          freewalk depth' child ;;
          store_pte slot 0
        else if flag_set pte PTE_V then panic "freewalk: leaf"
        else ret tt) ;;
      kfree pagetable
  end.

Definition uvmfree (pagetable sz : Z) : M pmem unit :=
  when (0 <? sz) (uvmunmap pagetable 0 (PGROUNDUP sz / PGSIZE) true) ;;
  freewalk 3 pagetable.

(** The [err:] path of [uvmcopy]. *)
Definition uvmcopy_err (new i : Z) : M pmem Z :=
  uvmunmap new 0 (i / PGSIZE) true ;; ret (-1).

Fixpoint uvmcopy_loop (fuel : nat) (old new i sz : Z) : M pmem Z :=
  match fuel with
  | O => nofuel
  | S fuel' =>
      if i <? sz then
        pte <- walk old i false ;;
        match pte with
        | None => panic "uvmcopy: pte should exist"
        | Some p =>
            v <- load_pte p ;;
            if negb (flag_set v PTE_V) then panic "uvmcopy: page not present"
            else
              m <- kalloc ;;
              if m =? 0 then uvmcopy_err new i
              else
                b <- read_bytes (PTE2PA v) 0 PGSIZE ;;
                write_bytes m 0 b ;;
                r <- mappages new i PGSIZE m (PTE_FLAGS v) ;;
                if negb (r =? 0) then kfree m ;; uvmcopy_err new i
                else uvmcopy_loop fuel' old new (u64 (i + PGSIZE)) sz
        end
      else ret 0
  end.

Definition uvmcopy (old new sz : Z) : M pmem Z :=
  uvmcopy_loop (S (Z.to_nat ((sz + PGSIZE - 1) / PGSIZE))) old new 0 sz.

Definition uvmclear (pagetable va : Z) : M pmem unit :=
  pte <- walk pagetable va false ;;
  match pte with
  | None => panic "uvmclear"
  | Some p => v <- load_pte p ;; store_pte p (Z.land v (Z.lnot PTE_U))
  end.

(** ** Copies between kernel and user memory

    The kernel buffer is a list of bytes; [copyin] and [copyinstr] return,
    with their status, the bytes stored into [dst] so far. *)

Definition writable_user (v : Z) : bool :=
  flag_set v PTE_V && flag_set v PTE_U && flag_set v PTE_W.

Fixpoint copyout_loop (fuel : nat) (pagetable dstva : Z) (src : list Z) : M pmem Z :=
  match fuel with
  | O => nofuel
  | S fuel' =>
      if 0 <? Z.of_nat (length src) then
        let va0 := PGROUNDDOWN dstva in
        if MAXVA <=? va0 then ret (-1)
        else
          pte <- walk pagetable va0 false ;;
          match pte with
          | None => ret (-1)
          | Some p =>
              v <- load_pte p ;;
              if negb (writable_user v) then ret (-1)
              else
                let pa0 := PTE2PA v in
                let n := Z.min (PGSIZE - (dstva - va0)) (Z.of_nat (length src)) in
                write_bytes pa0 (dstva - va0) (take (Z.to_nat n) src) ;;
                copyout_loop fuel' pagetable (u64 (va0 + PGSIZE)) (drop (Z.to_nat n) src)
          end
      else ret 0
  end.

Definition copyout (pagetable dstva : Z) (src : list Z) : M pmem Z :=
  copyout_loop (S (length src)) pagetable dstva src.

Fixpoint copyin_loop (fuel : nat) (pagetable srcva len : Z) (dst : list Z)
    : M pmem (Z * list Z) :=
  match fuel with
  | O => nofuel
  | S fuel' =>
      if 0 <? len then
        let va0 := PGROUNDDOWN srcva in
        pa0 <- walkaddr pagetable va0 ;;
        if pa0 =? 0 then ret (-1, dst)
        else
          let n := Z.min (PGSIZE - (srcva - va0)) len in
          b <- read_bytes pa0 (srcva - va0) n ;;
          copyin_loop fuel' pagetable (u64 (va0 + PGSIZE)) (len - n) (dst ++ b)
      else ret (0, dst)
  end.

Definition copyin (pagetable srcva len : Z) : M pmem (Z * list Z) :=
  copyin_loop (S (Z.to_nat len)) pagetable srcva len [].

(** The inner loop of [copyinstr] over the [n] bytes of a page: the bytes
    stored, and whether the terminator was among them. *)
Fixpoint copystr (b : list Z) : list Z * bool :=
  match b with
  | [] => ([], false)
  | c :: b' =>
      if c =? 0 then ([0], true)
      else let '(r, nul) := copystr b' in (c :: r, nul)
  end.

Fixpoint copyinstr_loop (fuel : nat) (pagetable srcva mx : Z) (dst : list Z)
    : M pmem (Z * list Z) :=
  match fuel with
  | O => nofuel
  | S fuel' =>
      if 0 <? mx then
        let va0 := PGROUNDDOWN srcva in
        pa0 <- walkaddr pagetable va0 ;;
        if pa0 =? 0 then ret (-1, dst)
        else
          let n := Z.min (PGSIZE - (srcva - va0)) mx in
          b <- read_bytes pa0 (srcva - va0) n ;;
          let '(out, got_null) := copystr b in
          if got_null : bool then ret (0, dst ++ out)
          else copyinstr_loop fuel' pagetable (u64 (va0 + PGSIZE)) (mx - n) (dst ++ out)
      else ret (-1, dst)
  end.

Definition copyinstr (pagetable srcva mx : Z) : M pmem (Z * list Z) :=
  copyinstr_loop (S (Z.to_nat mx)) pagetable srcva mx [].

(** ** The kernel's page table *)

(** [proc_mapstacks] of kernel/proc.c. *)
Definition proc_mapstacks (kpgtbl : Z) : M pmem unit :=
  for_each (seq 0 64) (fun p =>
    pa <- kalloc ;;
    if pa =? 0 then panic "kalloc"
    else kvmmap kpgtbl (KSTACK (Z.of_nat p)) pa PGSIZE (Z.lor PTE_R PTE_W)).

Definition kvmmake : M pmem Z :=
  kpgtbl <- kalloc ;;
  zero_table kpgtbl ;;
  kvmmap kpgtbl UART0 UART0 PGSIZE (Z.lor PTE_R PTE_W) ;;
  kvmmap kpgtbl VIRTIO0 VIRTIO0 PGSIZE (Z.lor PTE_R PTE_W) ;;
  kvmmap kpgtbl PLIC PLIC 0x4000000 (Z.lor PTE_R PTE_W) ;;
  kvmmap kpgtbl KERNBASE KERNBASE (etext - KERNBASE) (Z.lor PTE_R PTE_X) ;;
  kvmmap kpgtbl etext etext (PHYSTOP - etext) (Z.lor PTE_R PTE_W) ;;
  kvmmap kpgtbl TRAMPOLINE trampoline PGSIZE (Z.lor PTE_R PTE_X) ;;
  proc_mapstacks kpgtbl ;;
  ret kpgtbl.
End vm.
