(* ===== verification/VmProofs.v ===== *)
(** * Virtual memory: what the page-table code establishes

    The tree that [walk] builds in memory is described by a finite map from
    the path of a table (the indices followed from the root, last one first)
    to the page that holds it.  [pt_inv] says the memory contains exactly that
    tree; [pte_of] is the resulting map from virtual addresses to entries, and
    the theorems state what each function of Vm.v does to it, to the free list
    and to the pages it does not own. *)

From S2P Require Import Prelude Spinlock Riscv Kalloc Vm.
Ltac Zify.zify_post_hook ::= Z.to_euclidean_division_equations.

Section vmproofs.
Context {img : Image}.
Implicit Types (s : pmem) (l : list Z) (tbl : gmap (list Z) Z) (hl : list lockid).

(** ** The tree of tables *)

Definition entry_ok tbl (p : list Z) (i v : Z) : Prop :=
  if flag_set v PTE_V then PTE_FLAGS v = PTE_V /\ tbl !! (i :: p) = Some (PTE2PA v)
  else tbl !! (i :: p) = None.

Record pt_inv s (root : Z) tbl : Prop := {
  pt_root : tbl !! [] = Some root;
  pt_inj p q a : tbl !! p = Some a -> tbl !! q = Some a -> p = q;
  pt_up p i a : tbl !! (i :: p) = Some a ->
    is_Some (tbl !! p) /\ 0 <= i < 512 /\ (length p < 2)%nat /\ (p = [] -> i < 256);
  pt_node p a : tbl !! p = Some a ->
    exists t, table_at a s = Some t /\ length t = 512%nat /\
      ((length p < 2)%nat -> forall i, 0 <= i < 512 -> entry_ok tbl p i (t !!! Z.to_nat i))
}.

(** A page is one of the tree's tables. *)
Definition is_table tbl (pa : Z) : Prop := exists p, tbl !! p = Some pa.

Definition leaf_path (va : Z) : list Z := [PX 1 va; PX 2 va].
Definition leaf_slot tbl (va : Z) : option pte_ptr :=
  (fun a => (a, PX 0 va)) <$> tbl !! leaf_path va.

(** The entry that translates [va]; 0 where the tree has no leaf table. *)
Definition pte_of s tbl (va : Z) : Z :=
  match tbl !! leaf_path va with
  | Some a => match table_at a s with Some t => t !!! Z.to_nat (PX 0 va) | None => 0 end
  | None => 0
  end.

Lemma table_at_mem a s t : table_at a s = Some t <-> mem s !! a = Some (PgTable t).
Proof. unfold table_at. destruct (mem s !! a) as [[]|]; split; congruence. Qed.

Lemma bytes_at_mem a s b : bytes_at a s = Some b <-> mem s !! a = Some (PgBytes b).
Proof. unfold bytes_at. destruct (mem s !! a) as [[]|]; split; congruence. Qed.

Lemma table_in_use s l root tbl p a :
  free_inv s l -> pt_inv s root tbl -> tbl !! p = Some a -> in_use s l a.
Proof.
  intros Hf Hp Ha. destruct (pt_node _ _ _ Hp _ _ Ha) as (t & Ht%table_at_mem & _).
  split; [by rewrite Ht|]. intros Hin.
  destruct (chain_elem _ _ _ _ (fi_chain _ _ Hf) Hin). congruence.
Qed.

(** The invariant and the translation only read the tables. *)
Lemma pt_inv_frame s s' root tbl :
  pt_inv s root tbl -> (forall a, is_table tbl a -> mem s' !! a = mem s !! a) ->
  pt_inv s' root tbl.
Proof.
  intros [Hr Hi Hu Hn] Hm. split; [done|done|done|].
  intros p a Ha. destruct (Hn p a Ha) as (t & Ht & Hl & He). exists t. split_and!; [|done|done].
  unfold table_at in *. rewrite Hm; [done|by exists p].
Qed.

Lemma pte_of_frame s s' tbl va :
  (forall a, is_table tbl a -> mem s' !! a = mem s !! a) -> pte_of s' tbl va = pte_of s tbl va.
Proof.
  intros Hm. unfold pte_of. destruct (tbl !! leaf_path va) as [a|] eqn:Ha; [|done].
  unfold table_at. rewrite Hm; [done|by eexists].
Qed.

Lemma pte_of_slot s tbl va a t :
  tbl !! leaf_path va = Some a -> table_at a s = Some t ->
  pte_of s tbl va = t !!! Z.to_nat (PX 0 va).
Proof. unfold pte_of. by intros -> ->. Qed.

Lemma table_lookup (t : list Z) i :
  length t = 512%nat -> 0 <= i < 512 -> t !! Z.to_nat i = Some (t !!! Z.to_nat i).
Proof. intros Hl Hi. apply list_lookup_lookup_total_lt. lia. Qed.

(** ** Loads and stores of entries *)

Lemma load_pte_run s hl a i t :
  table_at a s = Some t -> length t = 512%nat -> 0 <= i < 512 ->
  load_pte (a, i) (mk_st hl s) = Ret (t !!! Z.to_nat i) (mk_st hl s).
Proof.
  intros Ht Hl Hi. unfold load_pte, bind, deref. simpl. rewrite Ht. simpl.
  by rewrite table_lookup.
Qed.

Lemma store_pte_run s hl a i t v :
  table_at a s = Some t -> length t = 512%nat -> 0 <= i < 512 ->
  store_pte (a, i) v (mk_st hl s) =
    Ret tt (mk_st hl (set_page a (PgTable (<[Z.to_nat i := v]> t)) s)).
Proof.
  intros Ht Hl Hi. unfold store_pte, bind, deref. simpl. rewrite Ht. simpl.
  by rewrite table_lookup.
Qed.

(** ** [walk] without allocation *)

Lemma walk_lookup s hl root tbl va :
  pt_inv s root tbl -> 0 <= va < MAXVA ->
  walk root va false (mk_st hl s) = Ret (leaf_slot tbl va) (mk_st hl s).
Proof.
  intros Hp Hva. unfold walk. destruct (Z.leb_spec MAXVA va); [lia|].
  destruct (pt_node _ _ _ Hp _ _ (pt_root _ _ _ Hp)) as (t2 & Ht2 & Hl2 & He2).
  pose proof (PX_bound 2 va ltac:(lia)) as H2. pose proof (PX_bound 1 va ltac:(lia)) as H1.
  specialize (He2 ltac:(simpl; lia) _ H2). unfold leaf_slot, leaf_path, entry_ok in *.
  cbn [walk_from Z.of_nat]. unfold bind at 1. rewrite (load_pte_run _ _ _ _ t2) by done. cbn [obind].
  change (Z.pos (Pos.of_succ_nat 1)) with 2. change (Z.pos (Pos.of_succ_nat 0)) with 1.
  destruct (flag_set _ _).
  - destruct He2 as [_ Hc]. destruct (pt_node _ _ _ Hp _ _ Hc) as (t1 & Ht1 & Hl1 & He1).
    specialize (He1 ltac:(simpl; lia) _ H1). unfold entry_ok in He1.
    unfold bind at 1. rewrite (load_pte_run _ _ _ _ t1) by done. cbn [obind].
    destruct (flag_set _ _); [destruct He1 as [_ ->]|rewrite He1]; done.
  - destruct (tbl !! [PX 1 va; PX 2 va]) eqn:E; [|done].
    destruct (pt_up _ _ _ Hp _ _ _ E) as [[? Hx] _]. congruence.
Qed.

(** ** Changing one leaf entry *)

Lemma leaf_same_page va va' :
  0 <= va < MAXVA -> 0 <= va' < MAXVA -> leaf_path va = leaf_path va' -> PX 0 va = PX 0 va' ->
  va / PGSIZE = va' / PGSIZE.
Proof. intros H1 H2 [= H3 H4] H5. by apply PX_inj. Qed.

Lemma same_page_PX va va' level :
  0 <= level -> va / PGSIZE = va' / PGSIZE -> PX level va = PX level va'.
Proof.
  intros Hl He. rewrite !PX_eq by done. rewrite Z.pow_add_r by lia.
  change (2 ^ 12) with PGSIZE. rewrite <- !Z.div_div by (unfold PGSIZE; lia). by rewrite He.
Qed.

Lemma pte_of_same_page s tbl va va' :
  va / PGSIZE = va' / PGSIZE -> pte_of s tbl va = pte_of s tbl va'.
Proof.
  intros He. unfold pte_of, leaf_path.
  by rewrite !(same_page_PX va va') by (lia || done).
Qed.

Lemma store_leaf s root tbl va a t v :
  pt_inv s root tbl -> 0 <= va < MAXVA ->
  tbl !! leaf_path va = Some a -> table_at a s = Some t ->
  let s' := set_page a (PgTable (<[Z.to_nat (PX 0 va) := v]> t)) s in
  pt_inv s' root tbl /\
  forall va', 0 <= va' < MAXVA ->
    pte_of s' tbl va' = if va / PGSIZE =? va' / PGSIZE then v else pte_of s tbl va'.
Proof.
  intros Hp Hva Ha Ht s'.
  assert (length t = 512%nat) as Hlen
    by (destruct (pt_node _ _ _ Hp _ _ Ha) as (? & ? & ? & _); congruence).
  assert (table_at a s' = Some (<[Z.to_nat (PX 0 va) := v]> t)) as Ht'
    by (apply table_at_mem; apply lookup_insert_eq).
  pose proof (PX_bound 0 va ltac:(lia)) as Hb. split.
  - destruct Hp as [Hr Hi Hu Hn]. split; [done|done|done|]. intros p b Hb'.
    destruct (decide (b = a)) as [->|Hne].
    + exists (<[Z.to_nat (PX 0 va) := v]> t). rewrite length_insert. split_and!; [done|done|].
      rewrite (Hi _ _ _ Hb' Ha). simpl. lia.
    + destruct (Hn p b Hb') as (t' & Htb & ?). exists t'. split; [|done].
      unfold table_at in *. unfold s'. simpl. by rewrite lookup_insert_ne.
  - intros va' Hva'. pose proof (PX_bound 0 va' ltac:(lia)) as Hb2.
    destruct (Z.eqb_spec (va / PGSIZE) (va' / PGSIZE)) as [E|E].
    + rewrite <- (pte_of_same_page _ _ _ _ E), (pte_of_slot _ _ _ a _ Ha Ht').
      apply list_lookup_total_insert_eq. lia.
    + unfold pte_of. destruct (tbl !! leaf_path va') as [b|] eqn:Hb'; [|done].
      destruct (decide (b = a)) as [->|Hne].
      * rewrite Ht', Ht. apply list_lookup_total_insert_ne. intros Heq. apply E.
        apply leaf_same_page; [done|done|by apply (pt_inj _ _ _ Hp _ _ a)|lia].
      * unfold table_at, s'. simpl. by rewrite lookup_insert_ne.
Qed.

(** ** [walk] with allocation *)

(** From [s] to [s'] the tree gained tables and the caller gained the pages
    [F], all taken from the free list and nothing else was; the tree
    translates by [f] afterwards, and the pages that were in use and are not
    its tables are untouched. *)
Record pt_upd (root : Z) s l tbl (f : Z -> Z) (F : list Z) s' l' tbl' : Prop := {
  pu_free : free_inv s' l';
  pu_pt : pt_inv s' root tbl';
  pu_sub p a : tbl !! p = Some a -> tbl' !! p = Some a;
  pu_pte va : 0 <= va < MAXVA -> pte_of s' tbl' va = f va;
  pu_nodup : NoDup F;
  pu_owned pa : pa ∈ F -> in_use s' l' pa /\ ~ is_table tbl' pa;
  pu_fresh pa : pa ∈ l' \/ pa ∈ F -> pa ∈ l;
  pu_acct pa : pa ∈ l -> pa ∈ l' \/ pa ∈ F \/ is_table tbl' pa;
  pu_tables pa : is_table tbl' pa -> is_table tbl pa \/ pa ∈ l;
  pu_frame pa : in_use s l pa -> ~ is_table tbl pa ->
    in_use s' l' pa /\ ~ is_table tbl' pa /\ mem s' !! pa = mem s !! pa
}.

(** New tables only: the translation is the one of [s]. *)
Definition pt_ext root s l tbl s' l' tbl' : Prop :=
  pt_upd root s l tbl (pte_of s tbl) [] s' l' tbl'.

Lemma pt_ext_refl root s l tbl :
  free_inv s l -> pt_inv s root tbl -> pt_ext root s l tbl s l tbl.
Proof.
  intros Hf Hp. split; try done; [constructor|set_solver|set_solver|set_solver|by left].
Qed.

Lemma pt_upd_trans root s l tbl f F1 s1 l1 tbl1 g F2 s2 l2 tbl2 :
  pt_upd root s l tbl f F1 s1 l1 tbl1 -> pt_upd root s1 l1 tbl1 g F2 s2 l2 tbl2 ->
  pt_upd root s l tbl g (F1 ++ F2) s2 l2 tbl2.
Proof.
  intros [? ? Hs1 Hp1 Hn1 Ho1 Hr1 Ha1 Ht1 Hf1] [? ? Hs2 Hp2 Hn2 Ho2 Hr2 Ha2 Ht2 Hf2].
  split; [done|done|auto|done| | | | | |].
  - apply NoDup_app. split_and!; [done| |done]. intros pa Hpa Hpa2.
    destruct (Ho1 pa Hpa) as [[_ Hnl] _]. auto.
  - intros pa [Hpa|Hpa]%elem_of_app; [|by apply Ho2].
    destruct (Ho1 pa Hpa) as [Hu Ht]. destruct (Hf2 pa Hu Ht) as (? & ? & _). done.
  - intros pa Hpa. rewrite elem_of_app in Hpa. naive_solver.
  - intros pa Hpa. rewrite elem_of_app. destruct (Ha1 pa Hpa) as [H1|[H1|[p H1]]].
    + destruct (Ha2 pa H1); tauto.
    + tauto.
    + right. right. exists p. auto.
  - intros pa [Hpa|Hpa]%Ht2; [by apply Ht1|]. right. apply Hr1. by left.
  - intros pa Hu Ht. destruct (Hf1 pa Hu Ht) as (Hu' & Ht' & Hm).
    destruct (Hf2 pa Hu' Ht') as (Hu'' & Ht'' & Hm'). split_and!; [done|done|congruence].
Qed.

Lemma pt_upd_proper root s l tbl f g F s' l' tbl' :
  (forall va, 0 <= va < MAXVA -> f va = g va) ->
  pt_upd root s l tbl f F s' l' tbl' -> pt_upd root s l tbl g F s' l' tbl'.
Proof. intros Hfg [? ? ? Hp]. split; try done. intros va Hva. rewrite Hp by done. auto. Qed.

(** Transitivity when the first step only adds tables. *)
Lemma pt_ext_upd root s l tbl s1 l1 tbl1 g F s2 l2 tbl2 :
  pt_ext root s l tbl s1 l1 tbl1 -> pt_upd root s1 l1 tbl1 g F s2 l2 tbl2 ->
  pt_upd root s l tbl g F s2 l2 tbl2.
Proof. intros H1 H2. apply (pt_upd_trans _ _ _ _ _ [] _ _ _ _ _ _ _ _ H1 H2). Qed.

Lemma pt_ext_trans root s l tbl s1 l1 tbl1 s2 l2 tbl2 :
  pt_ext root s l tbl s1 l1 tbl1 -> pt_ext root s1 l1 tbl1 s2 l2 tbl2 ->
  pt_ext root s l tbl s2 l2 tbl2.
Proof.
  intros H1 H2. eapply pt_upd_proper; [|by eapply pt_ext_upd].
  intros va Hva. by apply (pu_pte _ _ _ _ _ _ _ _ _ H1).
Qed.

Lemma store_leaf_upd s l root tbl va a t v :
  free_inv s l -> pt_inv s root tbl -> 0 <= va < MAXVA ->
  tbl !! leaf_path va = Some a -> table_at a s = Some t ->
  pt_upd root s l tbl
    (fun va' => if va / PGSIZE =? va' / PGSIZE then v else pte_of s tbl va') []
    (set_page a (PgTable (<[Z.to_nat (PX 0 va) := v]> t)) s) l tbl.
Proof.
  intros Hf Hp Hva Ha Ht. destruct (store_leaf _ _ _ _ _ _ v Hp Hva Ha Ht) as [Hp' Hpte].
  split; [|exact Hp'|done|exact Hpte|constructor|set_solver|set_solver|set_solver|by left|].
  - apply free_inv_write; [done| |done]. by eapply table_in_use.
  - intros pa Hu Hn. split_and!; [by apply in_use_write|done|].
    simpl. apply lookup_insert_ne. intros ->. apply Hn. by exists (leaf_path va).
Qed.

Definition table_pte (r : Z) : Z := Z.lor (PA2PTE r) PTE_V.

Lemma table_pte_ok r :
  page_ok r -> flag_set (table_pte r) PTE_V = true /\ PTE2PA (table_pte r) = r /\
    PTE_FLAGS (table_pte r) = PTE_V.
Proof.
  intros Hr%page_ok_pa_ok. change PTE_V with 1. unfold table_pte. change PTE_V with 1.
  pose proof (pte_flags r 1 Hr ltac:(lia)) as Hfl. split; [|split; [apply pte_pa; [done|lia]|exact Hfl]].
  unfold flag_set. rewrite (land_ones_mod _ 1 ltac:(lia) : Z.land _ 1 = _ mod 2 ^ 1).
  rewrite PTE_FLAGS_eq in Hfl. lia.
Qed.

(** The memory after [walk] has installed page [r] under entry [i] of table [a]. *)
Definition with_child s (n a i r : Z) (t : list Z) : pmem :=
  set_page a (PgTable (<[Z.to_nat i := table_pte r]> t))
    (set_page r (PgTable empty_table) (mk_pmem (<[r := filled 5]> (mem s)) n)).

Lemma with_child_mem s n a i r t pa :
  mem (with_child s n a i r t) !! pa =
    if decide (pa = a) then Some (PgTable (<[Z.to_nat i := table_pte r]> t))
    else if decide (pa = r) then Some (PgTable empty_table) else mem s !! pa.
Proof.
  unfold with_child. simpl. destruct (decide (pa = a)) as [->|]; [apply lookup_insert_eq|].
  rewrite lookup_insert_ne by done. destruct (decide (pa = r)) as [->|]; [apply lookup_insert_eq|].
  by rewrite !lookup_insert_ne.
Qed.

Lemma add_table_inv s root tbl n p a i r t m :
  pt_inv s root tbl -> mem s !! r = Some (PgRun m) -> page_ok r ->
  tbl !! p = Some a -> (length p < 2)%nat -> 0 <= i < 512 -> (p = [] -> i < 256) ->
  table_at a s = Some t -> flag_set (t !!! Z.to_nat i) PTE_V = false ->
  pt_inv (with_child s n a i r t) root (<[i :: p := r]> tbl).
Proof.
  intros Hp Hr Hok Ha Hlp Hi Hi256 Ht Hv. destruct (table_pte_ok r Hok) as (Hrv & Hrpa & Hrf).
  assert (forall q b, tbl !! q = Some b -> b <> r) as Hnr.
  { intros q b Hq ->. destruct (pt_node _ _ _ Hp _ _ Hq) as (? & ?%table_at_mem & _). congruence. }
  pose proof (pt_node _ _ _ Hp _ _ Ha) as (t0 & Ht0 & Hlen & He).
  assert (t0 = t) as -> by congruence. clear Ht0. specialize (He Hlp).
  assert (tbl !! (i :: p) = None) as Hnone.
  { specialize (He i Hi). unfold entry_ok in He. by rewrite Hv in He. }
  destruct Hp as [Hroot Hinj Hup Hnode]. split.
  - by rewrite lookup_insert_ne.
  - intros q q' b Hq Hq'.
    apply lookup_insert_Some in Hq as [[<- <-]|[_ Hq]];
    apply lookup_insert_Some in Hq' as [[<- Hb]|[_ Hq']]; [done| | |by eapply Hinj].
    + by destruct (Hnr _ _ Hq').
    + by destruct (Hnr _ _ Hq).
  - intros q j b Hq. destruct (decide (q = i :: p)) as [->|Hne].
    + rewrite lookup_insert_ne in Hq by (intros Heq; by apply (f_equal length), Nat.neq_succ_diag_r in Heq).
      destruct (Hup _ _ _ Hq) as [[? ?] _]. congruence.
    + rewrite lookup_insert_ne by done.
      apply lookup_insert_Some in Hq as [[[= -> ->] <-]|[_ Hq]]; [|by eapply Hup].
      split_and!; [by exists a|lia|lia|done|done].
  - intros q b Hq. unfold table_at. rewrite with_child_mem. destruct (decide (b = a)) as [->|Hba].
    + assert (q = p) as ->.
      { apply lookup_insert_Some in Hq as [[_ <-]|[_ Hq]]; [by destruct (Hnr _ _ Ha)|].
        by eapply Hinj. }
      eexists; split; [done|]. rewrite length_insert. split; [done|]. intros _ j Hj.
      destruct (decide (j = i)) as [->|Hji].
      * rewrite list_lookup_total_insert_eq by lia. unfold entry_ok.
        by rewrite Hrv, Hrpa, lookup_insert_eq.
      * rewrite list_lookup_total_insert_ne by lia. specialize (He j Hj).
        unfold entry_ok in *. by rewrite lookup_insert_ne by congruence.
    + destruct (decide (b = r)) as [->|Hbr].
      * apply lookup_insert_Some in Hq as [[<- _]|[_ Hq]]; [|by destruct (Hnr _ _ Hq)].
        eexists; split; [done|]. split; [by apply length_replicate|]. intros Hl j Hj.
        unfold entry_ok, empty_table. rewrite lookup_total_replicate_2 by lia.
        rewrite lookup_insert_ne.
        -- destruct (tbl !! (j :: i :: p)) eqn:E; [|done].
           destruct (Hup _ _ _ E) as [[? ?] _]. congruence.
        -- intros Heq. by apply (f_equal length), Nat.neq_succ_diag_r in Heq.
      * apply lookup_insert_Some in Hq as [[<- <-]|[_ Hq]]; [done|].
        destruct (Hnode _ _ Hq) as (tq & Htq & Hlq & Heq). exists tq. split_and!; [done|done|].
        intros Hl j Hj. specialize (Heq Hl j Hj). unfold entry_ok in *.
        rewrite lookup_insert_ne; [done|]. intros [= -> ->]. congruence.
Qed.

Lemma add_table_pte s root tbl n p a i r t m va :
  pt_inv s root tbl -> mem s !! r = Some (PgRun m) ->
  tbl !! p = Some a -> (length p < 2)%nat -> 0 <= i < 512 ->
  table_at a s = Some t -> flag_set (t !!! Z.to_nat i) PTE_V = false ->
  pte_of (with_child s n a i r t) (<[i :: p := r]> tbl) va = pte_of s tbl va.
Proof.
  intros Hp Hr Ha Hlp Hi Ht Hv.
  pose proof (PX_bound 0 va ltac:(lia)) as Hb. unfold pte_of.
  destruct (pt_node _ _ _ Hp _ _ Ha) as (t0 & Ht0 & Hlen & He).
  assert (t0 = t) as -> by congruence. specialize (He Hlp i Hi). unfold entry_ok in He.
  rewrite Hv in He. destruct (decide (leaf_path va = i :: p)) as [->|Hne].
  - rewrite lookup_insert_eq, He. unfold table_at. rewrite with_child_mem.
    rewrite decide_False by (intros ->; apply table_at_mem in Ht; congruence).
    rewrite decide_True by done.
    unfold empty_table. apply lookup_total_replicate_2. lia.
  - rewrite lookup_insert_ne by done.
    destruct (tbl !! leaf_path va) as [b|] eqn:E; [|done].
    assert (b <> a).
    { intros ->. pose proof (pt_inj _ _ _ Hp _ _ _ E Ha) as <-. simpl in Hlp. lia. }
    unfold table_at in *. rewrite with_child_mem, decide_False by done.
    destruct (decide (b = r)) as [->|]; [|done].
    destruct (pt_node _ _ _ Hp _ _ E) as (? & ?%table_at_mem & _). congruence.
Qed.

Lemma add_table_ext s l root tbl n p a i r t l' :
  let s1 := mk_pmem (<[r := filled 5]> (mem s)) n in
  pt_inv s root tbl -> l = r :: l' -> free_inv s l -> free_inv s1 l' -> page_ok r ->
  tbl !! p = Some a -> (length p < 2)%nat -> 0 <= i < 512 -> (p = [] -> i < 256) ->
  table_at a s = Some t -> flag_set (t !!! Z.to_nat i) PTE_V = false ->
  pt_ext root s l tbl (with_child s n a i r t) l' (<[i :: p := r]> tbl).
Proof.
  intros s1 Hp -> Hf Hf1 Hok Ha Hlp Hi Hi256 Ht Hv.
  destruct (chain_elem _ _ _ r (fi_chain _ _ Hf) ltac:(by left)) as [m Hr].
  assert (NoDup (r :: l')) as [Hrl _]%NoDup_cons by apply Hf.
  destruct (table_in_use _ _ _ _ _ _ Hf Hp Ha) as [[pga Hpga] [Har Hal]%not_elem_of_cons].
  assert (in_use s1 l' r) as Hr1 by (split; [unfold s1; simpl; by rewrite lookup_insert_eq|done]).
  assert (in_use s1 l' a) as Ha1
    by (split; [unfold s1; simpl; by rewrite lookup_insert_ne|done]).
  split.
  - unfold with_child. apply free_inv_write; [|by apply in_use_write|done].
    by apply free_inv_write.
  - by eapply add_table_inv.
  - intros q b Hq. rewrite lookup_insert_ne; [done|]. intros <-.
    destruct (pt_node _ _ _ Hp _ _ Ha) as (t0 & Ht0 & _ & He).
    assert (t0 = t) as -> by congruence. specialize (He Hlp i Hi).
    unfold entry_ok in He. rewrite Hv in He. congruence.
  - intros va _. by eapply add_table_pte.
  - constructor.
  - intros pa Hpa. by apply not_elem_of_nil in Hpa.
  - intros pa [Hpa|Hpa]; [by right|by apply not_elem_of_nil in Hpa].
  - intros pa [->|Hpa]%elem_of_cons; [|by left]. right. right. exists (i :: p).
    apply lookup_insert_eq.
  - intros pa [q [[_ <-]|[_ Hq]]%lookup_insert_Some]; [right; by left|left; by exists q].
  - intros pa [Hs [Hpr Hpl]%not_elem_of_cons] Hnt.
    assert (pa <> a) by (intros ->; apply Hnt; by exists p).
    assert (mem (with_child s n a i r t) !! pa = mem s !! pa) as Hm
      by (rewrite with_child_mem; by rewrite !decide_False).
    split_and!; [split; [by rewrite Hm|done]| |done].
    intros [q [[_ ?]|[_ Hq]]%lookup_insert_Some]; [done|]. apply Hnt. by exists q.
Qed.

(** One level of [walk(..., 1)], from a table of the tree. *)
Lemma walk_from_alloc level s l hl root tbl p a va :
  free_inv s l -> pt_inv s root tbl -> LkKmem ∉ hl ->
  tbl !! p = Some a -> (length p + level = 2)%nat ->
  (p = [] \/ p = [PX 2 va] \/ p = leaf_path va) -> 0 <= va < MAXVA ->
  wp (walk_from level a va true)
    (fun r st' => exists s' l' tbl', st' = mk_st hl s' /\
       pt_ext root s l tbl s' l' tbl' /\
       match r with Some q => leaf_slot tbl' va = Some q | None => l' = [] end)
    (mk_st hl s).
Proof.
  revert s l tbl p a. induction level as [|level IH]; intros s l tbl p a Hf Hp Hh Ha Hlen Hpath Hva.
  - apply wp_ret. exists s, l, tbl. split_and!; [done|by apply pt_ext_refl|].
    destruct Hpath as [->|[->| ->]]; [simpl in Hlen; lia..|]. unfold leaf_slot. by rewrite Ha.
  - destruct (pt_node _ _ _ Hp _ _ Ha) as (t & Ht & Hl & He).
    assert (length p < 2)%nat as Hlp by lia. specialize (He Hlp).
    set (i := PX (Z.of_nat (S level)) va) in *.
    pose proof (PX_bound (Z.of_nat (S level)) va ltac:(lia) : 0 <= i < 512) as Hi.
    specialize (He i Hi). unfold entry_ok in He.
    assert (i :: p = [PX 2 va] \/ i :: p = leaf_path va) as Hpath'.
    { unfold i. destruct Hpath as [->|[->| ->]]; simpl in Hlen.
      - left. by assert (level = 1%nat) as -> by lia.
      - right. by assert (level = 0%nat) as -> by lia.
      - lia. }
    assert (p = [] -> i < 256) as Hi256.
    { intros ->. cbn in Hlen. unfold i. assert (level = 1%nat) as -> by lia.
      rewrite PX_eq by lia. assert (MAXVA = 2 ^ 38) by done. cbn in *. lia. }
    cbn [walk_from]. fold i. wp_step.
    eapply wp_frame_eq; [by apply (load_pte_run _ _ _ _ t)|]. cbn beta.
    destruct (flag_set (t !!! Z.to_nat i) PTE_V) eqn:Hv.
    + destruct He as [_ Hc]. apply (IH _ _ _ (i :: p)); [done..|simpl; lia|tauto|done].
    + cbn [negb]. wp_step. eapply kalloc_spec; [done|done| |].
      { intros ->. cbn beta. change (0 =? 0) with true. cbv match. apply wp_ret.
        exists s, [], tbl. split_and!; [done|by apply pt_ext_refl|done]. }
      intros r l' n -> Hrun Hok s1 Hf1 Hu1 Hfr. cbn beta.
      destruct (Z.eqb_spec r 0) as [->|Hr0]; [by destruct (page_ok_nonzero 0 Hok)|].
      assert (r <> a) as Hra.
      { apply not_eq_sym, Hfr. by eapply table_in_use. }
      wp_steps. unfold zero_table. wp_step.
      eapply wp_deref; [simpl; apply lookup_insert_eq|]. wp_steps. cbn [held data].
      eapply wp_frame_eq.
      { apply (store_pte_run _ _ _ _ t); [|done|done]. unfold table_at. simpl.
        by rewrite !lookup_insert_ne. }
      fold (table_pte r). fold (with_child s n a i r t). cbn beta.
      assert (pt_ext root s (r :: l') tbl (with_child s n a i r t) l' (<[i :: p := r]> tbl)) as Hx
        by (by eapply add_table_ext).
      eapply wp_mono; [apply (IH _ l' (<[i :: p := r]> tbl) (i :: p) r)|].
      * apply Hx.
      * apply Hx.
      * done.
      * apply lookup_insert_eq.
      * simpl; lia.
      * tauto.
      * done.
      * intros o st' (s' & l'' & tbl' & -> & Hx' & Ho). exists s', l'', tbl'.
        split_and!; [done|by eapply pt_ext_trans|done].
Qed.

Lemma walk_alloc s l hl root tbl va :
  free_inv s l -> pt_inv s root tbl -> LkKmem ∉ hl -> 0 <= va < MAXVA ->
  wp (walk root va true)
    (fun r st' => exists s' l' tbl', st' = mk_st hl s' /\
       pt_ext root s l tbl s' l' tbl' /\
       match r with Some q => leaf_slot tbl' va = Some q | None => l' = [] end)
    (mk_st hl s).
Proof.
  intros Hf Hp Hh Hva. unfold walk. destruct (Z.leb_spec MAXVA va); [lia|].
  apply (walk_from_alloc _ _ _ _ _ _ []); [done..|apply Hp|done|by left|done].
Qed.

(** ** [mappages] *)

Definition leaf_pte (pa perm : Z) : Z := Z.lor (Z.lor (PA2PTE pa) perm) PTE_V.

(** The translation after mapping [k] pages at [va] to those at [pa]. *)
Definition map_range (va : Z) (k : nat) (pa perm : Z) (f : Z -> Z) (va' : Z) : Z :=
  if (va <=? va') && (va' <? va + Z.of_nat k * PGSIZE)
  then leaf_pte (pa + (va' - va) / PGSIZE * PGSIZE) perm
  else f va'.

Lemma map_range_0 va pa perm f va' : map_range va 0 pa perm f va' = f va'.
Proof. unfold map_range. case_match; [lia|done]. Qed.

Lemma map_range_S va k pa perm f va' :
  va mod PGSIZE = 0 ->
  map_range (va + PGSIZE) k (pa + PGSIZE) perm
    (fun x => if va / PGSIZE =? x / PGSIZE then leaf_pte pa perm else f x) va' =
  map_range va (S k) pa perm f va'.
Proof.
  intros Ha. unfold map_range, PGSIZE in *.
  destruct (Z.eqb_spec (va / 4096) (va' / 4096)) as [E|E].
  - destruct (Z.leb_spec (va + 4096) va'); [lia|]. simpl.
    destruct (Z.leb_spec va va'); [|lia].
    destruct (Z.ltb_spec va' (va + Z.of_nat (S k) * 4096)); [|lia]. simpl. f_equal. lia.
  - repeat case_match; try lia; first [done|f_equal; lia].
Qed.

Lemma wp_load_leaf s hl root tbl va q (Q : Z -> st pmem -> Prop) :
  pt_inv s root tbl -> leaf_slot tbl va = Some q ->
  Q (pte_of s tbl va) (mk_st hl s) -> wp (load_pte q) Q (mk_st hl s).
Proof.
  intros Hp Hq HQ. unfold leaf_slot in Hq. apply fmap_Some in Hq as (a & Ha & ->).
  destruct (pt_node _ _ _ Hp _ _ Ha) as (t & Ht & Hl & _).
  rewrite (pte_of_slot _ _ _ _ _ Ha Ht) in HQ.
  eapply wp_frame_eq; [|exact HQ]. apply load_pte_run; [done|done|by apply PX_bound].
Qed.

Lemma wp_store_leaf s l hl root tbl va q v (Q : unit -> st pmem -> Prop) :
  free_inv s l -> pt_inv s root tbl -> 0 <= va < MAXVA -> leaf_slot tbl va = Some q ->
  (forall s', pt_upd root s l tbl
     (fun va' => if va / PGSIZE =? va' / PGSIZE then v else pte_of s tbl va') [] s' l tbl ->
     Q tt (mk_st hl s')) ->
  wp (store_pte q v) Q (mk_st hl s).
Proof.
  intros Hf Hp Hva Hq HQ. unfold leaf_slot in Hq. apply fmap_Some in Hq as (a & Ha & ->).
  destruct (pt_node _ _ _ Hp _ _ Ha) as (t & Ht & Hl & _).
  eapply wp_frame_eq; [apply store_pte_run; [done|done|by apply PX_bound]|].
  apply HQ. by apply store_leaf_upd.
Qed.

Definition unmapped s tbl (va n : Z) : Prop :=
  forall va', va <= va' < va + n -> flag_set (pte_of s tbl va') PTE_V = false.

Lemma u64_id x : 0 <= x < 2 ^ 64 -> u64 x = x.
Proof. unfold u64. apply Z.mod_small. Qed.

Lemma mappages_loop_spec n s l hl root tbl a pa perm :
  free_inv s l -> pt_inv s root tbl -> LkKmem ∉ hl ->
  (0 < n)%nat -> 0 <= a -> a mod PGSIZE = 0 -> a + Z.of_nat n * PGSIZE <= MAXVA ->
  0 <= pa -> pa + Z.of_nat n * PGSIZE <= 2 ^ 56 ->
  unmapped s tbl a (Z.of_nat n * PGSIZE) ->
  wp (mappages_loop n root a (a + (Z.of_nat n - 1) * PGSIZE) pa perm)
    (fun r st' => exists s' l' tbl' k, st' = mk_st hl s' /\
       pt_upd root s l tbl (map_range a k pa perm (pte_of s tbl)) [] s' l' tbl' /\
       (r = 0 /\ k = n \/ r = -1 /\ (k < n)%nat /\ l' = []))
    (mk_st hl s).
Proof.
  assert (MAXVA = 2 ^ 38) as Hmax by done.
  revert s l tbl a pa. induction n as [|n IH]; [lia|].
  intros s l tbl a pa Hf Hp Hh _ Ha0 Ha Hamax Hpa0 Hpamax Hun. cbn [mappages_loop]. wp_step.
  assert (0 <= a < MAXVA) as Hva by (unfold PGSIZE in *; lia).
  eapply wp_mono; [by apply walk_alloc|].
  intros [q|] st1 (s1 & l1 & tbl1 & -> & Hx & Hq); cbn beta; cbv match.
  2: { apply wp_ret. exists s1, l1, tbl1, 0%nat. split_and!; [done| |right; split_and!; [done|lia|done]].
       eapply pt_upd_proper; [|exact Hx]. intros. by rewrite map_range_0. }
  wp_step. eapply wp_load_leaf; [apply Hx|done|]. cbn beta.
  rewrite (pu_pte _ _ _ _ _ _ _ _ _ Hx) by done. rewrite Hun by (unfold PGSIZE; lia).
  wp_step. eapply wp_store_leaf; [apply Hx|apply Hx|done|done|]. fold (leaf_pte pa perm).
  intros s2 Hu. cbn beta.
  assert (pt_upd root s l tbl (fun x => if a / PGSIZE =? x / PGSIZE
    then leaf_pte pa perm else pte_of s tbl x) [] s2 l1 tbl1) as Hu'.
  { eapply pt_upd_proper; [|by eapply pt_ext_upd]. intros x Hxr. cbn beta.
    case_match; [done|]. by apply (pu_pte _ _ _ _ _ _ _ _ _ Hx). }
  destruct (Z.eqb_spec a (a + (Z.of_nat (S n) - 1) * PGSIZE)) as [E|E].
  - assert (n = 0%nat) as -> by (unfold PGSIZE in *; lia). apply wp_ret.
    exists s2, l1, tbl1, 1%nat. split_and!; [done| |by left].
    eapply pt_upd_proper; [|exact Hu']. intros x Hxr.
    by rewrite <- map_range_S, map_range_0.
  - assert (n <> 0%nat) by (intros ->; apply E; unfold PGSIZE; lia).
    rewrite !u64_id by (unfold PGSIZE in *; lia).
    replace (a + (Z.of_nat (S n) - 1) * PGSIZE)
      with (a + PGSIZE + (Z.of_nat n - 1) * PGSIZE) by lia.
    eapply wp_mono; [apply (IH s2 l1 tbl1)|].
    + apply Hu'.
    + apply Hu'.
    + done.
    + lia.
    + unfold PGSIZE; lia.
    + unfold PGSIZE in *; lia.
    + unfold PGSIZE in *; lia.
    + unfold PGSIZE; lia.
    + unfold PGSIZE in *; lia.
    + intros x Hxr. rewrite (pu_pte _ _ _ _ _ _ _ _ _ Hu') by (unfold PGSIZE in *; lia).
      destruct (Z.eqb_spec (a / PGSIZE) (x / PGSIZE)); [unfold PGSIZE in *; lia|].
      apply Hun. unfold PGSIZE in *; lia.
    + intros r st3 (s3 & l3 & tbl3 & k & -> & Hu3 & Hr). exists s3, l3, tbl3, (S k).
      split_and!; [done| |destruct Hr as [[-> ->]|(-> & ? & ->)]; [by left|right; split_and!; [done|lia|done]]].
      eapply pt_upd_proper; [|exact (pt_upd_trans _ _ _ _ _ _ _ _ _ _ _ _ _ _ Hu' Hu3)]. intros x Hxr. cbn beta.
      rewrite <- map_range_S by done. unfold map_range. case_match; [done|].
      by apply (pu_pte _ _ _ _ _ _ _ _ _ Hu').
Qed.

Lemma mappages_spec s l hl root tbl va n pa perm :
  free_inv s l -> pt_inv s root tbl -> LkKmem ∉ hl ->
  (0 < n)%nat -> 0 <= va -> va mod PGSIZE = 0 -> va + Z.of_nat n * PGSIZE <= MAXVA ->
  0 <= pa -> pa + Z.of_nat n * PGSIZE <= 2 ^ 56 ->
  unmapped s tbl va (Z.of_nat n * PGSIZE) ->
  wp (mappages root va (Z.of_nat n * PGSIZE) pa perm)
    (fun r st' => exists s' l' tbl' k, st' = mk_st hl s' /\
       pt_upd root s l tbl (map_range va k pa perm (pte_of s tbl)) [] s' l' tbl' /\
       (r = 0 /\ k = n \/ r = -1 /\ (k < n)%nat /\ l' = []))
    (mk_st hl s).
Proof.
  intros Hf Hp Hh Hn Hva Ha Hmax Hpa Hpmax Hun. unfold mappages.
  assert (MAXVA = 2 ^ 38) as Hm by done.
  rewrite Ha. change (0 =? 0) with true. cbn [negb].
  rewrite Z.mod_mul by done. change (0 =? 0) with true. cbn [negb].
  destruct (Z.eqb_spec (Z.of_nat n * PGSIZE) 0); [unfold PGSIZE in *; lia|].
  rewrite Z.div_mul, Nat2Z.id by done. rewrite u64_id by (unfold PGSIZE in *; lia).
  replace (va + Z.of_nat n * PGSIZE - PGSIZE) with (va + (Z.of_nat n - 1) * PGSIZE) by lia.
  by apply mappages_loop_spec.
Qed.
End vmproofs.
