(* ===== verification/VmExample.v ===== *)
(** * A concrete machine for the examples of the memory theorems

    Eight pages of managed memory: an address space with one data page mapped
    at 0 (its three tables and the page), an empty page table, and three free
    pages. *)

From S2P Require Import Prelude Spinlock Riscv Kalloc Vm VmProofs.
Ltac Zify.zify_post_hook ::= Z.to_euclidean_division_equations.

Definition pg (i : Z) : Z := PHYSTOP - (8 - i) * 4096.

Lemma demo_image_layout :
  KERNBASE <= KERNBASE < KERNBASE + 4096 /\
  KERNBASE + 4096 < pg 0 < PHYSTOP /\
  (KERNBASE + 4096) mod PGSIZE = 0 /\ KERNBASE mod PGSIZE = 0.
Proof. vm_compute. done. Qed.

Definition demo_image : Image :=
  {| kernel_end := pg 0; etext := KERNBASE + 4096; trampoline := KERNBASE;
     image_layout := demo_image_layout |}.
#[local] Existing Instance demo_image.

Definition demo_pte : Z := leaf_pte (pg 3) (Z.lor (Z.lor PTE_W PTE_R) (Z.lor PTE_X PTE_U)).
Definition demo_bytes : list Z := [104; 105] ++ replicate 4094 0.

Definition demo_mem : list (Z * page) :=
  [(pg 0, PgTable (<[0%nat := table_pte (pg 1)]> empty_table));
   (pg 1, PgTable (<[0%nat := table_pte (pg 2)]> empty_table));
   (pg 2, PgTable (<[0%nat := demo_pte]> empty_table));
   (pg 3, PgBytes demo_bytes);
   (pg 4, PgTable empty_table);
   (pg 5, PgRun (pg 6)); (pg 6, PgRun (pg 7)); (pg 7, PgRun 0)].
Definition demo : pmem := mk_pmem (list_to_map demo_mem) (pg 5).
Definition demo_free : list Z := [pg 5; pg 6; pg 7].

Definition demo_tbl : gmap (list Z) Z :=
  <[[0; 0] := pg 2]> (<[[0] := pg 1]> {[[] := pg 0]}).
Definition demo_tbl2 : gmap (list Z) Z := {[[] := pg 4]}.

Lemma demo_lookup pa p : mem demo !! pa = Some p -> (pa, p) ∈ demo_mem.
Proof. apply elem_of_list_to_map_2. Qed.

Ltac demo_cases H :=
  apply demo_lookup in H; unfold demo_mem in H; rewrite !elem_of_cons in H;
  repeat (destruct H as [H|H]; [injection H as ? ?; subst|]);
  try (by apply not_elem_of_nil in H).

Lemma demo_free_inv : free_inv demo demo_free.
Proof.
  split.
  - cbn. repeat (split; [done|eexists; split; [vm_compute; reflexivity|]]). done.
  - apply (bool_decide_unpack _). by vm_compute.
  - intros pa p H. demo_cases H; by vm_compute.
  - intros pa n H. demo_cases H; try done; apply (bool_decide_unpack _); by vm_compute.
Qed.

Lemma table_at_demo i t :
  mem demo !! pg i = Some (PgTable t) -> table_at (pg i) demo = Some t.
Proof. apply table_at_mem. Qed.

Lemma demo_pt2 : pt_inv demo (pg 4) demo_tbl2.
Proof.
  unfold demo_tbl2. split.
  - apply lookup_singleton_eq.
  - intros p q a [<- _]%lookup_singleton_Some [<- _]%lookup_singleton_Some. done.
  - intros p i a [[=] _]%lookup_singleton_Some.
  - intros p a [<- <-]%lookup_singleton_Some. exists empty_table.
    split_and!; [vm_compute; reflexivity|done|]. intros _ i Hi. unfold entry_ok, empty_table.
    rewrite lookup_total_replicate_2 by lia. by rewrite lookup_singleton_ne.
Qed.

Lemma demo_entry p c (t := <[0%nat := table_pte c]> empty_table) (i : Z) :
  page_ok c -> demo_tbl !! (0 :: p) = Some c ->
  (forall j, j <> 0 -> demo_tbl !! (j :: p) = None) -> 0 <= i < 512 ->
  entry_ok demo_tbl p i (t !!! Z.to_nat i).
Proof.
  intros Hc H0 Hj Hi. unfold entry_ok, t, empty_table. destruct (decide (i = 0)) as [->|Hne].
  - rewrite list_lookup_total_insert_eq by (rewrite length_replicate; lia).
    destruct (table_pte_ok c Hc) as (-> & -> & ->). done.
  - rewrite list_lookup_total_insert_ne, lookup_total_replicate_2 by lia.
    change (flag_set 0 PTE_V) with false. cbv match. by apply Hj.
Qed.

Lemma demo_pt : pt_inv demo (pg 0) demo_tbl.
Proof.
  assert (forall p a, demo_tbl !! p = Some a ->
    p = [0; 0] /\ a = pg 2 \/ p = [0] /\ a = pg 1 \/ p = [] /\ a = pg 0) as Hc.
  { unfold demo_tbl. intros p a [[<- <-]|[_ [[<- <-]|[_ [<- <-]%lookup_singleton_Some]]%lookup_insert_Some]]%lookup_insert_Some;
      auto. }
  split.
  - done.
  - intros p q a Hp Hq. apply Hc in Hp, Hq.
    destruct Hp as [[-> ->]|[[-> ->]|[-> ->]]], Hq as [[-> E]|[[-> E]|[-> E]]]; done.
  - intros p i a H. apply Hc in H as [[[= -> ->] _]|[[[= -> ->] _]|[[=] _]]].
    + split_and!; [by eexists|lia|lia|cbn; lia|lia].
    + split_and!; [by eexists|lia|lia|cbn; lia|lia].
  - intros p a H. apply Hc in H as [[-> ->]|[[-> ->]|[-> ->]]];
      (eexists; split_and!; [vm_compute; reflexivity|done|]).
    + cbn. lia.
    + intros _ i Hi. apply (demo_entry [0] (pg 2)); [by vm_compute|done| |done].
      intros j Hj. unfold demo_tbl. rewrite !lookup_insert_ne by congruence. by apply lookup_singleton_ne.
    + intros _ i Hi. apply (demo_entry [] (pg 1)); [by vm_compute|done| |done].
      intros j Hj. unfold demo_tbl. rewrite !lookup_insert_ne by congruence. by apply lookup_singleton_ne.
Qed.

Lemma demo_pte_of va :
  0 <= va < MAXVA -> pte_of demo demo_tbl va = if va <? PGSIZE then demo_pte else 0.
Proof.
  intros Hva. destruct (decide (leaf_path va = [0; 0])) as [E|E].
  - assert (table_at (pg 2) demo = Some (<[0%nat := demo_pte]> empty_table)) as Ht by (vm_compute; reflexivity).
    assert (demo_tbl !! leaf_path va = Some (pg 2)) as Hl by (rewrite E; apply lookup_insert_eq).
    rewrite (pte_of_slot _ _ _ (pg 2) _ Hl Ht). unfold empty_table.
    pose proof (PX_bound 0 va ltac:(lia)) as Hb. destruct (decide (PX 0 va = 0)) as [E0|E0].
    + rewrite E0, list_lookup_total_insert_eq by (rewrite length_replicate; lia).
      pose proof (leaf_same_page va 0 Hva ltac:(by vm_compute) E E0) as Hs.
      assert ((va <? PGSIZE) = true) as ->; [|done]. unfold PGSIZE in *. lia.
    + rewrite list_lookup_total_insert_ne, lookup_total_replicate_2 by lia.
      assert ((va <? PGSIZE) = false) as ->; [|done]. apply Z.ltb_ge.
      destruct (Z.le_gt_cases PGSIZE va); [done|]. exfalso. apply E0.
      rewrite (same_page_PX va 0 0); [done|lia|unfold PGSIZE in *; lia].
  - assert (demo_tbl !! leaf_path va = None) as Hn.
    { unfold demo_tbl. rewrite !lookup_insert_ne by (done || congruence). by apply lookup_singleton_ne. }
    unfold pte_of. rewrite Hn. assert ((va <? PGSIZE) = false) as ->; [|done]. apply Z.ltb_ge.
    destruct (Z.le_gt_cases PGSIZE va); [done|]. exfalso. apply E. unfold leaf_path.
    assert (va / PGSIZE = 0 / PGSIZE) as Hs by (unfold PGSIZE in *; lia).
    rewrite (same_page_PX va 0 1 ltac:(lia) Hs), (same_page_PX va 0 2 ltac:(lia) Hs). done.
Qed.
