(* ===== verification/VmSpace.v ===== *)
(** * Virtual memory: growing, shrinking, copying and freeing address spaces

    [uvmunmap], [uvmalloc], [uvmdealloc], [uvmcopy], [freewalk] of vm.c, with
    the accounting of physical pages: which leave the free list, which return
    to it, and that a failed operation gives back everything it took. *)

From S2P Require Import Prelude Spinlock Riscv Kalloc Vm VmProofs VmExample.
Ltac Zify.zify_post_hook ::= Z.to_euclidean_division_equations.

Section space.
Context {img : Image}.
Implicit Types (s : pmem) (l F : list Z) (tbl : gmap (list Z) Z) (hl : list lockid).

(** ** [uvmunmap] *)

(** The physical pages behind [n] pages from [va], under translation [f]. *)
Fixpoint frames (f : Z -> Z) (va : Z) (n : nat) : list Z :=
  match n with O => [] | S n' => PTE2PA (f va) :: frames f (va + PGSIZE) n' end.

Definition unmap_range (va : Z) (n : nat) (f : Z -> Z) (va' : Z) : Z :=
  if (va <=? va') && (va' <? va + Z.of_nat n * PGSIZE) then 0 else f va'.

(** A valid entry that is not an interior one. *)
Definition leaf_ok (v : Z) : Prop := flag_set v PTE_V = true /\ PTE_FLAGS v <> PTE_V.

(** From [s] to [s'] the tree now translates by [f], and the pages [F] went
    back to the free list. *)
Record pt_unmap (root : Z) s l tbl (f : Z -> Z) F s' l' : Prop := {
  un_free : free_inv s' l';
  un_pt : pt_inv s' root tbl;
  un_pte va : 0 <= va < MAXVA -> pte_of s' tbl va = f va;
  un_list : l' = reverse F ++ l;
  un_frame pa : in_use s l pa -> ~ is_table tbl pa -> pa ∉ F ->
    in_use s' l' pa /\ mem s' !! pa = mem s !! pa
}.

Lemma frames_ext f g va n :
  0 <= va -> va + Z.of_nat n * PGSIZE <= MAXVA -> 
  (forall x, va <= x < va + Z.of_nat n * PGSIZE -> f x = g x) -> frames f va n = frames g va n.
Proof.
  revert va. induction n as [|n IH]; intros va Hva Hm Hfg; [done|]. simpl.
  rewrite Hfg by (unfold PGSIZE; lia). f_equal.
  apply IH; [unfold PGSIZE in *; lia..|]. intros x Hx. apply Hfg. unfold PGSIZE in *; lia.
Qed.

Lemma unmap_range_S va n f va' :
  va mod PGSIZE = 0 ->
  unmap_range (va + PGSIZE) n (fun x => if va / PGSIZE =? x / PGSIZE then 0 else f x) va' =
  unmap_range va (S n) f va'.
Proof.
  intros Ha. unfold unmap_range, PGSIZE in *. repeat case_match; try lia; done.
Qed.

Lemma uvmunmap_step s l hl root tbl a (do_free : bool) q (Q : unit -> st pmem -> Prop) :
  let pa := PTE2PA (pte_of s tbl a) in
  free_inv s l -> pt_inv s root tbl -> LkKmem ∉ hl -> 0 <= a < MAXVA ->
  leaf_slot tbl a = Some q ->
  (do_free = true -> in_use s l pa /\ ~ is_table tbl pa) ->
  (forall s', pt_unmap root s l tbl
     (fun x => if a / PGSIZE =? x / PGSIZE then 0 else pte_of s tbl x)
     (if do_free then [pa] else []) s' ((if do_free then [pa] else []) ++ l) ->
   Q tt (mk_st hl s')) ->
  wp (when do_free (kfree pa) ;; store_pte q 0) Q (mk_st hl s).
Proof.
  intros pa Hf Hp Hh Ha Hq Hpa HQ. wp_step. apply wp_when; intros ->.
  - destruct (Hpa eq_refl) as [[Hs Hnl] Hnt].
    assert (page_ok pa) as Hok by (destruct Hs; by eapply fi_pages).
    eapply kfree_spec; [done..|]. intros s1 Hf1 Hu1. cbn beta.
    assert (forall b, is_table tbl b -> mem s1 !! b = mem s !! b) as Hm1.
    { intros b Hb. unfold s1. simpl. apply lookup_insert_ne. by intros ->. }
    pose proof (pt_inv_frame _ _ _ _ Hp Hm1) as Hp1.
    eapply wp_store_leaf; [done|done|done|done|]. intros s2 Hu. apply HQ. split.
    + apply Hu.
    + apply Hu.
    + intros va Hva. rewrite (pu_pte _ _ _ _ _ _ _ _ _ Hu) by done.
      by rewrite (pte_of_frame _ _ _ _ Hm1).
    + done.
    + intros b Hb Hbt Hbf. assert (b <> pa) as Hne by (intros ->; apply Hbf; by left).
      destruct (pu_frame _ _ _ _ _ _ _ _ _ Hu b) as (? & _ & Hmb); [by apply Hu1|done|].
      split; [done|]. rewrite Hmb. unfold s1. simpl. by apply lookup_insert_ne.
  - eapply wp_store_leaf; [done|done|done|done|]. intros s2 Hu. apply HQ.
    split; [apply Hu|apply Hu|apply Hu|done|].
    intros b Hb Hbt _. destruct (pu_frame _ _ _ _ _ _ _ _ _ Hu b Hb Hbt) as (? & _ & ?). done.
Qed.

Lemma pt_unmap_trans root s l tbl f F1 s1 l1 g F2 s2 l2 :
  pt_unmap root s l tbl f F1 s1 l1 -> pt_unmap root s1 l1 tbl g F2 s2 l2 ->
  pt_unmap root s l tbl g (F1 ++ F2) s2 l2.
Proof.
  intros [? ? ? -> Hf1] [? ? ? -> Hf2]. split; [done|done|done| |].
  - by rewrite reverse_app, app_assoc.
  - intros pa Hu Ht [Hn1 Hn2]%not_elem_of_app. destruct (Hf1 pa Hu Ht Hn1) as [Hu1 Hm1].
    destruct (Hf2 pa Hu1 Ht Hn2) as [Hu2 Hm2]. split; [done|congruence].
Qed.

Lemma pt_unmap_proper root s l tbl f g F s' l' :
  (forall va, 0 <= va < MAXVA -> f va = g va) ->
  pt_unmap root s l tbl f F s' l' -> pt_unmap root s l tbl g F s' l'.
Proof. intros Hfg [? ? Hp ? ?]. split; try done. intros va Hva. rewrite Hp by done. auto. Qed.

Lemma leaf_slot_valid s root tbl va :
  pt_inv s root tbl -> flag_set (pte_of s tbl va) PTE_V = true -> is_Some (leaf_slot tbl va).
Proof.
  intros Hp Hv. unfold leaf_slot, pte_of in *. by destruct (tbl !! leaf_path va).
Qed.

Lemma uvmunmap_loop_spec n fuel s l hl root tbl a (do_free : bool) :
  let F := if do_free then frames (pte_of s tbl) a n else [] in
  free_inv s l -> pt_inv s root tbl -> LkKmem ∉ hl -> (n < fuel)%nat ->
  0 <= a -> a mod PGSIZE = 0 -> a + Z.of_nat n * PGSIZE <= MAXVA ->
  (forall x, a <= x < a + Z.of_nat n * PGSIZE -> leaf_ok (pte_of s tbl x)) ->
  NoDup F -> (forall pa, pa ∈ F -> in_use s l pa /\ ~ is_table tbl pa) ->
  wp (uvmunmap_loop fuel root a (a + Z.of_nat n * PGSIZE) do_free)
    (fun _ st' => exists s' l', st' = mk_st hl s' /\
       pt_unmap root s l tbl (unmap_range a n (pte_of s tbl)) F s' l')
    (mk_st hl s).
Proof.
  assert (MAXVA = 2 ^ 38) as Hmax by done.
  revert fuel s l a. induction n as [|n IH]; intros fuel s l a F Hf Hp Hh Hfuel Ha0 Ha Hm Hleaf Hnd HF;
    (destruct fuel as [|fuel]; [lia|]); cbn [uvmunmap_loop].
  - destruct (Z.ltb_spec a (a + Z.of_nat 0 * PGSIZE)); [lia|]. apply wp_ret. exists s, l.
    split; [done|]. unfold F. split; [done|done| |by destruct do_free|done].
    intros va Hva. unfold unmap_range. case_match; [lia|done].
  - destruct (Z.ltb_spec a (a + Z.of_nat (S n) * PGSIZE)); [|unfold PGSIZE in *; lia].
    assert (0 <= a < MAXVA) as Hva by (unfold PGSIZE in *; lia).
    destruct (Hleaf a) as [Hv Hfl]; [unfold PGSIZE; lia|].
    destruct (leaf_slot_valid _ _ _ _ Hp Hv) as [q Hq].
    wp_step. eapply wp_frame_eq; [by apply walk_lookup|]. cbn beta. rewrite Hq. cbv match.
    wp_step. eapply wp_load_leaf; [done|done|]. cbn beta. rewrite Hv. cbn [negb].
    destruct (Z.eqb_spec (PTE_FLAGS (pte_of s tbl a)) PTE_V); [done|].
    assert (forall Q st0, wp (when do_free (kfree (PTE2PA (pte_of s tbl a))) ;; store_pte q 0)
      (fun _ => wp (uvmunmap_loop fuel root (u64 (a + PGSIZE)) (a + Z.of_nat (S n) * PGSIZE) do_free) Q) st0 ->
      wp (when do_free (kfree (PTE2PA (pte_of s tbl a))) ;; store_pte q 0 ;;
        uvmunmap_loop fuel root (u64 (a + PGSIZE)) (a + Z.of_nat (S n) * PGSIZE) do_free) Q st0) as Hassoc.
    { intros Q st0 HQ. apply wp_bind_inv in HQ. wp_step. eapply wp_mono; [exact HQ|].
      intros [] st1 H1. wp_step. exact H1. }
    apply Hassoc. eapply uvmunmap_step; [done|done|done|done|done| |].
    { intros ->. apply HF. by left. }
    intros s1 Hu1. rewrite u64_id by (unfold PGSIZE in *; lia).
    replace (a + Z.of_nat (S n) * PGSIZE) with (a + PGSIZE + Z.of_nat n * PGSIZE) by lia.
    set (f1 := fun x => if a / PGSIZE =? x / PGSIZE then 0 else pte_of s tbl x) in *.
    assert (forall x, a + PGSIZE <= x < a + PGSIZE + Z.of_nat n * PGSIZE ->
      pte_of s1 tbl x = pte_of s tbl x) as Hsame.
    { intros x Hx. rewrite (un_pte _ _ _ _ _ _ _ _ Hu1) by (unfold PGSIZE in *; lia).
      unfold f1. destruct (Z.eqb_spec (a / PGSIZE) (x / PGSIZE)); [unfold PGSIZE in *; lia|done]. }
    assert (frames (pte_of s1 tbl) (a + PGSIZE) n = frames (pte_of s tbl) (a + PGSIZE) n) as HFr
      by (apply frames_ext; [unfold PGSIZE in *; lia..|done]).
    eapply wp_mono; [apply (IH fuel s1)|].
    + apply Hu1.
    + apply Hu1.
    + done.
    + lia.
    + unfold PGSIZE; lia.
    + unfold PGSIZE in *; lia.
    + unfold PGSIZE in *; lia.
    + intros x Hx. rewrite Hsame by done. apply Hleaf. unfold PGSIZE in *; lia.
    + unfold F in Hnd. destruct do_free; [|done]. rewrite HFr. by apply NoDup_cons in Hnd as [_ ?].
    + unfold F in HF, Hnd. destruct do_free; [|intros pa Hpa; by apply not_elem_of_nil in Hpa].
      rewrite HFr. intros pa Hpa. cbn [frames] in HF, Hnd. apply NoDup_cons in Hnd as [Hnin _].
      destruct (HF pa) as [Hu Ht]; [by right|]. split; [|done].
      apply (un_frame _ _ _ _ _ _ _ _ Hu1); [done|done|].
      intros ->%list_elem_of_singleton. exact (Hnin Hpa).
    + intros [] st2 (s2 & l2 & -> & Hu2). exists s2, l2. split; [done|].
      rewrite HFr in Hu2. pose proof (pt_unmap_trans _ _ _ _ _ _ _ _ _ _ _ _ Hu1 Hu2) as Hu.
      eapply pt_unmap_proper; [|unfold F; destruct do_free; exact Hu]. intros x Hx. rewrite <- unmap_range_S by done. unfold unmap_range.
      destruct ((a + PGSIZE <=? x) && _); [done|]. by apply (un_pte _ _ _ _ _ _ _ _ Hu1).
Qed.

Lemma uvmunmap_spec n s l hl root tbl va (do_free : bool) :
  let F := if do_free then frames (pte_of s tbl) va n else [] in
  free_inv s l -> pt_inv s root tbl -> LkKmem ∉ hl ->
  0 <= va -> va mod PGSIZE = 0 -> va + Z.of_nat n * PGSIZE <= MAXVA ->
  (forall x, va <= x < va + Z.of_nat n * PGSIZE -> leaf_ok (pte_of s tbl x)) ->
  NoDup F -> (forall pa, pa ∈ F -> in_use s l pa /\ ~ is_table tbl pa) ->
  wp (uvmunmap root va (Z.of_nat n) do_free)
    (fun _ st' => exists s' l', st' = mk_st hl s' /\
       pt_unmap root s l tbl (unmap_range va n (pte_of s tbl)) F s' l')
    (mk_st hl s).
Proof.
  intros F Hf Hp Hh Hva Ha Hm Hleaf Hnd HF. unfold uvmunmap.
  assert (MAXVA = 2 ^ 38) as Hmax by done.
  rewrite Ha. change (0 =? 0) with true. cbn [negb]. rewrite Nat2Z.id.
  rewrite u64_id by (unfold PGSIZE in *; lia). apply uvmunmap_loop_spec; auto with lia.
Qed.

(** ** [uvmalloc]: growing by fresh pages, or not at all *)

(** The translation after mapping the pages [F], in order, from [va]; page
    number [k] with permissions [perm k]. *)
Definition alloc_range (va : Z) F (perm : nat -> Z) (f : Z -> Z) (va' : Z) : Z :=
  if (va <=? va') && (va' <? va + Z.of_nat (length F) * PGSIZE)
  then let k := Z.to_nat ((va' - va) / PGSIZE) in leaf_pte (F !!! k) (perm k)
  else f va'.

Lemma alloc_range_nil va perm f va' : alloc_range va [] perm f va' = f va'.
Proof. unfold alloc_range. simpl. case_match; [lia|done]. Qed.

Lemma alloc_range_snoc va F m perm f va' :
  va mod PGSIZE = 0 ->
  map_range (va + Z.of_nat (length F) * PGSIZE) 1 m (perm (length F)) (alloc_range va F perm f) va' =
  alloc_range va (F ++ [m]) perm f va'.
Proof.
  intros Ha. unfold map_range, alloc_range, PGSIZE in *. rewrite length_app. simpl length.
  change (Z.of_nat 1 * 4096) with 4096.
  set (n := length F).
  destruct (Z.leb_spec (va + Z.of_nat n * 4096) va'); simpl.
  - destruct (Z.ltb_spec va' (va + Z.of_nat n * 4096 + 4096)); simpl.
    + destruct (Z.leb_spec va va'); [|lia].
      destruct (Z.ltb_spec va' (va + Z.of_nat (n + 1) * 4096)); [|lia]. simpl.
      assert (Z.to_nat ((va' - va) / 4096) = n) as -> by lia. f_equal.
      rewrite lookup_total_app_r by (unfold n; lia).
      replace (n - length F)%nat with 0%nat by (unfold n; lia).
      change ([m] !!! 0%nat) with m. lia.
    + repeat case_match; try lia; done.
  - destruct (Z.leb_spec va va'); simpl; [|done].
    destruct (Z.ltb_spec va' (va + Z.of_nat n * 4096)); [|lia].
    destruct (Z.ltb_spec va' (va + Z.of_nat (n + 1) * 4096)); [|lia].
    by rewrite lookup_total_app_l by (unfold n in *; lia).
Qed.

Lemma flag_set_lor a f : f <> 0 -> flag_set (Z.lor a f) f = true.
Proof.
  intros Hf. unfold flag_set. rewrite Z.land_lor_distr_l, Z.land_diag.
  destruct (Z.eqb_spec (Z.lor (Z.land a f) f) 0) as [E|]; [|done].
  apply Z.lor_eq_0_iff in E. tauto.
Qed.

(** Permissions that make an entry a leaf. *)
Definition perm_ok (perm : Z) : Prop := 0 <= perm < 1024 /\ Z.lor perm PTE_V <> PTE_V.

Lemma leaf_pte_ok pa perm :
  pa_ok pa -> perm_ok perm ->
  leaf_ok (leaf_pte pa perm) /\ PTE2PA (leaf_pte pa perm) = pa /\
  PTE_FLAGS (leaf_pte pa perm) = Z.lor perm PTE_V.
Proof.
  intros Hpa [Hperm Hne]. unfold leaf_pte. rewrite <- Z.lor_assoc.
  assert (0 <= Z.lor perm PTE_V < 1024) as Hb.
  { split; [apply Z.lor_nonneg; split; [lia|done]|].
    destruct (Z.eq_dec (Z.lor perm PTE_V) 0) as [->|Hnz]; [lia|].
    apply Z.log2_lt_cancel. rewrite Z.log2_lor by (done || lia).
    change (Z.log2 PTE_V) with 0. change (Z.log2 1024) with 10.
    assert (Z.log2 perm <= Z.log2 1023) by (apply Z.log2_le_mono; lia).
    change (Z.log2 1023) with 9 in *. pose proof (Z.log2_nonneg perm). lia. }
  pose proof (pte_flags _ _ Hpa Hb) as Hfl. split; [split|split; [by apply pte_pa|done]].
  - rewrite Z.lor_assoc. by apply flag_set_lor.
  - by rewrite Hfl.
Qed.

Lemma frames_length f va n : length (frames f va n) = n.
Proof. revert va. induction n; intros; simpl; auto. Qed.

Lemma frames_lookup f va n k :
  (k < n)%nat -> frames f va n !! k = Some (PTE2PA (f (va + Z.of_nat k * PGSIZE))).
Proof.
  revert va k. induction n as [|n IH]; intros va k Hk; [lia|].
  destruct k as [|k]; simpl; [by rewrite Z.add_0_r|]. rewrite IH by lia. do 3 f_equal. lia.
Qed.

Lemma alloc_range_at va F perm f k pa :
  F !! k = Some pa -> alloc_range va F perm f (va + Z.of_nat k * PGSIZE) = leaf_pte pa (perm k).
Proof.
  intros Hk. pose proof (lookup_lt_Some _ _ _ Hk). unfold alloc_range, PGSIZE.
  destruct (Z.leb_spec va (va + Z.of_nat k * 4096)); [|lia].
  destruct (Z.ltb_spec (va + Z.of_nat k * 4096) (va + Z.of_nat (length F) * 4096)); [|lia]. simpl.
  assert (Z.to_nat ((va + Z.of_nat k * 4096 - va) / 4096) = k) as -> by lia.
  by rewrite (list_lookup_total_correct _ _ _ Hk).
Qed.

Lemma frames_alloc_range va F perm f :
  (forall k, (k < length F)%nat -> perm_ok (perm k)) -> Forall pa_ok F ->
  frames (alloc_range va F perm f) va (length F) = F.
Proof.
  intros Hperm HF. apply list_eq_same_length with (length F); [done|by rewrite frames_length|].
  intros k x y Hk Hx Hy. rewrite frames_lookup in Hx by done. injection Hx as <-.
  rewrite (alloc_range_at _ _ _ _ _ y) by done.
  apply leaf_pte_ok; [by eapply Forall_lookup_1|auto].
Qed.

Lemma alloc_range_leaf va F perm f x :
  (forall k, (k < length F)%nat -> perm_ok (perm k)) -> Forall pa_ok F ->
  va <= x < va + Z.of_nat (length F) * PGSIZE -> leaf_ok (alloc_range va F perm f x).
Proof.
  intros Hperm HF Hx. unfold alloc_range.
  destruct (Z.leb_spec va x); [|lia]. destruct (Z.ltb_spec x (va + Z.of_nat (length F) * PGSIZE)); [|lia].
  apply leaf_pte_ok; [|apply Hperm; unfold PGSIZE in *; lia]. eapply Forall_lookup_1; [done|].
  apply list_lookup_lookup_total_lt. unfold PGSIZE in *. lia.
Qed.

Lemma unmap_alloc_range va F perm f x :
  unmap_range va (length F) (alloc_range va F perm f) x = unmap_range va (length F) f x.
Proof. unfold unmap_range, alloc_range. by destruct (_ && _). Qed.

(** Giving back pages that an update had taken. *)
Lemma pt_upd_rollback root s l tbl f F1 F2 s1 l1 tbl1 g s2 l2 :
  pt_upd root s l tbl f (F1 ++ F2) s1 l1 tbl1 -> pt_unmap root s1 l1 tbl1 g F2 s2 l2 ->
  pt_upd root s l tbl g F1 s2 l2 tbl1.
Proof.
  intros [? ? Hs1 Hp1 Hn1 Ho1 Hr1 Ha1 Hta1 Hf1] [? ? Hp2 -> Hf2].
  apply NoDup_app in Hn1 as (Hn1 & Hn12 & Hn2).
  split; [done|done|done|done|done| | | |done|].
  - intros pa Hpa. destruct (Ho1 pa) as [Hu Ht]; [by apply elem_of_app; left|].
    destruct (Hf2 pa Hu Ht) as [? _]; [by apply Hn12|]. done.
  - intros pa Hpa. apply Hr1. rewrite !elem_of_app, elem_of_reverse in *. tauto.
  - intros pa Hpa. apply Ha1 in Hpa. rewrite !elem_of_app, elem_of_reverse in *. tauto.
  - intros pa Hu Ht. destruct (Hf1 pa Hu Ht) as (Hu1 & Ht1 & Hm1).
    destruct (Hf2 pa Hu1 Ht1) as [Hu2 Hm2]; [|split_and!; [done|done|congruence]].
    intros Hpa. destruct Hu as [_ Hnl]. apply Hnl, Hr1. right. by apply elem_of_app; right.
Qed.

Lemma kfree_unmap s l hl root tbl pa (Q : unit -> st pmem -> Prop) :
  free_inv s l -> pt_inv s root tbl -> LkKmem ∉ hl -> in_use s l pa -> ~ is_table tbl pa ->
  (forall s', pt_unmap root s l tbl (pte_of s tbl) [pa] s' (pa :: l) -> Q tt (mk_st hl s')) ->
  wp (kfree pa) Q (mk_st hl s).
Proof.
  intros Hf Hp Hh [[pg Hpg] Hnl] Ht HQ.
  eapply kfree_spec; [done|done|by eapply fi_pages|done|]. intros s1 Hf1 Hu1. apply HQ.
  assert (forall b, b <> pa -> mem s1 !! b = mem s !! b) as Hm
    by (intros; by apply lookup_insert_ne).
  assert (forall b, is_table tbl b -> mem s1 !! b = mem s !! b) as Hmt
    by (intros; apply Hm; by intros ->).
  split; [done|by eapply pt_inv_frame| |done|].
  - intros va _. by apply pte_of_frame.
  - intros b Hb _ Hne. rewrite list_elem_of_singleton in Hne. auto.
Qed.

(** [kalloc] followed by zeroing the page, seen from an address space. *)
Lemma kalloc_upd s l hl root tbl (Q : Z -> st pmem -> Prop) :
  free_inv s l -> pt_inv s root tbl -> LkKmem ∉ hl ->
  (l = [] -> Q 0 (mk_st hl s)) ->
  (forall m l' s', m <> 0 -> page_ok m -> mem s' !! m = Some (filled 5) ->
     pt_upd root s l tbl (pte_of s tbl) [m] s' l' tbl -> Q m (mk_st hl s')) ->
  wp kalloc Q (mk_st hl s).
Proof.
  intros Hf Hp Hh Hnil Hcons. eapply kalloc_spec; [done|done|done|].
  intros m l' n -> Hrun Hok s1 Hf1 Hu1 Hfr.
  assert (forall b, b <> m -> mem s1 !! b = mem s !! b) as Hm
    by (intros; by apply lookup_insert_ne).
  assert (~ is_table tbl m) as Hmt.
  { intros [p Ha]. destruct (pt_node _ _ _ Hp _ _ Ha) as (? & ?%table_at_mem & _). congruence. }
  assert (forall b, is_table tbl b -> mem s1 !! b = mem s !! b) as Hmt'
    by (intros; apply Hm; by intros ->).
  apply (Hcons m l' s1); [by apply page_ok_nonzero|done|apply lookup_insert_eq|].
  split; [done|by eapply pt_inv_frame|done| |apply NoDup_singleton| | | |by left|].
  - intros va _. by apply pte_of_frame.
  - intros pa ->%list_elem_of_singleton. done.
  - intros pa [Hpa|Hpa%list_elem_of_singleton]; [by right|subst; by left].
  - intros pa [->|Hpa]%elem_of_cons; [|by left]. right. left. by left.
  - intros pa Hu Ht. destruct (Hfr pa Hu). auto.
Qed.

(** Writing a page that the caller owns, not one of the tree's tables. *)
Lemma pt_upd_write root s l tbl f F s' l' tbl' pa pg :
  pt_upd root s l tbl f F s' l' tbl' -> pa ∈ F -> (forall n, pg <> PgRun n) ->
  pt_upd root s l tbl f F (set_page pa pg s') l' tbl'.
Proof.
  intros [Hf Hp Hs Hpt Hn Ho Hr Ha Hta Hfr] Hpa Hpg. destruct (Ho pa Hpa) as [Hu Ht].
  assert (forall b, b <> pa -> mem (set_page pa pg s') !! b = mem s' !! b) as Hm
    by (intros; by apply lookup_insert_ne).
  assert (forall b, is_table tbl' b -> mem (set_page pa pg s') !! b = mem s' !! b) as Hmt
    by (intros; apply Hm; by intros ->).
  split; [by apply free_inv_write|by eapply pt_inv_frame|done| |done| |done|done|done|].
  - intros va Hva. rewrite (pte_of_frame s') by done. auto.
  - intros b Hb. destruct (Ho b Hb). split; [by apply in_use_write|done].
  - intros b Hb Hbt. destruct (Hfr b Hb Hbt) as (? & ? & <-).
    split_and!; [by apply in_use_write|done|]. apply Hm. intros ->.
    destruct Hb as [_ Hnl]. apply Hnl, Hr. by right.
Qed.

Lemma PGROUNDUP_aligned x : 0 <= x < 2 ^ 63 -> x mod PGSIZE = 0 -> PGROUNDUP x = x.
Proof. intros Hx Ha. rewrite PGROUNDUP_eq by (unfold PGSIZE in *; lia). unfold PGSIZE in *. lia. Qed.

(** [uvmdealloc] between two page boundaries [n] pages apart. *)
Lemma uvmdealloc_aligned n s l hl root tbl va :
  let F := frames (pte_of s tbl) va n in
  free_inv s l -> pt_inv s root tbl -> LkKmem ∉ hl ->
  0 <= va -> va mod PGSIZE = 0 -> va + Z.of_nat n * PGSIZE <= MAXVA ->
  (forall x, va <= x < va + Z.of_nat n * PGSIZE -> leaf_ok (pte_of s tbl x)) ->
  NoDup F -> (forall pa, pa ∈ F -> in_use s l pa /\ ~ is_table tbl pa) ->
  wp (uvmdealloc root (va + Z.of_nat n * PGSIZE) va)
    (fun r st' => exists s' l', st' = mk_st hl s' /\ r = va /\
       pt_unmap root s l tbl (unmap_range va n (pte_of s tbl)) F s' l')
    (mk_st hl s).
Proof.
  intros F Hf Hp Hh Hva Ha Hm Hleaf Hnd HF. unfold uvmdealloc.
  assert (MAXVA = 2 ^ 38) as Hmax by done.
  destruct (Z.leb_spec (va + Z.of_nat n * PGSIZE) va) as [Hle|Hgt].
  - assert (n = 0%nat) as -> by (unfold PGSIZE in *; lia). apply wp_ret. exists s, l.
    split_and!; [done|lia|]. split; [done|done| |done|done].
    intros x Hx. unfold unmap_range. case_match; [lia|done].
  - rewrite !PGROUNDUP_aligned by (unfold PGSIZE in *; lia).
    wp_step. apply wp_when.
    + intros _. replace (va + Z.of_nat n * PGSIZE - va) with (Z.of_nat n * PGSIZE) by lia.
      rewrite Z.div_mul by done.
      assert (u64 (i32 (Z.of_nat n)) = Z.of_nat n) as ->.
      { unfold i32. rewrite Z.mod_small by (unfold PGSIZE in *; lia). cbv zeta.
        destruct (Z.ltb_spec (Z.of_nat n) (2 ^ 31)); [|unfold PGSIZE in *; lia].
        apply u64_id. lia. }
      eapply wp_mono; [apply (uvmunmap_spec n s l hl root tbl va true); done|].
      intros [] st' (s' & l' & -> & Hu). apply wp_ret. eauto.
    + intros Hc. destruct (Z.ltb_spec va (va + Z.of_nat n * PGSIZE)); [done|lia].
Qed.

(** What [uvmunmap] needs to give back the pages an update has taken. *)
Lemma alloc_range_frames s0 l0 tbl0 s l tbl root va F perm f :
  pt_upd root s0 l0 tbl0 (alloc_range va F perm f) F s l tbl ->
  0 <= va -> va + Z.of_nat (length F) * PGSIZE <= MAXVA ->
  (forall k, (k < length F)%nat -> perm_ok (perm k)) ->
  frames (pte_of s tbl) va (length F) = F /\
  forall x, va <= x < va + Z.of_nat (length F) * PGSIZE -> leaf_ok (pte_of s tbl x).
Proof.
  intros Hu Hva Hm Hperm.
  assert (Forall pa_ok F) as HF.
  { apply Forall_forall. intros pa Hpa. destruct (pu_owned _ _ _ _ _ _ _ _ _ Hu pa Hpa) as [[[pg Hpg] _] _].
    apply page_ok_pa_ok. eapply fi_pages; [apply Hu|exact Hpg]. }
  assert (forall x, va <= x < va + Z.of_nat (length F) * PGSIZE ->
    pte_of s tbl x = alloc_range va F perm f x) as Hpte
    by (intros; apply (pu_pte _ _ _ _ _ _ _ _ _ Hu); lia).
  split.
  - etrans; [|by apply (frames_alloc_range va F perm f)]. by apply frames_ext.
  - intros x Hx. rewrite Hpte by done. by apply alloc_range_leaf.
Qed.

Lemma pt_upd_undo s0 l0 tbl0 s l tbl root va F perm f s' l' :
  pt_upd root s0 l0 tbl0 (alloc_range va F perm f) F s l tbl ->
  pt_unmap root s l tbl (unmap_range va (length F) (pte_of s tbl)) F s' l' ->
  pt_upd root s0 l0 tbl0 (unmap_range va (length F) f) [] s' l' tbl.
Proof.
  intros Hu Hun. eapply pt_upd_proper; [|by eapply (pt_upd_rollback _ _ _ _ _ [] F)].
  intros x Hx. cbn beta. rewrite <- (unmap_alloc_range va F perm f). unfold unmap_range.
  destruct (_ && _); [done|]. by apply (pu_pte _ _ _ _ _ _ _ _ _ Hu).
Qed.

(** The pages taken so far are given back by [uvmdealloc]. *)
Lemma uvmalloc_undo s0 l0 tbl0 s l tbl hl root va F perm f :
  pt_upd root s0 l0 tbl0 (alloc_range va F perm f) F s l tbl -> LkKmem ∉ hl ->
  0 <= va -> va mod PGSIZE = 0 -> va + Z.of_nat (length F) * PGSIZE <= MAXVA ->
  (forall k, perm_ok (perm k)) ->
  wp (_ <- uvmdealloc root (va + Z.of_nat (length F) * PGSIZE) va ;; ret 0)
    (fun r st' => exists s' l', st' = mk_st hl s' /\ r = 0 /\
       pt_upd root s0 l0 tbl0 (unmap_range va (length F) f) [] s' l' tbl)
    (mk_st hl s).
Proof.
  intros Hu Hh Hva Ha Hm Hperm.
  destruct (alloc_range_frames _ _ _ _ _ _ _ _ _ _ _ Hu Hva Hm (fun k _ => Hperm k)) as [HFr Hleaf].
  wp_step. eapply wp_mono; [apply (uvmdealloc_aligned (length F) _ l); rewrite ?HFr; first [done|apply Hu]|].
  intros r st' (s' & l' & -> & -> & Hun). apply wp_ret. exists s', l'. split_and!; [done|done|].
  rewrite HFr in Hun. by eapply pt_upd_undo.
Qed.

(** Page number [k] of [F] holds [c k]. *)
Definition holds s F (c : nat -> page) : Prop :=
  forall k pa, F !! k = Some pa -> mem s !! pa = Some (c k).

(** What a loop that maps [n] fresh pages from [va] promises: all of them,
    with status [ok], or none, with status [err]. *)
Definition grow_post (root : Z) s0 l0 tbl0 (va : Z) (perm : nat -> Z) (c : nat -> page)
    (ok err : Z) (n : nat) hl (r : Z) (st' : st pmem) : Prop :=
  let f := pte_of s0 tbl0 in
  exists s' l' tbl', st' = mk_st hl s' /\
    ((r = ok /\ exists F, length F = n /\ holds s' F c /\
        pt_upd root s0 l0 tbl0 (alloc_range va F perm f) F s' l' tbl') \/
     (r = err /\ exists k, (k < n)%nat /\
        pt_upd root s0 l0 tbl0 (unmap_range va k f) [] s' l' tbl')).

Lemma holds_mono root s l tbl f F' s' l' tbl' F c :
  pt_upd root s l tbl f F' s' l' tbl' -> holds s F c ->
  (forall pa, pa ∈ F -> in_use s l pa /\ ~ is_table tbl pa) -> holds s' F c.
Proof.
  intros Hu Hz HF k pa Hk. destruct (HF pa) as [Hpu Hpt]; [by eapply list_elem_of_lookup_2|].
  destruct (pu_frame _ _ _ _ _ _ _ _ _ Hu pa Hpu Hpt) as (_ & _ & ->). auto.
Qed.

Lemma holds_snoc s F c m :
  holds s F c -> mem s !! m = Some (c (length F)) -> holds s (F ++ [m]) c.
Proof.
  intros HF Hm k pa [Hk|[Hk Hpa]]%lookup_app_Some; [auto|].
  apply list_lookup_singleton_Some in Hpa as [Hk0 <-].
  by assert (k = length F) as -> by lia.
Qed.

(** The tail shared by the growing loops: mapping the prepared page [m] at the
    end of the range, or giving it back. *)
Lemma map_fresh s0 l0 tbl0 s l tbl s2 l1 hl root va F m perm f c
    (next err : M pmem Z) (Q : Z -> st pmem -> Prop) :
  let a := va + Z.of_nat (length F) * PGSIZE in
  pt_upd root s0 l0 tbl0 (alloc_range va F perm f) F s l tbl -> holds s F c ->
  pt_upd root s l tbl (pte_of s tbl) [m] s2 l1 tbl -> mem s2 !! m = Some (c (length F)) ->
  LkKmem ∉ hl -> 0 <= va -> va mod PGSIZE = 0 -> a + PGSIZE <= MAXVA ->
  (forall x, a <= x < a + PGSIZE -> flag_set (f x) PTE_V = false) ->
  (forall s' l' tbl',
     pt_upd root s0 l0 tbl0 (alloc_range va (F ++ [m]) perm f) (F ++ [m]) s' l' tbl' ->
     holds s' (F ++ [m]) c -> wp next Q (mk_st hl s')) ->
  (forall s' l' tbl',
     pt_upd root s0 l0 tbl0 (alloc_range va F perm f) F s' l' tbl' -> wp err Q (mk_st hl s')) ->
  wp (r <- mappages root a PGSIZE m (perm (length F)) ;;
      if negb (r =? 0) then kfree m ;; err else next) Q (mk_st hl s2).
Proof.
  assert (MAXVA = 2 ^ 38) as Hmax by done.
  intros a Hu Hz Hu1 Hmem Hh Hva Ha Hm Hun Hnext Hundo.
  assert (0 <= a /\ a mod PGSIZE = 0) as [Ha0 Haa] by (unfold a, PGSIZE in *; lia).
  pose proof (pt_upd_trans _ _ _ _ _ _ _ _ _ _ _ _ _ _ Hu Hu1) as Hu2.
  assert (page_ok m) as Hmok by (eapply fi_pages; [apply Hu1|exact Hmem]).
  assert (holds s2 (F ++ [m]) c) as Hz2.
  { apply holds_snoc; [|done]. eapply holds_mono; [exact Hu1|exact Hz|apply Hu]. }
  assert (forall x, 0 <= x < MAXVA -> pte_of s2 tbl x = alloc_range va F perm f x) as Hpte2.
  { intros x Hxr. by rewrite (pu_pte _ _ _ _ _ _ _ _ _ Hu1), (pu_pte _ _ _ _ _ _ _ _ _ Hu). }
  wp_step. change PGSIZE with (Z.of_nat 1 * PGSIZE) at 1.
  eapply wp_mono; [apply (mappages_spec _ l1 _ _ tbl)|].
  1,2: apply Hu1.
  1,2,3,4: done || lia.
  { unfold PGSIZE in *; lia. }
  { apply page_ok_pa_ok in Hmok as [? _]. lia. }
  { destruct Hmok. unfold PHYSTOP, KERNBASE, PGSIZE in *. lia. }
  { intros x Hxr. rewrite Hpte2 by (unfold PGSIZE in *; lia).
    unfold alloc_range. fold a. destruct (Z.ltb_spec x a); [lia|].
    rewrite andb_false_r. apply Hun. unfold PGSIZE in *; lia. }
  intros r st3 (s3 & l3 & tbl3 & k & -> & Hu3 & Hr). cbn beta.
  pose proof (pt_upd_trans _ _ _ _ _ _ _ _ _ _ _ _ _ _ Hu2 Hu3) as Hu4. rewrite app_nil_r in Hu4.
  destruct Hr as [[-> ->]|(-> & Hk & ->)].
  - change (negb (0 =? 0)) with false. cbv match. eapply Hnext.
    + eapply pt_upd_proper; [|exact Hu4]. intros x Hxr. cbn beta.
      rewrite <- (alloc_range_snoc va F m perm) by done. unfold map_range. fold a.
      destruct ((a <=? x) && _); [done|]. by apply Hpte2.
    + eapply holds_mono; [exact Hu3|done|apply Hu2].
  - change (negb (-1 =? 0)) with true. cbv match. assert (k = 0%nat) as -> by lia. wp_step.
    destruct (pu_owned _ _ _ _ _ _ _ _ _ Hu4 m) as [Hmu Hmt];
      [by apply elem_of_app; right; left|].
    eapply kfree_unmap; [apply Hu4|apply Hu4|done|done|done|]. intros s5 Hu5. cbn beta.
    eapply Hundo. eapply pt_upd_proper; [|exact (pt_upd_rollback _ _ _ _ _ F [m] _ _ _ _ _ _ Hu4 Hu5)].
    intros x Hxr. rewrite (pu_pte _ _ _ _ _ _ _ _ _ Hu4), map_range_0 by done. auto.
Qed.

(** One iteration of the loop: a zeroed page more, or the clean-up. *)
Lemma uvmalloc_step fuel s0 l0 tbl0 s l tbl hl root va F newsz xperm (Q : Z -> st pmem -> Prop) :
  let f := pte_of s0 tbl0 in
  let perm := Z.lor (Z.lor PTE_R PTE_U) xperm in
  let a := va + Z.of_nat (length F) * PGSIZE in
  pt_upd root s0 l0 tbl0 (alloc_range va F (fun _ => perm) f) F s l tbl -> holds s F (fun _ => filled 0) ->
  LkKmem ∉ hl -> 0 <= va -> va mod PGSIZE = 0 -> a + PGSIZE <= MAXVA -> a < newsz ->
  unmapped s0 tbl0 a PGSIZE ->
  (forall m s' l' tbl',
     pt_upd root s0 l0 tbl0 (alloc_range va (F ++ [m]) (fun _ => perm) f) (F ++ [m]) s' l' tbl' ->
     holds s' (F ++ [m]) (fun _ => filled 0) ->
     wp (uvmalloc_loop fuel root (a + PGSIZE) va newsz xperm) Q (mk_st hl s')) ->
  (forall s' l' tbl',
     pt_upd root s0 l0 tbl0 (alloc_range va F (fun _ => perm) f) F s' l' tbl' ->
     wp (_ <- uvmdealloc root a va ;; ret 0) Q (mk_st hl s')) ->
  wp (uvmalloc_loop (S fuel) root a va newsz xperm) Q (mk_st hl s).
Proof.
  assert (MAXVA = 2 ^ 38) as Hmax by done.
  intros f perm a Hu Hz Hh Hva Ha Hm Hsz Hun Hnext Hundo. cbn [uvmalloc_loop].
  destruct (Z.ltb_spec a newsz); [|lia].
  wp_step. eapply kalloc_upd; [apply Hu|apply Hu|done| |].
  { intros ->. cbn beta. change (0 =? 0) with true. cbv match. by eapply Hundo. }
  intros m l1 s1 Hm0 Hmok Hmem Hu1. cbn beta. destruct (Z.eqb_spec m 0); [done|].
  wp_step. unfold zero_page. wp_step. eapply wp_deref; [simpl; exact Hmem|]. apply wp_modify.
  cbn [held data]. rewrite u64_id by (unfold a, PGSIZE in *; lia). fold perm.
  eapply (map_fresh s0 l0 tbl0 s l tbl _ l1 hl root va F m (fun _ => perm) f (fun _ => filled 0)).
  - exact Hu.
  - exact Hz.
  - apply pt_upd_write; [done|by left|done].
  - apply lookup_insert_eq.
  - done.
  - done.
  - done.
  - exact Hm.
  - exact Hun.
  - exact (Hnext m).
  - exact Hundo.
Qed.

Lemma uvmalloc_loop_spec n fuel s0 l0 tbl0 s l tbl hl root va F newsz xperm :
  let f := pte_of s0 tbl0 in
  let perm := Z.lor (Z.lor PTE_R PTE_U) xperm in
  let a := va + Z.of_nat (length F) * PGSIZE in
  pt_upd root s0 l0 tbl0 (alloc_range va F (fun _ => perm) f) F s l tbl -> holds s F (fun _ => filled 0) ->
  LkKmem ∉ hl -> (n < fuel)%nat ->
  0 <= va -> va mod PGSIZE = 0 -> a + Z.of_nat n * PGSIZE <= MAXVA ->
  perm_ok perm ->
  (newsz <= a /\ n = 0%nat \/ a + (Z.of_nat n - 1) * PGSIZE < newsz <= a + Z.of_nat n * PGSIZE) ->
  unmapped s0 tbl0 a (Z.of_nat n * PGSIZE) ->
  wp (uvmalloc_loop fuel root a va newsz xperm)
    (grow_post root s0 l0 tbl0 va (fun _ => perm) (fun _ => filled 0) newsz 0 (length F + n) hl) (mk_st hl s).
Proof.
  revert fuel s l tbl F. induction n as [|n IH];
    intros fuel s l tbl F f perm a Hu Hz Hh Hfuel Hva Ha Hm Hperm Hsz Hun;
    (destruct fuel as [|fuel]; [lia|]).
  - cbn [uvmalloc_loop]. destruct (Z.ltb_spec a newsz); [unfold PGSIZE in *; lia|]. apply wp_ret.
    exists s, l, tbl. split; [done|]. left. split; [done|]. exists F. split_and!; [lia|done|done].
  - eapply uvmalloc_step; [exact Hu|exact Hz|exact Hh|exact Hva|exact Ha|..].
    + fold a. unfold PGSIZE in *; lia.
    + fold a. unfold PGSIZE in *; lia.
    + intros x Hx. apply Hun. unfold a, PGSIZE in *; lia.
    + intros m s' l' tbl' Hu' Hz'. fold f perm in Hu'. fold a.
      assert (a + PGSIZE = va + Z.of_nat (length (F ++ [m])) * PGSIZE) as Ea
        by (rewrite length_app; simpl; unfold a; lia).
      replace (length F + S n)%nat with (length (F ++ [m]) + n)%nat
        by (rewrite length_app; simpl; lia).
      rewrite Ea. eapply IH; rewrite <- ?Ea; [exact Hu'|exact Hz'|exact Hh|lia|done|done| |exact Hperm| |].
      * unfold PGSIZE in *; lia.
      * right. unfold PGSIZE in *; lia.
      * intros x Hx. apply Hun. unfold PGSIZE in *; lia.
    + intros s1 l1 tbl1 Hu1. fold f perm in Hu1. fold a.
      eapply wp_mono; [eapply uvmalloc_undo; [exact Hu1|done|done|done| |done]|].
      { unfold a, PGSIZE in *; lia. }
      intros r st' (s' & l' & -> & -> & Hu'). exists s', l', tbl1. split; [done|]. right.
      split; [done|]. exists (length F). split; [lia|done].
Qed.

(** ** [uvmcopy] *)

(** The source of a copy: [N] pages from 0 of another address space, each a
    leaf that maps a page of bytes, none of them the new tree's. *)
Record copy_src s l tbl (rooto : Z) (tblo : gmap (list Z) Z) (N : nat) (b : nat -> list Z) : Prop := {
  cs_pt : pt_inv s rooto tblo;
  cs_disj a : is_table tblo a -> ~ is_table tbl a;
  cs_page k : (k < N)%nat ->
    let v := pte_of s tblo (Z.of_nat k * PGSIZE) in
    leaf_ok v /\ in_use s l (PTE2PA v) /\ ~ is_table tbl (PTE2PA v) /\
    bytes_at (PTE2PA v) s = Some (b k) /\ length (b k) = Z.to_nat PGSIZE
}.

(** Updates of the new tree leave the source of the copy alone. *)
Lemma copy_src_upd root s l tbl f F s' l' tbl' rooto tblo N b :
  pt_upd root s l tbl f F s' l' tbl' -> free_inv s l ->
  copy_src s l tbl rooto tblo N b ->
  copy_src s' l' tbl' rooto tblo N b /\
  forall va, pte_of s' tblo va = pte_of s tblo va.
Proof.
  intros Hu Hf [Hp Hd Hpg].
  assert (forall a, is_table tblo a -> ~ is_table tbl' a /\ mem s' !! a = mem s !! a) as Hold.
  { intros a Ha. destruct (pu_frame _ _ _ _ _ _ _ _ _ Hu a) as (_ & Ht & Hm); [|by apply Hd|done].
    destruct Ha as [p Ha]. by eapply table_in_use. }
  assert (forall va, pte_of s' tblo va = pte_of s tblo va) as Hpte
    by (intros; apply pte_of_frame; intros; by apply Hold).
  split; [|done]. split.
  - eapply pt_inv_frame; [done|]. intros. by apply Hold.
  - intros a Ha. by apply Hold.
  - intros k Hk. rewrite Hpte. destruct (Hpg k Hk) as (Hl & Hiu & Hnt & Hb & Hlen).
    destruct (pu_frame _ _ _ _ _ _ _ _ _ Hu _ Hiu Hnt) as (? & ? & Hm).
    split_and!; [done|done|done| |done]. unfold bytes_at. by rewrite Hm.
Qed.

Lemma splice_all (b src : list Z) : length b = length src -> splice b 0 src = src.
Proof. intros Hl. unfold splice. simpl. rewrite drop_ge, app_nil_r by lia. done. Qed.

Lemma PTE_FLAGS_perm v : leaf_ok v -> perm_ok (PTE_FLAGS v).
Proof.
  intros [Hv Hne]. split.
  - rewrite PTE_FLAGS_eq. lia.
  - unfold flag_set in Hv. intros E. apply Hne. rewrite <- E. unfold PTE_FLAGS in *.
    symmetry. rewrite <- Z.land_diag at 1.
    assert (Z.land v PTE_V = PTE_V) as Hb.
    { change PTE_V with 1 in *. rewrite (land_ones_mod v 1 ltac:(lia) : Z.land v 1 = _) in *. lia. }
    apply Z.bits_inj'. intros i Hi. rewrite !Z.land_spec, Z.lor_spec, Z.land_spec.
    apply (f_equal (fun z => Z.testbit z i)) in Hb. rewrite Z.land_spec in Hb.
    destruct (Z.testbit PTE_V i) eqn:E1; [|by destruct (Z.testbit v i), (Z.testbit 1023 i)].
    rewrite andb_true_r in Hb. rewrite Hb.
    assert (Z.testbit 1023 i = true) as ->; [|done].
    assert (i = 0) as ->; [|done]. change PTE_V with (2 ^ 0) in E1.
    destruct (Z.eq_dec i 0); [done|]. rewrite Z.pow2_bits_false in E1 by lia. done.
Qed.

Lemma uvmcopy_step fuel s0 l0 tbl0 s l tbl hl root rooto tblo F N b sz (Q : Z -> st pmem -> Prop) :
  let f := pte_of s0 tbl0 in
  let perm := fun k => PTE_FLAGS (pte_of s0 tblo (Z.of_nat k * PGSIZE)) in
  let c := fun k => PgBytes (b k) in
  let i := Z.of_nat (length F) * PGSIZE in
  free_inv s0 l0 -> copy_src s0 l0 tbl0 rooto tblo N b ->
  pt_upd root s0 l0 tbl0 (alloc_range 0 F perm f) F s l tbl -> holds s F c ->
  LkKmem ∉ hl -> i + PGSIZE <= MAXVA -> i < sz -> (length F < N)%nat ->
  unmapped s0 tbl0 i PGSIZE ->
  (forall m s' l' tbl',
     pt_upd root s0 l0 tbl0 (alloc_range 0 (F ++ [m]) perm f) (F ++ [m]) s' l' tbl' ->
     holds s' (F ++ [m]) c ->
     wp (uvmcopy_loop fuel rooto root (i + PGSIZE) sz) Q (mk_st hl s')) ->
  (forall s' l' tbl',
     pt_upd root s0 l0 tbl0 (alloc_range 0 F perm f) F s' l' tbl' ->
     wp (uvmcopy_err root i) Q (mk_st hl s')) ->
  wp (uvmcopy_loop (S fuel) rooto root i sz) Q (mk_st hl s).
Proof.
  assert (MAXVA = 2 ^ 38) as Hmax by done.
  intros f perm c i Hf0 Hsrc0 Hu Hz Hh Hm Hsz HN Hun Hnext Hundo. cbn [uvmcopy_loop].
  assert (0 <= i /\ i mod PGSIZE = 0) as [Ha0 Haa] by (unfold i, PGSIZE in *; lia).
  destruct (Z.ltb_spec i sz); [|lia].
  destruct (copy_src_upd _ _ _ _ _ _ _ _ _ _ _ _ _ Hu Hf0 Hsrc0) as [Hsrc Hpo].
  destruct (cs_page _ _ _ _ _ _ _ Hsrc (length F) HN) as (Hl & _ & _ & _ & Hlen). fold i in Hl.
  destruct (leaf_slot_valid _ _ _ _ (cs_pt _ _ _ _ _ _ _ Hsrc) (proj1 Hl)) as [q Hq].
  wp_step. eapply wp_frame_eq; [apply walk_lookup; [apply Hsrc|unfold PGSIZE in *; lia]|].
  cbn beta. rewrite Hq. cbv match.
  wp_step. eapply wp_load_leaf; [apply Hsrc|done|]. cbn beta. rewrite (proj1 Hl). cbn [negb].
  rewrite Hpo. set (v := pte_of s0 tblo i).
  wp_step. eapply kalloc_upd; [apply Hu|apply Hu|done| |].
  { intros ->. cbn beta. change (0 =? 0) with true. cbv match. by eapply Hundo. }
  intros m l1 s1 Hm0 Hmok Hmem Hu1. cbn beta. destruct (Z.eqb_spec m 0); [done|].
  destruct (copy_src_upd _ _ _ _ _ _ _ _ _ _ _ _ _ Hu1 (pu_free _ _ _ _ _ _ _ _ _ Hu) Hsrc) as [Hsrc1 Hpo1].
  destruct (cs_page _ _ _ _ _ _ _ Hsrc1 (length F) HN) as (_ & _ & _ & Hb1 & _).
  fold i in Hb1. rewrite Hpo1, Hpo in Hb1. fold v in Hb1.
  unfold read_bytes, write_bytes. wp_steps. eapply wp_deref; [exact Hb1|]. apply wp_ret. wp_step.
  wp_step. eapply wp_deref; [simpl; by apply bytes_at_mem|]. apply wp_modify. cbn [held data].
  change (Z.to_nat 0) with 0%nat. rewrite drop_0, take_ge by lia.
  rewrite splice_all by (rewrite length_replicate; lia).
  rewrite u64_id by (unfold PGSIZE in *; lia). fold (perm (length F)).
  apply (map_fresh s0 l0 tbl0 s l tbl _ l1 hl root 0 F m perm f c).
  - exact Hu.
  - exact Hz.
  - apply pt_upd_write; [done|by left|done].
  - apply lookup_insert_eq.
  - done.
  - done.
  - done.
  - rewrite Z.add_0_l. exact Hm.
  - rewrite Z.add_0_l. exact Hun.
  - exact (Hnext m).
  - exact Hundo.
Qed.

Lemma uvmcopy_err_spec s0 l0 tbl0 s l tbl hl root F perm f :
  pt_upd root s0 l0 tbl0 (alloc_range 0 F perm f) F s l tbl -> LkKmem ∉ hl ->
  Z.of_nat (length F) * PGSIZE <= MAXVA -> (forall k, (k < length F)%nat -> perm_ok (perm k)) ->
  wp (uvmcopy_err root (Z.of_nat (length F) * PGSIZE))
    (fun r st' => exists s' l', st' = mk_st hl s' /\ r = -1 /\
       pt_upd root s0 l0 tbl0 (unmap_range 0 (length F) f) [] s' l' tbl)
    (mk_st hl s).
Proof.
  intros Hu Hh Hm Hperm.
  destruct (alloc_range_frames _ _ _ _ _ _ _ _ _ _ _ Hu ltac:(lia) Hm Hperm) as [HFr Hleaf].
  unfold uvmcopy_err. rewrite Z.div_mul by done. wp_step.
  eapply wp_mono;
    [apply (uvmunmap_spec (length F) s l hl root tbl 0 true); rewrite ?HFr; first [done|apply Hu]|].
  intros [] st' (s' & l' & -> & Hun). apply wp_ret. exists s', l'. split_and!; [done|done|].
  rewrite HFr in Hun. by eapply pt_upd_undo.
Qed.

Lemma uvmcopy_loop_spec n fuel s0 l0 tbl0 s l tbl hl root rooto tblo F N b sz :
  let f := pte_of s0 tbl0 in
  let perm := fun k => PTE_FLAGS (pte_of s0 tblo (Z.of_nat k * PGSIZE)) in
  let c := fun k => PgBytes (b k) in
  let i := Z.of_nat (length F) * PGSIZE in
  free_inv s0 l0 -> copy_src s0 l0 tbl0 rooto tblo N b ->
  pt_upd root s0 l0 tbl0 (alloc_range 0 F perm f) F s l tbl -> holds s F c ->
  LkKmem ∉ hl -> (n < fuel)%nat -> N = (length F + n)%nat -> Z.of_nat N * PGSIZE <= MAXVA ->
  (Z.of_nat N - 1) * PGSIZE < sz <= Z.of_nat N * PGSIZE ->
  unmapped s0 tbl0 0 (Z.of_nat N * PGSIZE) ->
  wp (uvmcopy_loop fuel rooto root i sz)
    (grow_post root s0 l0 tbl0 0 perm c 0 (-1) N hl) (mk_st hl s).
Proof.
  revert fuel s l tbl F. induction n as [|n IH];
    intros fuel s l tbl F f perm c i Hf0 Hsrc Hu Hz Hh Hfuel HN Hm Hsz Hun;
    (destruct fuel as [|fuel]; [lia|]).
  - cbn [uvmcopy_loop]. destruct (Z.ltb_spec i sz); [unfold i, PGSIZE in *; lia|]. apply wp_ret.
    exists s, l, tbl. split; [done|]. left. split; [done|]. exists F. split_and!; [lia|done|done].
  - eapply uvmcopy_step; [exact Hf0|exact Hsrc|exact Hu|exact Hz|exact Hh|..].
    + fold i. unfold i, PGSIZE in *; lia.
    + fold i. unfold i, PGSIZE in *; lia.
    + lia.
    + intros x Hx. apply Hun. unfold PGSIZE in *; lia.
    + intros m s' l' tbl' Hu' Hz'.
      assert (Z.of_nat (length F) * PGSIZE + PGSIZE = Z.of_nat (length (F ++ [m])) * PGSIZE) as ->
        by (rewrite length_app; simpl; lia).
      eapply IH; [exact Hf0|exact Hsrc|exact Hu'|exact Hz'|exact Hh|lia| |exact Hm|exact Hsz|exact Hun].
      rewrite length_app. simpl. lia.
    + intros s1 l1 tbl1 Hu1.
      eapply wp_mono; [eapply uvmcopy_err_spec; [exact Hu1|done| |]|].
      * unfold PGSIZE in *; lia.
      * intros k Hk. apply PTE_FLAGS_perm.
        destruct (cs_page _ _ _ _ _ _ _ Hsrc k ltac:(lia)) as [? _]. done.
      * intros r st' (s' & l' & -> & -> & Hu'). exists s', l', tbl1. split; [done|]. right.
        split; [done|]. exists (length F). split; [lia|done].
Qed.

Lemma uvmcopy_spec N s l hl root tbl rooto tblo b sz :
  let perm := fun k => PTE_FLAGS (pte_of s tblo (Z.of_nat k * PGSIZE)) in
  free_inv s l -> pt_inv s root tbl -> copy_src s l tbl rooto tblo N b -> LkKmem ∉ hl ->
  Z.of_nat N * PGSIZE <= MAXVA -> 0 <= sz -> (Z.of_nat N - 1) * PGSIZE < sz <= Z.of_nat N * PGSIZE ->
  unmapped s tbl 0 (Z.of_nat N * PGSIZE) ->
  wp (uvmcopy rooto root sz) (grow_post root s l tbl 0 perm (fun k => PgBytes (b k)) 0 (-1) N hl)
    (mk_st hl s).
Proof.
  intros perm Hf Hp Hsrc Hh Hm Hsz0 Hsz Hun. unfold uvmcopy.
  pose proof (uvmcopy_loop_spec N (S (Z.to_nat ((sz + PGSIZE - 1) / PGSIZE)))
    s l tbl s l tbl hl root rooto tblo [] N b sz) as H. cbn zeta in H.
  change (Z.of_nat (length (@nil Z)) * PGSIZE) with 0 in H.
  assert (pt_upd root s l tbl (alloc_range 0 [] perm (pte_of s tbl)) [] s l tbl) as H0.
  { eapply pt_upd_proper; [|by apply pt_ext_refl]. intros. by rewrite alloc_range_nil. }
  apply H; [done|done|exact H0|by intros ? ? ?|done|unfold PGSIZE in *; lia|done|done|done|done].
Qed.

Lemma uvmalloc_spec n s l hl root tbl oldsz newsz xperm :
  let va := PGROUNDUP oldsz in
  let perm := Z.lor (Z.lor PTE_R PTE_U) xperm in
  free_inv s l -> pt_inv s root tbl -> LkKmem ∉ hl ->
  0 <= oldsz <= newsz -> va + Z.of_nat n * PGSIZE <= MAXVA -> perm_ok perm ->
  (newsz <= va /\ n = 0%nat \/ va + (Z.of_nat n - 1) * PGSIZE < newsz <= va + Z.of_nat n * PGSIZE) ->
  unmapped s tbl va (Z.of_nat n * PGSIZE) ->
  exists r st', uvmalloc root oldsz newsz xperm (mk_st hl s) = Ret r st' /\
    grow_post root s l tbl va (fun _ => perm) (fun _ => filled 0) newsz 0 n hl r st'.
Proof.
  intros va perm Hf Hp Hh Hsz Hm Hperm Hn Hun. assert (MAXVA = 2 ^ 38) as Hmax by done.
  unfold uvmalloc. destruct (Z.ltb_spec newsz oldsz) as [|_]; [lia|]. cbv zeta.
  assert (0 <= va /\ va mod PGSIZE = 0) as [Hva Hal].
  { assert (newsz <= MAXVA) by (unfold PGSIZE in *; lia).
    unfold va. rewrite PGROUNDUP_eq; unfold PGSIZE in *; lia. }
  fold va. apply wp_run.
  pose proof (uvmalloc_loop_spec n (S (Z.to_nat ((newsz - va + PGSIZE - 1) / PGSIZE)))
    s l tbl s l tbl hl root va [] newsz xperm) as H. cbn zeta in H.
  change (Z.of_nat (length (@nil Z)) * PGSIZE) with 0 in H. rewrite Z.add_0_r in H.
  fold perm in H. change (length (@nil Z) + n)%nat with n in H.
  apply H; [|by intros ? ? ?|done|unfold PGSIZE in *; lia|done|done|done|done|done|done].
  eapply pt_upd_proper; [|by apply pt_ext_refl]. intros. by rewrite alloc_range_nil.
Qed.

(** ** The properties *)

(** [mappages] is total on an unmapped range: it returns 0 with every page
    of the range mapped to the corresponding physical page with the requested
    permissions, or -1 with only a proper prefix mapped, and then the free list
    is empty; the other virtual addresses translate as before, the pages taken
    from the free list are all page tables, and no other page in use changed. *)
Theorem mappages_maps s l hl root tbl va n pa perm :
  free_inv s l -> pt_inv s root tbl -> LkKmem ∉ hl ->
  (0 < n)%nat -> 0 <= va -> va mod PGSIZE = 0 -> va + Z.of_nat n * PGSIZE <= MAXVA ->
  0 <= pa -> pa + Z.of_nat n * PGSIZE <= 2 ^ 56 ->
  unmapped s tbl va (Z.of_nat n * PGSIZE) ->
  exists r s' l' tbl' k,
    mappages root va (Z.of_nat n * PGSIZE) pa perm (mk_st hl s) = Ret r (mk_st hl s') /\
    pt_upd root s l tbl (map_range va k pa perm (pte_of s tbl)) [] s' l' tbl' /\
    (r = 0 /\ k = n \/ r = -1 /\ (k < n)%nat /\ l' = []).
Proof.
  intros Hf Hp Hh Hn Hva Ha Hm Hpa Hpm Hun.
  pose proof (mappages_spec s l hl root tbl va n pa perm Hf Hp Hh Hn Hva Ha Hm Hpa Hpm Hun) as H.
  apply wp_run in H as (r & st' & E & s' & l' & tbl' & k & -> & H). by exists r, s', l', tbl', k.
Qed.

(** [uvmunmap] of a range of leaf mappings returns; afterwards exactly that
    range is unmapped, with [do_free] exactly the pages behind it are back on
    the free list (without it the list is unchanged), and no other page in use
    changed. *)
Theorem uvmunmap_unmaps n s l hl root tbl va (do_free : bool) :
  let F := if do_free then frames (pte_of s tbl) va n else [] in
  free_inv s l -> pt_inv s root tbl -> LkKmem ∉ hl ->
  0 <= va -> va mod PGSIZE = 0 -> va + Z.of_nat n * PGSIZE <= MAXVA ->
  (forall x, va <= x < va + Z.of_nat n * PGSIZE -> leaf_ok (pte_of s tbl x)) ->
  NoDup F -> (forall pa, pa ∈ F -> in_use s l pa /\ ~ is_table tbl pa) ->
  exists s', uvmunmap root va (Z.of_nat n) do_free (mk_st hl s) = Ret tt (mk_st hl s') /\
    pt_unmap root s l tbl (unmap_range va n (pte_of s tbl)) F s' (reverse F ++ l).
Proof.
  intros F Hf Hp Hh Hva Ha Hm Hleaf Hnd HF.
  pose proof (uvmunmap_spec n s l hl root tbl va do_free Hf Hp Hh Hva Ha Hm Hleaf Hnd HF) as H.
  apply wp_run in H as ([] & st' & E & s' & l' & -> & H). exists s'. split; [done|].
  pose proof (un_list _ _ _ _ _ _ _ _ H) as ->. exact H.
Qed.

(** C26: [uvmalloc] grows an address space by fresh zeroed pages or not at all.
    It returns the new size with every page of the grown range mapped,
    readable and user-accessible with the extra permissions, to a page that was
    free and now holds zeros; or it returns 0 and has given every data page
    back, the grown range being unmapped again; everything outside the range
    translates as before in both cases. *)
Theorem uvmalloc_all_or_nothing n s l hl root tbl oldsz newsz xperm :
  let va := PGROUNDUP oldsz in
  let perm := Z.lor (Z.lor PTE_R PTE_U) xperm in
  free_inv s l -> pt_inv s root tbl -> LkKmem ∉ hl ->
  0 <= oldsz <= newsz -> va + Z.of_nat n * PGSIZE <= MAXVA -> perm_ok perm ->
  (newsz <= va /\ n = 0%nat \/ va + (Z.of_nat n - 1) * PGSIZE < newsz <= va + Z.of_nat n * PGSIZE) ->
  unmapped s tbl va (Z.of_nat n * PGSIZE) ->
  exists r st', uvmalloc root oldsz newsz xperm (mk_st hl s) = Ret r st' /\
    grow_post root s l tbl va (fun _ => perm) (fun _ => filled 0) newsz 0 n hl r st'.
Proof. intros. by apply uvmalloc_spec. Qed.

(** C15: [uvmcopy] duplicates an address space or leaves nothing behind.  It
    returns 0 with every page below [sz] of the new tree mapped to a fresh
    page that holds the parent's bytes, with the parent's permissions; or -1
    with those pages given back and the range unmapped.  In both cases the
    parent's translation and bytes are unchanged. *)
Theorem uvmcopy_copies N s l hl root tbl rooto tblo b sz :
  let perm := fun k => PTE_FLAGS (pte_of s tblo (Z.of_nat k * PGSIZE)) in
  free_inv s l -> pt_inv s root tbl -> copy_src s l tbl rooto tblo N b -> LkKmem ∉ hl ->
  Z.of_nat N * PGSIZE <= MAXVA -> 0 <= sz -> (Z.of_nat N - 1) * PGSIZE < sz <= Z.of_nat N * PGSIZE ->
  unmapped s tbl 0 (Z.of_nat N * PGSIZE) ->
  exists r st', uvmcopy rooto root sz (mk_st hl s) = Ret r st' /\
    grow_post root s l tbl 0 perm (fun k => PgBytes (b k)) 0 (-1) N hl r st' /\
    exists l' tbl', copy_src (data st') l' tbl' rooto tblo N b /\
      forall va, pte_of (data st') tblo va = pte_of s tblo va.
Proof.
  intros perm Hf Hp Hsrc Hh Hm Hsz0 Hsz Hun.
  destruct (proj1 (wp_run _ _ _) (uvmcopy_spec N s l hl root tbl rooto tblo b sz Hf Hp Hsrc Hh Hm Hsz0 Hsz Hun))
    as (r & st' & E & HQ). exists r, st'. split_and!; [done|done|].
  destruct HQ as (s' & l' & tbl' & -> & [(_ & F & _ & _ & Hu)|(_ & k & _ & Hu)]);
    exists l', tbl'; exact (copy_src_upd _ _ _ _ _ _ _ _ _ _ _ _ _ Hu Hf Hsrc).
Qed.
End space.

(** ** Witnesses, on the machine of VmExample.v *)

#[local] Existing Instance demo_image.

Lemma demo_unmapped : unmapped demo demo_tbl PGSIZE PGSIZE.
Proof.
  assert (MAXVA = 2 ^ 38) by done.
  intros x Hx. rewrite demo_pte_of by (unfold PGSIZE in *; lia).
  destruct (Z.ltb_spec x PGSIZE); [lia|done].
Qed.

Lemma demo_unmapped2 x : pte_of demo demo_tbl2 x = 0.
Proof. unfold pte_of, demo_tbl2, leaf_path. by rewrite lookup_singleton_ne. Qed.

Lemma demo_leaf x : 0 <= x < PGSIZE -> leaf_ok (pte_of demo demo_tbl x).
Proof.
  assert (MAXVA = 2 ^ 38) by done.
  intros Hx. rewrite demo_pte_of by (unfold PGSIZE in *; lia).
  rewrite (proj2 (Z.ltb_lt _ _)) by lia. by vm_compute.
Qed.

Lemma demo_data : in_use demo demo_free (pg 3) /\ ~ is_table demo_tbl (pg 3) /\ ~ is_table demo_tbl2 (pg 3).
Proof.
  split_and!.
  - split; [by exists (PgBytes demo_bytes)|]. apply (bool_decide_unpack _). by vm_compute.
  - intros [p Hp]. destruct (pt_node _ _ _ demo_pt _ _ Hp) as (t & Ht & _). by vm_compute in Ht.
  - intros [p Hp]. destruct (pt_node _ _ _ demo_pt2 _ _ Hp) as (t & Ht & _). by vm_compute in Ht.
Qed.

Lemma mappages_maps_witness :
  exists r s', mappages (pg 0) PGSIZE (1 * PGSIZE) (pg 3) PTE_R (mk_st [] demo) = Ret r (mk_st [] s').
Proof.
  destruct (mappages_maps demo demo_free [] (pg 0) demo_tbl PGSIZE 1 (pg 3) PTE_R) as (r & s' & _ & _ & _ & E & _).
  - exact demo_free_inv.
  - exact demo_pt.
  - apply not_elem_of_nil.
  - lia.
  - by vm_compute.
  - reflexivity.
  - by vm_compute.
  - by vm_compute.
  - by vm_compute.
  - exact demo_unmapped.
  - exists r, s'. exact E.
Defined.

Lemma uvmunmap_unmaps_witness :
  exists s', uvmunmap (pg 0) 0 1 true (mk_st [] demo) = Ret tt (mk_st [] s') /\
    free_inv s' (pg 3 :: demo_free).
Proof.
  destruct (uvmunmap_unmaps 1 demo demo_free [] (pg 0) demo_tbl 0 true) as (s' & E & H).
  - exact demo_free_inv.
  - exact demo_pt.
  - apply not_elem_of_nil.
  - lia.
  - reflexivity.
  - by vm_compute.
  - intros x Hx. apply demo_leaf. unfold PGSIZE in *. lia.
  - apply NoDup_singleton.
  - intros pa Hpa. apply list_elem_of_singleton in Hpa as ->.
    assert (PTE2PA (pte_of demo demo_tbl 0) = pg 3) as -> by (vm_compute; reflexivity).
    destruct demo_data as (H1 & H2 & _). split; [exact H1|exact H2].
  - exists s'. split; [exact E|]. apply H.
Defined.

Lemma uvmalloc_all_or_nothing_witness :
  exists r st', uvmalloc (pg 0) 4000 8000 PTE_W (mk_st [] demo) = Ret r st'.
Proof.
  destruct (uvmalloc_all_or_nothing 1 demo demo_free [] (pg 0) demo_tbl 4000 8000 PTE_W)
    as (r & st' & E & _).
  - exact demo_free_inv.
  - exact demo_pt.
  - apply not_elem_of_nil.
  - lia.
  - by vm_compute.
  - split; by vm_compute.
  - right. by vm_compute.
  - exact demo_unmapped.
  - exists r, st'. exact E.
Defined.

Lemma demo_copy_src : copy_src demo demo_free demo_tbl2 (pg 0) demo_tbl 1 (fun _ => demo_bytes).
Proof.
  split.
  - exact demo_pt.
  - intros a [p Hp] [q Hq]. unfold demo_tbl2 in Hq. apply lookup_singleton_Some in Hq as [_ <-].
    revert Hp. unfold demo_tbl.
    intros [[_ ?]|[_ [[_ ?]|[_ [_ ?]%lookup_singleton_Some]]%lookup_insert_Some]]%lookup_insert_Some; done.
  - intros k Hk. assert (k = 0%nat) as -> by lia. cbv zeta.
    rewrite demo_pte_of by (by vm_compute). change (0 <? PGSIZE) with true.
    change (PTE2PA demo_pte) with (pg 3). split_and!; [by vm_compute|apply demo_data|apply demo_data|done|done].
Qed.

Lemma uvmcopy_copies_witness :
  exists r st', uvmcopy (pg 0) (pg 4) 4096 (mk_st [] demo) = Ret r st' /\
    pte_of (data st') demo_tbl 0 = demo_pte.
Proof.
  destruct (uvmcopy_copies 1 demo demo_free [] (pg 4) demo_tbl2 (pg 0) demo_tbl (fun _ => demo_bytes) 4096)
    as (r & st' & E & _ & l' & tbl' & _ & Hp).
  - exact demo_free_inv.
  - exact demo_pt2.
  - exact demo_copy_src.
  - apply not_elem_of_nil.
  - by vm_compute.
  - lia.
  - by vm_compute.
  - intros x Hx. rewrite demo_unmapped2. reflexivity.
  - exists r, st'. split; [exact E|]. rewrite Hp. by vm_compute.
Defined.
