(* ===== verification/VmCopy.v ===== *)
(** * Copies between the kernel and user memory (kernel/vm.c)

    User memory is seen as the partial map [ubyte] from virtual addresses to
    bytes that a page table defines.  [copyin], [copyout] and [copyinstr] are
    shown to be reads and writes of that map, to refuse what is not mapped for
    the user, and to touch nothing else. *)

From S2P Require Import Prelude Spinlock Riscv Kalloc Vm VmProofs VmExample.
Ltac Zify.zify_post_hook ::= Z.to_euclidean_division_equations.

Section copy.
Context {img : Image}.
Implicit Types (s : pmem) (l : list Z) (tbl : gmap (list Z) Z) (hl : list lockid).

Definition user (v : Z) : bool := flag_set v PTE_V && flag_set v PTE_U.

(** The byte a user program reads at [va]. *)
Definition ubyte s tbl (va : Z) : option Z :=
  if (va <? MAXVA) && user (pte_of s tbl va)
  then b ← bytes_at (PTE2PA (pte_of s tbl va)) s; b !! Z.to_nat (va mod PGSIZE)
  else None.

Definition uread s tbl (va : Z) (n : nat) : option (list Z) :=
  mapM (ubyte s tbl) (seqZ va (Z.of_nat n)).

(** Pages mapped for the user hold bytes, and no two virtual pages share one. *)
Record uspace s tbl : Prop := {
  us_bytes va : 0 <= va < MAXVA -> user (pte_of s tbl va) = true ->
    PTE2PA (pte_of s tbl va) <> 0 /\
    exists b, bytes_at (PTE2PA (pte_of s tbl va)) s = Some b /\ length b = Z.to_nat PGSIZE;
  us_inj va va' : 0 <= va < MAXVA -> 0 <= va' < MAXVA ->
    user (pte_of s tbl va) = true -> user (pte_of s tbl va') = true ->
    PTE2PA (pte_of s tbl va) = PTE2PA (pte_of s tbl va') -> va / PGSIZE = va' / PGSIZE
}.

(** ** Reading *)

Lemma load_slot s hl root tbl va :
  pt_inv s root tbl -> 0 <= va < MAXVA ->
  match leaf_slot tbl va with
  | Some q => load_pte q (mk_st hl s) = Ret (pte_of s tbl va) (mk_st hl s)
  | None => pte_of s tbl va = 0
  end.
Proof.
  intros Hp Hva. unfold leaf_slot, pte_of. destruct (tbl !! leaf_path va) as [a|] eqn:Ha; [|done].
  simpl. destruct (pt_node _ _ _ Hp _ _ Ha) as (t & Ht & Hl & _). rewrite Ht.
  by apply load_pte_run, PX_bound.
Qed.

Lemma walkaddr_run s hl root tbl va :
  pt_inv s root tbl -> 0 <= va ->
  walkaddr root va (mk_st hl s) =
    Ret (if (va <? MAXVA) && user (pte_of s tbl va) then PTE2PA (pte_of s tbl va) else 0)
      (mk_st hl s).
Proof.
  intros Hp Hva. unfold walkaddr.
  destruct (Z.leb_spec MAXVA va), (Z.ltb_spec va MAXVA); try lia; [done|].
  unfold bind at 1. rewrite (walk_lookup _ _ _ tbl) by (done || lia). cbn [obind andb].
  pose proof (load_slot s hl root tbl va Hp ltac:(lia)) as Hs.
  destruct (leaf_slot tbl va) as [q|].
  - unfold bind. rewrite Hs. cbn [obind]. unfold user.
    by destruct (flag_set _ PTE_V), (flag_set _ PTE_U).
  - rewrite Hs. done.
Qed.

Lemma PGROUNDDOWN_bounds va :
  0 <= va -> 0 <= PGROUNDDOWN va <= va /\ va - PGROUNDDOWN va = va mod PGSIZE /\
  PGROUNDDOWN va / PGSIZE = va / PGSIZE /\ (PGROUNDDOWN va <? MAXVA) = (va <? MAXVA).
Proof.
  intros Hva. rewrite PGROUNDDOWN_eq. assert (MAXVA = 2 ^ 38) as -> by done. unfold PGSIZE.
  split_and!; [lia..|]. apply eq_true_iff_eq. rewrite !Z.ltb_lt. lia.
Qed.

Lemma mapM_app {A B} (f : A -> option B) (l1 l2 : list A) :
  mapM f (l1 ++ l2) = (b1 ← mapM f l1; b2 ← mapM f l2; Some (b1 ++ b2)).
Proof.
  induction l1 as [|x l1 IH]; simpl; [by destruct (mapM f l2)|].
  destruct (f x); simpl; [|done]. rewrite IH.
  destruct (mapM f l1); simpl; [|done]. by destruct (mapM f l2).
Qed.

Lemma uread_app s tbl va n m :
  uread s tbl va (n + m) =
    (b1 ← uread s tbl va n; b2 ← uread s tbl (va + Z.of_nat n) m; Some (b1 ++ b2)).
Proof.
  unfold uread. rewrite Nat2Z.inj_add, seqZ_app by lia. rewrite mapM_app. done.
Qed.

Lemma uread_Some s tbl va n bs :
  uread s tbl va n = Some bs <->
  length bs = n /\ forall k, (k < n)%nat -> ubyte s tbl (va + Z.of_nat k) = bs !! k.
Proof.
  unfold uread. rewrite mapM_Some, Forall2_lookup. split.
  - intros H. assert (length bs = n) as Hlen.
    { assert (Forall2 (fun x y => ubyte s tbl x = Some y) (seqZ va (Z.of_nat n)) bs) as HF
        by (by apply Forall2_lookup). apply Forall2_length in HF. rewrite length_seqZ in HF. lia. }
    split; [done|]. intros k Hk. specialize (H k).
    rewrite lookup_seqZ_lt in H by lia. by inversion H.
  - intros [Hlen H] k. destruct (decide (k < n)%nat) as [Hk|Hk].
    + rewrite lookup_seqZ_lt by lia. destruct (lookup_lt_is_Some_2 bs k) as [x Hx]; [lia|].
      rewrite Hx. constructor. by rewrite H.
    + rewrite lookup_seqZ_ge, lookup_ge_None_2 by lia. constructor.
Qed.

(** Inside one page. *)
Lemma uread_page s tbl va n b :
  0 <= va -> (va <? MAXVA) = true -> user (pte_of s tbl va) = true ->
  bytes_at (PTE2PA (pte_of s tbl va)) s = Some b -> length b = Z.to_nat PGSIZE ->
  Z.of_nat n <= PGSIZE - va mod PGSIZE ->
  uread s tbl va n = Some (take n (drop (Z.to_nat (va mod PGSIZE)) b)).
Proof.
  intros Hva Hm Hu Hb Hl Hn. apply uread_Some. rewrite length_take, length_drop, Hl.
  pose proof (Z.mod_pos_bound va PGSIZE eq_refl) as Hb'. split; [lia|]. intros k Hk. clear Hl.
  assert ((va + Z.of_nat k) / PGSIZE = va / PGSIZE) as Hpg by (unfold PGSIZE in *; lia).
  assert ((va + Z.of_nat k) mod PGSIZE = va mod PGSIZE + Z.of_nat k) as Hmd
    by (unfold PGSIZE in *; lia).
  assert ((va + Z.of_nat k <? MAXVA) = true) as Hm'.
  { apply Z.ltb_lt. apply Z.ltb_lt in Hm. assert (MAXVA = 2 ^ 38) by done. unfold PGSIZE in *. lia. }
  unfold ubyte. rewrite (pte_of_same_page _ _ _ _ Hpg), Hu, Hb, Hm', Hmd. cbn.
  rewrite lookup_take_lt, lookup_drop by done. f_equal. lia.
Qed.

Lemma uread_unmapped s tbl va n :
  0 <= va -> (va <? MAXVA) && user (pte_of s tbl va) = false -> (0 < n)%nat ->
  uread s tbl va n = None.
Proof.
  intros Hva Hu Hn. destruct (uread s tbl va n) as [bs|] eqn:E; [|done].
  apply uread_Some in E as [Hl H]. specialize (H 0%nat Hn). rewrite Z.add_0_r in H.
  unfold ubyte in H. rewrite Hu in H. destruct bs; simpl in *; [lia|done].
Qed.

(** How the copy loops cut a range at page boundaries. *)
Lemma chunk va len :
  0 <= va < MAXVA -> (0 < len)%nat ->
  exists n, (0 < n <= len)%nat /\ Z.of_nat n <= PGSIZE - va mod PGSIZE /\
    Z.min (PGSIZE - (va - PGROUNDDOWN va)) (Z.of_nat len) = Z.of_nat n /\
    (u64 (PGROUNDDOWN va + PGSIZE) = va + Z.of_nat n \/ n = len) /\
    0 <= u64 (PGROUNDDOWN va + PGSIZE).
Proof.
  intros Hva Hl. exists (Z.to_nat (Z.min (PGSIZE - (va - PGROUNDDOWN va)) (Z.of_nat len))).
  destruct (PGROUNDDOWN_bounds va) as (Hb & Hoff & _); [lia|].
  pose proof (Z.mod_pos_bound va PGSIZE eq_refl) as Hm.
  assert (MAXVA = 2 ^ 38) as Hmax by done.
  rewrite u64_id by (unfold PGSIZE in *; lia). rewrite Hoff in *.
  split_and!; lia.
Qed.

Lemma uread_split s tbl va va' len n :
  (n <= len)%nat -> (va' = va + Z.of_nat n \/ n = len) ->
  uread s tbl va len =
    (b1 ← uread s tbl va n; b2 ← uread s tbl va' (len - n); Some (b1 ++ b2)).
Proof.
  intros Hn Hva'. replace len with (n + (len - n))%nat at 1 by lia. rewrite uread_app.
  destruct (uread s tbl va n); simpl; [|done].
  destruct Hva' as [->| ->]; [done|]. rewrite Nat.sub_diag. done.
Qed.

Lemma copyin_loop_spec fuel s hl root tbl va len dst :
  pt_inv s root tbl -> uspace s tbl -> 0 <= va -> (len < fuel)%nat ->
  exists r, copyin_loop fuel root va (Z.of_nat len) dst (mk_st hl s) = Ret r (mk_st hl s) /\
    match uread s tbl va len with Some bs => r = (0, dst ++ bs) | None => r.1 = -1 end.
Proof.
  intros Hp Hus. revert va len dst. induction fuel as [|fuel IH]; intros va len dst Hva Hfuel; [lia|].
  cbn [copyin_loop]. destruct (Z.ltb_spec 0 (Z.of_nat len)).
  2: { assert (len = 0%nat) as -> by lia. exists (0, dst). split; [done|].
       change (uread s tbl va 0) with (Some (@nil Z)). cbv beta match. by rewrite app_nil_r. }
  destruct (PGROUNDDOWN_bounds va Hva) as (Hb & Hoff & Hpg & Hmx).
  unfold bind at 1. rewrite (walkaddr_run _ _ _ tbl) by (done || lia). cbn [obind].
  rewrite Hmx, (pte_of_same_page _ _ _ _ Hpg).
  destruct ((va <? MAXVA) && user (pte_of s tbl va)) eqn:E.
  - apply andb_prop in E as [Em Eu]. pose proof Em as Em'. apply Z.ltb_lt in Em'.
    destruct (us_bytes _ _ Hus va) as (Hnz & b & Hpb & Hlb); [lia|done|].
    rewrite (proj2 (Z.eqb_neq _ _) Hnz).
    destruct (chunk va len) as (n & Hn1 & Hn2 & Hn3 & Hn4 & Hn5); [lia|lia|]. rewrite Hn3.
    unfold bind, read_bytes. unfold bind at 1, deref. cbn [data]. rewrite Hpb. cbn [obind ret].
    replace (Z.of_nat len - Z.of_nat n) with (Z.of_nat (len - n)) by (clear -Hn1; lia). rewrite Nat2Z.id, Hoff.
    rewrite (uread_split _ _ va _ len n ltac:(lia) Hn4), (uread_page s tbl va n b Hva Em Eu Hpb Hlb Hn2). cbn.
    destruct (IH (u64 (PGROUNDDOWN va + PGSIZE)) (len - n)%nat
      (dst ++ take n (drop (Z.to_nat (va mod PGSIZE)) b))) as (r & Hr & Hm); [done|clear -Hn1 Hfuel; lia|].
    exists r. split; [exact Hr|]. destruct (uread s tbl _ (len - n)); cbn; [|done].
    by rewrite app_assoc.
  - eexists. split; [done|]. by rewrite uread_unmapped by (done || lia).
Qed.

Lemma copystr_spec b :
  match copystr b with
  | (out, true) => exists str rest, (0 ∉ str) /\ out = str ++ [0] /\ b = str ++ 0 :: rest
  | (out, false) => out = b /\ (0 ∉ b)
  end.
Proof.
  induction b as [|c b IH]; simpl; [split; [done|apply not_elem_of_nil]|].
  destruct (Z.eqb_spec c 0) as [->|Hc]; [exists [], b; split_and!; [apply not_elem_of_nil|done|done]|].
  destruct (copystr b) as [out [|]].
  - destruct IH as (str & rest & Hs & -> & ->). exists (c :: str), rest.
    split_and!; [|done|done]. by apply not_elem_of_cons.
  - destruct IH as [-> Hb]. split; [done|]. by apply not_elem_of_cons.
Qed.

(** [out] is the string at [va], terminator included, of at most [mx] bytes. *)
Definition cstring s tbl (va : Z) (mx : nat) (out : list Z) : Prop :=
  exists str, out = str ++ [0] /\ (0 ∉ str) /\ (length str < mx)%nat /\
    uread s tbl va (length str + 1) = Some out.

Lemma uread_take s tbl va n k bs :
  uread s tbl va n = Some bs -> (k <= n)%nat -> uread s tbl va k = Some (take k bs).
Proof.
  intros [Hl H]%uread_Some Hk. apply uread_Some. rewrite length_take. split; [lia|].
  intros j Hj. rewrite lookup_take_lt by done. apply H. lia.
Qed.

Lemma cstring_chunk s tbl va n mx b :
  uread s tbl va n = Some b -> 0 ∉ b -> (n <= mx)%nat ->
  (forall out, cstring s tbl (va + Z.of_nat n) (mx - n) out -> cstring s tbl va mx (b ++ out)) /\
  (forall out, cstring s tbl va mx out ->
     exists out', out = b ++ out' /\ cstring s tbl (va + Z.of_nat n) (mx - n) out').
Proof.
  intros Hb Hnz Hn. pose proof Hb as [Hlb _]%uread_Some. split.
  - intros out (str & -> & Hs & Hl & Hr). exists (b ++ str). rewrite app_assoc, length_app.
    split_and!; [done| |lia|].
    + rewrite elem_of_app. tauto.
    + replace (length b + length str + 1)%nat with (n + (length str + 1))%nat by lia.
      rewrite uread_app, Hb. cbn. rewrite Hr. cbn. by rewrite app_assoc.
  - intros out (str & -> & Hs & Hl & Hr).
    assert (n <= length str)%nat as Hle.
    { destruct (decide (n <= length str)%nat) as [|Hlt]; [done|]. exfalso.
      apply (uread_take _ _ _ _ (length str + 1)) in Hb; [|lia]. rewrite Hr in Hb. injection Hb as Hb.
      apply Hnz. rewrite <- (take_drop (length str + 1) b), <- Hb, !elem_of_app.
      left. right. by left. }
    replace (length str + 1)%nat with (n + (length str - n + 1))%nat in Hr by lia.
    rewrite uread_app, Hb in Hr. cbn in Hr.
    destruct (uread s tbl (va + Z.of_nat n) (length str - n + 1)) as [b2|] eqn:E; [|done].
    cbn in Hr. injection Hr as Hr.
    assert (str = b ++ drop n str) as Hstr.
    { rewrite <- (take_drop n str) at 1. f_equal.
      apply (f_equal (take n)) in Hr. rewrite !take_app_le in Hr by lia.
      by rewrite <- Hr, take_ge by lia. }
    exists (drop n str ++ [0]). split; [by rewrite app_assoc, <- Hstr|].
    exists (drop n str). rewrite length_drop. split_and!; [done| |lia|].
    + intros Hin. apply Hs. rewrite Hstr. apply elem_of_app. by right.
    + rewrite E. f_equal. rewrite Hstr, <- app_assoc in Hr. by apply app_inv_head in Hr.
Qed.

Lemma cstring_here s tbl va mx n str rest :
  uread s tbl va n = Some (str ++ 0 :: rest) -> 0 ∉ str -> (n <= mx)%nat ->
  cstring s tbl va mx (str ++ [0]).
Proof.
  intros Hr Hs Hn. pose proof Hr as [Hl _]%uread_Some. rewrite length_app in Hl. cbn in Hl.
  exists str. split_and!; [done|done|lia|].
  rewrite (uread_take _ _ _ _ (length str + 1) _ Hr) by lia. f_equal.
  rewrite take_app_ge by lia. replace (length str + 1 - length str)%nat with 1%nat by lia. done.
Qed.

Lemma copyinstr_loop_spec fuel s hl root tbl va mx dst :
  pt_inv s root tbl -> uspace s tbl -> 0 <= va -> (mx < fuel)%nat ->
  exists r out, copyinstr_loop fuel root va (Z.of_nat mx) dst (mk_st hl s) =
      Ret (r, dst ++ out) (mk_st hl s) /\
    (r = 0 /\ cstring s tbl va mx out \/ r = -1 /\ forall o, ~ cstring s tbl va mx o).
Proof.
  intros Hp Hus. revert va mx dst. induction fuel as [|fuel IH]; intros va mx dst Hva Hfuel; [lia|].
  cbn [copyinstr_loop]. destruct (Z.ltb_spec 0 (Z.of_nat mx)).
  2: { exists (-1), []. rewrite app_nil_r. split; [done|]. right. split; [done|].
       intros o (str & _ & _ & Hl & _). lia. }
  destruct (PGROUNDDOWN_bounds va Hva) as (Hb & Hoff & Hpg & Hmx).
  unfold bind at 1. rewrite (walkaddr_run _ _ _ tbl) by (done || lia). cbn [obind].
  rewrite Hmx, (pte_of_same_page _ _ _ _ Hpg).
  destruct ((va <? MAXVA) && user (pte_of s tbl va)) eqn:E.
  - apply andb_prop in E as [Em Eu]. pose proof Em as Em'. apply Z.ltb_lt in Em'.
    destruct (us_bytes _ _ Hus va) as (Hnz & b & Hpb & Hlb); [lia|done|].
    rewrite (proj2 (Z.eqb_neq _ _) Hnz).
    destruct (chunk va mx) as (n & Hn1 & Hn2 & Hn3 & Hn4 & Hn5); [lia|lia|]. rewrite Hn3.
    pose proof (uread_page s tbl va n b Hva Em Eu Hpb Hlb Hn2) as Hrd.
    unfold bind, read_bytes. unfold bind at 1, deref. cbn [data]. rewrite Hpb. cbn [obind ret].
    rewrite Nat2Z.id, Hoff. set (b' := take n _) in *. clear Hlb.
    pose proof (copystr_spec b') as Hc. destruct (copystr b') as [out [|]].
    + destruct Hc as (str & rest & Hs & -> & Hb'). exists 0, (str ++ [0]). split; [done|].
      left. split; [done|]. rewrite Hb' in Hrd. apply (cstring_here _ _ _ _ n _ rest); [done|done|lia].
    + destruct Hc as [-> Hz]. replace (Z.of_nat mx - Z.of_nat n) with (Z.of_nat (mx - n)) by (clear -Hn1; lia).
      destruct (cstring_chunk s tbl va n mx b' Hrd Hz ltac:(lia)) as [Hfwd Hbwd].
      destruct (IH (u64 (PGROUNDDOWN va + PGSIZE)) (mx - n)%nat (dst ++ b')) as (r & out & Hr & Ho); [done|clear -Hn1 Hfuel; lia|].
      exists r, (b' ++ out). split; [rewrite Hr; by rewrite app_assoc|].
      destruct Hn4 as [Hn4| ->].
      * rewrite Hn4 in Ho. destruct Ho as [[-> Ho]|[-> Ho]]; [left; by auto|right].
        split; [done|]. intros o (o' & -> & Ho')%Hbwd. by apply (Ho o').
      * rewrite Nat.sub_diag in Ho. destruct Ho as [[_ (? & _ & _ & ? & _)]|[-> _]]; [lia|right].
        split; [done|]. intros o (o' & -> & (? & _ & _ & ? & _))%Hbwd. lia.
  - exists (-1), []. rewrite app_nil_r. split; [done|]. right. split; [done|].
    intros o (str & _ & _ & _ & Hr). rewrite uread_unmapped in Hr by (done || lia). done.
Qed.

(** ** Writing *)

Definition writable s tbl (va : Z) : bool := (va <? MAXVA) && writable_user (pte_of s tbl va).

Lemma writable_is_user v : writable_user v = true -> user v = true.
Proof. unfold writable_user, user. by destruct (flag_set v PTE_V), (flag_set v PTE_U). Qed.

Lemma splice_lookup (b src : list Z) off k :
  (off + length src <= length b)%nat ->
  splice b off src !! k =
    if decide (off <= k < off + length src)%nat then src !! (k - off)%nat else b !! k.
Proof.
  intros Hl. unfold splice.
  assert (length (take off b) = off) as Ht by (rewrite length_take; lia).
  destruct (decide (k < off)%nat).
  - rewrite lookup_app_l, lookup_take_lt by lia. by rewrite decide_False by lia.
  - rewrite lookup_app_r, Ht by lia. destruct (decide (k < off + length src)%nat).
    + rewrite lookup_app_l by lia. by rewrite decide_True by lia.
    + rewrite lookup_app_r, lookup_drop by lia. rewrite decide_False by lia. f_equal. lia.
Qed.

Lemma splice_length (b src : list Z) off :
  (off + length src <= length b)%nat -> length (splice b off src) = length b.
Proof. intros. unfold splice. rewrite !length_app, length_take, length_drop. lia. Qed.

(** From [s] to [s'] only user pages were written, below the same page table. *)
Record ustep s l tbl (root : Z) s' : Prop := {
  up_free : free_inv s' l;
  up_pt : pt_inv s' root tbl;
  up_space : uspace s' tbl;
  up_pte va : pte_of s' tbl va = pte_of s tbl va;
  up_frame pa : (forall va, 0 <= va -> writable s tbl va = true -> PTE2PA (pte_of s tbl va) <> pa) ->
    mem s' !! pa = mem s !! pa
}.

(** One [memmove] into the page of [va]. *)
Lemma write_chunk s l root tbl va b chunk :
  let pa := PTE2PA (pte_of s tbl va) in
  let s' := set_page pa (PgBytes (splice b (Z.to_nat (va mod PGSIZE)) chunk)) s in
  free_inv s l -> pt_inv s root tbl -> uspace s tbl -> 0 <= va -> writable s tbl va = true ->
  bytes_at pa s = Some b -> length b = Z.to_nat PGSIZE ->
  Z.of_nat (length chunk) <= PGSIZE - va mod PGSIZE ->
  ustep s l tbl root s' /\
  forall x, 0 <= x -> ubyte s' tbl x =
    if (va <=? x) && (x <? va + Z.of_nat (length chunk))
    then chunk !! Z.to_nat (x - va) else ubyte s tbl x.
Proof.
  intros pa s' Hf Hp Hus Hva Hw Hb Hlb Hn.
  pose proof Hw as [Hm Hu]%andb_prop. apply writable_is_user in Hu. apply Z.ltb_lt in Hm.
  pose proof (Z.mod_pos_bound va PGSIZE eq_refl) as Hmod.
  assert (Z.to_nat (va mod PGSIZE) + length chunk <= length b)%nat as Hfit by (rewrite Hlb; lia).
  pose proof Hb as Hmem%bytes_at_mem.
  assert (in_use s l pa) as Hiu.
  { split; [by rewrite Hmem|]. intros Hin.
    destruct (chain_elem _ _ _ _ (fi_chain _ _ Hf) Hin). congruence. }
  assert (forall a, a <> pa -> mem s' !! a = mem s !! a) as Hne
    by (intros; by apply lookup_insert_ne).
  assert (forall a, is_table tbl a -> mem s' !! a = mem s !! a) as Ht.
  { intros a [p Ha]. apply Hne. intros ->.
    destruct (pt_node _ _ _ Hp _ _ Ha) as (? & ?%table_at_mem & _). congruence. }
  assert (forall x, pte_of s' tbl x = pte_of s tbl x) as Hpte by (intros; by apply pte_of_frame).
  assert (bytes_at pa s' = Some (splice b (Z.to_nat (va mod PGSIZE)) chunk)) as Hb'
    by (apply bytes_at_mem, lookup_insert_eq).
  assert (forall a, a <> pa -> bytes_at a s' = bytes_at a s) as Hbne
    by (intros; unfold bytes_at; by rewrite Hne).
  split; [split|].
  - by apply free_inv_write.
  - by eapply pt_inv_frame.
  - destruct Hus as [Hby Hinj]. split.
    + intros x Hx. rewrite Hpte. intros Hux. destruct (Hby x Hx Hux) as (Hnz & bx & Hbx & Hlx).
      split; [done|]. destruct (decide (PTE2PA (pte_of s tbl x) = pa)) as [->|].
      * rewrite Hb'. eexists. split; [done|]. by rewrite splice_length.
      * rewrite Hbne by done. eauto.
    + intros x y. rewrite !Hpte. apply Hinj.
  - done.
  - intros a Ha. apply Hne. intros ->. by apply (Ha va).
  - intros x Hx. destruct (Z.eq_dec (x / PGSIZE) (va / PGSIZE)) as [Epg|Epg].
    + unfold ubyte. rewrite Hpte, (pte_of_same_page _ _ _ _ Epg), Hu. fold pa. rewrite Hb', Hb. cbn.
      assert ((x <? MAXVA) = true) as ->.
      { apply Z.ltb_lt. assert (MAXVA = 2 ^ 38) by done. clear Hlb. unfold PGSIZE in *. lia. }
      cbn. rewrite splice_lookup by done. clear Hlb.
      assert (x mod PGSIZE = va mod PGSIZE + (x - va)) as Ex by (unfold PGSIZE in *; lia).
      pose proof (Z.mod_pos_bound x PGSIZE eq_refl). rewrite Ex in *.
      destruct (decide _), (Z.leb_spec va x), (Z.ltb_spec x (va + Z.of_nat (length chunk)));
        cbn; try lia; f_equal; lia.
    + assert ((va <=? x) && (x <? va + Z.of_nat (length chunk)) = false) as ->.
      { clear Hlb. destruct (Z.leb_spec va x), (Z.ltb_spec x (va + Z.of_nat (length chunk))); try done.
        unfold PGSIZE in *. lia. }
      unfold ubyte. rewrite Hpte. destruct ((x <? MAXVA) && user (pte_of s tbl x)) eqn:E; [|done].
      apply andb_prop in E as [Ex%Z.ltb_lt Eu]. rewrite Hbne; [done|]. intros Heq. apply Epg.
      apply (us_inj _ _ Hus); [lia|lia|done|done|done].
Qed.

Lemma ustep_trans s l tbl root s1 s2 :
  ustep s l tbl root s1 -> ustep s1 l tbl root s2 -> ustep s l tbl root s2.
Proof.
  intros [? ? ? Hp1 Hf1] [? ? ? Hp2 Hf2]. split; [done|done|done| |].
  - intros va. by rewrite Hp2.
  - intros pa Hpa. rewrite Hf2; [by apply Hf1|]. intros va Hva. unfold writable. rewrite Hp1.
    by apply Hpa.
Qed.

Definition copyout_post s l tbl (root : Z) hl (dst : Z) (src : list Z) (r : Z) (st' : st pmem) : Prop :=
  exists s', st' = mk_st hl s' /\ ustep s l tbl root s' /\
  let inside x := (dst <=? x) && (x <? dst + Z.of_nat (length src)) in
  (r = 0 /\ (forall x, inside x = true -> writable s tbl x = true) /\
     (forall x, 0 <= x -> ubyte s' tbl x =
        if inside x then src !! Z.to_nat (x - dst) else ubyte s tbl x)) \/
  (r = -1 /\ (exists x, inside x = true /\ writable s tbl x = false) /\
     (forall x, 0 <= x -> inside x = false -> ubyte s' tbl x = ubyte s tbl x)).

Lemma copyout_fail s l tbl root hl dst src :
  free_inv s l -> pt_inv s root tbl -> uspace s tbl ->
  (0 < length src)%nat -> writable s tbl dst = false ->
  copyout_post s l tbl root hl dst src (-1) (mk_st hl s).
Proof.
  intros Hf Hp Hus Hl Hw. exists s. split_and!; [done|by split|]. right. split_and!; [done| |done].
  exists dst. split; [|done]. rewrite Z.leb_refl. apply Z.ltb_lt. lia.
Qed.

(** Joining one chunk with what follows it. *)
Lemma copyout_join s l tbl root hl dst dst' src n s1 r st' :
  (0 < n <= length src)%nat -> 0 <= dst -> (dst' = dst + Z.of_nat n \/ n = length src) ->
  ustep s l tbl root s1 ->
  (forall x, dst <= x < dst + Z.of_nat n -> writable s tbl x = true) ->
  (forall x, 0 <= x -> ubyte s1 tbl x =
     if (dst <=? x) && (x <? dst + Z.of_nat n) then src !! Z.to_nat (x - dst) else ubyte s tbl x) ->
  copyout_post s1 l tbl root hl dst' (drop n src) r st' ->
  copyout_post s l tbl root hl dst src r st'.
Proof.
  intros Hn Hd Hd' Hs1 Hw1 Hb1 (s' & -> & Hs2 & Hpost). cbn zeta in *. rewrite length_drop in Hpost.
  assert (forall x, writable s1 tbl x = writable s tbl x) as Hw
    by (intros; unfold writable; by rewrite (up_pte _ _ _ _ _ Hs1)).
  exists s'. split_and!; [done|by eapply ustep_trans|]. cbn zeta.
  set (in1 := fun x => (dst <=? x) && (x <? dst + Z.of_nat n)) in *.
  set (in2 := fun x => (dst' <=? x) && (x <? dst' + Z.of_nat (length src - n))) in *.
  assert (forall x, (dst <=? x) && (x <? dst + Z.of_nat (length src)) = in1 x || in2 x) as Hin.
  { intros x. unfold in1, in2. apply eq_true_iff_eq.
    rewrite orb_true_iff, !andb_true_iff, !Z.leb_le, !Z.ltb_lt. lia. }
  assert (forall x, in1 x = true -> writable s tbl x = true) as Hw1'.
  { intros x [?%Z.leb_le ?%Z.ltb_lt]%andb_prop. apply Hw1. lia. }
  destruct Hpost as [(-> & Hall & Hby)|(-> & (x & Hx & Hwx) & Hby)].
  - left. split_and!; [done| |].
    + intros x. rewrite Hin. intros [?|Hx2]%orb_prop; [by apply Hw1'|]. rewrite <- Hw. by apply Hall.
    + intros x Hx. rewrite Hin, Hby by done. fold (in2 x). destruct (in2 x) eqn:E2.
      * rewrite orb_true_r, lookup_drop. f_equal.
        apply andb_prop in E2 as [?%Z.leb_le ?%Z.ltb_lt]. lia.
      * rewrite orb_false_r. apply Hb1. done.
  - right. split_and!; [done| |].
    + exists x. rewrite Hin. fold (in2 x) in Hx. rewrite Hx, orb_true_r. by rewrite <- Hw.
    + intros y Hy. rewrite Hin. intros [E1 E2]%orb_false_elim. rewrite Hby, Hb1 by done.
      fold (in1 y). by rewrite E1.
Qed.

Lemma copyout_loop_spec fuel s l hl root tbl dst src :
  free_inv s l -> pt_inv s root tbl -> uspace s tbl -> 0 <= dst -> (length src < fuel)%nat ->
  exists r st', copyout_loop fuel root dst src (mk_st hl s) = Ret r st' /\
    copyout_post s l tbl root hl dst src r st'.
Proof.
  revert s dst src. induction fuel as [|fuel IH]; intros s dst src Hf Hp Hus Hd Hfuel; [lia|].
  cbn [copyout_loop]. destruct (Z.ltb_spec 0 (Z.of_nat (length src))).
  2: { exists 0, (mk_st hl s). split; [done|]. exists s. split_and!; [done|by split|]. left.
       assert (forall x, (dst <=? x) && (x <? dst + Z.of_nat (length src)) = false) as Hin
         by (intros x; destruct (Z.leb_spec dst x), (Z.ltb_spec x (dst + Z.of_nat (length src))); lia).
       split_and!; [done| |]; intros x; rewrite Hin; done. }
  destruct (PGROUNDDOWN_bounds dst Hd) as (Hb & Hoff & Hpg & Hmx).
  destruct (Z.leb_spec MAXVA (PGROUNDDOWN dst)).
  { exists (-1), (mk_st hl s). split; [done|]. apply copyout_fail; [done|done|done|lia|].
    unfold writable. rewrite <- Hmx. by rewrite (proj2 (Z.ltb_ge _ _)) by lia. }
  assert ((dst <? MAXVA) = true) as Hdm by (rewrite <- Hmx; by apply Z.ltb_lt).
  unfold bind at 1. rewrite (walk_lookup _ _ _ tbl) by (done || lia). cbn [obind].
  pose proof (load_slot s hl root tbl (PGROUNDDOWN dst) Hp ltac:(lia)) as Hs.
  rewrite (pte_of_same_page _ _ _ _ Hpg) in Hs.
  destruct (leaf_slot tbl (PGROUNDDOWN dst)) as [q|].
  2: { exists (-1), (mk_st hl s). split; [done|]. apply copyout_fail; [done|done|done|lia|].
       unfold writable. by rewrite Hs, Hdm. }
  unfold bind at 1. rewrite Hs. cbn [obind].
  destruct (writable_user (pte_of s tbl dst)) eqn:Hw; cbn [negb].
  2: { exists (-1), (mk_st hl s). split; [done|]. apply copyout_fail; [done|done|done|lia|].
       unfold writable. by rewrite Hw, Hdm. }
  assert (writable s tbl dst = true) as Hwd by (unfold writable; by rewrite Hdm, Hw).
  destruct (us_bytes _ _ Hus dst) as (Hnz & b & Hpb & Hlb);
    [split; [lia|by apply Z.ltb_lt]|by apply writable_is_user|].
  destruct (chunk dst (length src)) as (n & Hn1 & Hn2 & Hn3 & Hn4 & Hn5);
    [split; [lia|by apply Z.ltb_lt]|lia|]. rewrite Hn3.
  assert (length (take n src) = n) as Hlt by (rewrite length_take; clear -Hn1; lia).
  destruct (write_chunk s l root tbl dst b (take n src)) as [Hst Hby]; try done; [by rewrite Hlt|].
  unfold bind, write_bytes. unfold bind at 1, deref. cbn [data]. rewrite Hpb. cbn [obind modify held data].
  rewrite Nat2Z.id, Hoff. rewrite Hlt in Hby. set (s1 := set_page _ _ s) in *. clear Hlb.
  destruct (IH s1 (u64 (PGROUNDDOWN dst + PGSIZE)) (drop n src)) as (r & st' & Hr & Hpost);
    [apply Hst|apply Hst|apply Hst|done|rewrite length_drop; clear -Hn1 Hfuel; lia|].
  exists r, st'. split; [exact Hr|].
  eapply copyout_join; [exact Hn1|done|exact Hn4|exact Hst| | |exact Hpost].
  - intros x Hx. assert (x / PGSIZE = dst / PGSIZE) as Epg.
    { pose proof (Z.mod_pos_bound dst PGSIZE eq_refl). unfold PGSIZE in *. lia. }
    unfold writable. rewrite (pte_of_same_page _ _ _ _ Epg), Hw, andb_true_r. apply Z.ltb_lt in Hdm.
    apply Z.ltb_lt. assert (MAXVA = 2 ^ 38) by done. unfold PGSIZE in *. lia.
  - intros x Hx. rewrite Hby by done. destruct ((dst <=? x) && _) eqn:E; [|done].
    apply andb_prop in E as [E1%Z.leb_le E2%Z.ltb_lt]. apply lookup_take_lt. clear -E1 E2; lia.
Qed.

(** ** The properties *)

(** [copyin] reads user memory: it changes nothing and returns, with the
    bytes of the range when every address of it is mapped for the user, with
    -1 otherwise. *)
Theorem copyin_reads s hl root tbl va len :
  pt_inv s root tbl -> uspace s tbl -> 0 <= va ->
  exists r out, copyin root va (Z.of_nat len) (mk_st hl s) = Ret (r, out) (mk_st hl s) /\
    match uread s tbl va len with Some bs => r = 0 /\ out = bs | None => r = -1 end.
Proof.
  intros Hp Hus Hva. unfold copyin. rewrite Nat2Z.id.
  destruct (copyin_loop_spec (S len) s hl root tbl va len [] Hp Hus Hva ltac:(lia)) as ([r out] & E & H).
  exists r, out. split; [exact E|]. destruct (uread s tbl va len); cbn in H; [|exact H].
  by injection H as -> ->.
Qed.

(** [copyinstr] reads a string: it changes nothing and returns 0 with the
    bytes up to and including the first terminator, when that string fits in
    [mx] bytes of mapped user memory, and -1 exactly when there is no such
    string. *)
Theorem copyinstr_reads s hl root tbl va mx :
  pt_inv s root tbl -> uspace s tbl -> 0 <= va ->
  exists r out, copyinstr root va (Z.of_nat mx) (mk_st hl s) = Ret (r, out) (mk_st hl s) /\
    (r = 0 /\ cstring s tbl va mx out \/ r = -1 /\ forall o, ~ cstring s tbl va mx o).
Proof.
  intros Hp Hus Hva. unfold copyinstr. rewrite Nat2Z.id.
  destruct (copyinstr_loop_spec (S mx) s hl root tbl va mx [] Hp Hus Hva ltac:(lia))
    as (r & out & E & H). by exists r, out.
Qed.

(** C16: [copyout] writes user memory and nothing else.  It returns 0 exactly
    when the whole range is user-writable; then the bytes of the range are
    [src], so that [copyin] of the range returns [src].  Whatever it returns,
    the bytes outside the range, the page table and every page that is not
    mapped writable for the user are unchanged. *)
Theorem copyout_writes s l hl root tbl dst src :
  free_inv s l -> pt_inv s root tbl -> uspace s tbl -> 0 <= dst ->
  exists r s', copyout root dst src (mk_st hl s) = Ret r (mk_st hl s') /\
    copyout_post s l tbl root hl dst src r (mk_st hl s') /\
    (r = 0 -> copyin root dst (Z.of_nat (length src)) (mk_st hl s') = Ret (0, src) (mk_st hl s')).
Proof.
  intros Hf Hp Hus Hd. unfold copyout.
  destruct (copyout_loop_spec (S (length src)) s l hl root tbl dst src Hf Hp Hus Hd ltac:(lia))
    as (r & st' & E & H).
  pose proof H as (s' & -> & Hst & Hpost). exists r, s'. split_and!; [done|done|]. intros ->.
  destruct Hpost as [(_ & Hw & Hby)|[? _]]; [|done].
  unfold copyin. rewrite Nat2Z.id.
  destruct (copyin_loop_spec (S (length src)) s' hl root tbl dst (length src) []
    (up_pt _ _ _ _ _ Hst) (up_space _ _ _ _ _ Hst) Hd ltac:(lia)) as (o & E' & H').
  rewrite E'. assert (uread s' tbl dst (length src) = Some src) as Hrd.
  { apply uread_Some. split; [done|]. intros k Hk. rewrite Hby by lia.
    rewrite (proj2 (Z.leb_le _ _)), (proj2 (Z.ltb_lt _ _)) by lia. cbn. f_equal. lia. }
  rewrite Hrd in H'. by subst o.
Qed.
End copy.

(** ** Witnesses, on the machine of VmExample.v *)

#[local] Existing Instance demo_image.

Lemma demo_uspace : uspace demo demo_tbl.
Proof.
  assert (forall va, 0 <= va < MAXVA -> user (pte_of demo demo_tbl va) = true ->
    pte_of demo demo_tbl va = demo_pte /\ va < PGSIZE) as H.
  { intros va Hva. rewrite demo_pte_of by done. destruct (Z.ltb_spec va PGSIZE); done. }
  split.
  - intros va Hva Hu. destruct (H va Hva Hu) as [-> _]. split; [by vm_compute|].
    exists demo_bytes. split; [by vm_compute|done].
  - intros va va' Hva Hva' Hu Hu' _. destruct (H va Hva Hu) as [_ ?], (H va' Hva' Hu') as [_ ?].
    unfold PGSIZE in *. lia.
Qed.

Lemma copyin_reads_witness :
  exists out, copyin (pg 0) 0 2 (mk_st [] demo) = Ret (0, out) (mk_st [] demo) /\ out = [104; 105].
Proof.
  destruct (copyin_reads demo [] (pg 0) demo_tbl 0 2 demo_pt demo_uspace ltac:(lia))
    as (r & out & E & H).
  assert (uread demo demo_tbl 0 2 = Some [104; 105]) as Hr by (vm_compute; reflexivity).
  rewrite Hr in H. destruct H as [-> ->]. exists [104; 105]. split; [exact E|reflexivity].
Defined.

Lemma copyinstr_reads_witness :
  exists r out, copyinstr (pg 0) 0 16 (mk_st [] demo) = Ret (r, out) (mk_st [] demo).
Proof.
  destruct (copyinstr_reads demo [] (pg 0) demo_tbl 0 16 demo_pt demo_uspace ltac:(lia))
    as (r & out & E & _). exists r, out. exact E.
Defined.

Lemma copyout_writes_witness :
  exists r s', copyout (pg 0) 4094 [1; 2] (mk_st [] demo) = Ret r (mk_st [] s').
Proof.
  destruct (copyout_writes demo demo_free [] (pg 0) demo_tbl 4094 [1; 2]
    demo_free_inv demo_pt demo_uspace ltac:(lia)) as (r & s' & E & _). exists r, s'. exact E.
Defined.
