(* ===== verification/VmFree.v ===== *)
(** * Tearing an address space down (kernel/vm.c: [freewalk], [uvmfree])

    [freewalk] recurses over the tree of tables and frees each page of it
    after its children; [uvmfree] first frees the data pages.  The theorem is
    that nothing leaks: data pages and table pages are all back on the free
    list, once each. *)

From S2P Require Import Prelude Spinlock Riscv Kalloc Vm VmProofs VmExample VmSpace.
Ltac Zify.zify_post_hook ::= Z.to_euclidean_division_equations.

Section free.
Context {img : Image}.
Implicit Types (s : pmem) (l T : list Z) (tbl : gmap (list Z) Z) (hl : list lockid).

Fixpoint below (Ts : nat -> list Z) (n : nat) : list Z :=
  match n with O => [] | S n' => below Ts n' ++ Ts n' end.

(** The subtree of height [d] at page [a], with no leaf entry left; [T] lists
    its table pages, children before parents; [Ts i] those below entry [i]. *)
Fixpoint tree (d : nat) s (a : Z) T : Prop :=
  match d with
  | O => False
  | S d' => exists t (Ts : nat -> list Z), table_at a s = Some t /\ length t = 512%nat /\
      T = below Ts 512 ++ [a] /\
      forall i, (i < 512)%nat ->
        if flag_set (t !!! i) PTE_V
        then Z.land (t !!! i) (Z.lor (Z.lor PTE_R PTE_W) PTE_X) = 0 /\
             tree d' s (PTE2PA (t !!! i)) (Ts i)
        else Ts i = []
  end.

Lemma elem_of_below (Ts : nat -> list Z) n b :
  b ∈ below Ts n <-> exists i, (i < n)%nat /\ b ∈ Ts i.
Proof.
  induction n as [|n IH]; cbn [below].
  - split; [by intros ?%not_elem_of_nil|intros (i & ? & _); lia].
  - rewrite elem_of_app, IH. split.
    + intros [(i & ? & ?)|?]; [exists i; split; [lia|done]|exists n; split; [lia|done]].
    + intros (i & Hi & Hb). destruct (decide (i = n)) as [->|]; [by right|].
      left. exists i. split; [lia|done].
Qed.

Lemma NoDup_below_at (Ts : nat -> list Z) n i : NoDup (below Ts n) -> (i < n)%nat -> NoDup (Ts i).
Proof.
  induction n as [|n IH]; [lia|]. cbn [below]. intros (H1 & _ & H2)%NoDup_app Hi.
  destruct (decide (i = n)) as [->|]; [done|]. apply IH; [done|lia].
Qed.

Lemma NoDup_below (Ts : nat -> list Z) n :
  NoDup (below Ts n) -> forall i b, (i < n)%nat -> b ∈ Ts i -> b ∈ below Ts i -> False.
Proof.
  induction n as [|n IH]; [lia|]. cbn [below]. intros (H1 & H12 & H2)%NoDup_app i b Hi.
  destruct (decide (i = n)) as [->|]; [|apply IH; [done|lia]]. intros Hb Hb'. by apply (H12 b).
Qed.

Lemma tree_frame d s s' a T :
  tree d s a T -> (forall b, b ∈ T -> mem s' !! b = mem s !! b) -> tree d s' a T.
Proof.
  revert a T. induction d as [|d IH]; intros a T; [done|].
  intros (t & Ts & Ht & Hl & -> & HF) Hm. exists t, Ts. split_and!; [|done|done|].
  - unfold table_at in *. rewrite Hm; [done|]. apply elem_of_app. right. by left.
  - intros i Hi. specialize (HF i Hi). destruct (flag_set (t !!! i) PTE_V); [|done].
    destruct HF as [Hz Htr]. split; [done|]. apply (IH _ _ Htr). intros b Hb. apply Hm.
    apply elem_of_app. left. apply elem_of_below. eauto.
Qed.

(** From [s] to [s'] exactly the pages [T] were freed. *)
Record freed s l T s' l' : Prop := {
  fr_inv : free_inv s' l';
  fr_list : l' = reverse T ++ l;
  fr_frame b : b ∉ T -> mem s' !! b = mem s !! b
}.

Lemma in_use_freed s l T s' l' b :
  freed s l T s' l' -> in_use s l b -> b ∉ T -> in_use s' l' b.
Proof.
  intros [_ -> Hf] [Hs Hl] Hb. split; [by rewrite Hf|].
  rewrite elem_of_app, elem_of_reverse. tauto.
Qed.

(** The loop over the entries of one table: after [i] of them. *)
Record walk_loop_inv s l (a : Z) (t : list Z) (Ts : nat -> list Z) (i : nat) s' : Prop := {
  wl_inv : free_inv s' (reverse (below Ts i) ++ l);
  wl_table : exists t', table_at a s' = Some t' /\ length t' = 512%nat /\
    forall j, (i <= j)%nat -> t' !! j = t !! j;
  wl_frame b : b ∉ below Ts i -> b <> a -> mem s' !! b = mem s !! b
}.

Lemma freewalk_spec d s l hl a T :
  free_inv s l -> LkKmem ∉ hl -> tree d s a T -> NoDup T -> (forall b, b ∈ T -> in_use s l b) ->
  wp (freewalk d a) (fun _ st' => exists s' l', st' = mk_st hl s' /\ freed s l T s' l') (mk_st hl s).
Proof.
  revert s l a T. induction d as [|d IH]; intros s l a T Hf Hh Htr Hnd HT; [done|].
  destruct Htr as (t & Ts & Ht & Hlt & -> & Hch). cbn [freewalk].
  apply NoDup_app in Hnd as (Hnd & Hna & _).
  assert (forall i b, (i < 512)%nat -> b ∈ Ts i -> b <> a /\ in_use s l b) as HTs.
  { intros i b Hi Hb. assert (b ∈ below Ts 512) as Hin by (apply elem_of_below; eauto).
    split; [|apply HT, elem_of_app; by left]. intros ->. apply (Hna a Hin). by left. }
  assert (in_use s l a) as Hau by (apply HT, elem_of_app; right; by left).
  wp_step. apply (wp_for_each (fun rest st' => exists i s', st' = mk_st hl s' /\ (i <= 512)%nat /\
    rest = seq i (512 - i) /\ walk_loop_inv s l a t Ts i s')).
  - exists 0%nat, s. split_and!; [done|lia|done|]. split; [done|exists t; split_and!; done|done].
  - intros j rest st' (i & s1 & -> & Hi & Hrest & [Hf1 (t1 & Ht1 & Hl1 & Hs1) Hm1]).
    assert (i < 512)%nat as Hi5.
    { destruct (decide (i = 512)%nat) as [->|]; [done|lia]. }
    replace (512 - i)%nat with (S (512 - S i)) in Hrest by lia. injection Hrest as -> ->.
    assert (t1 !!! i = t !!! i) as Hti by (rewrite !list_lookup_total_alt; by rewrite Hs1 by lia).
    wp_step. eapply wp_frame_eq; [apply (load_pte_run _ _ _ _ t1); [done|done|lia]|]. cbn beta.
    rewrite Nat2Z.id, Hti. specialize (Hch i Hi5). destruct (flag_set (t !!! i) PTE_V) eqn:Hv; cbn [andb].
    + destruct Hch as [Hz Htr]. rewrite Hz. change (0 =? 0) with true. cbv match.
      assert (Ts i ## below Ts i) as Hdis.
      { intros b Hb1 Hb2. apply (NoDup_below _ _ Hnd i b); [done|done|done]. }
      assert (forall b, b ∈ Ts i -> mem s1 !! b = mem s !! b) as Hsame.
      { intros b Hb. apply Hm1; [intros ?; by apply (Hdis b)|by eapply HTs]. }
      wp_step. eapply wp_mono; [apply (IH s1 (reverse (below Ts i) ++ l) _ (Ts i))|].
      * done.
      * done.
      * by eapply tree_frame.
      * by eapply NoDup_below_at.
      * intros b Hb. destruct (HTs i b Hi5 Hb) as [_ [Hbs Hbl]]. split; [by rewrite Hsame|].
        rewrite elem_of_app, elem_of_reverse. intros [?|?]; [by apply (Hdis b)|done].
      * intros [] st' (s2 & l2 & -> & [Hf2 -> Hm2]).
        assert (a ∉ Ts i) as Hai by (intros Ha; by destruct (HTs i a Hi5 Ha)).
        assert (table_at a s2 = Some t1) as Ht2 by (unfold table_at in *; by rewrite Hm2).
        eapply wp_frame_eq; [apply (store_pte_run _ _ _ _ t1); [done|done|lia]|].
        exists (S i), (set_page a (PgTable (<[Z.to_nat (Z.of_nat i) := 0]> t1)) s2).
        split_and!; [done|lia|done|]. rewrite Nat2Z.id. split; cbn [below].
        -- rewrite reverse_app, <- app_assoc. apply free_inv_write; [done| |done].
           split; [apply table_at_mem in Ht2; by rewrite Ht2|].
           rewrite !elem_of_app, !elem_of_reverse. intros [?|[Hb|Hb]]; [done| |by apply Hau].
           apply elem_of_below in Hb as (k & Hk & Hb). destruct (HTs k a ltac:(lia) Hb). done.
        -- exists (<[i := 0]> t1). rewrite length_insert. split_and!; [|done|].
           ++ apply table_at_mem, lookup_insert_eq.
           ++ intros k Hk. rewrite list_lookup_insert_ne by lia. apply Hs1. lia.
        -- intros b [Hb1 Hb2]%not_elem_of_app Hba. cbn. rewrite lookup_insert_ne, Hm2 by done. auto.
    + apply wp_ret. exists (S i), s1. split_and!; [done|lia|done|].
      split; cbn [below]; rewrite ?Hch, ?app_nil_r; [done| |done].
      exists t1. split_and!; [done|done|]. intros k Hk. apply Hs1. lia.
  - intros st' (i & s1 & -> & Hi & Hrest & [Hf1 (t1 & Ht1 & Hl1 & Hs1) Hm1]).
    assert (i = 512)%nat as -> by (destruct (512 - i)%nat eqn:E; [lia|done]).
    destruct Hau as [Has Hal].
    assert (a ∉ below Ts 512) as Hab by (intros Ha; apply (Hna a Ha); by left).
    eapply kfree_spec; [exact Hf1|done| | |].
    + eapply fi_pages; [exact Hf1|]. by apply table_at_mem.
    + rewrite elem_of_app, elem_of_reverse. tauto.
    + intros s2 Hf2 _. exists s2, (a :: reverse (below Ts 512) ++ l). split; [done|]. split; [done| |].
      * rewrite reverse_app. done.
      * intros b [Hb1 Hb2]%not_elem_of_app. rewrite list_elem_of_singleton in Hb2.
        unfold s2. cbn. rewrite lookup_insert_ne by done. auto.
Qed.

(** ** From the page-table invariant to the tree *)

Lemma fin_choice (P : nat -> list Z -> Prop) n :
  (forall i, (i < n)%nat -> exists T, P i T) ->
  exists Ts, forall i, (i < n)%nat -> P i (Ts i).
Proof.
  induction n as [|n IH]; intros H; [exists (fun _ => []); lia|].
  destruct IH as [Ts HTs]; [intros; apply H; lia|]. destruct (H n ltac:(lia)) as [T HT].
  exists (fun i => if decide (i = n) then T else Ts i). intros i Hi.
  destruct (decide (i = n)) as [->|]; [done|]. apply HTs. lia.
Qed.

Lemma NoDup_below_intro (Ts : nat -> list Z) n :
  (forall i, (i < n)%nat -> NoDup (Ts i)) ->
  (forall i j b, (i < n)%nat -> (j < n)%nat -> b ∈ Ts i -> b ∈ Ts j -> i = j) ->
  NoDup (below Ts n).
Proof.
  induction n as [|n IH]; intros Hn Hd; cbn [below]; [constructor|].
  apply NoDup_app. split_and!; [|intros b Hb Hb'|by apply Hn; lia].
  - apply IH; intros; [apply Hn; lia|]. eapply Hd; [lia|lia|done|done].
  - apply elem_of_below in Hb as (i & Hi & Hb). assert (i = n); [|lia].
    eapply Hd; [lia|lia|done|done].
Qed.

(** No virtual address is mapped any more. *)
Definition all_unmapped s tbl : Prop := unmapped s tbl 0 MAXVA.

Lemma unmapped_leaf s root tbl i1 i2 a t j :
  pt_inv s root tbl -> all_unmapped s tbl -> tbl !! [i1; i2] = Some a ->
  table_at a s = Some t -> 0 <= j < 512 -> flag_set (t !!! Z.to_nat j) PTE_V = false.
Proof.
  intros Hp Hun Ha Ht Hj.
  destruct (pt_up _ _ _ Hp _ _ _ Ha) as ([a1 Ha1] & Hi1 & _ & _).
  destruct (pt_up _ _ _ Hp _ _ _ Ha1) as (_ & Hi2 & _ & Hi256). specialize (Hi256 eq_refl).
  set (va := i2 * 2 ^ 30 + i1 * 2 ^ 21 + j * 2 ^ 12).
  assert (PX 2 va = i2 /\ PX 1 va = i1 /\ PX 0 va = j) as (E2 & E1 & E0).
  { rewrite !PX_eq by lia. unfold va. cbn -[Z.mul Z.add Z.div Z.modulo]. lia. }
  assert (MAXVA = 2 ^ 38) as Hmax by done.
  specialize (Hun va ltac:(unfold va; lia)).
  erewrite pte_of_slot in Hun; [|unfold leaf_path; rewrite E1, E2; exact Ha|exact Ht].
  by rewrite E0 in Hun.
Qed.

Lemma interior_pte v : PTE_FLAGS v = PTE_V -> Z.land v (Z.lor (Z.lor PTE_R PTE_W) PTE_X) = 0.
Proof.
  intros Hv. change (Z.lor (Z.lor PTE_R PTE_W) PTE_X) with (Z.land 0x3FF 14).
  rewrite Z.land_assoc. fold (PTE_FLAGS v). by rewrite Hv.
Qed.

Lemma app_cons_inv_length (q q' p : list Z) i j :
  q ++ i :: p = q' ++ j :: p -> i = j.
Proof.
  intros H. assert (length q = length q') as Hl
    by (apply (f_equal length) in H; rewrite !length_app in H; cbn in H; lia).
  apply app_inj_1 in H as [_ [= ?]]; done.
Qed.

Lemma pt_prefix s root tbl q p b :
  pt_inv s root tbl -> tbl !! (q ++ p) = Some b -> is_Some (tbl !! p).
Proof.
  intros Hp. revert b. induction q as [|j q IHq]; intros b Hq; [by exists b|].
  destruct (pt_up _ _ _ Hp _ _ _ Hq) as [[b' Hb'] _]. by apply (IHq b').
Qed.

Lemma pt_tree d s root tbl p a :
  pt_inv s root tbl -> all_unmapped s tbl -> tbl !! p = Some a -> (length p + d = 3)%nat ->
  (0 < d)%nat ->
  exists T, tree d s a T /\ NoDup T /\ forall b, b ∈ T <-> exists q, tbl !! (q ++ p) = Some b.
Proof.
  intros Hp Hun. revert p a. induction d as [|d IH]; intros p a Ha Hlen Hd; [lia|].
  destruct (pt_node _ _ _ Hp _ _ Ha) as (t & Ht & Hlt & He).
  assert (exists Ts, forall i, (i < 512)%nat ->
    (if flag_set (t !!! i) PTE_V
     then Z.land (t !!! i) (Z.lor (Z.lor PTE_R PTE_W) PTE_X) = 0 /\ tree d s (PTE2PA (t !!! i)) (Ts i)
     else Ts i = []) /\ NoDup (Ts i) /\
    forall b, b ∈ Ts i <-> exists q, tbl !! (q ++ Z.of_nat i :: p) = Some b) as [Ts HTs].
  { apply (fin_choice (fun i T => (if flag_set (t !!! i) PTE_V
     then Z.land (t !!! i) (Z.lor (Z.lor PTE_R PTE_W) PTE_X) = 0 /\ tree d s (PTE2PA (t !!! i)) T
     else T = []) /\ NoDup T /\ forall b, b ∈ T <-> exists q, tbl !! (q ++ Z.of_nat i :: p) = Some b)).
    intros i Hi. destruct (flag_set (t !!! i) PTE_V) eqn:Hv.
    - assert (length p < 2)%nat as Hlp.
      { destruct (decide (length p < 2)%nat) as [|Hge]; [done|]. exfalso.
        destruct p as [|i1 [|i2 [|]]]; cbn in *; try lia.
        pose proof (unmapped_leaf _ _ _ _ _ _ _ (Z.of_nat i) Hp Hun Ha Ht ltac:(lia)) as Hf.
        rewrite Nat2Z.id in Hf. congruence. }
      specialize (He Hlp (Z.of_nat i) ltac:(lia)). unfold entry_ok in He. rewrite Nat2Z.id, Hv in He.
      destruct He as [Hfl Hc]. destruct (IH _ _ Hc) as (T & HT & Hnd & Hel); [cbn; lia|lia|].
      exists T. split_and!; [by apply interior_pte|done|done|done].
    - exists []. split_and!; [done|constructor|]. intros b. split; [by intros ?%not_elem_of_nil|].
      intros [q Hq]. exfalso.
      assert (tbl !! (Z.of_nat i :: p) = None) as Hnone.
      { destruct (decide (length p < 2)%nat) as [Hlp|Hge].
        - specialize (He Hlp (Z.of_nat i) ltac:(lia)). unfold entry_ok in He. by rewrite Nat2Z.id, Hv in He.
        - destruct (tbl !! (Z.of_nat i :: p)) eqn:E; [|done].
          destruct (pt_up _ _ _ Hp _ _ _ E) as (_ & _ & ? & _). lia. }
      destruct (pt_prefix _ _ _ _ _ _ Hp Hq). congruence. }
  exists (below Ts 512 ++ [a]).
  assert (forall b, b ∈ below Ts 512 <-> exists q i, (i < 512)%nat /\ tbl !! (q ++ Z.of_nat i :: p) = Some b) as Hbel.
  { intros b. rewrite elem_of_below. split.
    - intros (i & Hi & [q Hq]%(HTs i Hi)). eauto.
    - intros (q & i & Hi & Hq). exists i. split; [done|]. apply HTs; eauto. }
  split_and!.
  - exists t, Ts. split_and!; [done|done|done|]. intros i Hi. by apply HTs.
  - apply NoDup_app. split_and!; [| |apply NoDup_singleton].
    + apply NoDup_below_intro; [intros; by apply HTs|]. intros i j b Hi Hj Hbi Hbj.
      apply (HTs i Hi) in Hbi as [q Hq]. apply (HTs j Hj) in Hbj as [q' Hq'].
      apply Nat2Z.inj. eapply app_cons_inv_length. by eapply (pt_inj _ _ _ Hp).
    + intros b (q & i & Hi & Hq)%Hbel ->%list_elem_of_singleton.
      pose proof (pt_inj _ _ _ Hp _ _ _ Hq Ha) as E. apply (f_equal length) in E.
      rewrite length_app in E. cbn in E. lia.
  - intros b. rewrite elem_of_app, Hbel, list_elem_of_singleton. split.
    + intros [(q & i & Hi & Hq)| ->]; [exists (q ++ [Z.of_nat i]); by rewrite <- app_assoc|by exists []].
    + intros [q Hq]. destruct q as [|x q _] using rev_ind; [right; cbn in Hq; congruence|left].
      rewrite <- app_assoc in Hq. cbn in Hq.
      destruct (pt_prefix _ _ _ _ _ _ Hp Hq) as [b' Hb'].
      destruct (pt_up _ _ _ Hp _ _ _ Hb') as (_ & Hx & _).
      exists q, (Z.to_nat x). split; [lia|]. by rewrite Z2Nat.id by lia.
Qed.

Lemma uvmfree_spec n s l hl root tbl sz :
  let F := frames (pte_of s tbl) 0 n in
  free_inv s l -> pt_inv s root tbl -> LkKmem ∉ hl ->
  0 <= sz -> (Z.of_nat n - 1) * PGSIZE < sz <= Z.of_nat n * PGSIZE -> Z.of_nat n * PGSIZE <= MAXVA ->
  (forall x, 0 <= x < Z.of_nat n * PGSIZE -> leaf_ok (pte_of s tbl x)) ->
  unmapped s tbl (Z.of_nat n * PGSIZE) (MAXVA - Z.of_nat n * PGSIZE) ->
  NoDup F -> (forall pa, pa ∈ F -> in_use s l pa /\ ~ is_table tbl pa) ->
  wp (uvmfree root sz) (fun _ st' => exists s' T, st' = mk_st hl s' /\ NoDup T /\
      (forall b, b ∈ T <-> is_table tbl b) /\ free_inv s' (reverse T ++ reverse F ++ l) /\
      forall b, in_use s l b -> b ∉ T -> b ∉ F -> mem s' !! b = mem s !! b)
    (mk_st hl s).
Proof.
  intros F Hf Hp Hh Hsz0 Hsz Hn Hleaf Hrest Hnd HF. unfold uvmfree.
  assert (MAXVA = 2 ^ 38) as Hmax by done. wp_step.
  assert (wp (when (0 <? sz) (uvmunmap root 0 (PGROUNDUP sz / PGSIZE) true))
    (fun _ st' => exists s' l', st' = mk_st hl s' /\
       pt_unmap root s l tbl (unmap_range 0 n (pte_of s tbl)) F s' l') (mk_st hl s)) as H1.
  { apply wp_when; intros Hc.
    - rewrite PGROUNDUP_eq by (unfold PGSIZE in *; lia). rewrite Z.div_mul by done.
      replace ((sz + PGSIZE - 1) / PGSIZE) with (Z.of_nat n) by (unfold PGSIZE in *; lia).
      apply (uvmunmap_spec n s l hl root tbl 0 true); (done || lia).
    - apply Z.ltb_ge in Hc. assert (n = 0%nat) as -> by (unfold PGSIZE in *; lia).
      exists s, l. split; [done|]. split; [done|done| |done|done].
      intros va Hva. unfold unmap_range. case_match; [lia|done]. }
  eapply wp_mono; [exact H1|]. intros [] st1 (s1 & l1 & -> & [Hf1 Hp1 Hpte1 -> Hfr1]).
  assert (all_unmapped s1 tbl) as Hun.
  { intros x Hx. rewrite Hpte1 by lia. unfold unmap_range. rewrite Z.add_0_l.
    destruct (Z.leb_spec 0 x), (Z.ltb_spec x (Z.of_nat n * PGSIZE)); cbn; try (done || lia).
    apply Hrest. lia. }
  destruct (pt_tree 3 s1 root tbl [] root Hp1 Hun (pt_root _ _ _ Hp1) eq_refl ltac:(lia))
    as (T & HT & HTnd & HTel).
  assert (forall b, b ∈ T <-> is_table tbl b) as HTt.
  { intros b. rewrite HTel. split; intros [q Hq]; exists q; by rewrite ?app_nil_r in *. }
  eapply wp_mono; [apply (freewalk_spec 3 s1 _ hl root T Hf1 Hh HT HTnd)|].
  { intros b [p Hb]%HTt. by eapply table_in_use. }
  intros [] st2 (s2 & l2 & -> & [Hf2 -> Hm2]). exists s2, T. split_and!; [done|done|done|done|].
  intros b Hu Hb1 Hb2. rewrite Hm2 by done. apply Hfr1; [done|by rewrite <- HTt|done].
Qed.

(** C33: tearing down an address space leaks nothing.  When exactly the pages
    below [sz] are mapped, [uvmfree] returns, and the free list has gained each
    data page and each page-table page exactly once; no other page in use was
    written. *)
Theorem uvmfree_no_leak n s l hl root tbl sz :
  let F := frames (pte_of s tbl) 0 n in
  free_inv s l -> pt_inv s root tbl -> LkKmem ∉ hl ->
  0 <= sz -> (Z.of_nat n - 1) * PGSIZE < sz <= Z.of_nat n * PGSIZE -> Z.of_nat n * PGSIZE <= MAXVA ->
  (forall x, 0 <= x < Z.of_nat n * PGSIZE -> leaf_ok (pte_of s tbl x)) ->
  unmapped s tbl (Z.of_nat n * PGSIZE) (MAXVA - Z.of_nat n * PGSIZE) ->
  NoDup F -> (forall pa, pa ∈ F -> in_use s l pa /\ ~ is_table tbl pa) ->
  exists s' T, uvmfree root sz (mk_st hl s) = Ret tt (mk_st hl s') /\
    NoDup T /\ (forall b, b ∈ T <-> is_table tbl b) /\
    free_inv s' (reverse T ++ reverse F ++ l) /\
    forall b, in_use s l b -> b ∉ T -> b ∉ F -> mem s' !! b = mem s !! b.
Proof.
  intros F Hf Hp Hh Hsz0 Hsz Hn Hleaf Hrest Hnd HF.
  pose proof (uvmfree_spec n s l hl root tbl sz Hf Hp Hh Hsz0 Hsz Hn Hleaf Hrest Hnd HF) as H.
  apply wp_run in H as ([] & st' & E & s' & T & -> & H). exists s', T. by split.
Qed.
End free.

(** ** Witness, on the machine of VmExample.v *)

#[local] Existing Instance demo_image.

Lemma uvmfree_no_leak_witness :
  exists s', uvmfree (pg 0) 100 (mk_st [] demo) = Ret tt (mk_st [] s').
Proof.
  destruct (uvmfree_no_leak 1 demo demo_free [] (pg 0) demo_tbl 100) as (s' & T & E & _).
  - exact demo_free_inv.
  - exact demo_pt.
  - apply not_elem_of_nil.
  - lia.
  - by vm_compute.
  - by vm_compute.
  - intros x Hx. apply demo_leaf. unfold PGSIZE in *. lia.
  - intros x Hx. assert (MAXVA = 2 ^ 38) by done. rewrite demo_pte_of by (unfold PGSIZE in *; lia).
    destruct (Z.ltb_spec x PGSIZE); [lia|done].
  - apply NoDup_singleton.
  - intros pa Hpa. apply list_elem_of_singleton in Hpa as ->.
    assert (PTE2PA (pte_of demo demo_tbl 0) = pg 3) as -> by (vm_compute; reflexivity).
    destruct demo_data as (H1 & H2 & _). split; [exact H1|exact H2].
  - exists s'. exact E.
Defined.
