(* ===== verification/Queue.v ===== *)
(** * The over-quota FIFO (kernel/queue.h)

    The scheduler keeps the processes that exceeded their CPU quota in a ring
    buffer of [NPROC] process pointers.  The model keeps the four fields of the
    struct; a process pointer is an index into [proc[]], [None] is [NULL].
    The ring is shown to implement a first-in first-out list. *)

From S2P Require Import Prelude.
Ltac Zify.zify_post_hook ::= Z.to_euclidean_division_equations.

(** kernel/param.h *)
Definition NPROC : Z := 64.

Definition procptr : Type := option nat.

Module Queue.

Record t : Type := mk {
  procs : list procptr;
  front : Z;
  rear : Z;
  size : Z
}.

(** [initializeQueue] resets the indices and leaves the array alone. *)
Definition initializeQueue (q : t) : t := mk (procs q) 0 0 0.

Definition isEmpty (q : t) : bool := size q =? 0.

Definition isFull (q : t) : bool := size q =? NPROC.

Definition enqueue (q : t) (p : procptr) : Z * t :=
  if isFull q then (0, q)
  else (1, mk (<[Z.to_nat (rear q) := p]> (procs q))
              (front q) (Z.rem (rear q + 1) NPROC) (size q + 1)).

Definition pop (q : t) : procptr * t :=
  if isEmpty q then (None, q)
  else (procs q !!! Z.to_nat (front q),
        mk (procs q) (Z.rem (front q + 1) NPROC) (rear q) (size q - 1)).

(** ** Representation *)

Record wf (q : t) : Prop := {
  wf_length : length (procs q) = Z.to_nat NPROC;
  wf_front : 0 <= front q < NPROC;
  wf_size : 0 <= size q <= NPROC;
  wf_rear : rear q = (front q + size q) mod NPROC
}.

Definition slot (f : Z) (i : nat) : nat := Z.to_nat ((f + Z.of_nat i) mod NPROC).

(** The queue's contents, oldest first. *)
Definition contents (q : t) : list procptr :=
  (fun i => procs q !!! slot (front q) i) <$> seq 0 (Z.to_nat (size q)).

Lemma contents_length q : length (contents q) = Z.to_nat (size q).
Proof. unfold contents. by rewrite length_fmap, length_seq. Qed.

Lemma wf_initialize q : length (procs q) = Z.to_nat NPROC -> wf (initializeQueue q).
Proof. intros. split; simpl; unfold NPROC in *; lia. Qed.

Lemma slot_inj f i j :
  Z.of_nat i < NPROC -> Z.of_nat j < NPROC -> slot f i = slot f j -> i = j.
Proof. intros Hi Hj. unfold slot, NPROC in *. lia. Qed.

Lemma wf_enqueue q p : wf q -> wf (enqueue q p).2.
Proof.
  intros [Hl Hf Hs Hr]. unfold enqueue, isFull.
  destruct (Z.eqb_spec (size q) NPROC); [by split|]. split; simpl.
  - by rewrite length_insert.
  - done.
  - lia.
  - rewrite Hr. unfold NPROC in *. lia.
Qed.

Lemma wf_pop q : wf q -> wf (pop q).2.
Proof.
  intros [Hl Hf Hs Hr]. unfold pop, isEmpty.
  destruct (Z.eqb_spec (size q) 0); [by split|]. split; simpl.
  - done.
  - unfold NPROC in *. lia.
  - lia.
  - rewrite Hr. unfold NPROC in *. lia.
Qed.

Lemma rear_slot q : wf q -> Z.to_nat (rear q) = slot (front q) (Z.to_nat (size q)).
Proof. intros [_ _ Hs Hr]. unfold slot. rewrite Hr. f_equal. f_equal. lia. Qed.

Lemma contents_enqueue q p :
  wf q -> size q <> NPROC -> contents (enqueue q p).2 = contents q ++ [p].
Proof.
  intros Hwf Hs. pose proof (wf_size _ Hwf). unfold enqueue, isFull.
  destruct (Z.eqb_spec (size q) NPROC); [done|]. unfold contents. simpl.
  replace (Z.to_nat (size q + 1)) with (Z.to_nat (size q) + 1)%nat by lia.
  rewrite seq_app, fmap_app. simpl. f_equal.
  - apply list_fmap_ext. intros i k [-> Hk]%lookup_seq. simpl.
    rewrite list_lookup_total_insert_ne; [done|].
    rewrite rear_slot by done. intros E%slot_inj; lia.
  - f_equal. rewrite rear_slot by done.
    apply list_lookup_total_insert_eq. rewrite (wf_length _ Hwf).
    unfold slot, NPROC. lia.
Qed.

Lemma contents_pop q :
  wf q -> size q <> 0 -> contents q = (pop q).1 :: contents (pop q).2.
Proof.
  intros Hwf Hs. pose proof (wf_size _ Hwf). pose proof (wf_front _ Hwf).
  unfold pop, isEmpty. destruct (Z.eqb_spec (size q) 0); [done|].
  unfold contents. simpl.
  replace (Z.to_nat (size q)) with (S (Z.to_nat (size q - 1))) by lia. simpl. f_equal.
  - unfold slot. rewrite Z.add_0_r, Z.mod_small by done. done.
  - rewrite <- fmap_S_seq, <- list_fmap_compose. apply list_fmap_ext.
    intros i k _. unfold compose, slot. simpl. f_equal. f_equal. unfold NPROC. lia.
Qed.

(** ** Refinement of a FIFO list of bounded length *)

Inductive op : Type := Enqueue (p : procptr) | Pop.
Inductive reply : Type := REnqueue (r : Z) | RPop (p : procptr).

Definition run_ring (q : t) (o : op) : reply * t :=
  match o with
  | Enqueue p => let '(r, q') := enqueue q p in (REnqueue r, q')
  | Pop => let '(r, q') := pop q in (RPop r, q')
  end.

Definition run_fifo (l : list procptr) (o : op) : reply * list procptr :=
  match o with
  | Enqueue p =>
      if decide (Z.of_nat (length l) < NPROC) then (REnqueue 1, l ++ [p])
      else (REnqueue 0, l)
  | Pop =>
      match l with [] => (RPop None, []) | p :: l' => (RPop p, l') end
  end.

Fixpoint trace {S} (step : S -> op -> reply * S) (s : S) (os : list op)
    : list reply * S :=
  match os with
  | [] => ([], s)
  | o :: os' =>
      let '(r, s') := step s o in
      let '(rs, s'') := trace step s' os' in (r :: rs, s'')
  end.

Lemma run_ring_refines q o :
  wf q ->
  wf (run_ring q o).2 /\
  run_fifo (contents q) o = ((run_ring q o).1, contents (run_ring q o).2).
Proof.
  intros Hwf. pose proof (wf_size _ Hwf) as Hs. destruct o as [p|]; simpl.
  - pose proof (wf_enqueue q p Hwf). pose proof (contents_enqueue q p Hwf).
    rewrite contents_length. unfold enqueue, isFull in *.
    destruct (Z.eqb_spec (size q) NPROC); simpl in *.
    + split; [done|]. rewrite decide_False by lia. done.
    + split; [done|]. rewrite decide_True by lia. by rewrite H0.
  - pose proof (wf_pop q Hwf). pose proof (contents_pop q Hwf).
    destruct (decide (size q = 0)) as [Hz|Hz].
    + unfold pop, isEmpty in *. destruct (Z.eqb_spec (size q) 0); [|done]. simpl in *.
      split; [done|]. destruct (contents q) eqn:E; [done|].
      pose proof (contents_length q) as HL. rewrite E, Hz in HL. done.
    + rewrite H0 by done. destruct (pop q). done.
Qed.

(** C34: from any well-formed state, every sequence of [enqueue] and [pop] calls
    on the ring buffer gives the replies of a first-in first-out list that
    accepts at most [NPROC] elements, and ends with the same contents. *)
Theorem ring_implements_fifo os q :
  wf q ->
  (trace run_ring q os).1 = (trace run_fifo (contents q) os).1 /\
  contents (trace run_ring q os).2 = (trace run_fifo (contents q) os).2.
Proof.
  revert q. induction os as [|o os IH]; intros q Hwf; simpl; [done|].
  destruct (run_ring_refines q o Hwf) as [Hwf' E].
  destruct (run_ring q o) as [r q'] eqn:Eq. simpl in *. rewrite E.
  destruct (IH q' Hwf') as [E1 E2].
  destruct (trace run_ring q' os), (trace run_fifo (contents q') os).
  simpl in *. subst. done.
Qed.

Definition sample_queue : t := mk (replicate 64 None) 62 0 2.

Lemma ring_implements_fifo_witness :
  (trace run_ring sample_queue [Enqueue (Some 7%nat); Pop; Pop; Pop; Pop]).1 =
  [REnqueue 1; RPop None; RPop None; RPop (Some 7%nat); RPop None].
Proof.
  rewrite (proj1 (ring_implements_fifo _ sample_queue
             ltac:(split; vm_compute; try split; try discriminate; reflexivity))).
  reflexivity.
Defined.

End Queue.
