(* ===== verification/PriorityQueue.v ===== *)
(** * The scheduler's priority queue (kernel/priority_queue.h)

    A binary heap of process pointers in an array of [NPROC] slots.  The heap
    reads two fields of the processes, [usage_time->sum_of_ticks] and
    [usage_time->deadline]; they are the section's functions.  The part of
    [pq_pop] that marks the chosen process [CHOSEN_TO_RUN] is in Sched.v.

    [pq_push] keeps the heap ordered by (ticks used, deadline) and [pq_pop]
    returns a minimum.  [pq_check_and_push], the insertion the scheduler
    calls, sifts only among equal tick counts: it keeps the order exactly when
    the new process has used at least as many ticks as the slot's parent, and
    a counterexample shows the heap loses its order otherwise. *)

From S2P Require Import Prelude Queue.
Ltac Zify.zify_post_hook ::= Z.to_euclidean_division_equations.

Module PQ.

Section priority_queue.
Context {P : Type} `{!Inhabited P, !EqDecision P}.
Variables sum_of_ticks deadline : P -> Z.

Record t : Type := mk { heap : list P; size : nat }.

Definition NPROC_nat : nat := 64.

Definition pq_init (pq : t) : t := mk (heap pq) 0.

Definition pq_empty (pq : t) : bool := (size pq =? 0)%nat.

Definition swap (h : list P) (a b : nat) : list P :=
  let temp := h !!! a in <[b := temp]> (<[a := h !!! b]> h).

Definition parent (i : nat) : nat := ((i - 1) / 2)%nat.

(** The bubble-up loop of [pq_push].  [fuel] bounds the iterations: the index
    at least halves, so [i] of them are enough. *)
Fixpoint bubble_up (fuel : nat) (h : list P) (i : nat) : option (list P) :=
  match fuel with
  | O => None
  | S fuel' =>
      if (0 <? i)%nat then
        let pa := parent i in
        let hp := h !!! pa in
        let hi := h !!! i in
        if sum_of_ticks hp <=? sum_of_ticks hi then
          if sum_of_ticks hp =? sum_of_ticks hi then
            if deadline hp <=? deadline hi then Some h
            else bubble_up fuel' (swap h pa i) pa
          else Some h
        else bubble_up fuel' (swap h pa i) pa
      else Some h
  end.

Inductive result (A : Type) : Type :=
| Done (a : A)
| PanicOverflow
| OutOfFuel.
Arguments Done {A} _.
Arguments PanicOverflow {A}.
Arguments OutOfFuel {A}.

Definition pq_push (pq : t) (p : P) : result t :=
  if (NPROC_nat <=? size pq)%nat then PanicOverflow
  else
    let h := <[size pq := p]> (heap pq) in
    match bubble_up (S (size pq)) h (size pq) with
    | Some h' => Done (mk h' (size pq + 1))
    | None => OutOfFuel
    end.

(** One comparison of the bubble-down loop: [c] replaces [smallest] when it is
    inside the heap and has the smaller (ticks, deadline). *)
Definition pick (h : list P) (n c smallest : nat) : nat :=
  if (c <? n)%nat && (sum_of_ticks (h !!! c) <=? sum_of_ticks (h !!! smallest)) then
    if sum_of_ticks (h !!! c) =? sum_of_ticks (h !!! smallest) then
      if deadline (h !!! c) <? deadline (h !!! smallest) then c else smallest
    else c
  else smallest.

Fixpoint bubble_down (fuel : nat) (h : list P) (n i : nat) : option (list P) :=
  match fuel with
  | O => None
  | S fuel' =>
      let left := (2 * i + 1)%nat in
      let right := (2 * i + 2)%nat in
      let smallest := pick h n left i in
      let smallest := pick h n right smallest in
      if (smallest =? i)%nat then Some h
      else bubble_down fuel' (swap h i smallest) n smallest
  end.

(** [pq_pop] up to the change of the chosen process's state. *)
Definition pq_pop (pq : t) : result (option P * t) :=
  if (size pq =? 0)%nat then Done (None, pq)
  else
    let min := heap pq !!! 0%nat in
    let h := <[0%nat := heap pq !!! (size pq - 1)%nat]> (heap pq) in
    let n := (size pq - 1)%nat in
    match bubble_down (S n) h n 0 with
    | Some h' => Done (Some min, mk h' n)
    | None => OutOfFuel
    end.

(** The sift of [pq_check_and_push]: it swaps only on equal tick counts. *)
Fixpoint bubble_up_equal (fuel : nat) (h : list P) (i : nat) : option (list P) :=
  match fuel with
  | O => None
  | S fuel' =>
      if (0 <? i)%nat then
        let pa := parent i in
        let hp := h !!! pa in
        let hi := h !!! i in
        if sum_of_ticks hp =? sum_of_ticks hi then
          if deadline hp <=? deadline hi then Some h
          else bubble_up_equal fuel' (swap h pa i) pa
        else Some h
      else Some h
  end.

(** [runnable] is the test [p->state == RUNNABLE]. *)
Definition pq_check_and_push (pq : t) (p : P) (runnable : bool) : result (Z * t) :=
  if negb runnable then Done (0, pq)
  else if bool_decide (p ∈ take (size pq) (heap pq)) then Done (0, pq)
  else if (NPROC_nat <=? size pq)%nat then PanicOverflow
  else
    let h := <[size pq := p]> (heap pq) in
    match bubble_up_equal (S (size pq)) h (size pq) with
    | Some h' => Done (1, mk h' (size pq + 1))
    | None => OutOfFuel
    end.

(** ** Order and well-formedness *)

Definition key_le (x y : P) : Prop :=
  sum_of_ticks x < sum_of_ticks y \/
  (sum_of_ticks x = sum_of_ticks y /\ deadline x <= deadline y).

Definition live (pq : t) : list P := take (size pq) (heap pq).

Definition ordered (h : list P) (n : nat) : Prop :=
  forall i, (0 < i < n)%nat -> key_le (h !!! parent i) (h !!! i).

Record wf (pq : t) : Prop := {
  wf_heap : length (heap pq) = NPROC_nat;
  wf_size : (size pq <= NPROC_nat)%nat
}.

Lemma key_le_refl x : key_le x x.
Proof. right. lia. Qed.
Lemma key_le_trans x y z : key_le x y -> key_le y z -> key_le x z.
Proof. unfold key_le. lia. Qed.
Lemma key_le_total x y : key_le x y \/ key_le y x.
Proof. unfold key_le. lia. Qed.

Lemma parent_lt i : (0 < i)%nat -> (parent i < i)%nat.
Proof. unfold parent. lia. Qed.

Lemma parent_children i j : (0 < j)%nat -> parent j = i <-> j = (2 * i + 1)%nat \/ j = (2 * i + 2)%nat.
Proof. unfold parent. lia. Qed.

Lemma swap_length h a b : length (swap h a b) = length h.
Proof. unfold swap. by rewrite !length_insert. Qed.

Lemma swap_lookup h a b k :
  (a < length h)%nat -> (b < length h)%nat ->
  swap h a b !!! k =
    if decide (k = a) then h !!! b else if decide (k = b) then h !!! a else h !!! k.
Proof.
  intros Ha Hb. unfold swap. destruct (decide (k = b)) as [->|Hkb].
  - rewrite list_lookup_total_insert_eq by (by rewrite length_insert).
    destruct (decide (b = a)) as [->|]; done.
  - rewrite list_lookup_total_insert_ne by done.
    destruct (decide (k = a)) as [->|Hka].
    + by rewrite list_lookup_total_insert_eq.
    + by rewrite list_lookup_total_insert_ne.
Qed.

Lemma swap_lookup_opt h a b k :
  (a < length h)%nat -> (b < length h)%nat ->
  swap h a b !! k = h !! (if decide (k = a) then b else if decide (k = b) then a else k).
Proof.
  intros Ha Hb. destruct (decide (k < length h)%nat) as [Hk|Hk].
  - rewrite !list_lookup_lookup_total_lt.
    + f_equal. rewrite swap_lookup by done. by repeat case_decide.
    + repeat case_decide; lia.
    + by rewrite swap_length.
  - rewrite !lookup_ge_None_2; [done| |rewrite swap_length; lia].
    repeat case_decide; lia.
Qed.

Lemma swap_take_perm h a b n :
  (a < n)%nat -> (b < n)%nat -> (n <= length h)%nat ->
  take n (swap h a b) ≡ₚ take n h.
Proof.
  intros Ha Hb Hn. apply Permutation_inj.
  rewrite !length_take, swap_length. split; [done|].
  exists (fun k => if decide (k = a) then b else if decide (k = b) then a else k). split.
  - intros x y. repeat case_decide; congruence.
  - intros k. destruct (decide (k < n)%nat) as [Hk|Hk].
    + rewrite !lookup_take_lt, swap_lookup_opt; try lia; [done|].
      repeat case_decide; lia.
    + rewrite !lookup_take_ge; [done| |lia]. repeat case_decide; lia.
Qed.

(** ** Sifting up *)

(** Everything is ordered except possibly [i] with its parent, and the
    children of [i] are no smaller than the parent of [i]. *)
Definition up_inv (h : list P) (n i : nat) : Prop :=
  (forall j, (0 < j < n)%nat -> j <> i -> key_le (h !!! parent j) (h !!! j)) /\
  ((0 < i)%nat -> forall j, (0 < j < n)%nat -> parent j = i ->
     key_le (h !!! parent i) (h !!! j)).

Lemma up_inv_ordered h n i :
  up_inv h n i -> ((0 < i < n)%nat -> key_le (h !!! parent i) (h !!! i)) -> ordered h n.
Proof.
  intros [H _] Hi j Hj. destruct (decide (j = i)) as [->|]; auto.
Qed.

Lemma up_inv_append h n p :
  (n < length h)%nat -> ordered h n -> up_inv (<[n := p]> h) (n + 1) n.
Proof.
  intros Hn Ho. split.
  - intros j Hj Hne. pose proof (parent_lt j). rewrite !list_lookup_total_insert_ne by lia.
    apply Ho. lia.
  - intros _ j Hj Hp. apply parent_children in Hp; lia.
Qed.

Lemma up_inv_swap h n i :
  (0 < i < n)%nat -> (n <= length h)%nat -> up_inv h n i ->
  key_le (h !!! i) (h !!! parent i) ->
  up_inv (swap h (parent i) i) n (parent i).
Proof.
  intros Hi Hn [H1 H2] Hle. pose proof (parent_lt i ltac:(lia)) as Hp. split.
  - intros j Hj Hne. rewrite !swap_lookup by lia.
    destruct (decide (j = parent i)); [done|].
    destruct (decide (j = i)) as [->|Hji].
    { by rewrite decide_True by done. }
    destruct (decide (parent j = parent i)) as [E|E].
    { eapply key_le_trans; [exact Hle|]. rewrite <- E. by apply H1. }
    destruct (decide (parent j = i)) as [E'|E']; [|by apply H1].
    by apply H2; [lia| |].
  - intros Hpi j Hj Hpj. pose proof (parent_lt (parent i) Hpi) as Hpp.
    rewrite !swap_lookup by lia.
    rewrite (decide_False (P := parent (parent i) = parent i)) by lia.
    rewrite (decide_False (P := parent (parent i) = i)) by lia.
    assert (key_le (h !!! parent (parent i)) (h !!! parent i)) as Hpp'
      by (apply H1; lia).
    pose proof (parent_lt j ltac:(lia)).
    destruct (decide (j = parent i)); [lia|].
    destruct (decide (j = i)); [done|].
    eapply key_le_trans; [exact Hpp'|]. rewrite <- Hpj. by apply H1.
Qed.

Lemma bubble_up_spec fuel h n i :
  (i < fuel)%nat -> (i < n)%nat -> (n <= length h)%nat -> up_inv h n i ->
  exists h', bubble_up fuel h i = Some h' /\ length h' = length h /\
    ordered h' n /\ take n h' ≡ₚ take n h /\
    (forall k, (n <= k)%nat -> h' !!! k = h !!! k).
Proof.
  revert h i. induction fuel as [|fuel IH]; intros h i Hf Hi Hn Hinv; [lia|]. simpl.
  destruct (Nat.ltb_spec 0 i) as [Hpos|Hz].
  2: { exists h. split_and!; auto. apply (up_inv_ordered _ _ i Hinv). lia. }
  pose proof (parent_lt i Hpos) as Hp.
  assert (key_le (h !!! i) (h !!! parent i) ->
    exists h', bubble_up fuel (swap h (parent i) i) (parent i) = Some h' /\
      length h' = length h /\ ordered h' n /\ take n h' ≡ₚ take n h /\
      (forall k, (n <= k)%nat -> h' !!! k = h !!! k)) as Hswap.
  { intros Hle. destruct (IH (swap h (parent i) i) (parent i))
      as (h' & E & Hl & Ho & Hperm & Hrest); [lia|lia|by rewrite swap_length| |].
    { apply up_inv_swap; auto. }
    exists h'. rewrite swap_length in Hl. split_and!; auto.
    - rewrite Hperm. apply swap_take_perm; lia.
    - intros k Hk. rewrite Hrest by done. rewrite swap_lookup by lia.
      by rewrite !decide_False by lia. }
  assert (key_le (h !!! parent i) (h !!! i) -> ordered h n) as Hstop.
  { intros Hle. by apply (up_inv_ordered _ _ i Hinv). }
  unfold key_le in Hswap, Hstop.
  destruct (Z.leb_spec (sum_of_ticks (h !!! parent i)) (sum_of_ticks (h !!! i))).
  2: { apply Hswap. lia. }
  destruct (Z.eqb_spec (sum_of_ticks (h !!! parent i)) (sum_of_ticks (h !!! i))).
  - destruct (Z.leb_spec (deadline (h !!! parent i)) (deadline (h !!! i))).
    + exists h; split_and!; auto; apply Hstop; lia.
    + apply Hswap. lia.
  - exists h; split_and!; auto; apply Hstop; lia.
Qed.

(** ** Sifting down *)

Definition down_inv (h : list P) (n i : nat) : Prop :=
  (forall j, (0 < j < n)%nat -> parent j <> i -> key_le (h !!! parent j) (h !!! j)) /\
  ((0 < i)%nat -> forall j, (0 < j < n)%nat -> parent j = i ->
     key_le (h !!! parent i) (h !!! j)).

Lemma pick_spec h n c s :
  let r := pick h n c s in
  (r = s \/ (r = c /\ (c < n)%nat)) /\ key_le (h !!! r) (h !!! s) /\
  ((c < n)%nat -> key_le (h !!! r) (h !!! c)).
Proof.
  unfold pick. destruct (Nat.ltb_spec c n) as [Hc|Hc]; simpl.
  2: { split_and!; [by left|apply key_le_refl|lia]. }
  destruct (Z.leb_spec (sum_of_ticks (h !!! c)) (sum_of_ticks (h !!! s))).
  2: { split_and!; [by left|apply key_le_refl|]. left. lia. }
  destruct (Z.eqb_spec (sum_of_ticks (h !!! c)) (sum_of_ticks (h !!! s))).
  2: { split_and!; [by right|left; lia|]. intros _. apply key_le_refl. }
  destruct (Z.ltb_spec (deadline (h !!! c)) (deadline (h !!! s))).
  - split_and!; [by right|right; lia|]. intros _. apply key_le_refl.
  - split_and!; [by left|apply key_le_refl|]. right. lia.
Qed.

(** The slot chosen by one iteration: [i] or one of its children, and no
    larger than [i] and both children. *)
Lemma smallest_spec h n i :
  let m := pick h n (2 * i + 2) (pick h n (2 * i + 1) i) in
  (m = i \/ ((0 < m < n)%nat /\ parent m = i)) /\
  key_le (h !!! m) (h !!! i) /\
  (forall j, (0 < j < n)%nat -> parent j = i -> key_le (h !!! m) (h !!! j)).
Proof.
  cbv zeta. destruct (pick_spec h n (2 * i + 1) i) as (H1 & H2 & H3).
  set (l := pick h n (2 * i + 1) i) in *.
  destruct (pick_spec h n (2 * i + 2) l) as (H4 & H5 & H6).
  set (r := pick h n (2 * i + 2) l) in *. split_and!.
  - destruct H4 as [E|[E ?]]; [destruct H1 as [E'|[E' ?]]|].
    + left. congruence.
    + right. rewrite E, E'. unfold parent. lia.
    + right. rewrite E. unfold parent. lia.
  - by eapply key_le_trans.
  - intros j Hj Hp. apply parent_children in Hp; [|lia]. destruct Hp as [-> | ->].
    + eapply key_le_trans; [exact H5|]. apply H3. lia.
    + apply H6. lia.
Qed.

Lemma down_inv_swap h n i m :
  (0 < m < n)%nat -> parent m = i -> (n <= length h)%nat -> down_inv h n i ->
  key_le (h !!! m) (h !!! i) ->
  (forall j, (0 < j < n)%nat -> parent j = i -> key_le (h !!! m) (h !!! j)) ->
  down_inv (swap h i m) n m.
Proof.
  intros Hm Hp Hn [H1 H2] Hle Hch. pose proof (parent_lt m ltac:(lia)) as Hlt. split.
  - intros j Hj Hne. rewrite !swap_lookup by lia.
    pose proof (parent_lt j ltac:(lia)) as Hjlt.
    rewrite (decide_False (P := parent j = m)) by done.
    destruct (decide (parent j = i)) as [E|E].
    + destruct (decide (j = i)); [lia|]. destruct (decide (j = m)) as [->|]; auto.
    + destruct (decide (j = i)) as [->|Hji].
      * apply H2; [lia|lia|done].
      * destruct (decide (j = m)); [congruence|]. by apply H1.
  - intros _ j Hj Hpj. pose proof (parent_lt j ltac:(lia)) as Hjlt.
    rewrite !swap_lookup by lia. rewrite Hp, (decide_True (P := i = i)) by done.
    rewrite (decide_False (P := j = i)) by lia. rewrite (decide_False (P := j = m)) by lia.
    rewrite <- Hpj. apply H1; [done|]. rewrite Hpj. lia.
Qed.

Lemma bubble_down_spec fuel h n i :
  (n - i < fuel)%nat -> (i < n \/ n = 0)%nat -> (n <= length h)%nat -> down_inv h n i ->
  exists h', bubble_down fuel h n i = Some h' /\ length h' = length h /\
    ordered h' n /\ take n h' ≡ₚ take n h.
Proof.
  revert h i. induction fuel as [|fuel IH]; intros h i Hf Hi Hn Hinv; [lia|].
  cbn [bubble_down]. destruct (smallest_spec h n i) as (Hm & Hle & Hch).
  set (m := pick h n (2 * i + 2) (pick h n (2 * i + 1) i)) in *.
  destruct (Nat.eqb_spec m i) as [E|E].
  - exists h. split_and!; auto. intros j Hj.
    destruct (decide (parent j = i)) as [Ej|Ej].
    + rewrite Ej, <- E at 1. by apply Hch.
    + by apply (proj1 Hinv).
  - destruct Hm as [|[Hm Hp]]; [done|]. pose proof (parent_lt m ltac:(lia)).
    destruct (IH (swap h i m) m) as (h' & E' & Hl & Ho & Hperm);
      [lia|lia|by rewrite swap_length| |].
    { by apply down_inv_swap. }
    exists h'. rewrite swap_length in Hl. split_and!; auto.
    rewrite Hperm. apply swap_take_perm; lia.
Qed.

(** Without any order, the loop still ends and permutes the live slots. *)
Lemma bubble_down_perm fuel h n i :
  (n - i < fuel)%nat -> (i < n \/ n = 0)%nat -> (n <= length h)%nat ->
  exists h', bubble_down fuel h n i = Some h' /\ length h' = length h /\
    take n h' ≡ₚ take n h.
Proof.
  revert h i. induction fuel as [|fuel IH]; intros h i Hf Hi Hn; [lia|].
  cbn [bubble_down]. destruct (smallest_spec h n i) as (Hm & _ & _).
  set (m := pick h n (2 * i + 2) (pick h n (2 * i + 1) i)) in *.
  destruct (Nat.eqb_spec m i) as [E|E]; [eauto|].
  destruct Hm as [|[Hm Hp]]; [done|]. pose proof (parent_lt m ltac:(lia)).
  destruct (IH (swap h i m) m) as (h' & E' & Hl & Hperm);
    [lia|lia|by rewrite swap_length|].
  exists h'. rewrite swap_length in Hl. split_and!; auto.
  rewrite Hperm. apply swap_take_perm; lia.
Qed.

Lemma ordered_root h n i : ordered h n -> (i < n)%nat -> key_le (h !!! 0%nat) (h !!! i).
Proof.
  intros Ho. induction i as [i IH] using lt_wf_ind. intros Hi.
  destruct (decide (i = 0%nat)) as [->|Hz]; [apply key_le_refl|].
  pose proof (parent_lt i ltac:(lia)).
  eapply key_le_trans; [apply (IH (parent i)); lia|]. apply Ho. lia.
Qed.

(** Moving the last element to the root. *)
Lemma take_replace_root (h : list P) n :
  (0 < n)%nat -> (n <= length h)%nat ->
  take n h ≡ₚ h !!! 0%nat :: take (n - 1) (<[0%nat := h !!! (n - 1)%nat]> h).
Proof.
  intros Hn Hl. destruct h as [|x h]; simpl in *; [lia|].
  destruct n as [|n]; [lia|]. simpl. rewrite Nat.sub_0_r.
  destruct n as [|n]; [done|]. simpl. f_equiv.
  rewrite (take_S_r _ _ (h !!! n)).
  - by rewrite Permutation_app_comm.
  - apply list_lookup_lookup_total_lt. lia.
Qed.

Lemma live_elem (pq : t) x :
  wf pq -> x ∈ live pq -> exists i, (i < size pq)%nat /\ x = heap pq !!! i.
Proof.
  intros Hwf [i Hi]%list_elem_of_lookup. unfold live in Hi.
  assert (i < size pq)%nat as Hlt.
  { apply lookup_lt_Some in Hi. rewrite length_take in Hi. lia. }
  exists i. split; [done|]. rewrite lookup_take_lt in Hi by done.
  by apply list_lookup_total_correct in Hi.
Qed.

Lemma pq_push_spec pq p :
  wf pq -> (size pq < NPROC_nat)%nat -> ordered (heap pq) (size pq) ->
  exists pq', pq_push pq p = Done pq' /\ wf pq' /\ ordered (heap pq') (size pq') /\
    live pq' ≡ₚ p :: live pq.
Proof.
  intros [Hl Hs] Hlt Ho. unfold pq_push.
  destruct (Nat.leb_spec NPROC_nat (size pq)); [lia|].
  destruct (bubble_up_spec (S (size pq)) (<[size pq := p]> (heap pq)) (size pq + 1) (size pq))
    as (h' & E & Hl' & Ho' & Hp & _); rewrite ?length_insert; [lia|lia|lia| |].
  { apply up_inv_append; [lia|done]. }
  rewrite E. eexists. split; [done|]. rewrite length_insert in Hl'.
  split; [split; simpl; lia|]. split; [done|]. unfold live. simpl. rewrite Hp.
  rewrite Nat.add_1_r, (take_S_r _ _ p) by (apply list_lookup_insert_eq; lia).
  rewrite take_insert_ge by lia. by rewrite Permutation_app_comm.
Qed.

Lemma pq_pop_perm pq :
  wf pq -> (0 < size pq)%nat ->
  exists pq', pq_pop pq = Done (Some (heap pq !!! 0%nat), pq') /\ wf pq' /\
    size pq' = (size pq - 1)%nat /\ live pq ≡ₚ heap pq !!! 0%nat :: live pq'.
Proof.
  intros [Hl Hs] Hpos. unfold pq_pop. destruct (Nat.eqb_spec (size pq) 0); [lia|].
  set (h := <[0%nat := heap pq !!! (size pq - 1)%nat]> (heap pq)).
  assert (length h = NPROC_nat) as Hh by (unfold h; by rewrite length_insert).
  destruct (bubble_down_perm (S (size pq - 1)) h (size pq - 1) 0)
    as (h' & E & Hl' & Hp); [lia|lia|lia|].
  rewrite E. eexists. split; [done|]. split; [split; simpl; lia|]. split; [done|].
  unfold live. simpl. rewrite Hp. apply take_replace_root; lia.
Qed.

Lemma pq_pop_ordered pq pq' p :
  wf pq -> ordered (heap pq) (size pq) -> pq_pop pq = Done (Some p, pq') ->
  ordered (heap pq') (size pq').
Proof.
  intros [Hl Hs] Ho. unfold pq_pop. destruct (Nat.eqb_spec (size pq) 0); [done|].
  set (h := <[0%nat := heap pq !!! (size pq - 1)%nat]> (heap pq)).
  assert (length h = NPROC_nat) as Hh by (unfold h; by rewrite length_insert).
  destruct (bubble_down_spec (S (size pq - 1)) h (size pq - 1) 0)
    as (h' & E & Hl' & Ho' & Hp); [lia|lia|lia| |].
  { split; [|lia]. intros j Hj Hne. unfold h.
    rewrite !list_lookup_total_insert_ne by lia. apply Ho. lia. }
  rewrite E. intros. by simplify_eq.
Qed.

(** [pq_push] on a heap with room neither panics nor loops: it ends with a
    heap that is again ordered by (ticks used, deadline) and holds exactly the
    old processes and the new one; on a full heap it panics. *)
Theorem pq_push_correct pq p :
  wf pq -> ordered (heap pq) (size pq) ->
  (size pq = NPROC_nat /\ pq_push pq p = PanicOverflow) \/
  (exists pq', pq_push pq p = Done pq' /\ wf pq' /\ ordered (heap pq') (size pq') /\
     live pq' ≡ₚ p :: live pq).
Proof.
  intros Hwf Ho. destruct (decide (size pq < NPROC_nat)%nat) as [Hlt|Hge].
  - right. by apply pq_push_spec.
  - left. destruct Hwf as [_ Hs]. split; [lia|]. unfold pq_push.
    destruct (Nat.leb_spec NPROC_nat (size pq)); [done|lia].
Qed.

(** C35: on an ordered heap [pq_pop] returns [NULL] exactly when it is empty, and
    otherwise a process whose (ticks used, deadline) is least among all those
    queued; it removes exactly that process and leaves an ordered heap. *)
Theorem pq_pop_returns_minimum pq :
  wf pq -> ordered (heap pq) (size pq) ->
  (live pq = [] /\ pq_pop pq = Done (None, pq)) \/
  (exists p pq', pq_pop pq = Done (Some p, pq') /\ wf pq' /\
     ordered (heap pq') (size pq') /\ (live pq ≡ₚ p :: live pq') /\
     (forall x, x ∈ live pq -> key_le p x)).
Proof.
  intros Hwf Ho. destruct (decide (size pq = 0%nat)) as [Hz|Hz].
  - left. unfold live, pq_pop. rewrite Hz. split; done.
  - right. destruct (pq_pop_perm pq Hwf) as (pq' & E & Hwf' & _ & Hp); [lia|].
    exists (heap pq !!! 0%nat), pq'. split_and!; [done|done| |done|].
    + exact (pq_pop_ordered pq pq' _ Hwf Ho E).
    + intros x Hx. destruct (live_elem pq x Hwf Hx) as (i & Hi & ->).
      by apply ordered_root with (n := size pq).
Qed.

(** ** The insertion used by the scheduler *)

Lemma bubble_up_equal_perm fuel h n i :
  (i < fuel)%nat -> (i < n)%nat -> (n <= length h)%nat ->
  exists h', bubble_up_equal fuel h i = Some h' /\ length h' = length h /\
    take n h' ≡ₚ take n h.
Proof.
  revert h i. induction fuel as [|fuel IH]; intros h i Hf Hi Hn; [lia|]. simpl.
  destruct (Nat.ltb_spec 0 i) as [Hpos|Hz]; [|eauto].
  pose proof (parent_lt i Hpos) as Hp.
  repeat case_match; [eauto| |eauto].
  destruct (IH (swap h (parent i) i) (parent i)) as (h' & E & Hl & Hperm);
    [lia|lia|by rewrite swap_length|].
  exists h'. rewrite swap_length in Hl. split_and!; auto.
  rewrite Hperm. apply swap_take_perm; lia.
Qed.

Lemma bubble_up_equal_ordered fuel h n i h' :
  (i < n)%nat -> (n <= length h)%nat -> up_inv h n i ->
  ((0 < i)%nat -> sum_of_ticks (h !!! parent i) <= sum_of_ticks (h !!! i)) ->
  bubble_up_equal fuel h i = Some h' -> ordered h' n.
Proof.
  revert h i. induction fuel as [|fuel IH]; intros h i Hi Hn Hinv Hsum; [done|]. simpl.
  assert (((0 < i)%nat -> key_le (h !!! parent i) (h !!! i)) -> ordered h n) as Hstop.
  { intros Hle. apply (up_inv_ordered _ _ i Hinv). intros. apply Hle. lia. }
  destruct (Nat.ltb_spec 0 i) as [Hpos|Hz].
  2: { intros [= <-]. apply Hstop. lia. }
  specialize (Hsum Hpos). pose proof (parent_lt i Hpos) as Hp.
  destruct (Z.eqb_spec (sum_of_ticks (h !!! parent i)) (sum_of_ticks (h !!! i))) as [E|E].
  2: { intros [= <-]. apply Hstop. left. lia. }
  destruct (Z.leb_spec (deadline (h !!! parent i)) (deadline (h !!! i))).
  { intros [= <-]. apply Hstop. right. lia. }
  apply IH; [lia|by rewrite swap_length| |].
  - apply up_inv_swap; auto. right. lia.
  - intros Hpp. pose proof (parent_lt (parent i) Hpp).
    rewrite !swap_lookup by lia. rewrite (decide_True (P := parent i = parent i)) by done.
    rewrite !decide_False by lia. rewrite <- E.
    destruct (proj1 Hinv (parent i)); lia.
Qed.

Lemma pq_check_and_push_perm pq p :
  wf pq -> p ∉ live pq -> (size pq < NPROC_nat)%nat ->
  exists pq', pq_check_and_push pq p true = Done (1, pq') /\ wf pq' /\
    size pq' = (size pq + 1)%nat /\ live pq' ≡ₚ p :: live pq.
Proof.
  intros [Hl Hs] Hp Hlt. unfold pq_check_and_push, live in *. cbn [negb].
  rewrite bool_decide_false by done.
  destruct (Nat.leb_spec NPROC_nat (size pq)); [lia|].
  destruct (bubble_up_equal_perm (S (size pq)) (<[size pq := p]> (heap pq))
    (size pq + 1) (size pq)) as (h' & E & Hl' & Hperm); rewrite ?length_insert; [lia..|].
  rewrite E. rewrite length_insert in Hl'. eexists. split; [done|].
  split; [split; simpl; lia|]. split; [done|]. simpl. rewrite Hperm.
  rewrite Nat.add_1_r, (take_S_r _ _ p) by (apply list_lookup_insert_eq; lia).
  rewrite take_insert_ge by lia. by rewrite Permutation_app_comm.
Qed.

(** [pq_check_and_push] adds a process at most once: it refuses (reply 0,
    queue untouched) a process that is not runnable or already queued, and
    otherwise (reply 1) the queue holds exactly the old processes and the new
    one, still without duplicates; with all other processes in distinct table
    slots it cannot overflow. *)
Theorem pq_check_and_push_correct pq p runnable :
  wf pq -> NoDup (live pq) -> (size pq < NPROC_nat)%nat ->
  ((runnable = false \/ p ∈ live pq) /\
     pq_check_and_push pq p runnable = Done (0, pq)) \/
  (runnable = true /\ (p ∉ live pq) /\
     exists pq', pq_check_and_push pq p runnable = Done (1, pq') /\ wf pq' /\
       (live pq' ≡ₚ p :: live pq) /\ NoDup (live pq')).
Proof.
  intros Hwf Hnd Hlt. destruct runnable.
  - destruct (decide (p ∈ live pq)) as [Hin|Hin].
    + left. split; [by right|]. unfold pq_check_and_push, live in *. cbn [negb].
      by rewrite bool_decide_true.
    + right. split_and!; [done|done|].
      destruct (pq_check_and_push_perm pq p Hwf Hin Hlt) as (pq' & E & Hwf' & _ & Hp).
      exists pq'. split_and!; [done|done|done|]. rewrite Hp. by constructor.
  - left. split; [by left|done].
Qed.

(** [pq_check_and_push] keeps the heap ordered provided the new process has
    used at least as many ticks as the process in the parent of the slot it is
    first put in. *)
Theorem pq_check_and_push_ordered pq p pq' :
  wf pq -> ordered (heap pq) (size pq) ->
  ((0 < size pq)%nat -> sum_of_ticks (heap pq !!! parent (size pq)) <= sum_of_ticks p) ->
  pq_check_and_push pq p true = Done (1, pq') ->
  ordered (heap pq') (size pq').
Proof.
  intros [Hl Hs] Ho Hsum. unfold pq_check_and_push. cbn [negb].
  case_bool_decide; [done|]. destruct (Nat.leb_spec NPROC_nat (size pq)); [done|].
  case_match eqn:E; [|done]. intros. simplify_eq. simpl.
  eapply bubble_up_equal_ordered; [| | | |exact E].
  - lia.
  - rewrite length_insert. lia.
  - apply up_inv_append; [lia|done].
  - intros Hpos. pose proof (parent_lt (size pq) Hpos).
    rewrite list_lookup_total_insert_ne, list_lookup_total_insert_eq by lia. auto.
Qed.
End priority_queue.

Arguments t P : clear implicits.
Arguments result A : clear implicits.
Arguments Done {A} _.
Arguments PanicOverflow {A}.
Arguments OutOfFuel {A}.

(** ** Concrete heaps *)

Definition ticks3 (p : nat) : Z := match p with 0%nat => 5 | 1%nat => 3 | _ => 9 end.
Definition empty_pq : t nat := mk (replicate 64 0%nat) 0.
Definition pq_of (l : list nat) : t nat := mk (l ++ replicate (64 - length l) 0%nat) (length l).

Lemma wf_pq_of_2 a b : wf (pq_of [a; b]).
Proof. by split; simpl; unfold NPROC_nat; lia. Qed.

Lemma ordered_2 (s d : nat -> Z) a b :
  key_le s d a b -> ordered s d (heap (pq_of [a; b])) 2.
Proof. intros H i Hi. assert (i = 1%nat) as -> by lia. exact H. Qed.

Lemma pq_push_correct_witness :
  exists pq', pq_push ticks3 ticks3 (pq_of [1; 0]%nat) 2%nat = Done pq' /\
    live pq' ≡ₚ [2; 1; 0]%nat.
Proof.
  destruct (pq_push_correct ticks3 ticks3 (pq_of [1; 0]%nat) 2%nat (wf_pq_of_2 1 0))
    as [[H _]|(pq' & E & _ & _ & Hp)].
  - apply ordered_2. left. reflexivity.
  - discriminate H.
  - exists pq'. split; [exact E|exact Hp].
Defined.

Lemma pq_pop_returns_minimum_witness :
  exists p pq', pq_pop ticks3 ticks3 (pq_of [1; 0]%nat) = Done (Some p, pq') /\
    [1; 0]%nat ≡ₚ p :: live pq'.
Proof.
  destruct (pq_pop_returns_minimum ticks3 ticks3 (pq_of [1; 0]%nat) (wf_pq_of_2 1 0))
    as [[H _]|(p & pq' & E & _ & _ & Hp & _)].
  - apply ordered_2. left. reflexivity.
  - discriminate H.
  - exists p, pq'. split; [exact E|exact Hp].
Defined.

Lemma pq_check_and_push_correct_witness :
  exists pq', pq_check_and_push ticks3 ticks3 (pq_of [1; 0]%nat) 2%nat true = Done (1, pq') /\
    live pq' ≡ₚ [2; 1; 0]%nat.
Proof.
  destruct (pq_check_and_push_correct ticks3 ticks3 (pq_of [1; 0]%nat) 2%nat true
              (wf_pq_of_2 1 0)) as [[[H|H] _]|(_ & _ & pq' & E & _ & Hp & _)].
  - apply (bool_decide_unpack (NoDup [1; 0]%nat)). reflexivity.
  - apply Nat.ltb_lt. reflexivity.
  - discriminate H.
  - apply (bool_decide_pack _) in H. contradiction H.
  - exists pq'. split; [exact E|exact Hp].
Defined.

Lemma pq_check_and_push_ordered_witness :
  exists pq', pq_check_and_push ticks3 ticks3 (pq_of [1; 0]%nat) 2%nat true = Done (1, pq') /\
    ordered ticks3 ticks3 (heap pq') (size pq').
Proof.
  eexists. split; [reflexivity|].
  eapply (pq_check_and_push_ordered ticks3 ticks3 (pq_of [1; 0]%nat) 2%nat).
  - apply wf_pq_of_2.
  - apply ordered_2. left. reflexivity.
  - intros _. vm_compute. discriminate.
  - reflexivity.
Defined.

(** C36: the scheduler's insertion breaks the heap: from an empty queue, adding a
    process with 5 used ticks and then one with 3 by [pq_check_and_push] gives
    a heap that is not ordered, and [pq_pop] then returns the process with 5
    ticks although the one with 3 is queued; [pq_push] on the same sequence
    returns the one with 3. *)
Theorem pq_check_and_push_breaks_order :
  exists pq1 pq2 pq3,
    pq_check_and_push ticks3 (fun _ => 0) empty_pq 0%nat true = Done (1, pq1) /\
    pq_check_and_push ticks3 (fun _ => 0) pq1 1%nat true = Done (1, pq2) /\
    ~ ordered ticks3 (fun _ => 0) (heap pq2) (size pq2) /\
    pq_pop ticks3 (fun _ => 0) pq2 = Done (Some 0%nat, pq3) /\
    1%nat ∈ live pq2 /\ ticks3 1 < ticks3 0 /\
    exists qa qb qc,
      pq_push ticks3 (fun _ => 0) empty_pq 0%nat = Done qa /\
      pq_push ticks3 (fun _ => 0) qa 1%nat = Done qb /\
      pq_pop ticks3 (fun _ => 0) qb = Done (Some 1%nat, qc).
Proof.
  do 3 eexists. split; [reflexivity|]. split; [reflexivity|]. split_and!.
  - intros Ho. destruct (Ho 1%nat) as [H|[H _]]; [simpl; lia|by vm_compute in H..].
  - reflexivity.
  - right. left.
  - reflexivity.
  - do 3 eexists. split_and!; reflexivity.
Qed.
End PQ.
