(* ===== verification/KString.v ===== *)
(** * Byte and string routines (kernel/string.c)

    [memset], [memmove] and [memcmp] work on a byte-addressed memory, where
    source and destination may overlap; the string functions work on the bytes
    from a pointer on, as lists (a byte past the end of a list reads as 0). *)

From S2P Require Import Prelude.

(** ** Memory *)

Definition bytes : Type := Z -> Z.

(** [*p = c] stores a [char]. *)
Definition store (m : bytes) (p c : Z) : bytes :=
  fun a => if a =? p then u8 c else m a.

Fixpoint memset_loop (n : nat) (m : bytes) (cdst c : Z) : bytes :=
  match n with
  | O => m
  | S n' => memset_loop n' (store m cdst c) (cdst + 1) c
  end.
Definition memset (m : bytes) (dst c : Z) (n : nat) : bytes := memset_loop n m dst c.

Fixpoint memcmp (m : bytes) (s1 s2 : Z) (n : nat) : Z :=
  match n with
  | O => 0
  | S n' => if negb (m s1 =? m s2) then m s1 - m s2 else memcmp m (s1 + 1) (s2 + 1) n'
  end.

(** [while(n-- > 0) *d++ = *s++;] *)
Fixpoint copy_up (n : nat) (m : bytes) (d s : Z) : bytes :=
  match n with
  | O => m
  | S n' => copy_up n' (store m d (m s)) (d + 1) (s + 1)
  end.

(** [while(n-- > 0) *--d = *--s;] *)
Fixpoint copy_down (n : nat) (m : bytes) (d s : Z) : bytes :=
  match n with
  | O => m
  | S n' => copy_down n' (store m (d - 1) (m (s - 1))) (d - 1) (s - 1)
  end.

Definition memmove (m : bytes) (dst src : Z) (n : nat) : bytes :=
  if (n =? 0)%nat then m
  else if (src <? dst) && (dst <? src + Z.of_nat n)
  then copy_down n m (dst + Z.of_nat n) (src + Z.of_nat n)
  else copy_up n m dst src.

Definition memcpy (m : bytes) (dst src : Z) (n : nat) : bytes := memmove m dst src n.

(** ** Strings *)

(** The byte [*t], and [t + 1]. *)
Definition char0 (t : list Z) : Z := default 0 (head t).

Fixpoint strncmp (p q : list Z) (n : nat) : Z :=
  match n with
  | O => 0
  | S n' =>
      if negb (char0 p =? 0) && (char0 p =? char0 q) then strncmp (tail p) (tail q) n'
      else u8 (char0 p) - u8 (char0 q)
  end.

(** The bytes [strncpy] stores: up to the terminator, then zeros. *)
Fixpoint strncpy_out (t : list Z) (n : nat) : list Z :=
  match n with
  | O => []
  | S n' => if char0 t =? 0 then 0 :: replicate n' 0 else char0 t :: strncpy_out (tail t) n'
  end.
Definition strncpy (s t : list Z) (n : nat) : list Z := strncpy_out t n ++ drop n s.

(** The bytes [safestrcpy] stores when [n > 0]: at most [n - 1] of the string,
    and a terminator after them (after the copied terminator, when there is
    room). *)
Fixpoint safestrcpy_out (t : list Z) (n : nat) : list Z :=
  match n with
  | O => [0]
  | S n' => if char0 t =? 0 then [0; 0] else char0 t :: safestrcpy_out (tail t) n'
  end.
Definition safestrcpy (s t : list Z) (n : nat) : list Z :=
  match n with
  | O => s
  | S n' => let out := safestrcpy_out t n' in out ++ drop (length out) s
  end.

Fixpoint strlen (s : list Z) : Z :=
  match s with
  | [] => 0
  | c :: s' => if c =? 0 then 0 else 1 + strlen s'
  end.

(** The string a list of bytes holds: what comes before the terminator. *)
Fixpoint cstr (s : list Z) : list Z :=
  match s with
  | [] => []
  | c :: s' => if c =? 0 then [] else c :: cstr s'
  end.

(** The bytes of a string constant, without its terminator. *)
Definition string_bytes (s : string) : list Z :=
  (fun a => Z.of_nat (Ascii.nat_of_ascii a)) <$> String.list_ascii_of_string s.

(** ** Proofs *)

Definition is_byte_mem (m : bytes) : Prop := forall a, 0 <= m a < 256.

Lemma u8_id x : 0 <= x < 256 -> u8 x = x.
Proof. intros. unfold u8. by apply Z.mod_small. Qed.

Lemma store_byte m p c : is_byte_mem m -> is_byte_mem (store m p c).
Proof. intros Hm a. unfold store, u8. case_match; [lia|apply Hm]. Qed.

Lemma copy_up_spec n m d s a :
  is_byte_mem m -> (d <= s \/ s + Z.of_nat n <= d) ->
  copy_up n m d s a =
    if (d <=? a) && (a <? d + Z.of_nat n) then m (s + (a - d)) else m a.
Proof.
  revert m d s. induction n as [|n IH]; intros m d s Hm Hov; cbn [copy_up].
  - case_match; [lia|done].
  - rewrite IH; [|by apply store_byte|lia]. unfold store.
    destruct (Z.leb_spec (d + 1) a), (Z.ltb_spec a (d + 1 + Z.of_nat n)),
      (Z.leb_spec d a), (Z.ltb_spec a (d + Z.of_nat (S n))); cbn; try lia.
    + replace (s + 1 + (a - (d + 1))) with (s + (a - d)) by lia.
      destruct (Z.eqb_spec (s + (a - d)) d); [lia|done].
    + destruct (Z.eqb_spec a d); [lia|done].
    + destruct (Z.eqb_spec a d); [|lia]. subst. rewrite u8_id by apply Hm. f_equal. lia.
    + destruct (Z.eqb_spec a d); [lia|done].
Qed.

Lemma copy_down_spec n m d s a :
  is_byte_mem m -> s <= d ->
  copy_down n m d s a =
    if (d - Z.of_nat n <=? a) && (a <? d) then m (s + (a - d)) else m a.
Proof.
  revert m d s. induction n as [|n IH]; intros m d s Hm Hov; cbn [copy_down].
  - case_match; [lia|done].
  - rewrite IH; [|by apply store_byte|lia]. unfold store.
    destruct (Z.leb_spec (d - 1 - Z.of_nat n) a), (Z.ltb_spec a (d - 1)),
      (Z.leb_spec (d - Z.of_nat (S n)) a), (Z.ltb_spec a d); cbn; try lia.
    + replace (s - 1 + (a - (d - 1))) with (s + (a - d)) by lia.
      destruct (Z.eqb_spec (s + (a - d)) (d - 1)); [lia|done].
    + destruct (Z.eqb_spec a (d - 1)); [|lia]. subst. rewrite u8_id by apply Hm. f_equal. lia.
    + destruct (Z.eqb_spec a (d - 1)); [lia|done].
    + destruct (Z.eqb_spec a (d - 1)); [lia|done].
Qed.

(** [memmove] is the simultaneous copy, whatever the overlap: afterwards
    each byte of the destination is the byte the source had before the call,
    and no other byte changed. *)
Theorem memmove_simultaneous m dst src n a :
  is_byte_mem m ->
  memmove m dst src n a =
    if (dst <=? a) && (a <? dst + Z.of_nat n) then m (src + (a - dst)) else m a.
Proof.
  intros Hm. unfold memmove. destruct (Nat.eqb_spec n 0) as [->|Hn]; [case_match; [lia|done]|].
  destruct (Z.ltb_spec src dst), (Z.ltb_spec dst (src + Z.of_nat n)); cbn;
    [rewrite copy_down_spec by (done || lia)|apply copy_up_spec; [done|lia]..].
  replace (dst + Z.of_nat n - Z.of_nat n) with dst by lia.
  replace (src + Z.of_nat n + (a - (dst + Z.of_nat n))) with (src + (a - dst)) by lia. done.
Qed.

Definition ramp : bytes := fun a => u8 a.

Lemma memmove_simultaneous_witness : memmove ramp 11 10 4 14 = 13.
Proof.
  rewrite (memmove_simultaneous ramp 11 10 4 14); [reflexivity|].
  intros a. unfold ramp, u8. apply Z.mod_pos_bound. lia.
Defined.

Lemma strncpy_out_length t n : length (strncpy_out t n) = n.
Proof.
  revert t. induction n as [|n IH]; intros t; cbn; [done|].
  case_match; cbn; [by rewrite length_replicate|by rewrite IH].
Qed.

Lemma cstr_char0 t :
  cstr t = if char0 t =? 0 then [] else char0 t :: cstr (tail t).
Proof. by destruct t. Qed.

Lemma strncpy_out_spec t n :
  strncpy_out t n = take n (cstr t ++ replicate n 0).
Proof.
  revert t. induction n as [|n IH]; intros t; [by rewrite take_0|].
  cbn [strncpy_out]. rewrite cstr_char0. case_match; cbn.
  - f_equal. by rewrite take_ge by (rewrite length_replicate; lia).
  - f_equal. rewrite IH. rewrite (replicate_cons_app n). rewrite app_assoc.
    rewrite (take_app_le _ [0]); [done|]. rewrite length_app, length_replicate. lia.
Qed.

Lemma safestrcpy_out_spec t n :
  cstr (safestrcpy_out t n) = take n (cstr t) /\
  (length (safestrcpy_out t n) <= S n)%nat /\ 0 ∈ safestrcpy_out t n.
Proof.
  revert t. induction n as [|n IH]; intros t; cbn [safestrcpy_out].
  - split_and!; [by rewrite take_0|cbn; lia|by left].
  - rewrite (cstr_char0 t). destruct (Z.eqb_spec (char0 t) 0) as [E|E].
    + split_and!; [by rewrite take_nil|cbn; lia|by left].
    + destruct (IH (tail t)) as (H1 & H2 & H3). cbn.
      rewrite (proj2 (Z.eqb_neq _ _) E), H1. split_and!; [done|lia|by right].
Qed.

Lemma cstr_app_nul s s' : 0 ∈ s -> cstr (s ++ s') = cstr s.
Proof.
  induction s as [|c s IH]; intros H; [by apply not_elem_of_nil in H|]. cbn.
  destruct (Z.eqb_spec c 0) as [->|Hc]; [done|]. f_equal. apply IH.
  apply elem_of_cons in H as [?|?]; [congruence|done].
Qed.

(** [strncpy] and [safestrcpy] into a buffer of [n] bytes never write past
    it.  [strncpy] stores the string padded with zeros, cut at [n] (and then
    unterminated); [safestrcpy] stores the string cut at [n - 1] bytes and
    always leaves a terminated string. *)
Theorem string_copies_bounded s t n :
  length s = n -> (0 < n)%nat ->
  length (strncpy s t n) = n /\ strncpy s t n = take n (cstr t ++ replicate n 0) /\
  length (safestrcpy s t n) = n /\ cstr (safestrcpy s t n) = take (n - 1) (cstr t) /\
  0 ∈ safestrcpy s t n.
Proof.
  intros Hs Hn. destruct n as [|n]; [lia|].
  destruct (safestrcpy_out_spec t n) as (H1 & H2 & H3).
  replace (S n - 1)%nat with n by lia. unfold strncpy, safestrcpy.
  split_and!.
  - rewrite length_app, strncpy_out_length, length_drop. lia.
  - rewrite drop_ge, app_nil_r by lia. apply strncpy_out_spec.
  - rewrite length_app, length_drop. lia.
  - by rewrite cstr_app_nul, H1.
  - apply elem_of_app. by left.
Qed.

Lemma string_copies_bounded_witness :
  safestrcpy [9; 9; 9] [104; 105; 106; 107] 3 = [104; 105; 0] /\
  length (strncpy [9; 9; 9] [104; 105; 106; 107] 3) = 3%nat.
Proof.
  split; [reflexivity|].
  apply (string_copies_bounded [9; 9; 9] [104; 105; 106; 107] 3); [reflexivity|lia].
Defined.

(** [strncmp] decides equality of names of at most [n] bytes. *)
Lemma strncmp_eq p q n :
  Forall (fun c => 0 <= c < 256) p -> Forall (fun c => 0 <= c < 256) q ->
  strncmp p q n = 0 <-> take n (cstr p) = take n (cstr q).
Proof.
  assert (forall t, Forall (fun c => 0 <= c < 256) t -> 0 <= char0 t < 256) as Hc0.
  { intros t Ht. destruct Ht; cbn; [lia|done]. }
  assert (forall t : list Z, Forall (fun c => 0 <= c < 256) t -> Forall (fun c => 0 <= c < 256) (tail t)) as Htl.
  { intros t Ht. by destruct Ht. }
  revert p q. induction n as [|n IH]; intros p q Hp Hq; [by rewrite !take_0|].
  cbn [strncmp]. pose proof (Hc0 p Hp). pose proof (Hc0 q Hq). rewrite !u8_id by done.
  rewrite (cstr_char0 p), (cstr_char0 q).
  destruct (Z.eqb_spec (char0 p) 0) as [E0|E0], (Z.eqb_spec (char0 p) (char0 q)) as [E1|E1];
    cbn [negb andb].
  - rewrite <- E1, E0. cbn. split; [done|lia].
  - destruct (Z.eqb_spec (char0 q) 0); [lia|]. split; [lia|done].
  - rewrite <- E1. rewrite (proj2 (Z.eqb_neq _ _) E0). cbn. rewrite IH by auto.
    split; [by intros ->|by intros [=]].
  - destruct (Z.eqb_spec (char0 q) 0) as [Eq|Eq]; split; try lia; cbn; [done|congruence].
Qed.
