(* ===== verification/Ulib.v ===== *)
(** * The user library (user/ulib.c)

    The string functions take the bytes from a pointer on, as a list (a byte
    past the end of a list reads as 0); a store past the end of a buffer is
    [None].  The system call [read] is the kernel's: how many bytes a call
    delivers is a parameter. *)

From S2P Require Import Prelude KString.

(** ** Reading from a file

    [delivered inp n]: what [read] returns for a request of [n] bytes from a
    file that has [inp] left.  It may be less than both (a pipe, the console),
    but not nothing before the end of the file. *)

Class Reads : Type := delivered : list Z -> Z -> Z.
Class ReadsOk (R : Reads) : Prop := {
  reads_some : forall inp n, inp <> [] -> 0 < n -> 0 < delivered inp n <= Z.min n (Z.of_nat (length inp));
  reads_end : forall inp n, inp = [] \/ n = 0 -> delivered inp n = 0
}.

(** ** Strings and buffers *)

Definition c_nl : Z := 10.
Definition c_cr : Z := 13.

(** [buf[i] = c] in an array. *)
Definition set_at (buf : list Z) (i : nat) (c : Z) : option (list Z) :=
  if (i <? length buf)%nat then Some (<[i := u8 c]> buf) else None.

Fixpoint strcpy (s t : list Z) : option (list Z) :=
  match s, t with
  | [], _ => None
  | _ :: s', [] => Some (0 :: s')
  | _ :: s', c :: t' => if c =? 0 then Some (0 :: s') else cons c <$> strcpy s' t'
  end.

Fixpoint strcmp (p q : list Z) : Z :=
  match p with
  | [] => - u8 (char0 q)
  | c :: p' => if negb (c =? 0) && (c =? char0 q) then strcmp p' (tail q) else u8 c - u8 (char0 q)
  end.

(** The offset of the first [c], [None] for the null pointer. *)
Fixpoint strchr (s : list Z) (c : Z) : option nat :=
  match s with
  | [] => None
  | x :: s' => if x =? 0 then None else if x =? c then Some O else S <$> strchr s' c
  end.

Definition umemset (dst : list Z) (c : Z) (n : nat) : option (list Z) :=
  if (n <=? length dst)%nat then Some (replicate n (u8 c) ++ drop n dst) else None.

(** [gets] takes one byte at a time from the console, whose input is [inp];
    [i] bytes are stored already. *)
Section gets.
Context {R : Reads}.

Fixpoint gets_loop (fuel : nat) (buf : list Z) (i : nat) (max : Z) (inp : list Z) : option (list Z * nat * list Z) :=
  match fuel with
  | O => None
  | S fuel' =>
      if Z.of_nat i + 1 <? max then
        if delivered inp 1 <? 1 then Some (buf, i, inp)
        else match inp with
             | [] => None
             | c :: inp' =>
                 buf ← set_at buf i c;
                 if (c =? c_nl) || (c =? c_cr) then Some (buf, S i, inp') else gets_loop fuel' buf (S i) max inp'
             end
      else Some (buf, i, inp)
  end.
Definition gets (buf : list Z) (max : Z) (inp : list Z) : option (list Z * list Z) :=
  '(buf, i, inp) ← gets_loop (S (length inp)) buf 0 max inp; buf ← set_at buf i 0; Some (buf, inp).
End gets.

Fixpoint atoi_loop (s : list Z) (n : Z) : Z :=
  match s with
  | [] => n
  | c :: s' => if (48 <=? c) && (c <=? 57) then atoi_loop s' (i32 (n * 10 + c - 48)) else n
  end.
Definition atoi (s : list Z) : Z := atoi_loop s 0.

(** The user library compares only [src > dst]. *)
Definition umemmove (m : bytes) (vdst vsrc : Z) (n : nat) : bytes :=
  if vdst <? vsrc then copy_up n m vdst vsrc else copy_down n m (vdst + Z.of_nat n) (vsrc + Z.of_nat n).

(** ** Proofs *)

Lemma umemmove_spec m dst src n a :
  is_byte_mem m -> umemmove m dst src n a = if (dst <=? a) && (a <? dst + Z.of_nat n) then m (src + (a - dst)) else m a.
Proof.
  intros Hm. unfold umemmove. destruct (Z.ltb_spec dst src).
  - apply copy_up_spec; [done|lia].
  - rewrite copy_down_spec by (done || lia). replace (dst + Z.of_nat n - Z.of_nat n) with dst by lia.
    by replace (src + Z.of_nat n + (a - (dst + Z.of_nat n))) with (src + (a - dst)) by lia.
Qed.

Lemma strchr_Some s c d : strchr s c = Some d -> s !! d = Some c /\ (forall x, x ∈ take d s -> x <> c /\ x <> 0) /\ c <> 0.
Proof.
  revert d. induction s as [|x s IH]; intros d; cbn [strchr]; [done|]. destruct (Z.eqb_spec x 0) as [->|Hx]; [done|].
  destruct (Z.eqb_spec x c) as [->|Hc].
  - intros [= <-]. split_and!; [done| |done]. intros y Hy. by apply not_elem_of_nil in Hy.
  - destruct (strchr s c) as [d'|] eqn:E; cbn; [|done]. intros [= <-]. destruct (IH d' eq_refl) as (H1 & H2 & H3).
    split_and!; [done| |done]. cbn. intros y [->|Hy]%elem_of_cons; [done|by apply H2].
Qed.

Lemma strchr_app s1 c s2 : c <> 0 -> (forall x, x ∈ s1 -> x <> c /\ x <> 0) -> strchr (s1 ++ c :: s2) c = Some (length s1).
Proof.
  intros Hc. induction s1 as [|x s1 IH]; intros H; cbn [strchr app length].
  - by rewrite (proj2 (Z.eqb_neq _ _) Hc), Z.eqb_refl.
  - destruct (H x ltac:(left)) as [Hx H0]. rewrite (proj2 (Z.eqb_neq _ _) Hx), (proj2 (Z.eqb_neq _ _) H0), IH; [done|].
    intros y Hy. apply H. by right.
Qed.

Lemma strchr_None s1 c s2 : (forall x, x ∈ s1 -> x <> c) -> strchr (s1 ++ 0 :: s2) c = None.
Proof.
  induction s1 as [|x s1 IH]; intros H; [done|]. cbn [strchr app]. destruct (x =? 0); [done|].
  rewrite (proj2 (Z.eqb_neq _ _) (H x ltac:(left))), IH; [done|]. intros y Hy. apply H. by right.
Qed.
