(* ===== verification/Grep.v ===== *)
(** * The pattern matcher and the line filter (user/grep.c)

    Patterns and texts are strings, as the lists of their characters up to the
    terminator.  The matcher is compared with the language that a pattern
    denotes, the filter with the lines of its input, however the input arrives
    in pieces. *)

From S2P Require Import Prelude KString Ulib.

Definition c_caret : Z := 94.
Definition c_dollar : Z := 36.
Definition c_dot : Z := 46.
Definition c_star : Z := 42.

(** ** The matcher *)

(** The do-while loop of [matchstar]; [here] is [matchhere] of the rest of the
    pattern. *)
Fixpoint matchstar (here : list Z -> bool) (c : Z) (text : list Z) : bool :=
  here text ||
  match text with
  | [] => false
  | t :: text' => ((t =? c) || (c =? c_dot)) && matchstar here c text'
  end.

Fixpoint matchhere (re text : list Z) : bool :=
  match re with
  | [] => true
  | c :: re1 =>
      let one :=
        if (c =? c_dollar) && match re1 with [] => true | _ => false end then match text with [] => true | _ => false end
        else match text with
             | [] => false
             | t :: text' => ((c =? c_dot) || (c =? t)) && matchhere re1 text'
             end in
      match re1 with
      | s :: re2 => if s =? c_star then matchstar (matchhere re2) c text else one
      | [] => one
      end
  end.

(** The loop of [match]: the pattern may begin at any position. *)
Fixpoint match_from (re text : list Z) : bool :=
  matchhere re text || match text with [] => false | _ :: text' => match_from re text' end.

Definition rmatch (re text : list Z) : bool :=
  match re with
  | c :: re' => if c =? c_caret then matchhere re' text else match_from re text
  | [] => match_from re text
  end.

(** ** The filter *)

Definition GREP_BUF : nat := 1024.

Section grep.
Context {R : Reads}.

(** The loop over the complete lines of the buffer, from [p] on. *)
Fixpoint grep_lines (fuel : nat) (pattern buf : list Z) (p : nat) (out : list Z) : option (list Z * nat * list Z) :=
  match fuel with
  | O => None
  | S fuel' =>
      match strchr (drop p buf) c_nl with
      | None => Some (buf, p, out)
      | Some d =>
          let q := (p + d)%nat in
          let buf0 := <[q := 0]> buf in
          if rmatch pattern (cstr (drop p buf0)) then
            let buf1 := <[q := c_nl]> buf0 in
            grep_lines fuel' pattern buf1 (q + 1) (out ++ take (q + 1 - p) (drop p buf1))
          else grep_lines fuel' pattern buf0 (q + 1) out
      end
  end.

(** The loop over the calls of [read]; [m] bytes of the buffer are an
    incomplete line.  The last step is the [memmove] of what is left to the
    start of the buffer. *)
Fixpoint grep_loop (fuel : nat) (pattern inp buf : list Z) (m : nat) (out : list Z) : option (list Z) :=
  match fuel with
  | O => None
  | S fuel' =>
      let n := delivered inp (Z.of_nat GREP_BUF - Z.of_nat m - 1) in
      if 0 <? n then
        let c := take (Z.to_nat n) inp in
        let buf := take m buf ++ c ++ drop (m + length c) buf in
        let m := (m + Z.to_nat n)%nat in
        let buf := <[m := 0]> buf in
        '(buf, p, out) ← grep_lines (S GREP_BUF) pattern buf 0 out;
        let '(buf, m) := if (0 <? m)%nat then let m := (m - p)%nat in (take m (drop p buf) ++ drop m buf, m) else (buf, m) in
        grep_loop fuel' pattern (drop (Z.to_nat n) inp) buf m out
      else Some out
  end.

Definition grep (pattern inp : list Z) : option (list Z) :=
  grep_loop (S (length inp)) pattern inp (replicate GREP_BUF 0) 0 [].
End grep.

(** ** What a pattern denotes *)

Inductive atom : Type := Char (c : Z) | AnyChar.
Inductive piece : Type := One (a : atom) | Star (a : atom) | AtEnd.

Definition atom_of (c : Z) : atom := if c =? c_dot then AnyChar else Char c.
Definition is_atom (a : atom) (t : Z) : Prop := match a with Char c => t = c | AnyChar => True end.

(** The pieces of a pattern: a character followed by a star is repeated, a
    dollar sign at the end stands for the end of the text. *)
Fixpoint pieces (re : list Z) : list piece :=
  match re with
  | [] => []
  | c :: re1 =>
      let one := (if (c =? c_dollar) && match re1 with [] => true | _ => false end then AtEnd else One (atom_of c)) :: pieces re1 in
      match re1 with
      | s :: re2 => if s =? c_star then Star (atom_of c) :: pieces re2 else one
      | [] => one
      end
  end.

(** [w], followed by [r] in the text, is an instance of the piece. *)
Definition denotes (p : piece) (w r : list Z) : Prop :=
  match p with
  | One a => exists t, w = [t] /\ is_atom a t
  | Star a => Forall (is_atom a) w
  | AtEnd => w = [] /\ r = []
  end.
Fixpoint denotes_all (ps : list piece) (w r : list Z) : Prop :=
  match ps with
  | [] => w = []
  | p :: ps' => exists w1 w2, w = w1 ++ w2 /\ denotes p w1 (w2 ++ r) /\ denotes_all ps' w2 r
  end.

(** The text begins with, or contains, an instance of the pattern. *)
Definition begins_with (re text : list Z) : Prop := exists w r, text = w ++ r /\ denotes_all (pieces re) w r.
Definition instance_in (re text : list Z) : Prop :=
  match re with
  | c :: re' => if c =? c_caret then begins_with re' text else exists a b, text = a ++ b /\ begins_with re b
  | [] => exists a b, text = a ++ b /\ begins_with re b
  end.

(** ** The matcher is right *)

Lemma is_atom_of c t : is_atom (atom_of c) t <-> (t =? c) || (c =? c_dot) = true.
Proof. unfold atom_of, is_atom. destruct (Z.eqb_spec c c_dot); split; intros H; try done; lia. Qed.

Lemma matchstar_spec here c text :
  matchstar here c text = true <-> exists w r, text = w ++ r /\ Forall (is_atom (atom_of c)) w /\ here r = true.
Proof.
  induction text as [|t text IH]; cbn [matchstar]; rewrite orb_true_iff.
  - split; [intros [H|H]; [by exists [], []|done]|]. intros (w & r & E & _ & H). symmetry in E. apply app_eq_nil in E as [-> ->]. by left.
  - rewrite andb_true_iff, IH, <- is_atom_of. split.
    + intros [H|[H (w & r & -> & Hw & Hr)]]; [by exists [], (t :: text)|]. exists (t :: w), r. split_and!; [done|by constructor|done].
    + intros ([|t' w] & r & E & Hw & Hr); [left; by rewrite E|]. right. injection E as <- ->. inversion Hw; subst.
      split; [done|]. by exists w, r.
Qed.

Lemma begins_with_nil text : begins_with [] text.
Proof. by exists [], text. Qed.

Lemma begins_with_star c re text :
  begins_with (c :: c_star :: re) text <-> exists w r, text = w ++ r /\ Forall (is_atom (atom_of c)) w /\ begins_with re r.
Proof.
  unfold begins_with. cbn. split.
  - intros (w & r & -> & w1 & w2 & -> & H1 & H2). exists w1, (w2 ++ r). rewrite app_assoc. split_and!; [done|done|by exists w2, r].
  - intros (w1 & r' & -> & H1 & w2 & r & -> & H2). exists (w1 ++ w2), r. rewrite app_assoc. split; [done|]. by exists w1, w2.
Qed.

Lemma begins_with_one c re text : char0 re <> c_star -> ~ (c = c_dollar /\ re = []) ->
  begins_with (c :: re) text <-> exists t r, text = t :: r /\ is_atom (atom_of c) t /\ begins_with re r.
Proof.
  intros Hs Hd. assert (pieces (c :: re) = One (atom_of c) :: pieces re) as Ep.
  { cbn [pieces]. destruct re as [|s re].
    - destruct (Z.eqb_spec c c_dollar); [by exfalso; apply Hd|done].
    - rewrite andb_false_r. destruct (Z.eqb_spec s c_star); [done|done]. }
  unfold begins_with. rewrite Ep. cbn. split.
  - intros (w & r & -> & w1 & w2 & -> & (t & -> & Ht) & H2). exists t, (w2 ++ r). split_and!; [done|done|by exists w2, r].
  - intros (t & r' & -> & Ht & w2 & r & -> & H2). exists (t :: w2), r. split; [done|]. exists [t], w2. split_and!; [done|by exists t|done].
Qed.

Lemma begins_with_end text : begins_with [c_dollar] text <-> text = [].
Proof.
  unfold begins_with. cbn. split.
  - intros (w & r & -> & w1 & w2 & -> & [-> H2] & ->). by rewrite app_nil_l in *.
  - intros ->. exists [], []. split; [done|]. by exists [], [].
Qed.

Lemma matchhere_spec re text : matchhere re text = true <-> begins_with re text.
Proof.
  revert text. induction re as [re IH] using (induction_ltof1 _ (@length Z)). unfold ltof in IH. intros text.
  destruct re as [|c re1]; [split; [intros _; apply begins_with_nil|done]|]. cbn [matchhere].
  destruct (decide (char0 re1 = c_star)) as [Hs|Hs].
  - destruct re1 as [|s re2]; [done|]. cbn in Hs. subst s. rewrite Z.eqb_refl, matchstar_spec, begins_with_star.
    split; intros (w & r & -> & Hw & Hr); exists w, r; (split_and!; [done|done|]); (apply IH; [cbn; lia|done]).
  - assert (matchhere (c :: re1) text = (if (c =? c_dollar) && match re1 with [] => true | _ => false end
      then match text with [] => true | _ => false end
      else match text with [] => false | t :: text' => ((c =? c_dot) || (c =? t)) && matchhere re1 text' end)) as E.
    { destruct re1 as [|s re2]; [done|]. cbn [matchhere]. cbn in Hs. by rewrite (proj2 (Z.eqb_neq _ _) Hs). }
    cbn [matchhere] in E. rewrite E. clear E. destruct (decide (c = c_dollar /\ re1 = [])) as [[-> ->]|Hd].
    + rewrite begins_with_end. by destruct text.
    + rewrite begins_with_one by done. replace ((c =? c_dollar) && match re1 with [] => true | _ => false end) with false
        by (destruct re1, (Z.eqb_spec c c_dollar); try done; by exfalso; apply Hd).
      destruct text as [|t text']; [split; [done|by intros (t & r & [=] & _)]|].
      rewrite andb_true_iff, IH by (cbn; lia). rewrite orb_comm, (Z.eqb_sym c t), <- is_atom_of. split.
      * intros [H1 H2]. by exists t, text'.
      * intros (t' & r & [= <- <-] & H1 & H2). done.
Qed.

Lemma match_from_spec re text : match_from re text = true <-> exists a b, text = a ++ b /\ begins_with re b.
Proof.
  induction text as [|t text IH]; cbn [match_from]; rewrite orb_true_iff, matchhere_spec.
  - split; [intros [H|H]; [by exists [], []|done]|]. intros (a & b & E & H). symmetry in E. apply app_eq_nil in E as [-> ->]. by left.
  - rewrite IH. split.
    + intros [H|(a & b & -> & H)]; [by exists [], (t :: text)|by exists (t :: a), b].
    + intros ([|t' a] & b & E & H); cbn in E; [left; by rewrite E|]. injection E as <- ->. right. by exists a, b.
Qed.

(** C19: [match] finds the pattern exactly when the text contains an instance of
    it (at its beginning, when the pattern starts with a caret): the
    backtracking matcher decides the language that the operators caret, dot,
    star and dollar denote. *)
Theorem match_decides re text : rmatch re text = true <-> instance_in re text.
Proof.
  unfold rmatch, instance_in. destruct re as [|c re]; [apply match_from_spec|].
  destruct (c =? c_caret); [apply matchhere_spec|apply match_from_spec].
Qed.

(** ** The filter is right *)

Definition line_end (l : list Z) : list Z := l ++ [c_nl].
Definition lines_text (ls : list (list Z)) : list Z := concat (line_end <$> ls).

(** A line that fits the buffer with its end: no terminator, no newline. *)
Definition line_ok (l : list Z) : Prop := (c_nl ∉ l) /\ (0 ∉ l) /\ (length l < GREP_BUF - 1)%nat.
(** What follows the lines that fit: an unfinished line, or one too long. *)
Definition rest_ok (rest : list Z) : Prop := (c_nl ∉ take (GREP_BUF - 1) rest) /\ 0 ∉ rest.

Definition matching (pattern : list Z) (ls : list (list Z)) : list (list Z) := filter (fun l => rmatch pattern l = true) ls.

Lemma lines_text_app ls1 ls2 : lines_text (ls1 ++ ls2) = lines_text ls1 ++ lines_text ls2.
Proof. unfold lines_text. by rewrite fmap_app, concat_app. Qed.
Lemma matching_cons pattern l ls :
  lines_text (matching pattern (l :: ls)) = (if rmatch pattern l then line_end l else []) ++ lines_text (matching pattern ls).
Proof.
  unfold matching, lines_text. rewrite filter_cons. destruct (decide _) as [E|E]; [by rewrite E|]. apply not_true_is_false in E. by rewrite E.
Qed.

Lemma not_in_cstr (l r : list Z) : (0 ∉ l) -> cstr (l ++ 0 :: r) = l.
Proof.
  induction l as [|c l IH]; intros H; [done|]. cbn. apply not_elem_of_cons in H as [H1 H2].
  rewrite (proj2 (Z.eqb_neq _ _) (not_eq_sym H1)). by rewrite IH.
Qed.

Lemma grep_lines_spec pattern ls A tail rest out fuel :
  (forall l, l ∈ ls -> (c_nl ∉ l) /\ 0 ∉ l) -> (c_nl ∉ tail) -> (length ls < fuel)%nat ->
  exists A', length A' = (length A + length (lines_text ls))%nat /\
    grep_lines fuel pattern (A ++ lines_text ls ++ tail ++ 0 :: rest) (length A) out =
      Some (A' ++ tail ++ 0 :: rest, length A', out ++ lines_text (matching pattern ls)).
Proof.
  revert A out fuel. induction ls as [|l ls IH]; intros A out [|fuel] Hls Ht Hf; try (cbn in Hf; lia).
  - exists A. change (lines_text (matching pattern [])) with (@nil Z). change (lines_text []) with (@nil Z). cbn [length grep_lines app]. split; [lia|].
    rewrite drop_app_length, strchr_None; [by rewrite app_nil_r|]. intros x Hx ->. done.
  - destruct (Hls l ltac:(left)) as [Hn H0]. rewrite matching_cons. change (lines_text (l :: ls)) with ((l ++ [c_nl]) ++ lines_text ls).
    set (t := tail ++ 0 :: rest). cbn [grep_lines]. rewrite drop_app_length, <- !app_assoc. cbn [app].
    rewrite strchr_app; [|done|by intros x Hx; split; intros ->].
    assert (forall c, <[(length A + length l)%nat := c]> (A ++ l ++ c_nl :: lines_text ls ++ t) = A ++ l ++ c :: lines_text ls ++ t) as Eins.
    { intros c. rewrite insert_app_r. rewrite <- (Nat.add_0_r (length l)), insert_app_r. done. }
    rewrite Eins, drop_app_length, not_in_cstr by done.
    assert (forall c, <[(length A + length l)%nat := c_nl]> (A ++ l ++ c :: lines_text ls ++ t) = A ++ l ++ c_nl :: lines_text ls ++ t) as Eback.
    { intros c. rewrite insert_app_r. rewrite <- (Nat.add_0_r (length l)), insert_app_r. done. }
    rewrite Eback, drop_app_length.
    assert (forall c, A ++ l ++ c :: lines_text ls ++ t = (A ++ l ++ [c]) ++ lines_text ls ++ t) as Esplit by (intros c; by rewrite <- !app_assoc).
    assert (forall c, (length A + length l + 1)%nat = length (A ++ l ++ [c])) as Elen by (intros c; rewrite !length_app; cbn; lia).
    destruct (rmatch pattern l).
    + rewrite (Elen c_nl), Esplit. edestruct (IH (A ++ l ++ [c_nl])) as (A' & L' & E); [|done| |].
      { intros l' Hl'. apply Hls. by right. } { cbn in Hf. apply Nat.succ_lt_mono, Hf. }
      exists A'. split; [rewrite L', !length_app; cbn; lia|]. unfold t. rewrite E. do 2 f_equal. rewrite <- app_assoc. f_equal.
      replace (length (A ++ l ++ [c_nl]) - length A)%nat with (length (line_end l)) by (unfold line_end; rewrite !length_app; lia).
      change (l ++ c_nl :: lines_text ls ++ tail ++ 0 :: rest) with (l ++ [c_nl] ++ lines_text ls ++ tail ++ 0 :: rest).
      rewrite app_assoc. f_equal. apply (take_app_length (line_end l)).
    + rewrite (Elen 0), Esplit. edestruct (IH (A ++ l ++ [0])) as (A' & L' & E); [|done| |].
      { intros l' Hl'. apply Hls. by right. } { cbn in Hf. apply Nat.succ_lt_mono, Hf. }
      exists A'. split; [rewrite L', !length_app; cbn; lia|]. unfold t. by rewrite E.
Qed.

(** A piece [w] of the input that fits the buffer holds some of the lines and
    the beginning of the next. *)
Lemma split_piece ls rest w v :
  (forall l, l ∈ ls -> line_ok l) -> rest_ok rest -> w ++ v = lines_text ls ++ rest -> (length w < GREP_BUF)%nat ->
  exists ls1 ls2 tail, ls = ls1 ++ ls2 /\ w = lines_text ls1 ++ tail /\ (c_nl ∉ tail) /\ tail ++ v = lines_text ls2 ++ rest.
Proof.
  intros Hls [Hr _]. revert w. induction ls as [|l ls IH]; intros w E Hw.
  - exists [], [], w. split_and!; [done|done| |done]. intros Hin. apply Hr. change (lines_text []) with (@nil Z) in E. cbn in E.
    rewrite <- E, take_app_ge by lia. apply elem_of_app. by left.
  - change (lines_text (l :: ls)) with ((l ++ [c_nl]) ++ lines_text ls) in *. destruct (Hls l ltac:(left)) as (Hn & _ & Hl).
    destruct (decide (length w <= length l)%nat) as [Hle|Hgt].
    + exists [], (l :: ls), w. split_and!; [done|done| |done]. intros Hin. apply Hn.
      assert (w = take (length w) l) as Ew; [|rewrite Ew in Hin; apply elem_of_take in Hin as (y & Hy & _); by eapply list_elem_of_lookup_2].
      transitivity (take (length w) (w ++ v)); [by rewrite take_app_length|]. rewrite E, <- !app_assoc. by rewrite take_app_le.
    + assert (w = (l ++ [c_nl]) ++ drop (S (length l)) w) as Ew.
      { transitivity (take (S (length l)) w ++ drop (S (length l)) w); [by rewrite take_drop|]. f_equal. rewrite <- (take_app_le w v) by lia. rewrite E, <- !app_assoc.
        replace (S (length l)) with (length (l ++ [c_nl])) by (rewrite length_app; cbn; lia). rewrite app_assoc. apply take_app_length. }
      rewrite Ew in E. rewrite <- !(app_assoc (l ++ [c_nl])) in E. apply app_inv_head in E.
      destruct (IH (fun l' Hl' => Hls l' ltac:(by right)) (drop (S (length l)) w) E) as (ls1 & ls2 & tail & -> & E1 & H1 & H2); [rewrite length_drop; lia|].
      exists (l :: ls1), ls2, tail. split_and!; [done| |done|done]. rewrite Ew, E1.
      change (lines_text (l :: ls1)) with ((l ++ [c_nl]) ++ lines_text ls1). apply app_assoc.
Qed.

Section filter.
Context {R : Reads} {HR : ReadsOk R}.

Lemma grep_loop_spec pattern fuel inp pre buf' ls rest out :
  (length inp < fuel)%nat -> (forall l, l ∈ ls -> line_ok l) -> rest_ok rest -> (c_nl ∉ pre) ->
  (length pre < GREP_BUF)%nat -> length (pre ++ buf') = GREP_BUF -> pre ++ inp = lines_text ls ++ rest ->
  grep_loop fuel pattern inp (pre ++ buf') (length pre) out = Some (out ++ lines_text (matching pattern ls)).
Proof.
  revert inp pre buf' ls out. induction fuel as [|fuel IH]; intros inp pre buf' ls out Hf Hls Hr Hpre Hp Hb E; [lia|].
  cbn [grep_loop]. set (req := Z.of_nat GREP_BUF - Z.of_nat (length pre) - 1).
  destruct (decide (inp = [] \/ req = 0)) as [Hend|Hmore].
  - rewrite (reads_end inp req Hend). cbn [Z.ltb Z.compare]. assert (ls = []) as ->; [|by rewrite app_nil_r].
    destruct ls as [|l ls]; [done|]. exfalso. destruct (Hls l ltac:(left)) as (_ & _ & Hl).
    change (lines_text (l :: ls)) with ((l ++ [c_nl]) ++ lines_text ls) in E. rewrite <- !app_assoc in E.
    apply Hpre. assert (pre !! length l = Some c_nl) as Hx; [|by eapply list_elem_of_lookup_2].
    assert (length l < length pre)%nat as Hlt.
    { destruct Hend as [->|Hreq]; [|unfold req in Hreq; lia]. rewrite app_nil_r in E. rewrite E, !length_app. cbn. lia. }
    rewrite <- (lookup_app_l pre inp) by done. rewrite E. rewrite lookup_app_r, Nat.sub_diag by lia. done.
  - destruct (reads_some inp req) as [Hn1 Hn2]; [tauto|unfold req in *; lia|].
    set (n := Z.to_nat (delivered inp req)). assert ((0 <? delivered inp req) = true) as -> by lia.
    assert (length (take n inp) = n) as Hc by (rewrite length_take; lia).
    assert ((length pre + n < GREP_BUF)%nat /\ (0 < n)%nat) as [Hfit Hpos] by (unfold req in *; lia).
    rewrite take_app_length, Hc. set (c := take n inp) in *.
    assert (<[(length pre + n)%nat := 0]> (pre ++ c ++ drop (length pre + n) (pre ++ buf')) = (pre ++ c) ++ 0 :: drop (S (length pre + n)) (pre ++ buf')) as ->.
    { destruct (drop (length pre + n) (pre ++ buf')) as [|y ys] eqn:Ed; [apply (f_equal length) in Ed; rewrite length_drop in Ed; cbn in Ed; lia|].
      rewrite app_assoc. replace (length pre + n)%nat with (length (pre ++ c) + 0)%nat at 1 by (rewrite length_app; lia).
      rewrite insert_app_r. cbn. do 2 f_equal. change ys with (drop 1 (y :: ys)). rewrite <- Ed, drop_drop. f_equal. lia. }
    set (after := drop (S (length pre + n)) (pre ++ buf')).
    assert (length (pre ++ c) < GREP_BUF)%nat as Hw by (rewrite length_app; lia).
    destruct (split_piece ls rest (pre ++ c) (drop n inp)) as (ls1 & ls2 & tail & -> & Ew & Ht & Ev); [done|done| |done|].
    { unfold c. by rewrite <- app_assoc, take_drop. }
    rewrite Ew, <- app_assoc. edestruct (grep_lines_spec pattern ls1 [] tail after out (S GREP_BUF)) as (A' & LA & EG); [| done| |].
    { intros l Hl. destruct (Hls l) as (? & ? & _); [|done]. apply elem_of_app. by left. }
    { assert (length ls1 <= length (lines_text ls1))%nat as Hlines; [|rewrite Ew, length_app in Hw; lia].
      clear. induction ls1 as [|l ls1 IH]; [done|]. change (lines_text (l :: ls1)) with ((l ++ [c_nl]) ++ lines_text ls1).
      rewrite !length_app. cbn in *. lia. }
    cbn [length app Nat.add] in EG, LA. rewrite EG. cbn [mbind option_bind]. assert ((0 <? length pre + n)%nat = true) as -> by lia.
    assert (length pre + n - length A' = length tail)%nat as ->.
    { rewrite LA. apply (f_equal length) in Ew. rewrite !length_app, Hc in Ew. lia. }
    rewrite drop_app_length, take_app_length. unfold matching. rewrite filter_app, lines_text_app, (app_assoc out).
    apply IH; [rewrite length_drop; lia| |done|done| | |done].
    + intros l Hl. apply Hls. apply elem_of_app. by right.
    + rewrite Ew, length_app in Hw. lia.
    + rewrite length_app, length_drop, !length_app. cbn [length]. unfold after. rewrite length_drop, Hb.
      apply (f_equal length) in Ew. rewrite !length_app, Hc in Ew. rewrite LA. lia.
Qed.
End filter.


(** One byte at a time. *)
#[export] Instance bytewise : Reads := fun inp n => match inp with [] => 0 | _ => Z.min n 1 end.
#[export] Instance bytewise_ok : ReadsOk bytewise.
Proof.
  split; intros inp n; unfold delivered, bytewise.
  - intros Hi Hn. destruct inp; [done|]. cbn [length]. lia.
  - intros [-> | ->]; [done|]. by destruct inp.
Qed.

