(* ===== verification/Umalloc.v ===== *)
(** * The user memory allocator (user/umalloc.c)

    The memory is a map from addresses to the headers stored there; a block of
    [size] units is its header and [size - 1] units of 16 bytes for the caller.
    The free blocks form a circular list in the order of their addresses,
    starting at the static header [base], which lies below the heap.  How far
    the kernel lets the break move is a parameter. *)

From S2P Require Import Prelude.

Definition UNIT : Z := 16.    (* sizeof(Header) *)

Record header : Type := mk_header { h_ptr : Z; h_size : Z }.

Record heap : Type := mk_heap {
  hmem : gmap Z header;
  freep : Z;
  brk : Z
}.
Definition set_freep (v : Z) (h : heap) : heap := mk_heap (hmem h) v (brk h).

(** [p->s], [p->s.ptr = v], [p->s.size = v]; a pointer to no header faults. *)
Definition at_ptr (p : Z) (h : heap) : option header := hmem h !! p.
Definition set_ptr (p v : Z) (h : heap) : option heap :=
  x ← at_ptr p h; Some (mk_heap (<[p := mk_header v (h_size x)]> (hmem h)) (freep h) (brk h)).
Definition set_size (p v : Z) (h : heap) : option heap :=
  x ← at_ptr p h; Some (mk_heap (<[p := mk_header (h_ptr x) (u32 v)]> (hmem h)) (freep h) (brk h)).

(** The kernel's answer to [sbrk n] when the break is [b]. *)
Class Sbrk : Type := grants : Z -> Z -> bool.
(** Memory is limited, so the break of a process stays an [int]; the program's
    data lies below its heap. *)
Class SbrkOk (K : Sbrk) : Prop := grants_below : forall b n, 0 <= n -> grants b n = true -> b + n < 2 ^ 31.

Section umalloc.
Context {K : Sbrk} (base : Z).

(** The loop of [free]: where in the list the block [bp] belongs. *)
Fixpoint free_find (fuel : nat) (bp p : Z) (h : heap) : option Z :=
  match fuel with
  | O => None
  | S fuel' =>
      x ← at_ptr p h;
      let next := h_ptr x in
      if (p <? bp) && (bp <? next) then Some p
      else if (next <=? p) && ((p <? bp) || (bp <? next)) then Some p
      else free_find fuel' bp next h
  end.

(** The block [b] at [bp], behind [p]: it joins its successor if they touch,
    and then its predecessor. *)
Definition join_next (bp : Z) (x b : header) (h : heap) : option heap :=
  if bp + UNIT * h_size b =? h_ptr x then
    y ← at_ptr (h_ptr x) h;
    h ← set_size bp (h_size b + h_size y) h;
    set_ptr bp (h_ptr y) h
  else set_ptr bp (h_ptr x) h.
Definition join_prev (p bp : Z) (x b : header) (h : heap) : option heap :=
  if p + UNIT * h_size x =? bp then
    h ← set_size p (h_size x + h_size b) h;
    set_ptr p (h_ptr b) h
  else set_ptr p bp h.

Definition free (fuel : nat) (ap : Z) (h : heap) : option heap :=
  let bp := ap - UNIT in
  p ← free_find fuel bp (freep h) h;
  x ← at_ptr p h;
  b ← at_ptr bp h;
  h ← join_next bp x b h;
  x ← at_ptr p h;
  b ← at_ptr bp h;
  h ← join_prev p bp x b h;
  Some (set_freep p h).

(** [sbrk] takes an [int]. *)
Definition sbrk (n : Z) (h : heap) : option Z * heap :=
  let n := i32 n in
  if grants (brk h) n then (Some (brk h), mk_heap (hmem h) (freep h) (brk h + n)) else (None, h).

(** [p->s.size = nu] where no header was before. *)
Definition new_header (p nu : Z) (h : heap) : heap :=
  mk_heap (<[p := mk_header (default 0 (h_ptr <$> hmem h !! p)) nu]> (hmem h)) (freep h) (brk h).

Definition morecore (fuel : nat) (nu : Z) (h : heap) : option (Z * heap) :=
  let nu := if nu <? 4096 then 4096 else nu in
  match sbrk (nu * UNIT) h with
  | (None, h) => Some (0, h)
  | (Some p, h) =>
      h ← free fuel (p + UNIT) (new_header p nu h);
      Some (freep h, h)
  end.

(** The block [p], found behind [prevp], is given out: whole, or its tail. *)
Definition malloc_take (nunits prevp p : Z) (h : heap) : option (Z * heap) :=
  x ← at_ptr p h;
  '(p, h) ← (if h_size x =? nunits then
               h ← set_ptr prevp (h_ptr x) h; Some (p, h)
             else
               h ← set_size p (h_size x - nunits) h;
               x ← at_ptr p h;
               let q := p + UNIT * h_size x in
               Some (q, new_header q nunits h));
  Some (p + UNIT, set_freep prevp h).

Fixpoint malloc_loop (fuel : nat) (nunits prevp p : Z) (h : heap) : option (Z * heap) :=
  match fuel with
  | O => None
  | S fuel' =>
      x ← at_ptr p h;
      if nunits <=? h_size x then malloc_take nunits prevp p h
      else if p =? freep h then
        '(p, h) ← morecore fuel' nunits h;
        if p =? 0 then Some (0, h)
        else x ← at_ptr p h; malloc_loop fuel' nunits p (h_ptr x) h
      else malloc_loop fuel' nunits p (h_ptr x) h
  end.

Definition units (nbytes : Z) : Z := u32 ((nbytes + UNIT - 1) / UNIT + 1).

(** The first call sets up the list. *)
Definition started (h : heap) : heap :=
  if freep h =? 0 then mk_heap (<[base := mk_header base 0]> (hmem h)) base (brk h) else h.

Definition malloc (fuel : nat) (nbytes : Z) (h : heap) : option (Z * heap) :=
  let nunits := units nbytes in
  let h := started h in
  x ← at_ptr (freep h) h;
  malloc_loop fuel nunits (freep h) (h_ptr x) h.

(** ** Invariant *)

(** Free blocks: address and size. *)
Abbreviation blocks := (list (Z * Z)).
Implicit Types (m : gmap Z header) (l F : blocks).

Definition hd_addr l (d : Z) : Z := match l with [] => d | (a, _) :: _ => a end.
Fixpoint linked m l (nxt : Z) : Prop :=
  match l with
  | [] => True
  | (a, sz) :: l' => m !! a = Some (mk_header (hd_addr l' nxt) sz) /\ linked m l' nxt
  end.
(** In order, with a gap in between. *)
Definition before (x y : Z * Z) : Prop := fst x + UNIT * snd x < fst y.
Definition apart (a s : Z) (b : Z * Z) : Prop := fst b + UNIT * snd b <= a \/ a + UNIT * s <= fst b.
Definition total F : Z := foldr (fun b n => snd b + n) 0 F.

(** The circular list: [base], then the free blocks of the heap. *)
Record flist m (fp b : Z) F : Prop := {
  fl_linked : linked m ((base, 0) :: F) base;
  fl_sorted : StronglySorted before ((base, 0) :: F);
  fl_in : Forall (fun x => 0 < snd x /\ fst x + UNIT * snd x <= b) F;
  fl_freep : exists sz, (fp, sz) ∈ (base, 0) :: F
}.

Lemma total_cons x F : total (x :: F) = snd x + total F.
Proof. done. Qed.
Lemma total_app F G : total (F ++ G) = total F + total G.
Proof. induction F as [|x F IH]; [done|]. cbn [app]. rewrite !total_cons, IH. lia. Qed.

Lemma linked_app m l1 l2 nxt : linked m (l1 ++ l2) nxt <-> linked m l1 (hd_addr l2 nxt) /\ linked m l2 nxt.
Proof.
  induction l1 as [|[a sz] l1 IH]; cbn [app linked]; [tauto|]. rewrite IH.
  replace (hd_addr (l1 ++ l2) nxt) with (hd_addr l1 (hd_addr l2 nxt)) by (by destruct l1 as [|[? ?] ?]). tauto.
Qed.
Lemma linked_ext m m' l nxt : (forall a sz, (a, sz) ∈ l -> m' !! a = m !! a) -> linked m l nxt -> linked m' l nxt.
Proof.
  induction l as [|[a sz] l IH]; intros H; [done|]. cbn. intros [H1 H2]. split.
  - rewrite (H a sz); [done|by left].
  - apply IH; [|done]. intros a' sz' Ha. apply (H a' sz'). by right.
Qed.
Lemma linked_lookup m l nxt a sz : linked m l nxt -> (a, sz) ∈ l -> exists v, m !! a = Some (mk_header v sz).
Proof.
  induction l as [|[a' sz'] l IH]; intros H Hin; [by apply not_elem_of_nil in Hin|]. destruct H as [H1 H2].
  apply elem_of_cons in Hin as [[= -> ->]|Hin]; [by eexists|by apply IH].
Qed.

(** The free blocks around a block that is apart from them. *)
Lemma split_at bp sz F :
  StronglySorted before F -> (forall x, x ∈ F -> apart bp sz x /\ 0 < snd x) -> 0 < sz ->
  exists F1 F2, F = F1 ++ F2 /\ (forall x, x ∈ F1 -> fst x + UNIT * snd x <= bp) /\ (forall x, x ∈ F2 -> bp + UNIT * sz <= fst x).
Proof.
  intros HS Ha Hsz. induction F as [|x F IH].
  - exists [], []. split_and!; [done|..]; intros x Hx; by apply not_elem_of_nil in Hx.
  - apply StronglySorted_cons in HS as [Hx HS]. rewrite Forall_forall in Hx. destruct (Ha x ltac:(left)) as [[Hlo|Hhi] Hp].
    + destruct IH as (F1 & F2 & -> & H1 & H2); [done|intros y Hy; apply Ha; by right|]. exists (x :: F1), F2.
      split_and!; [done| |done]. intros y [-> |Hy]%elem_of_cons; [done|by apply H1].
    + exists [], (x :: F). split_and!; [done|intros y Hy; by apply not_elem_of_nil in Hy|].
      intros y [-> |Hy]%elem_of_cons; [done|]. specialize (Hx y Hy). unfold before, UNIT in *. lia.
Qed.

(** The loop of [free] stops at the last block before [bp]. *)
Section find.
Context (h : heap) (bp : Z) (F2 : blocks).
Context (Hhi : forall x, x ∈ F2 -> bp < fst x) (Hbase : base < bp).

Lemma find_low X q sq Y p sp Z fuel : (q, sq) :: Y = Z ++ [(p, sp)] ->
  linked (hmem h) (X ++ (q, sq) :: Y ++ F2) base -> StronglySorted before ((q, sq) :: Y) ->
  (forall x, x ∈ (q, sq) :: Y -> base <= fst x < bp /\ 0 <= snd x) -> (length Y < fuel)%nat ->
  free_find fuel bp q h = Some p.
Proof.
  revert X q sq Z fuel. induction Y as [|[q' sq'] Y IH]; intros X q sq Z [|fuel] HZ HL HS Hlo Hf; try (cbn in Hf; lia);
    apply linked_app in HL as [HX HL]; destruct HL as [Hq HL]; cbn [free_find]; unfold at_ptr; rewrite Hq; cbn [mbind option_bind h_ptr];
    destruct (Hlo (q, sq) ltac:(left)) as [Hqb Hsq]; cbn in Hqb, Hsq.
  - destruct Z as [|z Z]; [injection HZ as <- <-|by destruct Z]. cbn [app]. destruct F2 as [|[f sf] F2']; cbn [hd_addr].
    + replace ((q <? bp) && (bp <? base)) with false by lia. by replace ((base <=? q) && ((q <? bp) || (bp <? base))) with true by lia.
    + specialize (Hhi (f, sf) ltac:(left)). cbn in Hhi. by replace ((q <? bp) && (bp <? f)) with true by lia.
  - destruct (Hlo (q', sq') ltac:(right; left)) as [Hqb' _]. cbn [app hd_addr] in *. cbn in Hqb'.
    apply StronglySorted_cons in HS as [Hx HS]. rewrite Forall_forall in Hx. specialize (Hx (q', sq') ltac:(left)).
    unfold before, UNIT in Hx. cbn in Hx. replace ((q <? bp) && (bp <? q')) with false by lia. replace ((q' <=? q) && ((q <? bp) || (bp <? q'))) with false by lia.
    destruct Z as [|z Z]; [done|]. injection HZ as <- HZ. apply (IH (X ++ [(q, sq)]) q' sq' Z); [done| |done| |cbn in Hf; lia].
    + rewrite <- app_assoc. cbn [app]. apply linked_app. split; [done|]. split; [done|done].
    + intros x Hx'. apply Hlo. by right.
Qed.

(** From a block behind [bp], on to the end of the list and to [base]. *)
Lemma find_high G X q sq Y p fuel :
  F2 = X ++ (q, sq) :: Y -> linked (hmem h) (G ++ F2) base -> StronglySorted before F2 -> (forall x, x ∈ F2 -> 0 <= snd x) ->
  (forall fuel', (fuel <= fuel' + length Y + 1)%nat -> free_find fuel' bp base h = Some p) -> (length Y < fuel)%nat ->
  free_find fuel bp q h = Some p.
Proof.
  revert X q sq fuel. induction Y as [|[q' sq'] Y IH]; intros X q sq [|fuel] E HL HS Hsz Hb Hf; try (cbn in Hf; lia);
    pose proof (Hhi (q, sq) ltac:(rewrite E; apply elem_of_app; right; left)) as Hq; cbn in Hq;
    pose proof (proj2 (proj1 (linked_app _ _ _ _) HL)) as HL2; rewrite E in HL2; apply linked_app in HL2 as [_ [Hm _]];
    cbn [free_find]; unfold at_ptr; rewrite Hm; cbn [mbind option_bind h_ptr hd_addr].
  - replace ((q <? bp) && (bp <? base)) with false by lia. replace ((base <=? q) && ((q <? bp) || (bp <? base))) with false by lia.
    apply Hb. cbn. lia.
  - pose proof HS as HS2. rewrite E in HS2. apply StronglySorted_app in HS2 as (_ & _ & [Hx _]%StronglySorted_cons).
    rewrite Forall_forall in Hx. specialize (Hx (q', sq') ltac:(left)). pose proof (Hsz (q, sq) ltac:(rewrite E; apply elem_of_app; right; left)) as Hsq.
    unfold before, UNIT in *. cbn in Hx, Hsq. replace ((q <? bp) && (bp <? q')) with false by lia. replace ((q' <=? q) && ((q <? bp) || (bp <? q'))) with false by lia.
    apply (IH (X ++ [(q, sq)]) q' sq'); [by rewrite <- app_assoc|done|done|done|intros fuel' Hf'; apply Hb; cbn; lia|cbn in Hf; lia].
Qed.

(** From any block of the list. *)
Lemma find_any X q sq p sp fuel F1 :
  (base, 0) :: F1 = X ++ [(p, sp)] -> linked (hmem h) ((base, 0) :: F1 ++ F2) base ->
  StronglySorted before ((base, 0) :: F1 ++ F2) -> (forall x, x ∈ F1 -> fst x < bp) -> (forall x, x ∈ F1 ++ F2 -> 0 <= snd x) ->
  (q, sq) ∈ (base, 0) :: F1 ++ F2 -> (length F1 + length F2 + 1 < fuel)%nat ->
  free_find fuel bp q h = Some p.
Proof.
  intros Ep HL HS Hlo Hsz Hq Hf. change ((base, 0) :: F1 ++ F2) with (((base, 0) :: F1) ++ F2) in *.
  apply StronglySorted_app in HS as (H12 & HS1 & HS2).
  assert (forall x, x ∈ (base, 0) :: F1 -> base <= fst x < bp /\ 0 <= snd x) as Hc.
  { intros x [-> |Hx]%elem_of_cons; [cbn; lia|]. split; [|apply Hsz, elem_of_app; by left]. split; [|by apply Hlo].
    apply StronglySorted_cons in HS1 as [Hb _]. rewrite Forall_forall in Hb. specialize (Hb x Hx). unfold before, UNIT in Hb. cbn in Hb. lia. }
  assert (forall q sq fuel, (q, sq) ∈ (base, 0) :: F1 -> (length F1 < fuel)%nat -> free_find fuel bp q h = Some p) as Hlow.
  { clear q sq fuel Hq Hf. intros q sq fuel (U & V & E)%list_elem_of_split Hf. rewrite E in HL, HS1, Ep, Hc.
    destruct (exists_last (l := (q, sq) :: V) ltac:(done)) as (Z & [p' sp'] & EZ). rewrite EZ, app_assoc in Ep. apply app_inj_tail in Ep as [_ [= <- <-]].
    apply (find_low U q sq V p' sp' Z); [done|by rewrite <- app_assoc in HL|by apply StronglySorted_app in HS1 as (_ & _ & ?)| |].
    - intros x Hx. apply Hc, elem_of_app. by right.
    - apply (f_equal length) in E. rewrite length_app in E. cbn in E. lia. }
  apply elem_of_app in Hq as [Hq|Hq]; [apply (Hlow q sq); [done|lia]|]. apply list_elem_of_split in Hq as (U & V & E).
  apply (find_high ((base, 0) :: F1) U q sq V); [done|done|done|intros x Hx; apply Hsz, elem_of_app; by right| |].
  - intros fuel' Hf'. apply (Hlow base 0); [by left|]. apply (f_equal length) in E. rewrite length_app in E. cbn in E. lia.
  - apply (f_equal length) in E. rewrite length_app in E. cbn in E. lia.
Qed.
End find.

(** Blocks cover each other: what is apart from [l] is apart from [l']. *)
Definition covered l l' : Prop := forall a s, 0 < s -> (forall x, x ∈ l -> apart a s x) -> forall x, x ∈ l' -> apart a s x.

Lemma u32_small x : 0 <= x < 2 ^ 32 -> u32 x = x.
Proof. intros. by apply Z.mod_small. Qed.

Lemma join_next_spec h bp sz v F2 x :
  linked (hmem h) F2 base -> StronglySorted before F2 -> (forall y, y ∈ F2 -> bp + UNIT * sz <= fst y /\ 0 < snd y /\ fst y + UNIT * snd y <= brk h) ->
  0 < base < bp -> 0 < sz -> bp + UNIT * sz <= brk h < 2 ^ 31 -> hmem h !! bp = Some (mk_header v sz) -> h_ptr x = hd_addr F2 base ->
  exists sz' F2r, let m1 := <[bp := mk_header (hd_addr F2r base) sz']> (hmem h) in
    join_next bp x (mk_header v sz) h = Some (mk_heap m1 (freep h) (brk h)) /\
    linked m1 ((bp, sz') :: F2r) base /\ StronglySorted before ((bp, sz') :: F2r) /\ (forall y, y ∈ F2r -> y ∈ F2) /\ (length F2r <= length F2)%nat /\
    sz <= sz' /\ bp + UNIT * sz' <= brk h /\ sz' + total F2r = sz + total F2 /\ covered ((bp, sz) :: F2) ((bp, sz') :: F2r).
Proof.
  intros HL HS HF Hbase Hsz Hb Hm Hx. unfold join_next. rewrite Hx. cbn [h_size].
  destruct (Z.eqb_spec (bp + UNIT * sz) (hd_addr F2 base)) as [E|E].
  - destruct F2 as [|[f sf] F2']; [cbn in E; unfold UNIT in E; lia|]. cbn [hd_addr] in *. subst f. destruct HL as [Hf HL'].
    destruct (HF _ ltac:(left)) as (_ & Hsf & Hfb). cbn in Hsf, Hfb. apply StronglySorted_cons in HS as [Hx2 HS].
    unfold at_ptr. rewrite Hf. cbn [mbind option_bind]. unfold set_size, set_ptr, at_ptr. rewrite Hm. cbn [mbind option_bind hmem freep brk h_size h_ptr].
    rewrite lookup_insert_eq. cbn [mbind option_bind h_size h_ptr]. rewrite insert_insert_eq, u32_small by (unfold UNIT in *; lia).
    exists (sz + sf), F2'. split_and!; [done| | |by right|cbn; lia|lia|unfold UNIT in *; lia|rewrite total_cons; cbn; lia|].
    + split; [apply lookup_insert_eq|]. eapply linked_ext; [|exact HL']. intros a s Ha. apply lookup_insert_ne.
      rewrite Forall_forall in Hx2. specialize (Hx2 _ Ha). unfold before, UNIT in *. cbn in Hx2. lia.
    + constructor; [done|]. rewrite Forall_forall in *. intros y Hy. specialize (Hx2 y Hy). unfold before, UNIT in *. cbn in *. lia.
    + intros a s Hs Ha y [-> |Hy]%elem_of_cons; [|apply Ha; by do 2 right].
      pose proof (Ha (bp, sz) ltac:(left)) as H1. pose proof (Ha (h_ptr x, sf) ltac:(right; left)) as H2. unfold apart, UNIT in *. cbn in *. lia.
  - unfold set_ptr, at_ptr. rewrite Hm. cbn [mbind option_bind h_size]. exists sz, F2. split_and!; [done| | |done|done|lia|lia|done|by intros a s _ Ha].
    + split; [apply lookup_insert_eq|]. eapply linked_ext; [|exact HL]. intros a s Ha. apply lookup_insert_ne.
      destruct (HF _ Ha) as (Hlt & _). unfold UNIT in *. cbn in Hlt. lia.
    + constructor; [done|]. rewrite Forall_forall. intros y Hy. destruct (HF y Hy) as (Hle & _). unfold before. cbn.
      destruct F2 as [|[f sf] F2']; [by apply not_elem_of_nil in Hy|]. cbn in E.
      destruct (HF (f, sf) ltac:(left)) as (Hle' & Hsf & _). apply elem_of_cons in Hy as [-> |Hy]; cbn in *; [lia|].
      apply StronglySorted_cons in HS as [Hx2 _]. rewrite Forall_forall in Hx2. specialize (Hx2 y Hy). unfold before, UNIT in *. cbn in Hx2. lia.
Qed.

(** The second half: the predecessor [p] takes the block, or links to it. *)
Lemma join_prev_spec h X p sp v bp sz G :
  linked (hmem h) X p -> hmem h !! p = Some (mk_header v sp) -> linked (hmem h) ((bp, sz) :: G) base ->
  StronglySorted before (X ++ [(p, sp)]) -> StronglySorted before ((bp, sz) :: G) -> (forall x, x ∈ X -> 0 <= snd x) ->
  p + UNIT * sp <= bp -> p < bp -> 0 <= p -> 0 <= sp -> 0 < sz -> bp + UNIT * sz <= brk h < 2 ^ 31 ->
  exists new m2, join_prev p bp (mk_header v sp) (mk_header (hd_addr G base) sz) h = Some (mk_heap m2 (freep h) (brk h)) /\
    linked m2 (X ++ new ++ G) base /\ StronglySorted before (X ++ new ++ G) /\ (forall a, a <> p -> m2 !! a = hmem h !! a) /\
    ((new = [(p, sp + sz)] /\ p + UNIT * sp = bp) \/ (new = [(p, sp); (bp, sz)] /\ p + UNIT * sp < bp)).
Proof.
  intros HX Hp HG HSX HSG HX0 Hle Hlt Hp0 Hsp Hsz Hb. apply StronglySorted_app in HSX as (HXp & HSX & _).
  pose proof HSG as HSG'. apply StronglySorted_cons in HSG' as [HbG HSG']. rewrite Forall_forall in HbG.
  assert (forall y, y ∈ X -> fst y + UNIT * snd y < p) as HXlt by (intros y Hy; apply (HXp y (p, sp) Hy ltac:(left))).
  assert (forall a, linked (<[p := a]> (hmem h)) X p /\ linked (<[p := a]> (hmem h)) ((bp, sz) :: G) base) as Hkeep.
  { intros m2. split; (eapply linked_ext; [|eassumption]); intros c s Hc; apply lookup_insert_ne.
    - specialize (HXlt _ Hc). specialize (HX0 _ Hc). unfold UNIT in *. cbn in *. lia.
    - apply elem_of_cons in Hc as [[= -> ->]|Hc]; [lia|]. specialize (HbG _ Hc). unfold before, UNIT in *. cbn in HbG. lia. }
  assert (forall y z, y ∈ X -> (z = (p, sp + sz) \/ z = (p, sp) \/ z ∈ (bp, sz) :: G) -> before y z) as HXall.
  { intros y z Hy Hz. specialize (HXlt y Hy). unfold before. destruct Hz as [-> |[-> |[-> |Hz]%elem_of_cons]]; cbn; try lia.
    specialize (HbG z Hz). unfold before, UNIT in *. cbn in HbG. lia. }
  unfold join_prev. cbn [h_size h_ptr]. destruct (Z.eqb_spec (p + UNIT * sp) bp) as [E|E].
  - unfold set_size, set_ptr, at_ptr. rewrite Hp. cbn [mbind option_bind hmem freep brk h_size h_ptr].
    rewrite lookup_insert_eq. cbn [mbind option_bind h_size h_ptr]. rewrite insert_insert_eq, u32_small by (unfold UNIT in *; lia).
    eexists [(p, sp + sz)], _. split_and!; [done| | |intros a Ha; by apply lookup_insert_ne|by left].
    + apply linked_app. split; [apply Hkeep|]. split; [apply lookup_insert_eq|]. apply (Hkeep _).
    + apply StronglySorted_app. split_and!; [|done|].
      * intros y z Hy [-> |Hz]%elem_of_cons; apply HXall; [done|by left|done|do 2 right; by right].
      * constructor; [done|]. rewrite Forall_forall. intros z Hz. specialize (HbG z Hz). unfold before, UNIT in *. cbn in *. lia.
  - unfold set_ptr, at_ptr. rewrite Hp. cbn [mbind option_bind h_size].
    eexists [(p, sp); (bp, sz)], _. split_and!; [done| | |intros a Ha; by apply lookup_insert_ne|right; split; [done|lia]].
    + apply linked_app. split; [apply Hkeep|]. split; [apply lookup_insert_eq|]. apply (Hkeep _).
    + apply StronglySorted_app. split_and!; [|done|].
      * intros y z Hy [-> |Hz]%elem_of_cons; apply HXall; [done|right; by left|done|by do 2 right].
      * constructor; [done|]. rewrite Forall_forall. intros z [-> |Hz]%elem_of_cons; [unfold before; cbn; lia|].
        specialize (HbG z Hz). unfold before, UNIT in *. cbn in *. lia.
Qed.

(** What [free] does to the list when it takes back the block [(bp, sz)]. *)
Record freed h F (bp sz : Z) h' F' : Prop := {
  fr_list : flist (hmem h') (freep h') (brk h') F';
  fr_brk : brk h' = brk h;
  fr_total : total F' = total F + sz;
  fr_covered : covered ((bp, sz) :: F) F';
  fr_mem : forall a, a <> bp -> (forall x, x ∈ (base, 0) :: F -> a <> fst x) -> hmem h' !! a = hmem h !! a;
  fr_big : exists x, x ∈ F' /\ sz <= snd x;
  fr_length : (length F' <= length F + 1)%nat
}.

Lemma flist_pos m fp b F x : flist m fp b F -> x ∈ F -> 0 < snd x /\ fst x + UNIT * snd x <= b /\ base < fst x.
Proof.
  intros [_ H1 H2 _] Hx. rewrite Forall_forall in H2. apply StronglySorted_cons in H1 as [H1 _]. rewrite Forall_forall in H1.
  specialize (H1 x Hx). destruct (H2 x Hx). unfold before, UNIT in *. cbn in *. lia.
Qed.

Lemma flist_lt m fp b F U V x y : flist m fp b F -> (base, 0) :: F = U ++ V -> x ∈ U -> y ∈ V -> fst x + UNIT * snd x < fst y /\ fst x < fst y.
Proof.
  intros HF E Hx Hy. pose proof (fl_sorted _ _ _ _ HF) as HS. rewrite E in HS. apply StronglySorted_app in HS as (HS & _). specialize (HS x y Hx Hy).
  assert (x ∈ (base, 0) :: F) as Hx' by (rewrite E; apply elem_of_app; by left). split; [done|].
  assert (0 <= snd x) as H0; [|unfold before, UNIT in HS; lia].
  apply elem_of_cons in Hx' as [-> |Hx']; [done|]. destruct (flist_pos _ _ _ _ x HF Hx'). lia.
Qed.

Lemma freed_intro h F1 F2 X p sp bp sz sz' F2r new m2 :
  (forall x, x ∈ F1 ++ F2 -> 0 < snd x /\ fst x + UNIT * snd x <= brk h /\ base < fst x) ->
  (base, 0) :: F1 = X ++ [(p, sp)] -> base < bp -> 0 <= sp -> 0 < sz <= sz' -> bp + UNIT * sz' <= brk h ->
  (new = [(p, sp + sz')] /\ p + UNIT * sp = bp) \/ (new = [(p, sp); (bp, sz')] /\ p + UNIT * sp < bp) ->
  (forall y, y ∈ F2r -> y ∈ F2) -> (length F2r <= length F2)%nat -> sz' + total F2r = sz + total F2 ->
  covered ((bp, sz) :: F2) ((bp, sz') :: F2r) -> linked m2 (X ++ new ++ F2r) base -> StronglySorted before (X ++ new ++ F2r) ->
  (forall a, a <> p -> a <> bp -> m2 !! a = hmem h !! a) ->
  freed h (F1 ++ F2) bp sz (mk_heap m2 p (brk h)) (tail (X ++ new ++ F2r)).
Proof.
  intros Hpos Ep Hbase Hsp [Hsz Hsz'] Hb' Hnew Hsub Hlen Ht Hcov HL3 HS3 Hm2.
  assert (X ++ new ++ F2r = (base, 0) :: tail (X ++ new ++ F2r)) as EN.
  { destruct X as [|x X]; [|by injection Ep as <-]. injection Ep as <- <- _. destruct Hnew as [[-> E]|[-> _]]; [unfold UNIT in E; lia|done]. }
  assert (forall x, x ∈ tail (X ++ new ++ F2r) ->
    x ∈ F1 ++ F2 \/ x = (bp, sz') \/ (x = (p, sp + sz') /\ p + UNIT * sp = bp /\ (p, sp) ∈ F1)) as Hcase.
  { intros x Hx. destruct X as [|x0 X]; cbn [app tail] in Hx.
    - injection Ep as <- <- ->. destruct Hnew as [[-> E]|[-> _]]; [unfold UNIT in E; lia|]. cbn [app tail] in Hx.
      apply elem_of_cons in Hx as [-> |Hx]; [by right; left|]. left. by apply Hsub.
    - injection Ep as <- ->. rewrite !elem_of_app in *. destruct Hx as [Hx|[Hx|Hx]]; [left; left; by left| |left; right; by apply Hsub].
      destruct Hnew as [[-> E]|[-> E]]; rewrite ?elem_of_cons, ?elem_of_nil in Hx.
      + destruct Hx as [-> |[]]. right; right. split_and!; [done|done|right; by left].
      + destruct Hx as [-> |[-> |[]]]; [left; left; right; by left|by right; left]. }
  assert (forall y, y ∈ (bp, sz') :: F2r -> forall a s, 0 < s -> (forall x, x ∈ (bp, sz) :: F1 ++ F2 -> apart a s x) -> apart a s y) as Hcov'.
  { intros y Hy a s Hs Hx. apply (Hcov a s Hs); [|done]. intros z [-> |Hz]%elem_of_cons; apply Hx; [by left|right; apply elem_of_app; by right]. }
  split; cbn [hmem freep brk]; [split| | | | | |].
  - by rewrite <- EN.
  - by rewrite <- EN.
  - rewrite Forall_forall. intros x [Hx|[-> |(-> & E & Hx)]]%Hcase.
    + destruct (Hpos x Hx) as (? & ? & _). done.
    + cbn. lia.
    + cbn. unfold UNIT in *. lia.
  - rewrite <- EN. destruct Hnew as [[-> _]|[-> _]]; eexists; apply elem_of_app; right; by left.
  - done.
  - apply (f_equal total) in EN, Ep. rewrite !total_app, !total_cons in *. cbn [snd] in *. change (total []) with 0 in Ep.
    destruct Hnew as [[-> _]|[-> _]]; rewrite ?total_cons in EN; cbn [snd] in EN; change (total []) with 0 in EN; lia.
  - intros a s Hs Hx x [Hin|[-> |(-> & E & Hin)]]%Hcase.
    + apply Hx. by right.
    + apply Hcov'; [by left|done|done].
    + pose proof (Hx (p, sp) ltac:(right; apply elem_of_app; by left)) as A1. pose proof (Hcov' (bp, sz') ltac:(by left) a s Hs Hx) as A2.
      unfold apart, UNIT in *. cbn in *. lia.
  - intros a Ha1 Ha2. apply Hm2; [|done]. apply (Ha2 (p, sp)).
    change ((base, 0) :: F1 ++ F2) with (((base, 0) :: F1) ++ F2). rewrite Ep, !elem_of_app. left. right. by left.
  - destruct Hnew as [[-> E]|[-> _]].
    + exists (p, sp + sz'). split; [|cbn; lia]. destruct X as [|x X]; [injection Ep as <- <- _; unfold UNIT in E; lia|].
      cbn [app tail]. apply elem_of_app. right. by left.
    + exists (bp, sz'). split; [|done]. destruct X as [|x X]; cbn [app tail]; [by left|]. apply elem_of_app. right. right. by left.
  - apply (f_equal length) in EN, Ep. rewrite !length_app in *. cbn [length] in *.
    destruct Hnew as [[-> _]|[-> _]]; cbn [length] in EN; lia.
Qed.

Lemma free_block h F bp sz v fuel :
  flist (hmem h) (freep h) (brk h) F -> 0 < base < bp -> 0 < sz -> bp + UNIT * sz <= brk h < 2 ^ 31 ->
  hmem h !! bp = Some (mk_header v sz) -> (forall x, x ∈ F -> apart bp sz x) -> (length F + 1 < fuel)%nat ->
  exists h' F', free fuel (bp + UNIT) h = Some h' /\ freed h F bp sz h' F'.
Proof.
  intros HF Hbase Hsz Hb Hm Ha Hfuel. pose proof (fun x => flist_pos _ _ _ _ x HF) as Hpos. destruct HF as [HL HS HI (fsz & Hfp)].
  pose proof HS as HS0. apply StronglySorted_cons in HS0 as [_ HSF].
  destruct (split_at bp sz F HSF) as (F1 & F2 & -> & Hlo & Hhi); [intros x Hx; split; [by apply Ha|by apply Hpos]|done|].
  destruct (exists_last (l := (base, 0) :: F1) ltac:(done)) as (X & [p sp] & Ep).
  assert (forall x, x ∈ (base, 0) :: F1 -> base <= fst x /\ 0 <= snd x /\ fst x + UNIT * snd x <= bp /\ fst x < bp) as HC.
  { intros x [-> |Hx]%elem_of_cons; [cbn; lia|]. specialize (Hlo x Hx). destruct (Hpos x) as (? & ? & ?); [apply elem_of_app; by left|].
    unfold UNIT in *. lia. }
  assert (free_find fuel bp (freep h) h = Some p) as Efind.
  { apply (find_any h bp F2 ltac:(intros x Hx; specialize (Hhi x Hx); unfold UNIT in *; lia) ltac:(lia) X (freep h) fsz p sp fuel F1); try done.
    - intros x Hx. apply HC. by right.
    - intros x Hx. destruct (Hpos x Hx). lia.
    - rewrite length_app in Hfuel. lia. }
  change ((base, 0) :: F1 ++ F2) with (((base, 0) :: F1) ++ F2) in HL, HS. rewrite Ep in *.
  apply linked_app in HL as [HLX HL2]. apply linked_app in HLX as [HLX [Hp _]]. apply StronglySorted_app in HS as (_ & HSX & HS2). cbn [hd_addr] in HLX, Hp.
  destruct (HC (p, sp)) as (Hp1 & Hp2 & Hp3 & Hp4); [apply elem_of_app; right; by left|]. cbn [fst snd] in Hp1, Hp2, Hp3, Hp4.
  destruct (join_next_spec h bp sz v F2 (mk_header (hd_addr F2 base) sp)) as (sz' & F2r & E1 & HL1 & HS1 & Hsub & Hlen & Hsz' & Hb' & Ht & Hcov); try done.
  { intros y Hy. split; [by apply Hhi|]. destruct (Hpos y) as (? & ? & ?); [apply elem_of_app; by right|]. done. }
  set (m1 := <[bp := _]> (hmem h)) in *. cbv zeta in *.
  destruct (join_prev_spec (mk_heap m1 (freep h) (brk h)) X p sp (hd_addr F2 base) bp sz' F2r) as (new & m2 & E2 & HL3 & HS3 & Hm2 & Hnew);
    cbn [hmem freep brk]; try done; try lia.
  { eapply linked_ext; [|exact HLX]. intros c s Hc. apply lookup_insert_ne. destruct (HC (c, s)) as (_ & _ & _ & ?); [apply elem_of_app; by left|]. cbn in *. lia. }
  { unfold m1. rewrite lookup_insert_ne by lia. done. }
  { intros x Hx. destruct (HC x) as (_ & ? & _); [apply elem_of_app; by left|]. done. }
  assert (m1 !! p = Some (mk_header (hd_addr F2 base) sp)) as Hm1p by (unfold m1; by rewrite lookup_insert_ne by lia).
  assert (m1 !! bp = Some (mk_header (hd_addr F2r base) sz')) as Hm1b by apply lookup_insert_eq.
  exists (mk_heap m2 p (brk h)), (tail (X ++ new ++ F2r)). split.
  { unfold free. replace (bp + UNIT - UNIT) with bp by lia. rewrite Efind. unfold at_ptr. cbn [mbind option_bind]. rewrite Hp. cbn [mbind option_bind].
    rewrite Hm. cbn [mbind option_bind]. rewrite E1. cbn [mbind option_bind hmem]. rewrite Hm1p. cbn [mbind option_bind]. rewrite Hm1b.
    cbn [mbind option_bind]. rewrite E2. done. }
  eapply (freed_intro h F1 F2 X p sp bp sz sz' F2r new m2); try done; try lia.
  intros a Ha1 Ha2. rewrite Hm2 by done. by apply lookup_insert_ne, not_eq_sym.
Qed.

(** ** [malloc] *)

(** What giving out the block [(r, n)] does to the list. *)
Record taken h F (n r : Z) h' F' : Prop := {
  tk_list : flist (hmem h') (freep h') (brk h') F';
  tk_brk : brk h' = brk h;
  tk_total : total F' + n = total F;
  tk_covered : covered F ((r, n) :: F');
  tk_apart : forall x, x ∈ F' -> apart r n x;
  tk_header : exists v, hmem h' !! r = Some (mk_header v n);
  tk_mem : forall a, a <> r -> (forall x, x ∈ (base, 0) :: F -> a <> fst x) -> hmem h' !! a = hmem h !! a;
  tk_in : base < r /\ r + UNIT * n <= brk h
}.

(** A block of the list is large enough: it, and the block before it. *)
Definition fits F (n pv q : Z) : Prop :=
  exists X spv sq W, (base, 0) :: F = X ++ (pv, spv) :: (q, sq) :: W /\ n <= sq.

Section scan.
Context (h : heap) (F : blocks) (n : Z).
Context (HF : flist (hmem h) (freep h) (brk h) F) (Hn : 0 < n).

Lemma at_block X a sz Y : (base, 0) :: F = X ++ (a, sz) :: Y -> at_ptr a h = Some (mk_header (hd_addr Y base) sz).
Proof. intros E. pose proof (fl_linked _ _ _ _ HF) as HL. rewrite E in HL. apply linked_app in HL as [_ [Ha _]]. done. Qed.

(** A part of the list without [freep]. *)
Lemma scan_part Y1 X pv spv Y2 fuel :
  (base, 0) :: F = X ++ (pv, spv) :: Y1 ++ Y2 -> (forall y, y ∈ Y1 -> fst y <> freep h) -> (length Y1 <= fuel)%nat ->
  (exists pv' q, fits F n pv' q /\ malloc_loop fuel n pv (hd_addr (Y1 ++ Y2) base) h = malloc_take n pv' q h) \/
  ((forall y, y ∈ Y1 -> snd y < n) /\ exists X' pv' spv', X' ++ [(pv', spv')] = X ++ (pv, spv) :: Y1 /\
    malloc_loop fuel n pv (hd_addr (Y1 ++ Y2) base) h = malloc_loop (fuel - length Y1) n pv' (hd_addr Y2 base) h).
Proof.
  revert X pv spv fuel. induction Y1 as [|[q sq] Y1 IH]; intros X pv spv fuel E Hne Hf.
  - right. split; [intros y Hy; by apply not_elem_of_nil in Hy|]. exists X, pv, spv. by rewrite Nat.sub_0_r.
  - destruct fuel as [|fuel]; [cbn in Hf; lia|]. cbn [app hd_addr malloc_loop].
    assert (at_ptr q h = Some (mk_header (hd_addr (Y1 ++ Y2) base) sq)) as Hq.
    { apply (at_block (X ++ [(pv, spv)])). rewrite E, <- app_assoc. done. }
    rewrite Hq. cbn [mbind option_bind h_size h_ptr]. destruct (Z.leb_spec n sq) as [Hle|Hlt].
    + left. exists pv, q. split; [|done]. by exists X, spv, sq, (Y1 ++ Y2).
    + pose proof (Hne (q, sq) ltac:(left)) as Hq'. cbn in Hq'. rewrite (proj2 (Z.eqb_neq _ _) Hq').
      destruct (IH (X ++ [(pv, spv)]) q sq fuel) as [Hl|(Hr1 & X' & pv' & spv' & Hr2 & Hr3)]; [rewrite E, <- app_assoc; done|intros y Hy; apply Hne; by right|cbn in Hf; lia|by left|].
      right. split; [intros y [-> |Hy]%elem_of_cons; [done|by apply Hr1]|]. exists X', pv', spv'. split; [by rewrite Hr2, <- app_assoc|done].
Qed.

Definition malloc_more (fuel : nat) : option (Z * heap) :=
  '(p, h) ← morecore fuel n h;
  if p =? 0 then Some (0, h) else x ← at_ptr p h; malloc_loop fuel n p (h_ptr x) h.

(** The whole round: a block is found, or none is large enough and [malloc]
    asks for more memory. *)
Lemma scan_round fuel x : at_ptr (freep h) h = Some x -> (2 * length F + 3 <= fuel)%nat ->
  (exists pv q, fits F n pv q /\ malloc_loop fuel n (freep h) (h_ptr x) h = malloc_take n pv q h) \/
  ((forall y, y ∈ F -> snd y < n) /\ exists fuel', (fuel <= fuel' + length F + 2)%nat /\ malloc_loop fuel n (freep h) (h_ptr x) h = malloc_more fuel').
Proof.
  intros Hx Hf. destruct (fl_freep _ _ _ _ HF) as (sfp & (X & Y & E)%list_elem_of_split).
  rewrite (at_block X (freep h) sfp Y E) in Hx. injection Hx as <-. cbn [h_ptr].
  assert (forall U V, (base, 0) :: F = U ++ V -> forall x y, x ∈ U -> y ∈ V -> fst x <> fst y) as Hdiff.
  { intros U V EUV y z Hy Hz. destruct (flist_lt _ _ _ _ U V y z HF EUV Hy Hz). lia. }
  assert (length X + length Y = length F)%nat as Hlen by (apply (f_equal length) in E; rewrite length_app in E; cbn in E; lia).
  destruct (scan_part Y X (freep h) sfp [] fuel) as [Hl|(HY & X1 & pv1 & spv1 & _ & EL)]; [by rewrite app_nil_r| |lia|left; by rewrite app_nil_r in Hl|].
  { intros y Hy. apply not_eq_sym, (Hdiff (X ++ [(freep h, sfp)]) Y ltac:(rewrite E, <- app_assoc; done) (freep h, sfp) y); [|done].
    apply elem_of_app. right. by left. }
  rewrite app_nil_r in EL. rewrite EL. cbn [hd_addr]. assert (at_ptr base h = Some (mk_header (hd_addr F base) 0)) as Hb by by apply (at_block [] base 0 F).
  destruct (fuel - length Y)%nat as [|fuel1] eqn:Ef; [lia|]. cbn [malloc_loop]. rewrite Hb. cbn [mbind option_bind h_size h_ptr].
  replace (n <=? 0) with false by lia. destruct (Z.eqb_spec base (freep h)) as [Eb|Eb].
  - right. destruct X as [|x X].
    + injection E as E1 E2 E3. split; [by rewrite E3|]. exists fuel1. split; [lia|]. unfold malloc_more. done.
    + exfalso. injection E as <- E. apply (Hdiff [(base, 0)] F eq_refl (base, 0) (freep h, sfp)); [by left|rewrite E; apply elem_of_app; right; by left|done].
  - destruct X as [|x X]; [by injection E as ? ? ?|]. injection E as <- E.
    assert ((base, 0) :: F = [] ++ (base, 0) :: X ++ (freep h, sfp) :: Y) as E0 by (by rewrite E).
    destruct (scan_part X [] base 0 ((freep h, sfp) :: Y) fuel1 E0) as [Hl|(HX & X2 & pv2 & spv2 & E2 & EL2)]; [|cbn in Hlen; lia|left; by rewrite <- E in Hl|].
    { intros y Hy. apply (Hdiff ((base, 0) :: X) ((freep h, sfp) :: Y) ltac:(by rewrite E) y (freep h, sfp)); [by right|by left]. }
    rewrite <- E in EL2. rewrite EL2. cbn [hd_addr]. destruct (fuel1 - length X)%nat as [|fuel2] eqn:Ef2; [cbn in Hlen; lia|]. cbn [malloc_loop].
    rewrite (at_block ((base, 0) :: X) (freep h) sfp Y) by (by rewrite E). cbn [mbind option_bind h_size h_ptr]. destruct (Z.leb_spec n sfp) as [Hle|Hlt].
    + left. exists pv2, (freep h). split; [|done]. exists X2, spv2, sfp, Y. split; [|done].
      rewrite E. change (X2 ++ (pv2, spv2) :: (freep h, sfp) :: Y) with (X2 ++ [(pv2, spv2)] ++ (freep h, sfp) :: Y). rewrite app_assoc, E2. done.
    + right. rewrite Z.eqb_refl. split; [|exists fuel2; split; [cbn in Hlen; lia|done]].
      rewrite E. intros y [Hy|[-> |Hy]%elem_of_cons]%elem_of_app; [by apply HX|done|by apply HY].
Qed.
End scan.

(** Blocks that leave the list, or shrink from the right. *)
Lemma taken_intro h F n X pv spv q sq W new m' :
  flist (hmem h) (freep h) (brk h) F -> (base, 0) :: F = X ++ (pv, spv) :: (q, sq) :: W -> 0 < n ->
  (new = [] /\ sq = n) \/ (new = [(q, sq - n)] /\ n < sq) ->
  linked m' (X ++ (pv, spv) :: new ++ W) base -> (exists v, m' !! (q + UNIT * (sq - n)) = Some (mk_header v n)) ->
  (forall a, a <> q + UNIT * (sq - n) -> (forall x, x ∈ (base, 0) :: F -> a <> fst x) -> m' !! a = hmem h !! a) ->
  taken h F n (q + UNIT * (sq - n)) (mk_heap m' pv (brk h)) (tail (X ++ (pv, spv) :: new ++ W)).
Proof.
  intros HF E Hn Hnew HL Hh Hm. set (F' := tail (X ++ (pv, spv) :: new ++ W)).
  assert (X ++ (pv, spv) :: new ++ W = (base, 0) :: F' /\ (q, sq) ∈ F /\ forall x, x ∈ F' -> x ∈ F \/ (x = (q, sq - n) /\ n < sq)) as (EF & Hq & Hsub).
  { unfold F'. destruct X as [|x X]; cbn [app tail] in *.
    - injection E as <- <- ->. split_and!; [done|by left|]. intros x [Hx|Hx]%elem_of_app; [|left; by right].
      destruct Hnew as [[-> _]|[-> ?]]; [by apply not_elem_of_nil in Hx|]. apply list_elem_of_singleton in Hx. by right.
    - injection E as <- ->. split_and!; [done|apply elem_of_app; right; right; by left|]. intros x Hx. rewrite elem_of_app, elem_of_cons, elem_of_app in Hx.
      rewrite elem_of_app, !elem_of_cons. destruct Hx as [Hx|[Hx|[Hx|Hx]]]; [tauto|tauto| |tauto].
      destruct Hnew as [[-> _]|[-> ?]]; [by apply not_elem_of_nil in Hx|]. apply list_elem_of_singleton in Hx. by right. }
  pose proof (fl_sorted _ _ _ _ HF) as HS. rewrite E in HS. change (X ++ (pv, spv) :: (q, sq) :: W) with (X ++ [(pv, spv)] ++ (q, sq) :: W) in HS.
  rewrite app_assoc in HS. apply StronglySorted_app in HS as (H12 & HS1 & HS2). apply StronglySorted_cons in HS2 as [HqW HSW]. rewrite Forall_forall in HqW.
  destruct (flist_pos _ _ _ _ _ HF Hq) as (Hsq & Hqb & Hqbase). cbn [fst snd] in *.
  assert (StronglySorted before ((base, 0) :: F')) as HS'.
  { rewrite <- EF. change ((pv, spv) :: new ++ W) with ([(pv, spv)] ++ new ++ W). rewrite app_assoc. apply StronglySorted_app. split_and!; [|done|].
    - intros x y Hx [Hy|Hy]%elem_of_app; [|apply H12; [done|by right]]. destruct Hnew as [[-> _]|[-> _]]; [by apply not_elem_of_nil in Hy|].
      apply list_elem_of_singleton in Hy as ->. apply (H12 x (q, sq) Hx ltac:(left)).
    - destruct Hnew as [[-> _]|[-> _]]; [done|]. cbn [app]. constructor; [done|]. rewrite Forall_forall. intros y Hy. specialize (HqW y Hy).
      unfold before, UNIT in *. cbn in *. lia. }
  split; cbn [hmem freep brk]; try done; [split| | | |].
  - by rewrite <- EF.
  - done.
  - rewrite Forall_forall. intros x [Hx|[-> Hx]]%Hsub; [destruct (flist_pos _ _ _ _ _ HF Hx); tauto|]. cbn. unfold UNIT in *. lia.
  - exists spv. rewrite <- EF. apply elem_of_app. right. by left.
  - apply (f_equal total) in EF, E. rewrite !total_app, !total_cons, ?total_app in *. cbn [snd] in *.
    destruct Hnew as [[-> ->]|[-> _]]; rewrite ?total_cons in EF; cbn [snd] in EF; change (total []) with 0 in EF; lia.
  - intros a s Hs Ha x [-> |Hx]%elem_of_cons; [|apply Hsub in Hx as [Hx|[-> Hx]]; [by apply Ha|]];
      specialize (Ha (q, sq) Hq); destruct Hnew as [[_ ?]|[_ ?]]; unfold apart, UNIT in *; cbn in *; lia.
  - intros x Hx. assert (x ∈ X ++ (pv, spv) :: new ++ W) as Hin by (rewrite EF; by right).
    rewrite elem_of_app, elem_of_cons, elem_of_app in Hin. destruct Hin as [Hin|[-> |[Hin|Hin]]].
    + pose proof (H12 x (q, sq) ltac:(apply elem_of_app; by left) ltac:(left)) as Hb. destruct Hnew as [[_ ?]|[_ ?]]; unfold before, apart, UNIT in *; cbn in *; lia.
    + pose proof (H12 (pv, spv) (q, sq) ltac:(apply elem_of_app; right; left) ltac:(left)) as Hb. destruct Hnew as [[_ ?]|[_ ?]]; unfold before, apart, UNIT in *; cbn in *; lia.
    + destruct Hnew as [[-> _]|[-> _]]; [by apply not_elem_of_nil in Hin|]. apply list_elem_of_singleton in Hin as ->. left. cbn. lia.
    + specialize (HqW x Hin). unfold before, apart, UNIT in *. cbn in *. lia.
  - destruct Hnew as [[_ ?]|[_ ?]]; unfold UNIT in *; lia.
Qed.

Lemma malloc_take_spec h F n pv q :
  flist (hmem h) (freep h) (brk h) F -> 0 < n -> fits F n pv q -> brk h < 2 ^ 31 -> 0 < base ->
  exists r h' F', malloc_take n pv q h = Some (r + UNIT, h') /\ taken h F n r h' F'.
Proof.
  intros HF Hn (X & spv & sq & W & E & Hle) Hb Hbase.
  assert (forall x, x ∈ X ++ [(pv, spv)] -> fst x < q) as Hlo.
  { intros x Hx. apply (flist_lt _ _ _ _ (X ++ [(pv, spv)]) ((q, sq) :: W) x (q, sq) HF); [by rewrite E, <- app_assoc|done|by left]. }
  assert (forall x, x ∈ W -> q + UNIT * sq < fst x) as Hhi.
  { intros x Hx. apply (flist_lt _ _ _ _ (X ++ [(pv, spv); (q, sq)]) W (q, sq) x HF); [by rewrite E, <- app_assoc|apply elem_of_app; right; right; by left|done]. }
  assert (forall x, x ∈ X -> fst x < pv) as Hlo2.
  { intros x Hx. by apply (flist_lt _ _ _ _ X ((pv, spv) :: (q, sq) :: W) x (pv, spv) HF E Hx ltac:(left)). }
  assert (pv < q) as Hpq by apply (Hlo (pv, spv) ltac:(apply elem_of_app; right; left)).
  assert (0 < sq /\ q + UNIT * sq <= brk h /\ base < q) as (Hsq & Hqb & Hqbase).
  { apply (flist_pos _ _ _ _ (q, sq) HF). destruct X as [|x X]; [injection E as _ _ ->; by left|injection E as _ ->]. apply elem_of_app. right. right. by left. }
  pose proof (fl_linked _ _ _ _ HF) as HL. rewrite E in HL. apply linked_app in HL as [HLX [Hpv [Hq HLW]]].
  unfold malloc_take, at_ptr. rewrite Hq. cbn [mbind option_bind h_size]. destruct (Z.eqb_spec sq n) as [-> |Hne].
  - unfold set_ptr, at_ptr. rewrite Hpv. cbn [mbind option_bind h_ptr h_size set_freep hmem freep brk].
    eexists q, _, _. split; [done|]. replace q with (q + UNIT * (n - n)) at 1 by lia. eapply (taken_intro h F n X pv spv q n W []); try done; [by left| | |].
    + cbn [hmem]. apply linked_app. split; [|split; [apply lookup_insert_eq|]]; (eapply linked_ext; [|eassumption]); intros a s Ha; apply lookup_insert_ne.
      * specialize (Hlo2 _ Ha). cbn in Hlo2. lia.
      * specialize (Hhi _ Ha). unfold UNIT in *. cbn in Hhi. lia.
    + replace (q + UNIT * (n - n)) with q by lia. cbn [hmem]. rewrite lookup_insert_ne by lia. by eexists.
    + cbn [hmem]. intros a _ Ha. apply lookup_insert_ne. apply not_eq_sym, (Ha (pv, spv)). rewrite E. apply elem_of_app. right. by left.
  - unfold set_size, at_ptr. rewrite Hq. cbn [mbind option_bind h_ptr h_size hmem]. rewrite lookup_insert_eq. cbn [mbind option_bind h_ptr h_size].
    rewrite u32_small by (unfold UNIT in *; lia). set (r := q + UNIT * (sq - n)). unfold new_header, set_freep. cbn [hmem freep brk].
    eexists r, _, _. split; [done|]. assert (q < r < q + UNIT * sq) as Hr by (unfold r, UNIT in *; lia).
    eapply (taken_intro h F n X pv spv q sq W [(q, sq - n)]); try done; [right; split; [done|lia]| | |].
    + assert (forall a s m v v', (a, s) ∈ X ++ [(pv, spv)] ++ W -> <[r := v]> (<[q := v']> m) !! a = m !! a) as Hkeep.
      { intros a s m0 v v' Ha. rewrite app_assoc in Ha. apply elem_of_app in Ha as [Ha|Ha]; [specialize (Hlo _ Ha)|specialize (Hhi _ Ha)]; cbn in *; by rewrite !lookup_insert_ne by lia. }
      apply linked_app. split; [|split; [|split]].
      * eapply linked_ext; [|exact HLX]. intros a s Ha. apply (Hkeep a s). apply elem_of_app. by left.
      * rewrite (Hkeep pv spv) by (apply elem_of_app; right; by left). done.
      * rewrite lookup_insert_ne, lookup_insert_eq by lia. done.
      * eapply linked_ext; [|exact HLW]. intros a s Ha. apply (Hkeep a s). apply elem_of_app. right. by right.
    + fold r. rewrite lookup_insert_eq. by eexists.
    + intros a Ha1 Ha2. rewrite !lookup_insert_ne; [done| |done]. apply not_eq_sym, (Ha2 (q, sq)). rewrite E. apply elem_of_app. right. right. by left.
Qed.

Context {HK : SbrkOk K}.

(** Asking the kernel for memory: refused, or a block at the old break joins
    the list. *)
Lemma morecore_spec h F n fuel :
  flist (hmem h) (freep h) (brk h) F -> 0 < base < brk h -> brk h < 2 ^ 31 -> 0 < n -> UNIT * n < 2 ^ 31 -> (length F + 1 < fuel)%nat ->
  morecore fuel n h = Some (0, h) \/
  exists nu h1 h' F', morecore fuel n h = Some (freep h', h') /\ freed h1 F (brk h) nu h' F' /\ n <= nu /\
    hmem h1 = <[brk h := mk_header (default 0 (h_ptr <$> hmem h !! brk h)) nu]> (hmem h) /\ brk h1 = brk h + UNIT * nu /\ brk h1 < 2 ^ 31.
Proof.
  intros HF Hbase Hb Hn Hn31 Hfuel. unfold morecore. set (nu := if n <? 4096 then 4096 else n).
  assert (n <= nu /\ 0 < nu /\ UNIT * nu < 2 ^ 31) as (Hnu & Hnu0 & Hnu31) by (unfold nu, UNIT in *; destruct (Z.ltb_spec n 4096); lia).
  clearbody nu. unfold sbrk. assert (i32 (nu * UNIT) = UNIT * nu) as ->.
  { unfold i32. rewrite Z.mod_small by (unfold UNIT in *; lia). replace (nu * UNIT <? 2 ^ 31) with true by lia. lia. }
  destruct (grants (brk h) (UNIT * nu)) eqn:G; [|by left]. right. apply grants_below in G; [|unfold UNIT in *; lia].
  set (h1 := new_header (brk h) nu _).
  assert (forall a s, (a, s) ∈ (base, 0) :: F -> a < brk h) as Hlt.
  { intros a s [[= -> ->]|Ha]%elem_of_cons; [lia|]. destruct (flist_pos _ _ _ _ _ HF Ha) as (H1 & H2 & _). unfold UNIT in *. cbn in *. lia. }
  assert (exists h' F', free fuel (brk h + UNIT) h1 = Some h' /\ freed h1 F (brk h) nu h' F') as (h' & F' & E & Hfr).
  { apply (free_block h1 F (brk h) nu (default 0 (h_ptr <$> hmem h !! brk h)) fuel); unfold h1; cbn [new_header hmem freep brk].
    - destruct HF as [H1 H2 H3 H4]. split; [| done| |done].
      + eapply linked_ext; [|exact H1]. intros a s Ha. apply lookup_insert_ne. specialize (Hlt a s Ha). lia.
      + eapply Forall_impl; [exact H3|]. intros x [Hx1 Hx2]. unfold UNIT in *. lia.
    - lia.
    - done.
    - unfold UNIT in *. lia.
    - apply lookup_insert_eq.
    - intros x Hx. destruct (flist_pos _ _ _ _ _ HF Hx) as (_ & H2 & _). by left.
    - done. }
  exists nu, h1, h', F'. rewrite E. split_and!; done.
Qed.

(** ** The invariant of the heap *)

(** [al]: the blocks that are allocated, by the address of their header. *)
Record heap_inv h (al : gmap Z Z) F : Prop := {
  hi_list : flist (hmem h) (freep h) (brk h) F;
  hi_base : 0 < base < brk h;
  hi_brk : brk h < 2 ^ 31;
  hi_block : forall a sz, al !! a = Some sz -> base < a /\ 0 < sz /\ a + UNIT * sz <= brk h;
  hi_header : forall a sz, al !! a = Some sz -> exists v, hmem h !! a = Some (mk_header v sz);
  hi_free : forall a sz x, al !! a = Some sz -> x ∈ F -> apart a sz x;
  hi_disjoint : forall a sz a' sz', al !! a = Some sz -> al !! a' = Some sz' -> a <> a' -> apart a sz (a', sz')
}.

(** The memory of the allocated blocks is the caller's. *)
Definition others_kept h h' (al : gmap Z Z) : Prop :=
  forall a sz c, al !! a = Some sz -> a <= c < a + UNIT * sz -> hmem h' !! c = hmem h !! c.

Lemma alloc_not_listed h al F a sz c x : heap_inv h al F -> al !! a = Some sz -> a <= c < a + UNIT * sz -> x ∈ (base, 0) :: F -> c <> fst x.
Proof.
  intros Hi Ha Hc [-> |Hx]%elem_of_cons; [destruct (hi_block _ _ _ Hi a sz Ha) as (? & _); cbn; lia|].
  pose proof (hi_free _ _ _ Hi a sz x Ha Hx) as Hap. destruct (flist_pos _ _ _ _ _ (hi_list _ _ _ Hi) Hx) as (? & _).
  unfold apart, UNIT in *. lia.
Qed.

(** Taking back the block at [a]. *)
Lemma free_inv_kept h al F a sz h' F' :
  heap_inv h al F -> al !! a = Some sz -> freed h F a sz h' F' -> heap_inv h' (delete a al) F' /\ others_kept h h' (delete a al).
Proof.
  intros Hi Ha Hfr. assert (others_kept h h' (delete a al)) as Hk.
  { intros c s y (Hne & Hc)%lookup_delete_Some Hy. apply (fr_mem _ _ _ _ _ _ Hfr).
    - intros ->. pose proof (hi_disjoint _ _ _ Hi c s a sz Hc Ha (not_eq_sym Hne)) as Hd. destruct (hi_block _ _ _ Hi a sz Ha) as (_ & ? & _). unfold apart, UNIT in *. cbn in *. lia.
    - intros x Hx. by eapply alloc_not_listed. }
  split; [|done]. pose proof (fr_brk _ _ _ _ _ _ Hfr) as Eb. destruct Hi as [H1 H2 H3 H4 H5 H6 H7]. split; rewrite ?Eb; try done.
  - rewrite <- Eb. apply Hfr.
  - intros c s (_ & Hc)%lookup_delete_Some. by apply H4.
  - intros c s Hc. pose proof Hc as (_ & Hc')%lookup_delete_Some. destruct (H5 c s Hc') as (v & Hv). destruct (H4 c s Hc') as (_ & ? & _).
    exists v. rewrite (Hk c s c Hc) by (unfold UNIT; lia). done.
  - intros c s x (Hne & Hc)%lookup_delete_Some Hx. destruct (H4 c s Hc) as (_ & Hs & _). apply (fr_covered _ _ _ _ _ _ Hfr c s Hs); [|done].
    intros y [-> |Hy]%elem_of_cons; [by apply H7|by apply H6].
  - intros c s c' s' (_ & Hc)%lookup_delete_Some (_ & Hc')%lookup_delete_Some. by apply H7.
Qed.

(** Giving out the block at [r]. *)
Lemma taken_inv h al F n r h' F' :
  heap_inv h al F -> 0 < n -> taken h F n r h' F' -> al !! r = None /\ heap_inv h' (<[r := n]> al) F' /\ others_kept h h' al.
Proof.
  intros Hi Hn Ht. destruct (tk_in _ _ _ _ _ _ Ht) as [Hr1 Hr2].
  assert (forall c s, al !! c = Some s -> apart c s (r, n)) as Hap.
  { intros c s Hc. destruct (hi_block _ _ _ Hi c s Hc) as (_ & Hs & _). apply (tk_covered _ _ _ _ _ _ Ht c s Hs); [|by left].
    intros x Hx. by apply (hi_free _ _ _ Hi). }
  assert (al !! r = None) as Hnone.
  { destruct (al !! r) as [s|] eqn:E; [|done]. specialize (Hap r s E). destruct (hi_block _ _ _ Hi r s E) as (_ & ? & _). unfold apart, UNIT in Hap. cbn in Hap. lia. }
  assert (others_kept h h' al) as Hk.
  { intros c s y Hc Hy. apply (tk_mem _ _ _ _ _ _ Ht).
    - intros ->. specialize (Hap c s Hc). unfold apart, UNIT in *. cbn in *. lia.
    - intros x Hx. by eapply alloc_not_listed. }
  split; [done|]. split; [|done]. pose proof (tk_brk _ _ _ _ _ _ Ht) as Eb. destruct Hi as [H1 H2 H3 H4 H5 H6 H7]. split; rewrite ?Eb; try done.
  - rewrite <- Eb. apply Ht.
  - intros c s [[<- <-]|[_ Hc]]%lookup_insert_Some; [done|by apply H4].
  - intros c s [[<- <-]|[_ Hc]]%lookup_insert_Some; [apply (tk_header _ _ _ _ _ _ Ht)|]. destruct (H5 c s Hc) as (v & Hv). destruct (H4 c s Hc) as (_ & ? & _).
    exists v. rewrite (Hk c s c Hc) by (unfold UNIT; lia). done.
  - intros c s x [[<- <-]|[_ Hc]]%lookup_insert_Some Hx; [by apply (tk_apart _ _ _ _ _ _ Ht)|]. destruct (H4 c s Hc) as (_ & Hs & _).
    apply (tk_covered _ _ _ _ _ _ Ht c s Hs); [|by right]. intros y Hy. by apply H6.
  - intros c s c' s' [[<- <-]|[_ Hc]]%lookup_insert_Some [[<- <-]|[_ Hc']]%lookup_insert_Some Hne; try done.
    + specialize (Hap c' s' Hc'). unfold apart in *. cbn in *. tauto.
    + by apply Hap.
    + by apply H7.
Qed.

(** After [morecore] the new block is free. *)
Lemma grown_inv h al F nu h1 h' F' :
  heap_inv h al F -> 0 < nu -> hmem h1 = <[brk h := mk_header (default 0 (h_ptr <$> hmem h !! brk h)) nu]> (hmem h) ->
  brk h1 = brk h + UNIT * nu -> brk h1 < 2 ^ 31 -> freed h1 F (brk h) nu h' F' -> heap_inv h' al F' /\ others_kept h h' al.
Proof.
  intros Hi Hnu Hm Hb Hb31 Hfr. assert (forall a sz c, al !! a = Some sz -> a <= c < a + UNIT * sz -> c < brk h) as Hlt.
  { intros a sz c Ha Hc. destruct (hi_block _ _ _ Hi a sz Ha) as (_ & _ & ?). lia. }
  assert (others_kept h h' al) as Hk.
  { intros a sz c Ha Hc. specialize (Hlt a sz c Ha Hc). rewrite (fr_mem _ _ _ _ _ _ Hfr); [rewrite Hm; apply lookup_insert_ne; lia|lia|].
    intros x Hx. by eapply alloc_not_listed. }
  split; [|done]. pose proof (fr_brk _ _ _ _ _ _ Hfr) as Eb. destruct Hi as [H1 H2 H3 H4 H5 H6 H7]. split; rewrite ?Eb, ?Hb; try done; try (unfold UNIT in *; lia).
  - rewrite <- Hb, <- Eb. apply Hfr.
  - intros a s Ha. destruct (H4 a s Ha) as (? & ? & ?). unfold UNIT in *. lia.
  - intros a s Ha. destruct (H5 a s Ha) as (v & Hv). exists v. destruct (H4 a s Ha) as (? & ? & ?). rewrite (Hk a s a Ha) by (unfold UNIT in *; lia). done.
  - intros a s x Ha Hx. destruct (H4 a s Ha) as (_ & Hs & Hend). apply (fr_covered _ _ _ _ _ _ Hfr a s Hs); [|done].
    intros y [-> |Hy]%elem_of_cons; [by right|by apply H6].
Qed.

Lemma freep_header h F : flist (hmem h) (freep h) (brk h) F -> exists x, at_ptr (freep h) h = Some x.
Proof. intros HF. destruct (fl_freep _ _ _ _ HF) as (sz & Hin). destruct (linked_lookup _ _ _ _ _ (fl_linked _ _ _ _ HF) Hin). by eexists. Qed.

Lemma freep_pos h F : flist (hmem h) (freep h) (brk h) F -> 0 < base -> freep h <> 0.
Proof.
  intros HF Hb. destruct (fl_freep _ _ _ _ HF) as (sz & [[= -> _]|Hin]%elem_of_cons); [lia|].
  destruct (flist_pos _ _ _ _ _ HF Hin) as (_ & _ & ?). cbn in *. lia.
Qed.

(** The loop of [malloc] from the start of a round. *)
Lemma malloc_loop_spec h al F n fuel x :
  heap_inv h al F -> 0 < n -> UNIT * n < 2 ^ 31 -> at_ptr (freep h) h = Some x -> (3 * length F + 7 <= fuel)%nat ->
  malloc_loop fuel n (freep h) (h_ptr x) h = Some (0, h) \/
  exists r h' F', malloc_loop fuel n (freep h) (h_ptr x) h = Some (r + UNIT, h') /\ al !! r = None /\
    heap_inv h' (<[r := n]> al) F' /\ others_kept h h' al /\ UNIT * (total F' + n) = UNIT * total F + (brk h' - brk h).
Proof.
  intros Hi Hn Hn31 Hx Hf. destruct (hi_base _ _ _ Hi) as [Hb0 Hb1]. pose proof (hi_brk _ _ _ Hi) as Hb31.
  destruct (scan_round h F n (hi_list _ _ _ Hi) Hn fuel x Hx ltac:(lia)) as [(pv & q & Hfit & ->)|(Hsmall & fuel' & Hf' & ->)].
  - right. destruct (malloc_take_spec h F n pv q (hi_list _ _ _ Hi) Hn Hfit Hb31 Hb0) as (r & h' & F' & E & Ht).
    destruct (taken_inv h al F n r h' F' Hi Hn Ht) as (Hr & Hi' & Hk). exists r, h', F'. split_and!; try done.
    pose proof (tk_total _ _ _ _ _ _ Ht). rewrite (tk_brk _ _ _ _ _ _ Ht). lia.
  - unfold malloc_more. destruct (morecore_spec h F n fuel' (hi_list _ _ _ Hi)) as [->|(nu & h1 & h' & F' & -> & Hfr & Hnu & Hm & Hb & Hb')];
      [done|done|done|done|lia|by left|]. right. cbn [mbind option_bind].
    destruct (grown_inv h al F nu h1 h' F' Hi ltac:(lia) Hm Hb Hb' Hfr) as [Hi' Hk].
    rewrite (proj2 (Z.eqb_neq _ _) (freep_pos h' F' (hi_list _ _ _ Hi') Hb0)). destruct (freep_header h' F' (hi_list _ _ _ Hi')) as (y & Hy).
    rewrite Hy. cbn [mbind option_bind]. pose proof (fr_length _ _ _ _ _ _ Hfr) as Hlen.
    destruct (scan_round h' F' n (hi_list _ _ _ Hi') Hn fuel' y Hy ltac:(lia)) as [(pv & q & Hfit & ->)|(Hsmall' & _)].
    2: { exfalso. destruct (fr_big _ _ _ _ _ _ Hfr) as (z & Hz & Hzn). specialize (Hsmall' z Hz). lia. }
    destruct (malloc_take_spec h' F' n pv q (hi_list _ _ _ Hi') Hn Hfit (hi_brk _ _ _ Hi') Hb0) as (r & h2 & F2 & -> & Ht).
    destruct (taken_inv h' al F' n r h2 F2 Hi' Hn Ht) as (Hr & Hi2 & Hk2). exists r, h2, F2. split_and!; try done.
    + intros a sz c Ha Hc. rewrite (Hk2 a sz c Ha Hc). by apply (Hk a sz).
    + pose proof (tk_total _ _ _ _ _ _ Ht). pose proof (fr_total _ _ _ _ _ _ Hfr). pose proof (fr_brk _ _ _ _ _ _ Hfr).
      rewrite (tk_brk _ _ _ _ _ _ Ht). lia.
Qed.

Lemma units_bounds nbytes : 0 <= nbytes < 2 ^ 31 - 64 -> nbytes <= UNIT * (units nbytes - 1) < nbytes + UNIT /\ UNIT * units nbytes < 2 ^ 31.
Proof.
  intros Hn. unfold units, UNIT. pose proof (Z.div_mod (nbytes + 16 - 1) 16 ltac:(lia)). pose proof (Z.mod_pos_bound (nbytes + 16 - 1) 16 ltac:(lia)).
  rewrite u32_small by lia. lia.
Qed.

(** C10: [malloc] of less than two gigabytes, on a well-formed heap (or the first
    call of all): it returns, with the null pointer and nothing changed when no
    free block is large enough and the kernel refuses more memory, or with the
    memory behind the header of a new block that is large enough by less than
    one unit.  The new block overlaps no other block, allocated or free; what
    the allocated blocks hold is unchanged, and no memory is lost: free and new
    units together are the free units before and what the kernel added. *)
Theorem malloc_allocates h al F nbytes fuel :
  heap_inv (started h) al F -> 0 <= nbytes < 2 ^ 31 - 64 -> (3 * length F + 7 <= fuel)%nat ->
  let n := units nbytes in
  malloc fuel nbytes h = Some (0, started h) \/
  exists a h' F', malloc fuel nbytes h = Some (a + UNIT, h') /\ nbytes <= UNIT * (n - 1) < nbytes + UNIT /\ al !! a = None /\
    heap_inv h' (<[a := n]> al) F' /\ others_kept (started h) h' al /\ UNIT * (total F' + n) = UNIT * total F + (brk h' - brk h).
Proof.
  intros Hi Hn Hf n. destruct (units_bounds nbytes Hn) as [Hu1 Hu2]. fold n in Hu1, Hu2. unfold malloc. fold n.
  destruct (freep_header (started h) F (hi_list _ _ _ Hi)) as (x & Hx). rewrite Hx. cbn [mbind option_bind].
  assert (brk (started h) = brk h) as Eb by (unfold started; by destruct (freep h =? 0)).
  destruct (malloc_loop_spec (started h) al F n fuel x Hi ltac:(unfold UNIT in *; lia) Hu2 Hx Hf) as [H|(r & h' & F' & H1 & H2 & H3 & H4 & H5)]; [by left|].
  right. exists r, h', F'. rewrite Eb in H5. done.
Qed.

(** C11: [free] of an allocated block returns; the heap is well formed without it,
    its units are free again, joined to the free blocks they touch (two free
    blocks never touch), and what the other blocks hold is unchanged. *)
Theorem free_takes_back h al F a sz fuel :
  heap_inv h al F -> al !! a = Some sz -> (length F + 1 < fuel)%nat ->
  exists h' F', free fuel (a + UNIT) h = Some h' /\ heap_inv h' (delete a al) F' /\ others_kept h h' (delete a al) /\
    total F' = total F + sz /\ brk h' = brk h.
Proof.
  intros Hi Ha Hf. destruct (hi_header _ _ _ Hi a sz Ha) as (v & Hv). destruct (hi_block _ _ _ Hi a sz Ha) as (Hb1 & Hb2 & Hb3).
  destruct (free_block h F a sz v fuel (hi_list _ _ _ Hi)) as (h' & F' & E & Hfr); [pose proof (hi_base _ _ _ Hi); lia|done|split; [done|apply Hi]|done| |done|].
  { intros x Hx. by apply (hi_free _ _ _ Hi). }
  destruct (free_inv_kept h al F a sz h' F' Hi Ha Hfr) as [Hi' Hk]. exists h', F'. split_and!; try done; [apply Hfr|apply (fr_brk _ _ _ _ _ _ Hfr)].
Qed.
End umalloc.

(** ** Examples *)

(** A machine with 128 megabytes. *)
Definition MEMORY : Z := 2 ^ 27.
#[export] Instance small_machine : Sbrk := fun b n => b + n <=? MEMORY.
#[export] Instance small_machine_ok : SbrkOk small_machine.
Proof. intros b n Hn. unfold grants, small_machine, MEMORY. lia. Qed.

(** A program with its static data at 64 and its break at 4096. *)
Definition new_program : heap := mk_heap ∅ 0 4096.

Lemma new_program_inv : heap_inv 64 (started 64 new_program) ∅ [].
Proof.
  split; try done; [split; [done| |constructor|by exists 0; left]|..].
  - constructor; constructor.
Qed.

Lemma malloc_allocates_witness :
  malloc 64 10 100 new_program = Some (0, started 64 new_program) \/
  exists a h' F', malloc 64 10 100 new_program = Some (a + UNIT, h') /\ heap_inv 64 h' {[a := 8]} F' /\ UNIT * (total F' + 8) = brk h' - 4096.
Proof.
  destruct (malloc_allocates 64 new_program ∅ [] 100 10 new_program_inv ltac:(lia) ltac:(cbn; lia)) as [H|(a & h' & F' & H1 & H2 & H3 & H4 & H5 & H6)]; [by left|].
  right. exists a, h', F'. split_and!; [exact H1|exact H4|exact H6].
Defined.

(** The heap after that call. *)
Definition sample_heap : heap :=
  mk_heap (<[64 := mk_header 4096 0]> (<[4096 := mk_header 64 4088]> {[69504 := mk_header 0 8]})) 64 69632.

Lemma sample_heap_inv : heap_inv 64 sample_heap {[69504 := 8]} [(4096, 4088)].
Proof.
  assert (forall a sz : Z, ({[69504 := 8]} : gmap Z Z) !! a = Some sz -> a = 69504 /\ sz = 8) as Hal.
  { intros a sz [<- <-]%lookup_singleton_Some. done. }
  split; try done.
  - split; [done| |by repeat constructor|by exists 0; left]. repeat constructor.
  - intros a sz [-> ->]%Hal. done.
  - intros a sz [-> ->]%Hal. by exists 0.
  - intros a sz x [-> ->]%Hal ->%list_elem_of_singleton. by left.
  - intros a sz a' sz' [-> ->]%Hal [-> ->]%Hal. done.
Qed.

Lemma free_takes_back_witness :
  malloc 64 10 100 new_program = Some (69504 + UNIT, sample_heap) /\
  exists h' F', free 10 (69504 + UNIT) sample_heap = Some h' /\ heap_inv 64 h' ∅ F' /\ total F' = 4096.
Proof.
  split; [vm_compute; reflexivity|].
  destruct (free_takes_back 64 sample_heap {[69504 := 8]} [(4096, 4088)] 69504 8 10 sample_heap_inv eq_refl ltac:(cbn; lia)) as (h' & F' & H1 & H2 & _ & H3 & _).
  rewrite delete_singleton_eq in H2. exists h', F'. split_and!; [exact H1|exact H2|rewrite H3; reflexivity].
Defined.

(** A request of almost four gigabytes: the number of bytes asked from the
    kernel wraps around to 16, and [malloc] returns a pointer to the very end
    of the program's memory, as a block of 2^28 + 1 units. *)
Theorem malloc_wraps :
  exists v h', malloc 64 10 (2 ^ 32 - 1) new_program = Some (brk h', h') /\ brk h' = brk new_program + UNIT /\
    hmem h' !! (brk h' - UNIT) = Some (mk_header v (2 ^ 28 + 1)) /\ units (2 ^ 32 - 1) = 2 ^ 28 + 1.
Proof.
  exists 64, (default new_program (snd <$> malloc 64 10 (2 ^ 32 - 1) new_program)). split_and!; vm_compute; reflexivity.
Qed.
