(* ===== verification/Sh.v ===== *)
(** * The shell's parser (user/sh.c)

    A line is read into a buffer; the parser works with pointers into it, here
    offsets.  [es] is the offset of the line's terminator.  A parsed command
    holds the beginning and the end of its words, and [nulterminate] stores
    terminators at the ends.  The recursive functions take fuel. *)

From S2P Require Import Prelude KString Ulib.

(** ** Commands *)

Definition MAXARGS : nat := 10.
Definition c_lt : Z := 60.       (* '<' *)
Definition c_gt : Z := 62.       (* '>' *)
Definition c_bar : Z := 124.     (* '|' *)
Definition c_amp : Z := 38.      (* '&' *)
Definition c_semi : Z := 59.     (* ';' *)
Definition c_open : Z := 40.     (* '(' *)
Definition c_close : Z := 41.    (* ')' *)
Definition c_plus : Z := 43.     (* '+', for >> *)
Definition c_a : Z := 97.        (* 'a', for a word *)

(** A word: the pointers [q] and [eq]. *)
Definition word : Type := nat * nat.

Inductive cmd : Type :=
| EXEC (argv : list word)
| REDIR (c : cmd) (file : word) (mode fd : Z)
| PIPE (left right : cmd)
| LIST (left right : cmd)
| BACK (c : cmd).

(** What a parsing function does: return, or print a message and exit. *)
Inductive parsed (A : Type) : Type := POk (a : A) | PPanic (msg : string) | PFuel.
Arguments POk {A} _.
Arguments PPanic {A} _.
Arguments PFuel {A}.

Definition pbind {A B} (x : parsed A) (f : A -> parsed B) : parsed B :=
  match x with POk a => f a | PPanic msg => PPanic msg | PFuel => PFuel end.
Notation "'let*' p := x 'in' k" := (pbind x (fun p => k)) (at level 10, p pattern, x at level 100, k at level 200).

Definition whitespace : list Z := [32; 9; 13; 10; 11].
Definition symbols : list Z := [c_lt; c_bar; c_gt; c_amp; c_semi; c_open; c_close].

(** [strchr(set, c)] as a test. *)
Definition in_set (set : list Z) (c : Z) : bool := match strchr set c with Some _ => true | None => false end.

Section parse.
Context (buf : list Z) (es : nat).

Definition chr (s : nat) : Z := default 0 (buf !! s).

(** [while(s < es && strchr(whitespace, *s)) s++], with [n = es - s]. *)
Fixpoint skip_ws (n s : nat) : nat :=
  match n with
  | O => s
  | S n' => if in_set whitespace (chr s) then skip_ws n' (S s) else s
  end.
Fixpoint skip_word (n s : nat) : nat :=
  match n with
  | O => s
  | S n' => if negb (in_set whitespace (chr s)) && negb (in_set symbols (chr s)) then skip_word n' (S s) else s
  end.

(** The token, the word when it is one, and the new position. *)
Definition gettoken (s : nat) : Z * word * nat :=
  let s := skip_ws (es - s) s in
  let q := s in
  let c := chr s in
  let '(ret, s) :=
    if c =? 0 then (c, s)
    else if (c =? c_bar) || (c =? c_open) || (c =? c_close) || (c =? c_semi) || (c =? c_amp) || (c =? c_lt) then (c, S s)
    else if c =? c_gt then if chr (S s) =? c_gt then (c_plus, S (S s)) else (c, S s)
    else (c_a, skip_word (es - s) s) in
  (ret, (q, s), skip_ws (es - s) s).

Definition peek (s : nat) (toks : list Z) : bool * nat :=
  let s := skip_ws (es - s) s in (negb (chr s =? 0) && in_set toks (chr s), s).

Definition O_CREATE_TRUNC : Z := 0x001 + 0x200 + 0x400.
Definition O_CREATE_APPEND : Z := 0x001 + 0x200.

Fixpoint parseredirs (fuel : nat) (c : cmd) (s : nat) : parsed (cmd * nat) :=
  match fuel with
  | O => PFuel
  | S fuel' =>
      let '(b, s) := peek s [c_lt; c_gt] in
      if b then
        let '(tok, _, s) := gettoken s in
        let '(t, w, s) := gettoken s in
        if negb (t =? c_a) then PPanic "missing file for redirection"
        else
          let c := if tok =? c_lt then REDIR c w 0 0
                   else if tok =? c_gt then REDIR c w O_CREATE_TRUNC 1
                   else if tok =? c_plus then REDIR c w O_CREATE_APPEND 1
                   else c in
          parseredirs fuel' c s
      else POk (c, s)
  end.

(** [cmd->argv[argc] = q; cmd->eargv[argc] = eq]: the EXEC node is the
    innermost one of the redirections built around it so far. *)
Fixpoint add_arg (w : word) (c : cmd) : cmd :=
  match c with
  | EXEC argv => EXEC (argv ++ [w])
  | REDIR c f mode fd => REDIR (add_arg w c) f mode fd
  | _ => c
  end.

(** The loop of [parseexec]. *)
Fixpoint exec_args (fuel : nat) (ret : cmd) (argc : nat) (s : nat) : parsed (cmd * nat) :=
  match fuel with
  | O => PFuel
  | S fuel' =>
      let '(b, s) := peek s [c_bar; c_close; c_amp; c_semi] in
      if b then POk (ret, s)
      else
        let '(tok, w, s) := gettoken s in
        if tok =? 0 then POk (ret, s)
        else if negb (tok =? c_a) then PPanic "syntax"
        else
          let ret := add_arg w ret in
          let argc := S argc in
          if (MAXARGS <=? argc)%nat then PPanic "too many args"
          else
            let* (ret, s) := parseredirs fuel' ret s in
            exec_args fuel' ret argc s
  end.

(** The loop of [parseline] over the ampersands. *)
Fixpoint backs (fuel : nat) (c : cmd) (s : nat) : parsed (cmd * nat) :=
  match fuel with
  | O => PFuel
  | S fuel' =>
      let '(b, s) := peek s [c_amp] in
      if b then let '(_, _, s) := gettoken s in backs fuel' (BACK c) s else POk (c, s)
  end.

Fixpoint parseline (fuel : nat) (s : nat) : parsed (cmd * nat) :=
  match fuel with
  | O => PFuel
  | S fuel' =>
      let* (c, s) := parsepipe fuel' s in
      let* (c, s) := backs fuel' c s in
      let '(b, s) := peek s [c_semi] in
      if b then
        let '(_, _, s) := gettoken s in
        let* (r, s) := parseline fuel' s in POk (LIST c r, s)
      else POk (c, s)
  end
with parsepipe (fuel : nat) (s : nat) : parsed (cmd * nat) :=
  match fuel with
  | O => PFuel
  | S fuel' =>
      let* (c, s) := parseexec fuel' s in
      let '(b, s) := peek s [c_bar] in
      if b then
        let '(_, _, s) := gettoken s in
        let* (r, s) := parsepipe fuel' s in POk (PIPE c r, s)
      else POk (c, s)
  end
with parseexec (fuel : nat) (s : nat) : parsed (cmd * nat) :=
  match fuel with
  | O => PFuel
  | S fuel' =>
      let '(b, s) := peek s [c_open] in
      if b then parseblock fuel' s
      else
        let* (ret, s) := parseredirs fuel' (EXEC []) s in
        exec_args fuel' ret 0 s
  end
with parseblock (fuel : nat) (s : nat) : parsed (cmd * nat) :=
  match fuel with
  | O => PFuel
  | S fuel' =>
      let '(b, s) := peek s [c_open] in
      if negb b then PPanic "parseblock"
      else
        let '(_, _, s) := gettoken s in
        let* (c, s) := parseline fuel' s in
        let '(b, s) := peek s [c_close] in
        if negb b then PPanic "syntax - missing )"
        else
          let '(_, _, s) := gettoken s in
          parseredirs fuel' c s
  end.
End parse.

(** [*p = 0] *)
Definition put_nul (buf : list Z) (w : word) : list Z := <[snd w := 0]> buf.

Fixpoint nulterminate (c : cmd) (buf : list Z) : list Z :=
  match c with
  | EXEC argv => foldl put_nul buf argv
  | REDIR c f _ _ => put_nul (nulterminate c buf) f
  | PIPE l r => nulterminate r (nulterminate l buf)
  | LIST l r => nulterminate r (nulterminate l buf)
  | BACK c => nulterminate c buf
  end.

Definition parsecmd (fuel : nat) (buf : list Z) : parsed (cmd * list Z) :=
  let es := Z.to_nat (strlen buf) in
  let* (c, s) := parseline buf es fuel 0 in
  let '(_, s) := peek buf es s [] in
  if negb (s =? es)%nat then PPanic "syntax"
  else POk (c, nulterminate c buf).
