(* ===== verification/ShParse.v ===== *)
(** * What the shell's parser accepts

    The tokens of a line and the grammar of command lines, as definitions of
    their own; the parser returns exactly for the lines of the grammar that
    have at most nine words per command, with the command that the grammar
    assigns to them, and prints an error otherwise. *)

From S2P Require Import Prelude KString Ulib Sh.

(** ** Tokens *)

Inductive token : Type := Word (w : list Z) | Sym (c : Z) | Append.

Definition flush (cur : list Z) : list token := match cur with [] => [] | _ => [Word cur] end.

(** [cur] is the word being read. *)
Fixpoint lex (cur l : list Z) : list token :=
  match l with
  | [] => flush cur
  | c :: l' =>
      if in_set whitespace c then flush cur ++ lex [] l'
      else if c =? c_gt then
        flush cur ++
        match l' with
        | d :: l'' => if d =? c_gt then Append :: lex [] l'' else Sym c :: lex [] l'
        | [] => [Sym c]
        end
      else if in_set symbols c then flush cur ++ Sym c :: lex [] l'
      else lex (cur ++ [c]) l'
  end.

(** ** The grammar *)

Inductive dir : Type := In | Out | OutAppend.
Record redir : Type := mk_redir { r_dir : dir; r_file : list Z }.

(** Lines, pipelines and their elements: a parenthesised line, or words and
    redirections in any order, those before the first word apart. *)
Inductive line : Type :=
| LEnd (p : pipeline) (bg : nat)
| LSeq (p : pipeline) (bg : nat) (l : line)
with pipeline : Type :=
| PEnd (e : element)
| PPipe (e : element) (p : pipeline)
with element : Type :=
| EBlock (l : line) (rs : list redir)
| ESimple (rs : list redir) (ws : list (list Z * list redir)).

Scheme line_mut := Induction for line Sort Prop
  with pipeline_mut := Induction for pipeline Sort Prop
  with element_mut := Induction for element Sort Prop.
Combined Scheme grammar_ind from line_mut, pipeline_mut, element_mut.

Definition dir_token (d : dir) : token := match d with In => Sym c_lt | Out => Sym c_gt | OutAppend => Append end.
Definition redir_tokens (r : redir) : list token := [dir_token (r_dir r); Word (r_file r)].
Definition redirs_tokens (rs : list redir) : list token := concat (redir_tokens <$> rs).
Definition words_tokens (ws : list (list Z * list redir)) : list token :=
  concat ((fun '(w, rs) => Word w :: redirs_tokens rs) <$> ws).

Fixpoint line_tokens (l : line) : list token :=
  match l with
  | LEnd p n => pipeline_tokens p ++ replicate n (Sym c_amp)
  | LSeq p n l => pipeline_tokens p ++ replicate n (Sym c_amp) ++ Sym c_semi :: line_tokens l
  end
with pipeline_tokens (p : pipeline) : list token :=
  match p with
  | PEnd e => element_tokens e
  | PPipe e p => element_tokens e ++ Sym c_bar :: pipeline_tokens p
  end
with element_tokens (e : element) : list token :=
  match e with
  | EBlock l rs => Sym c_open :: line_tokens l ++ Sym c_close :: redirs_tokens rs
  | ESimple rs ws => redirs_tokens rs ++ words_tokens ws
  end.

(** At most [MAXARGS - 1] words per command. *)
Fixpoint line_fits (l : line) : Prop :=
  match l with LEnd p _ => pipeline_fits p | LSeq p _ l => pipeline_fits p /\ line_fits l end
with pipeline_fits (p : pipeline) : Prop :=
  match p with PEnd e => element_fits e | PPipe e p => element_fits e /\ pipeline_fits p end
with element_fits (e : element) : Prop :=
  match e with EBlock l _ => line_fits l | ESimple _ ws => (length ws < MAXARGS)%nat end.

(** ** The command a line denotes, with its words *)

Inductive scmd : Type :=
| SExec (argv : list (list Z))
| SRedir (c : scmd) (file : list Z) (mode fd : Z)
| SPipe (left right : scmd)
| SList (left right : scmd)
| SBack (c : scmd).

Definition apply_redir (c : scmd) (r : redir) : scmd :=
  match r_dir r with
  | In => SRedir c (r_file r) 0 0
  | Out => SRedir c (r_file r) O_CREATE_TRUNC 1
  | OutAppend => SRedir c (r_file r) O_CREATE_APPEND 1
  end.
Definition in_background (n : nat) (c : scmd) : scmd := Nat.iter n SBack c.

Fixpoint line_cmd (l : line) : scmd :=
  match l with
  | LEnd p n => in_background n (pipeline_cmd p)
  | LSeq p n l => SList (in_background n (pipeline_cmd p)) (line_cmd l)
  end
with pipeline_cmd (p : pipeline) : scmd :=
  match p with PEnd e => element_cmd e | PPipe e p => SPipe (element_cmd e) (pipeline_cmd p) end
with element_cmd (e : element) : scmd :=
  match e with
  | EBlock l rs => foldl apply_redir (line_cmd l) rs
  | ESimple rs ws => foldl apply_redir (SExec (fst <$> ws)) (rs ++ concat (snd <$> ws))
  end.

(** What a parsed command means, given how a word is read. *)
Fixpoint read_cmd (rd : word -> list Z) (c : cmd) : scmd :=
  match c with
  | EXEC argv => SExec (rd <$> argv)
  | REDIR c f mode fd => SRedir (read_cmd rd c) (rd f) mode fd
  | PIPE l r => SPipe (read_cmd rd l) (read_cmd rd r)
  | LIST l r => SList (read_cmd rd l) (read_cmd rd r)
  | BACK c => SBack (read_cmd rd c)
  end.
(** The words of a command. *)
Fixpoint cmd_words (c : cmd) : list word :=
  match c with
  | EXEC argv => argv
  | REDIR c f _ _ => cmd_words c ++ [f]
  | PIPE l r => cmd_words l ++ cmd_words r
  | LIST l r => cmd_words l ++ cmd_words r
  | BACK c => cmd_words c
  end.

(** ** The scanner finds the tokens *)

Definition plain (c : Z) : bool := negb (in_set whitespace c) && negb (in_set symbols c).

Lemma in_set_elem set c : (0 ∉ set) -> in_set set c = true <-> c ∈ set.
Proof.
  unfold in_set. induction set as [|x set IH]; intros H0; cbn [strchr].
  - split; [done|intros H; by apply not_elem_of_nil in H].
  - apply not_elem_of_cons in H0 as [Hx H0]. rewrite (proj2 (Z.eqb_neq _ _) (not_eq_sym Hx)), elem_of_cons. destruct (Z.eqb_spec x c) as [-> |Hne].
    + split; [by left|done].
    + rewrite <- IH by done. destruct (strchr set c); cbn; split; intros H; [by right|done|done|by destruct H; [congruence|]].
Qed.

Lemma gt_symbol : in_set symbols c_gt = true.
Proof. done. Qed.

Section text.
Context (text junk : list Z) (H0 : 0 ∉ text).
Let buf : list Z := text ++ 0 :: junk.
Let es : nat := length text.
Implicit Types (s n : nat).

Abbreviation T s := (lex [] (drop s text)).

Lemma chr_end : chr buf es = 0.
Proof. unfold chr, buf, es. by rewrite lookup_app_r, Nat.sub_diag by lia. Qed.
Lemma drop_chr s : (s < es)%nat -> drop s text = chr buf s :: drop (S s) text.
Proof.
  intros Hs. destruct (lookup_lt_is_Some_2 text s Hs) as [c Hc]. unfold chr, buf. rewrite lookup_app_l by done. rewrite Hc. by apply drop_S.
Qed.
Lemma chr_nonzero s : (s < es)%nat -> chr buf s <> 0.
Proof.
  intros Hs. destruct (lookup_lt_is_Some_2 text s Hs) as [c Hc]. unfold chr, buf. rewrite lookup_app_l, Hc by done. cbn. intros ->.
  apply H0. by eapply list_elem_of_lookup_2.
Qed.
Lemma drop_end s : (es <= s)%nat -> drop s text = [].
Proof. apply drop_ge. Qed.

Lemma skip_ws_spec s : (s <= es)%nat -> let s' := skip_ws buf (es - s) s in
  (s <= s' <= es)%nat /\ T s' = T s /\ (s' = es \/ (s' < es)%nat /\ in_set whitespace (chr buf s') = false).
Proof.
  intros Hs. remember (es - s)%nat as n eqn:En. revert s Hs En. induction n as [|n IH]; intros s Hs En; cbn [skip_ws].
  - split_and!; [lia|lia|done|left; lia].
  - destruct (in_set whitespace (chr buf s)) eqn:E; [|split_and!; [lia|lia|done|right; split; [lia|done]]].
    destruct (IH (S s)) as (I1 & I2 & I3); [lia|lia|]. split_and!; [lia|lia| |done]. rewrite I2.
    rewrite (drop_chr s) by lia. cbn [lex]. by rewrite E.
Qed.

(** The characters from [q] to [e]. *)
Definition slice (w : word) : list Z := take (snd w - fst w) (drop (fst w) text).

(** The pointers delimit a word of the line. *)
Record is_word (w : word) : Prop := {
  iw_lt : (fst w < snd w)%nat;
  iw_end : (snd w <= es)%nat;
  iw_plain : forall j, (fst w <= j < snd w)%nat -> plain (chr buf j) = true;
  iw_stop : snd w = es \/ plain (chr buf (snd w)) = false
}.

Lemma lex_stop cur s : s = es \/ (s < es)%nat /\ plain (chr buf s) = false -> lex cur (drop s text) = flush cur ++ T s.
Proof.
  intros [-> |[Hs Hp]]; [rewrite drop_end by done; cbn; by rewrite app_nil_r|]. rewrite drop_chr by done. cbn [lex].
  unfold plain in Hp. destruct (in_set whitespace (chr buf s)); [done|]. destruct (Z.eqb_spec (chr buf s) c_gt) as [E|E]; [done|].
  by destruct (in_set symbols (chr buf s)).
Qed.

Lemma skip_word_spec s cur : (s <= es)%nat -> let s' := skip_word buf (es - s) s in
  (s <= s' <= es)%nat /\ lex cur (drop s text) = lex (cur ++ slice (s, s')) (drop s' text) /\
  (forall j, (s <= j < s')%nat -> plain (chr buf j) = true) /\ (s' = es \/ (s' < es)%nat /\ plain (chr buf s') = false).
Proof.
  intros Hs. remember (es - s)%nat as n eqn:En. revert s cur Hs En. induction n as [|n IH]; intros s cur Hs En; cbn [skip_word]; unfold slice; cbn [fst snd].
  - split_and!; [lia|lia|by rewrite Nat.sub_diag, take_0, app_nil_r|intros j Hj; lia|left; lia].
  - fold (plain (chr buf s)). destruct (plain (chr buf s)) eqn:E;
      [|split_and!; [lia|lia|by rewrite Nat.sub_diag, take_0, app_nil_r|intros j Hj; lia|right; split; [lia|done]]].
    destruct (IH (S s) (cur ++ [chr buf s])) as (I1 & I2 & I3 & I4); [lia|lia|]. set (s' := skip_word buf n (S s)) in *.
    split_and!; [lia|lia| |intros j Hj; destruct (decide (j = s)) as [-> |]; [done|apply I3; lia]|done].
    rewrite (drop_chr s) by lia. replace (s' - s)%nat with (S (s' - S s)) by lia. cbn [take lex]. pose proof E as E'. unfold plain in E. apply andb_prop in E as [E1%negb_true_iff E2%negb_true_iff].
    rewrite E1, E2. assert ((chr buf s =? c_gt) = false) as -> by (destruct (Z.eqb_spec (chr buf s) c_gt) as [Eq|]; [by rewrite Eq in E2|done]).
    rewrite I2. unfold slice. cbn [fst snd]. by rewrite <- app_assoc.
Qed.

(** The first token at a position where no space is left to skip. *)
Inductive first_token s : list token -> Prop :=
| FtEnd : s = es -> chr buf s = 0 -> first_token s []
| FtSym ts : (s < es)%nat -> chr buf s ∈ [c_bar; c_open; c_close; c_semi; c_amp; c_lt] -> ts = T (S s) -> first_token s (Sym (chr buf s) :: ts)
| FtOut ts : (s < es)%nat -> chr buf s = c_gt -> chr buf (S s) <> c_gt -> ts = T (S s) -> first_token s (Sym c_gt :: ts)
| FtAppend ts : (S s < es)%nat -> chr buf s = c_gt -> chr buf (S s) = c_gt -> ts = T (S (S s)) -> first_token s (Append :: ts)
| FtWord w ts s' : s' = skip_word buf (es - s) s -> is_word (s, s') -> w = slice (s, s') -> chr buf s <> 0 -> ts = T s' -> first_token s (Word w :: ts).

Lemma plain_symbol c : plain c = false -> in_set whitespace c = false -> in_set symbols c = true.
Proof. unfold plain. intros H1 H2. rewrite H2 in H1. by destruct (in_set symbols c). Qed.

Lemma first_token_spec s : s = es \/ (s < es)%nat /\ in_set whitespace (chr buf s) = false -> first_token s (T s).
Proof.
  intros [-> |[Hs Hw]]; [rewrite drop_end by done; apply FtEnd; [done|apply chr_end]|].
  destruct (in_set symbols (chr buf s)) eqn:Hsym.
  - rewrite drop_chr by done. cbn [lex]. rewrite Hw, Hsym. destruct (Z.eqb_spec (chr buf s) c_gt) as [Egt|Egt].
    + cbn [flush app]. destruct (decide (S s < es)%nat) as [Hs2|Hs2].
      * rewrite (drop_chr (S s)) by done. destruct (Z.eqb_spec (chr buf (S s)) c_gt) as [E2|E2]; [by apply FtAppend|].
        rewrite Egt. apply FtOut; [done|done|done|by rewrite (drop_chr (S s)) by done].
      * rewrite (drop_end (S s)) by lia. rewrite Egt. assert (S s = es) as Ees by lia. apply FtOut; [done|done|rewrite Ees, chr_end; done|by rewrite drop_end by lia].
    + cbn [flush app]. apply FtSym; [done| |done]. apply in_set_elem in Hsym; [|by apply (bool_decide_unpack _)]. unfold symbols in Hsym.
      rewrite !elem_of_cons in *. tauto.
  - assert (plain (chr buf s) = true) as Hp by (unfold plain; by rewrite Hw, Hsym).
    destruct (skip_word_spec s [] ltac:(lia)) as (I1 & I2 & I3 & I4). set (s' := skip_word buf (es - s) s) in *.
    assert (s < s')%nat as Hlt. { destruct (decide (s' = s)) as [E|]; [|lia]. rewrite E in I4. destruct I4 as [?|[_ I4]]; [lia|congruence]. }
    rewrite I2, lex_stop by done. cbn [app]. assert (is_word (s, s')) as Hiw by (split; cbn; [lia|lia|done|destruct I4 as [?|[_ ?]]; [by left|by right]]).
    unfold flush. destruct (slice (s, s')) as [|c w] eqn:Ew.
    + exfalso. unfold slice in Ew. cbn [fst snd] in Ew. rewrite drop_chr in Ew by done. by replace (s' - s)%nat with (S (s' - S s)) in Ew by lia.
    + cbn [app]. apply (FtWord s _ _ s'); [done|done|done|by apply chr_nonzero|done].
Qed.

(** [gettoken] takes the first token. *)
Lemma gettoken_spec s : (s <= es)%nat ->
  let '(tok, w, s') := gettoken buf es s in
  (s <= s' <= es)%nat /\
  match T s with
  | [] => tok = 0 /\ T s' = []
  | Word x :: ts => tok = c_a /\ is_word w /\ x = slice w /\ T s' = ts
  | Sym c :: ts => tok = c /\ c ∈ symbols /\ T s' = ts
  | Append :: ts => tok = c_plus /\ T s' = ts
  end.
Proof.
  intros Hs. unfold gettoken. destruct (skip_ws_spec s Hs) as (I1 & I2 & I3). set (s1 := skip_ws buf (es - s) s) in *.
  rewrite <- I2. assert (forall t, (s1 <= t <= es)%nat -> let s' := skip_ws buf (es - t) t in (s <= s' <= es)%nat /\ T s' = T t) as Hend.
  { intros t Ht. destruct (skip_ws_spec t) as (J1 & J2 & _); [lia|]. split; [lia|done]. }
  destruct (first_token_spec s1 I3) as [Hes Hc|ts Hlt Hc ->|ts Hlt Hc1 Hc2 ->|ts Hlt Hc1 Hc2 ->|w ts s' Es' Hw -> Hc0 ->].
  - rewrite Hc. cbn [Z.eqb]. destruct (Hend s1) as [E1 E2]; [lia|]. split_and!; [lia|lia|done|]. rewrite E2, drop_end by lia. done.
  - pose proof (chr_nonzero s1 Hlt) as Hn. rewrite (proj2 (Z.eqb_neq _ _) Hn).
    assert ((chr buf s1 =? c_bar) || (chr buf s1 =? c_open) || (chr buf s1 =? c_close) || (chr buf s1 =? c_semi) || (chr buf s1 =? c_amp) || (chr buf s1 =? c_lt) = true) as ->.
    { rewrite !elem_of_cons in Hc. destruct Hc as [->|[->|[->|[->|[->|[->|Hc]]]]]]; try done. by apply not_elem_of_nil in Hc. }
    destruct (Hend (S s1)) as [E1 E2]; [lia|]. split_and!; [lia|lia|done| |done]. unfold symbols. rewrite !elem_of_cons in *. tauto.
  - rewrite Hc1. cbn -[skip_ws]. rewrite (proj2 (Z.eqb_neq _ _) Hc2). destruct (Hend (S s1)) as [E1 E2]; [lia|]. split_and!; [lia|lia|done| |done].
    by apply (bool_decide_unpack _).
  - rewrite Hc1. cbn -[skip_ws]. rewrite Hc2. cbn -[skip_ws]. destruct (Hend (S (S s1))) as [E1 E2]; [lia|]. split_and!; [lia|lia|done|done].
  - pose proof (iw_plain _ Hw s1 ltac:(cbn; pose proof (iw_lt _ Hw); cbn in *; lia)) as Hp. rewrite (proj2 (Z.eqb_neq _ _) Hc0).
    assert (forall c, c ∈ symbols -> chr buf s1 <> c) as Hns.
    { intros c Hcs E. unfold plain in Hp. rewrite E in Hp. apply (in_set_elem symbols c) in Hcs; [|by apply (bool_decide_unpack _)]. rewrite Hcs, andb_false_r in Hp. done. }
    assert ((chr buf s1 =? c_bar) || (chr buf s1 =? c_open) || (chr buf s1 =? c_close) || (chr buf s1 =? c_semi) || (chr buf s1 =? c_amp) || (chr buf s1 =? c_lt) = false) as ->.
    { rewrite !(proj2 (Z.eqb_neq _ _)); [done|apply Hns; by apply (bool_decide_unpack _)..]. }
    rewrite (proj2 (Z.eqb_neq (chr buf s1) c_gt)) by (apply Hns; by apply (bool_decide_unpack _)). rewrite <- Es'.
    pose proof (iw_lt _ Hw). pose proof (iw_end _ Hw). cbn in *. destruct (Hend s') as [E1 E2]; [lia|]. split_and!; done || lia.
Qed.

(** [peek] looks at the first character of the next token. *)
Definition starts (toks : list Z) (ts : list token) : bool :=
  match ts with Sym c :: _ => in_set toks c | Append :: _ => in_set toks c_gt | _ => false end.

Lemma peek_spec s toks : (s <= es)%nat -> (forall c, in_set toks c = true -> in_set symbols c = true) ->
  let '(b, s') := peek buf es s toks in (s <= s' <= es)%nat /\ T s' = T s /\ b = starts toks (T s) /\ (T s = [] -> s' = es) /\ (s' = es -> T s = []).
Proof.
  intros Hs Htoks. unfold peek. destruct (skip_ws_spec s Hs) as (I1 & I2 & I3). set (s1 := skip_ws buf (es - s) s) in *. rewrite <- I2.
  assert (s1 = es -> T s1 = []) as Hend by (intros ->; by rewrite drop_end).
  split_and!; [lia|lia|done| | |done].
  - destruct (first_token_spec s1 I3) as [Hes Hc|ts Hlt Hc ->|ts Hlt Hc1 Hc2 ->|ts Hlt Hc1 Hc2 ->|w ts s' Es' Hw -> Hc0 ->]; cbn [starts].
    + by rewrite Hc.
    + by rewrite (proj2 (Z.eqb_neq _ _) (chr_nonzero s1 Hlt)).
    + by rewrite Hc1.
    + by rewrite Hc1.
    + rewrite (proj2 (Z.eqb_neq _ _) Hc0). cbn [negb andb]. destruct (in_set toks (chr buf s1)) eqn:E; [|done]. apply Htoks in E.
      pose proof (iw_plain _ Hw s1 ltac:(cbn; pose proof (iw_lt _ Hw); cbn in *; lia)) as Hp. unfold plain in Hp. by rewrite E, andb_false_r in Hp.
  - pose proof (first_token_spec s1 I3) as Hft. destruct Hft; done.
Qed.

(** ** Redirections and words *)

Definition redir_node (c : cmd) (x : dir * word) : cmd :=
  match fst x with
  | In => REDIR c (snd x) 0 0
  | Out => REDIR c (snd x) O_CREATE_TRUNC 1
  | OutAppend => REDIR c (snd x) O_CREATE_APPEND 1
  end.
Definition wrap (c : cmd) (xs : list (dir * word)) : cmd := foldl redir_node c xs.
Definition to_redir (x : dir * word) : redir := mk_redir (fst x) (slice (snd x)).
Definition words_ok (c : cmd) : Prop := forall w, w ∈ cmd_words c -> is_word w.

Lemma wrap_read c xs : read_cmd slice (wrap c xs) = foldl apply_redir (read_cmd slice c) (to_redir <$> xs).
Proof. revert c. induction xs as [|[d f] xs IH]; intros c; [done|]. cbn [wrap foldl fmap list_fmap]. unfold wrap in IH. rewrite IH. f_equal. by destruct d. Qed.
Lemma wrap_add w argv xs : add_arg w (wrap (EXEC argv) xs) = wrap (EXEC (argv ++ [w])) xs.
Proof.
  induction xs as [|x xs IH] using rev_ind; [done|]. unfold wrap in *. rewrite !foldl_app. cbn [foldl]. rewrite <- IH. unfold redir_node. by destruct (fst x).
Qed.
Lemma wrap_words c xs : words_ok c -> (forall x, x ∈ xs -> is_word (snd x)) -> words_ok (wrap c xs).
Proof.
  revert c. induction xs as [|x xs IH]; intros c Hc Hx; [done|]. cbn [wrap foldl]. apply IH; [|intros y Hy; apply Hx; by right].
  unfold words_ok, redir_node. destruct (fst x); cbn; intros w [Hw| ->%list_elem_of_singleton]%elem_of_app; try (apply Hx; by left); by apply Hc.
Qed.
Lemma redirs_tokens_cons r rs : redirs_tokens (r :: rs) = dir_token (r_dir r) :: Word (r_file r) :: redirs_tokens rs.
Proof. done. Qed.

Lemma redir_toks c : in_set [c_lt; c_gt] c = true -> in_set symbols c = true.
Proof. intros H. apply in_set_elem in H; [|by apply (bool_decide_unpack _)]. rewrite !elem_of_cons in H. by destruct H as [->|[->|H]]; [| |apply not_elem_of_nil in H]. Qed.

(** A redirection: its sign is read, then its file. *)
Lemma redir_sign s : (s <= es)%nat -> starts [c_lt; c_gt] (T s) = true ->
  exists d ts, T s = dir_token d :: ts /\ let '(tok, _, s1) := gettoken buf es s in
    (s <= s1 <= es)%nat /\ T s1 = ts /\ forall c w, (if tok =? c_lt then REDIR c w 0 0 else if tok =? c_gt then REDIR c w O_CREATE_TRUNC 1
      else if tok =? c_plus then REDIR c w O_CREATE_APPEND 1 else c) = redir_node c (d, w).
Proof.
  intros Hs Hst. pose proof (gettoken_spec s Hs) as Hg. destruct (gettoken buf es s) as [[tok w0] s1]. destruct (T s) as [|[x|c|] ts]; try done.
  - destruct Hg as (H1 & -> & Hc & H2). cbn [starts] in Hst. apply in_set_elem in Hst; [|by apply (bool_decide_unpack _)].
    rewrite !elem_of_cons in Hst. destruct Hst as [->|[->|Hst]]; [| |by apply not_elem_of_nil in Hst].
    + exists In, ts. done.
    + exists Out, ts. done.
  - destruct Hg as (H1 & -> & H2). exists OutAppend, ts. done.
Qed.

Lemma parseredirs_sound fuel c s : (s <= es)%nat -> (length (T s) < fuel)%nat ->
  (exists msg, parseredirs buf es fuel c s = PPanic msg) \/
  exists xs s', parseredirs buf es fuel c s = POk (wrap c xs, s') /\ (s <= s' <= es)%nat /\ T s = redirs_tokens (to_redir <$> xs) ++ T s' /\
    (forall x, x ∈ xs -> is_word (snd x)) /\ starts [c_lt; c_gt] (T s') = false.
Proof.
  revert c s. induction fuel as [|fuel IH]; intros c s Hs Hf; [lia|]. cbn [parseredirs].
  pose proof (peek_spec s [c_lt; c_gt] Hs redir_toks) as Hp. destruct (peek buf es s [c_lt; c_gt]) as [b s1]. destruct Hp as (P1 & P2 & -> & _).
  destruct (starts [c_lt; c_gt] (T s)) eqn:Hst.
  - rewrite <- P2 in Hst. destruct (redir_sign s1 ltac:(lia) Hst) as (d & ts & Ets & Hg). destruct (gettoken buf es s1) as [[tok w0] s2]. destruct Hg as (G1 & G2 & G3).
    pose proof (gettoken_spec s2 ltac:(lia)) as Hg. destruct (gettoken buf es s2) as [[t w] s3]. rewrite G2 in Hg. destruct Hg as (F1 & F2).
    destruct ts as [|[x|c'|] ts]; try (left; destruct F2 as (-> & F2); by eexists).
    + destruct F2 as (-> & F2 & -> & F3). cbn [Z.eqb negb]. rewrite Z.eqb_refl. cbn [negb]. rewrite G3.
      destruct (IH (redir_node c (d, w)) s3 ltac:(lia)) as [(msg & E)|(xs & s' & E & I1 & I2 & I3 & I4)].
      { rewrite F3. rewrite <- P2, Ets in Hf. cbn in Hf. lia. } { left. eexists. exact E. }
      right. exists ((d, w) :: xs), s'. split_and!; [exact E|lia|lia| | |done].
      * rewrite <- P2, Ets. cbn [fmap list_fmap]. rewrite redirs_tokens_cons. cbn [to_redir r_dir r_file fst snd app]. by rewrite <- I2, F3.
      * intros y [-> |Hy]%elem_of_cons; [done|by apply I3].
    + left. destruct F2 as (-> & F2 & _). apply in_set_elem in F2; [|by apply (bool_decide_unpack _)]. destruct (Z.eqb_spec c' c_a) as [->|]; [done|]. by eexists.
  - right. exists [], s1. split_and!; [done|lia|lia|by rewrite P2|intros x Hx; by apply not_elem_of_nil in Hx|by rewrite P2].
Qed.

Lemma parseredirs_complete rs fuel c s rest : (s <= es)%nat -> (length rs < fuel)%nat -> T s = redirs_tokens rs ++ rest -> starts [c_lt; c_gt] rest = false ->
  exists xs s', parseredirs buf es fuel c s = POk (wrap c xs, s') /\ (s' <= es)%nat /\ T s' = rest /\ to_redir <$> xs = rs /\ (forall x, x ∈ xs -> is_word (snd x)).
Proof.
  revert fuel c s. induction rs as [|r rs IH]; intros [|fuel] c s Hs Hf E Hst; try (cbn in Hf; lia); cbn [parseredirs];
    pose proof (peek_spec s [c_lt; c_gt] Hs redir_toks) as Hp; destruct (peek buf es s [c_lt; c_gt]) as [b s1]; destruct Hp as (P1 & P2 & -> & _).
  - cbn in E. rewrite E, Hst. exists [], s1. split_and!; [done|lia|by rewrite P2|done|intros x Hx; by apply not_elem_of_nil in Hx].
  - rewrite redirs_tokens_cons in E. cbn [app] in E. assert (starts [c_lt; c_gt] (T s) = true) as Hs1 by (rewrite E; by destruct (r_dir r)).
    rewrite Hs1. rewrite <- P2 in Hs1. destruct (redir_sign s1 ltac:(lia) Hs1) as (d & ts & Ets & Hg). destruct (gettoken buf es s1) as [[tok w0] s2]. destruct Hg as (G1 & G2 & G3).
    rewrite P2, E in Ets. injection Ets as Ed <-. assert (d = r_dir r) as -> by (by destruct d, (r_dir r)).
    pose proof (gettoken_spec s2 ltac:(lia)) as Hg. destruct (gettoken buf es s2) as [[t w] s3]. rewrite G2 in Hg. destruct Hg as (F1 & -> & F2 & F3 & F4).
    rewrite Z.eqb_refl. cbn [negb]. rewrite G3. destruct (IH fuel (redir_node c (r_dir r, w)) s3 ltac:(lia) ltac:(cbn in Hf; lia) F4 Hst) as (xs & s' & E' & I1 & I2 & I3 & I4).
    exists ((r_dir r, w) :: xs), s'. split_and!; [exact E'|done|done| |intros y [-> |Hy]%elem_of_cons; [done|by apply I4]].
    cbn [fmap list_fmap]. rewrite I3. unfold to_redir. cbn [fst snd]. rewrite <- F3. by destruct r.
Qed.

(** ** Simple commands *)

Definition end_toks : list Z := [c_bar; c_close; c_amp; c_semi].
Lemma toks_sub toks : Forall (fun c => c ∈ symbols) toks -> (0 ∉ toks) -> forall c, in_set toks c = true -> in_set symbols c = true.
Proof.
  intros Hf Hz c Hc. apply in_set_elem in Hc; [|done]. rewrite Forall_forall in Hf. apply in_set_elem; [by apply (bool_decide_unpack _)|by apply Hf].
Qed.
Ltac toks_tac := apply toks_sub; by apply (bool_decide_unpack _).

Definition to_words (x : word * list (dir * word)) : list Z * list redir := (slice (fst x), to_redir <$> snd x).
Definition simple (argv : list word) (xs : list (dir * word)) : cmd := wrap (EXEC argv) xs.
Lemma simple_add w argv xs : add_arg w (simple argv xs) = simple (argv ++ [w]) xs.
Proof. apply wrap_add. Qed.
Lemma simple_wrap argv xs xs' : wrap (simple argv xs) xs' = simple argv (xs ++ xs').
Proof. unfold simple, wrap. by rewrite foldl_app. Qed.
Lemma words_tokens_cons w rs ws : words_tokens ((w, rs) :: ws) = Word w :: redirs_tokens rs ++ words_tokens ws.
Proof. done. Qed.

Lemma exec_args_sound fuel argv xs s : (s <= es)%nat -> (length (T s) < fuel)%nat -> (length argv < MAXARGS)%nat ->
  (exists msg, exec_args buf es fuel (simple argv xs) (length argv) s = PPanic msg) \/
  exists ws s', exec_args buf es fuel (simple argv xs) (length argv) s = POk (simple (argv ++ (fst <$> ws)) (xs ++ concat (snd <$> ws)), s') /\
    (s <= s' <= es)%nat /\ T s = words_tokens (to_words <$> ws) ++ T s' /\ (length argv + length ws < MAXARGS)%nat /\
    (forall x, x ∈ ws -> is_word (fst x) /\ forall y, y ∈ snd x -> is_word (snd y)).
Proof.
  revert argv xs s. induction fuel as [|fuel IH]; intros argv xs s Hs Hf Hargc; [lia|]. cbn [exec_args]. fold end_toks.
  pose proof (peek_spec s end_toks Hs ltac:(toks_tac)) as Hp. destruct (peek buf es s end_toks) as [b s1]. destruct Hp as (P1 & P2 & -> & _).
  assert (forall s', (s <= s' <= es)%nat -> T s = T s' -> exists ws s'',
    POk (simple argv xs, s') = POk (simple (argv ++ (fst <$> ws)) (xs ++ concat (snd <$> ws)), s'') /\
    (s <= s'' <= es)%nat /\ T s = words_tokens (to_words <$> ws) ++ T s'' /\ (length argv + length ws < MAXARGS)%nat /\
    (forall x, x ∈ ws -> is_word (fst x) /\ forall y, y ∈ snd x -> is_word (snd y))) as Hnone.
  { intros s' Hs' E. exists [], s'. cbn [fmap list_fmap concat length]. rewrite !app_nil_r, Nat.add_0_r. split_and!; [done|lia|lia|done|done|].
    intros x Hx. by apply not_elem_of_nil in Hx. }
  destruct (starts end_toks (T s)); [right; apply Hnone; [lia|done]|].
  pose proof (gettoken_spec s1 ltac:(lia)) as Hg. destruct (gettoken buf es s1) as [[tok w] s2]. rewrite P2 in Hg. destruct Hg as (G1 & G2).
  destruct (T s) as [|[x|c|] ts] eqn:Ets.
  - destruct G2 as [-> G2]. cbn [Z.eqb]. right. apply Hnone; [lia|done].
  - destruct G2 as (-> & Hw & -> & G3). cbn [Z.eqb negb]. replace (c_a =? 0) with false by done. rewrite Z.eqb_refl. cbn [negb]. rewrite simple_add.
    destruct (Nat.leb_spec MAXARGS (S (length argv))) as [Hm|Hm]; [left; by eexists|].
    destruct (parseredirs_sound fuel (simple (argv ++ [w]) xs) s2 ltac:(lia)) as [(msg & E)|(xs' & s3 & E & I1 & I2 & I3 & _)].
    { rewrite G3. cbn in Hf. lia. } { left. rewrite E. by eexists. }
    rewrite E. cbn [pbind]. rewrite simple_wrap.
    replace (S (length argv)) with (length (argv ++ [w])) by (rewrite length_app; cbn; lia).
    destruct (IH (argv ++ [w]) (xs ++ xs') s3 ltac:(lia)) as [(msg & E2)|(ws & s' & E2 & J1 & J2 & J3 & J4)].
    { apply (f_equal length) in I2. rewrite length_app, G3 in I2. cbn in Hf. lia. } { rewrite length_app; cbn; lia. } { left. by eexists. }
    rewrite E2. right. exists ((w, xs') :: ws), s'. cbn [fmap list_fmap concat fst snd length]. rewrite <- !app_assoc. split_and!; [done|lia|lia| | |].
    + unfold to_words at 1. cbn [fst snd]. rewrite words_tokens_cons. cbn [app]. by rewrite <- app_assoc, <- J2, <- I2, G3.
    + rewrite length_app in J3. cbn in J3. lia.
    + intros x [-> |Hx]%elem_of_cons; [done|by apply J4].
  - left. destruct G2 as (-> & Hc & G3). apply in_set_elem in Hc; [|by apply (bool_decide_unpack _)].
    destruct (Z.eqb_spec c 0) as [->|]; [done|]. destruct (Z.eqb_spec c c_a) as [->|]; [done|]. by eexists.
  - left. destruct G2 as (-> & G3). by eexists.
Qed.

(** What may follow an element, a pipeline, a line. *)
Definition follows (toks : list Z) (ts : list token) : Prop := ts = [] \/ starts toks ts = true.
Lemma follows_not toks toks' ts : follows toks ts -> (forall c, in_set toks c = true -> in_set toks' c = false) -> starts toks' ts = false.
Proof.
  intros [-> |H] Hd; [done|]. destruct ts as [|[x|c|] ts]; cbn in *; try done; by apply Hd.
Qed.

Lemma exec_args_complete ws fuel argv xs s rest : (s <= es)%nat -> (length (T s) < fuel)%nat -> (length argv + length ws < MAXARGS)%nat ->
  T s = words_tokens ws ++ rest -> follows end_toks rest ->
  exists ws' s', exec_args buf es fuel (simple argv xs) (length argv) s = POk (simple (argv ++ (fst <$> ws')) (xs ++ concat (snd <$> ws')), s') /\
    (s' <= es)%nat /\ T s' = rest /\ to_words <$> ws' = ws.
Proof.
  revert fuel argv xs s. induction ws as [|[x rs] ws IH]; intros [|fuel] argv xs s Hs Hf Hm E Hfo; try (cbn in Hf; lia); cbn [exec_args]; fold end_toks;
    pose proof (peek_spec s end_toks Hs ltac:(toks_tac)) as Hp; destruct (peek buf es s end_toks) as [b s1]; destruct Hp as (P1 & P2 & -> & _);
    pose proof (gettoken_spec s1 ltac:(lia)) as Hg; destruct (gettoken buf es s1) as [[tok w] s2]; rewrite P2 in Hg; destruct Hg as (G1 & G2).
  - cbn in E. assert (forall s', (s' <= es)%nat -> T s' = rest -> exists ws' s'',
      POk (simple argv xs, s') = POk (simple (argv ++ (fst <$> ws')) (xs ++ concat (snd <$> ws')), s'') /\ (s'' <= es)%nat /\ T s'' = rest /\ to_words <$> ws' = []) as Hnone.
    { intros s' Hs' E'. exists [], s'. cbn. by rewrite !app_nil_r. }
    destruct Hfo as [Hfo|Hfo].
    + rewrite E, Hfo in *. cbn [starts]. destruct G2 as [-> G2]. cbn [Z.eqb]. apply Hnone; [lia|by rewrite G2].
    + rewrite E, Hfo. apply Hnone; [lia|by rewrite P2].
  - rewrite words_tokens_cons in E. cbn [app] in E. rewrite E in *. cbn [starts]. destruct G2 as (-> & Hw & -> & G3).
    replace (c_a =? 0) with false by done. rewrite Z.eqb_refl. cbn [negb]. rewrite simple_add. cbn [length] in *.
    replace (MAXARGS <=? S (length argv))%nat with false by lia. rewrite <- app_assoc in G3.
    assert (starts [c_lt; c_gt] (words_tokens ws ++ rest) = false) as Hst.
    { destruct ws as [|[x' rs'] ws]; [|done]. eapply follows_not; [exact Hfo|]. intros c Hc. apply in_set_elem in Hc; [|by apply (bool_decide_unpack _)].
      unfold end_toks in Hc. rewrite !elem_of_cons in Hc. by destruct Hc as [->|[->|[->|[->|Hc]]]]; [..|apply not_elem_of_nil in Hc]. }
    assert (length rs <= length (redirs_tokens rs))%nat as Hrs by (clear; induction rs; [done|rewrite redirs_tokens_cons; cbn; lia]).
    destruct (parseredirs_complete rs fuel (simple (argv ++ [w]) xs) s2 _ ltac:(lia) ltac:(cbn in Hf; rewrite !length_app in Hf; lia) G3 Hst) as (xs' & s3 & E3 & I1 & I2 & I3 & I4).
    rewrite E3. cbn [pbind]. rewrite simple_wrap.
    replace (S (length argv)) with (length (argv ++ [w])) by (rewrite length_app; cbn; lia).
    destruct (IH fuel (argv ++ [w]) (xs ++ xs') s3 I1) as (ws' & s' & E4 & J1 & J2 & J3); [|rewrite length_app; cbn; lia|done|done|].
    { rewrite I2. cbn in Hf. rewrite !length_app in *. lia. }
    rewrite E4. exists ((w, xs') :: ws'), s'. cbn [fmap list_fmap concat fst snd]. rewrite <- !app_assoc. split_and!; [done|done|done|]. rewrite J3. unfold to_words. cbn [fst snd]. by rewrite I3.
Qed.

(** ** Lines *)

(** A symbol that [peek] has seen is taken. *)
Lemma take_symbol s c : (s <= es)%nat -> c <> c_gt -> starts [c] (T s) = true ->
  exists ts, T s = Sym c :: ts /\ let '(_, _, s') := gettoken buf es s in (s <= s' <= es)%nat /\ T s' = ts.
Proof.
  intros Hs Hc Hst. pose proof (gettoken_spec s Hs) as Hg. destruct (gettoken buf es s) as [[tok w] s'].
  assert (forall d, in_set [c] d = true -> d = c) as Heq.
  { intros d. unfold in_set. cbn [strchr]. destruct (c =? 0); [done|]. by destruct (Z.eqb_spec c d). }
  destruct (T s) as [|[x|d|] ts]; try done.
  - apply Heq in Hst as ->. exists ts. tauto.
  - apply Heq in Hst. congruence.
Qed.

Lemma iter_back n c : read_cmd slice (Nat.iter n BACK c) = in_background n (read_cmd slice c).
Proof. unfold in_background. induction n as [|n IH]; [done|]. rewrite !Nat.iter_succ. cbn [read_cmd]. by rewrite IH. Qed.
Lemma iter_words n c : cmd_words (Nat.iter n BACK c) = cmd_words c.
Proof. induction n as [|n IH]; [done|]. by rewrite Nat.iter_succ. Qed.

Lemma backs_spec fuel c s : (s <= es)%nat -> (length (T s) < fuel)%nat ->
  exists n s', backs buf es fuel c s = POk (Nat.iter n BACK c, s') /\ (s <= s' <= es)%nat /\
    T s = replicate n (Sym c_amp) ++ T s' /\ starts [c_amp] (T s') = false.
Proof.
  revert c s. induction fuel as [|fuel IH]; intros c s Hs Hf; [lia|]. cbn [backs].
  pose proof (peek_spec s [c_amp] Hs ltac:(toks_tac)) as Hp. destruct (peek buf es s [c_amp]) as [b s1]. destruct Hp as (P1 & P2 & -> & _).
  destruct (starts [c_amp] (T s)) eqn:Hst.
  - rewrite <- P2 in Hst. destruct (take_symbol s1 c_amp ltac:(lia) ltac:(done) Hst) as (ts & Ets & Hg). destruct (gettoken buf es s1) as [[tok w] s2]. destruct Hg as (G1 & G2).
    destruct (IH (BACK c) s2 ltac:(lia)) as (n & s' & E & I1 & I2 & I3); [rewrite G2; rewrite <- P2, Ets in Hf; cbn in Hf; lia|].
    exists (S n), s'. split_and!; [by rewrite E, Nat.iter_succ_r|lia|lia| |done].
    rewrite <- P2, Ets. cbn [replicate app]. by rewrite <- I2, G2.
  - exists 0%nat, s1. split_and!; [done|lia|lia|by rewrite P2|by rewrite P2].
Qed.

Definition psound {A} (tokens : A -> list token) (fits : A -> Prop) (means : A -> scmd) s (r : parsed (cmd * nat)) : Prop :=
  match r with
  | PFuel => False
  | PPanic _ => True
  | POk (c, s') => (s <= s' <= es)%nat /\ exists t, T s = tokens t ++ T s' /\ fits t /\ read_cmd slice c = means t /\ words_ok c
  end.
Abbreviation line_sound := (psound line_tokens line_fits line_cmd).
Abbreviation pipeline_sound := (psound pipeline_tokens pipeline_fits pipeline_cmd).
Abbreviation element_sound := (psound element_tokens element_fits element_cmd).

Lemma words_ok_app l r : words_ok l -> words_ok r -> words_ok (PIPE l r).
Proof. intros Hl Hr w [Hw|Hw]%elem_of_app; auto. Qed.

(** The equations of the four functions. *)
Lemma parseline_S fuel s : parseline buf es (S fuel) s =
  let* (c, s) := parsepipe buf es fuel s in
  let* (c, s) := backs buf es fuel c s in
  let '(b, s) := peek buf es s [c_semi] in
  if b then let '(_, _, s) := gettoken buf es s in let* (r, s) := parseline buf es fuel s in POk (LIST c r, s) else POk (c, s).
Proof. done. Qed.
Lemma parsepipe_S fuel s : parsepipe buf es (S fuel) s =
  let* (c, s) := parseexec buf es fuel s in
  let '(b, s) := peek buf es s [c_bar] in
  if b then let '(_, _, s) := gettoken buf es s in let* (r, s) := parsepipe buf es fuel s in POk (PIPE c r, s) else POk (c, s).
Proof. done. Qed.
Lemma parseexec_S fuel s : parseexec buf es (S fuel) s =
  let '(b, s) := peek buf es s [c_open] in
  if b then parseblock buf es fuel s else let* (ret, s) := parseredirs buf es fuel (EXEC []) s in exec_args buf es fuel ret 0 s.
Proof. done. Qed.
Lemma parseblock_S fuel s : parseblock buf es (S fuel) s =
  let '(b, s) := peek buf es s [c_open] in
  if negb b then PPanic "parseblock" else
  let '(_, _, s) := gettoken buf es s in
  let* (c, s) := parseline buf es fuel s in
  let '(b, s) := peek buf es s [c_close] in
  if negb b then PPanic "syntax - missing )" else let '(_, _, s) := gettoken buf es s in parseredirs buf es fuel c s.
Proof. done. Qed.

Section sound.
Context (fuel : nat).
Context (IHl : forall s, (s <= es)%nat -> (4 * length (T s) + 4 <= fuel)%nat -> line_sound s (parseline buf es fuel s)).
Context (IHp : forall s, (s <= es)%nat -> (4 * length (T s) + 3 <= fuel)%nat -> pipeline_sound s (parsepipe buf es fuel s)).
Context (IHe : forall s, (s <= es)%nat -> (4 * length (T s) + 2 <= fuel)%nat -> element_sound s (parseexec buf es fuel s)).
Context (IHb : forall s, (s <= es)%nat -> (4 * length (T s) + 1 <= fuel)%nat -> element_sound s (parseblock buf es fuel s)).

Lemma line_step s : (s <= es)%nat -> (4 * length (T s) + 4 <= S fuel)%nat -> line_sound s (parseline buf es (S fuel) s).
Proof.
  intros Hs Hf. rewrite parseline_S.
  specialize (IHp s Hs ltac:(lia)). destruct (parsepipe buf es fuel s) as [[c s1]|msg|]; [|exact I|exact IHp]. cbn [pbind].
  destruct IHp as (P1 & p & P2 & P3 & P4 & P5). assert (length (T s1) <= length (T s))%nat as Hle by (rewrite P2, length_app; lia).
  destruct (backs_spec fuel c s1 ltac:(lia) ltac:(lia)) as (n & s2 & -> & B1 & B2 & _). cbn [pbind].
  pose proof (peek_spec s2 [c_semi] ltac:(lia) ltac:(toks_tac)) as Hp. destruct (peek buf es s2 [c_semi]) as [b s3]. destruct Hp as (Q1 & Q2 & -> & _).
  destruct (starts [c_semi] (T s2)) eqn:Hst.
  + rewrite <- Q2 in Hst. destruct (take_symbol s3 c_semi ltac:(lia) ltac:(done) Hst) as (ts & Ets & Hg). destruct (gettoken buf es s3) as [[tok w] s4]. destruct Hg as (G1 & G2).
    assert (length (T s4) < length (T s))%nat as Hlt. { rewrite P2, B2, <- Q2, Ets, G2, !length_app. cbn. lia. }
    specialize (IHl s4 ltac:(lia) ltac:(lia)). destruct (parseline buf es fuel s4) as [[r s5]|msg|]; [|exact I|exact IHl]. cbn [pbind]. destruct IHl as (L1 & l & L2 & L3 & L4 & L5).
    split; [lia|]. exists (LSeq p n l). split_and!; [|by split|cbn [read_cmd line_cmd]; by rewrite iter_back, P4, L4|].
    * cbn [line_tokens]. rewrite P2, B2, <- Q2, Ets, <- G2, L2, <- !app_assoc. done.
    * apply (words_ok_app (Nat.iter n BACK c)); [unfold words_ok; by rewrite iter_words|done].
  + split; [lia|]. exists (LEnd p n). split_and!; [|done|cbn [read_cmd line_cmd]; by rewrite iter_back, P4|unfold words_ok; by rewrite iter_words].
    cbn [line_tokens]. by rewrite P2, B2, Q2, <- app_assoc.
Qed.

Lemma pipeline_step s : (s <= es)%nat -> (4 * length (T s) + 3 <= S fuel)%nat -> pipeline_sound s (parsepipe buf es (S fuel) s).
Proof.
  intros Hs Hf. rewrite parsepipe_S.
  specialize (IHe s Hs ltac:(lia)). destruct (parseexec buf es fuel s) as [[c s1]|msg|]; [|exact I|exact IHe]. cbn [pbind].
  destruct IHe as (P1 & e & P2 & P3 & P4 & P5). assert (length (T s1) <= length (T s))%nat as Hle by (rewrite P2, length_app; lia).
  pose proof (peek_spec s1 [c_bar] ltac:(lia) ltac:(toks_tac)) as Hp. destruct (peek buf es s1 [c_bar]) as [b s3]. destruct Hp as (Q1 & Q2 & -> & _).
  destruct (starts [c_bar] (T s1)) eqn:Hst.
  + rewrite <- Q2 in Hst. destruct (take_symbol s3 c_bar ltac:(lia) ltac:(done) Hst) as (ts & Ets & Hg). destruct (gettoken buf es s3) as [[tok w] s4]. destruct Hg as (G1 & G2).
    assert (length (T s4) < length (T s))%nat as Hlt. { rewrite P2, <- Q2, Ets, G2, !length_app. cbn. lia. }
    specialize (IHp s4 ltac:(lia) ltac:(lia)). destruct (parsepipe buf es fuel s4) as [[r s5]|msg|]; [|exact I|exact IHp]. cbn [pbind]. destruct IHp as (L1 & l & L2 & L3 & L4 & L5).
    split; [lia|]. exists (PPipe e l). split_and!; [|by split|cbn [read_cmd pipeline_cmd]; by rewrite P4, L4|by apply words_ok_app].
    cbn [pipeline_tokens]. rewrite P2, <- Q2, Ets, <- G2, L2, <- !app_assoc. done.
  + split; [lia|]. exists (PEnd e). split_and!; [by rewrite Q2|done|done|done].
Qed.

Lemma element_step s : (s <= es)%nat -> (4 * length (T s) + 2 <= S fuel)%nat -> element_sound s (parseexec buf es (S fuel) s).
Proof.
  intros Hs Hf. rewrite parseexec_S.
  pose proof (peek_spec s [c_open] ltac:(lia) ltac:(toks_tac)) as Hp. destruct (peek buf es s [c_open]) as [b s1]. destruct Hp as (Q1 & Q2 & -> & _).
  destruct (starts [c_open] (T s)) eqn:Hst.
  + specialize (IHb s1 ltac:(lia) ltac:(rewrite Q2; lia)). destruct (parseblock buf es fuel s1) as [[c s2]|msg|]; [|exact I|exact IHb]. destruct IHb as (B1 & t & B2 & B3).
    split; [lia|]. exists t. by rewrite <- Q2.
  + destruct (parseredirs_sound fuel (EXEC []) s1 ltac:(lia) ltac:(rewrite Q2; lia)) as [(msg & ->)|(xs & s2 & -> & I1 & I2 & I3 & _)]; [done|]. cbn [pbind].
    assert (length (T s2) <= length (T s))%nat as Hle by (rewrite <- Q2, I2, length_app; lia).
    destruct (exec_args_sound fuel [] xs s2 ltac:(lia) ltac:(lia) ltac:(unfold MAXARGS; cbn; lia)) as [(msg & E)|(ws & s3 & E & J1 & J2 & J3 & J4)]; cbn [length] in *; unfold simple in E at 1; rewrite E; [done|].
    split; [lia|]. exists (ESimple (to_redir <$> xs) (to_words <$> ws)). split_and!.
    * cbn [element_tokens]. by rewrite <- Q2, I2, J2, <- app_assoc.
    * cbn. by rewrite length_fmap.
    * unfold simple. rewrite wrap_read. cbn [read_cmd element_cmd app]. rewrite fmap_app. f_equal; [|f_equal].
      -- f_equal. by rewrite <- !list_fmap_compose.
      -- clear. induction ws as [|[w ys] ws IH]; [done|]. cbn [fmap list_fmap concat snd]. rewrite fmap_app, IH. done.
    * unfold simple. apply wrap_words.
      -- cbn [app]. intros w (x & -> & Hx)%list_elem_of_fmap. by apply J4.
      -- intros x [Hx|Hx]%elem_of_app; [by apply I3|]. apply list_elem_of_In, in_concat in Hx as (ys & Hy & Hx). apply list_elem_of_In in Hy, Hx.
         apply list_elem_of_fmap in Hy as (z & -> & Hz). by apply (J4 z Hz).
Qed.

Lemma block_step s : (s <= es)%nat -> (4 * length (T s) + 1 <= S fuel)%nat -> element_sound s (parseblock buf es (S fuel) s).
Proof.
  intros Hs Hf. rewrite parseblock_S.
  pose proof (peek_spec s [c_open] ltac:(lia) ltac:(toks_tac)) as Hp. destruct (peek buf es s [c_open]) as [b s1]. destruct Hp as (Q1 & Q2 & -> & _).
  destruct (starts [c_open] (T s)) eqn:Hst; [|exact I]. cbn [negb]. rewrite <- Q2 in Hst.
  destruct (take_symbol s1 c_open ltac:(lia) ltac:(done) Hst) as (ts & Ets & Hg). destruct (gettoken buf es s1) as [[tok w] s2]. destruct Hg as (G1 & G2).
  assert (length (T s2) < length (T s))%nat as Hlt by (rewrite <- Q2, Ets, G2; cbn; lia).
  specialize (IHl s2 ltac:(lia) ltac:(lia)). destruct (parseline buf es fuel s2) as [[c s3]|msg|]; [|exact I|exact IHl]. cbn [pbind]. destruct IHl as (L1 & l & L2 & L3 & L4 & L5).
  pose proof (peek_spec s3 [c_close] ltac:(lia) ltac:(toks_tac)) as Hp. destruct (peek buf es s3 [c_close]) as [b s4]. destruct Hp as (R1 & R2 & -> & _).
  destruct (starts [c_close] (T s3)) eqn:Hst2; [|exact I]. cbn [negb]. rewrite <- R2 in Hst2.
  destruct (take_symbol s4 c_close ltac:(lia) ltac:(done) Hst2) as (ts2 & Ets2 & Hg). destruct (gettoken buf es s4) as [[tok2 w2] s5]. destruct Hg as (G3 & G4).
  assert (length (T s5) < length (T s))%nat as Hlt2. { rewrite L2, <- R2, Ets2, <- G4, length_app in Hlt. cbn in Hlt. lia. }
  destruct (parseredirs_sound fuel c s5 ltac:(lia) ltac:(lia)) as [(msg & ->)|(xs & s6 & -> & I1 & I2 & I3 & _)]; [done|].
  split; [lia|]. exists (EBlock l (to_redir <$> xs)). split_and!; [|done|cbn [element_cmd]; by rewrite wrap_read, L4|by apply wrap_words].
  cbn [element_tokens]. rewrite <- Q2, Ets, <- G2, L2, <- R2, Ets2, <- G4, I2. cbn [app]. by rewrite <- app_assoc.
Qed.
End sound.

Lemma parse_sound fuel :
  (forall s, (s <= es)%nat -> (4 * length (T s) + 4 <= fuel)%nat -> line_sound s (parseline buf es fuel s)) /\
  (forall s, (s <= es)%nat -> (4 * length (T s) + 3 <= fuel)%nat -> pipeline_sound s (parsepipe buf es fuel s)) /\
  (forall s, (s <= es)%nat -> (4 * length (T s) + 2 <= fuel)%nat -> element_sound s (parseexec buf es fuel s)) /\
  (forall s, (s <= es)%nat -> (4 * length (T s) + 1 <= fuel)%nat -> element_sound s (parseblock buf es fuel s)).
Proof.
  induction fuel as [|fuel (IHl & IHp & IHe & IHb)]; [split_and!; intros; lia|].
  split_and!; [by apply line_step|by apply pipeline_step|by apply element_step|by apply block_step].
Qed.

(** ** Every line of the grammar is parsed *)

Definition pcomplete {A} (tokens : A -> list token) (fits : A -> Prop) (means : A -> scmd) (k : nat) (toks : list Z)
    (parse : nat -> nat -> parsed (cmd * nat)) (t : A) : Prop :=
  forall fuel s rest, (s <= es)%nat -> (4 * length (T s) + k <= fuel)%nat -> fits t -> T s = tokens t ++ rest -> follows toks rest ->
  exists c s', parse fuel s = POk (c, s') /\ (s' <= es)%nat /\ T s' = rest /\ read_cmd slice c = means t.
Definition pipe_toks : list Z := [c_close; c_amp; c_semi].
Abbreviation line_complete := (pcomplete line_tokens line_fits line_cmd 4 [c_close] (parseline buf es)).
Abbreviation pipeline_complete := (pcomplete pipeline_tokens pipeline_fits pipeline_cmd 3 pipe_toks (parsepipe buf es)).
Abbreviation element_complete := (pcomplete element_tokens element_fits element_cmd 2 end_toks (parseexec buf es)).

Lemma follows_sub toks toks' ts : follows toks ts -> (forall c, in_set toks c = true -> in_set toks' c = true) -> follows toks' ts.
Proof. intros [-> |H] Hs; [by left|right]. destruct ts as [|[x|c|] ts]; cbn in *; try done; by apply Hs. Qed.

Lemma not_redir toks ts : follows toks ts -> Forall (fun c => in_set [c_lt; c_gt] c = false) toks -> (0 ∉ toks) -> starts [c_lt; c_gt] ts = false.
Proof.
  intros Hfo Hf Hz. eapply follows_not; [exact Hfo|]. intros c Hc. apply in_set_elem in Hc; [|done]. rewrite Forall_forall in Hf. by apply Hf.
Qed.

Lemma redirs_length rs : (length rs <= length (redirs_tokens rs))%nat.
Proof. induction rs; [done|]. rewrite redirs_tokens_cons. cbn. lia. Qed.

Lemma complete_simple rs ws : element_complete (ESimple rs ws).
Proof.
  intros [|fuel] s rest Hs Hf Hfit E Hfo; [lia|]. rewrite parseexec_S. cbn [element_tokens element_fits] in *. rewrite <- app_assoc in E.
  pose proof (peek_spec s [c_open] Hs ltac:(toks_tac)) as Hp. destruct (peek buf es s [c_open]) as [b s1]. destruct Hp as (Q1 & Q2 & -> & _).
  assert (starts [c_open] (T s) = false) as ->.
  { rewrite E. destruct rs as [|r rs]; [|rewrite redirs_tokens_cons; by destruct (r_dir r)]. destruct ws as [|[w rs] ws]; [|done].
    eapply follows_not; [exact Hfo|]. intros c Hc. apply in_set_elem in Hc; [|by apply (bool_decide_unpack _)].
    unfold end_toks in Hc. rewrite !elem_of_cons in Hc. by destruct Hc as [->|[->|[->|[->|Hc]]]]; [..|apply not_elem_of_nil in Hc]. }
  assert (starts [c_lt; c_gt] (words_tokens ws ++ rest) = false) as Hst.
  { destruct ws as [|[w rs'] ws]; [|done]. eapply not_redir; [exact Hfo|by apply (bool_decide_unpack _)..]. }
  pose proof (redirs_length rs) as Hrs. assert (length (T s) = length (redirs_tokens rs) + length (words_tokens ws ++ rest))%nat as Hlen by (by rewrite E, length_app).
  destruct (parseredirs_complete rs fuel (EXEC []) s1 _ ltac:(lia) ltac:(lia) ltac:(by rewrite Q2) Hst) as (xs & s2 & -> & I1 & I2 & I3 & _). cbn [pbind].
  destruct (exec_args_complete ws fuel [] xs s2 rest I1 ltac:(rewrite I2; lia) ltac:(cbn; lia) I2 Hfo) as (ws' & s3 & E3 & J1 & J2 & J3).
  cbn [length] in E3. unfold simple in E3 at 1. rewrite E3. eexists _, s3. split_and!; [done|done|done|]. unfold simple. rewrite wrap_read.
  cbn [read_cmd element_cmd app]. rewrite fmap_app, I3, <- J3. f_equal; [|f_equal].
  - f_equal. by rewrite <- !list_fmap_compose.
  - clear. induction ws' as [|[w ys] ws IH]; [done|]. cbn [fmap list_fmap concat snd]. rewrite fmap_app, IH. done.
Qed.

Lemma starts_sym c ts : c <> 0 -> starts [c] (Sym c :: ts) = true.
Proof. intros Hc. cbn. unfold in_set. cbn [strchr]. by rewrite (proj2 (Z.eqb_neq _ _) Hc), Z.eqb_refl. Qed.

(** One symbol is looked at and taken. *)
Lemma next_symbol s c ts : (s <= es)%nat -> in_set symbols c = true -> c <> c_gt -> c <> 0 -> T s = Sym c :: ts ->
  exists s1, peek buf es s [c] = (true, s1) /\ (s1 <= es)%nat /\ T s1 = Sym c :: ts /\
    exists tok w s2, gettoken buf es s1 = (tok, w, s2) /\ (s2 <= es)%nat /\ T s2 = ts.
Proof.
  intros Hs Hc Hgt Hz E. assert (forall d, in_set [c] d = true -> in_set symbols d = true) as Hsub.
  { intros d. unfold in_set at 1. cbn [strchr]. destruct (c =? 0); [done|]. by destruct (Z.eqb_spec c d) as [<-|]. }
  pose proof (peek_spec s [c] Hs Hsub) as Hp. destruct (peek buf es s [c]) as [b s1]. destruct Hp as (Q1 & Q2 & -> & _).
  rewrite E in Q2 |- *. rewrite starts_sym by done. exists s1. split_and!; [done|lia|done|].
  destruct (take_symbol s1 c ltac:(lia) Hgt) as (ts' & Ets & Hg); [rewrite Q2; by apply starts_sym|]. rewrite Q2 in Ets. injection Ets as <-.
  destruct (gettoken buf es s1) as [[tok w] s2]. exists tok, w, s2. split_and!; [done|lia|apply Hg].
Qed.

Lemma complete_block l rs : line_complete l -> element_complete (EBlock l rs).
Proof.
  intros IH [|[|fuel]] s rest Hs Hf Hfit E Hfo; try lia. rewrite parseexec_S. cbn [element_tokens element_fits app] in *. rewrite <- app_assoc in E. cbn [app] in E.
  destruct (next_symbol s c_open _ Hs ltac:(done) ltac:(done) ltac:(done) E) as (s1 & -> & P1 & P2 & _). rewrite parseblock_S.
  destruct (next_symbol s1 c_open _ P1 ltac:(done) ltac:(done) ltac:(done) P2) as (s2 & -> & Q1 & Q2 & tok & w & s3 & -> & R1 & R2). cbn [negb].
  assert (length (T s) = S (length (T s3)))%nat as Hlen by (rewrite E, R2; done).
  destruct (IH fuel s3 (Sym c_close :: redirs_tokens rs ++ rest) R1 ltac:(lia) Hfit R2 ltac:(by right)) as (c & s4 & -> & I1 & I2 & I3). cbn [pbind].
  destruct (next_symbol s4 c_close _ I1 ltac:(done) ltac:(done) ltac:(done) I2) as (s5 & -> & J1 & J2 & tok2 & w2 & s6 & -> & K1 & K2). cbn [negb].
  pose proof (redirs_length rs) as Hrs. rewrite R2, !length_app in Hlen. cbn in Hlen. rewrite length_app in Hlen.
  destruct (parseredirs_complete rs fuel c s6 rest K1 ltac:(lia) K2) as (xs & s7 & -> & L1 & L2 & L3 & _); [eapply not_redir; [exact Hfo|by apply (bool_decide_unpack _)..]|].
  eexists _, s7. split_and!; [done|done|done|]. cbn [element_cmd]. by rewrite wrap_read, I3, L3.
Qed.

Lemma complete_pipe e p : element_complete e -> pipeline_complete p -> pipeline_complete (PPipe e p).
Proof.
  intros IHe IHp [|fuel] s rest Hs Hf [Hfit1 Hfit2] E Hfo; [lia|]. rewrite parsepipe_S. cbn [pipeline_tokens] in E. rewrite <- app_assoc in E. cbn [app] in E.
  destruct (IHe fuel s _ Hs ltac:(lia) Hfit1 E ltac:(by right)) as (c & s1 & -> & I1 & I2 & I3). cbn [pbind].
  destruct (next_symbol s1 c_bar _ I1 ltac:(done) ltac:(done) ltac:(done) I2) as (s2 & -> & Q1 & Q2 & tok & w & s3 & -> & R1 & R2).
  assert (length (T s) = length (element_tokens e) + S (length (T s3)))%nat as Hlen by (rewrite E, R2, length_app; done).
  destruct (IHp fuel s3 rest R1 ltac:(lia) Hfit2 R2 Hfo) as (r & s4 & -> & J1 & J2 & J3). cbn [pbind].
  eexists _, s4. split_and!; [done|done|done|]. cbn [read_cmd pipeline_cmd]. by rewrite I3, J3.
Qed.

Lemma complete_last e : element_complete e -> pipeline_complete (PEnd e).
Proof.
  intros IHe [|fuel] s rest Hs Hf Hfit E Hfo; [lia|]. rewrite parsepipe_S. cbn [pipeline_tokens pipeline_fits] in *.
  assert (follows end_toks rest) as Hfo2.
  { eapply follows_sub; [exact Hfo|]. intros c Hc. apply in_set_elem in Hc; [|by apply (bool_decide_unpack _)]. apply in_set_elem; [by apply (bool_decide_unpack _)|].
    unfold pipe_toks, end_toks in *. rewrite !elem_of_cons in *. tauto. }
  destruct (IHe fuel s rest Hs ltac:(lia) Hfit E Hfo2) as (c & s1 & -> & I1 & I2 & I3). cbn [pbind].
  pose proof (peek_spec s1 [c_bar] I1 ltac:(toks_tac)) as Hp. destruct (peek buf es s1 [c_bar]) as [b s2]. destruct Hp as (Q1 & Q2 & -> & _).
  assert (starts [c_bar] (T s1) = false) as ->.
  { rewrite I2. eapply follows_not; [exact Hfo|]. intros d Hd. apply in_set_elem in Hd; [|by apply (bool_decide_unpack _)].
    unfold pipe_toks in Hd. rewrite !elem_of_cons in Hd. by destruct Hd as [->|[->|[->|Hd]]]; [..|apply not_elem_of_nil in Hd]. }
  exists c, s2. split_and!; [done|lia|by rewrite Q2|done].
Qed.

Lemma amps_unique n m ts ts' : replicate n (Sym c_amp) ++ ts = replicate m (Sym c_amp) ++ ts' -> starts [c_amp] ts = false -> starts [c_amp] ts' = false -> n = m /\ ts = ts'.
Proof.
  revert m. induction n as [|n IH]; intros [|m] E H1 H2; cbn in E.
  - done.
  - by rewrite E in H1.
  - by rewrite <- E in H2.
  - injection E as E. destruct (IH m E H1 H2) as [-> ->]. done.
Qed.

(** A pipeline and its ampersands, followed by the end of the line or a
    semicolon. *)
Lemma complete_head p n fuel s rest : pipeline_complete p -> (s <= es)%nat -> (4 * length (T s) + 4 <= S fuel)%nat -> pipeline_fits p ->
  T s = pipeline_tokens p ++ replicate n (Sym c_amp) ++ rest -> follows [c_close; c_semi] rest ->
  exists c s1 s2, parsepipe buf es fuel s = POk (c, s1) /\ backs buf es fuel c s1 = POk (Nat.iter n BACK c, s2) /\ (s2 <= es)%nat /\ T s2 = rest /\
    read_cmd slice (Nat.iter n BACK c) = in_background n (pipeline_cmd p).
Proof.
  intros IHp Hs Hf Hfit E Hfo. assert (forall d, in_set [c_close; c_semi] d = true -> d = c_close \/ d = c_semi) as Hd.
  { intros d Hc. apply in_set_elem in Hc; [|by apply (bool_decide_unpack _)]. rewrite !elem_of_cons in Hc. destruct Hc as [->|[->|Hc]]; [by left|by right|by apply not_elem_of_nil in Hc]. }
  assert (follows pipe_toks (replicate n (Sym c_amp) ++ rest)) as Hfo2.
  { destruct n; [|by right]. eapply follows_sub; [exact Hfo|]. intros d [-> | ->]%Hd; done. }
  destruct (IHp fuel s _ Hs ltac:(lia) Hfit E Hfo2) as (c & s1 & E1 & I1 & I2 & I3).
  assert (length (T s1) < fuel)%nat as Hlt. { rewrite E in Hf. rewrite I2. rewrite !length_app in *. lia. }
  destruct (backs_spec fuel c s1 I1 Hlt) as (m & s2 & E2 & J1 & J2 & J3). rewrite I2 in J2.
  destruct (amps_unique n m rest (T s2) J2) as [<- Er]; [|done|].
  { eapply follows_not; [exact Hfo|]. intros d [-> | ->]%Hd; done. }
  exists c, s1, s2. split_and!; [done|done|lia|done|]. by rewrite iter_back, I3.
Qed.

Lemma complete_lend p n : pipeline_complete p -> line_complete (LEnd p n).
Proof.
  intros IHp [|fuel] s rest Hs Hf Hfit E Hfo; [lia|]. rewrite parseline_S. cbn [line_tokens line_fits] in *. rewrite <- app_assoc in E.
  assert (forall d, in_set [c_close] d = true -> d = c_close) as Hd.
  { intros d Hc. apply in_set_elem in Hc; [|by apply (bool_decide_unpack _)]. by apply list_elem_of_singleton in Hc. }
  assert (follows [c_close; c_semi] rest) as Hfo2 by (eapply follows_sub; [exact Hfo|]; by intros d ->%Hd).
  destruct (complete_head p n fuel s rest IHp Hs Hf Hfit E Hfo2) as (c & s1 & s2 & -> & E2 & I1 & I2 & I3). cbn [pbind]. rewrite E2. cbn [pbind].
  pose proof (peek_spec s2 [c_semi] I1 ltac:(toks_tac)) as Hp. destruct (peek buf es s2 [c_semi]) as [b s3]. destruct Hp as (Q1 & Q2 & -> & _).
  assert (starts [c_semi] (T s2) = false) as -> by (rewrite I2; eapply follows_not; [exact Hfo|]; by intros d ->%Hd).
  eexists _, s3. split_and!; [done|lia|by rewrite Q2|done].
Qed.

Lemma complete_lseq p n l : pipeline_complete p -> line_complete l -> line_complete (LSeq p n l).
Proof.
  intros IHp IHl [|fuel] s rest Hs Hf [Hfit1 Hfit2] E Hfo; [lia|]. rewrite parseline_S. cbn [line_tokens] in E. rewrite <- !app_assoc in E. cbn [app] in E.
  destruct (complete_head p n fuel s _ IHp Hs Hf Hfit1 E ltac:(by right)) as (c & s1 & s2 & -> & E2 & I1 & I2 & I3). cbn [pbind]. rewrite E2. cbn [pbind].
  destruct (next_symbol s2 c_semi _ I1 ltac:(done) ltac:(done) ltac:(done) I2) as (s3 & -> & Q1 & Q2 & tok & w & s4 & -> & R1 & R2).
  destruct (IHl fuel s4 rest R1) as (r & s5 & -> & J1 & J2 & J3); [|done|done|done|].
  { rewrite E in Hf. rewrite R2. rewrite !length_app in *. cbn in Hf. rewrite length_app in Hf. lia. }
  cbn [pbind]. eexists _, s5. split_and!; [done|done|done|]. cbn [read_cmd line_cmd]. by rewrite I3, J3.
Qed.

Lemma grammar_complete : (forall l, line_complete l) /\ (forall p, pipeline_complete p) /\ (forall e, element_complete e).
Proof.
  apply grammar_ind.
  - intros p IHp n. by apply complete_lend.
  - intros p IHp n l IHl. by apply complete_lseq.
  - intros e IHe. by apply complete_last.
  - intros e IHe p IHp. by apply complete_pipe.
  - intros l IHl rs. by apply complete_block.
  - apply complete_simple.
Qed.

(** ** The terminators *)

Lemma nulterminate_words c b : nulterminate c b = foldl put_nul b (cmd_words c).
Proof.
  revert b. induction c as [argv|c IH f mode fd|l IHl r IHr|l IHl r IHr|c IH]; intros b; cbn [nulterminate cmd_words]; rewrite ?foldl_app; try done.
  - by rewrite IH.
  - by rewrite IHl, IHr.
  - by rewrite IHl, IHr.
Qed.
Lemma put_nul_lookup ws b j : (forall w, w ∈ ws -> (snd w < length b)%nat) ->
  foldl put_nul b ws !! j = if decide (j ∈ snd <$> ws) then Some 0 else b !! j.
Proof.
  revert b. induction ws as [|w ws IH]; intros b Hb; [done|]. cbn [foldl fmap list_fmap]. rewrite IH.
  - unfold put_nul. destruct (decide (j ∈ snd <$> ws)) as [Hj|Hj]; [by rewrite decide_True by by right|].
    destruct (decide (j = snd w)) as [-> |Hne].
    + rewrite decide_True by by left. apply list_lookup_insert_eq, Hb. by left.
    + rewrite decide_False by (by intros [?|?]%elem_of_cons). by apply list_lookup_insert_ne, not_eq_sym.
  - intros x Hx. unfold put_nul. rewrite length_insert. apply Hb. by right.
Qed.

(** Every word is a string of its own in the buffer once the terminators are
    stored. *)
Lemma word_string c w : words_ok c -> w ∈ cmd_words c -> cstr (drop (fst w) (nulterminate c buf)) = slice w.
Proof.
  intros Hc Hw. pose proof (Hc w Hw) as [W1 W2 W3 W4]. rewrite nulterminate_words. set (b := foldl put_nul buf (cmd_words c)).
  assert (forall x, x ∈ cmd_words c -> (snd x < length buf)%nat) as Hlen.
  { intros x Hx. pose proof (iw_end _ (Hc x Hx)). unfold buf. rewrite length_app. cbn. unfold es in *. lia. }
  assert (forall j, b !! j = if decide (j ∈ snd <$> cmd_words c) then Some 0 else buf !! j) as Hb by (intros j; by apply put_nul_lookup).
  assert (b !! snd w = Some 0) as Hend. { rewrite Hb, decide_True; [done|]. by apply list_elem_of_fmap_2. }
  assert (forall j, (fst w <= j < snd w)%nat -> b !! j = text !! j) as Hin.
  { intros j Hj. rewrite Hb, decide_False; [unfold buf; apply lookup_app_l; unfold es in *; lia|]. intros (x & -> & Hx)%list_elem_of_fmap.
    destruct (iw_stop _ (Hc x Hx)) as [E|E]; [lia|]. specialize (W3 (snd x) Hj). congruence. }
  assert (drop (fst w) b = slice w ++ 0 :: drop (S (snd w)) b) as ->.
  { rewrite <- (take_drop (snd w - fst w) (drop (fst w) b)). rewrite drop_drop. replace (fst w + (snd w - fst w))%nat with (snd w) by lia. f_equal.
    - apply list_eq. intros j. unfold slice. destruct (decide (j < snd w - fst w)%nat) as [Hj|Hj].
      + rewrite !lookup_take_lt, !lookup_drop by done. apply Hin. lia.
      + rewrite !lookup_take_ge by lia. done.
    - by apply drop_S. }
  assert (forall x, x ∈ slice w -> x <> 0) as Hnz.
  { intros x Hx ->. apply H0. unfold slice in Hx. apply elem_of_take in Hx as (k & Hk & _). rewrite lookup_drop in Hk. by eapply list_elem_of_lookup_2. }
  clear -Hnz. induction (slice w) as [|x l IH]; [done|]. cbn. rewrite (proj2 (Z.eqb_neq _ _) (Hnz x ltac:(left))). f_equal. apply IH. intros y Hy. apply Hnz. by right.
Qed.

Lemma read_cmd_ext rd rd' c : (forall w, w ∈ cmd_words c -> rd w = rd' w) -> read_cmd rd c = read_cmd rd' c.
Proof.
  induction c as [argv|c IH f mode fd|l IHl r IHr|l IHl r IHr|c IH]; cbn [cmd_words read_cmd]; intros H.
  - f_equal. apply list_fmap_ext. intros i x Hx. apply H. by eapply list_elem_of_lookup_2.
  - rewrite IH, H; [done| |]; intros; try apply H; rewrite ?elem_of_app, ?list_elem_of_singleton; tauto.
  - rewrite IHl, IHr; [done| |]; intros; apply H; rewrite elem_of_app; tauto.
  - rewrite IHl, IHr; [done| |]; intros; apply H; rewrite elem_of_app; tauto.
  - by rewrite IH.
Qed.
End text.

Lemma lex_length cur l : (length (lex cur l) <= length l + length (flush cur))%nat.
Proof.
  revert cur. induction l as [l IH] using (induction_ltof1 _ (@length Z)). unfold ltof in IH. intros cur. destruct l as [|c l]; [done|]. cbn [lex].
  pose proof (IH l ltac:(cbn; lia)) as IHl. assert (length (flush cur) <= 1)%nat by (destruct cur; cbn; lia).
  destruct (in_set whitespace c); [rewrite length_app; specialize (IHl []); cbn in *; lia|]. destruct (c =? c_gt).
  - rewrite length_app. destruct l as [|d l]; [cbn; lia|]. destruct (d =? c_gt); [|specialize (IHl []); cbn in *; lia].
    pose proof (IH l ltac:(cbn; lia) []) as IHl2. cbn in *. lia.
  - destruct (in_set symbols c).
    + rewrite length_app. specialize (IHl []). cbn in *. lia.
    + specialize (IHl (cur ++ [c])). assert (length (flush (cur ++ [c])) = 1)%nat by (by destruct cur). cbn in *. lia.
Qed.

Lemma strlen_text text junk : (0 ∉ text) -> Z.to_nat (strlen (text ++ 0 :: junk)) = length text.
Proof.
  intros H. assert (strlen (text ++ 0 :: junk) = Z.of_nat (length text)) as ->; [|lia].
  induction text as [|c text IH]; [done|]. apply not_elem_of_cons in H as [H1 H2]. cbn. rewrite (proj2 (Z.eqb_neq _ _) (not_eq_sym H1)), IH by done. lia.
Qed.

(** What a word is once the command is parsed: the string at its beginning. *)
Definition string_at (buf : list Z) (w : word) : list Z := cstr (drop (fst w) buf).

Lemma parsecmd_complete text junk fuel l :
  (0 ∉ text) -> (4 * length text + 4 <= fuel)%nat -> line_fits l -> lex [] text = line_tokens l ->
  exists c buf', parsecmd fuel (text ++ 0 :: junk) = POk (c, buf') /\ read_cmd (string_at buf') c = line_cmd l.
Proof.
  intros H0 Hf Hfit E. set (buf := text ++ 0 :: junk). pose proof (strlen_text text junk H0) as Ees. fold buf in Ees.
  unfold parsecmd. cbv zeta. rewrite Ees. clear Ees. pose proof (lex_length [] text) as Hlen. cbn in Hlen.
  destruct (parse_sound text junk H0 fuel) as (Hsound & _). specialize (Hsound 0%nat ltac:(lia) ltac:(rewrite drop_0; lia)). fold buf in Hsound.
  destruct (proj1 (grammar_complete text junk H0) l fuel 0%nat [] ltac:(lia)) as (c & s' & E' & I1 & I2 & I3);
    [rewrite drop_0; lia|done|by rewrite drop_0, app_nil_r|by left|]. fold buf in E'. rewrite E' in *. cbn [pbind].
  pose proof (peek_spec text junk H0 s' [] I1 ltac:(done)) as Hp. fold buf in Hp. destruct (peek buf (length text) s' []) as [b s1].
  destruct Hp as (_ & _ & _ & Hp & _). rewrite (Hp I2), Nat.eqb_refl. cbn [negb]. eexists c, _. split; [done|]. rewrite <- I3.
  destruct Hsound as (_ & t & _ & _ & _ & Hw). apply read_cmd_ext. intros w Hin. by apply (word_string text junk H0).
Qed.

(** C9: [parsecmd] recognises exactly the lines of the grammar: a line whose
    tokens are those of a derivation with at most nine words per command is
    parsed, into the command that the derivation denotes, every argument and
    file name being a terminated string of its own in the buffer; any other
    line ends with an error message.  In particular the parser always comes to
    an end. *)
Theorem parsecmd_decides_grammar text junk fuel :
  (0 ∉ text) -> (4 * length text + 4 <= fuel)%nat ->
  let buf := text ++ 0 :: junk in
  (forall l, line_fits l -> lex [] text = line_tokens l ->
     exists c buf', parsecmd fuel buf = POk (c, buf') /\ read_cmd (string_at buf') c = line_cmd l) /\
  ((forall l, line_fits l -> lex [] text <> line_tokens l) -> exists msg, parsecmd fuel buf = PPanic msg).
Proof.
  intros H0 Hf buf. split; [intros l; by apply parsecmd_complete|].
  pose proof (strlen_text text junk H0) as Ees. fold buf in Ees. unfold parsecmd. cbv zeta. rewrite Ees. clear Ees.
  pose proof (lex_length [] text) as Hlen. cbn in Hlen.
  destruct (parse_sound text junk H0 fuel) as (Hsound & _). specialize (Hsound 0%nat ltac:(lia) ltac:(rewrite drop_0; lia)). fold buf in Hsound.
  intros Hno. destruct (parseline buf (length text) fuel 0) as [[c s']|msg|]; [|by eexists|done]. cbn [pbind].
    destruct Hsound as (Hs & t & Ht & Hfit & _). pose proof (peek_spec text junk H0 s' [] ltac:(lia) ltac:(done)) as Hp. fold buf in Hp.
    destruct (peek buf (length text) s' []) as [b s1]. destruct Hp as (_ & _ & _ & _ & Hp).
    destruct (Nat.eqb_spec s1 (length text)) as [E|E]; [|cbn [negb]; by eexists]. exfalso. rewrite (Hp E), app_nil_r, drop_0 in Ht. by apply (Hno t).
Qed.

(** The line  ls < in | (wc ; cat) > out & *)
Definition sample_text : list Z := string_bytes "ls < in | (wc ; cat) >out &".
Definition sample_line : line :=
  let w s := ESimple [] [(string_bytes s, [])] in
  LEnd (PPipe (ESimple [] [(string_bytes "ls", [mk_redir In (string_bytes "in")])])
          (PEnd (EBlock (LSeq (PEnd (w "wc"%string)) 0 (LEnd (PEnd (w "cat"%string)) 0)) [mk_redir Out (string_bytes "out")]))) 1.

Lemma parsecmd_decides_grammar_witness :
  (exists c buf', parsecmd 120 (sample_text ++ [0]) = POk (c, buf') /\ read_cmd (string_at buf') c = line_cmd sample_line) /\
  line_cmd sample_line =
    SBack (SPipe (SRedir (SExec [string_bytes "ls"]) (string_bytes "in") 0 0)
      (SRedir (SList (SExec [string_bytes "wc"]) (SExec [string_bytes "cat"])) (string_bytes "out") O_CREATE_TRUNC 1)).
Proof.
  split; [|reflexivity]. apply (parsecmd_decides_grammar sample_text [] 120).
  - by apply (bool_decide_unpack _).
  - vm_compute. lia.
  - cbn. unfold MAXARGS. lia.
  - vm_compute. reflexivity.
Defined.
