(* ===== verification/ShRun.v ===== *)
(** * How the shell runs a command (user/sh.c)

    [runcmd] and [main] as what the shell and its children do with their
    descriptor tables, up to the programs they execute.  The kernel's side is
    the convention that a new descriptor is the lowest free one; which calls
    succeed is a parameter.  Compared with what a session means: which program
    runs with what as its input and output, and what a waiting shell holds. *)

From S2P Require Import Prelude KString Ulib Sh ShParse.

(** What a descriptor refers to. *)
Inductive obj : Type :=
| Given (n : nat)                        (* inherited by the shell *)
| PipeEnd (id : nat) (writes : bool)
| Opened (path : list Z) (mode : Z).
#[export] Instance obj_eq_dec : EqDecision obj.
Proof. solve_decision. Defined.

Definition NDESC : nat := 16.
Abbreviation fdtable := (list (option obj)).
Implicit Types fds : fdtable.

Fixpoint lowest fds : option nat :=
  match fds with
  | [] => None
  | None :: _ => Some O
  | Some _ :: fds' => S <$> lowest fds'
  end.
Definition fd_new (x : obj) fds : option (nat * fdtable) :=
  n ← lowest fds; Some (n, <[n := Some x]> fds).

(** The system calls that concern descriptors: [close], [dup], [open] and
    [pipe]; a failing call leaves the table as it was. *)
Definition fd_close (fd : nat) fds : fdtable := <[fd := None]> fds.
Definition fd_dup (fd : nat) fds : fdtable :=
  match mjoin (fds !! fd) with
  | Some x => match fd_new x fds with Some (_, fds') => fds' | None => fds end
  | None => fds
  end.

(** Which calls succeed; those of [fork] and [pipe] are told apart by a number. *)
Class Calls : Type := {
  can_open : list Z -> Z -> bool;
  can_chdir : list Z -> bool;
  can_fork : nat -> bool;
  can_pipe : nat -> bool;
  can_exec : list Z -> bool
}.

Definition fd_open `{Calls} (path : list Z) (mode : Z) fds : option fdtable :=
  if can_open path mode then snd <$> fd_new (Opened path mode) fds else None.
Definition fd_pipe `{Calls} (id : nat) fds : option (nat * nat * fdtable) :=
  if can_pipe id then
    '(r, fds) ← fd_new (PipeEnd id false) fds;
    '(w, fds) ← fd_new (PipeEnd id true) fds;
    Some (r, w, fds)
  else None.

(** What the processes do: call [exec], [wait] or [chdir], print a message on
    descriptor 2, exit. *)
Inductive event : Type :=
| EvExec (argv : list (list Z)) (fds : fdtable)
| EvWait (fds : fdtable)
| EvChdir (dir : list Z)
| EvMessage (msg : list Z)
| EvExit (status : Z).

Section runcmd.
Context `{Calls}.

(** [panic]. *)
Definition die (msg : string) : list event := [EvMessage (string_bytes msg ++ [c_nl]); EvExit 1].
Definition failed (call : string) (path : list Z) : event :=
  EvMessage (string_bytes call ++ path ++ string_bytes " failed" ++ [c_nl]).

(** The events of the process and of its children, those of a child at its
    [fork] (the two sides of a pipe really run at the same time); [n] numbers
    the calls of [fork] and [pipe]. *)
Fixpoint runcmd (c : scmd) fds (n : nat) : list event * nat :=
  match c with
  | SExec argv =>
      match argv with
      | [] => ([EvExit 1], n)
      | path :: _ => if can_exec path then ([EvExec argv fds], n) else ([EvExec argv fds; failed "exec " path; EvExit 0], n)
      end
  | SRedir c file mode fd =>
      let fds := fd_close (Z.to_nat fd) fds in
      match fd_open file mode fds with
      | None => ([failed "open " file; EvExit 1], n)
      | Some fds => runcmd c fds n
      end
  | SList l r =>
      if can_fork n then
        let '(evl, n) := runcmd l fds (S n) in
        let '(evr, n) := runcmd r fds n in (evl ++ EvWait fds :: evr, n)
      else (die "fork", S n)
  | SPipe l r =>
      match fd_pipe n fds with
      | None => (die "pipe", S n)
      | Some (p0, p1, fds) =>
          if can_fork (S n) then
            let '(evl, n) := runcmd l (fd_close p1 (fd_close p0 (fd_dup p1 (fd_close 1 fds)))) (S (S n)) in
            if can_fork n then
              let '(evr, n) := runcmd r (fd_close p1 (fd_close p0 (fd_dup p0 (fd_close 0 fds)))) (S n) in
              let fds := fd_close p1 (fd_close p0 fds) in
              (evl ++ evr ++ [EvWait fds; EvWait fds; EvExit 0], n)
            else (evl ++ die "fork", S n)
          else (die "fork", S (S n))
      end
  | SBack c =>
      if can_fork n then let '(ev, n) := runcmd c fds (S n) in (ev ++ [EvExit 0], n) else (die "fork", S n)
  end.

(** [getcmd] prints the prompt (see [main_loop]); the new buffer, the rest of
    the input, and whether a line was read. *)
Definition prompt : event := EvMessage (string_bytes "$ ").
Definition CMD_BUF : nat := 100.
Definition getcmd {R : Reads} (buf inp : list Z) : option (list Z * list Z * bool) :=
  buf ← umemset buf 0 CMD_BUF; '(buf, inp) ← gets buf (Z.of_nat CMD_BUF) inp; Some (buf, inp, negb (char0 buf =? 0)).

(** The loop of [main] that makes sure that three descriptors are open. *)
Definition SH_RDWR : Z := 2.
Fixpoint open_console (fuel : nat) fds : option fdtable :=
  match fuel with
  | O => None
  | S fuel' =>
      let console := string_bytes "console" in
      if can_open console SH_RDWR then
        match fd_new (Opened console SH_RDWR) fds with
        | None => Some fds
        | Some (fd, fds) => if (3 <=? fd)%nat then Some (fd_close fd fds) else open_console fuel' fds
        end
      else Some fds
  end.

(** What the child does with a line (the report of what is left over before
    the message of a syntax error is not among the events). *)
Definition run_line (buf : list Z) fds (n : nat) : option (list event * nat) :=
  match parsecmd (4 * length buf + 4) buf with
  | POk (c, buf) => Some (runcmd (read_cmd (string_at buf) c) fds n)
  | PPanic msg => Some (die msg, n)
  | PFuel => None
  end.

Fixpoint main_loop {R : Reads} (fuel : nat) (buf : list Z) fds (n : nat) (inp : list Z) : option (list event) :=
  match fuel with
  | O => None
  | S fuel' =>
      '(buf, inp, more) ← getcmd buf inp;
      if negb more then Some [prompt; EvExit 0]
      else if (nth 0 buf 0 =? 99) && (nth 1 buf 0 =? 100) && (nth 2 buf 0 =? 32) then
        buf ← set_at buf (Z.to_nat (strlen buf - 1)) 0;
        let dir := cstr (drop 3 buf) in
        let evs := if can_chdir dir then [prompt; EvChdir dir]
                   else [prompt; EvChdir dir; EvMessage (string_bytes "cannot cd " ++ dir ++ [c_nl])] in
        rest ← main_loop fuel' buf fds n inp; Some (evs ++ rest)
      else if can_fork n then
        '(evs, n) ← run_line buf fds (S n);
        rest ← main_loop fuel' buf fds n inp; Some (prompt :: evs ++ EvWait fds :: rest)
      else Some (prompt :: die "fork")
  end.

Definition sh_main {R : Reads} (fuel : nat) fds (inp : list Z) : option (list event) :=
  fds ← open_console 4 fds; main_loop fuel (replicate CMD_BUF 0) fds 0 inp.
End runcmd.

(** ** What a session means *)

(** A table with three descriptors. *)
Definition std (i o e : obj) : fdtable := Some i :: Some o :: Some e :: replicate (NDESC - 3) None.

(** A program runs, with its input, output and error output; a shell waits,
    holding these; the shell changes its directory. *)
Inductive act : Type :=
| Runs (argv : list (list Z)) (i o e : obj)
| Waits (i o e : obj)
| Changes (dir : list Z).

Definition shown (a : act) : event :=
  match a with
  | Runs argv i o e => EvExec argv (std i o e)
  | Waits i o e => EvWait (std i o e)
  | Changes dir => EvChdir dir
  end.
Definition calls (evs : list event) : list event :=
  omap (fun ev => match ev with EvMessage _ | EvExit _ => None | _ => Some ev end) evs.

(** A command whose redirection fails runs nothing. *)
Fixpoint plumb `{Calls} (c : scmd) (i o e : obj) (n : nat) : list act * nat :=
  match c with
  | SExec argv => match argv with [] => ([], n) | _ => ([Runs argv i o e], n) end
  | SRedir c file mode fd =>
      if negb (can_open file mode) then ([], n)
      else if fd =? 0 then plumb c (Opened file mode) o e n else plumb c i (Opened file mode) e n
  | SList l r => let '(pl, n) := plumb l i o e (S n) in let '(pr, n) := plumb r i o e n in (pl ++ Waits i o e :: pr, n)
  | SPipe l r =>
      let '(pl, n') := plumb l i (PipeEnd n true) e (S (S n)) in
      let '(pr, n') := plumb r (PipeEnd n false) o e (S n') in (pl ++ pr ++ [Waits i o e; Waits i o e], n')
  | SBack c => plumb c i o e (S n)
  end.

(** A session: directories to change to, and lines with a derivation. *)
Inductive entry : Type := Cd (dir : list Z) | Cmd (text : list Z) (l : line).
Definition entry_text (x : entry) : list Z :=
  match x with Cd dir => string_bytes "cd " ++ dir | Cmd text _ => text end.
Definition is_cd (text : list Z) : bool := (nth 0 text 0 =? 99) && (nth 1 text 0 =? 100) && (nth 2 text 0 =? 32).
Definition entry_ok (x : entry) : Prop :=
  Forall (fun c => 0 < c < 256 /\ c <> c_nl /\ c <> c_cr) (entry_text x) /\
  (length (entry_text x) <= CMD_BUF - 2)%nat /\
  match x with
  | Cd _ => True
  | Cmd text l => is_cd text = false /\ line_fits l /\ lex [] (text ++ [c_nl]) = line_tokens l
  end.
Definition typed (xs : list entry) : list Z := concat ((fun x => entry_text x ++ [c_nl]) <$> xs).

Fixpoint session `{Calls} (xs : list entry) (i o e : obj) (n : nat) : list act :=
  match xs with
  | [] => []
  | Cd dir :: xs => Changes dir :: session xs i o e n
  | Cmd _ l :: xs => let '(acts, n) := plumb (line_cmd l) i o e (S n) in acts ++ Waits i o e :: session xs i o e n
  end.

(** The redirections the parser makes are of the standard input and output. *)
Fixpoint std_redirs (c : scmd) : Prop :=
  match c with
  | SExec _ => True
  | SRedir c _ _ fd => (fd = 0 \/ fd = 1) /\ std_redirs c
  | SList l r | SPipe l r => std_redirs l /\ std_redirs r
  | SBack c => std_redirs c
  end.

(** There are processes and pipes enough. *)
Class Resources (C : Calls) : Prop := {
  forks : forall n, can_fork n = true;
  pipes : forall n, can_pipe n = true
}.

Section proofs.
Context {C : Calls} {HC : Resources C}.

Lemma redir_in i o e path mode :
  fd_open path mode (fd_close 0 (std i o e)) = if can_open path mode then Some (std (Opened path mode) o e) else None.
Proof. unfold fd_open. by destruct (can_open path mode). Qed.
Lemma redir_out i o e path mode :
  fd_open path mode (fd_close 1 (std i o e)) = if can_open path mode then Some (std i (Opened path mode) e) else None.
Proof. unfold fd_open. by destruct (can_open path mode). Qed.
Lemma pipe_table i o e n : exists fds, fd_pipe n (std i o e) = Some (3%nat, 4%nat, fds) /\
  fd_close 4 (fd_close 3 (fd_dup 4 (fd_close 1 fds))) = std i (PipeEnd n true) e /\
  fd_close 4 (fd_close 3 (fd_dup 3 (fd_close 0 fds))) = std (PipeEnd n false) o e /\
  fd_close 4 (fd_close 3 fds) = std i o e.
Proof. unfold fd_pipe. rewrite pipes. eexists. split; [reflexivity|]. done. Qed.

Lemma calls_app evs evs' : calls (evs ++ evs') = calls evs ++ calls evs'.
Proof. apply omap_app. Qed.

Definition runs_as (run : list event * nat) (p : list act * nat) : Prop :=
  calls (fst run) = shown <$> fst p /\ snd run = snd p.

Lemma runcmd_spec c i o e n : std_redirs c -> runs_as (runcmd c (std i o e) n) (plumb c i o e n).
Proof.
  unfold runs_as. revert i o e n. induction c as [argv|c IH file mode fd|l IHl r IHr|l IHl r IHr|c IH]; intros i o e n Hr; cbn [runcmd plumb].
  - destruct argv as [|path argv]; [done|]. by destruct (can_exec path).
  - destruct Hr as [[-> | ->] Hr]; cbn [Z.to_nat Z.eqb]; [rewrite redir_in|change (Pos.to_nat 1) with 1%nat; rewrite redir_out];
      destruct (can_open file mode); cbn [negb]; try done; by apply IH.
  - destruct Hr as [Hl Hr]. destruct (pipe_table i o e n) as (fds & -> & -> & -> & ->). rewrite forks.
    destruct (IHl i (PipeEnd n true) e (S (S n)) Hl) as [E1 E2]. destruct (runcmd l _ _) as [evl n1], (plumb l _ _ _ _) as [pl n1']. cbn [fst snd] in *. subst n1'.
    rewrite forks. destruct (IHr (PipeEnd n false) o e (S n1) Hr) as [E3 E4]. destruct (runcmd r _ _) as [evr n2], (plumb r _ _ _ _) as [pr n2']. cbn [fst snd] in *. subst n2'.
    split; [|done]. by rewrite !calls_app, E1, E3, !fmap_app.
  - destruct Hr as [Hl Hr]. rewrite forks. destruct (IHl i o e (S n) Hl) as [E1 E2]. destruct (runcmd l _ _) as [evl n1], (plumb l _ _ _ _) as [pl n1']. cbn [fst snd] in *. subst n1'.
    destruct (IHr i o e n1 Hr) as [E3 E4]. destruct (runcmd r _ _) as [evr n2], (plumb r _ _ _ _) as [pr n2']. cbn [fst snd] in *. subst n2'.
    split; [|done]. rewrite calls_app, E1, fmap_app. cbn. by rewrite <- E3.
  - rewrite forks. destruct (IH i o e (S n) Hr) as [E1 E2]. destruct (runcmd c _ _) as [ev n1], (plumb c _ _ _ _) as [pl n1']. cbn [fst snd] in *. subst n1'.
    split; [|done]. by rewrite calls_app, E1, app_nil_r.
Qed.

Lemma redirs_std c rs : std_redirs c -> std_redirs (foldl apply_redir c rs).
Proof. revert c. induction rs as [|r rs IH]; intros c Hc; [done|]. cbn [foldl]. apply IH. unfold apply_redir. destruct (r_dir r); cbn; auto. Qed.
Lemma background_std n c : std_redirs c -> std_redirs (in_background n c).
Proof. intros Hc. unfold in_background. induction n as [|n IH]; [done|]. by rewrite Nat.iter_succ. Qed.
Lemma grammar_std : (forall l, std_redirs (line_cmd l)) /\ (forall p, std_redirs (pipeline_cmd p)) /\ (forall e, std_redirs (element_cmd e)).
Proof.
  apply grammar_ind; intros; cbn [line_cmd pipeline_cmd element_cmd std_redirs]; try done.
  - by apply background_std.
  - split; [by apply background_std|done].
  - by apply redirs_std.
  - by apply redirs_std.
Qed.
End proofs.

(** ** Reading lines *)

Section reading.
Context {R : Reads} {HR : ReadsOk R}.

Abbreviation plain := (fun c => 0 < c < 256 /\ c <> c_nl /\ c <> c_cr).

Lemma one_byte c inp : delivered (c :: inp) 1 = 1.
Proof. pose proof (reads_some (c :: inp) 1 ltac:(done) ltac:(lia)). lia. Qed.
Lemma set_at_app pre x tl c : 0 <= c < 256 -> set_at (pre ++ x :: tl) (length pre) c = Some ((pre ++ [c]) ++ tl).
Proof.
  intros Hc. unfold set_at. rewrite length_app. cbn [length]. rewrite (proj2 (Nat.ltb_lt _ _)) by lia.
  rewrite insert_app_r_alt, Nat.sub_diag by lia. cbn. rewrite <- app_assoc. unfold u8. by rewrite Z.mod_small by lia.
Qed.

Lemma gets_loop_line l fuel pre tl max rest :
  Forall plain l -> (length l < fuel)%nat -> Z.of_nat (length pre + length l) + 1 < max -> (length l < length tl)%nat ->
  gets_loop fuel (pre ++ tl) (length pre) max (l ++ c_nl :: rest) =
    Some ((pre ++ l ++ [c_nl]) ++ drop (length l + 1) tl, (length pre + length l + 1)%nat, rest).
Proof.
  revert fuel pre tl. induction l as [|c l IH]; intros fuel pre tl Hl Hf Hm Ht; destruct fuel as [|fuel]; cbn [length] in *; try lia;
    cbn [gets_loop app]; (destruct tl as [|x tl]; cbn [length] in Ht; [lia|]); rewrite (proj2 (Z.ltb_lt _ _)) by lia; rewrite one_byte; cbn [Z.ltb Z.compare Pos.compare Pos.compare_cont].
  - rewrite set_at_app by (unfold c_nl; lia). cbn [mbind option_bind]. rewrite Z.eqb_refl. cbn [orb]. by replace (S (length pre)) with (length pre + 0 + 1)%nat by lia.
  - apply Forall_cons in Hl as [(H1 & H2 & H3) Hl]. rewrite set_at_app by lia. cbn [mbind option_bind].
    rewrite (proj2 (Z.eqb_neq _ _) H2), (proj2 (Z.eqb_neq _ _) H3). cbn [orb].
    replace (S (length pre)) with (length (pre ++ [c])) by (rewrite length_app; cbn; lia).
    rewrite IH; [|done|lia|rewrite length_app; cbn; lia|lia]. rewrite <- !app_assoc, length_app. cbn [app length]. cbn [Nat.add drop]. replace (length pre + 1 + length l + 1)%nat with (length pre + S (length l) + 1)%nat by lia. by rewrite <- app_assoc.
Qed.

Lemma getcmd_line buf l rest : length buf = CMD_BUF -> Forall plain l -> (length l <= CMD_BUF - 2)%nat ->
  exists junk, getcmd buf (l ++ c_nl :: rest) = Some (l ++ c_nl :: 0 :: junk, rest, true) /\ length (l ++ c_nl :: 0 :: junk) = CMD_BUF.
Proof.
  intros Hb Hl Hn. unfold getcmd, umemset. rewrite Hb, Nat.leb_refl. cbn [mbind option_bind]. rewrite drop_ge, app_nil_r by lia.
  change (u8 0) with 0. unfold gets. pose proof (gets_loop_line l (S (length (l ++ c_nl :: rest))) [] (replicate CMD_BUF 0) (Z.of_nat CMD_BUF) rest Hl) as E.
  cbn [length app] in E. rewrite E; [|rewrite length_app; lia|unfold CMD_BUF in *; lia|rewrite length_replicate; unfold CMD_BUF in *; lia].
  cbn [mbind option_bind]. rewrite drop_replicate. destruct (CMD_BUF - (length l + 1))%nat as [|k] eqn:Ek; [unfold CMD_BUF in *; lia|]. cbn [replicate].
  replace (0 + length l + 1)%nat with (length (l ++ [c_nl])) by (rewrite length_app; cbn; lia). rewrite set_at_app by lia. cbn [mbind option_bind].
  exists (replicate k 0). rewrite <- !app_assoc. cbn [app]. split.
  - destruct l as [|c l]; [done|]. apply Forall_cons in Hl as [(H1 & _) _]. cbn. by rewrite (proj2 (Z.eqb_neq _ _)) by lia.
  - rewrite length_app. cbn [length]. rewrite length_replicate. lia.
Qed.
Lemma getcmd_end buf : length buf = CMD_BUF -> exists buf', getcmd buf [] = Some (buf', [], false).
Proof.
  intros Hb. unfold getcmd, umemset. rewrite Hb, Nat.leb_refl. cbn [mbind option_bind]. rewrite drop_ge, app_nil_r by lia.
  unfold gets. cbn [gets_loop length]. rewrite reads_end by auto. by eexists.
Qed.

Lemma is_cd_text l tl : is_cd (l ++ c_nl :: tl) = is_cd l.
Proof. destruct l as [|a [|b [|c l]]]; unfold is_cd; cbn [nth app]; [done| | |done]; by rewrite ?andb_false_r. Qed.
Lemma plain_text l : Forall plain l -> (0 ∉ l ++ [c_nl]).
Proof. intros Hl. rewrite not_elem_of_app. split; [|by rewrite list_elem_of_singleton]. intros H%(proj1 (Forall_forall _ _) Hl). lia. Qed.
Lemma cstr_text l junk : (0 ∉ l) -> cstr (l ++ 0 :: junk) = l.
Proof.
  induction l as [|c l IH]; intros H; [done|]. apply not_elem_of_cons in H as [H1 H2]. cbn. by rewrite (proj2 (Z.eqb_neq _ _)), IH by done.
Qed.

(** The newline of a [cd] line is chopped. *)
Lemma chop_line l junk : Forall plain l ->
  set_at (l ++ c_nl :: 0 :: junk) (Z.to_nat (strlen (l ++ c_nl :: 0 :: junk) - 1)) 0 = Some (l ++ 0 :: 0 :: junk).
Proof.
  intros Hl. pose proof (strlen_text (l ++ [c_nl]) junk (plain_text l Hl)) as E. rewrite <- app_assoc, length_app in E. cbn [app length] in E.
  replace (Z.to_nat (strlen _ - 1)) with (length l) by lia. rewrite set_at_app by lia. by rewrite <- app_assoc.
Qed.
End reading.

Section session.
Context {C : Calls} {HC : Resources C} {R : Reads} {HR : ReadsOk R}.

Lemma run_line_spec text l junk i o e n :
  entry_ok (Cmd text l) -> exists run, run_line (text ++ c_nl :: 0 :: junk) (std i o e) n = Some run /\ runs_as run (plumb (line_cmd l) i o e n).
Proof.
  intros (Ht & Hn & _ & Hfit & Hlex). cbn [entry_text] in *. unfold run_line.
  destruct (parsecmd_complete (text ++ [c_nl]) junk (4 * length (text ++ c_nl :: 0 :: junk) + 4) l) as (c & buf' & E & Hc);
    [by apply plain_text|rewrite !length_app; cbn; lia|done|done|].
  rewrite <- app_assoc in E. cbn [app] in E. rewrite E, Hc. eexists. split; [done|]. apply runcmd_spec, grammar_std.
Qed.

Lemma main_loop_spec xs fuel buf i o e n : length buf = CMD_BUF -> Forall entry_ok xs -> (length xs < fuel)%nat ->
  exists evs, main_loop fuel buf (std i o e) n (typed xs) = Some evs /\ calls evs = shown <$> session xs i o e n.
Proof.
  revert fuel buf n. induction xs as [|x xs IH]; intros fuel buf n Hb Hxs Hf; destruct fuel as [|fuel]; cbn [length] in Hf; try lia; cbn [main_loop].
  { destruct (getcmd_end buf Hb) as [buf' E]. change (typed []) with (@nil Z). rewrite E. by eexists. }
  apply Forall_cons in Hxs as [Hx Hxs]. assert (typed (x :: xs) = entry_text x ++ c_nl :: typed xs) as -> by (unfold typed; cbn; by rewrite <- app_assoc).
  pose proof Hx as (Hp & Hn & Hk). destruct (getcmd_line buf _ (typed xs) Hb Hp Hn) as (junk & -> & Hb'). cbn [mbind option_bind negb].
  fold (is_cd (entry_text x ++ c_nl :: 0 :: junk)). rewrite is_cd_text. destruct x as [dir|text l]; cbn [session].
  - change (is_cd (entry_text (Cd dir))) with true. cbv iota. rewrite chop_line by done. cbn [mbind option_bind].
    destruct (IH fuel (entry_text (Cd dir) ++ 0 :: 0 :: junk) n) as (evs & -> & E); [rewrite length_app in *; done|done|lia|].
    assert (cstr (drop 3 (entry_text (Cd dir) ++ 0 :: 0 :: junk)) = dir) as ->.
    { cbn. apply cstr_text. intros H0. cbn in Hp. do 3 apply Forall_cons in Hp as [_ Hp]. apply (proj1 (Forall_forall _ _) Hp) in H0. lia. }
    eexists. split; [done|]. rewrite calls_app, E. by destruct (can_chdir dir).
  - cbn [entry_text] in *. destruct Hk as (-> & Hk). cbv iota. rewrite forks.
    destruct (run_line_spec text l junk i o e (S n) Hx) as ([evs n1] & -> & Er & En). cbn [mbind option_bind].
    destruct (plumb _ _ _ _ _) as [acts n1']. cbn [fst snd] in *. subst n1'.
    destruct (IH fuel (text ++ c_nl :: 0 :: junk) n1 Hb' Hxs ltac:(lia)) as (evs' & -> & E). cbn [mbind option_bind].
    eexists. split; [done|]. change (calls (prompt :: ?l)) with (calls l). rewrite calls_app, Er, fmap_app. cbn. by rewrite <- E.
Qed.

End session.

(** A machine where everything succeeds but opening the file [secret]. *)
Definition sample_calls : Calls :=
  Build_Calls (fun path _ => negb (bool_decide (path = string_bytes "secret"))) (fun _ => true) (fun _ => true) (fun _ => true) (fun _ => true).
Lemma sample_resources : Resources sample_calls.
Proof. done. Qed.
Definition sample_reads : Reads := fun inp n => Z.max 0 (Z.min n (Z.of_nat (length inp))).
Lemma sample_reads_ok : ReadsOk sample_reads.
Proof. split; unfold delivered, sample_reads; [intros [|c inp] n H Hn|intros inp n [->| ->]]; cbn [length] in *; (done || lia). Qed.

Definition sample_session : list entry :=
  [Cd (string_bytes "/d"); Cmd sample_text sample_line;
   Cmd (string_bytes "cat < secret") (LEnd (PEnd (ESimple [] [(string_bytes "cat", [mk_redir In (string_bytes "secret")])])) 0)].

Lemma sample_session_ok : Forall entry_ok sample_session.
Proof.
  repeat apply Forall_cons_2; [| | |by apply Forall_nil_2]; (split; [by apply (bool_decide_unpack _)|split; [vm_compute; lia|]]); [done| |];
    (split; [done|split; [cbn; unfold MAXARGS; lia|vm_compute; reflexivity]]).
Qed.

