(* ===== verification/UPrintf.v ===== *)
(** * Formatted output of user programs (user/printf.c) and wc (user/wc.c)

    What is written to the descriptor is the result; a store past the end of
    [printint]'s buffer, and an argument that is missing or of the other kind,
    are [None].  Unlike the kernel's, this [printint] works on 32 bits. *)

From S2P Require Import Prelude KString Ulib.

Ltac Zify.zify_post_hook ::= idtac.

(** A variable argument: a register, or a string pointer. *)
Inductive uarg : Type := UNum (x : Z) | UStr (s : option (list Z)).

(** [digits[d]]: the characters 0-9 and A-F. *)
Definition udigit (d : Z) : Z := if d <? 10 then 48 + d else 55 + d.
Definition UPRINT_BUF : nat := 16.
Definition ubuf_push (buf : list Z) (c : Z) : option (list Z) :=
  if (length buf <? UPRINT_BUF)%nat then Some (buf ++ [c]) else None.

(** The do-while loop; a 32-bit number has at most 32 digits. *)
Fixpoint udigits_loop (fuel : nat) (x base : Z) (buf : list Z) : option (list Z) :=
  match fuel with
  | O => None
  | S fuel' =>
      buf ← ubuf_push buf (udigit (x mod base));
      if x / base =? 0 then Some buf else udigits_loop fuel' (x / base) base buf
  end.
(** [xx] is an [int]; the negation of the smallest one wraps. *)
Definition uprintint (xx base : Z) (sgn : bool) : option (list Z) :=
  let neg := sgn && (xx <? 0) in
  let x := if neg then u32 (- xx) else u32 xx in
  buf ← udigits_loop 32 x base [];
  buf ← (if neg then ubuf_push buf 45 else Some buf);
  Some (rev buf).

Fixpoint uptr_digits (n : nat) (x : Z) : list Z :=
  match n with
  | O => []
  | S n' => udigit (Z.shiftr x 60) :: uptr_digits n' (u64 (Z.shiftl x 4))
  end.
Definition uprintptr (x : Z) : list Z := 48 :: 120 :: uptr_digits 16 x.

(** [va_arg] of an [int]; of a [uint64] that is passed on as an [int]; of a
    [uint64]; of a string. *)
Definition uva_int (a : uarg) : option Z := match a with UNum x => Some (i32 x) | UStr _ => None end.
Definition uva_uint64 (a : uarg) : option Z := match a with UNum x => Some (u64 x) | UStr _ => None end.
Definition uva_str (a : uarg) : option (list Z) :=
  match a with UStr (Some s) => Some (cstr s) | UStr None => Some (string_bytes "(null)") | UNum _ => None end.

(** A conversion that takes an argument: what it prints, and how many further
    characters of the format it has; [None] for the rest. *)
Definition uconversion (c0 c1 c2 : Z) : option (uarg -> option (list Z)) * nat :=
  let int base sgn a := x ← uva_int a; uprintint x base sgn in
  let long base sgn a := x ← uva_uint64 a; uprintint (i32 x) base sgn in
  let d := 100 in let l := 108 in let u := 117 in let x := 120 in
  if c0 =? d then (Some (int 10 true), 0%nat)
  else if (c0 =? l) && (c1 =? d) then (Some (long 10 true), 1%nat)
  else if (c0 =? l) && (c1 =? l) && (c2 =? d) then (Some (long 10 true), 2%nat)
  else if c0 =? u then (Some (int 10 false), 0%nat)
  else if (c0 =? l) && (c1 =? u) then (Some (long 10 false), 1%nat)
  else if (c0 =? l) && (c1 =? l) && (c2 =? u) then (Some (long 10 false), 2%nat)
  else if c0 =? x then (Some (int 16 false), 0%nat)
  else if (c0 =? l) && (c1 =? x) then (Some (long 16 false), 1%nat)
  else if (c0 =? l) && (c1 =? l) && (c2 =? x) then (Some (long 16 false), 2%nat)
  else if c0 =? 112 then (Some (fun a => uprintptr <$> uva_uint64 a), 0%nat)
  else if c0 =? 115 then (Some uva_str, 0%nat)
  else (None, 0%nat).

(** The loop over the format; [pct] is [state == '%']. *)
Fixpoint vprintf_loop (fuel : nat) (pct : bool) (fmt : list Z) (ap : list uarg) : option (list Z) :=
  match fuel, fmt with
  | O, _ => None
  | _, [] => Some []
  | S fuel', c0 :: fmt' =>
      if c0 =? 0 then Some []
      else if negb pct then
        if c0 =? 37 then vprintf_loop fuel' true fmt' ap else cons c0 <$> vprintf_loop fuel' false fmt' ap
      else
        let c1 := char0 fmt' in
        let c2 := if c1 =? 0 then 0 else char0 (drop 1 fmt') in
        match uconversion c0 c1 c2 with
        | (Some conv, more) =>
            match ap with
            | [] => None
            | a :: ap' => out ← conv a; app out <$> vprintf_loop fuel' false (drop more fmt') ap'
            end
        | (None, _) =>
            (if c0 =? 37 then cons 37 else fun out => 37 :: c0 :: out) <$> vprintf_loop fuel' false fmt' ap
        end
  end.
Definition vprintf (fmt : list Z) (ap : list uarg) : option (list Z) := vprintf_loop (S (length fmt)) false fmt ap.

(** ** wc *)

Record counts : Type := mk_counts { n_lines : Z; n_words : Z; n_chars : Z; inword : bool }.

Definition wc_space : list Z := [32; 13; 9; 10; 11; 0].
Definition wc_step (k : counts) (b : Z) : counts :=
  let c := i32 (n_chars k + 1) in
  let l := if b =? c_nl then i32 (n_lines k + 1) else n_lines k in
  match strchr wc_space b with
  | Some _ => mk_counts l (n_words k) c false
  | None => if inword k then mk_counts l (n_words k) c true else mk_counts l (i32 (n_words k + 1)) c true
  end.

Section wc.
Context {R : Reads}.

Fixpoint wc_loop (fuel : nat) (k : counts) (inp : list Z) : option counts :=
  match fuel with
  | O => None
  | S fuel' =>
      let n := delivered inp 512 in
      if 0 <? n then wc_loop fuel' (foldl wc_step k (take (Z.to_nat n) inp)) (drop (Z.to_nat n) inp) else Some k
  end.
(** The line [wc] prints for an input. *)
Definition wc (inp name : list Z) : option (list Z) :=
  k ← wc_loop (S (length inp)) (mk_counts 0 0 0 false) inp;
  vprintf (string_bytes "%d %d %d %s" ++ [c_nl]) [UNum (n_lines k); UNum (n_words k); UNum (n_chars k); UStr (Some name)].
End wc.
