(* ===== verification/UPrintfTheorems.v ===== *)
(** * What user programs print

    Numbers printed by [printf] are read back by [atoi]; [wc] prints the
    numbers of lines, words and characters of its input. *)

From S2P Require Import Prelude KString Ulib UPrintf.

Ltac Zify.zify_post_hook ::= idtac.

(** ** Digits *)

Fixpoint udigits (fuel : nat) (x base : Z) : list Z :=
  match fuel with
  | O => []
  | S fuel' => udigit (x mod base) :: (if x / base =? 0 then [] else udigits fuel' (x / base) base)
  end.

(** The buffer has room for a number of [n] digits. *)
Lemma udigits_fit n fuel x base buf : 2 <= base -> 0 <= x < base ^ Z.of_nat (S n) -> (n < fuel)%nat -> (length buf + S n <= UPRINT_BUF)%nat ->
  udigits_loop fuel x base buf = Some (buf ++ udigits fuel x base) /\ (length (udigits fuel x base) <= S n)%nat.
Proof.
  intros Hb. revert n x buf. induction fuel as [|fuel IH]; intros n x buf Hx Hn Hl; [lia|]. cbn [udigits_loop udigits]. unfold ubuf_push.
  rewrite (proj2 (Nat.ltb_lt _ _)) by lia. cbn [mbind option_bind]. destruct (Z.eqb_spec (x / base) 0) as [E|E]; [cbn; split; [done|lia]|].
  rewrite Nat2Z.inj_succ, Z.pow_succ_r in Hx by lia. assert (0 <= x / base < base ^ Z.of_nat n) as Hq by (split; [apply Z.div_pos; lia|apply Z.div_lt_upper_bound; lia]).
  destruct n as [|n]; [cbn in Hq; lia|]. destruct (IH n (x / base) (buf ++ [udigit (x mod base)])) as [-> H2]; [done|lia|rewrite length_app; cbn; lia|].
  rewrite <- app_assoc. cbn [app length]. split; [done|lia].
Qed.

(** [atoi] on the digits, most significant first. *)
Lemma atoi_digits fuel x rest : 0 <= x < 2 ^ 31 -> x < 10 ^ Z.of_nat fuel -> atoi_loop (rev (udigits fuel x 10) ++ rest) 0 = atoi_loop rest x.
Proof.
  revert x rest. induction fuel as [|fuel IH]; intros x rest Hx Hp; [cbn in *; by replace x with 0 by lia|].
  rewrite Nat2Z.inj_succ, Z.pow_succ_r in Hp by lia. pose proof (Z.div_mod x 10 ltac:(lia)). pose proof (Z.mod_pos_bound x 10 ltac:(lia)).
  cbn [udigits rev]. rewrite <- app_assoc. cbn [app]. set (q := x / 10) in *. set (d := x mod 10) in *.
  transitivity (atoi_loop (udigit d :: rest) q).
  - destruct (Z.eqb_spec q 0) as [->|E]; [done|]. apply IH; lia.
  - cbn [atoi_loop]. unfold udigit. rewrite (proj2 (Z.ltb_lt _ _)) by lia. assert ((48 <=? 48 + d) && (48 + d <=? 57) = true) as -> by lia.
    f_equal. replace (q * 10 + (48 + d) - 48) with x by lia. unfold i32. rewrite Z.mod_small by lia. by rewrite (proj2 (Z.ltb_lt _ _)) by lia.
Qed.

Lemma i32_int x : - 2 ^ 31 <= x < 2 ^ 31 -> i32 x = x.
Proof.
  intros H. unfold i32. destruct (Z.lt_ge_cases x 0).
  - rewrite <- (Z.mod_add x 1), Z.mod_small by lia. rewrite (proj2 (Z.ltb_ge _ _)) by lia. lia.
  - rewrite Z.mod_small by lia. by rewrite (proj2 (Z.ltb_lt _ _)) by lia.
Qed.

(** The text of a number: its sign, and digits that [atoi] reads. *)
Definition sign_text (x : Z) : list Z := if x <? 0 then [45] else [].
Lemma uprintint_decimal x : - 2 ^ 31 < x < 2 ^ 31 ->
  exists ds, uprintint x 10 true = Some (sign_text x ++ ds) /\ forall rest, atoi (ds ++ 0 :: rest) = Z.abs x.
Proof.
  intros Hx. unfold uprintint, sign_text. cbn [andb]. assert ((if x <? 0 then u32 (- x) else u32 x) = Z.abs x) as ->.
  { unfold u32. destruct (Z.ltb_spec x 0); rewrite Z.mod_small by lia; lia. }
  destruct (udigits_fit 9 32 (Z.abs x) 10 []) as [-> Hl]; [lia|cbn; lia|lia|cbn; unfold UPRINT_BUF; lia|]. cbn [mbind option_bind app].
  exists (rev (udigits 32 (Z.abs x) 10)). split.
  - unfold ubuf_push. destruct (x <? 0); [|done]. rewrite (proj2 (Nat.ltb_lt _ _)) by (unfold UPRINT_BUF; lia). cbn [mbind option_bind]. by rewrite rev_app_distr.
  - intros rest. unfold atoi. rewrite atoi_digits by (cbn; lia). done.
Qed.

(** A number printed with [printf] is read back by [atoi]: the digits, after a
    minus sign for a negative number, denote its absolute value (the smallest
    [int] apart, which has none), and they always fit [printint]'s buffer. *)
Theorem printf_atoi_roundtrip x rest : - 2 ^ 31 < x < 2 ^ 31 ->
  exists ds, vprintf (string_bytes "%d") [UNum x] = Some (sign_text x ++ ds) /\ atoi (ds ++ 0 :: rest) = Z.abs x.
Proof.
  intros Hx. destruct (uprintint_decimal x Hx) as (ds & E & Ha). exists ds. split; [|apply Ha].
  unfold vprintf. change (string_bytes "%d") with [37; 100]. cbn -[uprintint i32]. rewrite i32_int, E by lia. cbn. by rewrite app_nil_r.
Qed.
Lemma printf_atoi_roundtrip_witness :
  exists ds, vprintf (string_bytes "%d") [UNum (-1203)] = Some (sign_text (-1203) ++ ds) /\ atoi (ds ++ [0]) = 1203.
Proof. apply (printf_atoi_roundtrip (-1203) []). lia. Defined.

(** [printf] with the conversion for a 64-bit number prints its low 32 bits
    only: numbers that differ by a multiple of 2^32 are printed alike. *)
Theorem percent_ld_truncates x k : vprintf (string_bytes "%ld") [UNum (x + k * 2 ^ 32)] = vprintf (string_bytes "%ld") [UNum x].
Proof.
  assert (forall y, i32 (u64 (y)) = i32 y) as E.
  { intros y. unfold i32, u64. rewrite Z.mod_mod_divide; [done|]. by exists (2 ^ 32). }
  unfold vprintf. change (string_bytes "%ld") with [37; 108; 100]. cbn -[uprintint i32 u64 Z.mul Z.add Z.pow]. rewrite !E. unfold i32. by rewrite Z.mod_add by lia.
Qed.

(** ** wc *)

Definition space (b : Z) : bool := bool_decide (b ∈ [32; 13; 9; 10; 11]).
(** The words of a text, [cur] being the one begun. *)
Fixpoint words (cur l : list Z) : list (list Z) :=
  match l with
  | [] => match cur with [] => [] | _ => [cur] end
  | b :: l' => if space b then match cur with [] => words [] l' | _ => cur :: words [] l' end else words (cur ++ [b]) l'
  end.
Definition count_nl (l : list Z) : Z := Z.of_nat (length (filter (fun b => b = c_nl) l)).

Lemma strchr_space b : (exists d, strchr wc_space b = Some d) /\ space b = true \/ strchr wc_space b = None /\ space b = false.
Proof.
  unfold wc_space, space. cbn [strchr].
  repeat match goal with |- context [if ?x =? b then _ else _] => destruct (Z.eqb_spec x b) as [<-|]; [left; by split; [eexists|]|] end.
  right. split; [done|]. apply bool_decide_false. rewrite !elem_of_cons, elem_of_nil. lia.
Qed.

Lemma words_length l cur : Z.of_nat (length (words cur l)) <= Z.of_nat (length l) + (if bool_decide (cur = []) then 0 else 1).
Proof.
  revert cur. induction l as [|b l IH]; intros cur; cbn [words]; [by destruct cur|].
  destruct (space b); [destruct cur; pose proof (IH []); cbn in *; lia|]. pose proof (IH (cur ++ [b])) as H. rewrite bool_decide_false in H by (by destruct cur). cbn [length].
  case_bool_decide; lia.
Qed.

(** The counters, from a state where a word may have begun. *)
Lemma wc_fold l k cur : inword k = negb (bool_decide (cur = [])) -> 0 <= n_lines k -> 0 <= n_words k -> 0 <= n_chars k ->
  n_lines k + Z.of_nat (length l) < 2 ^ 31 -> n_words k + Z.of_nat (length l) < 2 ^ 31 -> n_chars k + Z.of_nat (length l) < 2 ^ 31 ->
  let k' := foldl wc_step k l in
  n_lines k' = n_lines k + count_nl l /\ n_chars k' = n_chars k + Z.of_nat (length l) /\
  n_words k' = n_words k + Z.of_nat (length (words cur l)) - (if inword k then 1 else 0).
Proof.
  revert k cur. induction l as [|b l IH]; intros k cur Hw L W C Hl Hww Hc; cbn [foldl words length] in *.
  { unfold count_nl. cbn. rewrite Hw. destruct cur; cbn; lia. }
  set (k1 := wc_step k b). assert (n_chars k1 = n_chars k + 1 /\ n_lines k1 = n_lines k + (if b =? c_nl then 1 else 0)) as [E1 E2].
  { unfold k1, wc_step. rewrite (i32_int (n_chars k + 1)) by lia. rewrite (i32_int (n_lines k + 1)) by lia.
    destruct (strchr wc_space b); [|destruct (inword k)]; cbn; (split; [done|]); destruct (b =? c_nl); lia. }
  assert (count_nl (b :: l) = (if b =? c_nl then 1 else 0) + count_nl l) as ->.
  { unfold count_nl. rewrite filter_cons. destruct (Z.eqb_spec b c_nl); [rewrite decide_True by done; cbn [length]; lia|by rewrite decide_False by done]. }
  assert (0 <= (if b =? c_nl then 1 else 0) <= 1) by (destruct (b =? c_nl); lia).
  destruct (strchr_space b) as [[[d Ed] Es]|[Ed Es]]; rewrite Es.
  - assert (n_words k1 = n_words k /\ inword k1 = false) as [E3 E4] by (unfold k1, wc_step; by rewrite Ed).
    destruct (IH k1 []) as (I1 & I2 & I3); [done|lia..|]. rewrite E4 in I3. destruct cur as [|c cur]; rewrite Hw; cbn [bool_decide negb decide length] in *; cbn; lia.
  - assert (n_words k1 = n_words k + (if inword k then 0 else 1) /\ inword k1 = true) as [E3 E4].
    { unfold k1, wc_step. rewrite Ed. destruct (inword k); cbn; [split; [lia|done]|]. by rewrite i32_int by lia. }
    assert (0 <= (if inword k then 0 else 1) <= 1) by (destruct (inword k); lia).
    destruct (IH k1 (cur ++ [b])) as (I1 & I2 & I3); [rewrite E4, bool_decide_false by (by destruct cur); done|lia..|]. rewrite E4 in I3. destruct (inword k); lia.
Qed.

Section wc_proofs.
Context {R : Reads} {HR : ReadsOk R}.

(** However the input is delivered, it is counted as a whole. *)
Lemma wc_loop_spec fuel k inp : (length inp < fuel)%nat -> wc_loop fuel k inp = Some (foldl wc_step k inp).
Proof.
  revert k inp. induction fuel as [|fuel IH]; intros k inp Hf; [lia|]. cbn [wc_loop]. destruct inp as [|b inp'] eqn:E; [by rewrite reads_end by auto|].
  rewrite <- E in *. pose proof (reads_some inp 512 ltac:(by subst) ltac:(lia)) as Hn. rewrite (proj2 (Z.ltb_lt _ _)) by lia.
  rewrite IH by (rewrite length_drop; lia). by rewrite <- foldl_app, take_drop.
Qed.

Definition number (x : Z) (ds : list Z) : Prop := forall rest, atoi (ds ++ 0 :: rest) = x.

(** [wc] prints the numbers of lines, words and characters of its input and
    then the name, however the input is delivered; a word is a longest run of
    characters that are not blank. *)
Theorem wc_counts inp name : Z.of_nat (length inp) < 2 ^ 31 ->
  exists dl dw dc, number (count_nl inp) dl /\ number (Z.of_nat (length (words [] inp))) dw /\ number (Z.of_nat (length inp)) dc /\
    wc inp name = Some (dl ++ [32] ++ dw ++ [32] ++ dc ++ [32] ++ cstr name ++ [c_nl]).
Proof.
  intros Hl. unfold wc. rewrite wc_loop_spec by lia. cbn [mbind option_bind]. pose proof (words_length inp []) as Hw. rewrite bool_decide_true in Hw by done.
  destruct (wc_fold inp (mk_counts 0 0 0 false) []) as (E1 & E2 & E3); cbn [n_lines n_words n_chars inword] in *; [done|lia..|].
  assert (0 <= count_nl inp <= Z.of_nat (length inp)) as Hc by (unfold count_nl; pose proof (length_filter (fun b => b = c_nl) inp); lia).
  destruct (uprintint_decimal (count_nl inp)) as (dl & P1 & A1); [lia|]. destruct (uprintint_decimal (Z.of_nat (length (words [] inp)))) as (dw & P2 & A2); [lia|].
  destruct (uprintint_decimal (Z.of_nat (length inp))) as (dc & P3 & A3); [lia|]. rewrite Z.add_0_l in E1, E2, E3. rewrite Z.sub_0_r in E3. rewrite E1, E2, E3.
  unfold sign_text in *. rewrite (proj2 (Z.ltb_ge _ _)) in P1 by lia. rewrite (proj2 (Z.ltb_ge _ _)) in P2 by lia. rewrite (proj2 (Z.ltb_ge _ _)) in P3 by lia. exists dl, dw, dc.
  split_and!; [intros rest; rewrite A1; lia|intros rest; rewrite A2; lia|intros rest; rewrite A3; lia|].
  unfold vprintf. change (string_bytes "%d %d %d %s" ++ [c_nl]) with [37; 100; 32; 37; 100; 32; 37; 100; 32; 37; 115; 10].
  assert (0 <= Z.of_nat (length (words [] inp)) /\ 0 <= Z.of_nat (length inp)) as [] by lia. clear -Hl Hw Hc P1 P2 P3 H H0.
  generalize dependent (count_nl inp). generalize dependent (Z.of_nat (length (words [] inp))). generalize dependent (Z.of_nat (length inp)). intros.
  cbn -[uprintint i32 cstr app]. rewrite (i32_int z1), (i32_int z0), (i32_int z), P1 by lia. cbn -[uprintint cstr app]. rewrite P2. cbn -[uprintint cstr app]. rewrite P3. cbn -[cstr app].
  by rewrite <- ?app_assoc.
Qed.
End wc_proofs.

(** A file that delivers at most three bytes at a time. *)
Definition trickle : Reads := fun inp n => Z.max 0 (Z.min (Z.min 3 n) (Z.of_nat (length inp))).
Lemma trickle_ok : ReadsOk trickle.
Proof. split; unfold delivered, trickle; [intros [|x inp] n H Hn|intros inp n [->| ->]]; cbn [length] in *; (done || lia). Qed.

Lemma wc_counts_witness :
  let inp := string_bytes "one two  three" ++ [c_nl] in
  exists dl dw dc, number 1 dl /\ number 3 dw /\ number 15 dc /\
    @wc trickle inp (string_bytes "f") = Some (dl ++ [32] ++ dw ++ [32] ++ dc ++ [32] ++ string_bytes "f" ++ [c_nl]).
Proof. intros inp. apply (@wc_counts trickle trickle_ok inp (string_bytes "f")). vm_compute. reflexivity. Defined.
