(* ===== verification/UserProg.v ===== *)
(** * The user programs as interaction trees
      (user/cat.c, echo.c, init.c, kill.c, ln.c, ls.c, mkdir.c, rm.c, zombie.c, cps.c, reptraps.c,
      top.c, sch.c, threadt.c, forktest.c, stressfs.c, the mains of grep.c and wc.c, ulib.c, user.h)

    A program is a tree of the system calls it makes, each continued with every
    answer the kernel may give; one that loops forever is an infinite tree.
    A pointer argument is the string or the bytes it points to, and a call that
    fills a buffer answers with what is in the buffer afterwards. *)

From S2P Require Import Prelude KString Ulib UPrintf Grep.
From ITree Require Import ITree.

#[export] Instance itree_mbind (E : Type -> Type) : MBind (itree E) := fun A B k t => ITree.bind t k.

(** ** System calls *)

(** [struct stat], [struct proc_info] and [struct report] as the programs read them. *)
Record ustat : Type := mk_ustat { st_dev : Z; st_ino : Z; st_type : Z; st_nlink : Z; st_size : Z }.
Record uinfo : Type := mk_uinfo { ui_name : list Z; ui_pid : Z; ui_ppid : Z; ui_state : Z; ui_ticks : Z }.
Record ureport : Type := mk_ureport {
  ur_pname : list Z; ur_pid : Z; ur_scause : Z; ur_sepc : Z; ur_stval : Z; ur_parents : list Z
}.

Inductive sysE : Type -> Type :=
| Fork : sysE Z
| ExitE (status : Z) : sysE Empty_set
| Wait : sysE Z                                    (* with a null pointer *)
| Write (fd : Z) (bs : list Z) : sysE Z
| Read (fd n : Z) : sysE (Z * list Z)
| Close (fd : Z) : sysE Z
| KillE (pid : Z) : sysE Z
| ExecE (path : list Z) (argv : list (list Z)) : sysE Z
| Open (path : list Z) (mode : Z) : sysE Z
| Mknod (path : list Z) (major minor : Z) : sysE Z
| Unlink (path : list Z) : sysE Z
| Fstat (fd : Z) : sysE (Z * ustat)
| Link (old new : list Z) : sysE Z
| Mkdir (path : list Z) : sysE Z
| Dup (fd : Z) : sysE Z
| SleepE (n : Z) : sysE Z
| Child_processes : sysE (Z * Z * list uinfo)      (* count and processes[] *)
| Report_traps : sysE (Z * Z * list ureport)
| Top_func : sysE (Z * Z * list uinfo)
| Create_thread (f arg stack : Z) : sysE Z
| Join_thread (tid : Z) : sysE Z
| Set_cpu_quota (pid quota : Z) : sysE Z
| Cpu_used : sysE Z
| WaitStatus : sysE (Z * Z)                        (* the result, and what the status word holds then *)
| Pipe : sysE (Z * (Z * Z))
| Chdir (path : list Z) : sysE Z
| Getpid : sysE Z
| Sbrk (n : Z) : sysE Z
| Uptime : sysE Z
| Exit_thread (tid : Z) : sysE Z
| Fork_deadline (deadline : Z) : sysE Z
(** Calls with a pointer made from a number. *)
| WriteAt (fd addr n : Z) : sysE Z
| ReadAt (fd addr n : Z) : sysE Z
| OpenAt (path mode : Z) : sysE Z
| UnlinkAt (path : Z) : sysE Z
| LinkAt (old new : Z) : sysE Z
| LinkNewAt (old : list Z) (new : Z) : sysE Z
| ExecAt (path : Z) (argv : list (list Z)) : sysE Z
| ExecArgsAt (path : list Z) (argv : list Z) : sysE Z
| PipeAt (fds : Z) : sysE Z
(** The allocator of umalloc.c. *)
| Malloc (n : Z) : sysE Z
| Free (p : Z) : sysE unit
(** Loads and stores through a pointer made from a number; an access outside
    the objects of the program. *)
| LoadByte (a : Z) : sysE Z
| LoadStr (a : Z) : sysE (list Z)
| StoreByte (a v : Z) : sysE unit
| LoadWord (a : Z) : sysE Z
| StoreWord (a v : Z) : sysE unit
| LoadInt (a : Z) : sysE Z
| StoreInt (a v : Z) : sysE unit
| Wild : sysE Empty_set.

Abbreviation prog := (itree sysE).
Definition sys {A} (e : sysE A) : prog A := ITree.trigger e.
Definition exit {A} (status : Z) : prog A := Vis (ExitE status) (fun v : Empty_set => match v with end).
Definition wild {A} : prog A := Vis Wild (fun v : Empty_set => match v with end).

(** [start] of ulib.c: what a program that returns from [main] does. *)
Definition start (main : prog Z) : prog Z := _ ← main; exit 0.

(** ** ulib.c and printf.c *)

Definition O_RDONLY : Z := 0.
Definition O_RDWR : Z := 2.
Definition O_CREATE : Z := 512.

Definition stat (n : list Z) : prog (Z * option ustat) :=
  fd ← sys (Open n O_RDONLY);
  if fd <? 0 then Ret (-1, None)
  else
    '(r, st) ← sys (Fstat fd);
    _ ← sys (Close fd);
    Ret (r, Some st).

(** The escapes of a C string literal. *)
Fixpoint unescape (s : list Z) : list Z :=
  match s with
  | [] => []
  | c :: t =>
      match t with
      | d :: s' =>
          if (c =? 92) && (d =? 110) then 10 :: unescape s'
          else if (c =? 92) && (d =? 116) then 9 :: unescape s'
          else c :: unescape t
      | [] => [c]
      end
  end.
Definition lit (s : string) : list Z := unescape (string_bytes s).

(** [putc] of each byte: a write each, whose result is not looked at. *)
Fixpoint puts (fd : Z) (out : list Z) : prog unit :=
  match out with
  | [] => Ret tt
  | c :: out' => _ ← sys (Write fd [c]); puts fd out'
  end.
Definition fprintf (fd : Z) (fmt : string) (args : list uarg) : prog unit :=
  match vprintf (lit fmt) args with Some out => puts fd out | None => wild end.
Definition printf (fmt : string) (args : list uarg) : prog unit := fprintf 1 fmt args.

(** [for (i = ...; i < argc; i++)]. *)
Fixpoint for_args {A} (l : list A) (body : A -> prog unit) : prog unit :=
  match l with
  | [] => Ret tt
  | x :: l' => _ ← body x; for_args l' body
  end.

(** ** Files: cat, echo, kill, ln, ls, mkdir, rm *)

Definition cat (fd : Z) : prog unit :=
  n ← ITree.iter (fun _ : unit =>
        '(n, buf) ← sys (Read fd 512);
        if 0 <? n then
          w ← sys (Write 1 buf);
          if negb (w =? n) then
            _ ← fprintf 2 "cat: write error\n" [];
            exit 1
          else Ret (inl tt)
        else Ret (inr n)) tt;
  if n <? 0 then
    _ ← fprintf 2 "cat: read error\n" [];
    exit 1
  else Ret tt.

Definition cat_main (argv : list (list Z)) : prog Z :=
  if (length argv <=? 1)%nat then
    _ ← cat 0;
    exit 0
  else
    _ ← for_args (drop 1 argv) (fun arg =>
      fd ← sys (Open arg O_RDONLY);
      if fd <? 0 then
        _ ← fprintf 2 "cat: cannot open %s\n" [UStr (Some arg)];
        exit 1
      else
        _ ← cat fd;
        _ ← sys (Close fd);
        Ret tt);
    exit 0.

Fixpoint echo_loop (args : list (list Z)) : prog unit :=
  match args with
  | [] => Ret tt
  | arg :: args' =>
      _ ← sys (Write 1 arg);
      _ ← sys (Write 1 (lit (match args' with [] => "\n" | _ => " " end)));
      echo_loop args'
  end.
Definition echo_main (argv : list (list Z)) : prog Z := _ ← echo_loop (drop 1 argv); exit 0.

Definition kill_main (argv : list (list Z)) : prog Z :=
  if (length argv <? 2)%nat then
    _ ← fprintf 2 "usage: kill pid...\n" [];
    exit 1
  else
    _ ← for_args (drop 1 argv) (fun arg => _ ← sys (KillE (atoi arg)); Ret tt);
    exit 0.

Definition ln_main (argv : list (list Z)) : prog Z :=
  match argv with
  | [_; old; new] =>
      r ← sys (Link old new);
      _ ← (if r <? 0 then fprintf 2 "link %s %s: failed\n" [UStr (Some old); UStr (Some new)] else Ret tt);
      exit 0
  | _ =>
      _ ← fprintf 2 "Usage: ln old new\n" [];
      exit 1
  end.

(** The loops of mkdir and rm, which stop at the first failure. *)
Fixpoint each_until (call : list Z -> sysE Z) (complaint : string) (args : list (list Z)) : prog unit :=
  match args with
  | [] => Ret tt
  | arg :: args' =>
      r ← sys (call arg);
      if r <? 0 then fprintf 2 complaint [UStr (Some arg)] else each_until call complaint args'
  end.
Definition mkdir_main (argv : list (list Z)) : prog Z :=
  if (length argv <? 2)%nat then
    _ ← fprintf 2 "Usage: mkdir files...\n" [];
    exit 1
  else
    _ ← each_until Mkdir "mkdir: %s failed to create\n" (drop 1 argv);
    exit 0.
Definition rm_main (argv : list (list Z)) : prog Z :=
  if (length argv <? 2)%nat then
    _ ← fprintf 2 "Usage: rm files...\n" [];
    exit 1
  else
    _ ← each_until Unlink "rm: %s failed to delete\n" (drop 1 argv);
    exit 0.

Definition T_DIR : Z := 1.
Definition T_FILE : Z := 2.
Definition T_DEVICE : Z := 3.
Definition DIRSIZ : nat := 14.
Definition c_slash : Z := 47.

(** The loop of [fmtname], when [p] has come down to [path + n - 1]: where
    [p++] leaves it. *)
Fixpoint fmtname_scan (path : list Z) (n : nat) : nat :=
  match n with
  | O => O
  | S n' => if nth n' path 0 =? c_slash then n else fmtname_scan path n'
  end.
Definition fmtname (path : list Z) : list Z :=
  let p := drop (fmtname_scan path (S (length path))) path in
  if (DIRSIZ <=? length p)%nat then p else p ++ replicate (DIRSIZ - length p) 32.

Definition ls_line (path : list Z) (st : ustat) : prog unit :=
  printf "%s %d %d %d\n" [UStr (Some (fmtname path)); UNum (st_type st); UNum (st_ino st); UNum (i32 (st_size st))].

(** A directory entry: [inum] and [name]. *)
Definition de_inum (de : list Z) : Z := nth 0 de 0 + 256 * nth 1 de 0.
Definition de_name (de : list Z) : list Z := take DIRSIZ (drop 2 de).

(** The loop over the entries of a directory; [buf] is the path of one. *)
Definition ls_dir (path : list Z) (fd : Z) : prog unit :=
  ITree.iter (fun _ : unit =>
    '(n, de) ← sys (Read fd 16);
    if negb (n =? 16) then Ret (inr tt)
    else if de_inum de =? 0 then Ret (inl tt)
    else
      let buf := path ++ [c_slash] ++ cstr (de_name de) in
      '(r, st) ← stat buf;
      if r <? 0 then
        _ ← printf "ls: cannot stat %s\n" [UStr (Some buf)];
        Ret (inl tt)
      else
        match st with
        | Some st => _ ← ls_line buf st; Ret (inl tt)
        | None => wild
        end) tt.
Definition ls (path : list Z) : prog unit :=
  fd ← sys (Open path O_RDONLY);
  if fd <? 0 then fprintf 2 "ls: cannot open %s\n" [UStr (Some path)]
  else
    '(r, st) ← sys (Fstat fd);
    if r <? 0 then
      _ ← fprintf 2 "ls: cannot stat %s\n" [UStr (Some path)];
      _ ← sys (Close fd);
      Ret tt
    else
      _ ← (if (st_type st =? T_DEVICE) || (st_type st =? T_FILE) then ls_line path st
           else if st_type st =? T_DIR then
             if (512 <? length path + 1 + DIRSIZ + 1)%nat then printf "ls: path too long\n" []
             else
               ls_dir path fd
           else Ret tt);
      _ ← sys (Close fd);
      Ret tt.
Definition ls_main (argv : list (list Z)) : prog Z :=
  if (length argv <? 2)%nat then
    _ ← ls (lit ".");
    exit 0
  else
    _ ← for_args (drop 1 argv) ls;
    exit 0.

(** ** grep and wc *)

(** The loop over the lines in the buffer, from [p] on. *)
Fixpoint grep_buffer (fuel : nat) (pattern buf : list Z) (p : nat) : prog (list Z * nat) :=
  match fuel with
  | O => wild
  | S fuel' =>
      match strchr (drop p buf) c_nl with
      | None => Ret (buf, p)
      | Some d =>
          let q := (p + d)%nat in
          let buf := <[q := 0]> buf in
          if rmatch pattern (cstr (drop p buf)) then
            let buf := <[q := c_nl]> buf in
            _ ← sys (Write 1 (take (q + 1 - p) (drop p buf)));
            grep_buffer fuel' pattern buf (q + 1)
          else grep_buffer fuel' pattern buf (q + 1)
      end
  end.
Definition grep_round (pattern : list Z) (fd : Z) (st : list Z * nat) : prog ((list Z * nat) + unit) :=
  let '(buf, m) := st in
  '(n, c) ← sys (Read fd (Z.of_nat GREP_BUF - Z.of_nat m - 1));
  if 0 <? n then
    let buf := take m buf ++ c ++ drop (m + length c) buf in
    let m := (m + Z.to_nat n)%nat in
    let buf := <[m := 0]> buf in
    '(buf, p) ← grep_buffer (S GREP_BUF) pattern buf 0;
    if (0 <? m)%nat then let m := (m - p)%nat in Ret (inl (take m (drop p buf) ++ drop m buf, m))
    else Ret (inl (buf, m))
  else Ret (inr tt).
Definition grep_fd (pattern : list Z) (fd : Z) : prog unit := ITree.iter (grep_round pattern fd) (replicate GREP_BUF 0, O).
Definition grep_main (argv : list (list Z)) : prog Z :=
  match argv with
  | _ :: pattern :: files =>
      match files with
      | [] =>
          _ ← grep_fd pattern 0;
          exit 0
      | _ =>
          _ ← for_args files (fun arg =>
            fd ← sys (Open arg O_RDONLY);
            if fd <? 0 then
              _ ← printf "grep: cannot open %s\n" [UStr (Some arg)];
              exit 1
            else
              _ ← grep_fd pattern fd;
              _ ← sys (Close fd);
              Ret tt);
          exit 0
      end
  | _ =>
      _ ← fprintf 2 "usage: grep pattern [file ...]\n" [];
      exit 1
  end.

Definition wc_fd (fd : Z) (name : list Z) : prog unit :=
  '(n, k) ← ITree.iter (fun k : counts =>
        '(n, buf) ← sys (Read fd 512);
        if 0 <? n then Ret (inl (foldl wc_step k buf)) else Ret (inr (n, k))) (mk_counts 0 0 0 false);
  if n <? 0 then
    _ ← printf "wc: read error\n" [];
    exit 1
  else printf "%d %d %d %s\n" [UNum (n_lines k); UNum (n_words k); UNum (n_chars k); UStr (Some name)].
Definition wc_main (argv : list (list Z)) : prog Z :=
  if (length argv <=? 1)%nat then
    _ ← wc_fd 0 [];
    exit 0
  else
    _ ← for_args (drop 1 argv) (fun arg =>
      fd ← sys (Open arg O_RDONLY);
      if fd <? 0 then
        _ ← printf "wc: cannot open %s\n" [UStr (Some arg)];
        exit 1
      else
        _ ← wc_fd fd arg;
        _ ← sys (Close fd);
        Ret tt);
    exit 0.

(** ** Processes: init, zombie, forktest, stressfs *)

Definition init_wait (pid : Z) : prog unit :=
  ITree.iter (fun _ : unit =>
    wpid ← sys Wait;
    if wpid =? pid then Ret (inr tt)
    else if wpid <? 0 then
      _ ← printf "init: wait returned an error\n" [];
      exit 1
    else Ret (inl tt)) tt.
(** One round of the outer loop. *)
Definition init_round : prog unit :=
  _ ← printf "init: starting sh\n" [];
  pid ← sys Fork;
  if pid <? 0 then
    _ ← printf "init: fork failed\n" [];
    exit 1
  else if pid =? 0 then
    _ ← sys (ExecE (lit "sh") [lit "sh"]);
    _ ← printf "init: exec sh failed\n" [];
    exit 1
  else init_wait pid.
(** The descriptors 0, 1 and 2 are made the console. *)
Definition init_console : prog unit :=
  r ← sys (Open (lit "console") O_RDWR);
  _ ← (if r <? 0 then
         _ ← sys (Mknod (lit "console") 1 0);
         sys (Open (lit "console") O_RDWR)
       else Ret 0);
  _ ← sys (Dup 0);
  _ ← sys (Dup 0);
  Ret tt.
Definition init_main : prog Z :=
  _ ← init_console;
  ITree.iter (fun _ : unit => _ ← init_round; Ret (inl tt)) tt.

Definition zombie_main : prog Z :=
  pid ← sys Fork;
  _ ← (if 0 <? pid then sys (SleepE 5) else Ret 0);
  exit 0.

(** forktest.c *)
Definition FORKTEST_N : nat := 1000.
Definition print (s : string) : prog unit := _ ← sys (Write 1 (lit s)); Ret tt.

(** The first loop, with [left] rounds to go: [n] when it ends. *)
Fixpoint forktest_forks (left : nat) (n : nat) : prog nat :=
  match left with
  | O => Ret n
  | S left' =>
      pid ← sys Fork;
      if pid <? 0 then Ret n
      else if pid =? 0 then exit 0
      else forktest_forks left' (S n)
  end.
Fixpoint forktest_waits (n : nat) : prog unit :=
  match n with
  | O => Ret tt
  | S n' =>
      r ← sys Wait;
      if r <? 0 then
        _ ← print "wait stopped early\n";
        exit 1
      else forktest_waits n'
  end.
Definition forktest : prog unit :=
  _ ← print "fork test\n";
  n ← forktest_forks FORKTEST_N 0;
  if (n =? FORKTEST_N)%nat then
    _ ← print "fork claimed to work N times!\n";
    exit 1
  else
    _ ← forktest_waits n;
    r ← sys Wait;
    if negb (r =? -1) then
      _ ← print "wait got too many\n";
      exit 1
    else print "fork test OK\n".
Definition forktest_main : prog Z := _ ← forktest; exit 0.

(** stressfs.c: the number of forks that returned 0 before one did not. *)
Fixpoint stressfs_forks (left i : nat) : prog nat :=
  match left with
  | O => Ret i
  | S left' =>
      pid ← sys Fork;
      if 0 <? pid then Ret i else stressfs_forks left' (S i)
  end.
Fixpoint times (n : nat) (body : prog unit) : prog unit :=
  match n with O => Ret tt | S n' => _ ← body; times n' body end.
Definition stressfs_main : prog Z :=
  _ ← printf "stressfs starting\n" [];
  let data := replicate 512 97 in
  i ← stressfs_forks 4 0;
  _ ← printf "write %d\n" [UNum (Z.of_nat i)];
  let path := lit "stressfs" ++ [48 + Z.of_nat i] in
  fd ← sys (Open path (Z.lor O_CREATE O_RDWR));
  _ ← times 20 (_ ← sys (Write fd data); Ret tt);
  _ ← sys (Close fd);
  _ ← printf "read\n" [];
  fd ← sys (Open path O_RDONLY);
  _ ← times 20 (_ ← sys (Read fd 512); Ret tt);
  _ ← sys (Close fd);
  _ ← sys Wait;
  exit 0.

(** ** The programs for the kernel's additions: cps, reptraps, top, sch, threadt *)

Definition cps_states : list string := ["UNUSED"; "USED"; "SLEEPING"; "RUNNABLE"; "RUNNING"; "ZOMBIE"].
Definition top_states : list string := ["unused"; "used"; "sleep "; "runble"; "run   "; "zombie"].
(** [states[i]], which nothing keeps within the array. *)
Definition state_name (states : list string) (i : Z) : option (list Z) :=
  if i <? 0 then None else string_bytes <$> states !! Z.to_nat i.

Definition cps_line (info : uinfo) : prog unit :=
  match state_name cps_states (ui_state info) with
  | None => wild
  | Some s =>
      printf (if (ui_state info =? 2) || (ui_state info =? 3) then "%d\t%d\t%s\t%s\n" else "%d\t%d\t%s\t\t%s\n")
        [UNum (ui_pid info); UNum (ui_ppid info); UStr (Some s); UStr (Some (ui_name info))]
  end.
(** [for (i = 0; i < count; i++)] over an array. *)
Fixpoint for_array {A} (idx : list nat) (arr : list A) (body : A -> prog unit) : prog unit :=
  match idx with
  | [] => Ret tt
  | i :: idx' => match arr !! i with None => wild | Some x => _ ← body x; for_array idx' arr body end
  end.
Definition cps_main : prog Z :=
  pid ← sys Fork;
  if pid <? 0 then
    _ ← printf "Fork failed" [];
    Ret 0
  else if pid =? 0 then
    _ ← sys Fork;
    _ ← sys Fork;
    _ ← sys Fork;
    _ ← sys Fork;
    _ ← sys (SleepE 100);
    Ret 0
  else
    _ ← sys (SleepE 10);
    '(error, count, processes) ← sys Child_processes;
    if negb (error =? 0) then Ret (-1)
    else
      _ ← printf "Number of children: %d\n" [UNum count];
      _ ← printf "PID\tPPID\tSTATE\t\tNAME\n" [];
      _ ← for_array (seq 0 (Z.to_nat count)) processes cps_line;
      Ret 0.

Definition reptraps_line (rp : ureport) : prog unit :=
  match ur_parents rp !! O with
  | None => wild
  | Some parent =>
      printf "%d\t%d\t%s\t0x%lx\t\t0x%lx\t\t0x%lx\n"
        [UNum (ur_pid rp); UNum parent; UStr (Some (ur_pname rp)); UNum (ur_scause rp); UNum (ur_sepc rp); UNum (ur_stval rp)]
  end.
(** [if (fork() == 0) m]. *)
Definition in_child (m : prog unit) : prog unit := pid ← sys Fork; if pid =? 0 then m else Ret tt.
Definition print_int_at (a : Z) : prog unit := x ← sys (LoadInt a); printf "%d\n" [UNum x].
Definition reptraps_main : prog Z :=
  pid ← sys Fork;
  if pid <? 0 then
    _ ← printf "Fork failed" [];
    Ret 0
  else if pid =? 0 then
    pid ← sys Fork;
    _ ← (if pid =? 0 then sys (StoreInt 0 2)
         else
           _ ← in_child (in_child (print_int_at 11111));
           in_child (in_child (in_child (print_int_at 34234))));
    _ ← sys (SleepE 100);
    Ret 0
  else
    _ ← sys (SleepE 10);
    '(error, count, reports) ← sys Report_traps;
    if negb (error =? 0) then Ret (-1)
    else
      _ ← printf "Number of exceptions: %d\n" [UNum count];
      _ ← printf "PID\tPPID\tPNAME\t\tSCAUSE\t\tSEPC\t\tSTVAL\n" [];
      _ ← for_array (seq 0 (Z.to_nat count)) reports reptraps_line;
      Ret 0.

Definition top_line (info : uinfo) : prog unit :=
  match state_name top_states (ui_state info) with
  | None => wild
  | Some s =>
      printf "%d\t\t%d\t\t%s\t\t%s\t\t%d\n"
        [UNum (ui_pid info); UNum (ui_ppid info); UStr (Some s); UStr (Some (ui_name info)); UNum (ui_ticks info)]
  end.
(** The counting loops of top and sch only take time.  The structure printed is
    the one [top_func] leaves, whether it succeeds or not. *)
Definition top_main : prog Z :=
  id ← sys Fork;
  if id =? 0 then
    '(_, n, processes) ← sys Top_func;
    _ ← printf "number of process:%d\nPID\t\tPPID\t\tSTATE\t\tNAME\t\tUSAGE\n" [UNum n];
    _ ← for_array (rev (seq 0 (Z.to_nat n))) processes top_line;
    _ ← sys (SleepE 20);
    Ret 0
  else
    _ ← sys (SleepE 20);
    exit 0.

Definition sch_main : prog Z :=
  pid ← sys Fork;
  if pid =? 0 then
    _ ← sys (Set_cpu_quota 3 1);
    _ ← sys (SleepE 5);
    u ← sys Cpu_used;
    _ ← printf "USAGE:%d\n" [UNum u];
    _ ← times 10 (printf "this is from quota-set proc!\n" []);
    _ ← sys (SleepE 200);
    Ret 0
  else
    _ ← sys (Set_cpu_quota 4 100);
    _ ← sys (SleepE 5);
    u ← sys Cpu_used;
    _ ← printf "USAGE(kid):%d\n" [UNum u];
    _ ← times 10 (printf "this is from without quota proc!\n" []);
    Ret 0.

(** The addresses of the code and of the objects of threadt.c. *)
Record threadt_layout : Type := mk_threadt {
  la_thread : Z; la_a : Z; la_b : Z; la_c : Z; la_astack : Z; la_bstack : Z; la_cstack : Z
}.
Definition thread_format (lay : threadt_layout) (arg : Z) : string :=
  if arg =? la_a lay then "thread a: %d\n"
  else if arg =? la_b lay then "thread b: %d\n"
  else if arg =? la_c lay then "thread c: %d\n"
  else "thread arg not correct: %d\n".
Definition my_thread (lay : threadt_layout) (arg : Z) : prog Z :=
  _ ← for_args (seqZ 1 100) (fun number => printf (thread_format lay arg) [UNum number]);
  Ret arg.
Definition threadt_main (lay : threadt_layout) : prog Z :=
  ta ← sys (Create_thread (la_thread lay) (la_a lay) (la_astack lay + 400));
  tb ← sys (Create_thread (la_thread lay) (la_b lay) (la_bstack lay + 400));
  tc ← sys (Create_thread (la_thread lay) (la_c lay) (la_cstack lay + 400));
  _ ← sys (Join_thread ta);
  _ ← sys (Join_thread tb);
  _ ← sys (Join_thread tc);
  _ ← printf "main thread before end!\n" [];
  exit 0.
