(* ===== verification/UserRun.v ===== *)
(** * Running user programs

    A program runs against a kernel, a function that answers its system calls
    and changes the kernel's state.  [runp] runs it with fuel; [finishes] is
    that it comes to an end, and [reaches] that a program which may go on
    forever gets to a state. *)

From S2P Require Import Prelude UserProg.
From ITree Require Import ITree.

(** What becomes of a process: it returns (from a function), exits, or makes an
    access outside its objects. *)
Inductive stop (R : Type) : Type := Returned (r : R) | Exited (status : Z) | Crashed.
Arguments Returned {R} _.
Arguments Exited {R} _.
Arguments Crashed {R}.

Class Kernel (S : Type) : Type := handle : forall X, sysE X -> S -> option (X * S).
Arguments handle {S _ X} _ _.

Section run.
Context {S : Type} {K : Kernel S}.

(** One step: a call answered, or nothing. *)
Inductive advanced (R : Type) : Type := Stopped (o : stop R) | At (t : prog R) (s : S) | Refused.
Arguments Stopped {R} _.
Arguments At {R} _ _.
Arguments Refused {R}.

Definition answer {R X} (e : sysE X) (k : X -> prog R) (s : S) : advanced R :=
  match e with
  | ExitE status => Stopped (Exited status)
  | Wild => Stopped Crashed
  | _ => match handle e s with Some (x, s') => At (k x) s' | None => Refused end
  end.
Definition advance {R} (t : prog R) (s : S) : advanced R :=
  match observe t with
  | RetF r => Stopped (Returned r)
  | TauF t' => At t' s
  | VisF e k => answer e k s
  end.

Fixpoint runp {R} (fuel : nat) (t : prog R) (s : S) : option (stop R * S) :=
  match fuel with
  | O => None
  | Datatypes.S fuel' =>
      match advance t s with
      | Stopped o => Some (o, s)
      | At t' s' => runp fuel' t' s'
      | Refused => None
      end
  end.
Fixpoint steps {R} (n : nat) (t : prog R) (s : S) : option (prog R * S) :=
  match n with
  | O => Some (t, s)
  | Datatypes.S n' => match advance t s with At t' s' => steps n' t' s' | _ => None end
  end.

Definition finishes {R} (t : prog R) (s : S) (o : stop R) (s' : S) : Prop := exists fuel, runp fuel t s = Some (o, s').
Definition reaches {R} (t : prog R) (s : S) (P : S -> Prop) : Prop := exists n t' s', steps n t s = Some (t', s') /\ P s'.

(** ** Rules *)

Lemma advance_observe {R} (t t' : prog R) s : observe t = observe t' -> advance t s = advance t' s.
Proof. unfold advance. by intros ->. Qed.
Lemma runp_observe {R} fuel (t t' : prog R) s : observe t = observe t' -> runp fuel t s = runp fuel t' s.
Proof. intros E. destruct fuel; [done|]. cbn [runp]. by rewrite (advance_observe t t'). Qed.
Lemma finishes_observe {R} (t t' : prog R) s o s' : observe t = observe t' -> finishes t' s o s' -> finishes t s o s'.
Proof. intros E [fuel Hf]. exists fuel. by rewrite (runp_observe fuel t t'). Qed.

Definition carried {A B} (f : A -> prog B) (s : S) (a : advanced A) : advanced B :=
  match a with
  | Stopped (Returned r) => advance (f r) s
  | Stopped (Exited status) => Stopped (Exited status)
  | Stopped Crashed => Stopped Crashed
  | At t s' => At (ITree.bind t f) s'
  | Refused => Refused
  end.
Lemma advance_bind {A B} (t : prog A) (f : A -> prog B) s : advance (ITree.bind t f) s = carried f s (advance t s).
Proof.
  unfold advance at 1 2. change (observe (ITree.bind t f)) with
    (observe (match observe t with RetF r => f r | TauF t' => Tau (ITree.bind t' f) | VisF e k => Vis e (fun x => ITree.bind (k x) f) end)).
  destruct (observe t) as [r|t'|X e k]; [done..|]. cbn [observe _observe]. unfold answer.
  destruct e; try done; match goal with |- context [handle ?e ?s] => destruct (handle e s) as [[]|] end; done.
Qed.

Lemma finishes_bind {A B} (t : prog A) (f : A -> prog B) s r s1 o s2 :
  finishes t s (Returned r) s1 -> finishes (f r) s1 o s2 -> finishes (ITree.bind t f) s o s2.
Proof.
  intros [n Hn] [m Hm]. revert t s Hn. induction n as [|n IH]; intros t s Hn; [done|]. cbn [runp] in Hn.
  destruct (advance t s) as [o'|t' s'|] eqn:E; [| |done].
  - injection Hn as -> ->. exists m. destruct m as [|m]; [done|]. cbn [runp] in *. by rewrite advance_bind, E.
  - destruct (IH _ _ Hn) as [k Hk]. exists (Datatypes.S k). cbn [runp]. by rewrite advance_bind, E.
Qed.

Definition lifted {A B} (o : stop A) : option (stop B) :=
  match o with Returned _ => None | Exited status => Some (Exited status) | Crashed => Some Crashed end.
Lemma finishes_bind_stop {A B} (t : prog A) (f : A -> prog B) s o o' s1 :
  finishes t s o s1 -> lifted o = Some o' -> finishes (ITree.bind t f) s o' s1.
Proof.
  intros [n Hn] Ho. revert t s Hn. induction n as [|n IH]; intros t s Hn; [done|]. cbn [runp] in Hn.
  destruct (advance t s) as [o1|t' s'|] eqn:E; [| |done].
  - injection Hn as -> ->. exists 1%nat. cbn [runp]. rewrite advance_bind, E. by destruct o; simplify_eq/=.
  - destruct (IH _ _ Hn) as [k Hk]. exists (Datatypes.S k). cbn [runp]. by rewrite advance_bind, E.
Qed.
Lemma finishes_bind_exit {A B} (t : prog A) (f : A -> prog B) s status s1 :
  finishes t s (Exited status) s1 -> finishes (ITree.bind t f) s (Exited status) s1.
Proof. intros Ht. by apply (finishes_bind_stop t f s (Exited status)). Qed.

Lemma finishes_ret {R} (r : R) s : finishes (Ret r) s (Returned r) s.
Proof. by exists 1%nat. Qed.
Lemma finishes_exit {R} status s : finishes (exit status : prog R) s (Exited status) s.
Proof. by exists 1%nat. Qed.
Lemma finishes_wild {R} s : finishes (wild : prog R) s Crashed s.
Proof. by exists 1%nat. Qed.
(** The first two are the events of [exit] and [wild]. *)
Lemma finishes_sys {X} (e : sysE X) x s s' : handle e s = Some (x, s') -> finishes (sys e) s (Returned x) s'.
Proof.
  intros Hh. exists 2%nat. cbn [runp]. change (advance (sys e) s) with (answer e (fun x : X => Ret x : prog X) s). unfold answer.
  destruct e; try (by destruct x); by rewrite Hh.
Qed.
Lemma finishes_call {X R} (e : sysE X) (f : X -> prog R) x s s1 o s2 :
  handle e s = Some (x, s1) -> finishes (f x) s1 o s2 -> finishes (ITree.bind (sys e) f) s o s2.
Proof. intros Hh. apply finishes_bind, finishes_sys, Hh. Qed.

Lemma iter_observe {A B} (body : A -> prog (A + B)) a :
  observe (ITree.iter body a) = observe (ITree.bind (body a) (fun r => match r with inl a' => Tau (ITree.iter body a') | inr b => Ret b end)).
Proof. reflexivity. Qed.
Lemma finishes_iter_next {A B} (body : A -> prog (A + B)) a a' s s1 o s2 :
  finishes (body a) s (Returned (inl a')) s1 -> finishes (ITree.iter body a') s1 o s2 -> finishes (ITree.iter body a) s o s2.
Proof.
  intros H1 [n Hn]. eapply finishes_observe; [apply iter_observe|]. eapply finishes_bind; [exact H1|]. by exists (Datatypes.S n).
Qed.
Lemma finishes_iter_end {A B} (body : A -> prog (A + B)) a b s s1 :
  finishes (body a) s (Returned (inr b)) s1 -> finishes (ITree.iter body a) s (Returned b) s1.
Proof. intros H1. eapply finishes_observe; [apply iter_observe|]. eapply finishes_bind; [exact H1|]. apply finishes_ret. Qed.
Lemma finishes_iter_stop {A B} (body : A -> prog (A + B)) a s o o' s1 :
  finishes (body a) s o s1 -> lifted o = Some o' -> finishes (ITree.iter body a) s o' s1.
Proof. intros H1 Ho. eapply finishes_observe; [apply iter_observe|]. by eapply finishes_bind_stop. Qed.

(** A kernel whose writes of a byte add it to an output. *)
Lemma finishes_puts (add : list Z -> S -> S) fd bs s :
  (forall s, add [] s = s) -> (forall b c s, add c (add b s) = add (b ++ c) s) ->
  (forall c s, handle (Write fd [c]) s = Some (1, add [c] s)) -> finishes (puts fd bs) s (Returned tt) (add bs s).
Proof.
  intros Hnil Happ Hw. revert s. induction bs as [|c bs IH]; intros s; cbn [puts]; [rewrite Hnil; apply finishes_ret|].
  eapply finishes_call; [apply Hw|]. change (c :: bs) with ([c] ++ bs). rewrite <- Happ. apply IH.
Qed.

(** A program ends in one way only. *)
Lemma runp_more {R} n m (t : prog R) s x : runp n t s = Some x -> runp (n + m) t s = Some x.
Proof.
  revert t s. induction n as [|n IH]; intros t s Hn; [done|]. cbn [runp Nat.add] in *.
  destruct (advance t s) as [o|t' s'|]; [done|by apply IH|done].
Qed.
Lemma finishes_unique {R} (t : prog R) s o s' o' s'' : finishes t s o s' -> finishes t s o' s'' -> o = o' /\ s' = s''.
Proof.
  intros [n Hn] [m Hm]. apply (runp_more n m) in Hn. apply (runp_more m n) in Hm. rewrite Nat.add_comm in Hm.
  rewrite Hn in Hm. by injection Hm as -> ->.
Qed.

Lemma reaches_here {R} (t : prog R) s (P : S -> Prop) : P s -> reaches t s P.
Proof. intros HP. by exists 0%nat, t, s. Qed.
Lemma reaches_bind {A B} (t : prog A) (f : A -> prog B) s r s1 P :
  finishes t s (Returned r) s1 -> reaches (f r) s1 P -> reaches (ITree.bind t f) s P.
Proof.
  intros [n Hn] (m & t1 & s2 & Hm & HP). revert t s Hn. induction n as [|n IH]; intros t s Hn; [done|]. cbn [runp] in Hn.
  destruct (advance t s) as [o'|t' s'|] eqn:E; [| |done].
  - injection Hn as -> ->. destruct m as [|m]; [injection Hm as _ <-; by apply reaches_here|].
    exists (Datatypes.S m), t1, s2. split; [|done]. cbn [steps] in *. by rewrite advance_bind, E.
  - destruct (IH _ _ Hn) as (k & t2 & s3 & Hk & HP'). exists (Datatypes.S k), t2, s3. split; [|done]. cbn [steps]. by rewrite advance_bind, E.
Qed.
Lemma reaches_observe {R} (t t' : prog R) s P : observe t = observe t' -> reaches t' s P -> reaches t s P.
Proof.
  intros E (n & t1 & s1 & Hn & HP). destruct n as [|n]; [injection Hn as _ <-; by apply reaches_here|].
  exists (Datatypes.S n), t1, s1. split; [|done]. cbn [steps] in *. by rewrite (advance_observe t t').
Qed.
Lemma reaches_iter_next {A B} (body : A -> prog (A + B)) a a' s s1 P :
  finishes (body a) s (Returned (inl a')) s1 -> reaches (ITree.iter body a') s1 P -> reaches (ITree.iter body a) s P.
Proof.
  intros H1 (n & t & s' & Hn & HP). eapply reaches_observe; [apply iter_observe|]. eapply reaches_bind; [exact H1|].
  by exists (Datatypes.S n), t, s'.
Qed.
End run.
Arguments Stopped {S R} _.
Arguments At {S R} _ _.
Arguments Refused {S R}.

(** ** Programs that fork

    A child runs to its end, then the parent goes on: one of the orders the
    scheduler may choose, and the one that gives a run.  A load or store that
    the kernel does not answer is a page fault. *)

Class Processes (S : Type) : Type := {
  calls :: Kernel S;
  (** [fork]: the child's number, and the state in which the child runs. *)
  spawn : S -> option (Z * S);
  (** The child (with its number) ended with a status, in its last state: the
      state, from that at the fork, in which the parent goes on. *)
  ended : Z -> Z -> S -> S -> option S;
  (** The program a path and its arguments name, for [exec]. *)
  loaded : list Z -> list (list Z) -> option (prog Z)
}.

(** The status of a process that stopped: to return from [main] is [exit(0)],
    and the kernel kills a process that makes a wild access. *)
Definition status_of {R} (o : stop R) : Z := match o with Returned _ => 0 | Exited st => st | Crashed => -1 end.

Fixpoint runf {S} {P : Processes S} (fuel : nat) (R : Type) (t : prog R) (s : S) : option (stop R * S) :=
  match fuel with
  | O => None
  | Datatypes.S fuel' =>
      match observe t with
      | RetF r => Some (Returned r, s)
      | TauF t' => runf fuel' R t' s
      | VisF e k =>
          match e in sysE X return (X -> prog R) -> option (stop R * S) with
          | Fork => fun k =>
              '(pid, child) ← spawn s;
              '(o, s') ← runf fuel' R (k 0) child;
              s' ← ended pid (status_of o) s s';
              runf fuel' R (k pid) s'
          | ExecE path argv => fun k =>
              match loaded path argv with
              | Some main => '(o, s') ← runf fuel' Z (start main) s; Some (Exited (status_of o), s')
              | None => runf fuel' R (k (-1)) s
              end
          | ExitE st => fun _ => Some (Exited st, s)
          | Wild => fun _ => Some (Crashed, s)
          | LoadByte _ | StoreByte _ _ | LoadInt _ | StoreInt _ _ =>
              fun _ => match handle e s with Some (x, s') => runf fuel' R (k x) s' | None => Some (Crashed, s) end
          | _ => fun _ => '(x, s') ← handle e s; runf fuel' R (k x) s'
          end k
      end
  end.
