(* ===== verification/UserTheorems.v ===== *)
(** * What the user programs do

    [cat], [ls], [init] and [forktest] of UserProg, run against kernels that
    keep what the system calls they use promise: files with contents and
    descriptors for the first two, processes for the others. *)

From ITree Require Import ITree.
From S2P Require Import Prelude KString Ulib UPrintf UPrintfTheorems UserProg UserRun.

Ltac Zify.zify_post_hook ::= idtac.

(** ** A kernel with files *)

(** The files by path, with what [fstat] says of them; the descriptors, with
    what is left to read; what was written to descriptors 1 and 2. *)
Record fkernel : Type := mk_fk {
  fk_files : gmap (list Z) (ustat * list Z);
  fk_fds : list (option (ustat * list Z));
  fk_out : list Z;
  fk_err : list Z
}.
Definition set_fds v s := mk_fk (fk_files s) v (fk_out s) (fk_err s).
Definition add_out bs s := mk_fk (fk_files s) (fk_fds s) (fk_out s ++ bs) (fk_err s).
Definition add_err bs s := mk_fk (fk_files s) (fk_fds s) (fk_out s) (fk_err s ++ bs).

(** The lowest descriptor not in use. *)
Fixpoint lowest_free {A} (fds : list (option A)) : option nat :=
  match fds with
  | [] => None
  | None :: _ => Some O
  | Some _ :: fds' => Datatypes.S <$> lowest_free fds'
  end.
Definition fd_file (fd : Z) (s : fkernel) : option (ustat * list Z) := mjoin (fk_fds s !! Z.to_nat fd).

#[export] Instance file_kernel {R : Reads} : Kernel fkernel := fun X e s =>
  match e in sysE X return option (X * fkernel) with
  | Open path mode =>
      match fk_files s !! path, lowest_free (fk_fds s) with
      | Some f, Some n => if mode =? O_RDONLY then Some (Z.of_nat n, set_fds (<[n := Some f]> (fk_fds s)) s) else Some (-1, s)
      | _, _ => Some (-1, s)
      end
  | Close fd => Some (0, set_fds (<[Z.to_nat fd := None]> (fk_fds s)) s)
  | Read fd n =>
      match fd_file fd s with
      | Some (st, inp) =>
          let k := Z.to_nat (delivered inp n) in
          Some ((Z.of_nat k, take k inp), set_fds (<[Z.to_nat fd := Some (st, drop k inp)]> (fk_fds s)) s)
      | None => Some ((-1, []), s)
      end
  | Fstat fd => match fd_file fd s with Some (st, _) => Some ((0, st), s) | None => Some ((-1, mk_ustat 0 0 0 0 0), s) end
  | Write fd bs =>
      if fd =? 1 then Some (Z.of_nat (length bs), add_out bs s)
      else if fd =? 2 then Some (Z.of_nat (length bs), add_err bs s)
      else Some (-1, s)
  | _ => None
  end.

Lemma lowest_free_lookup {A} (fds : list (option A)) n : lowest_free fds = Some n -> fds !! n = Some None.
Proof.
  revert n. induction fds as [|[x|] fds IH]; intros n; cbn [lowest_free]; [done| |by intros [= <-]].
  destruct (lowest_free fds) as [k|]; [|done]. intros [= <-]. by apply IH.
Qed.
(** A descriptor opened and closed again. *)
Lemma fds_reopened {A} (fds : list (option A)) n x : lowest_free fds = Some n -> <[n := None]> (<[n := x]> fds) = fds.
Proof. intros Hn%lowest_free_lookup. by rewrite list_insert_insert_eq, list_insert_id. Qed.

Section files.
Context {R : Reads} {HR : ReadsOk R}.
Implicit Types s : fkernel.

Lemma add_out_app b c s : add_out c (add_out b s) = add_out (b ++ c) s.
Proof. unfold add_out. cbn. by rewrite app_assoc. Qed.
Lemma add_out_nil s : add_out [] s = s.
Proof. destruct s. unfold add_out. cbn. by rewrite app_nil_r. Qed.
Lemma add_err_app b c s : add_err c (add_err b s) = add_err (b ++ c) s.
Proof. unfold add_err. cbn. by rewrite app_assoc. Qed.
Lemma add_err_nil s : add_err [] s = s.
Proof. destruct s. unfold add_err. cbn. by rewrite app_nil_r. Qed.

Lemma puts_out bs s : finishes (puts 1 bs) s (Returned tt) (add_out bs s).
Proof. apply finishes_puts; [apply add_out_nil|intros; apply add_out_app|reflexivity]. Qed.
Lemma puts_err bs s : finishes (puts 2 bs) s (Returned tt) (add_err bs s).
Proof. apply finishes_puts; [apply add_err_nil|intros; apply add_err_app|reflexivity]. Qed.
Lemma printf_out fmt args out s : vprintf (lit fmt) args = Some out -> finishes (printf fmt args) s (Returned tt) (add_out out s).
Proof. intros E. unfold printf, fprintf. rewrite E. apply puts_out. Qed.
Lemma fprintf_err fmt args out s : vprintf (lit fmt) args = Some out -> finishes (fprintf 2 fmt args) s (Returned tt) (add_err out s).
Proof. intros E. unfold fprintf. rewrite E. apply puts_err. Qed.

(** ** cat *)

Lemma read_fd fd st inp n s : fd_file fd s = Some (st, inp) -> 0 < n ->
  exists c rest, inp = c ++ rest /\ (c = [] <-> inp = []) /\
    handle (Read fd n) s = Some ((Z.of_nat (length c), c), set_fds (<[Z.to_nat fd := Some (st, rest)]> (fk_fds s)) s).
Proof.
  intros Hf Hn. unfold handle, file_kernel. rewrite Hf. exists (take (Z.to_nat (delivered inp n)) inp), (drop (Z.to_nat (delivered inp n)) inp).
  rewrite take_drop. split; [done|]. destruct inp as [|c inp].
  - rewrite take_nil, drop_nil. rewrite reads_end by (by left). done.
  - pose proof (reads_some (c :: inp) n ltac:(done) Hn). split.
    + destruct (Z.to_nat (delivered (c :: inp) n)) eqn:E; [lia|]. done.
    + do 4 f_equal. rewrite length_take. lia.
Qed.

Lemma fd_file_set fd x s : is_Some (fk_fds s !! Z.to_nat fd) -> fd_file fd (set_fds (<[Z.to_nat fd := x]> (fk_fds s)) s) = x.
Proof. intros [y Hy]. unfold fd_file. cbn. rewrite list_lookup_insert_eq by by eapply lookup_lt_Some. done. Qed.
Lemma fd_file_valid fd s f : fd_file fd s = Some f -> is_Some (fk_fds s !! Z.to_nat fd).
Proof. unfold fd_file. destruct (fk_fds s !! Z.to_nat fd); [eauto|done]. Qed.

(** [cat] of a descriptor writes everything that is left to read. *)
Lemma cat_copies fd st inp s : fd_file fd s = Some (st, inp) ->
  finishes (cat fd) s (Returned tt) (add_out inp (set_fds (<[Z.to_nat fd := Some (st, [])]> (fk_fds s)) s)).
Proof.
  intros Hf. unfold cat. eapply finishes_bind with (r := 0); [|apply finishes_ret].
  assert (exists n, (length inp <= n)%nat) as [n Hn] by eauto. revert inp s Hf Hn. induction n as [|n IH]; intros inp s Hf Hn;
    destruct (read_fd fd st inp 512 s Hf) as (c & rest & -> & Hc & Hread); try lia; pose proof (fd_file_valid _ _ _ Hf) as Hv; rewrite length_app in Hn.
  - destruct c; [|cbn in Hn; lia]. destruct rest; [|cbn in Hn; lia]. apply finishes_iter_end. eapply finishes_call; [exact Hread|].
    rewrite add_out_nil. apply finishes_ret.
  - destruct c as [|b c].
    + pose proof (proj1 Hc eq_refl) as Er. cbn [app] in Er. subst rest. apply finishes_iter_end. eapply finishes_call; [exact Hread|].
      rewrite add_out_nil. apply finishes_ret.
    + eapply finishes_iter_next; [eapply finishes_call; [exact Hread|]|].
      * cbn [length]. rewrite (proj2 (Z.ltb_lt 0 _)) by lia. eapply finishes_call; [reflexivity|]. cbn [length]. rewrite Z.eqb_refl. apply finishes_ret.
      * set (s1 := add_out (b :: c) (set_fds (<[Z.to_nat fd := Some (st, rest)]> (fk_fds s)) s)).
        replace (add_out _ _) with (add_out rest (set_fds (<[Z.to_nat fd := Some (st, [])]> (fk_fds s1)) s1))
          by (unfold s1, add_out, set_fds; cbn; by rewrite list_insert_insert_eq, <- app_assoc).
        apply IH; [by apply fd_file_set|cbn in Hn; lia].
Qed.

(** What [cat] makes of its arguments: the contents up to the first file that
    is missing, and its name. *)
Fixpoint cat_all (files : gmap (list Z) (ustat * list Z)) (names : list (list Z)) : list Z * option (list Z) :=
  match names with
  | [] => ([], None)
  | n :: names' =>
      match files !! n with
      | None => ([], Some n)
      | Some (_, c) => let '(out, missing) := cat_all files names' in (c ++ out, missing)
      end
  end.
Definition cat_complaint (missing : option (list Z)) : list Z :=
  match missing with None => [] | Some n => lit "cat: cannot open " ++ cstr n ++ lit "\n" end.

(** Opening a file, using it with [body], which leaves its descriptor in some
    state, and closing it. *)
Lemma with_file (body : Z -> prog unit) (bad : prog unit) name f n s s1 :
  fk_files s !! name = Some f -> lowest_free (fk_fds s) = Some n -> fk_fds s1 = fk_fds s ->
  (forall s0, fd_file (Z.of_nat n) s0 = Some f -> s0 = set_fds (<[n := Some f]> (fk_fds s)) s -> exists g,
     finishes (body (Z.of_nat n)) s0 (Returned tt) (set_fds (<[n := g]> (fk_fds s)) s1)) ->
  finishes (ITree.bind (sys (Open name O_RDONLY)) (fun fd => if fd <? 0 then bad else _ ← body fd; _ ← sys (Close fd); ITreeDefinition.Ret tt)) s (Returned tt) s1.
Proof.
  intros Hf Hn Hfds Hbody. pose proof (lowest_free_lookup _ _ Hn) as Hl%lookup_lt_Some.
  eapply finishes_call; [unfold handle, file_kernel; rewrite Hf, Hn; reflexivity|].
  rewrite (proj2 (Z.ltb_ge _ 0)) by lia. destruct (Hbody (set_fds (<[n := Some f]> (fk_fds s)) s)) as [g Hg]; [|done|].
  { unfold fd_file. rewrite Nat2Z.id. cbn. by rewrite list_lookup_insert_eq. }
  eapply finishes_bind; [exact Hg|]. eapply finishes_call; [reflexivity|]. rewrite Nat2Z.id. cbn [fk_fds set_fds].
  rewrite fds_reopened by done. replace (set_fds _ _) with s1; [apply finishes_ret|]. unfold set_fds. cbn. rewrite <- Hfds. by destruct s1.
Qed.

Lemma cat_file_error name : vprintf (lit "cat: cannot open %s\n") [UStr (Some name)] = Some (cat_complaint (Some name)).
Proof. reflexivity. Qed.

Lemma cat_files names s :
  is_Some (lowest_free (fk_fds s)) ->
  let '(out, missing) := cat_all (fk_files s) names in
  finishes (for_args names (fun arg =>
      fd ← sys (Open arg O_RDONLY);
      if fd <? 0 then _ ← fprintf 2 "cat: cannot open %s\n" [UStr (Some arg)]; exit 1
      else _ ← cat fd; _ ← sys (Close fd); ITreeDefinition.Ret tt)) s
    (match missing with None => Returned tt | Some _ => Exited 1 end) (add_err (cat_complaint missing) (add_out out s)).
Proof.
  revert s. induction names as [|name names IH]; intros s Hfree; cbn [cat_all for_args].
  { rewrite add_out_nil, add_err_nil. apply finishes_ret. }
  destruct (fk_files s !! name) as [[st c]|] eqn:Hf.
  - destruct Hfree as [n Hn]. specialize (IH (add_out c s)). cbn [fk_files fk_fds add_out] in IH.
    destruct (cat_all (fk_files s) names) as [out missing]. rewrite <- add_out_app.
    eapply finishes_bind; [|apply IH; eauto]. apply (with_file cat _ name (st, c) n s (add_out c s)); [done..|].
    intros s0 H0 ->. eexists. pose proof (cat_copies (Z.of_nat n) st c _ H0) as Hc. rewrite Nat2Z.id in Hc.
    cbn [fk_fds set_fds] in Hc. rewrite list_insert_insert_eq in Hc. exact Hc.
  - rewrite add_out_nil. apply finishes_bind_exit.
    eapply finishes_call; [unfold handle, file_kernel; rewrite Hf; reflexivity|]. cbn [Z.ltb Z.compare].
    eapply finishes_bind; [apply fprintf_err, cat_file_error|]. apply finishes_exit.
Qed.
End files.

(** C21: [cat] with file names writes the contents of the files one after the
    other, in however many pieces [read] delivers them, and exits with status
    0; at the first file that cannot be opened it says so on the error output
    and exits with status 1, the files before it written.  Without names it
    copies its standard input.  All its descriptors are closed again. *)
Theorem cat_concatenates {R : Reads} {HR : ReadsOk R} (s : fkernel) (arg0 : list Z) (names : list (list Z)) :
  is_Some (lowest_free (fk_fds s)) ->
  (names <> [] ->
    let '(out, missing) := cat_all (fk_files s) names in
    finishes (cat_main (arg0 :: names)) s (Exited (match missing with None => 0 | Some _ => 1 end)) (add_err (cat_complaint missing) (add_out out s))) /\
  (forall st inp, fd_file 0 s = Some (st, inp) ->
    finishes (cat_main [arg0]) s (Exited 0) (add_out inp (set_fds (<[0%nat := Some (st, [])]> (fk_fds s)) s))).
Proof.
  intros Hfree. split.
  - intros Hn. pose proof (cat_files names s Hfree) as Hc. destruct (cat_all (fk_files s) names) as [out missing].
    unfold cat_main. destruct names as [|name names]; [done|]. cbn [length Nat.leb drop].
    destruct missing; [by apply finishes_bind_exit|]. eapply finishes_bind; [exact Hc|]. apply finishes_exit.
  - intros st inp H0. unfold cat_main. cbn [length Nat.leb]. eapply finishes_bind; [by apply cat_copies|]. apply finishes_exit.
Qed.

(** ** ls *)

(** A file's reads are only cut short by its end. *)
Class ReadsFull (R : Reads) : Prop := reads_full : forall inp n, delivered inp n = Z.max 0 (Z.min n (Z.of_nat (length inp))).
#[export] Instance reads_full_ok {R : Reads} {HF : ReadsFull R} : ReadsOk R.
Proof.
  split.
  - intros inp n Hi Hn. rewrite reads_full. destruct inp; [done|]. cbn [length]. lia.
  - intros inp n [->| ->]; rewrite reads_full; cbn [length]; lia.
Qed.

Definition decimal (x : Z) : list Z := sign_text x ++ rev (udigits 32 (Z.abs x) 10).
Lemma uprintint_is_decimal x : - 2 ^ 31 <= x < 2 ^ 31 -> uprintint x 10 true = Some (decimal x).
Proof.
  intros Hx. unfold uprintint, decimal, sign_text. cbn [andb]. assert ((if x <? 0 then u32 (- x) else u32 x) = Z.abs x) as ->.
  { unfold u32. destruct (Z.ltb_spec x 0); rewrite Z.mod_small by lia; lia. }
  destruct (udigits_fit 9 32 (Z.abs x) 10 []) as [-> Hl]; [lia|cbn; lia|lia|cbn; unfold UPRINT_BUF; lia|]. cbn [mbind option_bind app].
  unfold ubuf_push. destruct (x <? 0); [|done]. rewrite (proj2 (Nat.ltb_lt _ _)) by (unfold UPRINT_BUF; lia). cbn [mbind option_bind]. by rewrite rev_app_distr.
Qed.
Lemma i32_range x : - 2 ^ 31 <= i32 x < 2 ^ 31.
Proof. unfold i32. pose proof (Z.mod_pos_bound x (2 ^ 32) ltac:(lia)). destruct (Z.ltb_spec (x mod 2 ^ 32) (2 ^ 31)); lia. Qed.

(** The last component of a path, and [DIRSIZ] columns of it. *)
Fixpoint until_slash (l : list Z) : list Z :=
  match l with [] => [] | c :: l' => if c =? c_slash then [] else c :: until_slash l' end.
Definition basename (path : list Z) : list Z := rev (until_slash (rev path)).
Definition padded (name : list Z) : list Z := name ++ replicate (DIRSIZ - length name) 32.

Lemma basename_snoc path c : basename (path ++ [c]) = if c =? c_slash then [] else basename path ++ [c].
Proof. unfold basename. rewrite rev_app_distr. cbn [rev app until_slash]. by destruct (c =? c_slash). Qed.
Lemma fmtname_scan_le path n : (fmtname_scan path n <= n)%nat.
Proof. induction n as [|n IH]; cbn [fmtname_scan]; [done|]. destruct (_ =? _); lia. Qed.
Lemma fmtname_scan_spec path n : (n <= length path)%nat -> drop (fmtname_scan path n) (take n path) = basename (take n path).
Proof.
  induction n as [|n IH]; intros Hn; [done|]. destruct (lookup_lt_is_Some_2 path n) as [c Hc]; [lia|].
  rewrite (take_S_r path n c Hc), basename_snoc. cbn [fmtname_scan]. rewrite (nth_lookup_Some path n 0 c Hc). destruct (c =? c_slash).
  - apply drop_ge. rewrite length_app, length_take. cbn. lia.
  - rewrite drop_app_le by (rewrite length_take; pose proof (fmtname_scan_le path n); lia). by rewrite IH by lia.
Qed.
Lemma fmtname_pads path : fmtname path = padded (basename path).
Proof.
  unfold fmtname, padded. cbn [fmtname_scan]. rewrite nth_overflow by lia. cbn [Z.eqb c_slash].
  pose proof (fmtname_scan_spec path (length path) ltac:(lia)) as E. rewrite firstn_all in E. rewrite E.
  destruct (Nat.leb_spec DIRSIZ (length (basename path))) as [Hl|]; [|done]. replace (DIRSIZ - length (basename path))%nat with 0%nat by lia. by rewrite app_nil_r.
Qed.

(** The line of a file: its name, padded, and three numbers. *)
Definition ls_text (path : list Z) (st : ustat) : list Z :=
  cstr (padded (basename path)) ++ lit " " ++ decimal (i32 (st_type st)) ++ lit " " ++ decimal (i32 (st_ino st)) ++ lit " "
  ++ decimal (i32 (i32 (st_size st))) ++ lit "\n".
Lemma ls_line_prints path st :
  vprintf (lit "%s %d %d %d\n") [UStr (Some (fmtname path)); UNum (st_type st); UNum (st_ino st); UNum (i32 (st_size st))] = Some (ls_text path st).
Proof.
  assert (forall x, uprintint (i32 x) 10 true = Some (decimal (i32 x))) as E by (intros x; apply uprintint_is_decimal, i32_range).
  unfold vprintf, ls_text. rewrite fmtname_pads. set (name := padded (basename path)). change (lit "%s %d %d %d\n") with [37; 115; 32; 37; 100; 32; 37; 100; 32; 37; 100; 10].
  cbn -[uprintint i32 cstr app]. rewrite E. cbn -[uprintint i32 cstr app]. rewrite E. cbn -[uprintint i32 cstr app]. rewrite E.
  cbn -[cstr app i32 decimal]. repeat f_equal.
Qed.

(** The complete entries of a directory's contents. *)
Fixpoint dirents (fuel : nat) (c : list Z) : list (list Z) :=
  match fuel with
  | O => []
  | S fuel' => if (length c <? 16)%nat then [] else take 16 c :: dirents fuel' (drop 16 c)
  end.
Definition ls_entry (files : gmap (list Z) (ustat * list Z)) (path de : list Z) : list Z :=
  if de_inum de =? 0 then []
  else
    let p := path ++ [c_slash] ++ cstr (de_name de) in
    match files !! p with
    | None => lit "ls: cannot stat " ++ cstr p ++ lit "\n"
    | Some (st, _) => ls_text p st
    end.
(** What [ls] of a path prints, on the output and on the error output. *)
Definition ls_output (files : gmap (list Z) (ustat * list Z)) (path : list Z) : list Z * list Z :=
  match files !! path with
  | None => ([], lit "ls: cannot open " ++ cstr path ++ lit "\n")
  | Some (st, c) =>
      if (st_type st =? T_DEVICE) || (st_type st =? T_FILE) then (ls_text path st, [])
      else if st_type st =? T_DIR then
        if (512 <? length path + 1 + DIRSIZ + 1)%nat then (lit "ls: path too long\n", [])
        else (concat (ls_entry files path <$> dirents (S (length c)) c), [])
      else ([], [])
  end.

Section ls.
Context {R : Reads} {HF : ReadsFull R}.
Implicit Types s : fkernel.

Lemma lowest_free_insert {A} (fds : list (option A)) n x y : fds !! n = Some (Some x) -> lowest_free (<[n := Some y]> fds) = lowest_free fds.
Proof.
  revert n. induction fds as [|[z|] fds IH]; intros n; [done|..]; destruct n as [|n]; cbn [lookup list_lookup insert list_insert lowest_free]; try done.
  intros Hn. by rewrite IH.
Qed.

Lemma stat_path p s : is_Some (lowest_free (fk_fds s)) ->
  finishes (stat p) s (Returned (match fk_files s !! p with None => (-1, None) | Some (st, _) => (0, Some st) end)) s.
Proof.
  intros [n Hn]. pose proof (lowest_free_lookup _ _ Hn) as Hl%lookup_lt_Some. unfold stat. destruct (fk_files s !! p) as [[st c]|] eqn:Hf.
  - eapply finishes_call; [unfold handle, file_kernel; rewrite Hf, Hn; reflexivity|]. rewrite (proj2 (Z.ltb_ge _ 0)) by lia.
    eapply finishes_call.
    { unfold handle, file_kernel, fd_file. rewrite Nat2Z.id. cbn [fk_fds set_fds]. rewrite list_lookup_insert_eq by done. reflexivity. }
    eapply finishes_call; [reflexivity|]. rewrite Nat2Z.id. cbn [fk_fds set_fds]. rewrite fds_reopened by done.
    replace (set_fds _ _) with s by by destruct s. apply finishes_ret.
  - eapply finishes_call; [unfold handle, file_kernel; rewrite Hf; reflexivity|]. apply finishes_ret.
Qed.

Lemma read_entry fd st c s : fd_file fd s = Some (st, c) ->
  handle (Read fd 16) s = Some ((Z.of_nat (length (take 16 c)), take 16 c), set_fds (<[Z.to_nat fd := Some (st, drop 16 c)]> (fk_fds s)) s).
Proof.
  intros Hf. unfold handle, file_kernel. rewrite Hf, reads_full.
  destruct (Z.le_gt_cases 16 (Z.of_nat (length c))) as [H16|H16].
  - replace (Z.to_nat (Z.max 0 (Z.min 16 (Z.of_nat (length c))))) with 16%nat by lia. rewrite length_take. do 4 f_equal. lia.
  - replace (Z.to_nat (Z.max 0 (Z.min 16 (Z.of_nat (length c))))) with (length c) by lia.
    by rewrite firstn_all, drop_all, (take_ge _ 16), (drop_ge _ 16) by lia.
Qed.

(** What follows the [read] of an entry. *)
Lemma ls_entry_prints path de s : is_Some (lowest_free (fk_fds s)) -> de_inum de <> 0 ->
  let buf := path ++ [c_slash] ++ cstr (de_name de) in
  finishes ('(r, st) ← stat buf;
    if r <? 0 then _ ← printf "ls: cannot stat %s\n" [UStr (Some buf)]; ITreeDefinition.Ret (inl tt)
    else match st with Some st => _ ← ls_line buf st; ITreeDefinition.Ret (inl tt) | None => wild end) s
    (Returned (inl tt : unit + unit)) (add_out (ls_entry (fk_files s) path de) s).
Proof.
  intros Hfree Hi buf. eapply finishes_bind; [by apply stat_path|]. unfold ls_entry. rewrite (proj2 (Z.eqb_neq _ _) Hi). fold buf.
  destruct (fk_files s !! buf) as [[st c]|]; cbn [Z.ltb Z.compare].
  - eapply finishes_bind; [apply printf_out, ls_line_prints|]. apply finishes_ret.
  - eapply finishes_bind; [by apply printf_out|]. apply finishes_ret.
Qed.

Lemma ls_dir_lists path fd st c s :
  fd_file fd s = Some (st, c) -> is_Some (lowest_free (fk_fds s)) ->
  exists rest, finishes (ls_dir path fd) s (Returned tt)
    (add_out (concat (ls_entry (fk_files s) path <$> dirents (S (length c)) c)) (set_fds (<[Z.to_nat fd := Some (st, rest)]> (fk_fds s)) s)).
Proof.
  assert (forall n, (length c < n)%nat -> fd_file fd s = Some (st, c) -> is_Some (lowest_free (fk_fds s)) ->
    exists rest, finishes (ls_dir path fd) s (Returned tt)
      (add_out (concat (ls_entry (fk_files s) path <$> dirents n c)) (set_fds (<[Z.to_nat fd := Some (st, rest)]> (fk_fds s)) s))) as H; [|apply H; lia].
  intros n. revert c s. induction n as [|n IH]; intros c s Hn Hf Hfree; [lia|]. cbn [dirents].
  pose proof (fd_file_valid _ _ _ Hf) as Hv. pose proof (read_entry fd st c s Hf) as Hread.
  destruct (Nat.ltb_spec (length c) 16) as [Hlt|Hge].
  - exists (drop 16 c). apply finishes_iter_end. eapply finishes_call; [exact Hread|].
    rewrite length_take, (proj2 (Z.eqb_neq _ 16)) by lia. cbn. rewrite add_out_nil. apply finishes_ret.
  - set (s1 := add_out (ls_entry (fk_files s) path (take 16 c)) (set_fds (<[Z.to_nat fd := Some (st, drop 16 c)]> (fk_fds s)) s)).
    assert (lowest_free (<[Z.to_nat fd := Some (st, drop 16 c)]> (fk_fds s)) = lowest_free (fk_fds s)) as Efree.
    { unfold fd_file in Hf. destruct (fk_fds s !! Z.to_nat fd) as [o|] eqn:Eo; [|done]. cbn in Hf. subst o. by eapply lowest_free_insert. }
    destruct (IH (drop 16 c) s1) as [rest Hrest]; [rewrite length_drop; lia|by apply fd_file_set|cbn; by rewrite Efree|].
    exists rest. eapply (finishes_iter_next _ tt tt _ s1); [eapply finishes_call; [exact Hread|]|].
    + rewrite length_take, (proj2 (Z.eqb_eq _ 16)) by lia. cbn [negb]. unfold s1, ls_entry. destruct (Z.eqb_spec (de_inum (take 16 c)) 0) as [Ei|Ei].
      * rewrite add_out_nil. apply finishes_ret.
      * pose proof (ls_entry_prints path (take 16 c) (set_fds (<[Z.to_nat fd := Some (st, drop 16 c)]> (fk_fds s)) s)) as Hp.
        unfold ls_entry in Hp. rewrite (proj2 (Z.eqb_neq _ _) Ei) in Hp. apply Hp; [cbn; by rewrite Efree|done].
    + replace (add_out _ _) with (add_out (concat (ls_entry (fk_files s1) path <$> dirents n (drop 16 c))) (set_fds (<[Z.to_nat fd := Some (st, rest)]> (fk_fds s1)) s1)); [exact Hrest|].
      unfold s1, add_out, set_fds. cbn. by rewrite list_insert_insert_eq, <- app_assoc.
Qed.

Lemma ls_prints path n s :
  lowest_free (fk_fds s) = Some n -> (forall f, is_Some (lowest_free (<[n := Some f]> (fk_fds s)))) ->
  finishes (ls path) s (Returned tt) (add_err (ls_output (fk_files s) path).2 (add_out (ls_output (fk_files s) path).1 s)).
Proof.
  intros Hn Hn2. pose proof (lowest_free_lookup _ _ Hn) as Hl%lookup_lt_Some. unfold ls, ls_output. destruct (fk_files s !! path) as [[st c]|] eqn:Hf.
  - eapply finishes_call; [unfold handle, file_kernel; rewrite Hf, Hn; reflexivity|]. rewrite (proj2 (Z.ltb_ge _ 0)) by lia.
    set (s0 := set_fds (<[n := Some (st, c)]> (fk_fds s)) s).
    assert (fd_file (Z.of_nat n) s0 = Some (st, c)) as H0 by (unfold fd_file; rewrite Nat2Z.id; cbn; by rewrite list_lookup_insert_eq).
    eapply finishes_call; [unfold handle, file_kernel; rewrite H0; reflexivity|]. cbn [Z.ltb Z.compare].
    assert (forall out g, finishes (_ ← sys (Close (Z.of_nat n)); ITreeDefinition.Ret tt) (add_out out (set_fds (<[n := g]> (fk_fds s)) s)) (Returned tt) (add_err [] (add_out out s))) as Hclose.
    { intros out g. rewrite add_err_nil. eapply finishes_call; [reflexivity|]. rewrite Nat2Z.id. cbn [fk_fds set_fds add_out]. rewrite fds_reopened by done.
      replace (set_fds _ _) with (add_out out s) by by destruct s. apply finishes_ret. }
    destruct ((st_type st =? T_DEVICE) || (st_type st =? T_FILE)); [eapply finishes_bind; [apply printf_out, ls_line_prints|apply Hclose]|].
    destruct (st_type st =? T_DIR).
    + destruct (Nat.ltb_spec 512 (length path + 1 + DIRSIZ + 1)); [eapply finishes_bind; [by apply printf_out|apply Hclose]|].
      destruct (ls_dir_lists path (Z.of_nat n) st c s0 H0) as [rest Hrest]; [apply Hn2|]. eapply finishes_bind; [exact Hrest|].
      rewrite Nat2Z.id. cbn [fk_fds fk_files set_fds s0]. rewrite list_insert_insert_eq. apply Hclose.
    + eapply finishes_bind; [apply finishes_ret|]. pose proof (Hclose [] (Some (st, c))) as Hc. rewrite !add_out_nil in *. exact Hc.
  - eapply finishes_call; [unfold handle, file_kernel; rewrite Hf; reflexivity|]. cbn [Z.ltb Z.compare fst snd]. rewrite add_out_nil.
    by apply fprintf_err.
Qed.

Lemma ls_names names s n :
  lowest_free (fk_fds s) = Some n -> (forall f, is_Some (lowest_free (<[n := Some f]> (fk_fds s)))) ->
  finishes (for_args names ls) s (Returned tt)
    (add_err (concat ((fun p => (ls_output (fk_files s) p).2) <$> names)) (add_out (concat ((fun p => (ls_output (fk_files s) p).1) <$> names)) s)).
Proof.
  intros Hn Hn2. revert s Hn Hn2. induction names as [|p names IH]; intros s Hn Hn2; cbn [for_args].
  - cbn. rewrite add_out_nil, add_err_nil. apply finishes_ret.
  - eapply finishes_bind; [by apply (ls_prints p n)|].
    set (s1 := add_err (ls_output (fk_files s) p).2 (add_out (ls_output (fk_files s) p).1 s)).
    replace (add_err _ _) with (add_err (concat ((fun p => (ls_output (fk_files s1) p).2) <$> names)) (add_out (concat ((fun p => (ls_output (fk_files s1) p).1) <$> names)) s1)); [by apply IH|].
    unfold s1, add_err, add_out. cbn. by rewrite !app_assoc.
Qed.

End ls.

(** C22: [ls] prints for each of its arguments (for the current directory if it
    has none) the line of a file or device, or of each used entry of a
    directory, with the name padded to [DIRSIZ] columns, the type, the inode
    number and the size; what cannot be opened or examined is reported.  It
    comes to an end on every directory, exits with status 0, and leaves no
    descriptor open. *)
Theorem ls_lists {R : Reads} {HF : ReadsFull R} (s : fkernel) (arg0 : list Z) (names : list (list Z)) (n : nat) :
  lowest_free (fk_fds s) = Some n -> (forall f, is_Some (lowest_free (<[n := Some f]> (fk_fds s)))) ->
  let paths := match names with [] => [lit "."] | _ => names end in
  finishes (ls_main (arg0 :: names)) s (Exited 0)
    (add_err (concat ((fun p => (ls_output (fk_files s) p).2) <$> paths)) (add_out (concat ((fun p => (ls_output (fk_files s) p).1) <$> paths)) s)).
Proof.
  intros Hn Hn2 paths. unfold ls_main. destruct names as [|p names]; cbn [length Nat.ltb Nat.leb drop].
  - eapply finishes_bind; [by apply (ls_prints (lit ".") n)|]. unfold paths. cbn [fmap list_fmap concat]. rewrite !app_nil_r. apply finishes_exit.
  - eapply finishes_bind; [by apply (ls_names (p :: names) s n)|]. apply finishes_exit.
Qed.

(** ** An example *)

Definition full_reads : Reads := fun inp n => Z.max 0 (Z.min n (Z.of_nat (length inp))).
Lemma full_reads_full : ReadsFull full_reads.
Proof. done. Qed.

(** A directory with one used entry, and the file it names. *)
Definition sample_files : gmap (list Z) (ustat * list Z) :=
  <[lit "." := (mk_ustat 1 1 T_DIR 1 32, [5; 0] ++ lit "hi" ++ replicate 12 0 ++ replicate 16 0)]>
  (<[lit "./hi" := (mk_ustat 1 5 T_FILE 1 3, lit "abc")]> (<[lit "hi" := (mk_ustat 1 5 T_FILE 1 3, lit "abc")]> ∅)).
Definition sample_fk : fkernel := mk_fk sample_files (replicate 3 (Some (mk_ustat 0 0 T_DEVICE 0 0, [])) ++ replicate 13 None) [] [].

Lemma cat_concatenates_witness :
  @finishes _ (@file_kernel full_reads) _ (cat_main [lit "cat"; lit "hi"; lit "no"; lit "hi"]) sample_fk (Exited 1)
    (add_err (lit "cat: cannot open no\n") (add_out (lit "abc") sample_fk)).
Proof.
  refine (proj1 (@cat_concatenates full_reads (@reads_full_ok full_reads full_reads_full) sample_fk (lit "cat") [lit "hi"; lit "no"; lit "hi"] _) _).
  - exists 3%nat. reflexivity.
  - discriminate.
Defined.
Lemma ls_lists_witness :
  @finishes _ (@file_kernel full_reads) _ (ls_main [lit "ls"]) sample_fk (Exited 0)
    (add_err [] (add_out (lit "hi             2 5 3\n") sample_fk)).
Proof.
  refine (@ls_lists full_reads full_reads_full sample_fk (lit "ls") [] 3 _ _).
  - reflexivity.
  - intros f. exists 4%nat. reflexivity.
Defined.
