(* ===== verification/UserProcs.v ===== *)
(** * Programs that make processes

    [init], which keeps a shell running, and [forktest], from the side of the
    parent; the programs [cps] and [top] that print process states. *)

From ITree Require Import ITree.
From S2P Require Import Prelude KString Ulib UPrintf UPrintfTheorems UserProg UserRun UserTheorems.

(** ** init *)

(** The kernel as [init] sees it: how many shells it has started, which
    parentless processes [wait] will return before the shell, what is on the
    console, and whether the console's file exists. *)
Record ikernel : Type := mk_ik { ik_shells : nat; ik_orphans : list Z; ik_out : list Z; ik_console : bool }.

Section init.
(** The process numbers of the shells, and the parentless processes that come
    to an end while each of them runs. *)
Context (shell_pid : nat -> Z) (orphans : nat -> list Z).

Definition init_kernel : Kernel ikernel := fun X e s =>
  match e in sysE X return option (X * ikernel) with
  | Open _ _ => Some (if ik_console s then 0 else -1, s)
  | Mknod _ _ _ => Some (0, mk_ik (ik_shells s) (ik_orphans s) (ik_out s) true)
  | Dup _ => Some (1, s)
  | Write _ bs => Some (Z.of_nat (length bs), mk_ik (ik_shells s) (ik_orphans s) (ik_out s ++ bs) (ik_console s))
  | Fork => Some (shell_pid (ik_shells s), mk_ik (S (ik_shells s)) (orphans (ik_shells s)) (ik_out s) (ik_console s))
  | Wait =>
      match ik_orphans s with
      | w :: l => Some (w, mk_ik (ik_shells s) l (ik_out s) (ik_console s))
      | [] => Some (shell_pid (pred (ik_shells s)), s)
      end
  | _ => None
  end.
#[local] Existing Instance init_kernel.

(** The numbers of processes are positive, and a shell's is its own. *)
Definition pids_ok : Prop := forall n, 0 < shell_pid n /\ Forall (fun w => 0 <= w /\ w <> shell_pid n) (orphans n).

Lemma init_puts bs n l out con : finishes (puts 1 bs) (mk_ik n l out con) (Returned tt) (mk_ik n l (out ++ bs) con).
Proof.
  apply (finishes_puts (fun bs s => mk_ik (ik_shells s) (ik_orphans s) (ik_out s ++ bs) (ik_console s)));
    [|intros b c s; cbn; by rewrite app_assoc|reflexivity].
  intros []. cbn. by rewrite app_nil_r.
Qed.

Lemma init_waits n l out con : Forall (fun w => 0 <= w /\ w <> shell_pid n) l ->
  finishes (init_wait (shell_pid n)) (mk_ik (S n) l out con) (Returned tt) (mk_ik (S n) [] out con).
Proof.
  induction 1 as [|w l [Hw Hne] Hl IH].
  - apply finishes_iter_end. eapply finishes_call; [reflexivity|]. cbn. rewrite Z.eqb_refl. apply finishes_ret.
  - eapply finishes_iter_next; [|exact IH]. eapply finishes_call; [reflexivity|]. cbn.
    rewrite (proj2 (Z.eqb_neq _ _) Hne), (proj2 (Z.ltb_ge _ _) Hw). apply finishes_ret.
Qed.

Lemma init_round_ends n out con : pids_ok ->
  finishes init_round (mk_ik n [] out con) (Returned tt) (mk_ik (S n) [] (out ++ lit "init: starting sh\n") con).
Proof.
  intros Hp. destruct (Hp n) as [Hpid Horph]. unfold init_round. eapply finishes_bind; [apply init_puts|].
  eapply finishes_call; [reflexivity|]. cbn [ik_shells ik_out ik_console]. rewrite (proj2 (Z.ltb_ge _ _)), (proj2 (Z.eqb_neq _ _)) by lia.
  by apply init_waits.
Qed.

Lemma init_rounds N n out con : pids_ok ->
  reaches (ITree.iter (fun _ : unit => _ ← init_round; ITreeDefinition.Ret (inl tt)) tt : prog Z) (mk_ik n [] out con)
    (fun s => ik_shells s = (n + N)%nat /\ ik_out s = out ++ concat (replicate N (lit "init: starting sh\n"))).
Proof.
  intros Hp. revert n out. induction N as [|N IH]; intros n out.
  - apply reaches_here. cbn. split; [lia|]. by rewrite app_nil_r.
  - eapply reaches_iter_next; [eapply finishes_bind; [by apply init_round_ends|apply finishes_ret]|].
    cbn [replicate concat]. rewrite app_assoc. replace (n + S N)%nat with (S n + N)%nat by lia. apply IH.
Qed.

Lemma init_console_opens con : finishes init_console (mk_ik 0 [] [] con) (Returned tt) (mk_ik 0 [] [] true).
Proof.
  unfold init_console. destruct con.
  - eapply finishes_bind; [eapply finishes_sys; reflexivity|]. eapply finishes_bind; [apply finishes_ret|].
    do 2 (eapply finishes_bind; [eapply finishes_sys; reflexivity|]). apply finishes_ret.
  - eapply finishes_bind; [eapply finishes_sys; reflexivity|].
    eapply finishes_bind; [eapply finishes_call; [reflexivity|]; eapply finishes_sys; reflexivity|].
    do 2 (eapply finishes_bind; [eapply finishes_sys; reflexivity|]). apply finishes_ret.
Qed.

End init.


(** ** forktest *)

(** The kernel as the parent sees it: free slots of the process table, its
    children, its output. *)
Record pkernel : Type := mk_pk { pk_free : nat; pk_children : nat; pk_out : list Z }.

Section forktest.
(** The number of the next child. *)
Context (child_pid : nat -> Z).

Definition proc_kernel : Kernel pkernel := fun X e s =>
  match e in sysE X return option (X * pkernel) with
  | Fork =>
      match pk_free s with
      | O => Some (-1, s)
      | S f => Some (child_pid (pk_children s), mk_pk f (S (pk_children s)) (pk_out s))
      end
  | Wait =>
      match pk_children s with
      | O => Some (-1, s)
      | S n => Some (child_pid n, mk_pk (S (pk_free s)) n (pk_out s))
      end
  | Write _ bs => Some (Z.of_nat (length bs), mk_pk (pk_free s) (pk_children s) (pk_out s ++ bs))
  | _ => None
  end.
#[local] Existing Instance proc_kernel.

Lemma print_out str f k out : finishes (print str) (mk_pk f k out) (Returned tt) (mk_pk f k (out ++ lit str)).
Proof. eapply finishes_call; [reflexivity|]. apply finishes_ret. Qed.

(** The first loop makes as many children as fit. *)
Lemma forks_all left f k out : (forall n, 0 < child_pid n) ->
  finishes (forktest_forks left k) (mk_pk f k out) (Returned (k + min left f)%nat) (mk_pk (f - left) (k + min left f) out).
Proof.
  intros Hp. revert f k. induction left as [|left IH]; intros f k; cbn [forktest_forks].
  - rewrite Nat.min_0_l, Nat.add_0_r, Nat.sub_0_r. apply finishes_ret.
  - destruct f as [|f].
    + eapply finishes_call; [reflexivity|]. rewrite Nat.min_0_r, Nat.add_0_r. apply finishes_ret.
    + eapply finishes_call; [reflexivity|]. pose proof (Hp k). cbn [pk_children]. rewrite (proj2 (Z.ltb_ge _ _)), (proj2 (Z.eqb_neq _ _)) by lia.
      replace (k + min (S left) (S f))%nat with (S k + min left f)%nat by lia. apply IH.
Qed.
Lemma waits_all n f out : (forall n, 0 < child_pid n) ->
  finishes (forktest_waits n) (mk_pk f n out) (Returned tt) (mk_pk (n + f) 0 out).
Proof.
  intros Hp. revert f. induction n as [|n IH]; intros f; cbn [forktest_waits]; [apply finishes_ret|].
  eapply finishes_call; [reflexivity|]. pose proof (Hp n). rewrite (proj2 (Z.ltb_ge _ _)) by lia.
  replace (S n + f)%nat with (n + S f)%nat by lia. apply IH.
Qed.

Lemma ok_text : lit "fork test\nfork test OK\n" = lit "fork test\n" ++ lit "fork test OK\n".
Proof. vm_compute. reflexivity. Qed.
Lemma claimed_text : lit "fork test\nfork claimed to work N times!\n" = lit "fork test\n" ++ lit "fork claimed to work N times!\n".
Proof. vm_compute. reflexivity. Qed.

(** [forktest] on a kernel whose process table has room for fewer than
    [N] more processes forks until the table is full, waits for every child,
    finds no further one, reports success and leaves the table as it was; on a
    kernel with more room it reports failure, its children not waited for. *)
Theorem forktest_reports (f : nat) (out : list Z) :
  (forall n, 0 < child_pid n) ->
  if (f <? FORKTEST_N)%nat
  then finishes forktest_main (mk_pk f 0 out) (Exited 0) (mk_pk f 0 (out ++ lit "fork test\nfork test OK\n"))
  else finishes forktest_main (mk_pk f 0 out) (Exited 1)
         (mk_pk (f - FORKTEST_N) FORKTEST_N (out ++ lit "fork test\nfork claimed to work N times!\n")).
Proof.
  intros Hp. assert (forall a b, finishes forktest (mk_pk f 0 out) a b -> forall o, lifted a = Some o -> finishes forktest_main (mk_pk f 0 out) o b) as Hstop
    by (intros a b Hab o Ho; by eapply finishes_bind_stop).
  pose proof (forks_all FORKTEST_N f 0 (out ++ lit "fork test\n") Hp) as Hforks. rewrite Nat.add_0_l in Hforks.
  destruct (Nat.ltb_spec f FORKTEST_N) as [Hlt|Hge].
  - rewrite Nat.min_r in Hforks by lia. replace (f - FORKTEST_N)%nat with 0%nat in Hforks by lia.
    eapply finishes_bind; [|apply finishes_exit]. eapply finishes_bind; [apply print_out|]. eapply finishes_bind; [exact Hforks|].
    rewrite (proj2 (Nat.eqb_neq f FORKTEST_N)) by lia. eapply finishes_bind; [by apply waits_all|]. rewrite Nat.add_0_r.
    eapply finishes_call; [reflexivity|]. cbn [Z.eqb negb Pos.eqb]. rewrite ok_text, app_assoc. apply print_out.
  - rewrite Nat.min_l in Hforks by lia. apply (Hstop (Exited 1)); [|done].
    eapply finishes_bind; [apply print_out|]. eapply finishes_bind; [exact Hforks|]. rewrite Nat.eqb_refl.
    rewrite claimed_text, app_assoc. eapply finishes_bind; [apply print_out|]. apply finishes_exit.
Qed.
End forktest.

Lemma forktest_reports_witness :
  @finishes _ (proc_kernel (fun n => 4 + Z.of_nat n)) _ forktest_main (mk_pk 61 0 [33]) (Exited 0) (mk_pk 61 0 ([33] ++ lit "fork test\nfork test OK\n")).
Proof.
  assert (forall n, 0 < 4 + Z.of_nat n) as Hp by lia.
  pose proof (forktest_reports (fun n => 4 + Z.of_nat n) 61 [33] Hp) as Hr. change (61 <? FORKTEST_N)%nat with true in Hr. exact Hr.
Defined.

(** ** The names of the process states *)

(** The kernel as [cps] and [top] see it: what their call reports. *)
Record skernel : Type := mk_sk { sk_count : Z; sk_infos : list uinfo; sk_out : list Z }.
#[export] Instance state_kernel : Kernel skernel := fun X e s =>
  match e in sysE X return option (X * skernel) with
  | Fork => Some (7, s)
  | SleepE _ => Some (0, s)
  | Child_processes => Some ((0, sk_count s, sk_infos s), s)
  | Write _ bs => Some (Z.of_nat (length bs), mk_sk (sk_count s) (sk_infos s) (sk_out s ++ bs))
  | _ => None
  end.

Lemma state_puts bs n l out : finishes (puts 1 bs) (mk_sk n l out) (Returned tt) (mk_sk n l (out ++ bs)).
Proof.
  apply (finishes_puts (fun bs s => mk_sk (sk_count s) (sk_infos s) (sk_out s ++ bs))); [|intros b c s; cbn; by rewrite app_assoc|reflexivity].
  intros []. cbn. by rewrite app_nil_r.
Qed.
Lemma print_number x : uprintint (i32 x) 10 true = Some (decimal (i32 x)).
Proof. apply uprintint_is_decimal, i32_range. Qed.

Definition known_state (info : uinfo) : bool := ui_state info <? 6.

Lemma cps_line_format info name : exists text,
  vprintf (lit (if (ui_state info =? 2) || (ui_state info =? 3) then "%d\t%d\t%s\t%s\n" else "%d\t%d\t%s\t\t%s\n"))
    [UNum (ui_pid info); UNum (ui_ppid info); UStr (Some name); UStr (Some (ui_name info))] = Some text.
Proof.
  destruct (_ || _); unfold vprintf.
  - change (lit "%d\t%d\t%s\t%s\n") with [37; 100; 9; 37; 100; 9; 37; 115; 9; 37; 115; 10].
    cbn -[uprintint i32 cstr app]. rewrite print_number. cbn -[uprintint i32 cstr app]. rewrite print_number. cbn -[i32 cstr app decimal]. eauto.
  - change (lit "%d\t%d\t%s\t\t%s\n") with [37; 100; 9; 37; 100; 9; 37; 115; 9; 9; 37; 115; 10].
    cbn -[uprintint i32 cstr app]. rewrite print_number. cbn -[uprintint i32 cstr app]. rewrite print_number. cbn -[i32 cstr app decimal]. eauto.
Qed.
Lemma cps_line_runs info n l out : 0 <= ui_state info ->
  exists out', finishes (cps_line info) (mk_sk n l out) (if known_state info then Returned tt else Crashed) (mk_sk n l out').
Proof.
  intros H0. unfold cps_line, state_name, known_state. rewrite (proj2 (Z.ltb_ge _ _) H0).
  destruct (cps_states !! Z.to_nat (ui_state info)) as [name|] eqn:E; cbn [fmap option_fmap option_map].
  - apply lookup_lt_Some in E. change (length cps_states) with 6%nat in E. rewrite (proj2 (Z.ltb_lt _ _)) by lia.
    destruct (cps_line_format info (string_bytes name)) as [text Ht]. eexists. unfold printf, fprintf. rewrite Ht. apply state_puts.
  - apply lookup_ge_None in E. change (length cps_states) with 6%nat in E. rewrite (proj2 (Z.ltb_ge _ _)) by lia. eexists. apply finishes_wild.
Qed.

Lemma cps_lines_run infos pre n l out : l = pre ++ infos -> Forall (fun i => 0 <= ui_state i) infos ->
  exists out', finishes (for_array (seq (length pre) (length infos)) l cps_line) (mk_sk n l out)
    (if forallb known_state infos then Returned tt else Crashed) (mk_sk n l out').
Proof.
  intros Hl Hs. revert pre out Hl. induction Hs as [|i infos Hi Hs IH]; intros pre out Hl; cbn [length seq for_array forallb]; [eexists; apply finishes_ret|].
  assert (l !! length pre = Some i) as -> by (rewrite Hl; by apply list_lookup_middle).
  destruct (cps_line_runs i n l out Hi) as [out1 H1]. destruct (known_state i); cbn [andb].
  - destruct (IH (pre ++ [i]) out1) as [out2 H2]; [by rewrite <- app_assoc|]. rewrite length_app, Nat.add_1_r in H2.
    exists out2. by eapply finishes_bind.
  - exists out1. by apply (finishes_bind_stop _ _ _ Crashed).
Qed.

(** C39: [cps] prints its table only if every child is in one of the six states
    it has names for; a child in one of the three states that the scheduler
    adds makes it read past the end of its array. *)
Theorem cps_knows_six_states (infos : list uinfo) (out : list Z) :
  Forall (fun i => 0 <= ui_state i) infos -> Z.of_nat (length infos) < 2 ^ 31 ->
  exists out', finishes (start cps_main) (mk_sk (Z.of_nat (length infos)) infos out)
    (if forallb known_state infos then Exited 0 else Crashed) (mk_sk (Z.of_nat (length infos)) infos out').
Proof.
  intros Hs Hlen. destruct (cps_lines_run infos [] (Z.of_nat (length infos)) infos
    (out ++ (lit "Number of children: " ++ decimal (Z.of_nat (length infos)) ++ lit "\n") ++ lit "PID\tPPID\tSTATE\t\tNAME\n")) as [out' Hrun]; [done|done|].
  exists out'. set (n := Z.of_nat (length infos)) in *.
  assert (vprintf (lit "Number of children: %d\n") [UNum n] = Some (lit "Number of children: " ++ decimal n ++ lit "\n")) as Hcount.
  { unfold vprintf. replace (decimal n) with (decimal (i32 n)) by (f_equal; apply i32_int; lia).
    let l := eval vm_compute in (lit "Number of children: %d\n") in change (lit "Number of children: %d\n") with l.
    let l := eval vm_compute in (lit "Number of children: ") in change (lit "Number of children: ") with l.
    cbn -[uprintint i32 app decimal]. rewrite print_number. reflexivity. }
  assert (finishes cps_main (mk_sk n infos out) (if forallb known_state infos then Returned 0 else Crashed) (mk_sk n infos out')) as Hmain.
  { eapply finishes_call; [reflexivity|]. eapply finishes_call; [reflexivity|]. eapply finishes_call; [reflexivity|].
    cbn [Z.eqb negb sk_count sk_infos].
    eapply finishes_bind; [unfold printf, fprintf; rewrite Hcount; apply state_puts|]. eapply finishes_bind; [apply state_puts|].
    rewrite <- app_assoc. unfold n at 1. rewrite Nat2Z.id.
    destruct (forallb known_state infos); [eapply finishes_bind; [exact Hrun|apply finishes_ret]|by apply (finishes_bind_stop _ _ _ Crashed)]. }
  unfold start. destruct (forallb known_state infos); [eapply finishes_bind; [exact Hmain|apply finishes_exit]|by apply (finishes_bind_stop _ _ _ Crashed)].
Qed.

Lemma cps_knows_six_states_witness : exists out', finishes (start cps_main)
  (mk_sk 2 [mk_uinfo (lit "sh") 2 1 2 0; mk_uinfo (lit "cps") 3 2 7 0] []) Crashed
  (mk_sk 2 [mk_uinfo (lit "sh") 2 1 2 0; mk_uinfo (lit "cps") 3 2 7 0] out').
Proof.
  apply (cps_knows_six_states [mk_uinfo (lit "sh") 2 1 2 0; mk_uinfo (lit "cps") 3 2 7 0] []).
  - repeat constructor; cbn; lia.
  - cbn. lia.
Defined.
