(* ===== verification/UserGrep.v ===== *)
(** * grep as a program

    The filter of Grep terminates on every input, and [main] of user/grep.c,
    run on a kernel with files, prints what the filter says. *)

From ITree Require Import ITree.
From S2P Require Import Prelude KString Ulib UPrintf Grep UserProg UserRun UserTheorems.

Ltac Zify.zify_post_hook ::= idtac.

(** ** The filter returns *)

Lemma strchr_before s c d m : strchr s c = Some d -> s !! m = Some 0 -> (d < m)%nat.
Proof.
  revert d m. induction s as [|x s IH]; intros d m; [done|]. cbn [strchr]. destruct (Z.eqb_spec x 0); [done|].
  destruct (x =? c).
  - intros [= <-] Hm. destruct m; [cbn in Hm; congruence|lia].
  - destruct (strchr s c) as [d'|] eqn:E; [|done]. intros [= <-] Hm. destruct m as [|m]; [cbn in Hm; congruence|].
    specialize (IH d' m eq_refl Hm). lia.
Qed.

Lemma grep_lines_returns fuel pattern buf p m out :
  buf !! m = Some 0 -> (p <= m)%nat -> (m - p < fuel)%nat ->
  exists buf' p' out', grep_lines fuel pattern buf p out = Some (buf', p', out') /\ length buf' = length buf /\ (p' <= m)%nat.
Proof.
  revert buf p out. induction fuel as [|fuel IH]; intros buf p out Hm Hp Hf; [lia|]. cbn [grep_lines].
  destruct (strchr (drop p buf) c_nl) as [d|] eqn:E; [|by exists buf, p, out].
  assert (d < m - p)%nat as Hd by (apply (strchr_before (drop p buf) c_nl); [done|]; rewrite lookup_drop; by replace (p + (m - p))%nat with m by lia).
  destruct (rmatch pattern (cstr (drop p (<[(p + d)%nat := 0]> buf)))).
  - edestruct (IH (<[(p + d)%nat := c_nl]> (<[(p + d)%nat := 0]> buf)) (p + d + 1)%nat) as (b & q & o & -> & Hl & Hq);
      [by rewrite !list_lookup_insert_ne by lia|lia|lia|]. exists b, q, o. by rewrite Hl, !length_insert.
  - edestruct (IH (<[(p + d)%nat := 0]> buf) (p + d + 1)%nat) as (b & q & o & -> & Hl & Hq);
      [by rewrite !list_lookup_insert_ne by lia|lia|lia|]. exists b, q, o. by rewrite Hl, !length_insert.
Qed.

Section grep.
Context {R : Reads} {HR : ReadsOk R}.
Implicit Types s : fkernel.

Lemma grep_buffer_runs fuel pattern buf p out b q out' s : grep_lines fuel pattern buf p out = Some (b, q, out') ->
  exists o, out' = out ++ o /\ finishes (grep_buffer fuel pattern buf p) s (Returned (b, q)) (add_out o s).
Proof.
  revert buf p out s. induction fuel as [|fuel IH]; intros buf p out s; [done|]. cbn [grep_lines grep_buffer].
  destruct (strchr (drop p buf) c_nl) as [d|].
  - destruct (rmatch pattern (cstr (drop p (<[(p + d)%nat := 0]> buf)))); [|apply IH].
    set (w := take _ _). intros H. destruct (IH _ _ _ (add_out w s) H) as (o & -> & Ho). exists (w ++ o). rewrite app_assoc. split; [done|].
    rewrite <- add_out_app. by eapply finishes_call; [reflexivity|].
  - intros [= <- <- <-]. exists []. rewrite app_nil_r, add_out_nil. split; [done|]. apply finishes_ret.
Qed.

(** The loop over the reads returns, and the program does what it says. *)
Lemma grep_rounds_run fuel pattern inp buf m out fd st s :
  (length inp < fuel)%nat -> (m < GREP_BUF)%nat -> length buf = GREP_BUF -> fd_file fd s = Some (st, inp) ->
  exists o rest, grep_loop fuel pattern inp buf m out = Some (out ++ o) /\
    finishes (ITree.iter (grep_round pattern fd) (buf, m)) s (Returned tt) (add_out o (set_fds (<[Z.to_nat fd := Some (st, rest)]> (fk_fds s)) s)).
Proof.
  revert inp buf m out s. induction fuel as [|fuel IH]; intros inp buf m out s Hf Hm Hb Hfd; [lia|]. cbn [grep_loop].
  set (req := Z.of_nat GREP_BUF - Z.of_nat m - 1). set (k := Z.to_nat (delivered inp req)). pose proof (fd_file_valid _ _ _ Hfd) as Hv.
  assert (handle (Read fd req) s = Some ((Z.of_nat k, take k inp), set_fds (<[Z.to_nat fd := Some (st, drop k inp)]> (fk_fds s)) s)) as Hread
    by (unfold handle, file_kernel; by rewrite Hfd).
  destruct (decide (inp = [] \/ req = 0)) as [Hend|Hmore].
  - pose proof (reads_end inp req Hend) as E. assert (k = 0%nat) as Ek by (unfold k; by rewrite E). rewrite E. cbn [Z.ltb Z.compare].
    exists [], inp. rewrite app_nil_r, add_out_nil. split; [done|]. rewrite Ek in Hread.
    apply finishes_iter_end. unfold grep_round. eapply finishes_call; [exact Hread|]. apply finishes_ret.
  - destruct (reads_some inp req) as [Hn1 Hn2]; [tauto|unfold req in *; lia|]. assert ((0 <? delivered inp req) = true) as -> by lia. fold k.
    assert (length (take k inp) = k) as Hc by (rewrite length_take; lia). rewrite Hc. assert ((m + k < GREP_BUF)%nat /\ (0 < k)%nat) as [Hfit Hpos] by (unfold req in *; lia).
    set (filled := <[(m + k)%nat := 0]> (take m buf ++ take k inp ++ drop (m + k) buf)).
    assert (length (take m buf ++ take k inp ++ drop (m + k) buf) = GREP_BUF) as Hl by (rewrite !length_app, length_take, length_drop, Hc; lia).
    destruct (grep_lines_returns (S GREP_BUF) pattern filled 0 (m + k) out) as (b & p & out1 & El & Hlb & Hp);
      [apply list_lookup_insert_eq; lia|lia|lia|]. rewrite El. cbn [mbind option_bind]. assert ((0 <? m + k)%nat = true) as E0 by (apply Nat.ltb_lt; lia). rewrite E0.
    set (s1 := set_fds (<[Z.to_nat fd := Some (st, drop k inp)]> (fk_fds s)) s).
    destruct (grep_buffer_runs _ _ _ _ _ _ _ _ s1 El) as (o1 & -> & Hrun).
    destruct (IH (drop k inp) (take (m + k - p) (drop p b) ++ drop (m + k - p) b) (m + k - p)%nat (out ++ o1) (add_out o1 s1)) as (o2 & rest & -> & Hiter).
    + rewrite length_drop. lia.
    + lia.
    + unfold filled in Hlb. rewrite length_insert in Hlb. rewrite length_app, length_take, !length_drop. lia.
    + by apply fd_file_set.
    + exists (o1 ++ o2), rest. rewrite app_assoc. split; [done|]. eapply finishes_iter_next.
      * unfold grep_round. eapply finishes_call; [exact Hread|]. cbn beta iota. rewrite (proj2 (Z.ltb_lt 0 (Z.of_nat k))), Nat2Z.id, Hc by lia.
        eapply finishes_bind; [exact Hrun|]. cbn beta iota. rewrite E0. apply finishes_ret.
      * replace (add_out (o1 ++ o2) _) with (add_out o2 (set_fds (<[Z.to_nat fd := Some (st, rest)]> (fk_fds (add_out o1 s1))) (add_out o1 s1)))
          by (unfold s1, add_out, set_fds; cbn; by rewrite list_insert_insert_eq, <- app_assoc). exact Hiter.
Qed.

Lemma grep_fd_runs pattern fd st inp s : fd_file fd s = Some (st, inp) -> exists out rest, grep pattern inp = Some out /\
  finishes (grep_fd pattern fd) s (Returned tt) (add_out out (set_fds (<[Z.to_nat fd := Some (st, rest)]> (fk_fds s)) s)).
Proof.
  intros Hfd. unfold grep, grep_fd. pose proof (length_replicate GREP_BUF (0 : Z)) as Hb. set (buf := replicate GREP_BUF 0) in *. clearbody buf.
  apply (grep_rounds_run (S (length inp)) pattern inp buf 0 []); [lia|unfold GREP_BUF; lia|done|done].
Qed.

(** The files, filtered. *)
Definition filtered (pattern : list Z) (f : ustat * list Z) : ustat * list Z := (f.1, default [] (grep pattern f.2)).
Definition grep_complaint (missing : option (list Z)) : list Z :=
  match missing with None => [] | Some n => lit "grep: cannot open " ++ cstr n ++ lit "\n" end.
Lemma grep_file_error name : vprintf (lit "grep: cannot open %s\n") [UStr (Some name)] = Some (grep_complaint (Some name)).
Proof. reflexivity. Qed.

Lemma grep_files pattern names s :
  is_Some (lowest_free (fk_fds s)) ->
  let '(out, missing) := cat_all (filtered pattern <$> fk_files s) names in
  finishes (for_args names (fun arg =>
      fd ← sys (Open arg O_RDONLY);
      if fd <? 0 then _ ← printf "grep: cannot open %s\n" [UStr (Some arg)]; exit 1
      else _ ← grep_fd pattern fd; _ ← sys (Close fd); ITreeDefinition.Ret tt)) s
    (match missing with None => Returned tt | Some _ => Exited 1 end) (add_out (out ++ grep_complaint missing) s).
Proof.
  revert s. induction names as [|name names IH]; intros s Hfree; cbn [cat_all for_args].
  { rewrite add_out_nil. apply finishes_ret. }
  rewrite lookup_fmap. destruct (fk_files s !! name) as [[st c]|] eqn:Hf; cbn [fmap option_fmap option_map filtered fst snd].
  - destruct Hfree as [n Hn]. set (w := default [] (grep pattern c)). specialize (IH (add_out w s)). cbn [fk_files fk_fds add_out] in IH.
    destruct (cat_all (filtered pattern <$> fk_files s) names) as [out missing]. rewrite <- app_assoc, <- add_out_app.
    eapply finishes_bind; [|apply IH; eauto]. apply (with_file (grep_fd pattern) _ name (st, c) n s (add_out w s)); [done..|].
    intros s0 H0 ->. destruct (grep_fd_runs pattern _ st c _ H0) as (out' & rest & E & Hc). rewrite Nat2Z.id in Hc.
    cbn [fk_fds set_fds] in Hc. rewrite list_insert_insert_eq in Hc. unfold w. rewrite E. eexists. exact Hc.
  - apply finishes_bind_exit. eapply finishes_call; [unfold handle, file_kernel; rewrite Hf; reflexivity|]. cbn [Z.ltb Z.compare].
    eapply finishes_bind; [apply printf_out, grep_file_error|]. apply finishes_exit.
Qed.
End grep.


(** Two files, the second missing. *)
Definition grep_demo : fkernel :=
  mk_fk {[lit "a" := (mk_ustat 1 2 2 1 8, lit "ab\ncd\nb\n")]} [None] [] [].
