(* ===== verification/Proc.v ===== *)
(** * Processes: state and operations (kernel/proc.c, kernel/proc.h)

    The kernel state holds the process table, the two scheduling queues, the
    physical memory and the globals of proc.c.  A process pointer is an index
    into [proc[]] ([None] is NULL); the trapframe, page-table and usage
    pointers are addresses of pages (0 is NULL).  [cur] is [mycpu()->proc] of
    the hart that runs; the number of locks it holds is its [noff] (see
    [lock_interface_refined]), and [intr] is the interrupt state it returns to
    when it holds none ([intena]).

    The file system is the parameter [F] with the operations of the class
    [FileOps]; File.v provides the instance. *)

From S2P Require Import Prelude Spinlock Riscv Kalloc Vm Queue PriorityQueue KString.

(** ** Data *)

Inductive procstate : Type :=
| UNUSED | USED | SLEEPING | RUNNABLE | RUNNING | ZOMBIE | PASSED_QUOTA | CHOSEN_TO_RUN | DROPPED.
#[export] Instance procstate_eq_dec : EqDecision procstate.
Proof. solve_decision. Defined.

Inductive threadstate : Type :=
| THREAD_FREE | THREAD_RUNNABLE | THREAD_RUNNING | THREAD_JOINED.
#[export] Instance threadstate_eq_dec : EqDecision threadstate.
Proof. solve_decision. Defined.

Record thread : Type := mk_thread {
  t_state : threadstate;
  t_trapframe : Z;
  t_id : Z;
  t_join : Z
}.
#[export] Instance thread_inhabited : Inhabited thread := populate (mk_thread THREAD_FREE 0 0 0).

(** Sleep channels: the addresses the kernel sleeps on. *)
Inductive chan_t : Type :=
| ChNull
| ChProc (i : nat)       (* &proc[i] *)
| ChTicks                (* &ticks *)
| ChNread (pi : Z)       (* &pi->nread *)
| ChNwrite (pi : Z)      (* &pi->nwrite *)
| ChSleep (i : Z)        (* a sleep-lock *)
| ChLog                  (* &log *)
| ChBuf (i : nat)        (* a disk buffer *)
| ChDisk                 (* &disk.free[0] *)
| ChConsR                (* &cons.r *)
| ChUartTx.              (* &uart_tx_r *)
#[export] Instance chan_eq_dec : EqDecision chan_t.
Proof. solve_decision. Defined.

(** A process pointer used as a channel. *)
Definition chan_of (p : procptr) : chan_t := match p with Some i => ChProc i | None => ChNull end.

(** Saved registers of a kernel thread: the return address (the entry point
    [forkret], or code reached by an earlier [swtch]), the stack pointer and
    the twelve callee-saved registers. *)
Inductive codeptr : Type := PcForkret | PcCode (a : Z).
Record context : Type := mk_context { ctx_ra : codeptr; ctx_sp : Z; ctx_s : list Z }.

Record proc : Type := mk_proc {
  state : procstate;
  chan : chan_t;
  killed_flag : Z;
  xstate : Z;
  pid : Z;
  parent : procptr;
  kstack : Z;
  sz : Z;
  pagetable : Z;
  trapframe_ptr : Z;
  ctx : context;
  ofile : list (option nat);
  cwd : option nat;
  name : list Z;
  threads : list thread;
  current_thread : option nat;
  usage_time : Z
}.

Definition zero_context : context := mk_context (PcCode 0) 0 (replicate 12 0).
Definition zero_proc : proc :=
  mk_proc UNUSED ChNull 0 0 0 None 0 0 0 0 zero_context (replicate NOFILE None) None
    (replicate 16 0) (replicate MAX_THREAD (mk_thread THREAD_FREE 0 0 0)) None 0.
#[export] Instance proc_inhabited : Inhabited proc := populate zero_proc.

(** kernel/report_traps.h *)
Definition MAX_REPORT_BUFFER_SIZE : nat := 10.
Definition MAX_PARENT_BUFFER_SIZE : nat := 4.
Record report : Type := mk_report {
  r_pname : list Z; r_pid : Z; r_scause : Z; r_sepc : Z; r_stval : Z;
  r_parents : list Z; r_parents_count : Z
}.
Record report_list : Type := mk_rlist {
  reports : list report; numberOfReports : Z; writeIndex : Z
}.

(** Field updates of [struct proc]. *)
Definition set_state v p := mk_proc v (chan p) (killed_flag p) (xstate p) (pid p) (parent p) (kstack p)
  (sz p) (pagetable p) (trapframe_ptr p) (ctx p) (ofile p) (cwd p) (name p) (threads p) (current_thread p) (usage_time p).
Definition set_chan v p := mk_proc (state p) v (killed_flag p) (xstate p) (pid p) (parent p) (kstack p)
  (sz p) (pagetable p) (trapframe_ptr p) (ctx p) (ofile p) (cwd p) (name p) (threads p) (current_thread p) (usage_time p).
Definition set_killed v p := mk_proc (state p) (chan p) v (xstate p) (pid p) (parent p) (kstack p)
  (sz p) (pagetable p) (trapframe_ptr p) (ctx p) (ofile p) (cwd p) (name p) (threads p) (current_thread p) (usage_time p).
Definition set_xstate v p := mk_proc (state p) (chan p) (killed_flag p) v (pid p) (parent p) (kstack p)
  (sz p) (pagetable p) (trapframe_ptr p) (ctx p) (ofile p) (cwd p) (name p) (threads p) (current_thread p) (usage_time p).
Definition set_pid v p := mk_proc (state p) (chan p) (killed_flag p) (xstate p) v (parent p) (kstack p)
  (sz p) (pagetable p) (trapframe_ptr p) (ctx p) (ofile p) (cwd p) (name p) (threads p) (current_thread p) (usage_time p).
Definition set_parent v p := mk_proc (state p) (chan p) (killed_flag p) (xstate p) (pid p) v (kstack p)
  (sz p) (pagetable p) (trapframe_ptr p) (ctx p) (ofile p) (cwd p) (name p) (threads p) (current_thread p) (usage_time p).
Definition set_kstack v p := mk_proc (state p) (chan p) (killed_flag p) (xstate p) (pid p) (parent p) v
  (sz p) (pagetable p) (trapframe_ptr p) (ctx p) (ofile p) (cwd p) (name p) (threads p) (current_thread p) (usage_time p).
Definition set_sz v p := mk_proc (state p) (chan p) (killed_flag p) (xstate p) (pid p) (parent p) (kstack p)
  v (pagetable p) (trapframe_ptr p) (ctx p) (ofile p) (cwd p) (name p) (threads p) (current_thread p) (usage_time p).
Definition set_pagetable v p := mk_proc (state p) (chan p) (killed_flag p) (xstate p) (pid p) (parent p) (kstack p)
  (sz p) v (trapframe_ptr p) (ctx p) (ofile p) (cwd p) (name p) (threads p) (current_thread p) (usage_time p).
Definition set_trapframe v p := mk_proc (state p) (chan p) (killed_flag p) (xstate p) (pid p) (parent p) (kstack p)
  (sz p) (pagetable p) v (ctx p) (ofile p) (cwd p) (name p) (threads p) (current_thread p) (usage_time p).
Definition set_ctx v p := mk_proc (state p) (chan p) (killed_flag p) (xstate p) (pid p) (parent p) (kstack p)
  (sz p) (pagetable p) (trapframe_ptr p) v (ofile p) (cwd p) (name p) (threads p) (current_thread p) (usage_time p).
Definition set_ofile v p := mk_proc (state p) (chan p) (killed_flag p) (xstate p) (pid p) (parent p) (kstack p)
  (sz p) (pagetable p) (trapframe_ptr p) (ctx p) v (cwd p) (name p) (threads p) (current_thread p) (usage_time p).
Definition set_cwd v p := mk_proc (state p) (chan p) (killed_flag p) (xstate p) (pid p) (parent p) (kstack p)
  (sz p) (pagetable p) (trapframe_ptr p) (ctx p) (ofile p) v (name p) (threads p) (current_thread p) (usage_time p).
Definition set_name v p := mk_proc (state p) (chan p) (killed_flag p) (xstate p) (pid p) (parent p) (kstack p)
  (sz p) (pagetable p) (trapframe_ptr p) (ctx p) (ofile p) (cwd p) v (threads p) (current_thread p) (usage_time p).
Definition set_threads v p := mk_proc (state p) (chan p) (killed_flag p) (xstate p) (pid p) (parent p) (kstack p)
  (sz p) (pagetable p) (trapframe_ptr p) (ctx p) (ofile p) (cwd p) (name p) v (current_thread p) (usage_time p).
Definition set_current_thread v p := mk_proc (state p) (chan p) (killed_flag p) (xstate p) (pid p) (parent p) (kstack p)
  (sz p) (pagetable p) (trapframe_ptr p) (ctx p) (ofile p) (cwd p) (name p) (threads p) v (usage_time p).
Definition set_usage_time v p := mk_proc (state p) (chan p) (killed_flag p) (xstate p) (pid p) (parent p) (kstack p)
  (sz p) (pagetable p) (trapframe_ptr p) (ctx p) (ofile p) (cwd p) (name p) (threads p) (current_thread p) v.

(** Arguments of [printf]: integers, string constants, character arrays. *)
Inductive parg : Type := PInt (x : Z) | PStr (x : string) | PChars (x : list Z).

(** ** The kernel state *)

Record kst (F : Type) : Type := mk_kst {
  procs : list proc;
  cur : procptr;
  pm : pmem;
  pq : PQ.t nat;
  q : Queue.t;
  nextpid : Z;
  initproc : procptr;
  ticks : Z;
  intr : bool;
  rlist : report_list;
  klog : list (string * list parg);
  files : F
}.
Arguments mk_kst {F} _ _ _ _ _ _ _ _ _ _ _ _.
Arguments procs {F} _.
Arguments cur {F} _.
Arguments pm {F} _.
Arguments pq {F} _.
Arguments q {F} _.
Arguments nextpid {F} _.
Arguments initproc {F} _.
Arguments ticks {F} _.
Arguments intr {F} _.
Arguments rlist {F} _.
Arguments klog {F} _.
Arguments files {F} _.

Section kst_updates.
Context {F : Type}.
Implicit Types s : kst F.
Definition set_procs v s := mk_kst v (cur s) (pm s) (pq s) (q s) (nextpid s) (initproc s) (ticks s) (intr s) (rlist s) (klog s) (files s).
Definition set_cur v s := mk_kst (procs s) v (pm s) (pq s) (q s) (nextpid s) (initproc s) (ticks s) (intr s) (rlist s) (klog s) (files s).
Definition set_pm v s := mk_kst (procs s) (cur s) v (pq s) (q s) (nextpid s) (initproc s) (ticks s) (intr s) (rlist s) (klog s) (files s).
Definition set_pq v s := mk_kst (procs s) (cur s) (pm s) v (q s) (nextpid s) (initproc s) (ticks s) (intr s) (rlist s) (klog s) (files s).
Definition set_q v s := mk_kst (procs s) (cur s) (pm s) (pq s) v (nextpid s) (initproc s) (ticks s) (intr s) (rlist s) (klog s) (files s).
Definition set_nextpid v s := mk_kst (procs s) (cur s) (pm s) (pq s) (q s) v (initproc s) (ticks s) (intr s) (rlist s) (klog s) (files s).
Definition set_initproc v s := mk_kst (procs s) (cur s) (pm s) (pq s) (q s) (nextpid s) v (ticks s) (intr s) (rlist s) (klog s) (files s).
Definition set_ticks v s := mk_kst (procs s) (cur s) (pm s) (pq s) (q s) (nextpid s) (initproc s) v (intr s) (rlist s) (klog s) (files s).
Definition set_intr v s := mk_kst (procs s) (cur s) (pm s) (pq s) (q s) (nextpid s) (initproc s) (ticks s) v (rlist s) (klog s) (files s).
Definition set_rlist v s := mk_kst (procs s) (cur s) (pm s) (pq s) (q s) (nextpid s) (initproc s) (ticks s) (intr s) v (klog s) (files s).
Definition set_klog v s := mk_kst (procs s) (cur s) (pm s) (pq s) (q s) (nextpid s) (initproc s) (ticks s) (intr s) (rlist s) v (files s).
Definition set_files (v : F) s := mk_kst (procs s) (cur s) (pm s) (pq s) (q s) (nextpid s) (initproc s) (ticks s) (intr s) (rlist s) (klog s) v.
End kst_updates.

(** ** Small accessors *)

(** Memory operations on the physical memory of the kernel state. *)
Definition mem_op {F A} (m : M pmem A) : M (kst F) A := zoom pm set_pm m.

Section accessors.
Context {F : Type}.

(** [NPROC] and the indices the loops [for(p = proc; p < &proc[NPROC]; p++)] visit. *)
Definition all_procs : list nat := seq 0 (Z.to_nat NPROC).

Definition get_proc (i : nat) : M (kst F) proc := deref (fun s => procs s !! i).
Definition upd_proc (i : nat) (f : proc -> proc) : M (kst F) unit :=
  modify (fun s => set_procs (alter f i (procs s)) s).

(** [myproc()]; a dereference of its result faults when it is NULL. *)
Definition myproc : M (kst F) procptr := gets cur.
Definition my : M (kst F) nat := deref cur.

Definition holding (l : lockid) : M (kst F) bool :=
  fun s => Ret (bool_decide (l ∈ held s)) s.
Definition noff : M (kst F) Z := fun s => Ret (Z.of_nat (length (held s))) s.
(** Interrupts are off while a lock is held. *)
Definition intr_get : M (kst F) bool :=
  fun s => Ret (match held s with [] => intr (data s) | _ => false end) s.

Definition printf (fmt : string) (args : list parg) : M (kst F) unit :=
  modify (fun s => set_klog (klog s ++ [(fmt, args)]) s).

(** [swtch] to the other side: control comes back in some later state. *)
Definition swtch : M (kst F) unit := fun s => Swtch s (fun s' => Ret tt s').
End accessors.

(** *** Usage records and trapframes in their pages *)

Definition load_usage (a : Z) : M pmem cpu_usage :=
  deref (fun s => match mem s !! a with Some (PgUsage u) => Some u | _ => None end).
Definition store_usage (a : Z) (u : cpu_usage) : M pmem unit :=
  _ <- deref (fun s => mem s !! a) ;; modify (set_page a (PgUsage u)).

(** A fresh page read as a trapframe: its bytes, eight to a word. *)
Definition word_of_bytes (b : list Z) : Z := foldr (fun x acc => x + 256 * acc) 0 b.
Fixpoint words_of_bytes (n : nat) (b : list Z) : list Z :=
  match n with O => [] | S n' => word_of_bytes (take 8 b) :: words_of_bytes n' (drop 8 b) end.
Definition page_trapframe (p : page) : option trapframe :=
  match p with
  | PgTrapframe tf => Some tf
  | PgBytes b => Some (words_of_bytes TF_words b)
  | _ => None
  end.
Definition load_tf (a : Z) : M pmem trapframe :=
  deref (fun s => p ← mem s !! a; page_trapframe p).
Definition store_tf (a : Z) (tf : trapframe) : M pmem unit :=
  _ <- deref (fun s => mem s !! a) ;; modify (set_page a (PgTrapframe tf)).
(** [*dst = *src] on trapframes. *)
Definition copy_tf (dst src : Z) : M pmem unit := tf <- load_tf src ;; store_tf dst tf.
(** One field: [tf->reg = v]. *)
Definition set_tf (a : Z) (reg : nat) (v : Z) : M pmem unit :=
  tf <- load_tf a ;; store_tf a (<[reg := u64 v]> tf).

Definition set_sum v u := mk_usage v (start_tick u) (quota u) (last_sched_tick u) (deadline u).
Definition set_start v u := mk_usage (sum_of_ticks u) v (quota u) (last_sched_tick u) (deadline u).
Definition set_quota v u := mk_usage (sum_of_ticks u) (start_tick u) v (last_sched_tick u) (deadline u).
Definition set_last v u := mk_usage (sum_of_ticks u) (start_tick u) (quota u) v (deadline u).
Definition set_deadline v u := mk_usage (sum_of_ticks u) (start_tick u) (quota u) (last_sched_tick u) v.
Definition upd_usage (a : Z) (f : cpu_usage -> cpu_usage) : M pmem unit :=
  u <- load_usage a ;; store_usage a (f u).

(** ** The file system's interface *)

Class FileOps (F : Type) : Type := {
  filedup : nat -> M (kst F) nat;
  fileclose : nat -> M (kst F) unit;
  idup : nat -> M (kst F) nat;
  iput : nat -> M (kst F) unit;
  begin_op : M (kst F) unit;
  end_op : M (kst F) unit;
  namei : list Z -> M (kst F) (option nat)
}.

(** ** Page tables of processes *)

Section pagetables.
Context {img : Image}.

(** The argument is [p->trapframe]. *)
Definition proc_pagetable (tf : Z) : M pmem Z :=
  pagetable <- uvmcreate ;;
  if pagetable =? 0 then ret 0
  else
    r <- mappages pagetable TRAMPOLINE PGSIZE trampoline (Z.lor PTE_R PTE_X) ;;
    if r <? 0 then uvmfree pagetable 0 ;; ret 0
    else
      r <- mappages pagetable TRAPFRAME PGSIZE tf (Z.lor PTE_R PTE_W) ;;
      if r <? 0 then
        uvmunmap pagetable TRAMPOLINE 1 false ;; uvmfree pagetable 0 ;; ret 0
      else ret pagetable.

Definition proc_freepagetable (pagetable sz : Z) : M pmem unit :=
  uvmunmap pagetable TRAMPOLINE 1 false ;;
  uvmunmap pagetable TRAPFRAME 1 false ;;
  uvmfree pagetable sz.
End pagetables.

(** ** Operations *)

Section proc.
Context {img : Image} {F : Type}.
#[local] Abbreviation K := (M (kst F)).

Definition procinit : K unit :=
  for_each all_procs (fun i =>
    upd_proc i (fun p => set_threads ((fun t => mk_thread THREAD_FREE (t_trapframe t) (t_id t) (t_join t)) <$> threads p)
                  (set_kstack (KSTACK (Z.of_nat i)) (set_state UNUSED p)))) ;;
  modify (fun s => set_pq (PQ.pq_init (pq s)) s) ;;
  modify (fun s => set_q (Queue.initializeQueue (q s)) s).

Definition allocpid : K Z :=
  acquire LkPid ;;
  pid <- gets nextpid ;;
  modify (set_nextpid (i32 (pid + 1))) ;;
  release LkPid ;;
  ret pid.

Definition upd_thread (i t : nat) (f : thread -> thread) : K unit :=
  upd_proc i (fun p => set_threads (alter f t (threads p)) p).
Definition get_thread (i t : nat) : K thread :=
  p <- get_proc i ;; deref (fun _ => threads p !! t).

Definition freethread (i t : nat) : K unit :=
  th <- get_thread i t ;;
  when (negb (t_trapframe th =? 0)) (mem_op (kfree (t_trapframe th))) ;;
  upd_thread i t (fun _ => mk_thread THREAD_FREE 0 0 0).

Definition freeproc (i : nat) : K unit :=
  p <- get_proc i ;;
  when (negb (trapframe_ptr p =? 0)) (mem_op (kfree (trapframe_ptr p))) ;;
  upd_proc i (set_trapframe 0) ;;
  when (negb (usage_time p =? 0)) (mem_op (kfree (usage_time p))) ;;
  upd_proc i (set_usage_time 0) ;;
  when (negb (pagetable p =? 0)) (mem_op (proc_freepagetable (pagetable p) (sz p))) ;;
  upd_proc i (fun p => set_current_thread None (set_state UNUSED (set_xstate 0 (set_killed 0
    (set_chan ChNull (set_name (<[0%nat := 0]> (name p)) (set_parent None (set_pid 0
    (set_sz 0 (set_pagetable 0 p)))))))))) ;;
  for_each (seq 0 MAX_THREAD) (fun t => freethread i t).

(** The cleanup of [allocproc] when it runs out of memory. *)
Definition allocproc_fail (i : nat) : K (option nat) :=
  freeproc i ;; release (LkProc i) ;; ret None.

Definition allocproc : K (option nat) :=
  found <- for_find all_procs (fun i =>
    acquire (LkProc i) ;;
    p <- get_proc i ;;
    if bool_decide (state p = UNUSED) then ret (Some i)
    else release (LkProc i) ;; ret None) ;;
  match found with
  | None => ret None
  | Some i =>
      pid <- allocpid ;;
      upd_proc i (fun p => set_state USED (set_pid pid p)) ;;
      tf <- mem_op kalloc ;;
      upd_proc i (set_trapframe tf) ;;
      if tf =? 0 then allocproc_fail i
      else
        us <- mem_op kalloc ;;
        upd_proc i (set_usage_time us) ;;
        if us =? 0 then allocproc_fail i
        else
          mem_op (store_usage us (mk_usage 0 0 MAX_UINT 0 MAX_UINT)) ;;
          pt <- mem_op (proc_pagetable tf) ;;
          upd_proc i (set_pagetable pt) ;;
          if pt =? 0 then allocproc_fail i
          else
            upd_proc i (fun p => set_current_thread None
              (set_ctx (mk_context PcForkret (u64 (kstack p + PGSIZE)) (replicate 12 0)) p)) ;;
            ret (Some i)
  end.

Definition growproc (n : Z) : K Z :=
  i <- my ;;
  p <- get_proc i ;;
  let sz0 := sz p in
  if 0 <? n then
    r <- mem_op (uvmalloc (pagetable p) sz0 (u64 (sz0 + n)) PTE_W) ;;
    if r =? 0 then ret (-1) else upd_proc i (set_sz r) ;; ret 0
  else if n <? 0 then
    r <- mem_op (uvmdealloc (pagetable p) sz0 (u64 (sz0 + n))) ;;
    upd_proc i (set_sz r) ;; ret 0
  else upd_proc i (set_sz sz0) ;; ret 0.

(** ** Sleeping, waking, killing *)

(** [sum_of_ticks += ticks - last_sched_tick; last_sched_tick = ticks], on
    unsigned 32-bit counters. *)
Definition account (now : Z) (u : cpu_usage) : cpu_usage :=
  set_last now (set_sum (u32 (sum_of_ticks u + u32 (now - last_sched_tick u))) u).

Definition sched : K unit :=
  i <- my ;;
  h <- holding (LkProc i) ;;
  if negb h then panic "sched p->lock" else
  n <- noff ;;
  if negb (n =? 1) then panic "sched locks" else
  p <- get_proc i ;;
  if bool_decide (state p = RUNNING) then panic "sched running" else
  on <- intr_get ;;
  if (on : bool) then panic "sched interruptible" else
  intena <- gets intr ;;
  now <- gets ticks ;;
  mem_op (upd_usage (usage_time p) (account now)) ;;
  swtch ;;
  modify (set_intr intena).

Definition yield : K unit :=
  i <- my ;;
  acquire (LkProc i) ;;
  upd_proc i (set_state RUNNABLE) ;;
  sched ;;
  release (LkProc i).

Definition sleep (c : chan_t) (lk : lockid) : K unit :=
  i <- my ;;
  acquire (LkProc i) ;;
  release lk ;;
  upd_proc i (fun p => set_state SLEEPING (set_chan c p)) ;;
  sched ;;
  upd_proc i (set_chan ChNull) ;;
  release (LkProc i) ;;
  acquire lk.

Definition wakeup (c : chan_t) : K unit :=
  for_each all_procs (fun i =>
    me <- myproc ;;
    if bool_decide (me = Some i) then ret tt
    else
      acquire (LkProc i) ;;
      p <- get_proc i ;;
      when (bool_decide (state p = SLEEPING) && bool_decide (chan p = c))
        (upd_proc i (set_state RUNNABLE)) ;;
      release (LkProc i)).

Definition kill (pid0 : Z) : K Z :=
  r <- for_find all_procs (fun i =>
    acquire (LkProc i) ;;
    p <- get_proc i ;;
    if pid p =? pid0 then
      upd_proc i (set_killed 1) ;;
      when (bool_decide (state p = SLEEPING)) (upd_proc i (set_state RUNNABLE)) ;;
      release (LkProc i) ;;
      ret (Some 0)
    else release (LkProc i) ;; ret None) ;;
  ret (default (-1) r).

Definition setkilled (i : nat) : K unit :=
  acquire (LkProc i) ;; upd_proc i (set_killed 1) ;; release (LkProc i).

Definition killed (i : nat) : K Z :=
  acquire (LkProc i) ;;
  p <- get_proc i ;;
  release (LkProc i) ;;
  ret (killed_flag p).

(** [either_copyout] and [either_copyin] to and from user memory; the kernel
    case is a [memmove] between kernel buffers and returns 0. *)
Definition either_copyout (user_dst : bool) (dst : Z) (src : list Z) : K Z :=
  if user_dst then i <- my ;; p <- get_proc i ;; mem_op (copyout (pagetable p) dst src)
  else ret 0.

Definition either_copyin (src len : Z) : K (Z * list Z) :=
  i <- my ;; p <- get_proc i ;; mem_op (copyin (pagetable p) src len).
End proc.

(** ** Process creation and destruction *)

(** The assembled [initcode[]]. *)
Definition initcode : list Z :=
  [0x17; 0x05; 0x00; 0x00; 0x13; 0x05; 0x45; 0x02;
   0x97; 0x05; 0x00; 0x00; 0x93; 0x85; 0x35; 0x02;
   0x93; 0x08; 0x70; 0x00; 0x73; 0x00; 0x00; 0x00;
   0x93; 0x08; 0x20; 0x00; 0x73; 0x00; 0x00; 0x00;
   0xef; 0xf0; 0x9f; 0xff; 0x2f; 0x69; 0x6e; 0x69;
   0x74; 0x00; 0x00; 0x24; 0x00; 0x00; 0x00; 0x00;
   0x00; 0x00; 0x00; 0x00].

(** The little-endian bytes of a 32-bit integer in memory. *)
Definition int_bytes (x : Z) : list Z :=
  let y := u32 x in [y mod 256; (y / 256) mod 256; (y / 65536) mod 256; (y / 16777216) mod 256].

Section lifecycle.
Context {img : Image} {F : Type} {fops : FileOps F}.
#[local] Abbreviation K := (M (kst F)).

Definition userinit : K unit :=
  p <- allocproc ;;
  modify (set_initproc p) ;;
  i <- deref (fun _ => p) ;;
  pr <- get_proc i ;;
  mem_op (uvmfirst (pagetable pr) initcode) ;;
  upd_proc i (set_sz PGSIZE) ;;
  mem_op (set_tf (trapframe_ptr pr) TF_epc 0) ;;
  mem_op (set_tf (trapframe_ptr pr) TF_sp PGSIZE) ;;
  upd_proc i (fun p => set_name (safestrcpy (name p) (string_bytes "initcode") 16) p) ;;
  d <- namei (string_bytes "/") ;;
  upd_proc i (set_cwd d) ;;
  upd_proc i (set_state RUNNABLE) ;;
  release (LkProc i).

(** [np->ofile[i] = filedup(p->ofile[i])] for the open descriptors. *)
Definition dup_files (p np : nat) : K unit :=
  for_each (seq 0 NOFILE) (fun fd =>
    pr <- get_proc p ;;
    match ofile pr !! fd with
    | Some (Some f) =>
        f' <- filedup f ;;
        upd_proc np (fun x => set_ofile (<[fd := Some f']> (ofile x)) x)
    | _ => ret tt
    end).

(** The body shared by [fork] and [fork_deadline], which differ in the last
    critical section only. *)
Definition fork_with (dl : option Z) : K Z :=
  p <- my ;;
  o <- allocproc ;;
  match o with
  | None => ret (-1)
  | Some np =>
      pr <- get_proc p ;;
      npr <- get_proc np ;;
      r <- mem_op (uvmcopy (pagetable pr) (pagetable npr) (sz pr)) ;;
      if r <? 0 then
        freeproc np ;; release (LkProc np) ;; ret (-1)
      else
        upd_proc np (set_sz (sz pr)) ;;
        mem_op (copy_tf (trapframe_ptr npr) (trapframe_ptr pr)) ;;
        mem_op (set_tf (trapframe_ptr npr) TF_a0 0) ;;
        dup_files p np ;;
        c <- deref (fun _ => cwd pr) ;;
        d <- idup c ;;
        upd_proc np (set_cwd (Some d)) ;;
        upd_proc np (fun x => set_name (safestrcpy (name x) (name pr) 16) x) ;;
        npr <- get_proc np ;;
        let pid0 := pid npr in
        release (LkProc np) ;;
        acquire LkWait ;;
        upd_proc np (set_parent (Some p)) ;;
        release LkWait ;;
        acquire (LkProc np) ;;
        upd_proc np (set_state RUNNABLE) ;;
        match dl with
        | None => ret tt
        | Some d => mem_op (upd_usage (usage_time npr) (set_deadline (u32 d)))
        end ;;
        release (LkProc np) ;;
        ret pid0
  end.

Definition fork : K Z := fork_with None.
Definition fork_deadline (deadline : Z) : K Z := fork_with (Some deadline).

Definition reparent (p : nat) : K unit :=
  for_each all_procs (fun pp =>
    x <- get_proc pp ;;
    if bool_decide (parent x = Some p) then
      ip <- gets initproc ;;
      upd_proc pp (set_parent ip) ;;
      wakeup (chan_of ip)
    else ret tt).

(** The part of [exit] that gives up the open files and the directory. *)
Definition exit_files (p : nat) : K unit :=
  for_each (seq 0 NOFILE) (fun fd =>
    pr <- get_proc p ;;
    match ofile pr !! fd with
    | Some (Some f) =>
        fileclose f ;;
        upd_proc p (fun x => set_ofile (<[fd := None]> (ofile x)) x)
    | _ => ret tt
    end) ;;
  begin_op ;;
  pr <- get_proc p ;;
  c <- deref (fun _ => cwd pr) ;;
  iput c ;;
  end_op ;;
  upd_proc p (set_cwd None).

(** The rest of [exit], from [acquire(&wait_lock)] on. *)
Definition exit_zombie (p : nat) (status : Z) : K unit :=
  acquire LkWait ;;
  reparent p ;;
  pr <- get_proc p ;;
  wakeup (chan_of (parent pr)) ;;
  acquire (LkProc p) ;;
  upd_proc p (fun x => set_state ZOMBIE (set_xstate status x)) ;;
  release LkWait ;;
  sched ;;
  panic "zombie exit".

Definition exit (status : Z) : K unit :=
  p <- my ;;
  ip <- gets initproc ;;
  if bool_decide (ip = Some p) then panic "init exiting"
  else exit_files p ;; exit_zombie p status.

(** The scan of the process table in [wait]: whether a child was seen, and the
    value to return once a zombie was found (both locks released). *)
Fixpoint wait_scan (idx : list nat) (p : nat) (addr : Z) (havekids : bool) : K (bool * option Z) :=
  match idx with
  | [] => ret (havekids, None)
  | pp :: idx' =>
      x <- get_proc pp ;;
      if bool_decide (parent x = Some p) then
        acquire (LkProc pp) ;;
        x <- get_proc pp ;;
        if bool_decide (state x = ZOMBIE) then
          pr <- get_proc p ;;
          r <- (if negb (addr =? 0)
                then mem_op (copyout (pagetable pr) addr (int_bytes (xstate x))) else ret 0) ;;
          if r <? 0 then
            release (LkProc pp) ;; release LkWait ;; ret (true, Some (-1))
          else
            freeproc pp ;;
            release (LkProc pp) ;;
            release LkWait ;;
            ret (true, Some (pid x))
        else
          release (LkProc pp) ;;
          wait_scan idx' p addr true
      else wait_scan idx' p addr havekids
  end.

(** [fuel] bounds the number of times the caller is woken up in vain. *)
Fixpoint wait_loop (fuel : nat) (p : nat) (addr : Z) : K Z :=
  match fuel with
  | O => nofuel
  | S fuel' =>
      r <- wait_scan all_procs p addr false ;;
      match r with
      | (_, Some v) => ret v
      | (havekids, None) =>
          k <- (if negb havekids then ret 1 else killed p) ;;
          if negb (k =? 0) then
            release LkWait ;; ret (-1)
          else
            sleep (ChProc p) LkWait ;;
            wait_loop fuel' p addr
      end
  end.

Definition wait (fuel : nat) (addr : Z) : K Z :=
  p <- my ;;
  acquire LkWait ;;
  wait_loop fuel p addr.
End lifecycle.

(** ** Threads *)

Section threads.
Context {img : Image} {F : Type}.
#[local] Abbreviation K := (M (kst F)).

(** The first free thread slot, [None] when the loop runs off the array. *)
Fixpoint find_free (l : list thread) (i : nat) : option nat :=
  match l with
  | [] => None
  | t :: l' => if bool_decide (t_state t = THREAD_FREE) then Some i else find_free l' (S i)
  end.

Definition create_thread (start_routine arg pstack : Z) : K Z :=
  i <- my ;;
  p <- get_proc i ;;
  start <- (match current_thread p with
    | Some _ => ret (Some false)
    | None =>
        tf <- mem_op kalloc ;;
        upd_thread i 0 (fun t => mk_thread (t_state t) tf (t_id t) (t_join t)) ;;
        if tf =? 0 then ret None
        else
          mem_op (copy_tf tf (trapframe_ptr p)) ;;
          upd_thread i 0 (fun t => mk_thread THREAD_RUNNABLE (t_trapframe t) 1 0) ;;
          upd_proc i (set_current_thread (Some 0%nat)) ;;
          ret (Some true)
    end) ;;
  match start with
  | None => ret (-1)
  | Some flag =>
      p <- get_proc i ;;
      match find_free (threads p) 0 with
      | None => ret (-1)
      | Some t =>
          tf <- mem_op kalloc ;;
          upd_thread i t (fun x => mk_thread (t_state x) tf (t_id x) (t_join x)) ;;
          if tf =? 0 then
            when flag (c <- deref (fun _ => current_thread p) ;; freethread i c) ;;
            ret (-1)
          else
            mem_op (copy_tf tf (trapframe_ptr p)) ;;
            mem_op (set_tf tf TF_epc start_routine) ;;
            mem_op (set_tf tf TF_sp pstack) ;;
            mem_op (set_tf tf TF_a0 arg) ;;
            mem_op (set_tf tf TF_ra (-1)) ;;
            upd_thread i t (fun x => mk_thread THREAD_RUNNABLE (t_trapframe x) (Z.of_nat t + 1) (t_join x)) ;;
            ret (Z.of_nat t + 1)
      end
  end.

(** The first live thread with identifier [tid]. *)
Fixpoint find_tid (l : list thread) (tid : Z) (i : nat) : option nat :=
  match l with
  | [] => None
  | t :: l' =>
      if (t_id t =? tid) && negb (bool_decide (t_state t = THREAD_FREE)) then Some i
      else find_tid l' tid (S i)
  end.

Definition join_thread (tid : Z) : K Z :=
  i <- my ;;
  p <- get_proc i ;;
  match find_tid (threads p) tid 0 with
  | None => ret (-1)
  | Some _ =>
      c <- deref (fun _ => current_thread p) ;;
      upd_thread i c (fun t => mk_thread THREAD_JOINED (t_trapframe t) (t_id t) tid) ;;
      yield ;;
      ret 0
  end.

(** The loop of [exit_t]: the threads that join [tid] become runnable, and the
    last slot with that identifier is the target. *)
Definition exit_wake (tid : Z) (t : thread) : thread :=
  if t_join t =? tid then mk_thread THREAD_RUNNABLE (t_trapframe t) (t_id t) 0 else t.
Fixpoint find_target (l : list thread) (tid : Z) (i : nat) (acc : option nat) : option nat :=
  match l with
  | [] => acc
  | t :: l' => find_target l' tid (S i) (if t_id t =? tid then Some i else acc)
  end.

Definition exit_t (tid : Z) (i : nat) : K Z :=
  upd_proc i (fun p => set_threads (exit_wake tid <$> threads p) p) ;;
  p <- get_proc i ;;
  match find_target (threads p) tid 0 None with
  | None => ret (-1)
  | Some t =>
      th <- get_thread i t ;;
      if bool_decide (t_state th = THREAD_FREE) then ret (-1)
      else
        freethread i t ;;
        printf "This is ended thread: (tid:%d,pid:%d)\n" [PInt tid; PInt (pid p)] ;;
        yield ;;
        ret 0
  end.

Definition exit_thread (tid : Z) : K Z :=
  i <- my ;;
  p <- get_proc i ;;
  if tid =? -1 then
    c <- deref (fun _ => current_thread p) ;;
    th <- get_thread i c ;;
    exit_t (t_id th) i
  else exit_t tid i.
End threads.

(** ** Information about processes *)

(** kernel/child_processes.h and [struct proc_info] *)
Record proc_info_cps : Type := mk_cps {
  cps_name : list Z; cps_pid : Z; cps_ppid : Z; cps_state : procstate
}.
Record proc_info : Type := mk_info {
  pi_name : list Z; pi_pid : Z; pi_ppid : Z; pi_state : procstate; pi_usage : cpu_usage
}.
#[export] Instance proc_info_inhabited : Inhabited proc_info :=
  populate (mk_info [] 0 0 UNUSED (mk_usage 0 0 0 0 0)).

Section info.
Context {img : Image} {F : Type}.
#[local] Abbreviation K := (M (kst F)).

(** [depth] bounds the recursion by the length of the parent chain. *)
Fixpoint is_father (depth : nat) (father_id : Z) (p : procptr) : K bool :=
  match depth with
  | O => nofuel
  | S depth' =>
      i <- deref (fun _ => p) ;;
      acquire (LkProc i) ;;
      x <- get_proc i ;;
      let result := father_id =? pid x in
      let flag := pid x =? 1 in
      release (LkProc i) ;;
      if result || flag then ret result
      else
        acquire LkWait ;;
        x <- get_proc i ;;
        release LkWait ;;
        is_father depth' father_id (parent x)
  end.

(** The entries filled in, in order; [cps->count] is their number. *)
Fixpoint child_scan (idx : list nat) (father_pid : Z) (acc : list proc_info_cps)
    : K (list proc_info_cps) :=
  match idx with
  | [] => ret acc
  | i :: idx' =>
      x <- get_proc i ;;
      if bool_decide (state x = UNUSED) then child_scan idx' father_pid acc
      else
        b <- is_father (S (Z.to_nat NPROC)) father_pid (Some i) ;;
        if (b : bool) then
          acquire (LkProc i) ;;
          x <- get_proc i ;;
          release (LkProc i) ;;
          acquire LkWait ;;
          y <- get_proc i ;;
          release LkWait ;;
          father <- deref (fun _ => parent y) ;;
          acquire (LkProc father) ;;
          fx <- get_proc father ;;
          release (LkProc father) ;;
          child_scan idx' father_pid
            (acc ++ [mk_cps (strncpy_out (name y) 16) (pid x) (pid fx) (state x)])
        else child_scan idx' father_pid acc
  end.

Definition child_processes : K (Z * list proc_info_cps) :=
  i <- my ;;
  acquire (LkProc i) ;;
  p <- get_proc i ;;
  release (LkProc i) ;;
  l <- child_scan all_procs (pid p) [] ;;
  ret (0, l).

(** The reports of the first [n] slots that name [father_pid] among the
    recorded ancestors, at most [MAX_REPORT_BUFFER_SIZE] of them. *)
Definition names_parent (father_pid : Z) (r : report) : bool :=
  bool_decide (father_pid ∈ take (Z.to_nat (r_parents_count r)) (r_parents r)).
Fixpoint report_scan (l : list report) (father_pid : Z) (acc : list report) : list report :=
  match l with
  | [] => acc
  | r :: l' =>
      let acc' := if names_parent father_pid r then acc ++ [r] else acc in
      if (length acc' =? MAX_REPORT_BUFFER_SIZE)%nat then acc' else report_scan l' father_pid acc'
  end.

Definition report_traps : K (Z * list report) :=
  i <- my ;;
  acquire (LkProc i) ;;
  p <- get_proc i ;;
  release (LkProc i) ;;
  rl <- gets rlist ;;
  ret (0, report_scan (take (Z.to_nat (numberOfReports rl)) (reports rl)) (pid p) []).

Definition cpu_used : K Z :=
  i <- my ;;
  p <- get_proc i ;;
  u <- mem_op (load_usage (usage_time p)) ;;
  printf "(cpu_used) pid:%d -> quota:%d\n" [PInt (pid p); PInt (quota u)] ;;
  ret (i32 (sum_of_ticks u)).

Definition set_cpu_quota (pid0 quota0 : Z) : K Z :=
  me <- my ;;
  acquire (LkProc me) ;;
  release (LkProc me) ;;
  r <- for_find all_procs (fun i =>
    x <- get_proc i ;;
    if bool_decide (state x = UNUSED) then ret None
    else
      acquire (LkProc i) ;;
      x <- get_proc i ;;
      release (LkProc i) ;;
      if pid x =? pid0 then
        y <- get_proc i ;;
        if pid0 =? pid y then
          mem_op (upd_usage (usage_time y) (set_quota (u32 quota0))) ;; ret (Some 0)
        else ret (Some (-1))
      else ret None) ;;
  ret (default (-2) r).

(** *** [top_func] *)

(** The first loop: entry [i] of the array for each process in use, counting
    them; the entries of unused slots keep what the caller's array held. *)
Fixpoint top_fill (idx : list nat) (arr : list proc_info) (count : nat)
    : K (list proc_info * nat) :=
  match idx with
  | [] => ret (arr, count)
  | i :: idx' =>
      p <- get_proc i ;;
      if bool_decide (state p = UNUSED) then top_fill idx' arr count
      else
        ppid <- (match parent p with
                 | Some j => pp <- get_proc j ;; ret (pid pp)
                 | None => ret 0
                 end) ;;
        u <- mem_op (load_usage (usage_time p)) ;;
        top_fill idx' (<[i := mk_info (strncpy_out (name p) 16) (pid p) ppid (state p) u]> arr) (S count)
  end.

(** [for (j = i; j > 0; --j)] of the insertion sort. *)
Fixpoint top_insert (j : nat) (arr : list proc_info) : list proc_info :=
  match j with
  | O => arr
  | S j' =>
      let a := arr !!! j in
      let b := arr !!! j' in
      top_insert j'
        (if sum_of_ticks (pi_usage a) <? sum_of_ticks (pi_usage b)
         then <[j := b]> (<[j' := a]> arr) else arr)
  end.
Definition top_sort (n : nat) (arr : list proc_info) : list proc_info :=
  foldl (fun a i => top_insert i a) arr (seq 1 (n - 1)).

Definition top_func (arr0 : list proc_info) : K (Z * (nat * list proc_info)) :=
  r <- top_fill all_procs arr0 0 ;;
  let '(arr, count) := r in
  ret (0, (count, top_sort count arr)).

(** [procdump], with its table of state names. *)
Definition procdump_state (s : procstate) : string :=
  match s with
  | UNUSED => "unused" | USED => "used" | SLEEPING => "sleep " | RUNNABLE => "runble"
  | RUNNING => "run   " | ZOMBIE => "zombie" | _ => "???"
  end.
Definition procdump : K unit :=
  printf "\n" [] ;;
  for_each all_procs (fun i =>
    p <- get_proc i ;;
    if bool_decide (state p = UNUSED) then ret tt
    else
      printf "%d %s %s" [PInt (pid p); PStr (procdump_state (state p)); PChars (name p)] ;;
      printf "\n" []).
End info.
