(* ===== verification/ProcMem.v ===== *)
(** * The memory of a process (kernel/proc.c: [proc_pagetable],
    [proc_freepagetable])

    [space] describes a complete user address space: its page table, the
    trampoline and trapframe mappings at the top, and the user pages below the
    process size.  Creating one either yields that shape or gives every page
    back; destroying one returns all of its pages to the free list. *)

From S2P Require Import Prelude Spinlock Riscv Kalloc Vm VmProofs VmSpace VmFree Proc.
Ltac Zify.zify_post_hook ::= Z.to_euclidean_division_equations.

Section procmem.
Context {img : Image}.
Implicit Types (s : pmem) (l T : list Z) (tbl : gmap (list Z) Z) (hl : list lockid).

Definition tramp_pte : Z := leaf_pte trampoline (Z.lor PTE_R PTE_X).
Definition tf_pte (tf : Z) : Z := leaf_pte tf (Z.lor PTE_R PTE_W).

(** An address space with [n] user pages. *)
Record space s l (root : Z) tbl (tf : Z) (n : nat) : Prop := {
  sp_pt : pt_inv s root tbl;
  sp_tramp : pte_of s tbl TRAMPOLINE = tramp_pte;
  sp_tf : pte_of s tbl TRAPFRAME = tf_pte tf;
  sp_bound : Z.of_nat n * PGSIZE <= TRAPFRAME;
  sp_user x : 0 <= x < Z.of_nat n * PGSIZE -> leaf_ok (pte_of s tbl x);
  sp_rest x : Z.of_nat n * PGSIZE <= x < TRAPFRAME -> flag_set (pte_of s tbl x) PTE_V = false;
  sp_nodup : NoDup (frames (pte_of s tbl) 0 n);
  sp_owned pa : pa ∈ frames (pte_of s tbl) 0 n -> in_use s l pa /\ ~ is_table tbl pa
}.

Lemma layout_consts : MAXVA = 2 ^ 38 /\ TRAMPOLINE = 2 ^ 38 - 4096 /\ TRAPFRAME = 2 ^ 38 - 8192.
Proof. done. Qed.

Lemma tramp_leaf : leaf_ok tramp_pte.
Proof.
  destruct image_layout as ([Ht Ht'] & [He He'] & _ & Htr).
  unfold tramp_pte. apply leaf_pte_ok; [|split; [by vm_compute|done]].
  unfold pa_ok, PHYSTOP, KERNBASE in *. split; [lia|done].
Qed.

Lemma tf_leaf tf : page_ok tf -> leaf_ok (tf_pte tf).
Proof.
  intros Hp%page_ok_pa_ok. unfold tf_pte. apply leaf_pte_ok; [done|]. split; by vm_compute.
Qed.

(** Unmapping one page without freeing it. *)
Lemma unmap_one s l hl root tbl va (Q : unit -> st pmem -> Prop) :
  free_inv s l -> pt_inv s root tbl -> LkKmem ∉ hl ->
  0 <= va -> va mod PGSIZE = 0 -> va + PGSIZE <= MAXVA -> leaf_ok (pte_of s tbl va) ->
  (forall s', pt_unmap root s l tbl (unmap_range va 1 (pte_of s tbl)) [] s' l -> Q tt (mk_st hl s')) ->
  wp (uvmunmap root va 1 false) Q (mk_st hl s).
Proof.
  intros Hf Hp Hh Hva Ha Hm Hleaf HQ.
  eapply wp_mono; [apply (uvmunmap_spec 1 s l hl root tbl va false); try done|].
  - intros x Hx. rewrite (pte_of_same_page _ _ x va); [done|unfold PGSIZE in *; lia].
  - constructor.
  - intros pa Hpa. by apply not_elem_of_nil in Hpa.
  - intros [] st' (s' & l' & -> & Hu). pose proof (un_list _ _ _ _ _ _ _ _ Hu) as E.
    cbn in E. subst l'. by apply HQ.
Qed.

Lemma unmap_range_out va n f x :
  ~ (va <= x < va + Z.of_nat n * PGSIZE) -> unmap_range va n f x = f x.
Proof. intros H. unfold unmap_range. case_match; [lia|done]. Qed.

Lemma unmap_range_in va n f x :
  va <= x < va + Z.of_nat n * PGSIZE -> unmap_range va n f x = 0.
Proof. intros H. unfold unmap_range. case_match; [done|lia]. Qed.

Lemma in_use_ext s s' l pa : mem s' !! pa = mem s !! pa -> in_use s l pa -> in_use s' l pa.
Proof. intros Hm [Hs Hl]. split; [by rewrite Hm|done]. Qed.

(** ** Destruction *)

Lemma proc_freepagetable_spec n s l hl root tbl tf sz :
  free_inv s l -> space s l root tbl tf n -> LkKmem ∉ hl -> page_ok tf ->
  0 <= sz -> (Z.of_nat n - 1) * PGSIZE < sz <= Z.of_nat n * PGSIZE ->
  wp (proc_freepagetable root sz) (fun _ st' => exists s' T, st' = mk_st hl s' /\ NoDup T /\
      (forall b, b ∈ T <-> is_table tbl b) /\
      free_inv s' (reverse T ++ reverse (frames (pte_of s tbl) 0 n) ++ l) /\
      forall b, in_use s l b -> b ∉ T -> b ∉ frames (pte_of s tbl) 0 n -> mem s' !! b = mem s !! b)
    (mk_st hl s).
Proof.
  intros Hf [Hp Htr Htf Hb Hus Hre Hnd How] Hh Hok Hsz0 Hsz.
  destruct layout_consts as (Em & Et & Ef).
  unfold proc_freepagetable. wp_step.
  eapply (unmap_one s l hl root tbl); [done|done|done|lia|done|unfold PGSIZE; lia| |].
  { rewrite Htr. apply tramp_leaf. }
  intros s1 [Hf1 Hp1 Hpte1 _ Hfr1]. cbn beta. wp_step.
  assert (pte_of s1 tbl TRAPFRAME = tf_pte tf) as Htf1.
  { rewrite Hpte1, unmap_range_out by (unfold PGSIZE; lia). done. }
  eapply (unmap_one s1 l hl root tbl); [done|done|done|lia|done|unfold PGSIZE; lia| |].
  { rewrite Htf1. by apply tf_leaf. }
  intros s2 [Hf2 Hp2 Hpte2 _ Hfr2]. cbn beta.
  assert (forall x, 0 <= x < TRAPFRAME -> pte_of s2 tbl x = pte_of s tbl x) as Hsame.
  { intros x Hx. rewrite Hpte2, unmap_range_out, Hpte1, unmap_range_out by (unfold PGSIZE; lia). done. }
  assert (frames (pte_of s2 tbl) 0 n = frames (pte_of s tbl) 0 n) as HF.
  { apply frames_ext; [lia|lia|]. intros x Hx. apply Hsame. lia. }
  assert (forall b, in_use s l b -> ~ is_table tbl b -> mem s2 !! b = mem s !! b) as Hm.
  { intros b Hu Ht. destruct (Hfr1 b Hu Ht (not_elem_of_nil _)) as [Hu1 Hm1].
    destruct (Hfr2 b Hu1 Ht (not_elem_of_nil _)) as [_ Hm2]. congruence. }
  eapply wp_mono; [apply (uvmfree_spec n s2 l hl root tbl sz)|].
  - done.
  - done.
  - done.
  - done.
  - done.
  - lia.
  - intros x Hx. rewrite Hsame by lia. by apply Hus.
  - intros x Hx. destruct (decide (x < TRAPFRAME)).
    + rewrite Hsame by lia. apply Hre. lia.
    + rewrite Hpte2 by lia. destruct (decide (x < TRAMPOLINE)).
      * by rewrite unmap_range_in by (unfold PGSIZE; lia).
      * rewrite unmap_range_out by (unfold PGSIZE; lia). rewrite Hpte1 by lia.
        by rewrite unmap_range_in by (unfold PGSIZE; lia).
  - by rewrite HF.
  - rewrite HF. intros pa Hpa. destruct (How pa Hpa) as [Hu Ht]. split; [|done].
    eapply in_use_ext; [by apply Hm|done].
  - intros [] st' (s' & T & -> & HTn & HTe & Hf' & Hm'). rewrite HF in *. exists s', T.
    split_and!; [done|done|done|done|]. intros b Hu HbT HbF.
    assert (~ is_table tbl b) as Ht by (by rewrite <- HTe).
    rewrite Hm'; [by apply Hm|eapply in_use_ext; [by apply Hm|done]|done|done].
Qed.

(** ** Creation *)

Definition root_tbl (r : Z) : gmap (list Z) Z := {[[] := r]}.

Lemma pt_inv_root s r : table_at r s = Some empty_table -> pt_inv s r (root_tbl r).
Proof.
  intros Ht. unfold root_tbl. split.
  - apply lookup_singleton_eq.
  - intros p q a [<- _]%lookup_singleton_Some [<- _]%lookup_singleton_Some. done.
  - intros p i a [[=] _]%lookup_singleton_Some.
  - intros p a [<- <-]%lookup_singleton_Some. exists empty_table.
    split_and!; [done|done|]. intros _ i Hi. unfold entry_ok, empty_table.
    rewrite lookup_total_replicate_2 by lia. by rewrite lookup_singleton_ne.
Qed.

Lemma pte_of_root s r va : pte_of s (root_tbl r) va = 0.
Proof. unfold pte_of, root_tbl, leaf_path. by rewrite lookup_singleton_ne. Qed.

(** A tree built from nothing: its tables were free before. *)
Record fresh_tree s l (root : Z) (f : Z -> Z) s' l' tbl : Prop := {
  ft_free : free_inv s' l';
  ft_pt : pt_inv s' root tbl;
  ft_pte va : 0 <= va < MAXVA -> pte_of s' tbl va = f va;
  ft_acct pa : pa ∈ l <-> pa ∈ l' \/ is_table tbl pa;
  ft_frame pa : in_use s l pa ->
    in_use s' l' pa /\ ~ is_table tbl pa /\ mem s' !! pa = mem s !! pa
}.

Lemma uvmcreate_spec s l hl (Q : Z -> st pmem -> Prop) :
  free_inv s l -> LkKmem ∉ hl ->
  (l = [] -> Q 0 (mk_st hl s)) ->
  (forall r l' s', r <> 0 -> fresh_tree s l r (fun _ => 0) s' l' (root_tbl r) -> Q r (mk_st hl s')) ->
  wp uvmcreate Q (mk_st hl s).
Proof.
  intros Hf Hh Hnil Hcons. unfold uvmcreate. wp_step. eapply kalloc_spec; [done|done| |].
  { intros ->. cbn. apply wp_ret. auto. }
  intros r l' n -> Hrun Hok s1 Hf1 Hu1 Hfr. cbn beta.
  pose proof (page_ok_nonzero r Hok) as Hr0. destruct (Z.eqb_spec r 0); [done|].
  unfold zero_table. wp_steps. eapply wp_deref; [simpl; apply lookup_insert_eq|]. wp_steps. cbn [held data].
  assert (forall pa, is_table (root_tbl r) pa <-> pa = r) as Hit.
  { intros pa. unfold is_table, root_tbl. split.
    - by intros [p [_ ->]%lookup_singleton_Some].
    - intros ->. exists []. apply lookup_singleton_eq. }
  apply (Hcons r l'); [done|]. split.
  - by apply free_inv_write.
  - apply pt_inv_root. apply table_at_mem, lookup_insert_eq.
  - intros va _. apply pte_of_root.
  - intros pa. rewrite Hit, elem_of_cons. tauto.
  - intros pa Hu. destruct (Hfr pa Hu) as [Hne Hu']. rewrite Hit. split_and!; [by apply in_use_write|done|].
    cbn. by rewrite !lookup_insert_ne.
Qed.

Lemma fresh_tree_upd s l root f s1 l1 tbl1 g s2 l2 tbl2 :
  fresh_tree s l root f s1 l1 tbl1 -> pt_upd root s1 l1 tbl1 g [] s2 l2 tbl2 ->
  fresh_tree s l root g s2 l2 tbl2.
Proof.
  intros [Hf1 Hp1 Hpt1 Ha1 Hfr1] [Hf2 Hp2 Hs2 Hpt2 _ _ Hr2 Ha2 Ht2 Hfr2]. split; [done|done|done| |].
  - intros pa. rewrite Ha1. split.
    + intros [[?|[[]%not_elem_of_nil|?]]%Ha2|[p Hp]]; [by left|by right|]. right. exists p. auto.
    + intros [?|[?|?]%Ht2]; [|by right|by left]. left. apply Hr2. by left.
  - intros pa Hu. destruct (Hfr1 pa Hu) as (Hu1 & Ht1 & Hm1).
    destruct (Hfr2 pa Hu1 Ht1) as (? & ? & ?). split_and!; [done|done|congruence].
Qed.

Lemma fresh_tree_unmap s l root f s1 l1 tbl1 g s2 :
  fresh_tree s l root f s1 l1 tbl1 -> pt_unmap root s1 l1 tbl1 g [] s2 l1 ->
  fresh_tree s l root g s2 l1 tbl1.
Proof.
  intros [Hf1 Hp1 Hpt1 Ha1 Hfr1] [Hf2 Hp2 Hpt2 _ Hfr2]. split; [done|done|done|done|].
  intros pa Hu. destruct (Hfr1 pa Hu) as (Hu1 & Ht1 & Hm1).
  destruct (Hfr2 pa Hu1 Ht1 (not_elem_of_nil _)) as (? & ?). split_and!; [done|done|congruence].
Qed.

(** Freeing a tree that maps nothing undoes its construction. *)
Lemma fresh_tree_free s l root f s1 l1 tbl1 hl (Q : unit -> st pmem -> Prop) :
  free_inv s l -> fresh_tree s l root f s1 l1 tbl1 -> LkKmem ∉ hl ->
  (forall x, 0 <= x < MAXVA -> f x = 0) ->
  (forall s' l', free_inv s' l' -> l' ≡ₚ l ->
     (forall pa, in_use s l pa -> in_use s' l' pa /\ mem s' !! pa = mem s !! pa) -> Q tt (mk_st hl s')) ->
  wp (uvmfree root 0) Q (mk_st hl s1).
Proof.
  intros Hf [Hf1 Hp1 Hpt1 Ha1 Hfr1] Hh Hz HQ. destruct layout_consts as (Em & _).
  eapply wp_mono; [apply (uvmfree_spec 0 s1 l1 hl root tbl1 0); try done; try (cbn; lia)|].
  - intros x Hx. unfold PGSIZE in Hx. rewrite Hpt1, Hz by lia. done.
  - constructor.
  - intros pa Hpa. by apply not_elem_of_nil in Hpa.
  - intros [] st' (s' & T & -> & HTn & HTe & Hf' & Hm'). cbn in Hf'.
    assert (reverse T ++ l1 ≡ₚ l) as Hperm.
    { apply NoDup_Permutation; [apply Hf'|apply Hf|]. intros pa.
      rewrite elem_of_app, elem_of_reverse, HTe, Ha1. tauto. }
    apply (HQ s' _ Hf' Hperm). intros pa Hu. destruct (Hfr1 pa Hu) as (Hu1 & Ht1 & Hm1).
    assert (mem s' !! pa = mem s !! pa) as Hm.
    { rewrite <- Hm1. apply Hm'; [done|by rewrite HTe|apply not_elem_of_nil]. }
    split; [|done]. destruct Hu as [Hs Hl]. split; [by rewrite Hm|by rewrite Hperm].
Qed.

(** Mapping one page into a fresh tree. *)
Lemma fresh_tree_map s l root f s1 l1 tbl1 hl va pa perm (Q : Z -> st pmem -> Prop) :
  fresh_tree s l root f s1 l1 tbl1 -> LkKmem ∉ hl ->
  0 <= va -> va mod PGSIZE = 0 -> va + PGSIZE <= MAXVA -> 0 <= pa -> pa + PGSIZE <= 2 ^ 56 ->
  (forall x, va <= x < va + PGSIZE -> flag_set (f x) PTE_V = false) ->
  (forall s' l' tbl', fresh_tree s l root (map_range va 1 pa perm f) s' l' tbl' -> Q 0 (mk_st hl s')) ->
  (forall s' l' tbl', fresh_tree s l root f s' l' tbl' -> Q (-1) (mk_st hl s')) ->
  wp (mappages root va PGSIZE pa perm) Q (mk_st hl s1).
Proof.
  intros Hft Hh Hva Ha Hm Hpa Hpm Hun Hok Hfail.
  change PGSIZE with (Z.of_nat 1 * PGSIZE) at 1.
  eapply wp_mono; [apply (mappages_spec s1 l1 hl root tbl1)|].
  1,2: apply Hft.
  1,2,3,4: done || lia.
  { unfold PGSIZE in *. lia. }
  { lia. }
  { unfold PGSIZE in *. lia. }
  { intros x Hx. rewrite (ft_pte _ _ _ _ _ _ _ Hft) by (unfold PGSIZE in *; lia).
    apply Hun. unfold PGSIZE in *. lia. }
  intros r st' (s' & l' & tbl' & k & -> & Hu & Hr).
  assert (forall x, 0 <= x < MAXVA -> map_range va k pa perm (pte_of s1 tbl1) x = map_range va k pa perm f x) as Hext.
  { intros x Hx. unfold map_range. destruct (_ && _); [done|]. by apply (ft_pte _ _ _ _ _ _ _ Hft). }
  pose proof (fresh_tree_upd _ _ _ _ _ _ _ _ _ _ _ Hft (pt_upd_proper _ _ _ _ _ _ _ _ _ _ Hext Hu)) as Hft'.
  destruct Hr as [[-> ->]|(-> & Hk & _)]; [by eapply Hok|].
  assert (k = 0%nat) as -> by lia. eapply Hfail. destruct Hft' as [? ? Hpt ? ?].
  split; [done|done| |done|done]. intros x Hx. rewrite Hpt by done. apply map_range_0.
Qed.

(** The translation of a new process: trampoline and trapframe only. *)
Definition top_map (tf x : Z) : Z :=
  map_range TRAPFRAME 1 tf (Z.lor PTE_R PTE_W)
    (map_range TRAMPOLINE 1 trampoline (Z.lor PTE_R PTE_X) (fun _ => 0)) x.

Lemma map_range_out va n pa perm f x :
  ~ (va <= x < va + Z.of_nat n * PGSIZE) -> map_range va n pa perm f x = f x.
Proof. intros H. unfold map_range. case_match; [lia|done]. Qed.

Lemma map_range_here va pa perm f : map_range va 1 pa perm f va = leaf_pte pa perm.
Proof.
  unfold map_range, PGSIZE. rewrite Z.leb_refl, (proj2 (Z.ltb_lt _ _)) by lia. cbn.
  f_equal. rewrite Z.sub_diag. cbn. lia.
Qed.

Lemma proc_pagetable_spec s l hl tf (Q : Z -> st pmem -> Prop) :
  free_inv s l -> LkKmem ∉ hl -> page_ok tf ->
  (forall s' l', free_inv s' l' -> l' ≡ₚ l ->
     (forall pa, in_use s l pa -> in_use s' l' pa /\ mem s' !! pa = mem s !! pa) -> Q 0 (mk_st hl s')) ->
  (forall r s' l' tbl, r <> 0 -> fresh_tree s l r (top_map tf) s' l' tbl -> Q r (mk_st hl s')) ->
  wp (proc_pagetable tf) Q (mk_st hl s).
Proof.
  intros Hf Hh Htf Hfail Hok. destruct layout_consts as (Em & Et & Ef).
  destruct image_layout as ([Hk Hk'] & [He He'] & _ & Htr).
  assert (0 <= tf /\ tf + PGSIZE <= 2 ^ 56) as [Htf0 Htf1]
    by (destruct Htf; unfold PHYSTOP, KERNBASE, PGSIZE in *; lia).
  assert (0 <= trampoline /\ trampoline + PGSIZE <= 2 ^ 56) as [Htr0 Htr1]
    by (unfold PHYSTOP, KERNBASE, PGSIZE in *; lia).
  unfold proc_pagetable. wp_step. eapply uvmcreate_spec; [done|done| |].
  { intros ->. cbn. apply wp_ret. by apply (Hfail s []). }
  intros r l1 s1 Hr0 Hft1. cbn beta. rewrite (proj2 (Z.eqb_neq _ _) Hr0). wp_step.
  eapply fresh_tree_map; [exact Hft1|done|lia|done|unfold PGSIZE; lia|done|done|done| |].
  2: { intros s2 l2 tbl2 Hft2. cbn. wp_step.
       eapply fresh_tree_free; [done|exact Hft2|done|done|]. intros s3 l3 Hf3 Hp3 Hm3. cbn beta.
       apply wp_ret. by apply (Hfail s3 l3). }
  intros s2 l2 tbl2 Hft2. cbn [Z.ltb Z.compare]. wp_step.
  eapply fresh_tree_map; [exact Hft2|done|lia|done|unfold PGSIZE; lia|done|done| | |].
  { intros x Hx. rewrite map_range_out by (unfold PGSIZE in *; lia). done. }
  { intros s3 l3 tbl3 Hft3. cbn [Z.ltb Z.compare]. apply wp_ret. by eapply Hok. }
  intros s3 l3 tbl3 Hft3. cbn [Z.ltb Z.compare Z.opp]. wp_step.
  eapply (unmap_one s3 l3 hl r tbl3); [apply Hft3|apply Hft3|done|lia|done|unfold PGSIZE; lia| |].
  { rewrite (ft_pte _ _ _ _ _ _ _ Hft3), map_range_here by lia. apply tramp_leaf. }
  intros s4 Hu4. pose proof (fresh_tree_unmap _ _ _ _ _ _ _ _ _ Hft3 Hu4) as Hft4. cbn beta. wp_step.
  eapply fresh_tree_free; [done|exact Hft4|done| |].
  { intros x Hx. destruct (decide (x < TRAMPOLINE)).
    - rewrite unmap_range_out by (unfold PGSIZE; lia). rewrite (ft_pte _ _ _ _ _ _ _ Hft3) by done.
      by rewrite map_range_out by (unfold PGSIZE; lia).
    - by rewrite unmap_range_in by (unfold PGSIZE; lia). }
  intros s5 l5 Hf5 Hp5 Hm5. cbn beta. apply wp_ret. by apply (Hfail s5 l5).
Qed.

(** The tree [proc_pagetable] returns is an address space without user pages. *)
Lemma fresh_tree_space s l r tf s' l' tbl :
  fresh_tree s l r (top_map tf) s' l' tbl -> space s' l' r tbl tf 0.
Proof.
  intros [Hf Hp Hpt Ha Hfr]. destruct layout_consts as (Em & Et & Ef).
  split; [done| | | | | | |].
  - rewrite Hpt by lia. unfold top_map. rewrite map_range_out by (unfold PGSIZE; lia).
    by rewrite map_range_here.
  - rewrite Hpt by lia. unfold top_map. by rewrite map_range_here.
  - cbn. lia.
  - intros x Hx. cbn in Hx. lia.
  - intros x Hx. rewrite Hpt by lia. unfold top_map.
    by rewrite !map_range_out by (unfold PGSIZE; lia).
  - constructor.
  - intros pa Hpa. by apply not_elem_of_nil in Hpa.
Qed.
End procmem.
