(* ===== verification/ProcProofs.v ===== *)
(** * Processes: allocation, freeing, sleeping and waking

    Theorems about the operations of Proc.v: which processes [wakeup] and
    [kill] change, what [exit] leaves behind, and that [allocproc] and
    [freeproc] account for every page of a process. *)

From S2P Require Import Prelude Spinlock Riscv Kalloc Vm VmProofs VmSpace VmFree Queue PriorityQueue KString Proc ProcMem.

(** ** Rules for the accessors *)

Section rules.
Context {F : Type}.
Implicit Types (s : kst F) (hl : list lockid).

Lemma alter_insert {A} (f : A -> A) (i : nat) (l : list A) x :
  l !! i = Some x -> alter f i l = <[i := f x]> l.
Proof.
  intros Hx. apply list_eq. intros j. destruct (decide (i = j)) as [<-|Hne].
  - rewrite list_lookup_alter_eq, Hx. symmetry. apply list_lookup_insert_eq.
    by eapply lookup_lt_Some.
  - by rewrite list_lookup_alter_ne, list_lookup_insert_ne.
Qed.

Lemma wp_get_proc i p hl s (Q : proc -> st (kst F) -> Prop) :
  procs s !! i = Some p -> Q p (mk_st hl s) -> wp (get_proc i) Q (mk_st hl s).
Proof. intros Hp HQ. by eapply wp_deref. Qed.

Lemma wp_upd_proc i p f hl s (Q : unit -> st (kst F) -> Prop) :
  procs s !! i = Some p -> Q tt (mk_st hl (set_procs (<[i := f p]> (procs s)) s)) ->
  wp (upd_proc i f) Q (mk_st hl s).
Proof. intros Hp HQ. apply wp_modify. cbn. by rewrite (alter_insert f i _ p). Qed.

Lemma wp_mem_op {A} (m : M pmem A) hl s (Q : A -> st (kst F) -> Prop) :
  wp m (fun a t => Q a (mk_st (held t) (set_pm (data t) s))) (mk_st hl (pm s)) ->
  wp (mem_op m) Q (mk_st hl s).
Proof. intros H. unfold mem_op. apply wp_zoom. exact H. Qed.

Lemma wp_my i hl s (Q : nat -> st (kst F) -> Prop) :
  cur s = Some i -> Q i (mk_st hl s) -> wp my Q (mk_st hl s).
Proof. intros Hc HQ. by eapply wp_deref. Qed.

(** A loop over the whole table whose body changes entry [i] by [f i]. *)
Lemma for_each_procs (body : nat -> M (kst F) unit) (f : nat -> proc -> proc) hl s :
  length (procs s) = Z.to_nat NPROC ->
  (forall i ps, length ps = Z.to_nat NPROC -> (i < Z.to_nat NPROC)%nat ->
     body i (mk_st hl (set_procs ps s)) = Ret tt (mk_st hl (set_procs (alter (f i) i ps) s))) ->
  for_each all_procs body (mk_st hl s) = Ret tt (mk_st hl (set_procs (imap f (procs s)) s)).
Proof.
  intros Hlen Hbody. unfold all_procs.
  assert (forall k n ps, (n + k = Z.to_nat NPROC)%nat -> length ps = Z.to_nat NPROC ->
    for_each (seq k n) body (mk_st hl (set_procs ps s)) =
      Ret tt (mk_st hl (set_procs (take k ps ++ imap (fun j => f (k + j)%nat) (drop k ps)) s))) as H.
  { intros k n. revert k. induction n as [|n IH]; intros k ps Hk Hps; cbn.
    - unfold ret. rewrite drop_ge, take_ge by lia. cbn. by rewrite app_nil_r.
    - unfold bind. rewrite Hbody by lia. cbn. rewrite IH by (rewrite ?length_alter; lia).
      do 3 f_equal. destruct (lookup_lt_is_Some_2 ps k) as [x Hx]; [lia|].
      rewrite (alter_insert _ _ _ x Hx), (drop_S ps x k Hx).
      rewrite (take_S_r _ _ (f k x)) by (apply list_lookup_insert_eq; lia).
      rewrite take_insert_ge, drop_insert_lt by lia. rewrite <- app_assoc. cbn.
      do 2 f_equal; [f_equal; lia|]. apply imap_ext. intros j y _. unfold compose. f_equal. lia. }
  specialize (H 0%nat (Z.to_nat NPROC) (procs s) ltac:(lia) Hlen).
  replace (set_procs (procs s) s) with s in H by (by destruct s).
  rewrite H. done.
Qed.
End rules.

Lemma wp_ret_eq {S A} (m : M S A) a x s :
  wp m (fun b s' => b = a /\ s' = x) s -> m s = Ret a x.
Proof. intros (b & s' & E & -> & ->)%wp_run. exact E. Qed.

(** ** Waking and killing *)

Section waking.
Context {F : Type}.
Implicit Types (s : kst F) (hl : list lockid).

(** What [wakeup(c)] called by [me] does to entry [i]. *)
Definition woken (c : chan_t) (me : procptr) (i : nat) (p : proc) : proc :=
  if negb (bool_decide (me = Some i)) && bool_decide (state p = SLEEPING) && bool_decide (chan p = c)
  then set_state RUNNABLE p else p.

Lemma wakeup_run c hl s :
  length (procs s) = Z.to_nat NPROC -> (forall i, LkProc i ∉ hl) ->
  wakeup c (mk_st hl s) = Ret tt (mk_st hl (set_procs (imap (woken c (cur s)) (procs s)) s)).
Proof.
  intros Hlen Hh. apply (for_each_procs _ (woken c (cur s))); [done|]. intros i ps Hps Hi.
  destruct (lookup_lt_is_Some_2 ps i) as [p Hp]; [lia|]. rewrite (alter_insert _ _ _ p Hp).
  apply wp_ret_eq. unfold myproc. wp_steps. cbn [data cur set_procs]. unfold woken at 1.
  destruct (bool_decide (cur s = Some i)) eqn:E; cbn [negb andb].
  { apply wp_ret. split; [done|]. by rewrite list_insert_id. }
  wp_step. apply wp_acquire; [apply Hh|]. cbn beta. wp_step.
  apply (wp_get_proc i p); [done|]. wp_step. apply wp_when; intros Hc; rewrite Hc.
  - apply (wp_upd_proc i p); [done|]. apply wp_release_head; [apply Hh|]. done.
  - apply wp_release_head; [apply Hh|]. split; [done|]. by rewrite list_insert_id.
Qed.
End waking.

(** ** Freeing a process *)

Section freeing.
Context {img : Image} {F : Type}.
Implicit Types (s : kst F) (m : pmem) (l X : list Z) (hl : list lockid).

(** From [m] to [m'] exactly the pages [X] were freed; the other pages in use
    are untouched. *)
Record pfreed m l X m' l' : Prop := {
  pf_free : free_inv m' l';
  pf_list : l' ≡ₚ X ++ l;
  pf_frame b : in_use m l b -> b ∉ X -> in_use m' l' b /\ mem m' !! b = mem m !! b
}.

Lemma pfreed_nil m l : free_inv m l -> pfreed m l [] m l.
Proof. intros Hf. by split. Qed.

Lemma pfreed_app m l X1 m1 l1 X2 m2 l2 :
  pfreed m l X1 m1 l1 -> pfreed m1 l1 X2 m2 l2 -> pfreed m l (X2 ++ X1) m2 l2.
Proof.
  intros [_ Hl1 Hf1] [Hi Hl2 Hf2]. split; [done|by rewrite Hl2, Hl1, app_assoc|].
  intros b Hu [Hb2 Hb1]%not_elem_of_app. destruct (Hf1 b Hu Hb1) as [Hu1 Hm1].
  destruct (Hf2 b Hu1 Hb2) as [Hu2 Hm2]. split; [done|congruence].
Qed.

(** A page pointer that may be NULL, as the pages it owns. *)
Definition nz (a : Z) : list Z := if a =? 0 then [] else [a].

(** [if(a) kfree(a);] *)
Lemma wp_kfree_nz a hl s l (Q : unit -> st (kst F) -> Prop) :
  free_inv (pm s) l -> LkKmem ∉ hl -> (forall b, b ∈ nz a -> in_use (pm s) l b) ->
  (forall m' l', pfreed (pm s) l (nz a) m' l' -> Q tt (mk_st hl (set_pm m' s))) ->
  wp (when (negb (a =? 0)) (mem_op (kfree a))) Q (mk_st hl s).
Proof.
  intros Hf Hh Hu HQ. unfold nz in *. apply wp_when; intros Hc.
  - destruct (a =? 0); [done|]. destruct (Hu a) as [[pg Hpg] Hl]; [by left|].
    apply wp_mem_op. eapply kfree_spec; [done|done|by eapply fi_pages|done|].
    intros m' Hf' Hu'. apply (HQ m' (a :: l)). split; [done|done|].
    intros b Hb Hne. rewrite list_elem_of_singleton in Hne. split; [by apply Hu'|].
    by apply lookup_insert_ne.
  - destruct (a =? 0); [|done].
    assert (s = set_pm (pm s) s) as Hs by (by destruct s). rewrite Hs at 1.
    apply (HQ (pm s) l). by apply pfreed_nil.
Qed.

(** The pages a process owns, besides its address space. *)
Definition thread_pages (ts : list thread) : list Z := ts ≫= (fun t => nz (t_trapframe t)).

(** The address space of [p], with its table pages [T] and user pages [U]. *)
Definition owns_space m l (p : proc) (T U : list Z) : Prop :=
  pagetable p = 0 /\ T = [] /\ U = [] \/
  pagetable p <> 0 /\ exists tbl n, space m l (pagetable p) tbl (trapframe_ptr p) n /\
    page_ok (trapframe_ptr p) /\ 0 <= sz p /\ (Z.of_nat n - 1) * PGSIZE < sz p <= Z.of_nat n * PGSIZE /\
    NoDup T /\ (forall b, b ∈ T <-> is_table tbl b) /\ U = frames (pte_of m tbl) 0 n.

Definition own_pages (p : proc) (T U : list Z) : list Z :=
  nz (trapframe_ptr p) ++ nz (usage_time p) ++ thread_pages (threads p) ++ T ++ U.

Record owned m l (p : proc) (T U : list Z) : Prop := {
  ow_space : owns_space m l p T U;
  ow_nodup : NoDup (own_pages p T U);
  ow_use b : b ∈ own_pages p T U -> in_use m l b
}.

Lemma space_frame m l m' l' root tbl tf n :
  space m l root tbl tf n ->
  (forall b, is_table tbl b \/ b ∈ frames (pte_of m tbl) 0 n -> in_use m' l' b /\ mem m' !! b = mem m !! b) ->
  space m' l' root tbl tf n /\ forall va, pte_of m' tbl va = pte_of m tbl va.
Proof.
  intros [Hp Htr Htf Hb Hus Hre Hnd How] Hm.
  assert (forall va, pte_of m' tbl va = pte_of m tbl va) as Hpte
    by (intros; apply pte_of_frame; intros; apply Hm; by left).
  assert (frames (pte_of m' tbl) 0 n = frames (pte_of m tbl) 0 n) as HF.
  { apply frames_ext; [lia| |done]. destruct layout_consts as (-> & _ & Ef). lia. }
  split; [|done]. split; rewrite ?Hpte; try done.
  - eapply pt_inv_frame; [done|]. intros; apply Hm; by left.
  - intros x Hx. rewrite Hpte. auto.
  - intros x Hx. rewrite Hpte. auto.
  - by rewrite HF.
  - rewrite HF. intros pa Hpa. split; [apply Hm; by right|by apply How].
Qed.

(** The loop over the threads frees their trapframes. *)
Definition free_thread : thread := mk_thread THREAD_FREE 0 0 0.

Lemma freethread_loop i k ts0 ts p hl s l (Q : unit -> st (kst F) -> Prop) :
  procs s !! i = Some p -> threads p = ts0 ++ ts -> length ts0 = k ->
  free_inv (pm s) l -> LkKmem ∉ hl -> NoDup (thread_pages ts) ->
  (forall b, b ∈ thread_pages ts -> in_use (pm s) l b) ->
  (forall m' l', pfreed (pm s) l (thread_pages ts) m' l' ->
     Q tt (mk_st hl (set_procs (<[i := set_threads (ts0 ++ replicate (length ts) free_thread) p]> (procs s))
                      (set_pm m' s)))) ->
  wp (for_each (seq k (length ts)) (fun t => freethread i t)) Q (mk_st hl s).
Proof.
  revert k ts0 p s l Q. induction ts as [|t ts IH]; intros k ts0 p s l Q Hp Hts Hk Hf Hh Hnd Hu HQ; cbn.
  - apply wp_ret. specialize (HQ (pm s) l (pfreed_nil _ _ Hf)). cbn in HQ.
    rewrite app_nil_r in *. subst ts0.
    assert (set_threads (threads p) p = p) as E by (by destruct p).
    rewrite E, list_insert_id in HQ by done.
    assert (set_procs (procs s) (set_pm (pm s) s) = s) as E2 by (by destruct s).
    by rewrite E2 in HQ.
  - cbn in Hnd, Hu. apply NoDup_app in Hnd as (Hnd1 & Hnd12 & Hnd2).
    assert (threads p !! k = Some t) as Ht by (rewrite Hts, lookup_app_r, Hk, Nat.sub_diag by lia; done).
    unfold freethread, get_thread at 1. wp_steps. apply (wp_get_proc i p); [done|].
    eapply wp_deref; [exact Ht|]. wp_step.
    eapply wp_kfree_nz; [done|done|intros; apply Hu, elem_of_app; by left|].
    intros m1 l1 [Hf1 Hl1 Hfr1]. unfold upd_thread. apply (wp_upd_proc i p); [done|].
    rewrite (alter_insert _ _ _ t Ht). fold free_thread.
    assert (<[k := free_thread]> (threads p) = (ts0 ++ [free_thread]) ++ ts) as Ets.
    { rewrite Hts, insert_app_r_alt, Hk, Nat.sub_diag by lia. cbn. by rewrite <- app_assoc. }
    rewrite Ets.
    assert (forall b, b ∈ thread_pages ts -> in_use m1 l1 b) as Hu1.
    { intros b Hb. apply Hfr1; [apply Hu, elem_of_app; by right|]. intros Hb'. by apply (Hnd12 b). }
    eapply (IH (S k) (ts0 ++ [free_thread]) (set_threads ((ts0 ++ [free_thread]) ++ ts) p) _ l1).
    + cbn. apply list_lookup_insert_eq. by eapply lookup_lt_Some.
    + done.
    + rewrite length_app. cbn. lia.
    + exact Hf1.
    + done.
    + done.
    + exact Hu1.
    + intros m2 l2 Hpf2. cbn [set_procs set_pm pm procs] in *.
      pose proof (pfreed_app _ _ _ _ _ _ _ _ (Build_pfreed _ _ _ _ _ Hf1 Hl1 Hfr1) Hpf2) as Hpf.
      rewrite list_insert_insert_eq. specialize (HQ m2 l2). rewrite <- app_assoc. cbn. apply HQ.
      destruct Hpf as [? Hl Hfr]. split; [done|by rewrite Hl, (Permutation_app_comm (thread_pages ts))|].
      intros b Hb Hnb. apply Hfr; [done|]. cbn in Hnb. rewrite elem_of_app in *. tauto.
Qed.

Definition freed_proc (p : proc) : proc :=
  mk_proc UNUSED ChNull 0 0 0 None (kstack p) 0 0 0 (ctx p) (ofile p) (cwd p)
    (<[0%nat := 0]> (name p)) (replicate MAX_THREAD free_thread) None 0.

Lemma pfreed_perm m l X Y m' l' : X ≡ₚ Y -> pfreed m l X m' l' -> pfreed m l Y m' l'.
Proof.
  intros Hp [Hf Hl Hfr]. split; [done|by rewrite Hl, Hp|].
  intros b Hu Hb. apply Hfr; [done|by rewrite Hp].
Qed.

(** [if(p->pagetable) proc_freepagetable(p->pagetable, p->sz);] after pages
    [X] were freed. *)
Lemma wp_free_space m l X m1 l1 hl (p : proc) T U s (Q : unit -> st (kst F) -> Prop) :
  owns_space m l p T U -> pfreed m l X m1 l1 -> pm s = m1 -> LkKmem ∉ hl ->
  (forall b, b ∈ T ++ U -> in_use m l b /\ b ∉ X) ->
  (forall m' l', pfreed m1 l1 (T ++ U) m' l' -> Q tt (mk_st hl (set_pm m' s))) ->
  wp (when (negb (pagetable p =? 0)) (mem_op (proc_freepagetable (pagetable p) (sz p)))) Q (mk_st hl s).
Proof.
  intros Hsp Hpf Hpm Hh Hd HQ. apply wp_when; intros Hc.
  - destruct Hsp as [[Hz _]|(Hnz & tbl & n & Hspc & Hok & Hsz0 & Hsz & HTn & HTe & ->)].
    { rewrite Hz in Hc. done. }
    destruct (space_frame m l m1 l1 _ _ _ _ Hspc) as [Hspc1 Hpte].
    { intros b Hb. apply Hpf; [apply Hd|apply Hd]; apply elem_of_app; rewrite HTe; tauto. }
    assert (frames (pte_of m1 tbl) 0 n = frames (pte_of m tbl) 0 n) as HF.
    { apply frames_ext; [lia| |done]. destruct layout_consts as (-> & _ & Ef).
      pose proof (sp_bound _ _ _ _ _ _ Hspc). lia. }
    apply wp_mem_op. rewrite Hpm. eapply wp_mono;
      [apply (proc_freepagetable_spec n m1 l1 hl _ tbl _ _ (pf_free _ _ _ _ _ Hpf) Hspc1 Hh Hok Hsz0 Hsz)|].
    intros [] st' (m' & T' & -> & HT'n & HT'e & Hf' & Hfr'). rewrite HF in *. cbn.
    eapply HQ. assert (T' ≡ₚ T) as HTT by (apply NoDup_Permutation; [done|done|]; intros; by rewrite HT'e, HTe).
    split; [exact Hf'| |].
    + rewrite !reverse_Permutation, HTT. by rewrite app_assoc.
    + intros b Hu Hb. rewrite elem_of_app in Hb. assert (b ∉ T') as HbT' by (rewrite HTT; tauto).
      assert (mem m' !! b = mem m1 !! b) as Hm by (apply Hfr'; tauto).
      split; [|done]. destruct Hu as [Hs Hl]. split; [by rewrite Hm|].
      rewrite !elem_of_app, !elem_of_reverse. tauto.
  - apply negb_false_iff, Z.eqb_eq in Hc. destruct Hsp as [(_ & -> & ->)|[? _]]; [|done].
    specialize (HQ m1 l1 (pfreed_nil _ _ (pf_free _ _ _ _ _ Hpf))). subst m1.
    by assert (set_pm (pm s) s = s) as E by (by destruct s); rewrite E in HQ.
Qed.

Lemma perm_rot (A B C D : list Z) : C ++ D ++ B ++ A ≡ₚ A ++ B ++ C ++ D.
Proof.
  rewrite (app_assoc C D), (Permutation_app_comm (C ++ D)), (Permutation_app_comm B A).
  by rewrite <- app_assoc.
Qed.

Lemma freeproc_spec i p hl s l T U (Q : unit -> st (kst F) -> Prop) :
  procs s !! i = Some p -> length (threads p) = MAX_THREAD ->
  free_inv (pm s) l -> LkKmem ∉ hl -> owned (pm s) l p T U ->
  (forall m' l', pfreed (pm s) l (own_pages p T U) m' l' ->
     Q tt (mk_st hl (set_procs (<[i := freed_proc p]> (procs s)) (set_pm m' s)))) ->
  wp (freeproc i) Q (mk_st hl s).
Proof.
  intros Hp Hlt Hf Hh [Hsp Hnd Hu] HQ. unfold own_pages in *.
  pose proof (lookup_lt_Some _ _ _ Hp) as Hi.
  apply NoDup_app in Hnd as (Hnd1 & Hd1 & Hnd). apply NoDup_app in Hnd as (Hnd2 & Hd2 & Hnd).
  apply NoDup_app in Hnd as (Hnd3 & Hd3 & Hnd4).
  unfold freeproc. wp_step. apply (wp_get_proc i p); [done|]. wp_step.
  eapply wp_kfree_nz; [done|done|intros; apply Hu, elem_of_app; by left|].
  intros m1 l1 Hpf1. cbn beta. wp_step. apply (wp_upd_proc i p); [done|]. cbn beta. wp_step.
  eapply (wp_kfree_nz _ _ _ l1); [apply Hpf1|done| |].
  { intros b Hb. apply Hpf1; [apply Hu; rewrite !elem_of_app; tauto|].
    intros Hb'. apply (Hd1 b Hb'). rewrite elem_of_app. by left. }
  intros m2 l2 Hpf2. pose proof (pfreed_app _ _ _ _ _ _ _ _ Hpf1 Hpf2) as Hpf12. cbn beta. wp_step.
  eapply wp_upd_proc; [cbn; by apply list_lookup_insert_eq|]. cbn beta. wp_step.
  eapply (wp_free_space (pm s) l _ m2 l2 hl p T U); [done|exact Hpf12|done|done| |].
  { intros b Hb. split; [apply Hu; rewrite !elem_of_app in *; tauto|].
    rewrite elem_of_app. intros [Hb'|Hb'].
    - apply (Hd2 b Hb'). rewrite elem_of_app. by right.
    - apply (Hd1 b Hb'). rewrite !elem_of_app in *. tauto. }
  intros m3 l3 Hpf3. pose proof (pfreed_app _ _ _ _ _ _ _ _ Hpf12 Hpf3) as Hpf123. cbn beta. wp_step.
  eapply wp_upd_proc; [cbn; apply list_lookup_insert_eq; by rewrite length_insert|]. cbn beta.
  rewrite <- Hlt. cbn [set_procs set_pm procs pm].
  eapply (freethread_loop i 0 [] (threads p) _ hl _ l3).
  - cbn. apply list_lookup_insert_eq. by rewrite !length_insert.
  - done.
  - done.
  - apply Hpf123.
  - done.
  - done.
  - intros b Hb. cbn. apply Hpf123; [apply Hu; rewrite !elem_of_app; tauto|].
    rewrite !elem_of_app. intros [[Hb'|Hb']|[Hb'|Hb']].
    + apply (Hd3 b Hb). rewrite elem_of_app. by left.
    + apply (Hd3 b Hb). rewrite elem_of_app. by right.
    + apply (Hd2 b Hb'). rewrite elem_of_app. by left.
    + apply (Hd1 b Hb'). rewrite !elem_of_app. by right; left.
  - intros m4 l4 Hpf4. cbn [set_procs set_pm procs pm] in *. rewrite !list_insert_insert_eq.
    pose proof (pfreed_app _ _ _ _ _ _ _ _ Hpf123 Hpf4) as Hpf.
    specialize (HQ m4 l4). rewrite Hlt. apply HQ. eapply pfreed_perm; [|exact Hpf].
    apply perm_rot.
Qed.
End freeing.

(** ** Allocating a process *)

Section allocating.
Context {img : Image} {F : Type}.
Implicit Types (s : kst F) (m : pmem) (l X : list Z) (hl : list lockid).

(** A slot that is not in use holds no page. *)
Definition slot_clean (p : proc) : Prop :=
  trapframe_ptr p = 0 /\ usage_time p = 0 /\ pagetable p = 0 /\ sz p = 0 /\
  length (threads p) = MAX_THREAD /\ thread_pages (threads p) = [].

Lemma find_unused hl s :
  length (procs s) = Z.to_nat NPROC -> (forall i, LkProc i ∉ hl) ->
  wp (for_find all_procs (fun i =>
        acquire (LkProc i) ;;
        p <- get_proc i ;;
        if bool_decide (state p = UNUSED) then ret (Some i)
        else release (LkProc i) ;; ret None))
    (fun r st' => match r with
       | None => st' = mk_st hl s /\ forall j p, procs s !! j = Some p -> state p <> UNUSED
       | Some i => st' = mk_st (LkProc i :: hl) s /\
           (exists p, procs s !! i = Some p /\ state p = UNUSED) /\
           forall j p, (j < i)%nat -> procs s !! j = Some p -> state p <> UNUSED
       end) (mk_st hl s).
Proof.
  intros Hlen Hh. apply (wp_for_find (fun rest st' => st' = mk_st hl s /\
    exists k, rest = seq k (Z.to_nat NPROC - k) /\ (k <= Z.to_nat NPROC)%nat /\
      forall j p, (j < k)%nat -> procs s !! j = Some p -> state p <> UNUSED)).
  - split; [done|]. exists 0%nat. split_and!; [done|lia|]. intros. lia.
  - intros i rest st' (-> & k & Hrest & Hk & Hbelow).
    destruct (Z.to_nat NPROC - k)%nat as [|n] eqn:En; [done|]. injection Hrest as -> ->.
    destruct (lookup_lt_is_Some_2 (procs s) k) as [p Hp]; [lia|].
    wp_step. apply wp_acquire; [apply Hh|]. cbn beta. wp_step. apply (wp_get_proc k p); [done|].
    destruct (bool_decide_reflect (state p = UNUSED)) as [Hun|Hun].
    + apply wp_ret. split_and!; [done|by exists p|done].
    + wp_step. apply wp_release_head; [apply Hh|]. apply wp_ret. split; [done|].
      exists (S k). split_and!; [f_equal; lia|lia|]. intros j p' Hj Hp'.
      destruct (decide (j = k)) as [->|]; [congruence|]. apply (Hbelow j); [lia|done].
  - intros st' (-> & k & Hrest & Hk & Hbelow). split; [done|]. intros j p Hp.
    assert (k = Z.to_nat NPROC) as -> by (destruct (Z.to_nat NPROC - k)%nat eqn:E; [lia|done]).
    apply (Hbelow j); [|done]. rewrite <- Hlen. by eapply lookup_lt_Some.
Qed.

(** What [allocproc] may have put into slot [i] when it gives up. *)
Lemma allocproc_fail_spec i p hl s l (Q : option nat -> st (kst F) -> Prop) :
  procs s !! i = Some p -> length (threads p) = MAX_THREAD -> thread_pages (threads p) = [] ->
  pagetable p = 0 -> LkProc i ∉ hl -> LkKmem ∉ hl -> free_inv (pm s) l ->
  NoDup (nz (trapframe_ptr p) ++ nz (usage_time p)) ->
  (forall b, b ∈ nz (trapframe_ptr p) ++ nz (usage_time p) -> in_use (pm s) l b) ->
  (forall m' l', pfreed (pm s) l (nz (trapframe_ptr p) ++ nz (usage_time p)) m' l' ->
     Q None (mk_st hl (set_procs (<[i := freed_proc p]> (procs s)) (set_pm m' s)))) ->
  wp (allocproc_fail i) Q (mk_st (LkProc i :: hl) s).
Proof.
  intros Hp Hlt Htp Hpt Hh Hk Hf Hnd Hu HQ.
  assert (own_pages p [] [] = nz (trapframe_ptr p) ++ nz (usage_time p)) as Eo.
  { unfold own_pages. rewrite Htp. cbn. by rewrite app_nil_r. }
  unfold allocproc_fail. wp_step. eapply (freeproc_spec i p _ s l [] []); [done|done|done| | |].
  - apply not_elem_of_cons. done.
  - split; rewrite ?Eo; [by left|done|done].
  - intros m' l' Hpf. rewrite Eo in Hpf. cbn beta. wp_step. apply wp_release_head; [done|].
    apply wp_ret. by eapply HQ.
Qed.

(** The process [allocproc] returns, in the slot of [p]. *)
Definition new_proc (p : proc) (pid tf us pt : Z) : proc :=
  mk_proc USED (chan p) (killed_flag p) (xstate p) pid (parent p) (kstack p) (sz p) pt tf
    (mk_context PcForkret (u64 (kstack p + PGSIZE)) (replicate 12 0)) (ofile p) (cwd p) (name p)
    (threads p) None us.

Definition allocproc_post hl s l (r : option nat) (st' : st (kst F)) : Prop :=
  match r with
  | Some i => exists p m' l' tf us pt T,
      procs s !! i = Some p /\ state p = UNUSED /\
      (forall j x, (j < i)%nat -> procs s !! j = Some x -> state x <> UNUSED) /\
      let np := new_proc p (nextpid s) tf us pt in
      st' = mk_st (LkProc i :: hl)
        (set_nextpid (i32 (nextpid s + 1)) (set_pm m' (set_procs (<[i := np]> (procs s)) s))) /\
      free_inv m' l' /\ owned m' l' np T [] /\ l ≡ₚ own_pages np T [] ++ l' /\
      pt <> 0 /\ mem m' !! us = Some (PgUsage (mk_usage 0 0 MAX_UINT 0 MAX_UINT)) /\
      (forall b, in_use (pm s) l b -> in_use m' l' b /\ mem m' !! b = mem (pm s) !! b)
  | None =>
      (st' = mk_st hl s /\ forall j p, procs s !! j = Some p -> state p <> UNUSED) \/
      exists i p m' l', procs s !! i = Some p /\ state p = UNUSED /\
        st' = mk_st hl
          (set_nextpid (i32 (nextpid s + 1)) (set_pm m' (set_procs (<[i := freed_proc p]> (procs s)) s))) /\
        free_inv m' l' /\ l' ≡ₚ l /\
        (forall b, in_use (pm s) l b -> in_use m' l' b /\ mem m' !! b = mem (pm s) !! b)
  end.

Lemma wp_allocpid hl s (Q : Z -> st (kst F) -> Prop) :
  LkPid ∉ hl -> Q (nextpid s) (mk_st hl (set_nextpid (i32 (nextpid s + 1)) s)) ->
  wp allocpid Q (mk_st hl s).
Proof.
  intros Hh HQ. unfold allocpid. wp_step. apply wp_acquire; [done|]. cbn beta. wp_steps. cbn [data held].
  apply wp_release_head; [done|]. apply wp_ret. exact HQ.
Qed.

(** [kalloc] in the kernel state. *)
Lemma wp_kalloc hl s l (Q : Z -> st (kst F) -> Prop) :
  free_inv (pm s) l -> LkKmem ∉ hl ->
  (l = [] -> Q 0 (mk_st hl s)) ->
  (forall a l' m', l = a :: l' -> a <> 0 -> page_ok a -> free_inv m' l' -> in_use m' l' a ->
     mem m' !! a = Some (filled 5) ->
     (forall b, in_use (pm s) l b -> b <> a /\ in_use m' l' b /\ mem m' !! b = mem (pm s) !! b) ->
     Q a (mk_st hl (set_pm m' s))) ->
  wp (mem_op kalloc) Q (mk_st hl s).
Proof.
  intros Hf Hh Hnil Hcons. apply wp_mem_op. eapply kalloc_spec; [done|done| |].
  - intros ->. assert (set_pm (pm s) s = s) as E by (by destruct s). cbn. rewrite E. auto.
  - intros a l' n -> Hrun Hok m' Hf' Hu' Hfr. apply (Hcons a l' m'); try done.
    + by apply page_ok_nonzero.
    + apply lookup_insert_eq.
    + intros b Hb. destruct (Hfr b Hb) as [Hne Hub]. split_and!; [done|done|].
      by apply lookup_insert_ne.
Qed.

(** The tables of a fresh tree, as the pages that left the free list. *)
Lemma fresh_tree_tables m l r f m' l' tbl :
  free_inv m l -> fresh_tree m l r f m' l' tbl ->
  exists T, NoDup T /\ (forall b, b ∈ T <-> is_table tbl b) /\ l ≡ₚ T ++ l'.
Proof.
  intros Hf [Hf' Hp Hpt Ha Hfr]. exists (filter (fun pa => pa ∉ l') l).
  assert (forall b, b ∈ filter (fun pa => pa ∉ l') l <-> is_table tbl b) as HT.
  { intros b. rewrite list_elem_of_filter, Ha. split; [tauto|]. intros Hb. split; [|by right].
    destruct Hb as [p Hb]. by destruct (table_in_use _ _ _ _ _ _ Hf' Hp Hb). }
  assert (NoDup (filter (fun pa => pa ∉ l') l)) as Hnd by (apply NoDup_filter, Hf).
  split_and!; [done|done|]. apply NoDup_Permutation; [apply Hf| |].
  - apply NoDup_app. split_and!; [done| |apply Hf']. intros b Hb.
    by apply list_elem_of_filter in Hb as [? _].
  - intros b. rewrite elem_of_app, HT, Ha. tauto.
Qed.

(** The end of [allocproc]: the page table, once both pages are there. *)
Lemma allocproc_pagetable hl s l i p m3 l2 tf us (s3 : kst F) (p3 : proc) :
  LkPid ∉ hl -> LkKmem ∉ hl -> LkProc i ∉ hl ->
  procs s !! i = Some p -> state p = UNUSED -> slot_clean p ->
  (forall j x, (j < i)%nat -> procs s !! j = Some x -> state x <> UNUSED) ->
  l = tf :: us :: l2 -> NoDup l -> tf <> 0 -> us <> 0 -> page_ok tf ->
  free_inv m3 l2 -> in_use m3 l2 tf -> in_use m3 l2 us ->
  mem m3 !! us = Some (PgUsage (mk_usage 0 0 MAX_UINT 0 MAX_UINT)) ->
  (forall b, in_use (pm s) l b -> in_use m3 l2 b /\ mem m3 !! b = mem (pm s) !! b) ->
  p3 = set_usage_time us (set_trapframe tf (set_state USED (set_pid (nextpid s) p))) ->
  s3 = set_nextpid (i32 (nextpid s + 1)) (set_pm m3 (set_procs (<[i := p3]> (procs s)) s)) ->
  wp (pt <- mem_op (proc_pagetable tf) ;;
      upd_proc i (set_pagetable pt) ;;
      if pt =? 0 then allocproc_fail i
      else
        upd_proc i (fun p => set_current_thread None
          (set_ctx (mk_context PcForkret (u64 (kstack p + PGSIZE)) (replicate 12 0)) p)) ;;
        ret (Some i))
    (allocproc_post hl s l) (mk_st (LkProc i :: hl) s3).
Proof.
  intros Hhp Hhk Hhi Hp Hun (Ht0 & Hu0 & Hpt0 & Hsz0 & Hlt & Htp) Hbelow -> Hndl Htf0 Hus0 Hok Hf Htfu Husu Husm Hfr -> ->.
  pose proof (lookup_lt_Some _ _ _ Hp) as Hi.
  apply NoDup_cons in Hndl as [Htfl Hndl]. apply NoDup_cons in Hndl as [Husl Hndl].
  apply not_elem_of_cons in Htfl as [Htfus Htfl].
  assert (nz tf = [tf] /\ nz us = [us]) as [Etf Eus]
    by (unfold nz; by rewrite (proj2 (Z.eqb_neq _ _) Htf0), (proj2 (Z.eqb_neq _ _) Hus0)).
  wp_step. apply wp_mem_op. eapply proc_pagetable_spec; [exact Hf|by apply not_elem_of_cons|done| |].
  - intros m4 l4 Hf4 Hl4 Hfr4. cbn beta. wp_step.
    eapply wp_upd_proc; [cbn; by apply list_lookup_insert_eq|]. cbn.
    eapply (allocproc_fail_spec i _ hl _ l4).
    + cbn. apply list_lookup_insert_eq. by rewrite length_insert.
    + done.
    + done.
    + done.
    + done.
    + done.
    + done.
    + cbn. rewrite Etf, Eus. apply NoDup_cons. split; [by rewrite list_elem_of_singleton|apply NoDup_singleton].
    + cbn. rewrite Etf, Eus. intros b [->|[->|[]%not_elem_of_nil]%elem_of_cons]%elem_of_cons; by apply Hfr4.
    + cbn. rewrite Etf, Eus. intros m5 l5 [Hf5 Hl5 Hfr5]. right.
      exists i, p, m5, l5. split_and!; [done|done| |done| |].
      * rewrite !list_insert_insert_eq. by destruct s.
      * by rewrite Hl5, Hl4.
      * intros b Hb. destruct (Hfr b Hb) as [Hb3 Hm3]. destruct (Hfr4 b Hb3) as [Hb4 Hm4].
        destruct Hb as [_ [Hbtf [Hbus _]%not_elem_of_cons]%not_elem_of_cons].
        destruct (Hfr5 b Hb4) as [Hb5 Hm5];
          [|split; [done|]; etrans; [exact Hm5|]; etrans; [exact Hm4|exact Hm3]].
        apply not_elem_of_cons. split; [done|]. by rewrite list_elem_of_singleton.
  - intros pt m4 l4 tbl Hpt Hft. cbn beta. wp_step.
    eapply wp_upd_proc; [cbn; by apply list_lookup_insert_eq|]. cbn.
    rewrite (proj2 (Z.eqb_neq _ _) Hpt). wp_step.
    eapply wp_upd_proc; [cbn; apply list_lookup_insert_eq; by rewrite length_insert|]. apply wp_ret. cbn.
    destruct (fresh_tree_tables _ _ _ _ _ _ _ Hf Hft) as (T & HTn & HTe & Hperm).
    assert (forall b, b ∈ T -> b ∈ l2) as HTl by (intros b Hb; rewrite Hperm, elem_of_app; by left).
    assert (own_pages (new_proc p (nextpid s) tf us pt) T [] = tf :: us :: T) as Eo.
    { unfold own_pages. cbn [new_proc trapframe_ptr usage_time threads].
      rewrite Htp, Etf, Eus, app_nil_r. done. }
    exists p, m4, l4, tf, us, pt, T. split_and!; [done|done|done| |apply Hft| | |done| |].
    + rewrite !list_insert_insert_eq. by destruct s.
    + split; [|rewrite Eo; apply NoDup_cons; split|].
      * right. split; [done|]. exists tbl, 0%nat. cbn [new_proc sz pagetable trapframe_ptr]. rewrite Hsz0.
        split_and!; [by eapply fresh_tree_space|done|lia|unfold PGSIZE; lia|unfold PGSIZE; lia|done|done|done].
      * apply not_elem_of_cons. split; [done|]. intros ?%HTl. done.
      * apply NoDup_cons. split; [by intros ?%HTl|done].
      * rewrite Eo. intros b [->|[->|Hb]%elem_of_cons]%elem_of_cons; [by apply (ft_frame _ _ _ _ _ _ _ Hft)..|].
        apply HTe in Hb as [q0 Hb]. eapply table_in_use; [apply Hft|apply Hft|done].
    + rewrite Eo. cbn. by rewrite Hperm.
    + destruct (ft_frame _ _ _ _ _ _ _ Hft us Husu) as (_ & _ & ->). done.
    + intros b Hb. destruct (Hfr b Hb) as [Hb3 Hm3].
      destruct (ft_frame _ _ _ _ _ _ _ Hft b Hb3) as (? & _ & Hm4).
      split; [done|]. etrans; [exact Hm4|exact Hm3].
Qed.

(** Giving up before any page table exists. *)
Lemma allocproc_early_fail hl s l i p tf m1 l1 (s1 : kst F) :
  LkKmem ∉ hl -> LkProc i ∉ hl ->
  procs s !! i = Some p -> state p = UNUSED -> slot_clean p ->
  free_inv m1 l1 -> l = nz tf ++ l1 -> (forall b, b ∈ nz tf -> in_use m1 l1 b) ->
  (forall b, in_use (pm s) l b -> (b ∉ nz tf) /\ in_use m1 l1 b /\ mem m1 !! b = mem (pm s) !! b) ->
  s1 = set_nextpid (i32 (nextpid s + 1)) (set_pm m1 (set_procs
         (<[i := set_usage_time 0 (set_trapframe tf (set_state USED (set_pid (nextpid s) p)))]> (procs s)) s)) ->
  wp (allocproc_fail i) (allocproc_post hl s l) (mk_st (LkProc i :: hl) s1).
Proof.
  intros Hhk Hhi Hp Hun (Ht0 & Hu0 & Hpt0 & Hsz0 & Hlt & Htp) Hf Hl Htf Hfr ->.
  pose proof (lookup_lt_Some _ _ _ Hp) as Hi.
  eapply (allocproc_fail_spec i _ hl _ l1).
  - cbn. by apply list_lookup_insert_eq.
  - done.
  - done.
  - done.
  - done.
  - done.
  - done.
  - cbn [trapframe_ptr usage_time set_usage_time set_trapframe]. rewrite app_nil_r. unfold nz.
    destruct (tf =? 0); [constructor|apply NoDup_singleton].
  - cbn [trapframe_ptr usage_time set_usage_time set_trapframe]. rewrite app_nil_r. done.
  - cbn [trapframe_ptr usage_time set_usage_time set_trapframe]. rewrite app_nil_r.
    intros m' l' [Hf' Hl' Hfr']. right. exists i, p, m', l'. split_and!; [done|done| |done| |].
    + cbn. rewrite list_insert_insert_eq. by destruct s.
    + by rewrite Hl', Hl.
    + intros b Hb. destruct (Hfr b Hb) as (Hb1 & Hb2 & Hm). destruct (Hfr' b Hb2 Hb1) as [? Hm'].
      split; [done|]. etrans; [exact Hm'|exact Hm].
Qed.

Lemma allocproc_spec hl s l :
  length (procs s) = Z.to_nat NPROC -> (forall i, LkProc i ∉ hl) -> LkPid ∉ hl -> LkKmem ∉ hl ->
  free_inv (pm s) l ->
  (forall i p, procs s !! i = Some p -> state p = UNUSED -> slot_clean p) ->
  wp allocproc (allocproc_post hl s l) (mk_st hl s).
Proof.
  intros Hlen Hh Hhp Hhk Hf Hclean. unfold allocproc. wp_step.
  eapply wp_mono; [by apply find_unused|].
  intros [i|] st' H; cbv match in *; [|destruct H as [-> H]; apply wp_ret; left; done].
  destruct H as (-> & (p & Hp & Hun) & Hbelow). pose proof (lookup_lt_Some _ _ _ Hp) as Hi.
  pose proof (Hclean i p Hp Hun) as Hcl. pose proof Hcl as (Ht0 & Hu0 & Hpt0 & Hsz0 & Hlt & Htp).
  assert (LkPid ∉ LkProc i :: hl) by (by apply not_elem_of_cons).
  assert (LkKmem ∉ LkProc i :: hl) by (by apply not_elem_of_cons).
  wp_step. apply wp_allocpid; [done|]. wp_step. apply (wp_upd_proc i p); [done|]. cbn beta.
  wp_step. eapply wp_kalloc; [exact Hf|done| |].
  { intros ->. cbn beta. wp_step. eapply wp_upd_proc; [cbn; by apply list_lookup_insert_eq|]. cbn.
    apply (allocproc_early_fail hl s [] i p 0 (pm s) []); try done.
    - intros b Hb. by apply not_elem_of_nil in Hb.
    - intros b Hb. split_and!; [apply not_elem_of_nil|done|done].
    - rewrite list_insert_insert_eq. destruct s; cbn. do 3 f_equal. destruct p; cbn in *; by subst. }
  intros tf l1 m1 -> Htf0 Htfok Hf1 Htfu Htfm Hfr1. cbn beta. wp_step.
  eapply wp_upd_proc; [cbn; by apply list_lookup_insert_eq|]. cbn beta.
  rewrite (proj2 (Z.eqb_neq _ _) Htf0). wp_step.
  assert (nz tf = [tf]) as Etf by (unfold nz; by rewrite (proj2 (Z.eqb_neq _ _) Htf0)).
  eapply (wp_kalloc _ _ l1); [exact Hf1|done| |].
  { intros ->. cbn beta. wp_step.
    eapply wp_upd_proc; [cbn; apply list_lookup_insert_eq; by rewrite length_insert|]. cbn.
    apply (allocproc_early_fail hl s [tf] i p tf m1 []); try done.
    - by rewrite Etf.
    - rewrite Etf. by intros b ->%list_elem_of_singleton.
    - rewrite Etf. intros b Hb. rewrite list_elem_of_singleton. by apply Hfr1.
    - rewrite !list_insert_insert_eq. by destruct s. }
  intros us l2 m2 -> Hus0 Husok Hf2 Husu Husm Hfr2. cbn beta. wp_step.
  eapply wp_upd_proc; [cbn; apply list_lookup_insert_eq; by rewrite length_insert|]. cbn beta.
  rewrite (proj2 (Z.eqb_neq _ _) Hus0). wp_step. apply wp_mem_op. unfold store_usage. wp_step.
  eapply wp_deref; [exact Husm|]. apply wp_modify. cbn [held data].
  destruct (Hfr2 tf Htfu) as (Htfus & Htfu2 & Htfm2).
  apply (allocproc_pagetable hl s (tf :: us :: l2) i p
    (set_page us (PgUsage (mk_usage 0 0 MAX_UINT 0 MAX_UINT)) m2) l2 tf us _
    (set_usage_time us (set_trapframe tf (set_state USED (set_pid (nextpid s) p)))));
    try done; try apply Hf.
  - by apply free_inv_write.
  - by apply in_use_write.
  - by apply in_use_write.
  - apply lookup_insert_eq.
  - intros b Hb. destruct (Hfr1 b Hb) as (Hne1 & Hb1 & Hm1). destruct (Hfr2 b Hb1) as (Hne2 & Hb2 & Hm2).
    split; [by apply in_use_write|]. cbn. rewrite lookup_insert_ne by done. etrans; [exact Hm2|exact Hm1].
  - cbn. rewrite !list_insert_insert_eq. by destruct s.
Qed.
End allocating.
