(* ===== verification/ProcLife.v ===== *)
(** * The life of a process: sleeping, exiting, waiting, forking

    [sched], [yield] and [sleep] up to and after the switch; what [exit] leaves
    in the table before it switches away for good; the three outcomes of
    [wait]; [allocproc], [freeproc] and [fork]. *)

From S2P Require Import Prelude Spinlock Riscv Kalloc Vm VmProofs VmSpace VmFree Queue PriorityQueue KString Proc ProcMem ProcProofs.

(** ** Running up to a switch *)

Lemma bind_ret {S A B} (m : M S A) (f : A -> M S B) s a s' :
  m s = Ret a s' -> bind m f s = f a s'.
Proof. unfold bind. by intros ->. Qed.

Lemma bind_swtch {S A B} (m : M S A) (f : A -> M S B) s s' k :
  m s = Swtch s' k -> bind m f s = Swtch s' (fun s'' => obind (k s'') f).
Proof. unfold bind. by intros ->. Qed.

Lemma wp_eq {S A} (m : M S A) (Q : A -> st S -> Prop) s a s' :
  m s = Ret a s' -> Q a s' -> wp m Q s.
Proof. intros. apply wp_run. eauto. Qed.

(** What a switch inside a program says about the part before it. *)
Definition no_swtch {S A} (m : M S A) : Prop := forall s s' k, m s <> Swtch s' k.

Lemma bind_swtch_inv {S A B} (m : M S A) (f : A -> M S B) s s' k :
  bind m f s = Swtch s' k -> no_swtch m -> exists a s1, m s = Ret a s1 /\ f a s1 = Swtch s' k.
Proof.
  unfold bind, no_swtch. intros H Hn. specialize (Hn s).
  destruct (m s) eqn:E; cbn in H; try done; [by eauto|]. by destruct (Hn _ _ eq_refl).
Qed.

Lemma deref_no_swtch {S A} (o : S -> option A) : no_swtch (deref o).
Proof. intros s s' k. unfold deref. by destruct (o (data s)). Qed.

Lemma deref_inv {S A} (o : S -> option A) a s s' :
  deref o s = Ret a s' -> o (data s) = Some a /\ s' = s.
Proof. unfold deref. destruct (o (data s)); [by intros [= <- <-]|done]. Qed.

(** Execute the prefix [m] of a program with the rules for [wp]. *)
Lemma bind_wp {S A B} (m : M S A) (f : A -> M S B) s (P : outcome S B -> Prop) :
  wp m (fun a s' => P (f a s')) s -> P (bind m f s).
Proof. intros (a & s' & E & HP)%wp_run. by rewrite (bind_ret _ _ _ _ _ E). Qed.

Ltac run_step :=
  cbn beta; match goal with |- bind ?m ?f ?s = ?o => apply (bind_wp m f s (fun x => x = o)) end.

Lemma wp_upd_usage a u f hl m (Q : unit -> st pmem -> Prop) :
  mem m !! a = Some (PgUsage u) -> Q tt (mk_st hl (set_page a (PgUsage (f u)) m)) ->
  wp (upd_usage a f) Q (mk_st hl m).
Proof.
  intros Hu HQ. unfold upd_usage, load_usage, store_usage.
  wp_step. eapply wp_deref; [cbn [data]; by rewrite Hu|].
  wp_step. eapply wp_deref; [exact Hu|]. apply wp_modify. exact HQ.
Qed.

Lemma upd_usage_no_swtch {F} a f : no_swtch (mem_op (upd_usage a f) : M (kst F) unit).
Proof.
  intros s s' k. unfold mem_op, zoom, upd_usage, load_usage, store_usage, bind, deref, modify.
  cbn. repeat (case_match; try done; cbn).
Qed.

Lemma upd_usage_frame {F} a f (s s' : st (kst F)) :
  mem_op (upd_usage a f) s = Ret tt s' -> exists m', s' = mk_st (held s) (set_pm m' (data s)).
Proof.
  unfold mem_op, zoom, upd_usage, load_usage, store_usage, bind, deref, modify.
  cbn. repeat (case_match; try done; cbn). intros [= <-]. eauto.
Qed.

(** Releasing the outer of two locks. *)
Lemma wp_release_under {S} a l (d : S) (Q : unit -> st S -> Prop) :
  a <> l -> Q tt (mk_st [a] d) -> wp (release l) Q (mk_st [a; l] d).
Proof.
  intros Hne HQ. apply wp_release; cbn [held data]; [right; by left|].
  unfold without. rewrite filter_cons_True, filter_cons_False; [exact HQ|by intros Hn; apply Hn|done].
Qed.

Section switching.
Context {F : Type}.
Implicit Types (s : kst F) (hl : list lockid).

Lemma wp_holding lk (Q : bool -> st (kst F) -> Prop) st0 :
  Q (bool_decide (lk ∈ held st0)) st0 -> wp (holding lk) Q st0.
Proof. done. Qed.

Lemma wp_noff (Q : Z -> st (kst F) -> Prop) st0 :
  Q (Z.of_nat (length (held st0))) st0 -> wp noff Q st0.
Proof. done. Qed.

(** The state in which [sched] switches away. *)
Definition charged (a : Z) (u : cpu_usage) s : kst F :=
  set_pm (set_page a (PgUsage (account (ticks s) u)) (pm s)) s.

Lemma sched_run i p u s :
  cur s = Some i -> procs s !! i = Some p -> state p <> RUNNING ->
  mem (pm s) !! usage_time p = Some (PgUsage u) ->
  sched (mk_st [LkProc i] s) =
    Swtch (mk_st [LkProc i] (charged (usage_time p) u s))
      (fun st' => Ret tt (mk_st (held st') (set_intr (intr s) (data st')))).
Proof.
  intros Hc Hp Hst Hu. unfold sched.
  run_step. apply (wp_my i); [done|].
  run_step. apply wp_holding. cbn [held]. rewrite bool_decide_true by (by left). cbn [negb].
  run_step. apply wp_noff. change (negb _) with false. cbn match.
  run_step. apply (wp_get_proc i p); [done|]. rewrite bool_decide_false by done.
  run_step. apply wp_run. do 2 eexists; split; [done|]. cbn [held]. cbn match.
  run_step. apply wp_gets. run_step. apply wp_gets. cbn [data].
  run_step. apply wp_mem_op, (wp_upd_usage _ u); [done|]. reflexivity.
Qed.

(** [sched] refuses to switch unless exactly the process's lock is held and
    its state has been changed. *)
Lemma sched_guards i p hl s :
  cur s = Some i -> procs s !! i = Some p ->
  (LkProc i ∉ hl -> sched (mk_st hl s) = Panic "sched p->lock") /\
  (LkProc i ∈ hl -> length hl <> 1%nat -> sched (mk_st hl s) = Panic "sched locks") /\
  (hl = [LkProc i] -> state p = RUNNING -> sched (mk_st hl s) = Panic "sched running").
Proof.
  intros Hc Hp. unfold sched.
  split_and!; intros H1; try intros H2; run_step; (apply (wp_my i); [done|]);
    run_step; apply wp_holding; cbn [held].
  - by rewrite bool_decide_false.
  - rewrite bool_decide_true by done. cbn [negb]. run_step. apply wp_noff. cbn [held].
    by rewrite (proj2 (Z.eqb_neq _ _)) by lia.
  - subst hl. rewrite bool_decide_true by (by left). cbn [negb]. run_step. apply wp_noff.
    change (negb _) with false. cbn match.
    run_step. apply (wp_get_proc i p); [done|]. by rewrite bool_decide_true.
Qed.

(** The state in which [sleep] switches away: asleep on [c], the caller's lock
    released, its own held. *)
Definition asleep (i : nat) (p : proc) (c : chan_t) s : kst F :=
  set_procs (<[i := set_state SLEEPING (set_chan c p)]> (procs s)) s.

Lemma sleep_run i p u c lk s :
  cur s = Some i -> procs s !! i = Some p -> lk <> LkProc i ->
  mem (pm s) !! usage_time p = Some (PgUsage u) ->
  exists k, sleep c lk (mk_st [lk] s) = Swtch (mk_st [LkProc i] (charged (usage_time p) u (asleep i p c s))) k /\
    forall st' p', held st' = [LkProc i] -> procs (data st') !! i = Some p' ->
      k st' = Ret tt (mk_st [lk] (set_intr (intr s)
        (set_procs (<[i := set_chan ChNull p']> (procs (data st'))) (data st')))).
Proof.
  intros Hc Hp Hlk Hu. pose proof (lookup_lt_Some _ _ _ Hp) as Hi.
  set (rest := fun (_ : unit) => upd_proc i (set_chan ChNull) ;; release (LkProc i) ;; acquire lk : M (kst F) unit).
  assert (forall (P : outcome (kst F) unit -> Prop),
    P (bind sched rest (mk_st [LkProc i] (asleep i p c s))) -> P (sleep c lk (mk_st [lk] s))) as Hpre.
  { intros P HP. unfold sleep. apply bind_wp. apply (wp_my i); [done|].
    apply bind_wp. apply wp_acquire; [intros E%list_elem_of_singleton; congruence|].
    apply bind_wp. apply wp_release_under; [congruence|].
    apply bind_wp. apply (wp_upd_proc i p); [done|]. exact HP. }
  eexists. split.
  - apply (Hpre (fun o => o = _)). apply bind_swtch.
    apply (sched_run i (set_state SLEEPING (set_chan c p))); [done| |done|done].
    by apply list_lookup_insert_eq.
  - intros st' p' Hh Hp'. cbn [obind]. rewrite Hh. unfold rest.
    apply (wp_ret_eq (upd_proc i (set_chan ChNull) ;; release (LkProc i) ;; acquire lk)).
    wp_step. eapply wp_upd_proc; [cbn; exact Hp'|]. wp_step.
    apply wp_release_head; [apply not_elem_of_nil|]. apply wp_acquire; [apply not_elem_of_nil|].
    split; [done|]. cbn. by destruct (data st').
Qed.
End switching.

(** ** Exiting *)

Section exiting.
Context {img : Image} {F : Type}.
Implicit Types (s : kst F) (hl : list lockid).

(** A child of [p] is given to [ip]. *)
Definition adopt (p : nat) (ip : procptr) (x : proc) : proc :=
  if bool_decide (parent x = Some p) then set_parent ip x else x.

(** One of the first [k] entries is a child of [p]. *)
Definition has_child (p : nat) (k : nat) (ps : list proc) : bool :=
  existsb (fun x => bool_decide (parent x = Some p)) (take k ps).

(** Entry [j] after [reparent] has dealt with the first [k] entries; [b] tells
    whether it has woken [ip]. *)
Definition reparented (p k : nat) (b : bool) (ip me : procptr) (j : nat) (x : proc) : proc :=
  let y := if (j <? k)%nat then adopt p ip x else x in
  if b then woken (chan_of ip) me j y else y.

Lemma woken_fields c me i x :
  parent (woken c me i x) = parent x /\ usage_time (woken c me i x) = usage_time x.
Proof. unfold woken. by destruct (_ && _). Qed.

Lemma woken_self c i x : woken c (Some i) i x = x.
Proof. unfold woken. by rewrite bool_decide_true. Qed.

Lemma woken_idem c me i x : woken c me i (woken c me i x) = woken c me i x.
Proof.
  unfold woken at 2 3. destruct (_ && _) eqn:E; [|by unfold woken; rewrite E].
  unfold woken. cbn [state set_state]. rewrite (bool_decide_false (RUNNABLE = _)) by done.
  by rewrite andb_false_r.
Qed.

Lemma woken_parent c me i ip x :
  woken c me i (set_parent ip x) = set_parent ip (woken c me i x).
Proof. unfold woken. cbn [state chan set_parent]. by destruct (_ && _). Qed.

Lemma reparented_parent p k b ip me j x :
  (k <= j)%nat -> parent (reparented p k b ip me j x) = parent x.
Proof.
  intros Hj. unfold reparented. rewrite (proj2 (Nat.ltb_ge j k)) by done.
  destruct b; [apply woken_fields|done].
Qed.

Lemma has_child_S p k ps x :
  ps !! k = Some x -> has_child p (S k) ps = has_child p k ps || bool_decide (parent x = Some p).
Proof.
  intros Hx. unfold has_child. rewrite (take_S_r _ _ _ Hx), existsb_app. cbn. by rewrite orb_false_r.
Qed.

Lemma reparented_S p k b ip me j x :
  j <> k \/ parent x <> Some p -> reparented p (S k) b ip me j x = reparented p k b ip me j x.
Proof.
  intros Hj. unfold reparented. destruct (Nat.ltb_spec j k), (Nat.ltb_spec j (S k)); try lia; try done.
  unfold adopt. by rewrite bool_decide_false by (destruct Hj; [lia|done]).
Qed.

(** The step of [reparent] at a child: it gets its new parent, who is woken. *)
Lemma reparented_child p k b ip me (ps : list proc) x :
  ps !! k = Some x -> parent x = Some p ->
  imap (woken (chan_of ip) me) (alter (set_parent ip) k (imap (reparented p k b ip me) ps)) =
    imap (reparented p (S k) true ip me) ps.
Proof.
  intros Hx Hpar. apply list_eq. intros j. rewrite !list_lookup_imap.
  destruct (decide (j = k)) as [->|Hne].
  - rewrite list_lookup_alter_eq, list_lookup_imap, Hx. cbn [fmap option_fmap option_map]. f_equal.
    unfold reparented. rewrite (proj2 (Nat.ltb_ge k k)), (proj2 (Nat.ltb_lt k (S k))) by lia.
    unfold adopt. rewrite bool_decide_true by done. rewrite !woken_parent. f_equal.
    destruct b; [apply woken_idem|done].
  - rewrite list_lookup_alter_ne, list_lookup_imap by done. destruct (ps !! j) as [y|]; [|done].
    cbn [fmap option_fmap option_map]. f_equal. rewrite reparented_S by (by left). unfold reparented. destruct b; [apply woken_idem|done].
Qed.

Lemma reparent_run p hl s :
  length (procs s) = Z.to_nat NPROC -> (forall i, LkProc i ∉ hl) ->
  reparent p (mk_st hl s) = Ret tt (mk_st hl (set_procs
    (imap (reparented p (length (procs s)) (has_child p (length (procs s)) (procs s)) (initproc s) (cur s)) (procs s)) s)).
Proof.
  intros Hlen Hh. apply wp_ret_eq. unfold reparent, all_procs. rewrite <- Hlen.
  set (ps := procs s) in *.
  set (at_k := fun k => imap (reparented p k (has_child p k ps) (initproc s) (cur s)) ps).
  assert (forall n k, (k + n = length ps)%nat -> forall Q : unit -> st (kst F) -> Prop,
    Q tt (mk_st hl (set_procs (at_k (length ps)) s)) ->
    wp (for_each (seq k n) (fun pp =>
          x <- get_proc pp ;;
          if bool_decide (parent x = Some p) then
            ip <- gets initproc ;; upd_proc pp (set_parent ip) ;; wakeup (chan_of ip)
          else ret tt)) Q (mk_st hl (set_procs (at_k k) s))) as H.
  { induction n as [|n IH]; intros k Hk Q HQ; cbn [seq for_each].
    { apply wp_ret. by replace k with (length ps) by lia. }
    destruct (lookup_lt_is_Some_2 ps k) as [x Hx]; [lia|].
    assert (at_k k !! k = Some (reparented p k (has_child p k ps) (initproc s) (cur s) k x)) as Hk'
      by (unfold at_k; by rewrite list_lookup_imap, Hx).
    wp_steps. eapply wp_get_proc; [exact Hk'|]. rewrite reparented_parent by done.
    pose proof (has_child_S p k ps x Hx) as Hc.
    destruct (decide (parent x = Some p)) as [Hpar|Hpar].
    - rewrite bool_decide_true by done. wp_steps. apply wp_modify. cbn [data held].
      eapply wp_eq; [apply wakeup_run; [cbn [procs set_procs]; unfold at_k; by rewrite length_alter, length_imap|done]|].
      cbn [cur set_procs procs initproc]. unfold at_k. rewrite (reparented_child p k _ _ _ ps x Hx Hpar).
      rewrite bool_decide_true, orb_true_r in Hc by done. rewrite <- Hc. apply (IH (S k)); [lia|done].
    - rewrite bool_decide_false by done. apply wp_ret.
      rewrite bool_decide_false, orb_false_r in Hc by done.
      assert (at_k k = at_k (S k)) as ->; [|apply (IH (S k)); [lia|done]].
      unfold at_k. rewrite Hc. apply imap_ext. intros j y Hy. symmetry. apply reparented_S.
      destruct (decide (j = k)) as [->|]; [right|by left]. by simplify_eq. }
  assert (at_k 0%nat = ps) as H0.
  { apply list_eq. intros j. unfold at_k. rewrite list_lookup_imap. by destruct (ps !! j). }
  specialize (H (length ps) 0%nat eq_refl (fun a x => a = tt /\ x = mk_st hl (set_procs (at_k (length ps)) s))
    (conj eq_refl eq_refl)).
  assert (set_procs ps s = s) as Hs by (unfold ps; by destruct s). rewrite H0, Hs in H. exact H.
Qed.

(** The table [exit_zombie] leaves behind: the children given away (and their
    new parent woken when there are any), the parent woken, and the process
    itself a zombie. *)
Definition exit_entry (p : nat) (pr : proc) s (j : nat) (x : proc) : proc :=
  woken (chan_of (parent (adopt p (initproc s) pr))) (cur s) j
    (reparented p (length (procs s)) (has_child p (length (procs s)) (procs s)) (initproc s) (cur s) j x).

Definition zombie (status : Z) (x : proc) : proc := set_state ZOMBIE (set_xstate status x).

Lemma exit_zombie_run p status pr u s :
  cur s = Some p -> procs s !! p = Some pr -> length (procs s) = Z.to_nat NPROC ->
  mem (pm s) !! usage_time pr = Some (PgUsage u) ->
  exists k, exit_zombie p status (mk_st [] s) =
    Swtch (mk_st [LkProc p] (charged (usage_time pr) u
      (set_procs (<[p := zombie status (adopt p (initproc s) pr)]> (imap (exit_entry p pr s) (procs s))) s))) k /\
    forall st', k st' = Panic "zombie exit".
Proof.
  intros Hc Hp Hlen Hu. pose proof (lookup_lt_Some _ _ _ Hp) as Hi.
  assert (forall c, woken c (cur s) p (adopt p (initproc s) pr) = adopt p (initproc s) pr) as Hwk
    by (intros; rewrite Hc; apply woken_self).
  assert (reparented p (length (procs s)) (has_child p (length (procs s)) (procs s)) (initproc s) (cur s) p pr =
    adopt p (initproc s) pr) as Hrep.
  { unfold reparented. rewrite (proj2 (Nat.ltb_lt _ _)) by done. by case_match. }
  eexists. split; [unfold exit_zombie|].
  - run_step. apply wp_acquire; [apply not_elem_of_nil|].
    run_step. eapply wp_eq; [apply reparent_run; [done|intros i [=]%list_elem_of_singleton]|].
    run_step. eapply wp_get_proc; [cbn; by rewrite list_lookup_imap, Hp|]. rewrite Hrep.
    run_step. eapply wp_eq; [apply wakeup_run; [cbn; by rewrite length_imap|intros i [=]%list_elem_of_singleton]|].
    run_step. apply wp_acquire; [intros [=]%list_elem_of_singleton|].
    run_step. eapply wp_upd_proc.
    { cbn. by rewrite !list_lookup_imap, Hp; cbn; rewrite Hrep, Hwk. }
    run_step. apply wp_release_under; [done|]. cbn [procs set_procs cur data].
    assert (imap (woken (chan_of (parent (adopt p (initproc s) pr))) (cur s))
      (imap (reparented p (length (procs s)) (has_child p (length (procs s)) (procs s)) (initproc s) (cur s)) (procs s)) =
      imap (exit_entry p pr s) (procs s)) as ->.
    { apply list_eq. intros j. rewrite !list_lookup_imap. by destruct (procs s !! j). }
    fold (zombie status (adopt p (initproc s) pr)).
    assert (usage_time (zombie status (adopt p (initproc s) pr)) = usage_time pr) as <-
      by (unfold adopt; by case_match).
    apply bind_swtch. eapply sched_run; [done| |done|].
    + apply list_lookup_insert_eq. by rewrite length_imap.
    + cbn [pm set_procs]. unfold adopt. by case_match.
  - done.
Qed.
End exiting.

(** ** Waiting *)

Section waiting.
Context {img : Image} {F : Type}.
Implicit Types (s : kst F) (hl : list lockid).

Definition is_child (p : nat) (x : proc) : bool := bool_decide (parent x = Some p).
Definition zombie_child (p : nat) (x : proc) : bool :=
  is_child p x && bool_decide (state x = ZOMBIE).

(** A pass over entries without a zombie child changes nothing. *)
Lemma wait_scan_skip ps k n p addr hk hl s :
  procs s = ps -> (forall i, LkProc i ∉ hl) -> (k + n <= length ps)%nat ->
  (forall i x, (k <= i < k + n)%nat -> ps !! i = Some x -> zombie_child p x = false) ->
  forall rest, wait_scan (seq k n ++ rest) p addr hk (mk_st hl s) =
    wait_scan rest p addr (hk || existsb (is_child p) (take n (drop k ps))) (mk_st hl s).
Proof.
  intros Hps Hh. subst ps. revert k hk. induction n as [|n IH]; intros k hk Hk Hz rest; cbn [seq app].
  { by rewrite orb_false_r. }
  destruct (lookup_lt_is_Some_2 (procs s) k) as [x Hx]; [lia|].
  rewrite (drop_S _ _ _ Hx). cbn [take existsb]. rewrite orb_assoc.
  assert (forall b, wait_scan (seq (S k) n ++ rest) p addr b (mk_st hl s) =
    wait_scan rest p addr (b || existsb (is_child p) (take n (drop (S k) (procs s)))) (mk_st hl s)) as IH'.
  { intros b. apply IH; [lia|]. intros i y Hi. apply Hz. lia. }
  specialize (Hz k x ltac:(lia) Hx). unfold zombie_child in Hz. rewrite <- IH'.
  cbn [wait_scan]. run_step. apply (wp_get_proc k x); [done|]. unfold is_child in *.
  destruct (bool_decide (parent x = Some p)); cbn [andb] in Hz; rewrite ?orb_true_r, ?orb_false_r; [|done].
  run_step. apply wp_acquire; [apply Hh|]. run_step. apply (wp_get_proc k x); [done|].
  rewrite Hz. run_step. apply wp_release_head; [apply Hh|]. done.
Qed.

(** The scan stops at the first zombie child and frees it. *)
Lemma wait_scan_reap z x s l T U p hk rest :
  procs s !! z = Some x -> zombie_child p x = true -> is_Some (procs s !! p) ->
  length (threads x) = MAX_THREAD -> free_inv (pm s) l -> owned (pm s) l x T U ->
  wp (wait_scan (z :: rest) p 0 hk) (fun r st' => exists m' l',
    r = (true, Some (pid x)) /\ pfreed (pm s) l (own_pages x T U) m' l' /\
    st' = mk_st [] (set_procs (<[z := freed_proc x]> (procs s)) (set_pm m' s))) (mk_st [LkWait] s).
Proof.
  intros Hx [Hc Hst]%andb_true_iff [pr Hpr] Hth Hf Ho. cbn [wait_scan].
  wp_step. apply (wp_get_proc z x); [done|]. unfold is_child in Hc. rewrite Hc.
  wp_step. apply wp_acquire; [intros [=]%list_elem_of_singleton|].
  wp_step. apply (wp_get_proc z x); [done|]. rewrite Hst.
  wp_step. apply (wp_get_proc p pr); [done|]. cbn [Z.eqb negb]. wp_step. apply wp_ret. cbn [Z.ltb Z.compare].
  wp_step. eapply freeproc_spec; [done|done|done| |exact Ho|].
  { cbn [held]. rewrite !not_elem_of_cons. split_and!; [done|done|apply not_elem_of_nil]. }
  intros m' l' Hpf. wp_step. apply wp_release_head; [intros [=]%list_elem_of_singleton|].
  wp_step. apply wp_release_head; [apply not_elem_of_nil|]. apply wp_ret. eauto.
Qed.

(** Before the scan: the caller found, [wait_lock] taken. *)
Lemma wait_enter fuel addr p s :
  cur s = Some p -> wait fuel addr (mk_st [] s) = wait_loop fuel p addr (mk_st [LkWait] s).
Proof.
  intros Hc. unfold wait. run_step. apply (wp_my p); [done|].
  run_step. apply wp_acquire; [apply not_elem_of_nil|]. done.
Qed.

Lemma wait_reap fuel p pr z x s l T U :
  cur s = Some p -> procs s !! p = Some pr -> length (procs s) = Z.to_nat NPROC ->
  procs s !! z = Some x -> zombie_child p x = true ->
  (forall i y, (i < z)%nat -> procs s !! i = Some y -> zombie_child p y = false) ->
  length (threads x) = MAX_THREAD -> free_inv (pm s) l -> owned (pm s) l x T U ->
  exists m' l', wait (S fuel) 0 (mk_st [] s) =
      Ret (pid x) (mk_st [] (set_procs (<[z := freed_proc x]> (procs s)) (set_pm m' s))) /\
    pfreed (pm s) l (own_pages x T U) m' l'.
Proof.
  intros Hc Hp Hlen Hz Hzc Hfirst Hth Hf Ho. pose proof (lookup_lt_Some _ _ _ Hz) as Hzl.
  rewrite (wait_enter _ _ p) by done. cbn [wait_loop]. unfold all_procs.
  replace (seq 0 (Z.to_nat NPROC)) with (seq 0 z ++ z :: seq (S z) (length (procs s) - S z)).
  2:{ rewrite <- Hlen. replace (z :: _) with (seq (0 + z) (S (length (procs s) - S z))) by done.
      rewrite <- seq_app. f_equal. lia. }
  match goal with |- context [wait_scan (seq 0 _ ++ ?r) _ _ _] =>
    pose proof (wait_scan_skip (procs s) 0 z p 0 false [LkWait] s eq_refl
      ltac:(intros i [=]%list_elem_of_singleton) ltac:(lia)
      ltac:(intros i y Hi; apply Hfirst; lia) r) as Hskip end.
  unfold bind at 1. rewrite Hskip.
  match goal with |- context [wait_scan (z :: ?r) p 0 ?b] =>
    destruct (proj1 (wp_run _ _ _) (wait_scan_reap z x s l T U p b r Hz Hzc ltac:(eauto) Hth Hf Ho))
      as (v & st' & E & m' & l' & -> & Hpf & ->) end.
  rewrite E. cbn [obind]. eauto.
Qed.

(** No zombie: the scan reports whether there is a child at all. *)
Lemma wait_scan_all p addr s :
  length (procs s) = Z.to_nat NPROC ->
  (forall i y, procs s !! i = Some y -> zombie_child p y = false) ->
  wait_scan all_procs p addr false (mk_st [LkWait] s) =
    Ret (existsb (is_child p) (procs s), None) (mk_st [LkWait] s).
Proof.
  intros Hlen Hz. unfold all_procs. rewrite <- Hlen.
  pose proof (wait_scan_skip (procs s) 0 (length (procs s)) p addr false [LkWait] s eq_refl
    ltac:(intros i [=]%list_elem_of_singleton) ltac:(lia)
    ltac:(intros; by eapply Hz) []) as E.
  rewrite app_nil_r, drop_0, firstn_all in E. rewrite E. done.
Qed.

Lemma wait_no_zombie fuel addr p pr u s :
  cur s = Some p -> procs s !! p = Some pr -> length (procs s) = Z.to_nat NPROC ->
  (forall i y, procs s !! i = Some y -> zombie_child p y = false) ->
  mem (pm s) !! usage_time pr = Some (PgUsage u) ->
  if existsb (is_child p) (procs s) && (killed_flag pr =? 0) then
    exists k, wait (S fuel) addr (mk_st [] s) =
      Swtch (mk_st [LkProc p] (charged (usage_time pr) u (asleep p pr (ChProc p) s))) k
  else wait (S fuel) addr (mk_st [] s) = Ret (-1) (mk_st [] s).
Proof.
  intros Hc Hp Hlen Hz Hu. rewrite (wait_enter _ _ p) by done. cbn [wait_loop].
  rewrite (bind_ret _ _ _ _ _ (wait_scan_all p addr s Hlen Hz)).
  destruct (existsb _ _) eqn:Hch; cbn [andb negb].
  - assert (killed p (mk_st [LkWait] s) = Ret (killed_flag pr) (mk_st [LkWait] s)) as Ek.
    { apply wp_ret_eq. unfold killed. wp_step. apply wp_acquire; [intros [=]%list_elem_of_singleton|].
      wp_step. apply (wp_get_proc p pr); [done|]. wp_step.
      apply wp_release_head; [intros [=]%list_elem_of_singleton|]. by apply wp_ret. }
    rewrite (bind_ret _ _ _ _ _ Ek). destruct (killed_flag pr =? 0) eqn:Ekf; cbn [negb].
    + destruct (sleep_run p pr u (ChProc p) LkWait s Hc Hp ltac:(done) Hu) as (k & E & _).
      eexists. by apply bind_swtch.
    + run_step. apply wp_release_head; [apply not_elem_of_nil|]. done.
  - run_step. apply wp_ret. change (negb (1 =? 0)) with true. cbn match.
    run_step. apply wp_release_head; [apply not_elem_of_nil|]. done.
Qed.
End waiting.

(** ** Killing *)

Section killing.
Context {F : Type}.
Implicit Types (s : kst F) (hl : list lockid).

(** What [kill] does to the process it finds. *)
Definition kill_entry (p : proc) : proc :=
  let p' := set_killed 1 p in
  if bool_decide (state p = SLEEPING) then set_state RUNNABLE p' else p'.

Lemma kill_spec pid0 hl s :
  length (procs s) = Z.to_nat NPROC -> (forall i, LkProc i ∉ hl) ->
  wp (kill pid0) (fun r st' =>
    (r = -1 /\ st' = mk_st hl s /\ forall i x, procs s !! i = Some x -> pid x <> pid0) \/
    (exists i x, r = 0 /\ procs s !! i = Some x /\ pid x = pid0 /\
       (forall j y, (j < i)%nat -> procs s !! j = Some y -> pid y <> pid0) /\
       st' = mk_st hl (set_procs (<[i := kill_entry x]> (procs s)) s))) (mk_st hl s).
Proof.
  intros Hlen Hh. unfold kill. wp_step.
  apply (wp_mono _ (fun r st' =>
    (r = None /\ st' = mk_st hl s /\ forall i x, procs s !! i = Some x -> pid x <> pid0) \/
    (exists i x, r = Some 0 /\ procs s !! i = Some x /\ pid x = pid0 /\
       (forall j y, (j < i)%nat -> procs s !! j = Some y -> pid y <> pid0) /\
       st' = mk_st hl (set_procs (<[i := kill_entry x]> (procs s)) s)))).
  2:{ intros r st' [(-> & -> & Hn)|(i & x & -> & Hx)]; apply wp_ret; [by left|right; eauto]. }
  apply (wp_for_find (fun rest st' => st' = mk_st hl s /\
    exists k, rest = seq k (Z.to_nat NPROC - k) /\ (k <= Z.to_nat NPROC)%nat /\
      forall j p, (j < k)%nat -> procs s !! j = Some p -> pid p <> pid0)).
  - split; [done|]. exists 0%nat. split_and!; [done|lia|]. intros. lia.
  - intros i rest st' (-> & k & Hrest & Hk & Hbelow).
    destruct (Z.to_nat NPROC - k)%nat as [|n] eqn:En; [done|]. injection Hrest as -> ->.
    destruct (lookup_lt_is_Some_2 (procs s) k) as [p Hp]; [lia|].
    wp_step. apply wp_acquire; [apply Hh|]. wp_step. apply (wp_get_proc k p); [done|].
    destruct (Z.eqb_spec (pid p) pid0) as [Hpid|Hpid].
    + wp_step. apply (wp_upd_proc k p); [done|]. wp_step. unfold kill_entry.
      apply wp_when; intros Hst.
      * eapply wp_upd_proc; [cbn; by apply list_lookup_insert_eq, lookup_lt_Some with p|].
        wp_step. apply wp_release_head; [apply Hh|]. apply wp_ret. right. exists k, p.
        rewrite Hst. cbn [procs set_procs]. by rewrite list_insert_insert_eq.
      * wp_step. apply wp_release_head; [apply Hh|]. apply wp_ret. right. exists k, p. by rewrite Hst.
    + wp_step. apply wp_release_head; [apply Hh|]. apply wp_ret. split; [done|].
      exists (S k). split_and!; [f_equal; lia|lia|]. intros j p' Hj Hp'.
      destruct (decide (j = k)) as [->|]; [congruence|]. apply (Hbelow j); [lia|done].
  - intros st' (-> & k & Hrest & Hk & Hbelow). left. split_and!; [done|done|]. intros j p Hp.
    assert (k = Z.to_nat NPROC) as -> by (destruct (Z.to_nat NPROC - k)%nat eqn:E; [lia|done]).
    apply (Hbelow j); [|done]. rewrite <- Hlen. by eapply lookup_lt_Some.
Qed.
End killing.
