(* ===== verification/ProcFork.v ===== *)
(** * [fork] and [fork_deadline]

    The child of a successful [fork] is a copy of its parent: memory,
    registers (but for the return value), open files, directory and name; a
    failed [fork] leaves every page and the table as they were.  The file
    system is used through the laws of [filedup] and [idup]. *)

From S2P Require Import Prelude Spinlock Riscv Kalloc Vm VmProofs VmSpace VmFree Queue PriorityQueue KString Proc ProcMem ProcProofs ProcLife.

(** ** What [fork] relies on of the file layer *)

(** [file_room fs f k]: entry [f] of the file table is open and can be
    duplicated [k] more times; [inode_room] is the same for in-memory inodes.
    [filedup] and [idup] return their argument and change the file layer
    only. *)
Class FileLaws (F : Type) `{FileOps F} : Type := {
  file_room : F -> nat -> nat -> Prop;
  inode_room : F -> nat -> nat -> Prop;
  file_room_weaken fs f k : file_room fs f (S k) -> file_room fs f k;
  filedup_law f k hl (s : kst F) :
    file_room (files s) f (S k) -> LkFtable ∉ hl ->
    exists fs', filedup f (mk_st hl s) = Ret f (mk_st hl (set_files fs' s)) /\
      (forall g j, file_room (files s) g (S j) -> file_room fs' g j) /\
      (forall i j, inode_room (files s) i j -> inode_room fs' i j);
  idup_law i k hl (s : kst F) :
    inode_room (files s) i (S k) -> LkItable ∉ hl ->
    exists fs', idup i (mk_st hl s) = Ret i (mk_st hl (set_files fs' s))
}.

(** ** The pages of the child *)

Section child_pages.
Context {img : Image}.
Implicit Types (m : pmem) (l T U F : list Z) (tbl : gmap (list Z) Z) (hl : list lockid).

(** The pages of a tree after an update: nothing is lost. *)
Lemma pt_upd_pages root m l tbl f F m' l' tbl' T :
  free_inv m l -> pt_inv m root tbl -> pt_upd root m l tbl f F m' l' tbl' ->
  NoDup T -> (forall b, b ∈ T <-> is_table tbl b) ->
  exists T', NoDup T' /\ (forall b, b ∈ T' <-> is_table tbl' b) /\ T' ++ F ++ l' ≡ₚ T ++ l.
Proof.
  intros Hf Hp Hu HT HTe. destruct Hu as [Hf' Hp' Hsub _ HF Hown Hfresh Hacct Htabs _].
  assert (forall b, is_table tbl b -> b ∉ l) as Htl by (intros b [q0 Hb]; eapply table_in_use; done).
  assert (forall b, is_table tbl' b -> b ∉ l') as Htl' by (intros b [q0 Hb]; eapply table_in_use; done).
  set (P := fun b => (b ∉ l') /\ (b ∉ F)).
  assert (forall b, b ∈ T ++ filter P l <-> is_table tbl' b) as HT'.
  { intros b. rewrite elem_of_app, list_elem_of_filter, HTe. split.
    - intros [[q0 Hb]|[[Hb1 Hb2] Hb3]]; [exists q0; auto|]. by destruct (Hacct b Hb3) as [?|[?|?]].
    - intros Hb. destruct (Htabs b Hb) as [?|Hbl]; [by left|]. right. split; [|done].
      split; [by apply Htl'|]. intros HbF. by apply (Hown b). }
  exists (T ++ filter P l).
  assert (NoDup (T ++ filter P l)) as Hnd.
  { apply NoDup_app. split_and!; [done| |apply NoDup_filter, Hf].
    intros b Hb [_ Hl]%list_elem_of_filter. apply (Htl b); [by apply HTe|done]. }
  split_and!; [done|done|]. apply NoDup_Permutation.
  - apply NoDup_app. split_and!; [done| |].
    + intros b Hb%HT' [HbF|Hbl]%elem_of_app; [by apply (Hown b)|by apply (Htl' b)].
    + apply NoDup_app. split_and!; [done| |apply Hf']. intros b Hb. by destruct (proj1 (Hown b Hb)).
  - apply NoDup_app. split_and!; [done| |apply Hf]. intros b Hb%HTe. auto.
  - intros b. rewrite elem_of_app, HT', !elem_of_app, HTe. split.
    + intros [Hb|[Hb|Hb]]; [by apply Htabs|right; auto|right; auto].
    + intros [[q0 Hb]|Hb]; [left; exists q0; auto|]. destruct (Hacct b Hb) as [?|[?|?]]; auto.
Qed.

(** The pages a process owns besides its address space. *)
Definition fixed_pages (p : proc) : list Z :=
  nz (trapframe_ptr p) ++ nz (usage_time p) ++ thread_pages (threads p).

Lemma own_pages_fixed p T U : own_pages p T U = fixed_pages p ++ T ++ U.
Proof. unfold own_pages, fixed_pages. by rewrite <- !app_assoc. Qed.

(** A process whose (empty) address space was updated to hold the pages [F]
    still owns what it uses. *)
Lemma owned_upd m l p tbl T f F m' l' tbl' (z : Z) :
  free_inv m l -> owned m l p T [] -> (forall b, b ∈ T <-> is_table tbl b) ->
  pt_inv m (pagetable p) tbl -> pagetable p <> 0 -> page_ok (trapframe_ptr p) ->
  pt_upd (pagetable p) m l tbl f F m' l' tbl' ->
  0 <= z -> (Z.of_nat (length F) - 1) * PGSIZE < z <= Z.of_nat (length F) * PGSIZE ->
  Z.of_nat (length F) * PGSIZE <= TRAPFRAME ->
  f TRAMPOLINE = tramp_pte -> f TRAPFRAME = tf_pte (trapframe_ptr p) ->
  (forall x, 0 <= x < Z.of_nat (length F) * PGSIZE -> leaf_ok (f x)) ->
  (forall x, Z.of_nat (length F) * PGSIZE <= x < TRAPFRAME -> flag_set (f x) PTE_V = false) ->
  frames f 0 (length F) = F ->
  exists T', owned m' l' (set_sz z p) T' F /\ own_pages p T' F ++ l' ≡ₚ own_pages p T [] ++ l /\
    space m' l' (pagetable p) tbl' (trapframe_ptr p) (length F) /\
    (forall b, b ∈ T' <-> is_table tbl' b) /\ frames (pte_of m' tbl') 0 (length F) = F /\
    (forall b, in_use m l b -> b ∉ T -> (b ∉ T') /\ in_use m' l' b /\ mem m' !! b = mem m !! b).
Proof.
  intros Hf [Hsp Hnd Huse] HTe Hpt Hnz Hok Hu Hz0 Hz Hbd Ht1 Ht2 Hleaf Hun HF.
  rewrite own_pages_fixed, app_nil_r in Hnd, Huse. apply NoDup_app in Hnd as (HXn & HXT & HTn).
  destruct (pt_upd_pages _ _ _ _ _ _ _ _ _ T Hf Hpt Hu HTn HTe) as (T' & HTn' & HTe' & Hperm).
  assert (forall b, in_use m l b -> b ∉ T -> (b ∉ T') /\ in_use m' l' b /\ mem m' !! b = mem m !! b) as Hfr.
  { intros b Hbu HbT. rewrite HTe in HbT. rewrite HTe'.
    destruct (pu_frame _ _ _ _ _ _ _ _ _ Hu b Hbu HbT) as (? & ? & ?). done. }
  assert (frames (pte_of m' tbl') 0 (length F) = F) as HFr.
  { etrans; [|exact HF]. apply frames_ext; [lia|destruct layout_consts as (-> & _ & Ef); lia|].
    intros x Hx. apply (pu_pte _ _ _ _ _ _ _ _ _ Hu). destruct layout_consts as (-> & _ & Ef). lia. }
  assert (forall va, 0 <= va < MAXVA -> pte_of m' tbl' va = f va) as Hpte by apply Hu.
  destruct layout_consts as (Hmax & Htr & Htf).
  assert (0 <= Z.of_nat (length F) * PGSIZE) by (unfold PGSIZE; lia).
  assert (space m' l' (pagetable p) tbl' (trapframe_ptr p) (length F)) as Hspace.
  { split; [apply Hu| | |done| | |by rewrite HFr; apply Hu|].
    - rewrite Hpte by lia. done.
    - rewrite Hpte by lia. done.
    - intros x Hx. rewrite Hpte by lia. auto.
    - intros x Hx. rewrite Hpte by lia. auto.
    - rewrite HFr. apply Hu. }
  exists T'. split_and!; [|rewrite !own_pages_fixed, app_nil_r, <- !app_assoc; by rewrite Hperm|done|done|done|done].
  split.
  - right. split; [done|]. exists tbl', (length F). by rewrite HFr.
  - rewrite own_pages_fixed. apply NoDup_app. split_and!; [done| |].
    + intros b Hb [HbT'|HbF]%elem_of_app.
      * destruct (Hfr b) as [? _]; [apply Huse, elem_of_app; by left|by apply HXT|done].
      * pose proof (pu_fresh _ _ _ _ _ _ _ _ _ Hu b (or_intror HbF)) as Hbl.
        destruct (Huse b) as [_ ?]; [apply elem_of_app; by left|done].
    + apply NoDup_app. split_and!; [done| |apply Hu]. intros b Hb%HTe' HbF.
      by apply (pu_owned _ _ _ _ _ _ _ _ _ Hu b).
  - rewrite own_pages_fixed. intros b [Hb|[Hb|Hb]%elem_of_app]%elem_of_app.
    + apply Hfr; [apply Huse, elem_of_app; by left|by apply HXT].
    + apply HTe' in Hb as [q0 Hb]. by eapply table_in_use; [apply Hu|apply Hu|].
    + by apply (pu_owned _ _ _ _ _ _ _ _ _ Hu b).
Qed.

(** The case of pages [U] mapped from address 0 with permissions [perm]. *)
Lemma owned_alloc m l p tbl T U perm (c : nat -> page) m' l' tbl' (z : Z) :
  free_inv m l -> owned m l p T [] -> (forall b, b ∈ T <-> is_table tbl b) ->
  space m l (pagetable p) tbl (trapframe_ptr p) 0 -> pagetable p <> 0 -> page_ok (trapframe_ptr p) ->
  pt_upd (pagetable p) m l tbl (alloc_range 0 U perm (pte_of m tbl)) U m' l' tbl' -> holds m' U c ->
  (forall k, (k < length U)%nat -> perm_ok (perm k)) ->
  0 <= z -> (Z.of_nat (length U) - 1) * PGSIZE < z <= Z.of_nat (length U) * PGSIZE ->
  Z.of_nat (length U) * PGSIZE <= TRAPFRAME ->
  exists T', owned m' l' (set_sz z p) T' U /\ own_pages p T' U ++ l' ≡ₚ own_pages p T [] ++ l /\
    space m' l' (pagetable p) tbl' (trapframe_ptr p) (length U) /\
    (forall b, b ∈ T' <-> is_table tbl' b) /\ frames (pte_of m' tbl') 0 (length U) = U /\
    (forall k, (k < length U)%nat ->
       PTE_FLAGS (pte_of m' tbl' (Z.of_nat k * PGSIZE)) = Z.lor (perm k) PTE_V /\
       mem m' !! PTE2PA (pte_of m' tbl' (Z.of_nat k * PGSIZE)) = Some (c k)) /\
    (forall b, in_use m l b -> b ∉ T -> (b ∉ T') /\ in_use m' l' b /\ mem m' !! b = mem m !! b).
Proof.
  intros Hf Ho HTe Hs Hpt Hok Hu Hholds Hperm Hz0 Hz Hbd. destruct layout_consts as (Hmax & Htr & Htf).
  destruct (alloc_range_frames _ _ _ _ _ _ _ _ _ _ _ Hu ltac:(lia) ltac:(lia) Hperm) as [HFr Hlf].
  assert (Forall pa_ok U) as Hpa.
  { apply Forall_forall. intros pa Hpa. destruct (pu_owned _ _ _ _ _ _ _ _ _ Hu pa Hpa) as [[[pg Hpg] _] _].
    apply page_ok_pa_ok. eapply fi_pages; [apply Hu|exact Hpg]. }
  assert (forall x, 0 <= x < MAXVA -> pte_of m' tbl' x = alloc_range 0 U perm (pte_of m tbl) x) as Hpte by apply Hu.
  assert (forall x, Z.of_nat (length U) * PGSIZE <= x -> alloc_range 0 U perm (pte_of m tbl) x = pte_of m tbl x) as Hout.
  { intros x Hx. unfold alloc_range. by rewrite (proj2 (Z.ltb_ge x _)), andb_false_r by lia. }
  destruct (owned_upd m l p tbl T _ U m' l' tbl' z Hf Ho HTe (sp_pt _ _ _ _ _ _ Hs) Hpt Hok Hu Hz0 Hz Hbd)
    as (T' & Ho' & Hperm' & Hs' & HTe' & HU' & Hfr').
  - rewrite Hout by lia. apply Hs.
  - rewrite Hout by lia. apply Hs.
  - intros x Hx. rewrite <- Hpte by lia. apply Hlf. lia.
  - intros x Hx. rewrite Hout by lia. apply (sp_rest _ _ _ _ _ _ Hs). lia.
  - by apply frames_alloc_range.
  - exists T'. split_and!; try assumption. intros k Hk.
    destruct (lookup_lt_is_Some_2 U k Hk) as [pa Hpa'].
    rewrite Hpte by (unfold PGSIZE in *; lia).
    rewrite <- (Z.add_0_l (Z.of_nat k * PGSIZE)), (alloc_range_at _ _ _ _ _ pa Hpa').
    destruct (leaf_pte_ok pa (perm k)) as (_ & -> & ->); [by eapply Forall_lookup_1|by apply Hperm|].
    split; [done|by apply Hholds].
Qed.

(** Changes that spare the address space of a process. *)
Lemma owned_frame m l m' p T U :
  owned m l p T U -> (forall b, b ∈ own_pages p T U -> in_use m' l b) ->
  (forall b, b ∈ T ++ U -> mem m' !! b = mem m !! b) -> owned m' l p T U.
Proof.
  intros [Hsp Hnd Hu] Hu' Hm. split; [|done|done].
  destruct Hsp as [?|(Hp & tbl & n & Hs & Hok & Hz0 & Hz & HTn & HTe & ->)]; [by left|right].
  split; [done|]. exists tbl, n.
  destruct (space_frame m l m' l _ _ _ _ Hs) as [Hs' Hpte].
  { intros b Hb. assert (b ∈ T ++ frames (pte_of m tbl) 0 n) as Hb' by (rewrite elem_of_app, HTe; tauto).
    split; [|by apply Hm]. apply Hu'. rewrite own_pages_fixed. apply elem_of_app. by right. }
  split_and!; [done|done|done|lia|lia|done|done|].
  apply frames_ext; [lia| |intros; by rewrite Hpte].
  destruct layout_consts as (-> & _ & Ef). pose proof (sp_bound _ _ _ _ _ _ Hs). lia.
Qed.
End child_pages.

(** ** Duplicating the open files *)

Section dup.
Context {F : Type} `{FileLaws F}.
Implicit Types (s : kst F) (hl : list lockid).

(** The child's files after the first [k] descriptors. *)
Definition duped (k : nat) (op oc : list (option nat)) : list (option nat) :=
  imap (fun fd o => if (fd <? k)%nat then match op !! fd with Some (Some f) => Some f | _ => o end else o) oc.

Lemma duped_lookup k op oc fd :
  duped k op oc !! fd =
    (fun o => if (fd <? k)%nat then match op !! fd with Some (Some f) => Some f | _ => o end else o) <$> oc !! fd.
Proof. apply list_lookup_imap. Qed.

Lemma duped_S k op oc :
  (k < length oc)%nat ->
  duped (S k) op oc = match op !! k with Some (Some f) => <[k := Some f]> (duped k op oc) | _ => duped k op oc end.
Proof.
  intros Hk. destruct (lookup_lt_is_Some_2 oc k Hk) as [o Ho].
  assert (forall fd, fd <> k -> duped (S k) op oc !! fd = duped k op oc !! fd) as Hne.
  { intros fd Hne. rewrite !duped_lookup. destruct (oc !! fd); [|done]. cbn [fmap option_fmap option_map].
    destruct (Nat.ltb_spec fd (S k)), (Nat.ltb_spec fd k); by try lia. }
  assert (duped (S k) op oc !! k = Some (match op !! k with Some (Some f) => Some f | _ => o end)) as H1.
  { rewrite duped_lookup, Ho. cbn [fmap option_fmap option_map]. by rewrite (proj2 (Nat.ltb_lt k (S k))) by lia. }
  assert (duped k op oc !! k = Some o) as H2.
  { rewrite duped_lookup, Ho. cbn [fmap option_fmap option_map]. by rewrite (proj2 (Nat.ltb_ge k k)) by lia. }
  apply list_eq. intros fd. destruct (decide (fd = k)) as [->|Hfd].
  - rewrite H1. destruct (op !! k) as [[f|]|]; [|done..]. symmetry. apply list_lookup_insert_eq.
    unfold duped. by rewrite length_imap.
  - rewrite (Hne fd Hfd). destruct (op !! k) as [[f|]|]; [|done..]. by rewrite list_lookup_insert_ne.
Qed.

Definition rooms (fs : F) (op : list (option nat)) (k : nat) : Prop :=
  forall fd f, op !! fd = Some (Some f) -> file_room fs f k.

Lemma dup_files_spec p np pr nc hl s (Q : unit -> st (kst F) -> Prop) :
  p <> np -> procs s !! p = Some pr -> procs s !! np = Some nc -> length (ofile nc) = NOFILE ->
  rooms (files s) (ofile pr) NOFILE -> LkFtable ∉ hl ->
  (forall fs', (forall i j, inode_room (files s) i j -> inode_room fs' i j) ->
     Q tt (mk_st hl (set_files fs'
       (set_procs (<[np := set_ofile (duped NOFILE (ofile pr) (ofile nc)) nc]> (procs s)) s)))) ->
  wp (dup_files p np) Q (mk_st hl s).
Proof.
  intros Hne Hp Hnc Hlen Hrm Hh HQ. pose proof (lookup_lt_Some _ _ _ Hnc) as Hnp. unfold dup_files.
  set (at_k := fun k fs => set_files fs
    (set_procs (<[np := set_ofile (duped k (ofile pr) (ofile nc)) nc]> (procs s)) s)).
  match goal with |- wp (for_each _ ?b) _ _ => set (body := b) end.
  assert (forall n k fs, (k + n = NOFILE)%nat -> rooms fs (ofile pr) n ->
    (forall i j, inode_room (files s) i j -> inode_room fs i j) ->
    wp (for_each (seq k n) body) Q (mk_st hl (at_k k fs))) as Hloop.
  { induction n as [|n IH]; intros k fs Hk Hr Hi; cbn [seq for_each].
    { apply wp_ret. rewrite Nat.add_0_r in Hk. subst k. by apply HQ. }
    unfold body at 1. wp_steps. eapply (wp_get_proc p pr); [cbn; by rewrite list_lookup_insert_ne|].
    pose proof (duped_S k (ofile pr) (ofile nc) ltac:(lia)) as HS.
    assert (rooms fs (ofile pr) n) as Hr' by (intros fd f Hf; by eapply file_room_weaken, Hr).
    destruct (ofile pr !! k) as [[f|]|] eqn:Ef.
    - wp_step. destruct (filedup_law f n hl (at_k k fs)) as (fs' & E & Hf' & Hi'); [by eapply Hr|done|].
      eapply wp_eq; [exact E|]. eapply wp_upd_proc; [cbn; by apply list_lookup_insert_eq|].
      assert (at_k (S k) fs' = set_procs (<[np := set_ofile (<[k := Some f]> (duped k (ofile pr) (ofile nc))) nc]>
        (procs (set_files fs' (at_k k fs)))) (set_files fs' (at_k k fs))) as Es.
      { unfold at_k. cbn [procs set_files set_procs]. by rewrite HS, list_insert_insert_eq. }
      cbn [ofile set_ofile] in *. change (set_ofile ?a (set_ofile ?b nc)) with (set_ofile a nc).
      rewrite <- Es. apply IH; [lia| |auto]. intros fd g Hg. by eapply Hf', Hr.
    - apply wp_ret.
      assert (at_k k fs = at_k (S k) fs) as -> by (unfold at_k; by rewrite HS). apply IH; [lia|done|done].
    - apply wp_ret. assert (at_k k fs = at_k (S k) fs) as -> by (unfold at_k; by rewrite HS).
      apply IH; [lia|done|done]. }
  specialize (Hloop NOFILE 0%nat (files s) eq_refl Hrm (fun i j Hij => Hij)).
  assert (at_k 0%nat (files s) = s) as E0; [|by rewrite E0 in Hloop].
  assert (duped 0 (ofile pr) (ofile nc) = ofile nc) as Ed.
  { apply list_eq. intros fd. rewrite duped_lookup. by destruct (ofile nc !! fd). }
  unfold at_k. rewrite Ed. replace (set_ofile (ofile nc) nc) with nc by (by destruct nc).
  rewrite list_insert_id by done. by destruct s.
Qed.
End dup.

(** ** [fork] *)

Section forking.
Context {img : Image} {F : Type} `{FileLaws F}.
Implicit Types (s : kst F) (m : pmem) (l T U : list Z) (hl : list lockid).

(** The memory of the parent: its address space of [N] pages with contents
    [b], and its registers. *)
Record parent_mem m l (pr : proc) (tblo : gmap (list Z) Z) (N : nat) (b : nat -> list Z) (tf : trapframe) : Prop := {
  pm_space : space m l (pagetable pr) tblo (trapframe_ptr pr) N;
  pm_size : 0 <= sz pr /\ (Z.of_nat N - 1) * PGSIZE < sz pr <= Z.of_nat N * PGSIZE;
  pm_bytes k : (k < N)%nat ->
    bytes_at (PTE2PA (pte_of m tblo (Z.of_nat k * PGSIZE))) m = Some (b k) /\ length (b k) = Z.to_nat PGSIZE;
  pm_tf : mem m !! trapframe_ptr pr = Some (PgTrapframe tf);
  pm_tf_use : in_use m l (trapframe_ptr pr)
}.

(** The child in slot [q]. *)
Definition forked (p : nat) (pr q : proc) (pid0 tf us pt : Z) : proc :=
  mk_proc RUNNABLE (chan q) (killed_flag q) (xstate q) pid0 (Some p) (kstack q) (sz pr) pt tf
    (mk_context PcForkret (u64 (kstack q + PGSIZE)) (replicate 12 0))
    (duped NOFILE (ofile pr) (ofile q)) (cwd pr) (safestrcpy (name q) (name pr) 16)
    (threads q) None us.

Definition fork_usage (dl : option Z) : cpu_usage :=
  mk_usage 0 0 MAX_UINT 0 (match dl with None => MAX_UINT | Some d => u32 d end).

(** What [fork] promises. *)
Definition fork_post (dl : option Z) (p : nat) (pr : proc) tblo (N : nat) b (tf : trapframe) s l
    (r : Z) (st' : st (kst F)) : Prop :=
  (exists i q m' l' fs' tfa us pt T U tbl,
     let c := forked p pr q (nextpid s) tfa us pt in
     r = nextpid s /\ procs s !! i = Some q /\ state q = UNUSED /\
     st' = mk_st [] (set_files fs' (set_nextpid (i32 (nextpid s + 1))
             (set_pm m' (set_procs (<[i := c]> (procs s)) s)))) /\
     free_inv m' l' /\ owned m' l' c T U /\ own_pages c T U ++ l' ≡ₚ l /\
     space m' l' pt tbl tfa N /\
     (forall k, (k < N)%nat ->
        PTE_FLAGS (pte_of m' tbl (Z.of_nat k * PGSIZE)) = PTE_FLAGS (pte_of (pm s) tblo (Z.of_nat k * PGSIZE)) /\
        bytes_at (PTE2PA (pte_of m' tbl (Z.of_nat k * PGSIZE))) m' = Some (b k)) /\
     mem m' !! tfa = Some (PgTrapframe (<[TF_a0 := 0]> tf)) /\
     mem m' !! us = Some (PgUsage (fork_usage dl)) /\
     (forall a, in_use (pm s) l a -> in_use m' l' a /\ mem m' !! a = mem (pm s) !! a)) \/
  (r = -1 /\ exists m' l' ps np, st' = mk_st [] (set_nextpid np (set_pm m' (set_procs ps s))) /\
     free_inv m' l' /\ l' ≡ₚ l /\
     (ps = procs s \/ exists i q x, procs s !! i = Some q /\ state q = UNUSED /\ ps = <[i := x]> (procs s) /\
        state x = UNUSED /\ pid x = 0 /\ slot_clean x) /\
     (forall a, in_use (pm s) l a -> in_use m' l' a /\ mem m' !! a = mem (pm s) !! a)).

(** The parent's memory as the source of the copy into the child's tree. *)
Lemma parent_copy_src m l pr tblo N b tf m' l' T tbl np :
  parent_mem m l pr tblo N b tf -> free_inv m l ->
  owned m' l' np T [] -> (forall x, x ∈ T <-> is_table tbl x) ->
  l ≡ₚ own_pages np T [] ++ l' ->
  (forall a, in_use m l a -> in_use m' l' a /\ mem m' !! a = mem m !! a) ->
  copy_src m' l' tbl (pagetable pr) tblo N b /\ forall va, pte_of m' tblo va = pte_of m tblo va.
Proof.
  intros [Hs Hsz Hb Htf Htfu] Hf Ho HTe Hl Hfr.
  assert (forall a, in_use m l a -> ~ is_table tbl a) as Hnt.
  { intros a [_ Ha] Hta. apply Ha. rewrite Hl, own_pages_fixed, !elem_of_app, HTe. tauto. }
  assert (forall a, is_table tblo a -> in_use m l a) as Hto
    by (intros a [q0 Ha]; eapply table_in_use; [done|apply Hs|done]).
  assert (forall va, pte_of m' tblo va = pte_of m tblo va) as Hpte.
  { intros. apply pte_of_frame. intros a Ha. by apply Hfr, Hto. }
  split; [|done]. split.
  - eapply pt_inv_frame; [apply Hs|]. intros a Ha. by apply Hfr, Hto.
  - intros a Ha. by apply Hnt, Hto.
  - intros k Hk. rewrite Hpte. destruct (Hb k Hk) as [Hbk Hlen].
    assert (in_use m l (PTE2PA (pte_of m tblo (Z.of_nat k * PGSIZE)))) as Hu.
    { eapply sp_owned; [done|]. apply list_elem_of_lookup. exists k. rewrite frames_lookup by done.
      by rewrite Z.add_0_l. }
    split_and!; [apply (sp_user _ _ _ _ _ _ Hs); unfold PGSIZE; lia|by apply Hfr|by apply Hnt| |done].
    unfold bytes_at. destruct (Hfr _ Hu) as [_ ->]. exact Hbk.
Qed.

Lemma PTE_FLAGS_valid v : leaf_ok v -> Z.lor (PTE_FLAGS v) PTE_V = PTE_FLAGS v.
Proof.
  intros [Hv _]. unfold flag_set, PTE_FLAGS in *. apply Z.bits_inj'. intros i Hi.
  rewrite Z.lor_spec, Z.land_spec. change PTE_V with (2 ^ 0) in *.
  destruct (decide (i = 0)) as [->|Hne].
  - assert (Z.testbit v 0 = true) as ->; [|done].
    destruct (Z.testbit v 0) eqn:E; [done|]. exfalso.
    assert (Z.land v (2 ^ 0) = 0) as Hz; [|by rewrite Hz in Hv].
    apply Z.bits_inj'. intros j Hj. rewrite Z.land_spec, Z.bits_0, Z.pow2_bits_eqb by lia.
    destruct (Z.eqb_spec 0 j) as [<-|]; [by rewrite E|by rewrite andb_false_r].
  - by rewrite (Z.pow2_bits_false 0 i), orb_false_r by lia.
Qed.

(** Copying the parent's memory into a new process. *)
Definition copied m l pr tblo (N : nat) (b : nat -> list Z) (np : proc) (m1 : pmem) (l1 T : list Z) hl
    (r : Z) (st' : st pmem) : Prop :=
  exists m2 l2, st' = mk_st hl m2 /\ free_inv m2 l2 /\
    (forall a, in_use m1 l1 a -> a ∉ T -> in_use m2 l2 a /\ mem m2 !! a = mem m1 !! a) /\
    ((r = 0 /\ exists T' U tbl, owned m2 l2 (set_sz (sz pr) np) T' U /\ own_pages np T' U ++ l2 ≡ₚ l /\
        space m2 l2 (pagetable np) tbl (trapframe_ptr np) N /\
        (forall a, a ∈ T' <-> is_table tbl a) /\ U = frames (pte_of m2 tbl) 0 N /\
        forall k, (k < N)%nat ->
          PTE_FLAGS (pte_of m2 tbl (Z.of_nat k * PGSIZE)) = PTE_FLAGS (pte_of m tblo (Z.of_nat k * PGSIZE)) /\
          bytes_at (PTE2PA (pte_of m2 tbl (Z.of_nat k * PGSIZE))) m2 = Some (b k)) \/
     (r = -1 /\ exists T', owned m2 l2 np T' [] /\ own_pages np T' [] ++ l2 ≡ₚ l)).

Lemma fork_copy_spec m l pr tblo N b tf m1 l1 T np hl :
  parent_mem m l pr tblo N b tf -> free_inv m l -> free_inv m1 l1 ->
  owned m1 l1 np T [] -> pagetable np <> 0 -> sz np = 0 -> l ≡ₚ own_pages np T [] ++ l1 ->
  (forall a, in_use m l a -> in_use m1 l1 a /\ mem m1 !! a = mem m !! a) -> LkKmem ∉ hl ->
  wp (uvmcopy (pagetable pr) (pagetable np) (sz pr)) (copied m l pr tblo N b np m1 l1 T hl) (mk_st hl m1).
Proof.
  intros Hpar Hf Hf1 Ho Hpt Hsz0 Hl Hfr Hh. destruct layout_consts as (Hmax & Htr & Htf).
  pose proof Ho as [[[? _]|(_ & tbl & n & Hs & Hok & _ & Hszn & _ & HTe & _)] _ _]; [done|].
  assert (n = 0%nat) as -> by (rewrite Hsz0 in Hszn; unfold PGSIZE in *; lia).
  destruct (parent_copy_src _ _ _ _ _ _ _ _ _ _ tbl np Hpar Hf Ho HTe Hl Hfr) as [Hsrc Hpte].
  pose proof (sp_bound _ _ _ _ _ _ (pm_space _ _ _ _ _ _ _ Hpar)) as HN.
  destruct (pm_size _ _ _ _ _ _ _ Hpar) as [Hz0 Hz].
  assert (forall k, (k < N)%nat -> leaf_ok (pte_of m1 tblo (Z.of_nat k * PGSIZE))) as Hleaf
    by (intros k Hk; by destruct (cs_page _ _ _ _ _ _ _ Hsrc k Hk)).
  eapply wp_mono; [apply (uvmcopy_spec N m1 l1 hl _ tbl _ tblo b); try done; try apply Hs; [lia|]|].
  { intros x Hx. apply (sp_rest _ _ _ _ _ _ Hs). lia. }
  intros r st' (m2 & l2 & tbl2 & -> & [(-> & U & HU & Hholds & Hu)|(-> & k & Hk & Hu)]);
    exists m2, l2; (split; [done|split; [apply Hu|]]).
  - assert (forall k, (k < length U)%nat -> perm_ok (PTE_FLAGS (pte_of m1 tblo (Z.of_nat k * PGSIZE)))) as Hperm
      by (intros k Hk; apply PTE_FLAGS_perm, Hleaf; lia).
    destruct (owned_alloc m1 l1 np tbl T U _ _ m2 l2 tbl2 (sz pr) Hf1 Ho HTe Hs Hpt Hok Hu Hholds Hperm Hz0)
      as (T' & Ho' & Hperm' & Hs' & HTe' & HU' & Hcont & Hfr'); [by rewrite HU|by rewrite HU|].
    split; [intros a Ha HaT; by apply Hfr'|]. left. split; [done|]. exists T', U, tbl2.
    rewrite HU in Hs', HU'. split_and!; [done|by rewrite Hperm'|done|done|done|]. intros k Hk.
    destruct (Hcont k) as [-> Hb]; [lia|]. rewrite (PTE_FLAGS_valid _ (Hleaf k Hk)), Hpte.
    split; [done|]. by apply bytes_at_mem.
  - destruct (owned_upd m1 l1 np tbl T _ [] m2 l2 tbl2 0 Hf1 Ho HTe (sp_pt _ _ _ _ _ _ Hs) Hpt Hok Hu)
      as (T' & Ho' & Hperm' & Hs' & HTe' & HU' & Hfr').
    + done.
    + unfold PGSIZE. cbn. lia.
    + cbn. lia.
    + rewrite unmap_range_out by (unfold PGSIZE in *; lia). apply Hs.
    + rewrite unmap_range_out by (unfold PGSIZE in *; lia). apply Hs.
    + cbn. lia.
    + intros x Hx. unfold unmap_range. case_match; [done|]. by apply (sp_rest _ _ _ _ _ _ Hs).
    + done.
    + split; [intros a Ha HaT; by apply Hfr'|]. right. split; [done|]. exists T'.
      split; [|by rewrite Hperm']. replace (set_sz 0 np) with np in Ho'; [done|].
      rewrite <- Hsz0. by destruct np.
Qed.

Lemma freed_clean q : state (freed_proc q) = UNUSED /\ pid (freed_proc q) = 0 /\ slot_clean (freed_proc q).
Proof. split_and!; [done|done|]. split_and!; done. Qed.

(** [*(np->trapframe) = *(p->trapframe); np->trapframe->a0 = 0;] *)
Lemma wp_copy_tf dst src tf hl s (Q : unit -> st (kst F) -> Prop) :
  mem (pm s) !! src = Some (PgTrapframe tf) -> is_Some (mem (pm s) !! dst) ->
  Q tt (mk_st hl (set_pm (set_page dst (PgTrapframe tf) (pm s)) s)) ->
  wp (mem_op (copy_tf dst src)) Q (mk_st hl s).
Proof.
  intros Hs [pg Hd] HQ. apply wp_mem_op. unfold copy_tf, load_tf, store_tf.
  wp_step. eapply wp_deref; [cbn; by rewrite Hs|]. wp_step. eapply wp_deref; [exact Hd|].
  apply wp_modify. exact HQ.
Qed.

Lemma wp_set_tf dst reg v tf hl s (Q : unit -> st (kst F) -> Prop) :
  mem (pm s) !! dst = Some (PgTrapframe tf) ->
  Q tt (mk_st hl (set_pm (set_page dst (PgTrapframe (<[reg := u64 v]> tf)) (pm s)) s)) ->
  wp (mem_op (set_tf dst reg v)) Q (mk_st hl s).
Proof.
  intros Hs HQ. apply wp_mem_op. unfold set_tf, load_tf, store_tf.
  wp_step. eapply wp_deref; [cbn; by rewrite Hs|]. wp_step. eapply wp_deref; [exact Hs|].
  apply wp_modify. exact HQ.
Qed.

#[local] Opaque safestrcpy.

(** The tail of [fork], once the memory is copied: the child's files,
    directory, name, parent and state. *)
Definition fork_finish (dl : option Z) (p np : nat) (pr : proc) : M (kst F) Z :=
  dup_files p np ;;
  c <- deref (fun _ => cwd pr) ;;
  d <- idup c ;;
  upd_proc np (set_cwd (Some d)) ;;
  upd_proc np (fun x => set_name (safestrcpy (name x) (name pr) 16) x) ;;
  npr <- get_proc np ;;
  let pid0 := pid npr in
  release (LkProc np) ;;
  acquire LkWait ;;
  upd_proc np (set_parent (Some p)) ;;
  release LkWait ;;
  acquire (LkProc np) ;;
  upd_proc np (set_state RUNNABLE) ;;
  match dl with
  | None => ret tt
  | Some d => mem_op (upd_usage (usage_time npr) (set_deadline (u32 d)))
  end ;;
  release (LkProc np) ;;
  ret pid0.

Definition child_of (p : nat) (pr nc : proc) : proc :=
  set_state RUNNABLE (set_parent (Some p) (set_name (safestrcpy (name nc) (name pr) 16)
    (set_cwd (cwd pr) (set_ofile (duped NOFILE (ofile pr) (ofile nc)) nc)))).

Lemma fork_finish_spec dl p np pr nc u c hl s :
  hl = [LkProc np] -> p <> np -> procs s !! p = Some pr -> procs s !! np = Some nc ->
  length (ofile nc) = NOFILE -> rooms (files s) (ofile pr) NOFILE ->
  cwd pr = Some c -> inode_room (files s) c 1 -> mem (pm s) !! usage_time nc = Some (PgUsage u) ->
  wp (fork_finish dl p np pr) (fun r st' => r = pid nc /\ exists fs',
    st' = mk_st [] (set_files fs' (set_pm (match dl with
        | None => pm s
        | Some d => set_page (usage_time nc) (PgUsage (set_deadline (u32 d) u)) (pm s) end)
      (set_procs (<[np := child_of p pr nc]> (procs s)) s)))) (mk_st hl s).
Proof.
  intros -> Hne Hp Hnc Hlen Hrm Hcwd Hir Hus. pose proof (lookup_lt_Some _ _ _ Hnc) as Hnp.
  assert (forall A : Type, forall x y : A, forall L, ((<[np := y]> (<[np := x]> L) : list A) = <[np := y]> L)) as Hii
    by (intros; apply list_insert_insert_eq).
  unfold fork_finish. wp_step. eapply dup_files_spec; try done.
  { intros [=]%list_elem_of_singleton. }
  intros fs1 Hi1. wp_step. eapply wp_deref; [exact Hcwd|]. wp_step.
  match goal with |- wp _ _ (mk_st ?h ?s1) => destruct (idup_law c 0 h s1) as (fs2 & E) end.
  { by apply Hi1. }
  { intros [=]%list_elem_of_singleton. }
  eapply wp_eq; [exact E|]. wp_step. eapply wp_upd_proc; [cbn; by apply list_lookup_insert_eq|].
  wp_step. eapply wp_upd_proc; [cbn; apply list_lookup_insert_eq; by rewrite length_insert|].
  wp_step. eapply wp_get_proc; [cbn; apply list_lookup_insert_eq; by rewrite !length_insert|].
  wp_step. apply wp_release_head; [apply not_elem_of_nil|].
  wp_step. apply wp_acquire; [apply not_elem_of_nil|].
  wp_step. eapply wp_upd_proc; [cbn; apply list_lookup_insert_eq; by rewrite !length_insert|].
  wp_step. apply wp_release_head; [apply not_elem_of_nil|].
  wp_step. apply wp_acquire; [apply not_elem_of_nil|].
  wp_step. eapply wp_upd_proc; [cbn; apply list_lookup_insert_eq; by rewrite !length_insert|].
  cbn [procs set_procs set_files data held]. rewrite !Hii. rewrite <- Hcwd.
  wp_step. destruct dl as [d|].
  - apply wp_mem_op. apply (wp_upd_usage _ u); [exact Hus|]. cbn [held data].
    wp_step. apply wp_release_head; [apply not_elem_of_nil|]. apply wp_ret. split; [done|].
    by exists fs2.
  - apply wp_ret. wp_step. apply wp_release_head; [apply not_elem_of_nil|]. apply wp_ret. split; [done|].
    by exists fs2.
Qed.

Lemma fork_with_finish dl :
  fork_with dl =
    (p <- my ;;
     o <- allocproc ;;
     match o with
     | None => ret (-1)
     | Some np =>
         pr <- get_proc p ;;
         npr <- get_proc np ;;
         r <- mem_op (uvmcopy (pagetable pr) (pagetable npr) (sz pr)) ;;
         if r <? 0 then freeproc np ;; release (LkProc np) ;; ret (-1)
         else
           upd_proc np (set_sz (sz pr)) ;;
           mem_op (copy_tf (trapframe_ptr npr) (trapframe_ptr pr)) ;;
           mem_op (set_tf (trapframe_ptr npr) TF_a0 0) ;;
           fork_finish dl p np pr
     end).
Proof. reflexivity. Qed.

(** Each unused slot can take a child. *)
Definition table_ok s : Prop :=
  length (procs s) = Z.to_nat NPROC /\
  forall i q, procs s !! i = Some q -> state q = UNUSED -> slot_clean q /\ length (ofile q) = NOFILE.

(** The tail of [fork] on the memory: the child's registers and usage record
    are written, its address space and everything else stay. *)
Lemma fork_tail dl p pr i nc tf u T U c hl s l :
  hl = [LkProc i] -> p <> i -> procs s !! p = Some pr -> procs s !! i = Some nc ->
  length (ofile nc) = NOFILE -> rooms (files s) (ofile pr) NOFILE -> cwd pr = Some c -> inode_room (files s) c 1 ->
  free_inv (pm s) l -> owned (pm s) l nc T U -> pagetable nc <> 0 -> usage_time nc <> 0 ->
  mem (pm s) !! trapframe_ptr pr = Some (PgTrapframe tf) -> mem (pm s) !! usage_time nc = Some (PgUsage u) ->
  wp (mem_op (copy_tf (trapframe_ptr nc) (trapframe_ptr pr)) ;;
      mem_op (set_tf (trapframe_ptr nc) TF_a0 0) ;;
      fork_finish dl p i pr)
    (fun r st' => r = pid nc /\ exists fs' m', free_inv m' l /\ owned m' l (child_of p pr nc) T U /\
       st' = mk_st [] (set_files fs' (set_pm m' (set_procs (<[i := child_of p pr nc]> (procs s)) s))) /\
       mem m' !! trapframe_ptr nc = Some (PgTrapframe (<[TF_a0 := 0]> tf)) /\
       mem m' !! usage_time nc = Some (PgUsage (match dl with None => u | Some d => set_deadline (u32 d) u end)) /\
       (forall a, in_use (pm s) l a -> in_use m' l a) /\
       (forall a, a ∉ nz (trapframe_ptr nc) ++ nz (usage_time nc) -> mem m' !! a = mem (pm s) !! a))
    (mk_st hl s).
Proof.
  intros -> Hpi Hp Hnc Hlen Hrm Hcwd Hir Hf Ho Hpt Hus0 Htf Hus.
  destruct Ho as [Hsp Hnd Hu]. pose proof (Build_owned _ _ _ _ _ Hsp Hnd Hu) as Ho.
  assert (trapframe_ptr nc <> 0) as Htf0.
  { destruct Hsp as [[? _]|(_ & ? & ? & _ & Hok & _)]; [done|by apply page_ok_nonzero]. }
  assert (nz (trapframe_ptr nc) = [trapframe_ptr nc] /\ nz (usage_time nc) = [usage_time nc]) as [Etf Eus]
    by (unfold nz; by rewrite (proj2 (Z.eqb_neq _ _) Htf0), (proj2 (Z.eqb_neq _ _) Hus0)).
  unfold own_pages in Hnd, Hu. rewrite Etf, Eus in Hnd, Hu. cbn [app] in Hnd, Hu.
  apply NoDup_cons in Hnd as [Hntf Hnd]. apply NoDup_cons in Hnd as [Hnus Hnd].
  assert (in_use (pm s) l (trapframe_ptr nc)) as Htfu by (apply Hu; by left).
  assert (in_use (pm s) l (usage_time nc)) as Husu by (apply Hu; right; by left).
  assert (usage_time nc <> trapframe_ptr nc) as Hne by (intros E; apply Hntf; rewrite <- E; by left).
  wp_step. eapply wp_copy_tf; [exact Htf|apply Htfu|].
  wp_step. eapply wp_set_tf; [apply lookup_insert_eq|].
  eapply wp_mono; [eapply (fork_finish_spec dl p i pr nc u c); try done|].
  { cbn. by rewrite !lookup_insert_ne. }
  intros r st' (-> & fs' & ->). split; [done|]. cbn [pm set_pm procs files].
  match goal with |- context [set_pm ?m (set_procs _ _)] => set (m' := m) end.
  assert (forall a, a ∉ nz (trapframe_ptr nc) ++ nz (usage_time nc) -> mem m' !! a = mem (pm s) !! a) as Hm.
  { rewrite Etf, Eus. intros a [Ha1 Ha2%not_elem_of_cons]%not_elem_of_cons. unfold m'.
    destruct dl; cbn; rewrite !lookup_insert_ne; try done; naive_solver. }
  assert (forall a, in_use (pm s) l a -> in_use m' l a) as Huse.
  { intros a Ha. unfold m'. destruct dl; by repeat apply in_use_write. }
  exists fs', m'. split_and!.
  - unfold m'. destruct dl; repeat apply free_inv_write; try done; by repeat apply in_use_write.
  - destruct (owned_frame (pm s) l m' nc T U Ho) as [H1 H2 H3].
    + intros a Ha. apply Huse, Ho. exact Ha.
    + intros a Ha. apply Hm. rewrite Etf, Eus. cbn [app].
      apply not_elem_of_cons. split; [intros ->; apply Hntf|apply not_elem_of_cons; split; [intros ->; apply Hnus|apply not_elem_of_nil]].
      * right. apply elem_of_app. by right.
      * apply elem_of_app. by right.
    + split; [exact H1|exact H2|exact H3].
  - by destruct s.
  - unfold m'. destruct dl; cbn; rewrite ?(lookup_insert_ne _ (usage_time nc)) by done; by rewrite lookup_insert_eq.
  - unfold m'. destruct dl; cbn; rewrite ?lookup_insert_eq; [done|]. by rewrite !lookup_insert_ne.
  - exact Huse.
  - exact Hm.
Qed.

(** The pages of a process just allocated. *)
Lemma new_own_pages m l q pid0 tfa us pt T :
  free_inv m l -> owned m l (new_proc q pid0 tfa us pt) T [] -> pt <> 0 -> thread_pages (threads q) = [] ->
  is_Some (mem m !! us) ->
  tfa <> 0 /\ us <> 0 /\ forall T' U, own_pages (new_proc q pid0 tfa us pt) T' U = tfa :: us :: T' ++ U.
Proof.
  intros Hf Ho Hpt Htp [pg Hus].
  assert (us <> 0) as Hus0 by (eapply page_ok_nonzero, fi_pages; [exact Hf|exact Hus]).
  assert (tfa <> 0) as Htf0.
  { destruct (ow_space _ _ _ _ _ Ho) as [[? _]|(_ & ? & ? & _ & Hok & _)]; [done|by apply page_ok_nonzero]. }
  split_and!; [done|done|]. intros T' U. unfold own_pages. cbn [new_proc trapframe_ptr usage_time threads].
  rewrite Htp. unfold nz. by rewrite (proj2 (Z.eqb_neq us 0)), (proj2 (Z.eqb_neq tfa 0)).
Qed.

(** The child is complete. *)
Lemma fork_commit dl p pr tblo N b tf s l i q m2 l2 T U tbl tfa us pt fs' m' :
  let np := new_proc q (nextpid s) tfa us pt in
  let c := child_of p pr (set_sz (sz pr) np) in
  procs s !! i = Some q -> state q = UNUSED ->
  own_pages np T U ++ l2 ≡ₚ l -> (forall T' U', own_pages np T' U' = tfa :: us :: T' ++ U') -> tfa <> 0 -> us <> 0 ->
  space m2 l2 pt tbl tfa N -> (forall a, a ∈ T <-> is_table tbl a) -> U = frames (pte_of m2 tbl) 0 N ->
  (forall k, (k < N)%nat ->
     PTE_FLAGS (pte_of m2 tbl (Z.of_nat k * PGSIZE)) = PTE_FLAGS (pte_of (pm s) tblo (Z.of_nat k * PGSIZE)) /\
     bytes_at (PTE2PA (pte_of m2 tbl (Z.of_nat k * PGSIZE))) m2 = Some (b k)) ->
  (forall a, in_use (pm s) l a -> in_use m2 l2 a /\ mem m2 !! a = mem (pm s) !! a) ->
  free_inv m' l2 -> owned m' l2 c T U ->
  mem m' !! tfa = Some (PgTrapframe (<[TF_a0 := 0]> tf)) -> mem m' !! us = Some (PgUsage (fork_usage dl)) ->
  (forall a, in_use m2 l2 a -> in_use m' l2 a) ->
  (forall a, a ∉ nz tfa ++ nz us -> mem m' !! a = mem m2 !! a) ->
  fork_post dl p pr tblo N b tf s l (nextpid s) (mk_st [] (set_files fs' (set_nextpid (i32 (nextpid s + 1))
    (set_pm m' (set_procs (<[i := c]> (procs s)) s))))).
Proof.
  intros np c Hq Hun Hl Eown Htf0 Hus0 Hs HTe HU Hcont Hfr Hf' Ho Htf Hus Huse Hm. left.
  assert (nz tfa ++ nz us = [tfa; us]) as Enz
    by (unfold nz; by rewrite (proj2 (Z.eqb_neq us 0)), (proj2 (Z.eqb_neq tfa 0))).
  assert (forall a, a ∈ T ++ U -> mem m' !! a = mem m2 !! a) as HmTU.
  { destruct Ho as [_ Hnd _]. change (own_pages c T U) with (own_pages np T U) in Hnd. rewrite Eown in Hnd.
    apply NoDup_cons in Hnd as [Hn1 [Hn2 _]%NoDup_cons]. intros a Ha. apply Hm. rewrite Enz.
    apply not_elem_of_cons. split; [intros ->; apply Hn1; by right|].
    apply not_elem_of_cons. split; [by intros ->|apply not_elem_of_nil]. }
  destruct (space_frame m2 l2 m' l2 _ _ _ _ Hs) as [Hs' Hpte].
  { intros a Ha. assert (a ∈ T ++ U) as HaTU by (rewrite elem_of_app, HTe, HU; tauto).
    split; [|by apply HmTU]. apply (ow_use _ _ _ _ _ Ho). rewrite own_pages_fixed, elem_of_app. by right. }
  exists i, q, m', l2, fs', tfa, us, pt, T, U, tbl.
  split_and!; [done|done|done|done|done|exact Ho|exact Hl|done| |done|done|].
  - intros k Hk. rewrite Hpte. destruct (Hcont k Hk) as [? Hb]. split; [done|].
    unfold bytes_at in *. rewrite HmTU; [done|]. rewrite elem_of_app, HU. right.
    apply list_elem_of_lookup. exists k. rewrite frames_lookup by done. by rewrite Z.add_0_l.
  - intros a Ha. destruct (Hfr a Ha) as [Ha2 E2]. split; [by apply Huse|].
    rewrite Hm; [exact E2|]. rewrite Enz. intros HaX. destruct Ha as [_ Ha]. apply Ha.
    rewrite <- Hl, Eown. set_solver.
Qed.

Lemma fork_spec dl p pr tblo N b tf c s l :
  cur s = Some p -> procs s !! p = Some pr -> state pr <> UNUSED -> table_ok s ->
  free_inv (pm s) l -> parent_mem (pm s) l pr tblo N b tf ->
  rooms (files s) (ofile pr) NOFILE -> cwd pr = Some c -> inode_room (files s) c 1 ->
  wp (fork_with dl) (fork_post dl p pr tblo N b tf s l) (mk_st [] s).
Proof.
  intros Hc Hp Hst [Hlen Hclean] Hf Hpar Hrm Hcwd Hir. rewrite fork_with_finish.
  wp_step. apply (wp_my p); [done|]. wp_step.
  eapply wp_mono; [apply (allocproc_spec [] s l); try done; try (intros; apply not_elem_of_nil)|].
  { intros i q Hq Hun. by destruct (Hclean i q Hq Hun). }
  intros [i|] st' Hpost.
  2:{ apply wp_ret. right. split; [done|].
      destruct Hpost as [[-> Hall]|(i & q & m' & l' & Hq & Hun & -> & Hf' & Hl' & Hfr)].
      - exists (pm s), l, (procs s), (nextpid s). split_and!; [by destruct s|done|done|by left|done].
      - exists m', l', (<[i := freed_proc q]> (procs s)), (i32 (nextpid s + 1)).
        split_and!; [done|done|done| |done]. right. exists i, q, (freed_proc q).
        destruct (freed_clean q) as (? & ? & ?). done. }
  destruct Hpost as (q & m1 & l1 & tfa & us & pt & T & Hq & Hun & Hfirst & -> & Hf1 & Ho & Hl & Hpt & Hus & Hfr).
  destruct (Hclean i q Hq Hun) as [(_ & _ & _ & Hsz0 & Hth & Htp) Hof]. set (np := new_proc q (nextpid s) tfa us pt) in *.
  pose proof (lookup_lt_Some _ _ _ Hq) as Hi. assert (p <> i) as Hpi by (intros ->; congruence).
  wp_step. apply (wp_get_proc p pr); [cbn; by rewrite list_lookup_insert_ne|].
  wp_step. apply (wp_get_proc i np); [cbn; by apply list_lookup_insert_eq|]. wp_step.
  apply wp_mem_op. eapply wp_mono;
    [apply (fork_copy_spec (pm s) l pr tblo N b tf m1 l1 T np); try done; intros [=]%list_elem_of_singleton|].
  intros r st' (m2 & l2 & -> & Hf2 & Hfr2 & Hcase).
  assert (forall a, in_use (pm s) l a -> in_use m2 l2 a /\ mem m2 !! a = mem (pm s) !! a) as Hfr'.
  { intros a Ha. destruct (Hfr a Ha) as [Ha1 E1]. destruct (Hfr2 a Ha1) as [Ha2 E2].
    - intros HaT. destruct Ha as [_ Ha]. apply Ha. rewrite Hl, own_pages_fixed, !elem_of_app. tauto.
    - split; [done|]. etrans; [exact E2|exact E1]. }
  destruct Hcase as [(-> & T' & U & tbl & Ho' & Hl2 & Hs2 & HTe & HU & Hcont)|(-> & T' & Ho' & Hl2)].
  - cbn [Z.ltb Z.compare held data]. wp_step. eapply wp_upd_proc; [cbn; by apply list_lookup_insert_eq|].
    cbn [procs set_pm set_procs set_nextpid]. rewrite list_insert_insert_eq.
    destruct (new_own_pages m1 l1 q (nextpid s) tfa us pt T Hf1 Ho Hpt Htp ltac:(eauto)) as (Htf0 & Hus0 & Eown).
    assert (mem m2 !! us = mem m1 !! us) as Hus2.
    { destruct Ho as [_ Hnd Hu]. fold np in Eown. rewrite Eown in Hnd, Hu.
      apply NoDup_cons in Hnd as [_ [Hn _]%NoDup_cons]. apply Hfr2; [apply Hu; right; by left|].
      rewrite app_nil_r in Hn. done. }
    eapply wp_mono; [apply (fork_tail dl p pr i (set_sz (sz pr) np) tf (mk_usage 0 0 MAX_UINT 0 MAX_UINT) T' U c _ _ l2);
      try done|].
    + cbn. by rewrite list_lookup_insert_ne.
    + cbn. by apply list_lookup_insert_eq.
    + cbn [pm set_procs set_pm set_nextpid]. destruct (Hfr' _ (pm_tf_use _ _ _ _ _ _ _ Hpar)) as [_ ->]. apply Hpar.
    + cbn. by rewrite Hus2.
    + intros r st' (-> & fs' & m' & Hf' & Hoc & -> & Htfm & Husm & Huse & Hm). cbn [procs set_procs].
      rewrite list_insert_insert_eq.
      assert (mem m' !! us = Some (PgUsage (fork_usage dl))) as Husm' by (destruct dl; exact Husm).
      pose proof (fork_commit dl p pr tblo N b tf s l i q m2 l2 T' U tbl tfa us pt fs' m' Hq Hun Hl2 Eown Htf0 Hus0
        Hs2 HTe HU Hcont Hfr' Hf' Hoc Htfm Husm' Huse Hm) as Hpost.
      change (pid (set_sz (sz pr) np)) with (nextpid s).
      refine (eq_ind _ (fork_post dl p pr tblo N b tf s l (nextpid s)) Hpost _ _). reflexivity.
  - cbn [Z.ltb Z.compare held data]. wp_step.
    eapply (freeproc_spec i np _ _ l2 T' []); [cbn; by apply list_lookup_insert_eq|done|done|..].
    { intros [=]%list_elem_of_singleton. }
    { exact Ho'. }
    intros m3 l3 [Hf3 Hl3 Hfr3]. wp_step. apply wp_release_head; [apply not_elem_of_nil|]. apply wp_ret.
    right. split; [done|]. exists m3, l3, (<[i := freed_proc np]> (procs s)), (i32 (nextpid s + 1)).
    split_and!; [|done|by rewrite Hl3| |].
    + cbn. rewrite list_insert_insert_eq. done.
    + right. exists i, q, (freed_proc np). destruct (freed_clean np) as (? & ? & ?). done.
    + intros a Ha. destruct (Hfr' a Ha) as [Ha2 E2]. destruct (Hfr3 a Ha2) as [Ha3 E3].
      * intros HaO. destruct Ha as [_ Ha]. apply Ha. rewrite <- Hl2, elem_of_app. by left.
      * split; [done|]. etrans; [exact E3|exact E2].
Qed.
End forking.
