(* ===== verification/ProcExample.v ===== *)
(** * A concrete kernel for the examples of the process theorems

    Twenty-four pages of managed memory and an empty process table; then the
    kernel in which [allocproc] and [uvmalloc] have set up a process with one
    page of memory in slot 0, which is running. *)

From S2P Require Import Prelude Spinlock Riscv Kalloc Vm VmProofs VmSpace VmFree Queue PriorityQueue KString Proc ProcMem ProcProofs ProcLife ProcFork.

Definition bpg (i : nat) : Z := PHYSTOP - (24 - Z.of_nat i) * 4096.

Lemma boot_image_layout :
  KERNBASE <= KERNBASE < KERNBASE + 4096 /\
  KERNBASE + 4096 < bpg 0 < PHYSTOP /\
  (KERNBASE + 4096) mod PGSIZE = 0 /\ KERNBASE mod PGSIZE = 0.
Proof. vm_compute. done. Qed.

Definition boot_image : Image :=
  {| kernel_end := bpg 0; etext := KERNBASE + 4096; trampoline := KERNBASE;
     image_layout := boot_image_layout |}.
#[local] Existing Instance boot_image.

(** A file layer that keeps no state. *)
#[export] Instance null_files : FileOps unit :=
  {| filedup f := ret f; fileclose _ := ret tt; idup i := ret i; iput _ := ret tt;
     begin_op := ret tt; end_op := ret tt; namei _ := ret (Some 0%nat) |}.
#[export, refine] Instance null_laws : FileLaws unit :=
  {| file_room _ _ _ := True; inode_room _ _ _ := True |}.
Proof.
  - done.
  - intros f k hl s _ _. exists tt. split; [by destruct s as [? ? ? ? ? ? ? ? ? ? ? []]|done].
  - intros i k hl s _ _. exists tt. by destruct s as [? ? ? ? ? ? ? ? ? ? ? []].
Defined.

Definition boot_list : list Z := bpg <$> seq 0 24.
Definition boot_mem : list (Z * page) :=
  (fun i => (bpg i, PgRun (if (i =? 23)%nat then 0 else bpg (S i)))) <$> seq 0 24.
Definition boot_pm : pmem := mk_pmem (list_to_map boot_mem) (bpg 0).

Definition boot : kst unit :=
  mk_kst (replicate (Z.to_nat NPROC) zero_proc) None boot_pm (PQ.mk (replicate (Z.to_nat NPROC) 0%nat) 0)
    (Queue.mk (replicate (Z.to_nat NPROC) None) 0 0 0) 1 None 10 true (mk_rlist [] 0 0) [] tt.

Lemma boot_free : free_inv boot_pm boot_list.
Proof.
  assert (forall pa p, mem boot_pm !! pa = Some p ->
    exists i, (i < 24)%nat /\ pa = bpg i /\ p = PgRun (if (i =? 23)%nat then 0 else bpg (S i))) as Hc.
  { intros pa p Hp. apply elem_of_list_to_map_2 in Hp. unfold boot_mem in Hp.
    apply list_elem_of_fmap in Hp as (i & [= -> ->] & Hi). apply elem_of_seq in Hi. exists i. split_and!; [lia|done|done]. }
  split.
  - unfold boot_list. cbn -[bpg boot_pm]. repeat (split; [done|eexists; split; [vm_compute; reflexivity|]]). done.
  - apply (bool_decide_unpack _). by vm_compute.
  - intros pa p (i & Hi & -> & _)%Hc. unfold page_ok, bpg, PHYSTOP, KERNBASE, PGSIZE. cbn.
    unfold bpg, PHYSTOP, KERNBASE. lia.
  - intros pa n (i & Hi & -> & _)%Hc. apply list_elem_of_fmap. exists i. split; [done|]. apply elem_of_seq. lia.
Qed.

Lemma Ret_inj {S A} (a a' : A) (s s' : st S) : Ret a s = Ret a' s' -> a = a' /\ s = s'.
Proof. by intros [= -> ->]. Qed.

(** A new process given one page, and its registers. *)
Lemma grown_parent m l p T hl m2 tf :
  free_inv m l -> owned m l p T [] -> pagetable p <> 0 -> sz p = 0 -> LkKmem ∉ hl ->
  uvmalloc (pagetable p) 0 4096 PTE_W (mk_st hl m) = Ret 4096 (mk_st hl m2) ->
  exists l2 T U tbl, let m3 := set_page (trapframe_ptr p) (PgTrapframe tf) m2 in
    let q := set_state RUNNING (set_cwd (Some 0%nat) (set_sz 4096 p)) in
    free_inv m3 l2 /\ owned m3 l2 q T U /\
    parent_mem m3 l2 q tbl 1 (fun _ => replicate (Z.to_nat PGSIZE) 0) tf.
Proof.
  intros Hf Ho Hpt Hsz Hh Hgrow. destruct layout_consts as (Hmax & Htr & Htf).
  pose proof Ho as [[[Hz0 _]|(_ & tbl & n & Hs & Hok & _ & Hszn & _ & HTe & _)] _ _]; [destruct (Hpt Hz0)|].
  assert (n = 0%nat) as -> by (rewrite Hsz in Hszn; unfold PGSIZE in *; lia).
  destruct (uvmalloc_spec 1 _ l hl _ tbl 0 4096 PTE_W Hf (sp_pt _ _ _ _ _ _ Hs)) as (r & st' & E & Hpost).
  { done. }
  { lia. }
  { vm_compute. done. }
  { vm_compute. split; [split; congruence|congruence]. }
  { right. vm_compute. split; congruence. }
  { intros x Hx. apply (sp_rest _ _ _ _ _ _ Hs). change (PGROUNDUP 0) with 0 in Hx. unfold PGSIZE in *. lia. }
  rewrite Hgrow in E. apply Ret_inj in E as [<- <-].
  destruct Hpost as (m2' & l2 & tbl2 & Est & [(_ & U & HU & Hz & Hu)|([=] & _)]).
  assert (m2' = m2) as -> by (by apply (f_equal data) in Est).
  destruct (owned_alloc _ l p tbl T U (fun _ => Z.lor (Z.lor PTE_R PTE_U) PTE_W) (fun _ => filled 0)
    m2 l2 tbl2 4096 Hf Ho HTe Hs Hpt Hok Hu Hz) as (T' & Ho' & _ & Hs' & HTe' & HU' & Hcont & Hfr').
  { intros k _. vm_compute. split; [split; congruence|congruence]. }
  { lia. }
  { rewrite HU. unfold PGSIZE. lia. }
  { rewrite HU. unfold PGSIZE. lia. }
  rewrite HU in Hs', HU', Hcont.
  set (tfa := trapframe_ptr p) in *. set (m3 := set_page tfa (PgTrapframe tf) m2).
  assert (tfa <> 0) as Htf0 by (by apply page_ok_nonzero).
  assert (tfa ∈ fixed_pages p) as Hin.
  { apply elem_of_app. left. fold tfa. unfold nz. rewrite (proj2 (Z.eqb_neq _ _) Htf0). by left. }
  pose proof (ow_nodup _ _ _ _ _ Ho') as Hnd. rewrite own_pages_fixed in Hnd. apply NoDup_app in Hnd as (_ & Hd & _).
  assert (in_use m2 l2 tfa) as Htfu.
  { apply (ow_use _ _ _ _ _ Ho'). rewrite own_pages_fixed. apply elem_of_app. by left. }
  assert (forall b, b ∈ T' ++ U -> mem m3 !! b = mem m2 !! b) as Hm3.
  { intros b Hb. apply lookup_insert_ne. intros <-. exact (Hd tfa Hin Hb). }
  assert (forall b, in_use m2 l2 b -> in_use m3 l2 b) as Huse by (intros b Hb; apply in_use_write; exact Hb).
  assert (forall b, b ∈ own_pages (set_sz 4096 p) T' U -> in_use m3 l2 b) as Hown
    by (intros b Hb; by apply Huse, (ow_use _ _ _ _ _ Ho')).
  destruct (owned_frame m2 l2 m3 _ T' U Ho' Hown Hm3) as [O1 O2 O3].
  destruct (space_frame m2 l2 m3 l2 _ _ _ _ Hs') as [Hs3 Hpte].
  { intros b Hb. assert (b ∈ T' ++ U) as Hb' by (rewrite elem_of_app, HTe'; rewrite HU' in Hb; exact Hb).
    split; [|by apply Hm3]. apply Hown. rewrite own_pages_fixed. apply elem_of_app. by right. }
  exists l2, T', U, tbl2. split; [apply free_inv_write; [apply Hu|exact Htfu|intros; discriminate]|].
  split; [split; [exact O1|exact O2|exact O3]|].
  split; [exact Hs3| | |apply lookup_insert_eq|apply Huse; exact Htfu].
  - cbn [sz set_sz set_cwd set_state]. unfold PGSIZE. lia.
  - intros k Hk. rewrite Hpte. destruct (Hcont k Hk) as [_ Hc].
    split; [|apply length_replicate]. apply bytes_at_mem. rewrite Hm3; [exact Hc|].
    rewrite elem_of_app. right. rewrite <- HU'. apply list_elem_of_lookup. exists k.
    rewrite frames_lookup by done. by rewrite Z.add_0_l.
Qed.

(** ** The process of slot 0 *)

Definition demo_st : st (kst unit) :=
  match allocproc (mk_st [] boot) with Ret _ s => s | _ => mk_st [] boot end.
Definition demo_new : proc := default zero_proc (procs (data demo_st) !! 0%nat).
Definition demo_m : pmem :=
  match uvmalloc (pagetable demo_new) 0 4096 PTE_W (mk_st [LkProc 0] (pm (data demo_st))) with
  | Ret _ s => data s | _ => boot_pm end.
Definition demo_tf : trapframe := replicate TF_words 7.
Definition demo_proc : proc := set_state RUNNING (set_cwd (Some 0%nat) (set_sz 4096 demo_new)).
Definition demo_k : kst unit :=
  set_cur (Some 0%nat) (set_procs (<[0%nat := demo_proc]> (procs (data demo_st)))
    (set_pm (set_page (trapframe_ptr demo_new) (PgTrapframe demo_tf) demo_m) (data demo_st))).

Lemma demo_alloc : allocproc (mk_st [] boot) = Ret (Some 0%nat) demo_st.
Proof. vm_compute. reflexivity. Qed.

Lemma demo_grow :
  uvmalloc (pagetable demo_new) 0 4096 PTE_W (mk_st [LkProc 0] (pm (data demo_st))) =
    Ret 4096 (mk_st [LkProc 0] demo_m).
Proof. vm_compute. reflexivity. Qed.

Lemma boot_clean i p :
  procs boot !! i = Some p -> state p = UNUSED -> slot_clean p /\ length (ofile p) = NOFILE.
Proof.
  intros [-> _]%lookup_replicate _. split; [|done]. by split_and!.
Qed.

#[local] Opaque demo_st demo_m boot.

(** The process as [allocproc] left it. *)
Lemma demo_allocated : exists l T,
  free_inv (pm (data demo_st)) l /\ owned (pm (data demo_st)) l demo_new T [] /\
  pagetable demo_new <> 0 /\ sz demo_new = 0 /\
  mem (pm (data demo_st)) !! usage_time demo_new = Some (PgUsage (mk_usage 0 0 MAX_UINT 0 MAX_UINT)) /\
  thread_pages (threads demo_new) = [].
Proof.
  destruct (proj1 (wp_run _ _ _) (allocproc_spec [] boot boot_list eq_refl
    (fun i => not_elem_of_nil _) (not_elem_of_nil _) (not_elem_of_nil _) boot_free
    (fun i p H1 H2 => proj1 (boot_clean i p H1 H2)))) as (r & st' & E & Hpost).
  rewrite demo_alloc in E. apply Ret_inj in E as [<- <-].
  destruct Hpost as (p & m' & l' & tf & us & pt & T & Hp & Hun & _ & Hst & Hf & Ho & _ & Hpt & Hus & _).
  assert (pm (data demo_st) = m') as Em by (by rewrite Hst).
  assert (demo_new = new_proc p (nextpid boot) tf us pt) as En.
  { unfold demo_new. rewrite Hst. cbn [data procs set_nextpid set_pm set_procs].
    rewrite list_lookup_insert_eq; [done|]. by eapply lookup_lt_Some. }
  destruct (boot_clean _ _ Hp Hun) as [(_ & _ & _ & Hsz & _ & Htp) _].
  exists l', T. rewrite Em, En. by split_and!.
Qed.

Lemma demo_ready : exists l T U tbl,
  free_inv (pm demo_k) l /\ owned (pm demo_k) l demo_proc T U /\
  parent_mem (pm demo_k) l demo_proc tbl 1 (fun _ => replicate (Z.to_nat PGSIZE) 0) demo_tf.
Proof.
  destruct demo_allocated as (l & T & Hf & Ho & Hpt & Hsz & _).
  exact (grown_parent _ l demo_new T [LkProc 0] demo_m demo_tf Hf Ho Hpt Hsz
    ltac:(intros [=]%list_elem_of_singleton) demo_grow).
Qed.
