(* ===== verification/ProcTheorems.v ===== *)
(** * What the process operations guarantee

    The properties of sleeping, killing, exiting, waiting, allocating and
    forking, each with an instance on the kernel of ProcExample.v. *)

From S2P Require Import Prelude Spinlock Riscv Kalloc Vm VmProofs VmSpace VmFree Queue PriorityQueue KString Proc ProcMem ProcProofs ProcLife ProcFork ProcExample.

Section theorems.
Context {img : Image} {F : Type}.
Implicit Types (s : kst F) (hl : list lockid).


(** no switch with a lock held.  [sched] never returns and never faults
    into a switch in a bad state: it reaches [swtch] only when the current
    process holds its own lock and no other, and is no longer RUNNING; the
    switch itself leaves the table and the locks alone. *)
Theorem sched_switches_safely (st0 st1 : st (kst F)) k :
  sched st0 = Swtch st1 k ->
  exists i p, cur (data st0) = Some i /\ held st0 = [LkProc i] /\
    procs (data st0) !! i = Some p /\ state p <> RUNNING /\
    held st1 = held st0 /\ procs (data st1) = procs (data st0) /\ cur (data st1) = Some i.
Proof.
  destruct st0 as [hl s]. unfold sched. intros H.
  apply bind_swtch_inv in H as (i & s1 & E1 & H); [|apply deref_no_swtch].
  apply deref_inv in E1 as [Hc ->].
  apply bind_swtch_inv in H as (h & s1 & [= <- <-] & H); [|done]. cbn [held] in H.
  destruct (bool_decide_reflect (LkProc i ∈ hl)) as [Hin|]; [|done]. cbn [negb] in H.
  apply bind_swtch_inv in H as (n & s1 & [= <- <-] & H); [|done]. cbn [held] in H.
  destruct (Z.eqb_spec (Z.of_nat (length hl)) 1) as [Hlen|]; [|done]. cbn [negb] in H.
  apply bind_swtch_inv in H as (p & s1 & E1 & H); [|apply deref_no_swtch].
  unfold get_proc in E1. apply deref_inv in E1 as [Hp ->]. destruct (bool_decide_reflect (state p = RUNNING)) as [|Hst]; [done|].
  assert (hl = [LkProc i]) as ->.
  { destruct hl as [|x [|? ?]]; try (cbn in Hlen; lia). apply list_elem_of_singleton in Hin. by subst. }
  apply bind_swtch_inv in H as (on & s1 & [= <- <-] & H); [|done]. cbn [held] in H.
  apply bind_swtch_inv in H as (ie & s1 & [= <- <-] & H); [|done].
  apply bind_swtch_inv in H as (now & s1 & [= <- <-] & H); [|done].
  apply bind_swtch_inv in H as ([] & s1 & E1 & H); [|apply upd_usage_no_swtch].
  apply upd_usage_frame in E1 as [m' ->]. injection H as <- _. by exists i, p.
Qed.

(** [kill] marks the first process with the given identifier, waking it if
    it sleeps, and returns 0; it returns -1 and changes nothing exactly when no
    entry of the table has that identifier. *)
Theorem kill_marks_one pid0 hl s :
  length (procs s) = Z.to_nat NPROC -> (forall i, LkProc i ∉ hl) ->
  exists r s', kill pid0 (mk_st hl s) = Ret r (mk_st hl s') /\
    ((r = -1 /\ s' = s /\ forall i x, procs s !! i = Some x -> pid x <> pid0) \/
     (r = 0 /\ exists i x, procs s !! i = Some x /\ pid x = pid0 /\
        (forall j y, (j < i)%nat -> procs s !! j = Some y -> pid y <> pid0) /\
        s' = set_procs (<[i := kill_entry x]> (procs s)) s /\
        killed_flag (kill_entry x) = 1 /\ state (kill_entry x) <> SLEEPING)).
Proof.
  intros Hlen Hh. destruct (proj1 (wp_run _ _ _) (kill_spec pid0 hl s Hlen Hh)) as (r & st' & E & H).
  destruct H as [(-> & -> & Hn)|(i & x & -> & Hx & Hpid & Hfirst & ->)].
  - exists (-1), s. split; [exact E|]. by left.
  - eexists 0, _. split; [exact E|]. right. split; [done|]. exists i, x. split_and!; [done|done|done|done| |];
      unfold kill_entry; by case_bool_decide.
Qed.

(** C37: [kill(0)] kills a process that does not exist yet.  When some slot is
    free and the free slots are the ones with identifier 0, [kill(0)] succeeds,
    and the process that [allocproc] next creates is already killed: the flag
    set on the free slot is never cleared. *)
Theorem kill_zero_kills_newborn s l :
  length (procs s) = Z.to_nat NPROC -> free_inv (pm s) l ->
  (forall i p, procs s !! i = Some p -> state p = UNUSED -> slot_clean p) ->
  (forall i p, procs s !! i = Some p -> (pid p = 0 <-> state p = UNUSED)) ->
  (exists i p, procs s !! i = Some p /\ state p = UNUSED) ->
  exists s1, kill 0 (mk_st [] s) = Ret 0 (mk_st [] s1) /\
    exists r st2, allocproc (mk_st [] s1) = Ret r st2 /\
      forall i, r = Some i -> exists p, procs (data st2) !! i = Some p /\ state p = USED /\ killed_flag p = 1.
Proof.
  intros Hlen Hf Hclean Hpid (i0 & p0 & Hp0 & Hun0).
  assert (forall i : nat, LkProc i ∉ []) as Hh by (intros; apply not_elem_of_nil).
  destruct (proj1 (wp_run _ _ _) (kill_spec 0 [] s Hlen Hh)) as (r & st' & E & H).
  destruct H as [(-> & -> & Hn)|(i & x & -> & Hx & Hpx & Hfirst & ->)].
  { destruct (Hn i0 p0 Hp0). by apply (Hpid i0). }
  assert (state x = UNUSED) as Hun by (by apply (Hpid i)).
  assert (kill_entry x = set_killed 1 x) as Ek by (unfold kill_entry; by rewrite Hun).
  rewrite Ek in *. pose proof (lookup_lt_Some _ _ _ Hx) as Hi.
  eexists. split; [exact E|].
  assert (forall j q, <[i := set_killed 1 x]> (procs s) !! j = Some q -> state q = UNUSED ->
    slot_clean q /\ (j = i /\ q = set_killed 1 x \/ j <> i /\ procs s !! j = Some q)) as Hsl.
  { intros j q Hq Hq'. destruct (decide (j = i)) as [->|Hne].
    - rewrite list_lookup_insert_eq in Hq by done. injection Hq as <-. split; [exact (Hclean i x Hx Hun)|by left].
    - rewrite list_lookup_insert_ne in Hq by done. split; [by eapply Hclean|by right]. }
  destruct (proj1 (wp_run _ _ _) (allocproc_spec [] (set_procs (<[i := set_killed 1 x]> (procs s)) s) l
    ltac:(cbn; by rewrite length_insert) Hh (not_elem_of_nil _) (not_elem_of_nil _) Hf
    (fun j q H1 H2 => proj1 (Hsl j q H1 H2)))) as (r & st2 & E2 & Hpost).
  exists r, st2. split; [exact E2|]. intros j ->.
  destruct Hpost as (q & m' & l' & tf & us & pt & T & Hq & Hqu & Hbelow & -> & _).
  cbn [procs set_procs set_nextpid set_pm data] in *.
  exists (new_proc q (nextpid s) tf us pt). split_and!; [|done|].
  - apply list_lookup_insert_eq. by eapply lookup_lt_Some.
  - destruct (Hsl j q Hq Hqu) as [_ [[-> ->]|[Hne Hq0]]]; [done|]. exfalso.
    destruct (Nat.lt_trichotomy j i) as [Hlt|[?|Hgt]]; [|done|].
    + apply (Hfirst j q Hlt Hq0). by apply (Hpid j).
    + apply (Hbelow i (set_killed 1 x) Hgt); [by apply list_lookup_insert_eq|exact Hun].
Qed.

(** C30: what [exit] leaves.  From [acquire(&wait_lock)] on, [exit] reaches the
    scheduler with exactly its own lock held, itself a ZOMBIE with the exit
    status; each of its children belongs to [init], who has been woken if it was
    asleep waiting and there was a child; its parent has been woken if it was
    asleep waiting; nothing else changed in the table.  Were it ever resumed,
    it would panic. *)
Theorem exit_leaves_zombie p status pr u s :
  cur s = Some p -> procs s !! p = Some pr -> length (procs s) = Z.to_nat NPROC ->
  mem (pm s) !! usage_time pr = Some (PgUsage u) -> parent pr <> Some p ->
  exists s1 k, exit_zombie p status (mk_st [] s) = Swtch (mk_st [LkProc p] s1) k /\
    (forall st', k st' = Panic "zombie exit") /\
    procs s1 !! p = Some (zombie status pr) /\
    forall j x, j <> p -> procs s !! j = Some x ->
      procs s1 !! j = Some (woken (chan_of (parent pr)) (Some p) j
        (if has_child p (length (procs s)) (procs s)
         then woken (chan_of (initproc s)) (Some p) j (adopt p (initproc s) x)
         else adopt p (initproc s) x)).
Proof.
  intros Hc Hp Hlen Hu Hpar. destruct (exit_zombie_run p status pr u s Hc Hp Hlen Hu) as (k & E & Hk).
  assert (adopt p (initproc s) pr = pr) as Ea by (unfold adopt; by rewrite bool_decide_false).
  rewrite Ea in E. eexists _, k. split_and!; [exact E|exact Hk| |].
  - cbn. apply list_lookup_insert_eq. rewrite length_imap. by eapply lookup_lt_Some.
  - intros j x Hj Hx. cbn [procs charged set_pm set_procs].
    rewrite list_lookup_insert_ne, list_lookup_imap, Hx by done. cbn [fmap option_fmap option_map].
    unfold exit_entry, reparented. rewrite Ea, Hc.
    by rewrite (proj2 (Nat.ltb_lt j _)) by (by eapply lookup_lt_Some).
Qed.


(** [allocproc] always returns.  Either it returns the first unused slot,
    locked, USED, with the next identifier and fresh pages for its trapframe, its
    usage record and a page table that maps exactly the trampoline and the
    trapframe, these pages being exactly the ones that left the free list; or
    it returns 0 with every page back on the free list and the slot unused; no
    page in use changes in either case. *)
Theorem allocproc_all_or_nothing hl s l :
  length (procs s) = Z.to_nat NPROC -> (forall i, LkProc i ∉ hl) -> LkPid ∉ hl -> LkKmem ∉ hl ->
  free_inv (pm s) l ->
  (forall i p, procs s !! i = Some p -> state p = UNUSED -> slot_clean p) ->
  exists r st', allocproc (mk_st hl s) = Ret r st' /\ allocproc_post hl s l r st'.
Proof. intros. apply wp_run. by apply allocproc_spec. Qed.

(** C28: [fork] copies the process or nothing.  It always returns: either the
    child's identifier, the child being a RUNNABLE process in a slot that was
    free whose parent is the caller, with the caller's registers (0 as return
    value), a copy of each page of the caller's memory with the same
    permissions, its open files, directory and name, and a fresh usage record
    (with the given deadline for [fork_deadline]); or -1, with every page back on
    the free list.  No page in use before changes in either case. *)
Theorem fork_copies_or_nothing `{FileLaws F} p pr tblo N b tf c s l :
  cur s = Some p -> procs s !! p = Some pr -> state pr <> UNUSED -> table_ok s ->
  free_inv (pm s) l -> parent_mem (pm s) l pr tblo N b tf ->
  rooms (files s) (ofile pr) NOFILE -> cwd pr = Some c -> inode_room (files s) c 1 ->
  (exists r st', fork (mk_st [] s) = Ret r st' /\ fork_post None p pr tblo N b tf s l r st') /\
  forall d, exists r st', fork_deadline d (mk_st [] s) = Ret r st' /\
    fork_post (Some d) p pr tblo N b tf s l r st'.
Proof. intros. split; intros; apply wp_run; by eapply fork_spec. Qed.
End theorems.

(** ** Instances, on the kernel of ProcExample.v *)

#[local] Existing Instance boot_image.

Definition demo_u : cpu_usage := mk_usage 0 0 MAX_UINT 0 MAX_UINT.

Lemma demo_facts :
  cur demo_k = Some 0%nat /\ procs demo_k !! 0%nat = Some demo_proc /\
  length (procs demo_k) = Z.to_nat NPROC /\
  mem (pm demo_k) !! usage_time demo_proc = Some (PgUsage demo_u).
Proof. vm_compute. done. Qed.

(** Process 0 as a zombie child of process 1, which is running. *)
Definition orphan (p : proc) : proc := set_state ZOMBIE (set_parent (Some 1%nat) p).
Definition family (s : kst unit) (p : proc) : kst unit :=
  set_cur (Some 1%nat) (set_procs (<[1%nat := p]> (<[0%nat := orphan p]> (procs s))) s).


Lemma sched_switches_safely_witness :
  let s := set_procs (<[0%nat := set_state RUNNABLE demo_proc]> (procs demo_k)) demo_k in
  exists st1 k, sched (mk_st [LkProc 0] s) = Swtch st1 k /\ held st1 = [LkProc 0].
Proof.
  destruct demo_facts as (Hc & Hp & Hlen & Hu). cbv zeta. revert Hc Hp Hlen Hu.
  generalize demo_k demo_proc demo_u. intros s p u Hc Hp Hlen Hu.
  pose proof (sched_run 0 (set_state RUNNABLE p) u
    (set_procs (<[0%nat := set_state RUNNABLE p]> (procs s)) s) Hc
    ltac:(apply list_lookup_insert_eq; rewrite Hlen; vm_compute; lia) ltac:(discriminate) Hu) as E.
  eexists _, _. split; [exact E|].
  destruct (sched_switches_safely _ _ _ E) as (i & p' & _ & _ & _ & _ & Hh & _). exact Hh.
Defined.

Lemma kill_marks_one_witness : exists s', kill 1 (mk_st [] demo_k) = Ret 0 (mk_st [] s').
Proof.
  destruct demo_facts as (Hc & Hp & Hlen & Hu).
  destruct (kill_marks_one 1 [] demo_k Hlen (fun i => not_elem_of_nil _))
    as (r & s' & E & [(_ & _ & Hn)|(-> & _)]); [|by exists s'].
  destruct (Hn 0%nat demo_proc Hp). vm_compute. reflexivity.
Defined.

Lemma kill_zero_kills_newborn_witness : exists s1,
  kill 0 (mk_st [] boot) = Ret 0 (mk_st [] s1) /\
  exists st2, allocproc (mk_st [] s1) = Ret (Some 0%nat) st2 /\
    exists p, procs (data st2) !! 0%nat = Some p /\ killed_flag p = 1.
Proof.
  destruct (kill_zero_kills_newborn boot boot_list eq_refl boot_free
    (fun i p H1 H2 => proj1 (boot_clean i p H1 H2))) as (s1 & E1 & r & st2 & E2 & Hkilled).
  - intros i p [-> _]%lookup_replicate. done.
  - exists 0%nat, zero_proc. done.
  - assert (r = Some 0%nat) as ->.
    { pose proof E1 as E. vm_compute in E. apply Ret_inj in E as [_ E]. injection E as <-.
      vm_compute in E2. by injection E2. }
    exists s1. split; [exact E1|]. exists st2. split; [exact E2|].
    destruct (Hkilled 0%nat eq_refl) as (p & Hp & _ & Hk). eauto.
Defined.

Lemma exit_leaves_zombie_witness : exists s1 k,
  exit_zombie 0 7 (mk_st [] demo_k) = Swtch (mk_st [LkProc 0] s1) k /\
  procs s1 !! 0%nat = Some (zombie 7 demo_proc).
Proof.
  destruct demo_facts as (Hc & Hp & Hlen & Hu).
  destruct (exit_leaves_zombie 0 7 demo_proc demo_u demo_k Hc Hp Hlen Hu ltac:(vm_compute; done))
    as (s1 & k & E & _ & Hz & _). eauto.
Defined.


Lemma allocproc_all_or_nothing_witness :
  exists r st', allocproc (mk_st [] boot) = Ret r st' /\ allocproc_post [] boot boot_list r st' /\ r = Some 0%nat.
Proof.
  destruct (allocproc_all_or_nothing [] boot boot_list eq_refl (fun i => not_elem_of_nil _)
    (not_elem_of_nil _) (not_elem_of_nil _) boot_free (fun i p H1 H2 => proj1 (boot_clean i p H1 H2)))
    as (r & st' & E & Hpost).
  exists r, st'. split_and!; [exact E|exact Hpost|]. rewrite demo_alloc in E. by apply Ret_inj in E as [<- _].
Defined.

Lemma fork_copies_or_nothing_witness : exists l tbl r st',
  fork (mk_st [] demo_k) = Ret r st' /\
  fork_post None 0 demo_proc tbl 1 (fun _ => replicate (Z.to_nat PGSIZE) 0) demo_tf demo_k l r st'.
Proof.
  destruct demo_facts as (Hc & Hp & Hlen & Hu). destruct demo_ready as (l & T & U & tbl & Hf & _ & Hpar).
  assert (table_ok demo_k) as Htab.
  { split; [exact Hlen|]. intros i q Hq Hun.
    destruct i as [|i]; [rewrite Hp in Hq; injection Hq as <-; vm_compute in Hun; discriminate|].
    assert (procs demo_k !! S i = procs boot !! S i) as Eq.
    { assert (procs demo_k = <[0%nat := demo_proc]> (procs boot)) as -> by (vm_compute; reflexivity). reflexivity. }
    rewrite Eq in Hq. exact (boot_clean _ _ Hq Hun). }
  destruct (fork_copies_or_nothing 0 demo_proc tbl 1 (fun _ => replicate (Z.to_nat PGSIZE) 0) demo_tf 0%nat demo_k l
    Hc Hp ltac:(vm_compute; discriminate) Htab Hf Hpar) as [(r & st' & E & Hpost) _].
  - intros fd f _. exact I.
  - vm_compute. reflexivity.
  - exact I.
  - exists l, tbl, r, st'. split; [exact E|exact Hpost].
Defined.
