(* ===== verification/Sched.v ===== *)
(** * The scheduler (kernel/proc.c: [scheduler]; [pq_pop]'s change of state)

    One definition for each phase of an iteration of the infinite loop:
    filling the priority queue, choosing a process, running it (with or
    without threads) and putting it away.  [swtch] suspends the scheduler; it
    is resumed in the state the process left, so the states a scheduler run
    passes through are the ones its [Swtch] results show. *)

From S2P Require Import Prelude Spinlock Riscv Kalloc Queue PriorityQueue Proc.

Section sched.
Context {F : Type}.
#[local] Abbreviation K := (M (kst F)).

(** ** The heap keys in memory *)

(** [p->usage_time->sum_of_ticks] and [->deadline] of a process; a process
    without a usage record has none. *)
Definition usage_of (s : kst F) (i : nat) : option cpu_usage :=
  p ← procs s !! i;
  match mem (pm s) !! usage_time p with Some (PgUsage u) => Some u | _ => None end.
Definition key_ticks (s : kst F) (i : nat) : Z := default 0 (sum_of_ticks <$> usage_of s i).
Definition key_deadline (s : kst F) (i : nat) : Z := default 0 (deadline <$> usage_of s i).

(** The heap operations compare usage records: every process in the queue must
    have one. *)
Definition keys_readable (s : kst F) (l : list nat) : bool :=
  forallb (fun i => bool_decide (is_Some (usage_of s i))) l.

Definition lift_pq {A} (r : kst F -> PQ.result A) : K A :=
  fun s => match r (data s) with
           | PQ.Done a => Ret a s
           | PQ.PanicOverflow => Panic "Priority queue overflow"
           | PQ.OutOfFuel => NoFuel
           end.

Definition sched_push (i : nat) : K Z :=
  p <- get_proc i ;;
  pq0 <- gets pq ;;
  _ <- deref (fun s => if keys_readable s (take (PQ.size pq0) (PQ.heap pq0)) then Some tt else None) ;;
  r <- lift_pq (fun s => PQ.pq_check_and_push (key_ticks s) (key_deadline s) (pq s) i
                  (bool_decide (state p = RUNNABLE))) ;;
  modify (set_pq (snd r)) ;;
  ret (fst r).

(** [pq_pop], with the state of the popped process set under its lock. *)
Definition sched_pop : K (option nat) :=
  pq0 <- gets pq ;;
  _ <- deref (fun s => if keys_readable s (take (PQ.size pq0) (PQ.heap pq0)) then Some tt else None) ;;
  r <- lift_pq (fun s => PQ.pq_pop (key_ticks s) (key_deadline s) (pq s)) ;;
  modify (set_pq (snd r)) ;;
  match fst r with
  | None => ret None
  | Some i =>
      acquire (LkProc i) ;;
      upd_proc i (set_state CHOSEN_TO_RUN) ;;
      release (LkProc i) ;;
      ret (Some i)
  end.

(** ** Choosing *)

Definition fill_pq : K unit :=
  for_each all_procs (fun i =>
    acquire LkPq ;;
    acquire (LkProc i) ;;
    _ <- sched_push i ;;
    release (LkProc i) ;;
    release LkPq).

(** [while (flag == 0)]: pop until a process whose deadline has not passed. *)
Fixpoint choose_pq (fuel : nat) : K (option nat) :=
  match fuel with
  | O => nofuel
  | S fuel' =>
      acquire LkPq ;;
      c <- sched_pop ;;
      match c with
      | None => release LkPq ;; ret None
      | Some i =>
          acquire (LkProc i) ;;
          p <- get_proc i ;;
          u <- mem_op (load_usage (usage_time p)) ;;
          now <- gets ticks ;;
          if deadline u <=? now then
            upd_proc i (set_state DROPPED) ;;
            release (LkProc i) ;;
            release LkPq ;;
            choose_pq fuel'
          else
            release (LkProc i) ;;
            release LkPq ;;
            ret (Some i)
      end
  end.

Definition choose : K (option nat) :=
  c <- choose_pq (S (Z.to_nat NPROC)) ;;
  match c with
  | Some i => ret (Some i)
  | None =>
      acquire LkQueue ;;
      q0 <- gets q ;;
      modify (set_q (snd (Queue.pop q0))) ;;
      release LkQueue ;;
      ret (fst (Queue.pop q0))
  end.

(** ** Running *)

(** What happens around [swtch(&c->context, &p->context)]: the clock of the
    slice is started before, and after it the ticks are charged and a process
    past its deadline or its quota is set aside. *)
Definition start_slice (i : nat) : K unit :=
  p <- get_proc i ;;
  now <- gets ticks ;;
  mem_op (upd_usage (usage_time p) (fun u =>
    set_last now (if start_tick u =? 0 then set_start now u else u))).

Definition end_slice (i : nat) : K unit :=
  p <- get_proc i ;;
  now <- gets ticks ;;
  mem_op (upd_usage (usage_time p) (fun u =>
    set_sum (u32 (sum_of_ticks u + u32 (now - last_sched_tick u))) u)) ;;
  u <- mem_op (load_usage (usage_time p)) ;;
  if (deadline u <=? now) && bool_decide (state p = RUNNABLE) then
    upd_proc i (set_state DROPPED)
  else if (quota u <=? sum_of_ticks u) && bool_decide (state p = RUNNABLE) then
    upd_proc i (set_state PASSED_QUOTA) ;;
    acquire LkQueue ;;
    q0 <- gets q ;;
    modify (set_q (snd (Queue.enqueue q0 (Some i)))) ;;
    release LkQueue
  else ret tt.

(** The loop over the threads of process [i]. *)
Fixpoint run_threads (idx : list nat) (i : nat) : K unit :=
  match idx with
  | [] => ret tt
  | t :: idx' =>
      th <- get_thread i t ;;
      if bool_decide (t_state th = THREAD_RUNNABLE) then
        upd_thread i t (fun x => mk_thread THREAD_RUNNING (t_trapframe x) (t_id x) (t_join x)) ;;
        p <- get_proc i ;;
        mem_op (copy_tf (trapframe_ptr p) (t_trapframe th)) ;;
        upd_proc i (set_current_thread (Some t)) ;;
        start_slice i ;;
        swtch ;;
        end_slice i ;;
        p <- get_proc i ;;
        if bool_decide (state p = ZOMBIE) || bool_decide (state p = UNUSED) then ret tt
        else
          th <- get_thread i t ;;
          when (bool_decide (t_state th = THREAD_RUNNING))
            (upd_thread i t (fun x => mk_thread THREAD_RUNNABLE (t_trapframe x) (t_id x) (t_join x))) ;;
          th <- get_thread i t ;;
          when (negb (bool_decide (t_state th = THREAD_FREE)))
            (mem_op (copy_tf (t_trapframe th) (trapframe_ptr p))) ;;
          run_threads idx' i
      else run_threads idx' i
  end.

Definition run_proc (i : nat) : K unit :=
  acquire (LkProc i) ;;
  upd_proc i (set_state RUNNING) ;;
  modify (set_cur (Some i)) ;;
  p <- get_proc i ;;
  match current_thread p with
  | Some c =>
      th <- get_thread i c ;;
      when (negb (bool_decide (t_state th = THREAD_FREE)))
        (mem_op (copy_tf (t_trapframe th) (trapframe_ptr p))) ;;
      run_threads (seq 0 MAX_THREAD) i
  | None =>
      start_slice i ;;
      swtch ;;
      end_slice i
  end ;;
  p <- get_proc i ;;
  when (bool_decide (state p = RUNNING)) (upd_proc i (set_state RUNNABLE)) ;;
  modify (set_cur None) ;;
  release (LkProc i).

(** One iteration of [for(;;)]; the result is [found]. *)
Definition sched_round : K bool :=
  modify (set_intr true) ;;
  fill_pq ;;
  c <- choose ;;
  match c with
  | Some i => run_proc i ;; ret true
  | None => modify (set_intr true) ;; ret false
  end.

(** [scheduler] for [n] iterations of its infinite loop. *)
Fixpoint scheduler_rounds (n : nat) : K unit :=
  match n with
  | O => ret tt
  | S n' => _ <- sched_round ;; scheduler_rounds n'
  end.
Definition scheduler (n : nat) : K unit :=
  modify (set_cur None) ;; scheduler_rounds n.
End sched.
