(* ===== verification/SchedTheorems.v ===== *)
(** * What the scheduler guarantees, and where it does not

    A process without threads that is given the processor runs in state
    RUNNING, is charged exactly the ticks until it yields, and is put away
    according to its deadline and quota.  With threads the scheduler switches
    to a process that is not in state RUNNING. *)

From S2P Require Import Prelude Spinlock Riscv Kalloc Vm Queue PriorityQueue Proc ProcProofs ProcLife Sched.

Section slices.
Context {F : Type}.
Implicit Types (s : kst F) (hl : list lockid).

Definition slice_start (now : Z) (u : cpu_usage) : cpu_usage :=
  set_last now (if start_tick u =? 0 then set_start now u else u).
Definition slice_end (now : Z) (u : cpu_usage) : cpu_usage :=
  set_sum (u32 (sum_of_ticks u + u32 (now - last_sched_tick u))) u.

(** A process found in state [x] with usage [u] at time [now] is dropped when
    its deadline has passed, and set aside when its quota is used up; one still
    RUNNING becomes RUNNABLE. *)
Definition judged (now : Z) (u : cpu_usage) (x : procstate) : procstate :=
  if (deadline u <=? now) && bool_decide (x = RUNNABLE) then DROPPED
  else if (quota u <=? sum_of_ticks u) && bool_decide (x = RUNNABLE) then PASSED_QUOTA
  else x.
Definition verdict (now : Z) (u : cpu_usage) (x : procstate) : procstate :=
  let y := judged now u x in if bool_decide (y = RUNNING) then RUNNABLE else y.
(** It joins the queue of the processes over quota. *)
Definition parked (now : Z) (u : cpu_usage) (x : procstate) : bool :=
  negb (deadline u <=? now) && (quota u <=? sum_of_ticks u) && bool_decide (x = RUNNABLE).

Lemma wp_load_usage a u hl m (Q : cpu_usage -> st pmem -> Prop) :
  mem m !! a = Some (PgUsage u) -> Q u (mk_st hl m) -> wp (load_usage a) Q (mk_st hl m).
Proof. intros Hu HQ. eapply wp_deref; [cbn [data]; by rewrite Hu|done]. Qed.

Lemma start_slice_run i p u hl s :
  procs s !! i = Some p -> mem (pm s) !! usage_time p = Some (PgUsage u) ->
  start_slice i (mk_st hl s) =
    Ret tt (mk_st hl (set_pm (set_page (usage_time p) (PgUsage (slice_start (ticks s) u)) (pm s)) s)).
Proof.
  intros Hp Hu. apply wp_ret_eq. unfold start_slice. wp_step. apply (wp_get_proc i p); [done|].
  wp_step. apply wp_gets. apply wp_mem_op, (wp_upd_usage _ u); [done|]. done.
Qed.

Lemma account_slice t0 t1 t2 u :
  sum_of_ticks (slice_end t2 (account t1 (slice_start t0 u))) = u32 (sum_of_ticks u + (t2 - t0)) /\
  deadline (slice_end t2 (account t1 (slice_start t0 u))) = deadline u /\
  quota (slice_end t2 (account t1 (slice_start t0 u))) = quota u.
Proof.
  unfold slice_end, account, slice_start, u32. destruct (start_tick u =? 0); cbn; (split; [|done]).
  all: rewrite (Zplus_mod_idemp_r (t1 - t0)), Zplus_mod_idemp_l, Zplus_mod_idemp_r; f_equal; lia.
Qed.

Lemma set_state_id p : set_state (state p) p = p.
Proof. by destruct p. Qed.

(** The state after [end_slice]. *)
Definition ended (i : nat) (p : proc) (u : cpu_usage) s : kst F :=
  let u' := slice_end (ticks s) u in
  set_q (if parked (ticks s) u' (state p) then snd (Queue.enqueue (q s) (Some i)) else q s)
    (set_procs (<[i := set_state (judged (ticks s) u' (state p)) p]> (procs s))
      (set_pm (set_page (usage_time p) (PgUsage u') (pm s)) s)).

Lemma end_slice_run i p u hl s :
  procs s !! i = Some p -> mem (pm s) !! usage_time p = Some (PgUsage u) -> LkQueue ∉ hl ->
  end_slice i (mk_st hl s) = Ret tt (mk_st hl (ended i p u s)).
Proof.
  intros Hp Hu Hh. apply wp_ret_eq. unfold end_slice, ended. set (u' := slice_end (ticks s) u).
  wp_step. apply (wp_get_proc i p); [done|]. wp_step. apply wp_gets. wp_step.
  apply wp_mem_op, (wp_upd_usage _ u); [done|]. cbn [held data]. wp_step.
  apply wp_mem_op, (wp_load_usage _ u'); [apply lookup_insert_eq|]. cbn [held data].
  unfold judged, parked.
  destruct ((deadline u' <=? ticks s) && bool_decide (state p = RUNNABLE)) eqn:E1.
  - eapply wp_upd_proc; [done|]. split; [done|]. apply andb_true_iff in E1 as [-> _]. by destruct s.
  - destruct ((quota u' <=? sum_of_ticks u') && bool_decide (state p = RUNNABLE)) eqn:E2.
    + assert (negb (deadline u' <=? ticks s) = true) as ->.
      { apply andb_true_iff in E2 as [_ E2]. rewrite E2, andb_true_r in E1. by rewrite E1. }
      apply andb_true_iff in E2 as [-> ->]. cbn [andb].
      wp_step. eapply wp_upd_proc; [done|]. wp_step. apply wp_acquire; [done|]. wp_step. apply wp_gets.
      wp_step. apply wp_modify. apply wp_release_head; [done|]. split; [done|]. by destruct s.
    + rewrite set_state_id, list_insert_id, <- andb_assoc, E2, andb_false_r by done.
      apply wp_ret. split; [done|]. by destruct s.
Qed.

(** The end of [run_proc]. *)
Definition put_away (i : nat) (p : proc) (u : cpu_usage) s : kst F :=
  let u' := slice_end (ticks s) u in
  set_cur None (set_procs (<[i := set_state (verdict (ticks s) u' (state p)) p]> (procs s)) (ended i p u s)).

Lemma put_away_run i p u s :
  procs s !! i = Some p -> mem (pm s) !! usage_time p = Some (PgUsage u) ->
  (end_slice i ;; (p <- get_proc i ;; when (bool_decide (state p = RUNNING)) (upd_proc i (set_state RUNNABLE)) ;;
     modify (set_cur None) ;; release (LkProc i))) (mk_st [LkProc i] s) =
  Ret tt (mk_st [] (put_away i p u s)).
Proof.
  intros Hp Hu. pose proof (lookup_lt_Some _ _ _ Hp) as Hi. apply wp_ret_eq. unfold put_away. cbv zeta.
  wp_step. eapply wp_eq; [apply end_slice_run; [done|done|intros [=]%list_elem_of_singleton]|].
  set (u' := slice_end (ticks s) u). wp_step.
  eapply wp_get_proc; [cbn; by apply list_lookup_insert_eq|]. fold u'. unfold verdict.
  wp_step. apply wp_when; intros E; cbn [state set_state] in E; rewrite E.
  - eapply wp_upd_proc; [cbn; by apply list_lookup_insert_eq|]. wp_step. apply wp_modify.
    apply wp_release_head; [apply not_elem_of_nil|]. split; [done|].
    cbn [procs ended set_q set_procs set_pm]. rewrite list_insert_insert_eq. by destruct s.
  - wp_step. apply wp_modify. apply wp_release_head; [apply not_elem_of_nil|]. split; [done|].
    by destruct s.
Qed.

(** Giving the processor to a process without threads. *)
Lemma run_proc_run i p u s :
  procs s !! i = Some p -> current_thread p = None -> mem (pm s) !! usage_time p = Some (PgUsage u) ->
  exists k, run_proc i (mk_st [] s) =
    Swtch (mk_st [LkProc i] (set_pm (set_page (usage_time p) (PgUsage (slice_start (ticks s) u)) (pm s))
      (set_cur (Some i) (set_procs (<[i := set_state RUNNING p]> (procs s)) s)))) k /\
    forall s' p' u', procs s' !! i = Some p' -> mem (pm s') !! usage_time p' = Some (PgUsage u') ->
      k (mk_st [LkProc i] s') = Ret tt (mk_st [] (put_away i p' u' s')).
Proof.
  intros Hp Hct Hu. pose proof (lookup_lt_Some _ _ _ Hp) as Hi. unfold run_proc.
  eexists. split.
  - run_step. apply wp_acquire; [apply not_elem_of_nil|].
    run_step. apply (wp_upd_proc i p); [done|]. run_step. apply wp_modify.
    run_step. eapply wp_get_proc; [cbn; by apply list_lookup_insert_eq|].
    cbn [current_thread set_state]. rewrite Hct.
    apply bind_swtch. run_step. eapply wp_eq; [eapply start_slice_run; [cbn; by apply list_lookup_insert_eq|done]|].
    apply bind_swtch. reflexivity.
  - intros s' p' u' Hp' Hu'. cbn [obind]. by apply put_away_run.
Qed.

Lemma yield_run i p u s :
  cur s = Some i -> procs s !! i = Some p -> mem (pm s) !! usage_time p = Some (PgUsage u) ->
  exists k, yield (mk_st [] s) = Swtch (mk_st [LkProc i] (charged (usage_time p) u
      (set_procs (<[i := set_state RUNNABLE p]> (procs s)) s))) k.
Proof.
  intros Hc Hp Hu. unfold yield. eexists. run_step. apply (wp_my i); [done|].
  run_step. apply wp_acquire; [apply not_elem_of_nil|]. run_step. apply (wp_upd_proc i p); [done|].
  apply bind_swtch. apply (sched_run i (set_state RUNNABLE p)); [done| |done|done].
  apply list_lookup_insert_eq. by eapply lookup_lt_Some.
Qed.

(** a time slice is charged exactly.  The scheduler switches to a process
    without threads in state RUNNING, as the current process, with only its lock
    held.  If the process, whatever it did meanwhile, yields, and the scheduler
    gets control back at tick [t2], then the ticks from the start of the slice to
    [t2] have been added (modulo 2^32) to its total, its deadline and quota are
    those it had, and it is DROPPED when its deadline has passed, otherwise set
    aside as PASSED_QUOTA (and queued) when its quota is used up, otherwise
    RUNNABLE; the processor is free again and no lock is held. *)
Theorem slice_charged i p u s :
  procs s !! i = Some p -> current_thread p = None -> mem (pm s) !! usage_time p = Some (PgUsage u) ->
  exists s1 k1, run_proc i (mk_st [] s) = Swtch (mk_st [LkProc i] s1) k1 /\
    cur s1 = Some i /\ procs s1 = <[i := set_state RUNNING p]> (procs s) /\
    forall s2 p2 t2, cur s2 = Some i -> procs s2 !! i = Some p2 -> usage_time p2 = usage_time p ->
      mem (pm s2) !! usage_time p = mem (pm s1) !! usage_time p ->
      exists s3 k2, yield (mk_st [] s2) = Swtch (mk_st [LkProc i] s3) k2 /\
        exists s4 u4, k1 (mk_st [LkProc i] (set_ticks t2 s3)) = Ret tt (mk_st [] s4) /\ cur s4 = None /\
          mem (pm s4) !! usage_time p = Some (PgUsage u4) /\
          sum_of_ticks u4 = u32 (sum_of_ticks u + (t2 - ticks s)) /\
          deadline u4 = deadline u /\ quota u4 = quota u /\
          procs s4 = <[i := set_state (if deadline u <=? t2 then DROPPED
                                       else if quota u <=? sum_of_ticks u4 then PASSED_QUOTA
                                       else RUNNABLE) p2]> (procs s2) /\
          q s4 = if negb (deadline u <=? t2) && (quota u <=? sum_of_ticks u4)
                 then snd (Queue.enqueue (q s2) (Some i)) else q s2.
Proof.
  intros Hp Hct Hu. destruct (run_proc_run i p u s Hp Hct Hu) as (k1 & E1 & Hk1).
  eexists _, k1. split_and!; [exact E1|done|done|]. intros s2 p2 t2 Hc2 Hp2 Hut Hm.
  cbn in Hm. rewrite lookup_insert_eq in Hm. rewrite <- Hut in Hm.
  destruct (yield_run i p2 _ s2 Hc2 Hp2 Hm) as [k2 E2]. eexists _, k2. split; [exact E2|].
  eexists _, _. split; [eapply Hk1; [cbn; apply list_lookup_insert_eq; by eapply lookup_lt_Some|apply lookup_insert_eq]|].
  destruct (account_slice (ticks s) (ticks s2) t2 u) as (A1 & A2 & A3).
  split; [done|]. split; [rewrite <- Hut; apply lookup_insert_eq|]. split_and!; [exact A1|exact A2|exact A3| |].
  - cbn. rewrite list_insert_insert_eq. f_equal. unfold verdict, judged.
    rewrite A2, A3. cbn [state set_state]. rewrite (bool_decide_true (RUNNABLE = RUNNABLE)), !andb_true_r by done.
    destruct (deadline u <=? t2); [done|]. by destruct (quota u <=? _).
  - unfold put_away, ended. cbn [q set_cur set_procs set_q set_pm set_ticks charged ticks state set_state].
    unfold parked. rewrite A2, A3, (bool_decide_true (RUNNABLE = RUNNABLE)), andb_true_r by done. done.
Qed.
End slices.

(** ** A process with threads *)

(** The state a program switches away in, and its continuation from a state. *)
Definition switched {S A} (o : outcome S A) : option (st S) :=
  match o with Swtch s _ => Some s | _ => None end.
Definition resume {S A} (o : outcome S A) (s : st S) : outcome S A :=
  match o with Swtch _ k => k s | _ => o end.

(** Process 0 with two runnable threads; its trapframe, theirs, and its usage
    record in four pages. *)
Definition duo_page (i : Z) : Z := KERNBASE + i * PGSIZE.
Definition duo_thread (i : Z) : thread := mk_thread THREAD_RUNNABLE (duo_page i) i 0.
Definition duo_proc : proc :=
  set_usage_time (duo_page 3) (set_current_thread (Some 0%nat) (set_threads
    [duo_thread 1; duo_thread 2; mk_thread THREAD_FREE 0 0 0; mk_thread THREAD_FREE 0 0 0]
    (set_trapframe (duo_page 0) (set_pid 5 (set_state CHOSEN_TO_RUN zero_proc))))).
Definition duo_pm : pmem := mk_pmem
  (list_to_map [(duo_page 0, PgTrapframe (replicate TF_words 0)); (duo_page 1, PgTrapframe (replicate TF_words 1));
    (duo_page 2, PgTrapframe (replicate TF_words 2)); (duo_page 3, PgUsage (mk_usage 0 0 MAX_UINT 0 MAX_UINT))]) 0.
Definition duo : kst unit :=
  mk_kst (<[0%nat := duo_proc]> (replicate (Z.to_nat NPROC) zero_proc)) None duo_pm
    (PQ.mk (replicate (Z.to_nat NPROC) 0%nat) 0)
    (Queue.mk (replicate (Z.to_nat NPROC) None) 0 0 0) 6 None 10 true (mk_rlist [] 0 0) [] tt.

(** two processors can run the same process.  A hart runs a process with
    two runnable threads ([st1]); the process runs without its lock and later
    yields ([st2]); back in the loop over the threads the scheduler switches to
    the process again, for its second thread, without setting its state
    ([st3]); the process returns from [yield] and releases its lock.  It is now
    running on the first hart in state RUNNABLE, and another hart that fills
    the priority queue and chooses picks this same process. *)
Theorem running_process_chosen_again : exists st1 st2 st3 s4 st5,
  switched (run_proc 0 (mk_st [] duo)) = Some st1 /\
  switched (yield (mk_st [] (data st1))) = Some st2 /\
  switched (resume (run_proc 0 (mk_st [] duo)) st2) = Some st3 /\
  resume (yield (mk_st [] (data st1))) st3 = Ret tt (mk_st [] s4) /\
  cur s4 = Some 0%nat /\ state <$> procs s4 !! 0%nat = Some RUNNABLE /\
  (fill_pq ;; choose) (mk_st [] (set_cur None s4)) = Ret (Some 0%nat) st5.
Proof.
  do 5 eexists. do 6 (split; [vm_compute; reflexivity|]). vm_compute. reflexivity.
Qed.

Lemma slice_charged_witness : exists s1 k1,
  let s := set_procs (<[0%nat := set_current_thread None duo_proc]> (procs duo)) duo in
  run_proc 0 (mk_st [] s) = Swtch (mk_st [LkProc 0] s1) k1 /\ cur s1 = Some 0%nat.
Proof.
  destruct (slice_charged 0 (set_current_thread None duo_proc) (mk_usage 0 0 MAX_UINT 0 MAX_UINT)
    (set_procs (<[0%nat := set_current_thread None duo_proc]> (procs duo)) duo)) as (s1 & k1 & E & Hc & _).
  - reflexivity.
  - reflexivity.
  - vm_compute. reflexivity.
  - exists s1, k1. split; [exact E|exact Hc].
Defined.
