(* ===== verification/Pipe.v ===== *)
(** * Pipes (kernel/pipe.c)

    A pipe lives in a page of its own and is named by that page's address; its
    counters are 32-bit and wrap around.  ([pipealloc], which also makes the
    two files, is in File.v.) *)

From S2P Require Import Prelude Spinlock Riscv Kalloc Vm Queue PriorityQueue KString Proc.

Definition set_pdata v p := mk_pipe v (nread p) (nwrite p) (readopen p) (writeopen p).
Definition set_nread v p := mk_pipe (pdata p) v (nwrite p) (readopen p) (writeopen p).
Definition set_nwrite v p := mk_pipe (pdata p) (nread p) v (readopen p) (writeopen p).
Definition set_readopen v p := mk_pipe (pdata p) (nread p) (nwrite p) v (writeopen p).
Definition set_writeopen v p := mk_pipe (pdata p) (nread p) (nwrite p) (readopen p) v.

Section pipe.
Context {img : Image} {F : Type} {waits : Waits}.
#[local] Abbreviation K := (M (kst F)).

Definition pipe_at (pi : Z) (s : pmem) : option pipe :=
  match mem s !! pi with Some (PgPipe p) => Some p | _ => None end.
Definition get_pipe (pi : Z) : K pipe := deref (fun s => pipe_at pi (pm s)).
Definition upd_pipe (pi : Z) (f : pipe -> pipe) : K unit :=
  p <- get_pipe pi ;; modify (fun s => set_pm (set_page pi (PgPipe (f p)) (pm s)) s).

Definition pipeclose (pi : Z) (writable : Z) : K unit :=
  acquire (LkPipe pi) ;;
  (if negb (writable =? 0) then upd_pipe pi (set_writeopen 0) ;; wakeup (ChNread pi)
   else upd_pipe pi (set_readopen 0) ;; wakeup (ChNwrite pi)) ;;
  p <- get_pipe pi ;;
  if (readopen p =? 0) && (writeopen p =? 0) then
    release (LkPipe pi) ;; mem_op (kfree pi)
  else release (LkPipe pi).

(** [pi->data[pi->nwrite++ % PIPESIZE] = ch] and
    [ch = pi->data[pi->nread++ % PIPESIZE]] *)
Definition pipe_push (ch : Z) (p : pipe) : pipe :=
  set_nwrite (u32 (nwrite p + 1)) (set_pdata (<[Z.to_nat (nwrite p mod PIPESIZE) := ch]> (pdata p)) p).
Definition pipe_head (p : pipe) : Z := default 0 (pdata p !! Z.to_nat (nread p mod PIPESIZE)).
Definition pipe_pop (p : pipe) : pipe := set_nread (u32 (nread p + 1)) p.
Definition pipe_full (p : pipe) : bool := nwrite p =? u32 (nread p + PIPESIZE).
Definition pipe_empty (p : pipe) : bool := nread p =? nwrite p.

(** The loop of [pipewrite]: [None] when it returned -1 (the lock released),
    else the number of bytes written. *)
Fixpoint pipewrite_loop (fuel : nat) (pr : nat) (pi addr n i : Z) : K (option Z) :=
  match fuel with
  | O => nofuel
  | S fuel' =>
      if i <? n then
        p <- get_pipe pi ;;
        k <- (if readopen p =? 0 then ret 1 else killed pr) ;;
        if negb (k =? 0) then release (LkPipe pi) ;; ret None
        else
          p <- get_pipe pi ;;
          if pipe_full p then
            wakeup (ChNread pi) ;;
            sleep (ChNwrite pi) (LkPipe pi) ;;
            pipewrite_loop fuel' pr pi addr n i
          else
            x <- get_proc pr ;;
            r <- mem_op (copyin (pagetable x) (u64 (addr + i)) 1) ;;
            if fst r =? -1 then ret (Some i)
            else
              upd_pipe pi (pipe_push (default 0 (snd r !! 0%nat))) ;;
              pipewrite_loop fuel' pr pi addr n (i + 1)
      else ret (Some i)
  end.

Definition pipewrite (pi addr n : Z) : K Z :=
  pr <- my ;;
  acquire (LkPipe pi) ;;
  r <- pipewrite_loop (S (S (Z.to_nat n + max_waits))) pr pi addr n 0 ;;
  match r with
  | None => ret (-1)
  | Some i => wakeup (ChNread pi) ;; release (LkPipe pi) ;; ret i
  end.

(** The first loop of [piperead]: whether the caller was killed while waiting
    (the lock released). *)
Fixpoint piperead_wait (fuel : nat) (pr : nat) (pi : Z) : K bool :=
  match fuel with
  | O => nofuel
  | S fuel' =>
      p <- get_pipe pi ;;
      if pipe_empty p && negb (writeopen p =? 0) then
        k <- killed pr ;;
        if negb (k =? 0) then release (LkPipe pi) ;; ret true
        else sleep (ChNread pi) (LkPipe pi) ;; piperead_wait fuel' pr pi
      else ret false
  end.

(** The second loop, [n] rounds at most. *)
Fixpoint piperead_copy (n : nat) (pr : nat) (pi addr i : Z) : K Z :=
  match n with
  | O => ret i
  | S n' =>
      p <- get_pipe pi ;;
      if pipe_empty p then ret i
      else
        let ch := pipe_head p in
        upd_pipe pi pipe_pop ;;
        x <- get_proc pr ;;
        r <- mem_op (copyout (pagetable x) (u64 (addr + i)) [ch]) ;;
        if r =? -1 then ret i
        else piperead_copy n' pr pi addr (i + 1)
  end.

Definition piperead (pi addr n : Z) : K Z :=
  pr <- my ;;
  acquire (LkPipe pi) ;;
  k <- piperead_wait (S (S max_waits)) pr pi ;;
  if (k : bool) then ret (-1)
  else
    i <- piperead_copy (Z.to_nat n) pr pi addr 0 ;;
    wakeup (ChNwrite pi) ;;
    release (LkPipe pi) ;;
    ret i.
End pipe.
