(* ===== verification/PipeTheorems.v ===== *)
(** * Pipes as queues of bytes

    A pipe is a ring with two 32-bit counters that wrap around; it implements a
    bounded first-in first-out queue.  [pipewrite] appends the bytes of the
    caller's memory to it and [piperead] takes them from its front. *)

From S2P Require Import Prelude Spinlock Riscv Kalloc Vm VmProofs VmExample VmCopy Queue PriorityQueue KString Proc ProcProofs ProcLife Pipe.

Ltac Zify.zify_post_hook ::= Z.to_euclidean_division_equations.

(** ** The ring *)

Definition pipe_len (p : pipe) : Z := u32 (nwrite p - nread p).
(** The bytes in the pipe, oldest first. *)
Definition content (p : pipe) : list Z :=
  (fun j => default 0 (pdata p !! Z.to_nat ((nread p + j) mod PIPESIZE))) <$> seqZ 0 (pipe_len p).

Record pipe_ok (p : pipe) : Prop := {
  po_data : length (pdata p) = Z.to_nat PIPESIZE;
  po_read : 0 <= nread p < 2 ^ 32;
  po_write : 0 <= nwrite p < 2 ^ 32;
  po_len : pipe_len p <= PIPESIZE
}.

Lemma content_length p : pipe_ok p -> Z.of_nat (length (content p)) = pipe_len p.
Proof. intros. unfold content. rewrite length_fmap, length_seqZ. unfold pipe_len, u32 in *. lia. Qed.

Lemma pipe_empty_spec p : pipe_ok p -> pipe_empty p = bool_decide (content p = []).
Proof.
  intros Hp. pose proof (content_length p Hp) as Hl. destruct Hp as [_ Hr Hw _]. unfold pipe_empty.
  destruct (nread p =? nwrite p) eqn:E; symmetry.
  - apply bool_decide_eq_true. apply nil_length_inv. unfold pipe_len, u32 in Hl. assert (nread p = nwrite p) as E' by lia.
    rewrite E', Z.sub_diag in Hl. cbn in Hl. lia.
  - apply bool_decide_eq_false. intros E'. rewrite E' in Hl. cbn in Hl. unfold pipe_len, u32 in Hl. lia.
Qed.
Lemma pipe_full_spec p : pipe_ok p -> pipe_full p = (Z.of_nat (length (content p)) =? PIPESIZE).
Proof.
  intros Hp. rewrite content_length by done. destruct Hp as [_ Hr Hw _]. unfold pipe_full, pipe_len, u32, PIPESIZE. lia.
Qed.

Lemma content_lookup p j : pipe_ok p -> 0 <= j < pipe_len p ->
  content p !! Z.to_nat j = Some (default 0 (pdata p !! Z.to_nat ((nread p + j) mod PIPESIZE))).
Proof.
  intros Hp Hj. unfold content. rewrite list_lookup_fmap, lookup_seqZ_lt by lia. cbn [fmap option_fmap option_map]. by rewrite Z.add_0_l, Z2Nat.id by lia.
Qed.

Lemma pipe_push_spec p c : pipe_ok p -> pipe_full p = false -> pipe_ok (pipe_push c p) /\ content (pipe_push c p) = content p ++ [c].
Proof.
  intros Hp Hf. rewrite pipe_full_spec in Hf by done. pose proof (content_length p Hp) as Hl. pose proof Hp as [Hd Hr Hw Hn].
  assert (pipe_len (pipe_push c p) = pipe_len p + 1) as El by (unfold pipe_len, pipe_push, u32, PIPESIZE in *; cbn; lia).
  assert (pipe_ok (pipe_push c p)) as Hok.
  { split; [cbn; by rewrite length_insert|done|cbn; unfold u32; lia|unfold PIPESIZE in *; lia]. }
  split; [done|]. apply list_eq. intros t. destruct (decide (Z.of_nat t < pipe_len p + 1)) as [Ht|Ht].
  - rewrite <- (Nat2Z.id t) at 1. rewrite content_lookup by (done || lia). cbn [pipe_push pdata nread set_nwrite set_pdata].
    destruct (decide (Z.of_nat t = pipe_len p)) as [E|Hne].
    + rewrite lookup_app_r by lia. replace (t - length (content p))%nat with 0%nat by lia.
      replace ((nread p + Z.of_nat t) mod PIPESIZE) with (nwrite p mod PIPESIZE) by (rewrite E; unfold pipe_len, u32, PIPESIZE; lia).
      rewrite list_lookup_insert_eq by (rewrite Hd; unfold PIPESIZE; lia). done.
    + rewrite lookup_app_l by lia. rewrite <- (Nat2Z.id t) at 2. rewrite content_lookup by (done || lia).
      rewrite list_lookup_insert_ne; [done|]. unfold pipe_len, u32, PIPESIZE in *. lia.
  - rewrite !lookup_ge_None_2; [done|rewrite length_app; cbn; lia|]. pose proof (content_length _ Hok). lia.
Qed.

Lemma pipe_pop_spec p : pipe_ok p -> pipe_empty p = false -> pipe_ok (pipe_pop p) /\ content p = pipe_head p :: content (pipe_pop p).
Proof.
  intros Hp Hf. rewrite pipe_empty_spec in Hf by done. apply bool_decide_eq_false in Hf.
  pose proof (content_length p Hp) as Hl. pose proof Hp as [Hd Hr Hw Hn].
  assert (0 < pipe_len p) as Hpos by (destruct (content p); [done|cbn in Hl; lia]).
  assert (pipe_len (pipe_pop p) = pipe_len p - 1) as El by (unfold pipe_len, pipe_pop, u32, PIPESIZE in *; cbn; lia).
  assert (pipe_ok (pipe_pop p)) as Hok by (split; [done|cbn; unfold u32; lia|done|lia]).
  split; [done|]. apply list_eq. intros t. destruct (decide (Z.of_nat t < pipe_len p)) as [Ht|Ht].
  - rewrite <- (Nat2Z.id t) at 1. rewrite content_lookup by (done || lia). destruct t as [|t].
    + cbn. by rewrite Z.add_0_r.
    + change ((pipe_head p :: content (pipe_pop p)) !! S t) with (content (pipe_pop p) !! t).
      rewrite <- (Nat2Z.id t) at 2. rewrite content_lookup by (done || lia). cbn [pipe_pop pdata nread set_nread].
      replace ((u32 (nread p + 1) + Z.of_nat t) mod PIPESIZE) with ((nread p + Z.of_nat (S t)) mod PIPESIZE)
        by (unfold u32, PIPESIZE; lia). done.
  - pose proof (content_length _ Hok). rewrite !lookup_ge_None_2; [done|cbn; lia|lia].
Qed.

Section pipes.
Context {img : Image} {F : Type} {waits : Waits}.
Implicit Types (k : kst F) (p : pipe) (pi : Z) (tbl : gmap (list Z) Z) (hl : list lockid).

Definition with_pipe pi p k : kst F := set_pm (set_page pi (PgPipe p) (pm k)) k.
Lemma with_pipe_twice pi p p' k : with_pipe pi p' (with_pipe pi p k) = with_pipe pi p' k.
Proof. unfold with_pipe, set_page. cbn. by rewrite insert_insert_eq. Qed.
Lemma pipe_at_with pi p k : pipe_at pi (pm (with_pipe pi p k)) = Some p.
Proof. unfold pipe_at. cbn. by rewrite lookup_insert_eq. Qed.
Lemma with_pipe_same pi p k : pipe_at pi (pm k) = Some p -> with_pipe pi p k = k.
Proof.
  unfold pipe_at. destruct (mem (pm k) !! pi) as [[]|] eqn:E; try done. intros [= ->].
  unfold with_pipe, set_page. rewrite insert_id by done. destruct k as [? ? [] ? ? ? ? ? ? ? ? ?]. done.
Qed.

(** The pipe's page is neither a page table nor user memory. *)
Lemma pipe_frame pi p (s : pmem) root tbl :
  is_Some (pipe_at pi s) -> pt_inv s root tbl -> uspace s tbl ->
  let s' := set_page pi (PgPipe p) s in
  pt_inv s' root tbl /\ uspace s' tbl /\ (forall va, pte_of s' tbl va = pte_of s tbl va) /\
  (forall va, ubyte s' tbl va = ubyte s tbl va) /\ (forall va n, uread s' tbl va n = uread s tbl va n).
Proof.
  intros [q Hq] Hpt Hus s'. unfold pipe_at in Hq. destruct (mem s !! pi) as [[]|] eqn:E; try done.
  assert (forall a, is_table tbl a -> mem s' !! a = mem s !! a) as Hm.
  { intros a [pa Ha]. destruct (pt_node _ _ _ Hpt pa a Ha) as (t & Ht & _). cbn. rewrite lookup_insert_ne; [done|].
    intros <-. unfold table_at in Ht. by rewrite E in Ht. }
  assert (forall va, pte_of s' tbl va = pte_of s tbl va) as Hpte by (intros va; by apply pte_of_frame).
  assert (forall a b, bytes_at a s = Some b -> bytes_at a s' = Some b) as Hb.
  { intros a b Ha. unfold bytes_at in *. cbn. rewrite lookup_insert_ne; [done|]. intros <-. by rewrite E in Ha. }
  assert (uspace s' tbl) as Hus'.
  { destruct Hus as [U1 U2]. split.
    - intros va Hva. rewrite Hpte. intros Hu. destruct (U1 va Hva Hu) as (H1 & b & H2 & H3). split; [done|]. exists b. split; [by apply Hb|done].
    - intros va va'. rewrite !Hpte. apply U2. }
  assert (forall va, ubyte s' tbl va = ubyte s tbl va) as Hub.
  { intros va. unfold ubyte. rewrite Hpte. destruct (_ && _) eqn:Ec; [|done]. unfold bytes_at. cbn.
    destruct (decide (PTE2PA (pte_of s tbl va) = pi)) as [->|Hne]; [by rewrite lookup_insert_eq, E|].
    by rewrite lookup_insert_ne. }
  split_and!; [by eapply pt_inv_frame|done|done|done|]. intros va n. by apply mapM_ext.
Qed.

Lemma wp_get_pipe pi p hl k (Q : pipe -> st (kst F) -> Prop) :
  Q p (mk_st hl (with_pipe pi p k)) -> wp (get_pipe pi) Q (mk_st hl (with_pipe pi p k)).
Proof. intros HQ. eapply wp_deref; [apply pipe_at_with|done]. Qed.
Lemma wp_upd_pipe pi p g hl k (Q : unit -> st (kst F) -> Prop) :
  Q tt (mk_st hl (with_pipe pi (g p) k)) -> wp (upd_pipe pi g) Q (mk_st hl (with_pipe pi p k)).
Proof.
  intros HQ. unfold upd_pipe. wp_step. apply wp_get_pipe. wp_step.
  rewrite <- (with_pipe_twice pi p) in HQ. exact HQ.
Qed.
Lemma wp_killed i x hl k (Q : Z -> st (kst F) -> Prop) :
  procs k !! i = Some x -> (forall j, LkProc j ∉ hl) -> Q (killed_flag x) (mk_st hl k) -> wp (killed i) Q (mk_st hl k).
Proof.
  intros Hx Hh HQ. unfold killed. wp_step. apply wp_acquire; [apply Hh|]. wp_step. apply (wp_get_proc i x); [done|].
  wp_step. apply wp_release_head; [apply Hh|]. by apply wp_ret.
Qed.

(** The caller and its memory. *)
Record caller k (i : nat) (x : proc) tbl : Prop := {
  ca_cur : cur k = Some i;
  ca_proc : procs k !! i = Some x;
  ca_len : length (procs k) = Z.to_nat NPROC;
  ca_alive : killed_flag x = 0;
  ca_pt : pt_inv (pm k) (pagetable x) tbl;
  ca_space : uspace (pm k) tbl
}.

Lemma uread_cons (s : pmem) tbl va b bs : ubyte s tbl va = Some b -> uread s tbl (va + 1) (length bs) = Some bs ->
  uread s tbl va (length (b :: bs)) = Some (b :: bs).
Proof.
  intros Hb Hr. unfold uread in *. cbn [length]. rewrite seqZ_cons by lia. replace (Z.pred (Z.of_nat (S (length bs)))) with (Z.of_nat (length bs)) by lia.
  cbn. rewrite Hb. cbn. replace (Z.succ va) with (va + 1) by lia. by rewrite Hr.
Qed.

Lemma uread_1 (s : pmem) tbl va : uread s tbl va 1 = (fun b => [b]) <$> ubyte s tbl va.
Proof.
  unfold uread. rewrite seqZ_cons by lia. change (Z.pred (Z.of_nat 1)) with 0. rewrite seqZ_nil by lia.
  cbn. by destruct (ubyte s tbl va).
Qed.

(** The bytes that [pipewrite] gets from the caller's memory: all of them, or
    those before the first that is not mapped. *)
Definition readable_prefix (s : pmem) tbl (va : Z) (n : nat) (bs : list Z) : Prop :=
  uread s tbl va (length bs) = Some bs /\
  (length bs = n \/ (length bs < n)%nat /\ ubyte s tbl (va + Z.of_nat (length bs)) = None).

Lemma pipewrite_loop_spec fuel i x tbl pi addr (n j : nat) p0 p hl k (Q : option Z -> st (kst F) -> Prop) :
  caller k i x tbl -> pipe_at pi (pm k) = Some p0 -> (forall j, LkProc j ∉ hl) ->
  0 <= addr -> addr + Z.of_nat (j + n) < 2 ^ 64 -> (n < fuel)%nat ->
  pipe_ok p -> readopen p <> 0 -> Z.of_nat (length (content p)) + Z.of_nat n <= PIPESIZE ->
  (forall bs p', readable_prefix (pm k) tbl (addr + Z.of_nat j) n bs -> pipe_ok p' -> content p' = content p ++ bs ->
     readopen p' = readopen p -> writeopen p' = writeopen p ->
     Q (Some (Z.of_nat (j + length bs))) (mk_st hl (with_pipe pi p' k))) ->
  wp (pipewrite_loop fuel i pi addr (Z.of_nat (j + n)) (Z.of_nat j)) Q (mk_st hl (with_pipe pi p k)).
Proof.
  intros Hc Hp0 Hh Ha. destruct (pipe_frame pi p (pm k) (pagetable x) tbl ltac:(by eexists) (ca_pt _ _ _ _ Hc) (ca_space _ _ _ _ Hc)) as (F1 & F2 & _ & _ & F5).
  revert j n p F1 F2 F5. induction fuel as [|fuel IH]; intros j n p F1 F2 F5 Hov Hf Hok Hro Hroom HQ; [lia|].
  cbn [pipewrite_loop]. destruct n as [|n].
  { assert ((Z.of_nat j <? Z.of_nat (j + 0)) = false) as -> by lia. apply wp_ret. specialize (HQ [] p). rewrite Nat.add_0_r in HQ.
    apply HQ; [split; [done|by left]|done|by rewrite app_nil_r|done|done]. }
  assert ((Z.of_nat j <? Z.of_nat (j + S n)) = true) as -> by lia.
  wp_step. apply wp_get_pipe. rewrite (proj2 (Z.eqb_neq _ _) Hro). wp_step. apply (wp_killed i x); [apply Hc|done|].
  rewrite (ca_alive _ _ _ _ Hc). change (negb (0 =? 0)) with false. cbv iota.
  wp_step. apply wp_get_pipe.
  assert (pipe_full p = false) as Hnf by (rewrite pipe_full_spec by done; lia). rewrite Hnf.
  wp_step. apply (wp_get_proc i x); [apply Hc|]. wp_step. apply wp_mem_op.
  assert (u64 (addr + Z.of_nat j) = addr + Z.of_nat j) as -> by (unfold u64; lia).
  destruct (copyin_loop_spec 2 _ hl (pagetable x) tbl (addr + Z.of_nat j) 1 [] F1 F2 ltac:(lia) ltac:(lia)) as ([r out] & E & Hr).
  eapply wp_eq; [exact E|]. rewrite F5 in Hr. cbn [fst snd held data].
  change (set_pm (pm (with_pipe pi p k)) (with_pipe pi p k)) with (with_pipe pi p k).
  rewrite uread_1 in Hr. destruct (ubyte (pm k) tbl (addr + Z.of_nat j)) as [b|] eqn:Eb; cbn in Hr.
  - injection Hr as -> ->. change (0 =? -1) with false. cbv iota. wp_step. apply wp_upd_pipe. change (default 0 ([b] !! 0%nat)) with b.
    destruct (pipe_push_spec p b Hok Hnf) as [Hok' Hct].
    replace (Z.of_nat (j + S n)) with (Z.of_nat (S j + n)) by lia. replace (Z.of_nat j + 1) with (Z.of_nat (S j)) by lia.
    destruct (pipe_frame pi (pipe_push b p) (pm k) (pagetable x) tbl ltac:(by eexists) (ca_pt _ _ _ _ Hc) (ca_space _ _ _ _ Hc)) as (G1 & G2 & _ & _ & G5).
    apply IH; [done|done|done|lia|lia|done|done|rewrite Hct, length_app; cbn; lia|].
    intros bs p' [Hr Hend] Hokp Hctp Hrop Hwop. replace (S j + length bs)%nat with (j + length (b :: bs))%nat by (cbn; lia).
    apply HQ; [|done|by rewrite Hctp, Hct, <- app_assoc|done|done]. split.
    + apply uread_cons; [done|]. by replace (addr + Z.of_nat j + 1) with (addr + Z.of_nat (S j)) by lia.
    + cbn [length]. destruct Hend as [?|[? He]]; [left; lia|right]. split; [lia|]. rewrite <- He. f_equal. lia.
  - rewrite Hr. change (-1 =? -1) with true. cbv iota. apply wp_ret. specialize (HQ [] p). rewrite Nat.add_0_r in HQ.
    apply HQ; [|done|by rewrite app_nil_r|done|done]. split; [done|]. right. split; [cbn; lia|]. cbn. by rewrite Z.add_0_r.
Qed.

Lemma with_pipe_procs pi p k ps : set_procs ps (with_pipe pi p k) = with_pipe pi p (set_procs ps k).
Proof. done. Qed.

(** *** Reading *)

(** The bytes [bs] have been delivered to the reader at [va]; the pipe's page
    apart, nothing else has changed. *)
Record delivered (s : pmem) (l : list Z) tbl (root pi : Z) (va : Z) (bs : list Z) (s' : pmem) : Prop := {
  dl_free : free_inv s' l;
  dl_pt : pt_inv s' root tbl;
  dl_space : uspace s' tbl;
  dl_use : Kalloc.in_use s' l pi;
  dl_pte : forall a, pte_of s' tbl a = pte_of s tbl a;
  dl_bytes : forall a, 0 <= a -> ubyte s' tbl a =
    if (va <=? a) && (a <? va + Z.of_nat (length bs)) then bs !! Z.to_nat (a - va) else ubyte s tbl a;
  dl_frame : forall pa, pa <> pi -> (forall a, 0 <= a -> writable s tbl a = true -> PTE2PA (pte_of s tbl a) <> pa) ->
    mem s' !! pa = mem s !! pa
}.

Lemma delivered_nil s l tbl root pi va : free_inv s l -> pt_inv s root tbl -> uspace s tbl -> Kalloc.in_use s l pi ->
  delivered s l tbl root pi va [] s.
Proof. intros. split; try done. intros a Ha. cbn [length]. assert ((va <=? a) && (a <? va + Z.of_nat 0) = false) as -> by lia. done. Qed.

Lemma delivered_cons s l tbl root pi va b bs s1 s2 :
  delivered s l tbl root pi va [b] s1 -> delivered s1 l tbl root pi (va + 1) bs s2 -> delivered s l tbl root pi va (b :: bs) s2.
Proof.
  intros [_ _ _ _ A5 A6 A7] [B1 B2 B3 B4 B5 B6 B7]. split; try done.
  - intros a. by rewrite B5, A5.
  - intros a Ha. rewrite B6, A6 by done. cbn [length].
    destruct (decide (va + 1 <= a < va + 1 + Z.of_nat (length bs))) as [Hin|Hout].
    + assert ((va + 1 <=? a) && (a <? va + 1 + Z.of_nat (length bs)) = true) as -> by lia.
      assert ((va <=? a) && (a <? va + Z.of_nat (S (length bs))) = true) as -> by lia.
      replace (Z.to_nat (a - va)) with (S (Z.to_nat (a - (va + 1)))) by lia. done.
    + assert ((va + 1 <=? a) && (a <? va + 1 + Z.of_nat (length bs)) = false) as -> by lia.
      destruct (decide (a = va)) as [->|Hne].
      * assert ((va <=? va) && (va <? va + Z.of_nat 1) = true) as -> by lia.
        assert ((va <=? va) && (va <? va + Z.of_nat (S (length bs))) = true) as -> by lia. by rewrite Z.sub_diag.
      * assert ((va <=? a) && (a <? va + Z.of_nat 1) = false) as -> by lia.
        assert ((va <=? a) && (a <? va + Z.of_nat (S (length bs))) = false) as -> by lia. done.
  - intros pa Hpa Hw. rewrite B7, A7; [done|done|done|done|].
    intros a Ha. unfold writable. rewrite A5. by apply Hw.
Qed.

Lemma delivered_writable s l tbl root pi va bs s' a :
  delivered s l tbl root pi va bs s' -> writable s' tbl a = writable s tbl a.
Proof. intros H. unfold writable. by rewrite (dl_pte _ _ _ _ _ _ _ _ H). Qed.

(** One round of the loop: a byte is popped and copied out. *)
Lemma pipe_byte s l tbl root pi va p q b hl :
  free_inv s l -> pt_inv s root tbl -> uspace s tbl -> Kalloc.in_use s l pi -> pipe_at pi s = Some p -> 0 <= va ->
  writable s tbl va = true ->
  exists s', copyout root va [b] (mk_st hl (set_page pi (PgPipe q) s)) = Ret 0 (mk_st hl s') /\
    delivered s l tbl root pi va [b] s' /\ pipe_at pi s' = Some q.
Proof.
  intros Hf Hpt Hus Hu Hp Hva Hw. set (s1 := set_page pi (PgPipe q) s).
  destruct (pipe_frame pi q s root tbl ltac:(by eexists) Hpt Hus) as (P1 & P2 & P3 & P4 & _). fold s1 in P1, P2, P3, P4.
  assert (free_inv s1 l) as Hf1 by (by apply free_inv_write). pose proof (in_use_write s l pi (PgPipe q) pi Hu : Kalloc.in_use s1 l pi) as Hu1.
  assert (forall a, writable s1 tbl a = writable s tbl a) as Hwr by (intros a; unfold writable; by rewrite P3).
  destruct (copyout_loop_spec 2 s1 l hl root tbl va [b] Hf1 P1 P2 Hva ltac:(cbn; lia)) as (r & st' & E & s' & -> & [U1 U2 U3 U4 U5] & Hpost).
  destruct Hpost as [(-> & _ & Hby)|(_ & (a & Hin & Hna) & _)].
  2: { cbn [length] in Hin. assert (a = va) as -> by lia. rewrite Hwr, Hw in Hna. done. }
  assert (mem s' !! pi = Some (PgPipe q)) as Hpi.
  { rewrite U5; [apply lookup_insert_eq|]. intros a Ha Hwa Epa. rewrite Hwr in Hwa. unfold writable in Hwa.
    apply andb_prop in Hwa as [Hm Hwa]. apply writable_is_user in Hwa. rewrite P3 in Epa.
    destruct (us_bytes _ _ Hus a) as (_ & c & Hc & _); [lia|done|]. rewrite Epa in Hc. unfold bytes_at in Hc. unfold pipe_at in Hp.
    by destruct (mem s !! pi) as [[]|]. }
  exists s'. split; [exact E|]. split; [|unfold pipe_at; by rewrite Hpi]. split; try done.
  - split; [by exists (PgPipe q)|]. apply Hu1.
  - intros a. by rewrite U4.
  - intros a Ha. rewrite Hby by done. by rewrite P4.
  - intros pa Hne Hnw. rewrite U5; [by apply lookup_insert_ne|]. intros a Ha. rewrite Hwr, P3. by apply Hnw.
Qed.

Lemma piperead_copy_spec (n : nat) i x tbl pi addr (j : nat) l p hl k (Q : Z -> st (kst F) -> Prop) :
  caller k i x tbl -> free_inv (pm k) l -> Kalloc.in_use (pm k) l pi -> pipe_at pi (pm k) = Some p -> pipe_ok p ->
  0 <= addr -> addr + Z.of_nat (j + n) < 2 ^ 64 ->
  (forall a, addr + Z.of_nat j <= a < addr + Z.of_nat (j + n) -> writable (pm k) tbl a = true) ->
  (forall s' p', let bs := take n (content p) in
     delivered (pm k) l tbl (pagetable x) pi (addr + Z.of_nat j) bs s' -> pipe_at pi s' = Some p' -> pipe_ok p' ->
     content p' = drop n (content p) -> readopen p' = readopen p -> writeopen p' = writeopen p ->
     Q (Z.of_nat (j + length bs)) (mk_st hl (set_pm s' k))) ->
  wp (piperead_copy n i pi addr (Z.of_nat j)) Q (mk_st hl k).
Proof.
  revert j p k. induction n as [|n IH]; intros j p k Hc Hf Hu Hp Hok Ha Hov Hw HQ; cbn [piperead_copy].
  { apply wp_ret. specialize (HQ (pm k) p). cbn [take drop length] in HQ. rewrite Nat.add_0_r in HQ.
    replace (set_pm (pm k) k) with k in HQ by (by destruct k). apply HQ; [|done..]. apply delivered_nil; [done|apply Hc|apply Hc|done]. }
  wp_step. eapply wp_deref; [exact Hp|]. destruct (pipe_empty p) eqn:Ee.
  { rewrite pipe_empty_spec in Ee by done. apply bool_decide_eq_true in Ee. apply wp_ret. specialize (HQ (pm k) p). rewrite Ee in HQ.
    cbn [take drop length] in HQ. rewrite Nat.add_0_r in HQ.
    replace (set_pm (pm k) k) with k in HQ by (by destruct k). apply HQ; [|done..]. apply delivered_nil; [done|apply Hc|apply Hc|done]. }
  destruct (pipe_pop_spec p Hok Ee) as [Hok' Hct].
  rewrite <- (with_pipe_same pi p k Hp). wp_step. apply wp_upd_pipe. wp_step. apply (wp_get_proc i x); [apply Hc|].
  wp_step. apply wp_mem_op. assert (u64 (addr + Z.of_nat j) = addr + Z.of_nat j) as -> by (unfold u64; lia).
  destruct (pipe_byte (pm k) l tbl (pagetable x) pi (addr + Z.of_nat j) p (pipe_pop p) (pipe_head p) hl) as (s1 & E & D1 & Hp1);
    [done|apply Hc|apply Hc|done|done|lia|apply Hw; lia|].
  eapply wp_eq; [exact E|]. cbn [held data]. change (0 =? -1) with false. cbv iota.
  change (set_pm s1 (with_pipe pi (pipe_pop p) k)) with (set_pm s1 k). replace (Z.of_nat j + 1) with (Z.of_nat (S j)) by lia.
  apply (IH (S j) (pipe_pop p) (set_pm s1 k)); [|apply D1|apply D1|done|done|done|lia| |].
  - destruct Hc. split; try done; apply D1.
  - intros a Hin. rewrite (delivered_writable _ _ _ _ _ _ _ _ a D1 : writable (pm (set_pm s1 k)) tbl a = _). apply Hw. lia.
  - intros s2 p2 bs D2 Hp2 Hok2 Hct2 Hro2 Hwo2. replace (S j + length bs)%nat with (j + length (take (S n) (content p)))%nat
      by (rewrite Hct; cbn; unfold bs; lia).
    change (set_pm s2 (set_pm s1 k)) with (set_pm s2 k). apply (HQ s2 p2); [|done|done|by rewrite Hct|done|done].
    rewrite Hct. cbn [take]. eapply delivered_cons; [exact D1|]. by replace (addr + Z.of_nat j + 1) with (addr + Z.of_nat (S j)) by lia.
Qed.
End pipes.

Section theorems.
Context {img : Image} {F : Type} {waits : Waits}.
Implicit Types (k : kst F) (p : pipe) (pi : Z) (tbl : gmap (list Z) Z).

(** C31: a pipe is a first-in first-out queue of at most [PIPESIZE] bytes, also
    when its 32-bit counters have wrapped around: the tests for empty and full
    are those of the queue, storing a byte appends it, taking one removes the
    oldest, and both keep the ring well formed. *)
Theorem pipe_is_queue p c :
  pipe_ok p ->
  (length (content p) <= Z.to_nat PIPESIZE)%nat /\
  pipe_empty p = bool_decide (content p = []) /\
  pipe_full p = (Z.of_nat (length (content p)) =? PIPESIZE) /\
  (pipe_full p = false -> pipe_ok (pipe_push c p) /\ content (pipe_push c p) = content p ++ [c]) /\
  (pipe_empty p = false -> pipe_ok (pipe_pop p) /\ content p = pipe_head p :: content (pipe_pop p)).
Proof.
  intros Hok. split_and!.
  - pose proof (content_length p Hok). pose proof (po_len _ Hok). lia.
  - by apply pipe_empty_spec.
  - by apply pipe_full_spec.
  - by apply pipe_push_spec.
  - by apply pipe_pop_spec.
Qed.


(** a [piperead] into writable memory, when the pipe has data or no writer,
    takes as many of the oldest bytes as fit, in order, leaves the others, and
    wakes every process that sleeps for room; the reader's memory outside the
    range and every page it cannot write, the pipe's apart, are unchanged. *)
Theorem piperead_takes k i x tbl pi addr (n : nat) p l :
  caller k i x tbl -> pipe_at pi (pm k) = Some p -> pipe_ok p -> content p <> [] \/ writeopen p = 0 ->
  free_inv (pm k) l -> Kalloc.in_use (pm k) l pi ->
  0 <= addr -> addr + Z.of_nat n < 2 ^ 64 -> (forall a, addr <= a < addr + Z.of_nat n -> writable (pm k) tbl a = true) ->
  exists s' p', let bs := take n (content p) in
    delivered (pm k) l tbl (pagetable x) pi addr bs s' /\ pipe_at pi s' = Some p' /\ pipe_ok p' /\
    content p' = drop n (content p) /\ readopen p' = readopen p /\ writeopen p' = writeopen p /\
    piperead pi addr (Z.of_nat n) (mk_st [] k) =
      Ret (Z.of_nat (length bs)) (mk_st [] (set_procs (imap (woken (ChNwrite pi) (Some i)) (procs k)) (set_pm s' k))).
Proof.
  intros Hc Hp Hok Hready Hf Hu Ha Hov Hw. pose proof (ca_cur _ _ _ _ Hc) as Hcur.
  destruct (wp_run (piperead pi addr (Z.of_nat n)) (fun r s => exists s' p', let bs := take n (content p) in
    delivered (pm k) l tbl (pagetable x) pi addr bs s' /\ pipe_at pi s' = Some p' /\ pipe_ok p' /\
    content p' = drop n (content p) /\ readopen p' = readopen p /\ writeopen p' = writeopen p /\ r = Z.of_nat (length bs) /\
    s = mk_st [] (set_procs (imap (woken (ChNwrite pi) (Some i)) (procs k)) (set_pm s' k))) (mk_st [] k)) as [H _].
  destruct H as (r & s & E & s' & p' & H1 & H2 & H3 & H4 & H5 & H6 & -> & ->); [|by exists s', p'].
  unfold piperead. wp_step. apply (wp_my i); [done|]. wp_step. apply wp_acquire; [apply not_elem_of_nil|].
  wp_step. cbn [piperead_wait]. wp_step. eapply wp_deref; [exact Hp|].
  assert (pipe_empty p && negb (writeopen p =? 0) = false) as ->.
  { rewrite pipe_empty_spec by done. destruct Hready as [Hne| ->]; [by rewrite bool_decide_false|]. by rewrite andb_false_r. }
  apply wp_ret. wp_step. rewrite Nat2Z.id.
  apply (piperead_copy_spec n i x tbl pi addr 0 l p); [done|done|done|done|done|done|done|by rewrite Z.add_0_r|].
  intros s' p' bs D1 H2 H3 H4 H5 H6. rewrite Z.add_0_r in D1. cbn [Nat.add].
  wp_step. eapply wp_eq; [apply wakeup_run; [apply Hc|by intros j [=]%list_elem_of_singleton]|].
  wp_step. apply wp_release_head; [apply not_elem_of_nil|]. apply wp_ret. exists s', p'. split_and!; try done.
  cbn. by rewrite Hcur.
Qed.
End theorems.

(** ** Examples: a pipe whose counters wrap, beside the memory of VmExample.v *)

#[local] Existing Instance demo_image.
#[local] Instance no_waits : Waits := 0%nat.

Definition demo_pipe : pipe := mk_pipe (replicate (Z.to_nat PIPESIZE) 7) (2 ^ 32 - 2) 1 1 1.
Definition demo_reader : proc := set_pagetable (pg 0) zero_proc.
Definition demo_pipes : kst unit :=
  mk_kst (<[0%nat := demo_reader]> (replicate (Z.to_nat NPROC) zero_proc)) (Some 0%nat)
    (set_page (pg 4) (PgPipe demo_pipe) demo) (PQ.mk [] 0) (Queue.mk [] 0 0 0) 1 None 10 true (mk_rlist [] 0 0) [] tt.

Lemma demo_pipe_ok : pipe_ok demo_pipe.
Proof. split; by vm_compute. Qed.
Lemma demo_untouched : pt_inv (pm demo_pipes) (pg 0) demo_tbl /\ uspace (pm demo_pipes) demo_tbl /\
  forall va, pte_of (pm demo_pipes) demo_tbl va = pte_of demo demo_tbl va.
Proof.
  assert (forall a, is_table demo_tbl a -> mem (pm demo_pipes) !! a = mem demo !! a) as Hm.
  { intros a [p Ha]. apply lookup_insert_ne. intros <-. revert Ha. unfold demo_tbl.
    rewrite !lookup_insert_Some, lookup_singleton_Some. intros [[_ E]|(_ & [[_ E]|(_ & _ & E)])]; vm_compute in E; done. }
  assert (forall va, pte_of (pm demo_pipes) demo_tbl va = pte_of demo demo_tbl va) as Hp by (intros; by apply pte_of_frame).
  split_and!; [eapply pt_inv_frame; [apply demo_pt|done]| |done].
  destruct demo_uspace as [U1 U2]. split.
  - intros va Hva. rewrite Hp. intros Hu. destruct (U1 va Hva Hu) as (H1 & b & H2 & H3). split; [done|]. exists b. split; [|done].
    unfold bytes_at in *. cbn [mem pm demo_pipes set_page]. rewrite lookup_insert_ne; [done|]. intros E. rewrite <- E in H2. vm_compute in H2. done.
  - intros va va'. rewrite !Hp. apply U2.
Qed.
Lemma demo_caller : caller demo_pipes 0 demo_reader demo_tbl.
Proof. destruct demo_untouched as (? & ? & _). by split. Qed.

Lemma demo_pipe_page : Kalloc.in_use demo demo_free (pg 4).
Proof. split; [eexists; vm_compute; reflexivity|]. apply (bool_decide_unpack _). by vm_compute. Qed.

Lemma pipe_is_queue_witness : pipe_ok (pipe_push 9 demo_pipe) /\ content (pipe_push 9 demo_pipe) = [7; 7; 7; 9].
Proof.
  destruct (pipe_is_queue demo_pipe 9 demo_pipe_ok) as (_ & _ & _ & H & _). destruct H as [H1 H2]; [reflexivity|].
  split; [exact H1|]. rewrite H2. vm_compute. reflexivity.
Defined.


Lemma piperead_takes_witness :
  exists p' s', content p' = [7] /\ piperead (pg 4) 100 2 (mk_st [] demo_pipes) = Ret 2 s'.
Proof.
  destruct (piperead_takes demo_pipes 0 demo_reader demo_tbl (pg 4) 100 2 demo_pipe demo_free demo_caller eq_refl demo_pipe_ok)
    as (s' & p' & _ & _ & _ & Hc & _ & _ & E).
  - left. by vm_compute.
  - apply free_inv_write; [apply demo_free_inv| |done]. apply demo_pipe_page.
  - apply in_use_write, demo_pipe_page.
  - lia.
  - lia.
  - intros a Ha. assert (0 <= a < MAXVA) as Hm by (change MAXVA with (2 ^ 38); lia).
    unfold writable. rewrite (proj2 (proj2 demo_untouched)), demo_pte_of by done.
    assert ((a <? PGSIZE) = true) as -> by (unfold PGSIZE; lia). assert ((a <? MAXVA) = true) as -> by lia. reflexivity.
  - exists p'. eexists. split; [rewrite Hc; vm_compute; reflexivity|exact E].
Defined.
