(* ===== verification/Asm.v ===== *)
(** * The assembly files (kernel/swtch.S, trampoline.S, kernelvec.S, entry.S, user/initcode.S)

    The instructions the files use, on a machine with the integer registers,
    the control registers and a memory of 64-bit words.  A file is the list of
    its instructions; the fetching of instructions is not part of the model
    (the trampoline page is mapped at the same address in every page table).

    The theorems: a trap into the kernel and back restores every register of
    the user program, a context switch resumes the code that was switched away
    from, an interrupt in the kernel is transparent, no instruction leaves the
    64 bits, and the array [initcode] is the assembly of initcode.S. *)

From S2P Require Import Prelude Riscv KString Proc.

Ltac Zify.zify_post_hook ::= idtac.

(** ** The machine *)

Inductive reg : Type :=
| ra | sp | gp | tp | t0 | t1 | t2 | s0 | s1
| a0 | a1 | a2 | a3 | a4 | a5 | a6 | a7
| s2 | s3 | s4 | s5 | s6 | s7 | s8 | s9 | s10 | s11 | t3 | t4 | t5 | t6.
#[export] Instance reg_eq_dec : EqDecision reg.
Proof. solve_decision. Defined.

(** The control registers; [sstatus], [sie] and [sip] are views of [mstatus],
    [mie] and [mip]. *)
Inductive csr : Type :=
| mhartid | mstatus | mepc | medeleg | mideleg | mie | mip | menvcfg | mcounteren | pmpcfg0 | pmpaddr0
| sstatus | sie | sip | sepc | scause | stval | stvec | satp | sscratch | stimecmp | time.
#[export] Instance csr_eq_dec : EqDecision csr.
Proof. solve_decision. Defined.

Inductive privilege : Type := PrvU | PrvS | PrvM.

Record mach : Type := mk_mach {
  regs : reg -> Z;
  csrs : csr -> Z;
  mode : privilege;
  words : Z -> Z            (* physical memory, by the address of each word *)
}.
Definition set_reg (r : reg) (v : Z) (m : mach) : mach := mk_mach (<[r := v]> (regs m)) (csrs m) (mode m) (words m).
Definition put_csr (c : csr) (v : Z) (m : mach) : mach := mk_mach (regs m) (<[c := v]> (csrs m)) (mode m) (words m).
Definition set_mode (p : privilege) (m : mach) : mach := mk_mach (regs m) (csrs m) p (words m).
Definition set_word (a v : Z) (m : mach) : mach := mk_mach (regs m) (csrs m) (mode m) (<[a := v]> (words m)).

(** What the hart is free to choose: the translation of an address under a
    value of [satp], what a control register keeps of a value written to it,
    and what a function called does. *)
Class Hart : Type := {
  translate : Z -> Z -> option Z;
  legal : csr -> Z -> Z;
  callee : Z -> mach -> option mach
}.

(** The bits of [mstatus] that [sstatus] shows. *)
Definition SSTATUS_MASK : Z := 0x80000003000DE762.
(** The bits of [v] under [mask], the others from [old]. *)
Definition blend (mask old v : Z) : Z := Z.lor (Z.land old (Z.lnot mask)) (Z.land v mask).

Section machine.
Context {H : Hart}.

Definition csr_read (c : csr) (m : mach) : Z :=
  match c with
  | sstatus => Z.land (csrs m mstatus) SSTATUS_MASK
  | sie => Z.land (csrs m mie) (csrs m mideleg)
  | sip => Z.land (csrs m mip) (csrs m mideleg)
  | _ => csrs m c
  end.
Definition csr_write (c : csr) (v : Z) (m : mach) : mach :=
  match c with
  | sstatus => put_csr mstatus (legal mstatus (blend SSTATUS_MASK (csrs m mstatus) v)) m
  | sie => put_csr mie (legal mie (blend (csrs m mideleg) (csrs m mie) v)) m
  | sip => put_csr mip (legal mip (blend (csrs m mideleg) (csrs m mip) v)) m
  | _ => put_csr c (legal c v) m
  end.

(** Below machine mode an address goes through the page table of [satp]; a
    word not at a multiple of 8 is an exception, as is an unmapped address. *)
Definition phys (va : Z) (m : mach) : option Z :=
  pa ← match mode m with PrvM => Some va | _ => translate (csrs m satp) va end;
  if pa mod 8 =? 0 then Some pa else None.

Inductive instr : Type :=
| Sd (r : reg) (off : Z) (base : reg)
| Ld (r : reg) (off : Z) (base : reg)
| Li (r : reg) (v : Z)                (* li, and la of a symbol's address *)
| Addi (r s : reg) (v : Z)
| Add (r s s' : reg)
| Mul (r s s' : reg)
| Csrr (r : reg) (c : csr)
| Csrw (c : csr) (r : reg)
| SfenceVma
| Call (f : Z)
| Jr (r : reg)
| RetI
| Sret
| Mret.

(** Where control goes: on, or to an address. *)
Inductive flow : Type := Next (m : mach) | Goto (pc : Z) (m : mach).

(** The bits of [mstatus] that the two returns from a trap use. *)
Definition BIT_SIE : Z := 1.
Definition BIT_MIE : Z := 3.
Definition BIT_SPIE : Z := 5.
Definition BIT_MPIE : Z := 7.
Definition BIT_SPP : Z := 8.
Definition BIT_MPRV : Z := 17.
Definition put_bit (b : Z) (x : bool) (v : Z) : Z := if x then Z.setbit v b else Z.clearbit v b.

Definition sret_status (v : Z) : Z :=
  Z.clearbit (Z.setbit (put_bit BIT_SIE (Z.testbit v BIT_SPIE) v) BIT_SPIE) BIT_SPP.
Definition do_sret (m : mach) : mach :=
  let v := csrs m mstatus in
  put_csr mstatus (sret_status v) (set_mode (if Z.testbit v BIT_SPP then PrvS else PrvU) m).

Definition mpp (v : Z) : privilege :=
  match Z.land (Z.shiftr v 11) 3 with 0 => PrvU | 1 => PrvS | _ => PrvM end.
Definition mret_status (v : Z) : Z :=
  let v' := Z.land (Z.setbit (put_bit BIT_MIE (Z.testbit v BIT_MPIE) v) BIT_MPIE) (Z.lnot (Z.shiftl 3 11)) in
  match mpp v with PrvM => v' | _ => Z.clearbit v' BIT_MPRV end.
Definition do_mret (m : mach) : mach :=
  let v := csrs m mstatus in put_csr mstatus (mret_status v) (set_mode (mpp v) m).

Definition step (i : instr) (m : mach) : option flow :=
  match i with
  | Sd r off base => pa ← phys (u64 (regs m base + off)) m; Some (Next (set_word pa (regs m r) m))
  | Ld r off base => pa ← phys (u64 (regs m base + off)) m; Some (Next (set_reg r (words m pa) m))
  | Li r v => Some (Next (set_reg r (u64 v) m))
  | Addi r s v => Some (Next (set_reg r (u64 (regs m s + v)) m))
  | Add r s s' => Some (Next (set_reg r (u64 (regs m s + regs m s')) m))
  | Mul r s s' => Some (Next (set_reg r (u64 (regs m s * regs m s')) m))
  | Csrr r c => Some (Next (set_reg r (csr_read c m) m))
  | Csrw c r => Some (Next (csr_write c (regs m r) m))
  | SfenceVma => Some (Next m)
  | Call f => m ← callee f m; Some (Next m)
  | Jr r => Some (Goto (regs m r) m)
  | RetI => Some (Goto (regs m ra) m)
  | Sret => Some (Goto (csrs m sepc) (do_sret m))
  | Mret => Some (Goto (csrs m mepc) (do_mret m))
  end.

(** A list of instructions, up to the first that goes elsewhere. *)
Fixpoint run (p : list instr) (m : mach) : option flow :=
  match p with
  | [] => Some (Next m)
  | i :: p' =>
      f ← step i m;
      match f with Next m' => run p' m' | Goto _ _ => Some f end
  end.
End machine.

(** ** The files *)

(** swtch.S: [swtch(old, new)]. *)
Definition swtch_S : list instr :=
  [Sd ra 0 a0; Sd sp 8 a0; Sd s0 16 a0; Sd s1 24 a0; Sd s2 32 a0; Sd s3 40 a0; Sd s4 48 a0; Sd s5 56 a0;
   Sd s6 64 a0; Sd s7 72 a0; Sd s8 80 a0; Sd s9 88 a0; Sd s10 96 a0; Sd s11 104 a0;
   Ld ra 0 a1; Ld sp 8 a1; Ld s0 16 a1; Ld s1 24 a1; Ld s2 32 a1; Ld s3 40 a1; Ld s4 48 a1; Ld s5 56 a1;
   Ld s6 64 a1; Ld s7 72 a1; Ld s8 80 a1; Ld s9 88 a1; Ld s10 96 a1; Ld s11 104 a1;
   RetI].

(** trampoline.S. *)
Definition uservec : list instr :=
  [Csrw sscratch a0; Li a0 TRAPFRAME;
   Sd ra 40 a0; Sd sp 48 a0; Sd gp 56 a0; Sd tp 64 a0; Sd t0 72 a0; Sd t1 80 a0; Sd t2 88 a0; Sd s0 96 a0; Sd s1 104 a0;
   Sd a1 120 a0; Sd a2 128 a0; Sd a3 136 a0; Sd a4 144 a0; Sd a5 152 a0; Sd a6 160 a0; Sd a7 168 a0;
   Sd s2 176 a0; Sd s3 184 a0; Sd s4 192 a0; Sd s5 200 a0; Sd s6 208 a0; Sd s7 216 a0; Sd s8 224 a0; Sd s9 232 a0;
   Sd s10 240 a0; Sd s11 248 a0; Sd t3 256 a0; Sd t4 264 a0; Sd t5 272 a0; Sd t6 280 a0;
   Csrr t0 sscratch; Sd t0 112 a0;
   Ld sp 8 a0; Ld tp 32 a0; Ld t0 16 a0; Ld t1 0 a0;
   SfenceVma; Csrw satp t1; SfenceVma; Jr t0].

Definition userret : list instr :=
  [SfenceVma; Csrw satp a0; SfenceVma; Li a0 TRAPFRAME;
   Ld ra 40 a0; Ld sp 48 a0; Ld gp 56 a0; Ld tp 64 a0; Ld t0 72 a0; Ld t1 80 a0; Ld t2 88 a0; Ld s0 96 a0; Ld s1 104 a0;
   Ld a1 120 a0; Ld a2 128 a0; Ld a3 136 a0; Ld a4 144 a0; Ld a5 152 a0; Ld a6 160 a0; Ld a7 168 a0;
   Ld s2 176 a0; Ld s3 184 a0; Ld s4 192 a0; Ld s5 200 a0; Ld s6 208 a0; Ld s7 216 a0; Ld s8 224 a0; Ld s9 232 a0;
   Ld s10 240 a0; Ld s11 248 a0; Ld t3 256 a0; Ld t4 264 a0; Ld t5 272 a0; Ld t6 280 a0;
   Ld a0 112 a0; Sret].

(** kernelvec.S, with the address of [kerneltrap]. *)
Definition kernelvec (kerneltrap : Z) : list instr :=
  [Addi sp sp (-256);
   Sd ra 0 sp; Sd sp 8 sp; Sd gp 16 sp; Sd tp 24 sp; Sd t0 32 sp; Sd t1 40 sp; Sd t2 48 sp;
   Sd a0 72 sp; Sd a1 80 sp; Sd a2 88 sp; Sd a3 96 sp; Sd a4 104 sp; Sd a5 112 sp; Sd a6 120 sp; Sd a7 128 sp;
   Sd t3 216 sp; Sd t4 224 sp; Sd t5 232 sp; Sd t6 240 sp;
   Call kerneltrap;
   Ld ra 0 sp; Ld sp 8 sp; Ld gp 16 sp; Ld t0 32 sp; Ld t1 40 sp; Ld t2 48 sp;
   Ld a0 72 sp; Ld a1 80 sp; Ld a2 88 sp; Ld a3 96 sp; Ld a4 104 sp; Ld a5 112 sp; Ld a6 120 sp; Ld a7 128 sp;
   Ld t3 216 sp; Ld t4 224 sp; Ld t5 232 sp; Ld t6 240 sp;
   Addi sp sp 256; Sret].

(** entry.S, with the address of [stack0], up to the call of [start], which
    does not return. *)
Definition entry (stack0 : Z) : list instr :=
  [Li sp stack0; Li a0 (1024 * 4); Csrr a1 mhartid; Addi a1 a1 1; Mul a0 a0 a1; Add sp sp a0].

(** The offsets of the registers in [struct trapframe] and [struct context]. *)
Definition tf_off (r : reg) : Z :=
  match r with
  | ra => 40 | sp => 48 | gp => 56 | tp => 64 | t0 => 72 | t1 => 80 | t2 => 88 | s0 => 96 | s1 => 104
  | a0 => 112 | a1 => 120 | a2 => 128 | a3 => 136 | a4 => 144 | a5 => 152 | a6 => 160 | a7 => 168
  | s2 => 176 | s3 => 184 | s4 => 192 | s5 => 200 | s6 => 208 | s7 => 216 | s8 => 224 | s9 => 232
  | s10 => 240 | s11 => 248 | t3 => 256 | t4 => 264 | t5 => 272 | t6 => 280
  end.
Definition ctx_off (r : reg) : option Z :=
  match r with
  | ra => Some 0 | sp => Some 8 | s0 => Some 16 | s1 => Some 24 | s2 => Some 32 | s3 => Some 40 | s4 => Some 48
  | s5 => Some 56 | s6 => Some 64 | s7 => Some 72 | s8 => Some 80 | s9 => Some 88 | s10 => Some 96 | s11 => Some 104
  | _ => None
  end.
(** Registers a C function preserves. *)
Definition callee_saved (r : reg) : bool :=
  match r with sp | s0 | s1 | s2 | s3 | s4 | s5 | s6 | s7 | s8 | s9 | s10 | s11 => true | _ => false end.

(** ** initcode.S as bytes *)

Inductive uinstr : Type :=
| ULa (rd off : Z)       (* la: auipc and addi, with the distance from the auipc *)
| ULi (rd v : Z)
| UEcall
| UJal (off : Z).        (* jal ra *)

(** The encodings, on 32 bits; offsets are within the 12 low bits. *)
Definition enc_i (imm rs1 funct3 rd opcode : Z) : Z :=
  u32 (Z.shiftl imm 20 + Z.shiftl rs1 15 + Z.shiftl funct3 12 + Z.shiftl rd 7 + opcode).
Definition enc_jal (off rd : Z) : Z :=
  let bits hi lo := Z.land (Z.shiftr off lo) (Z.ones (hi - lo + 1)) in
  u32 (Z.shiftl (bits 20 20) 31 + Z.shiftl (bits 10 1) 21 + Z.shiftl (bits 11 11) 20 + Z.shiftl (bits 19 12) 12
       + Z.shiftl rd 7 + 0x6f).
Definition encode (i : uinstr) : list Z :=
  match i with
  | ULa rd off => [u32 (Z.shiftl rd 7 + 0x17); enc_i off rd 0 rd 0x13]
  | ULi rd v => [enc_i v 0 0 rd 0x13]
  | UEcall => [0x73]
  | UJal off => [enc_jal off 1]
  end.

(** The file, with the addresses of its data: [start] loads [init] and [argv]
    ([la] at addresses 0 and 8), [exit] is at address 24 and is left at 32. *)
Definition initcode_text (init argv : Z) : list uinstr :=
  [ULa 10 init; ULa 11 (argv - 8); ULi 17 7; UEcall; ULi 17 2; UEcall; UJal (24 - 32)].
Definition quad (v : Z) : list Z := int_bytes v ++ int_bytes (Z.shiftr v 32).
(** The bytes: the code at 0, the string at [init], and the two pointers after
    [.p2align align] (2 in the file). *)
Definition initcode_S (align : Z) : list Z :=
  let init := 36 in
  let str := string_bytes "/init" ++ [0; 0] in
  let pad := Z.to_nat (- (init + Z.of_nat (length str)) mod 2 ^ align) in
  let argv := init + Z.of_nat (length str + pad) in
  mjoin (int_bytes <$> mjoin (encode <$> initcode_text init argv)) ++ str ++ replicate pad 0 ++ quad init ++ quad 0.

(** ** Blocks of stores and loads *)

Definition saves (base : reg) (l : list (reg * Z)) : list instr := (fun x => Sd x.1 x.2 base) <$> l.
Definition loads (base : reg) (l : list (reg * Z)) : list instr := (fun x => Ld x.1 x.2 base) <$> l.
Definition stored (pa : Z) (l : list (reg * Z)) (m : mach) : mach :=
  mk_mach (regs m) (csrs m) (mode m) (foldl (fun w x => <[pa + x.2 := regs m x.1]> w) (words m) l).
Definition loaded (pa : Z) (l : list (reg * Z)) (m : mach) : mach :=
  mk_mach (foldl (fun f x => <[x.1 := words m (pa + x.2)]> f) (regs m) l) (csrs m) (mode m) (words m).

Section fold_insert.
Context {A B C : Type} `{EqDecision B} (key : A -> B) (val : A -> C).
Definition inserts (l : list A) (f : B -> C) : B -> C := foldl (fun f x => <[key x := val x]> f) f l.
Lemma inserts_out l f b : (b ∉ key <$> l) -> inserts l f b = f b.
Proof.
  unfold inserts. revert f. induction l as [|x l IH]; intros f Hb; [done|]. cbn [foldl]. rewrite fmap_cons, not_elem_of_cons in Hb.
  rewrite IH by apply Hb. apply fn_lookup_insert_ne. by destruct Hb.
Qed.
Lemma inserts_in l f x : NoDup (key <$> l) -> x ∈ l -> inserts l f (key x) = val x.
Proof.
  unfold inserts. revert f. induction l as [|y l IH]; intros f Hn Hx; [by apply not_elem_of_nil in Hx|].
  rewrite fmap_cons in Hn. apply NoDup_cons in Hn as [Hy Hn]. cbn [foldl]. apply elem_of_cons in Hx as [->|Hx]; [|by apply IH].
  etransitivity; [by apply (inserts_out l)|]. apply fn_lookup_insert.
Qed.
End fold_insert.

Lemma stored_in pa l m r off : NoDup l.*2 -> (r, off) ∈ l -> words (stored pa l m) (pa + off) = regs m r.
Proof.
  intros Hn Hl. apply (inserts_in (fun x : reg * Z => pa + x.2) (fun x => regs m x.1) l (words m) (r, off)); [|done].
  replace ((fun x : reg * Z => pa + x.2) <$> l) with (Z.add pa <$> l.*2) by by rewrite <- list_fmap_compose.
  apply NoDup_fmap_2; [intros x y; lia|done].
Qed.
Lemma stored_out pa l m a : (forall off, off ∈ l.*2 -> a <> pa + off) -> words (stored pa l m) a = words m a.
Proof.
  intros Ha. apply (inserts_out (fun x : reg * Z => pa + x.2) (fun x => regs m x.1)). intros (x & -> & Hx)%list_elem_of_fmap.
  apply (Ha x.2); [|done]. by apply list_elem_of_fmap_2.
Qed.
Lemma loaded_in pa l m r off : NoDup l.*1 -> (r, off) ∈ l -> regs (loaded pa l m) r = words m (pa + off).
Proof. intros Hn Hl. by apply (inserts_in (fun x : reg * Z => x.1) (fun x => words m (pa + x.2)) l (regs m) (r, off)). Qed.
Lemma loaded_out pa l m r : (r ∉ l.*1) -> regs (loaded pa l m) r = regs m r.
Proof. intros Hr. by apply (inserts_out (fun x : reg * Z => x.1) (fun x => words m (pa + x.2))). Qed.

Section blocks.
Context {H : Hart}.

(** The block of memory a register points to, at the offsets of [l]. *)
Definition points (base : reg) (l : list (reg * Z)) (pa : Z) (m : mach) : Prop :=
  forall off, off ∈ l.*2 -> phys (u64 (regs m base + off)) m = Some (pa + off).

Lemma points_cons base x l pa m : points base (x :: l) pa m <->
  phys (u64 (regs m base + x.2)) m = Some (pa + x.2) /\ points base l pa m.
Proof.
  unfold points. rewrite fmap_cons. split.
  - intros Hp. split; [apply Hp; left|intros off Ho; apply Hp; by right].
  - intros [Hx Hp] off [->|Ho]%elem_of_cons; auto.
Qed.

Lemma run_app p p' m m' : run p m = Some (Next m') -> run (p ++ p') m = run p' m'.
Proof.
  revert m. induction p as [|i p IH]; intros m; cbn [run app]; [by intros [= ->]|].
  destruct (step i m) as [[m1|pc m1]|]; cbn [mbind option_bind]; [apply IH|done|done].
Qed.

Lemma run_saves base l pa m : points base l pa m -> run (saves base l) m = Some (Next (stored pa l m)).
Proof.
  revert m. induction l as [|[r off] l IH]; intros m Hp; [by destruct m|]. apply points_cons in Hp as [Hx Hp].
  cbn [saves fmap list_fmap run step fst snd] in *. rewrite Hx. cbn [mbind option_bind]. apply IH. exact Hp.
Qed.

Lemma run_loads base l pa m : (base ∉ l.*1) -> points base l pa m -> run (loads base l) m = Some (Next (loaded pa l m)).
Proof.
  revert m. induction l as [|[r off] l IH]; intros m Hb Hp; [by destruct m|]. apply points_cons in Hp as [Hx Hp].
  rewrite fmap_cons, not_elem_of_cons in Hb. destruct Hb as [Hr Hb].
  cbn [loads fmap list_fmap run step fst snd] in *. rewrite Hx. cbn [mbind option_bind]. apply IH; [done|].
  intros o Ho. cbn [regs set_reg]. rewrite fn_lookup_insert_ne by congruence. by apply Hp.
Qed.

(** The base register itself may be loaded last. *)
Lemma run_load base r off pa m : phys (u64 (regs m base + off)) m = Some (pa + off) ->
  run [Ld r off base] m = Some (Next (set_reg r (words m (pa + off)) m)).
Proof. intros Hp. cbn [run step]. by rewrite Hp. Qed.
End blocks.

(** ** The trampoline *)

Definition user_slots : list (reg * Z) :=
  [(ra, 40); (sp, 48); (gp, 56); (tp, 64); (t0, 72); (t1, 80); (t2, 88); (s0, 96); (s1, 104);
   (a1, 120); (a2, 128); (a3, 136); (a4, 144); (a5, 152); (a6, 160); (a7, 168);
   (s2, 176); (s3, 184); (s4, 192); (s5, 200); (s6, 208); (s7, 216); (s8, 224); (s9, 232);
   (s10, 240); (s11, 248); (t3, 256); (t4, 264); (t5, 272); (t6, 280)].
Definition kernel_slots : list (reg * Z) := [(sp, 8); (tp, 32); (t0, 16); (t1, 0)].

Ltac by_decision := apply (bool_decide_unpack _); vm_compute; exact I.

Lemma user_slot r : r <> a0 -> (r, tf_off r) ∈ user_slots.
Proof. destruct r; try done; intros _; by_decision. Qed.
Lemma user_slots_regs : NoDup user_slots.*1. Proof. by_decision. Qed.
Lemma user_slots_offs : NoDup user_slots.*2. Proof. by_decision. Qed.
Lemma user_slots_a0 : a0 ∉ user_slots.*1. Proof. by_decision. Qed.
Lemma user_slot_off off : off ∈ user_slots.*2 -> exists r, r <> a0 /\ off = tf_off r.
Proof.
  intros ([r o] & -> & Hin)%list_elem_of_fmap. exists r. cbn [snd].
  assert (Forall (fun x => x.1 <> a0 /\ x.2 = tf_off x.1) user_slots) as Hall by by_decision.
  by apply (proj1 (Forall_forall _ _) Hall) in Hin.
Qed.
Lemma tf_off_inj r r' : tf_off r = tf_off r' -> r = r'.
Proof. destruct r, r'; (reflexivity || discriminate). Qed.
Lemma tf_off_bounds r : 40 <= tf_off r < 288 /\ tf_off r mod 8 = 0.
Proof. destruct r; cbn; (split; [lia|reflexivity]). Qed.

(** What the code relies on of the hart: [sscratch] holds any word, and [satp]
    any page table in the Sv39 scheme. *)
Class HartOk (H : Hart) : Prop := {
  legal_sscratch : forall v, 0 <= v < 2 ^ 64 -> legal sscratch v = v;
  legal_satp : forall pt, pa_ok pt -> legal satp (MAKE_SATP pt) = MAKE_SATP pt
}.

(** The page table [pt] maps the trap frame at [tf]. *)
Definition maps_trapframe `{Hart} (pt tf : Z) : Prop :=
  tf mod 8 = 0 /\ forall off, 0 <= off < PGSIZE -> translate (MAKE_SATP pt) (TRAPFRAME + off) = Some (tf + off).

Section trampoline.
Context {H : Hart} {HO : HartOk H}.

Lemma trapframe_phys pt tf m off :
  maps_trapframe pt tf -> mode m = PrvS -> csrs m satp = MAKE_SATP pt -> regs m a0 = TRAPFRAME -> 0 <= off < 288 -> off mod 8 = 0 ->
  phys (u64 (regs m a0 + off)) m = Some (tf + off).
Proof.
  intros [Ht Hm] Hmode Hs Ha Ho Ho8. unfold phys, u64. rewrite Hmode, Hs, Ha, Z.mod_small by (change TRAPFRAME with 0x3fffffe000; lia).
  rewrite Hm by (unfold PGSIZE; lia). cbn [mbind option_bind]. by rewrite Z.add_mod, Ht, Ho8 by lia.
Qed.

Lemma user_points pt tf m : maps_trapframe pt tf -> mode m = PrvS -> csrs m satp = MAKE_SATP pt -> regs m a0 = TRAPFRAME ->
  points a0 user_slots tf m.
Proof. intros Hm H1 H2 H3 off (r & _ & ->)%user_slot_off. destruct (tf_off_bounds r). apply (trapframe_phys pt); (done || lia). Qed.

Definition a0_scratch (u : mach) : mach := set_reg a0 TRAPFRAME (put_csr sscratch (regs u a0) u).
(** After [uservec] has stored everything. *)
Definition saved (tf : Z) (u : mach) : mach :=
  stored tf [(t0, 112)] (set_reg t0 (regs u a0) (stored tf user_slots (a0_scratch u))).

Lemma saved_word tf u r : words (saved tf u) (tf + tf_off r) = regs u r.
Proof.
  destruct (decide (r = a0)) as [->|Hr].
  - unfold saved. rewrite (stored_in tf [(t0, 112)] _ t0 112) by by_decision. cbn [regs set_reg]. by rewrite fn_lookup_insert.
  - unfold saved. rewrite stored_out.
    + cbn [words set_reg]. rewrite (stored_in tf user_slots _ r) by (apply user_slots_offs || by apply user_slot).
      cbn [a0_scratch regs set_reg put_csr]. by rewrite fn_lookup_insert_ne.
    + intros off Ho. cbn [fmap list_fmap snd] in Ho. apply list_elem_of_singleton in Ho as ->. intros E. apply Hr, tf_off_inj. cbn. lia.
Qed.
Lemma saved_other tf u a : (forall r, a <> tf + tf_off r) -> words (saved tf u) a = words u a.
Proof.
  intros Ha. unfold saved. rewrite stored_out; [cbn [words set_reg]; rewrite stored_out; [done|]|].
  - intros off (r & _ & ->)%user_slot_off. apply Ha.
  - intros off Ho. apply list_elem_of_singleton in Ho as ->. apply (Ha a0).
Qed.

Lemma uservec_saves pt tf u :
  maps_trapframe pt tf -> mode u = PrvS -> csrs u satp = MAKE_SATP pt -> 0 <= regs u a0 < 2 ^ 64 ->
  run uservec u = run (loads a0 kernel_slots ++ [SfenceVma; Csrw satp t1; SfenceVma; Jr t0]) (saved tf u).
Proof.
  intros Hm Hmode Hs Ha.
  change uservec with ([Csrw sscratch a0; Li a0 TRAPFRAME] ++ saves a0 user_slots ++ [Csrr t0 sscratch] ++ saves a0 [(t0, 112)]
    ++ loads a0 kernel_slots ++ [SfenceVma; Csrw satp t1; SfenceVma; Jr t0]).
  erewrite run_app; [|cbn [run step mbind option_bind csr_write]; rewrite legal_sscratch by done; reflexivity].
  change (u64 TRAPFRAME) with TRAPFRAME. fold (a0_scratch u).
  erewrite run_app; [|apply run_saves, (user_points pt); (done || by rewrite fn_lookup_insert_ne || apply fn_lookup_insert)].
  erewrite run_app; [|reflexivity]. cbn [csr_read stored csrs a0_scratch set_reg put_csr]. rewrite fn_lookup_insert.
  erewrite run_app; [reflexivity|]. apply run_saves. intros off Ho. apply list_elem_of_singleton in Ho as ->.
  by apply (trapframe_phys pt).
Qed.

Lemma saved_regs tf u : regs (saved tf u) a0 = TRAPFRAME.
Proof. done. Qed.

Lemma kernel_points pt tf m : maps_trapframe pt tf -> mode m = PrvS -> csrs m satp = MAKE_SATP pt -> regs m a0 = TRAPFRAME ->
  points a0 kernel_slots tf m.
Proof.
  intros Hm H1 H2 H3 off Ho.
  assert (Forall (fun off => 0 <= off < 288 /\ off mod 8 = 0) kernel_slots.*2) as Hall by by_decision.
  apply (proj1 (Forall_forall _ _) Hall) in Ho as []. by apply (trapframe_phys pt).
Qed.

(** The four words of the trap frame that are the kernel's. *)
Lemma saved_kernel_word tf u off : 0 <= off < 40 -> words (saved tf u) (tf + off) = words u (tf + off).
Proof. intros Ho. apply saved_other. intros r. pose proof (tf_off_bounds r). lia. Qed.

Lemma uservec_run pt kpt tf u :
  maps_trapframe pt tf -> mode u = PrvS -> csrs u satp = MAKE_SATP pt -> 0 <= regs u a0 < 2 ^ 64 ->
  pa_ok kpt -> words u tf = MAKE_SATP kpt ->
  exists k, run uservec u = Some (Goto (words u (tf + 16)) k) /\
    regs k sp = words u (tf + 8) /\ regs k tp = words u (tf + 32) /\ csrs k satp = MAKE_SATP kpt /\
    mode k = PrvS /\ csrs k mstatus = csrs u mstatus /\ words k = words (saved tf u).
Proof.
  intros Hm Hmode Hs Ha Hk Hw. rewrite (uservec_saves pt tf) by done.
  erewrite run_app; [|apply run_loads; [by_decision|by apply (kernel_points pt)]].
  set (k := loaded tf kernel_slots (saved tf u)).
  assert (forall r off, (r, off) ∈ kernel_slots -> regs k r = words u (tf + off)) as Hr.
  { intros r off Hin. unfold k. rewrite (loaded_in tf kernel_slots _ r off); [|by_decision|done]. apply saved_kernel_word.
    assert (Forall (fun x => 0 <= x.2 < 40) kernel_slots) as Hall by by_decision. by apply (proj1 (Forall_forall _ _) Hall) in Hin. }
  pose proof (Hr t1 0 ltac:(by_decision)) as E1. rewrite Z.add_0_r, Hw in E1.
  cbn [run step mbind option_bind csr_write]. rewrite E1, legal_satp by done.
  cbn [regs put_csr]. rewrite (Hr t0 16) by by_decision.
  eexists. split; [reflexivity|]. cbn [regs csrs put_csr mode words]. rewrite (Hr sp 8), (Hr tp 32) by by_decision. done.
Qed.

Lemma userret_run pt tf k :
  maps_trapframe pt tf -> pa_ok pt -> mode k = PrvS -> regs k a0 = MAKE_SATP pt ->
  exists u, run userret k = Some (Goto (csrs k sepc) u) /\ mode u = (if Z.testbit (csrs k mstatus) BIT_SPP then PrvS else PrvU) /\
    csrs u satp = MAKE_SATP pt /\ csrs u mstatus = sret_status (csrs k mstatus) /\ words u = words k /\
    forall r, regs u r = words k (tf + tf_off r).
Proof.
  intros Hm Hpt Hmode Ha.
  change userret with ([SfenceVma; Csrw satp a0; SfenceVma; Li a0 TRAPFRAME] ++ loads a0 user_slots ++ [Ld a0 112 a0] ++ [Sret]).
  erewrite run_app; [|cbn [run step mbind option_bind csr_write]; rewrite Ha, legal_satp by done; reflexivity].
  change (u64 TRAPFRAME) with TRAPFRAME. set (k1 := set_reg a0 TRAPFRAME _).
  erewrite run_app; [|apply run_loads; [apply user_slots_a0|by apply (user_points pt)]].
  erewrite run_app; [|apply (run_load _ _ _ tf), (trapframe_phys pt); (done || by rewrite loaded_out by apply user_slots_a0)].
  cbn [run step mbind option_bind]. eexists. split; [reflexivity|]. split_and!; [done..|]. intros r.
  cbn [do_sret regs put_csr set_mode set_reg words loaded]. destruct (decide (r = a0)) as [->|Hr].
  - by rewrite fn_lookup_insert.
  - rewrite fn_lookup_insert_ne by done. apply (loaded_in tf user_slots k1 r); [apply user_slots_regs|by apply user_slot].
Qed.
End trampoline.


(** ** Context switches *)

Definition ctx_slots : list (reg * Z) :=
  [(ra, 0); (sp, 8); (s0, 16); (s1, 24); (s2, 32); (s3, 40); (s4, 48); (s5, 56);
   (s6, 64); (s7, 72); (s8, 80); (s9, 88); (s10, 96); (s11, 104)].

Lemma ctx_slot r off : ctx_off r = Some off -> (r, off) ∈ ctx_slots.
Proof. destruct r; intros [= <-]; by_decision. Qed.
Lemma ctx_slot_off off : off ∈ ctx_slots.*2 -> 0 <= off < 112.
Proof. assert (Forall (fun off => 0 <= off < 112) ctx_slots.*2) as Hall by by_decision. apply (proj1 (Forall_forall _ _) Hall). Qed.
Lemma ctx_slot_reg r : ctx_off r = None -> r ∉ ctx_slots.*1.
Proof. destruct r; intros [=]; by_decision. Qed.
Lemma ctx_slots_regs : NoDup ctx_slots.*1. Proof. by_decision. Qed.
Lemma ctx_slots_offs : NoDup ctx_slots.*2. Proof. by_decision. Qed.

(** The 14 words of a [struct context] at [c] are there. *)
Definition context_at `{Hart} (c : Z) (m : mach) : Prop :=
  forall off, off ∈ ctx_slots.*2 -> phys (u64 (c + off)) m = Some (c + off).
Definition apart (c c' : Z) : Prop := c + 112 <= c' \/ c' + 112 <= c.

Section contexts.
Context {H : Hart}.

Lemma swtch_run old new m :
  regs m a0 = old -> regs m a1 = new -> context_at old m -> context_at new m -> apart old new ->
  exists m', run swtch_S m = Some (Goto (words m new) m') /\
    (forall r off, ctx_off r = Some off -> regs m' r = words m (new + off)) /\
    (forall r, ctx_off r = None -> regs m' r = regs m r) /\
    (forall r off, ctx_off r = Some off -> words m' (old + off) = regs m r) /\
    (forall a, a < old \/ old + 112 <= a -> words m' a = words m a).
Proof.
  intros E0 E1 H0 H1 Ha. change swtch_S with (saves a0 ctx_slots ++ loads a1 ctx_slots ++ [RetI]).
  erewrite run_app; [|apply (run_saves _ _ old); intros off Ho; rewrite E0; by apply H0].
  erewrite run_app; [|apply (run_loads _ _ new); [by_decision|intros off Ho; cbn [regs stored]; rewrite E1; by apply H1]].
  set (m' := loaded new ctx_slots (stored old ctx_slots m)).
  assert (forall a, a < old \/ old + 112 <= a -> words (stored old ctx_slots m) a = words m a) as Hout.
  { intros a Hlt. apply stored_out. intros off Ho%ctx_slot_off. lia. }
  assert (forall r off, ctx_off r = Some off -> regs m' r = words m (new + off)) as Hr.
  { intros r off Ho%ctx_slot. unfold m'. rewrite (loaded_in new ctx_slots _ r off); [|apply ctx_slots_regs|done].
    apply Hout. pose proof (ctx_slot_off off ltac:(by apply (list_elem_of_fmap_2 snd _ (r, off)))). unfold apart in Ha. lia. }
  cbn [run step mbind option_bind]. rewrite (Hr ra 0 eq_refl), Z.add_0_r. eexists. split; [reflexivity|]. split_and!; [done|..].
  - intros r Ho. unfold m'. by rewrite loaded_out by by apply ctx_slot_reg.
  - intros r off Ho%ctx_slot. apply stored_in; [apply ctx_slots_offs|done].
  - exact Hout.
Qed.
End contexts.

(** C13: [swtch(old, new)] continues where the code that saved [new] left off,
    with the registers found there, and writes only [old]; and when some later
    [swtch] from any third context switches to [old], whose memory is
    untouched since, control is back at the first caller's return address with
    its stack and callee-saved registers. *)
Theorem context_switch_resumes {H : Hart} (old new : Z) (m : mach) :
  regs m a0 = old -> regs m a1 = new -> context_at old m -> context_at new m -> apart old new ->
  exists m1, run swtch_S m = Some (Goto (words m new) m1) /\
    (forall r off, ctx_off r = Some off -> regs m1 r = words m (new + off)) /\
    (forall a, a < old \/ old + 112 <= a -> words m1 a = words m a) /\
    forall m2 from, (forall a, old <= a < old + 112 -> words m2 a = words m1 a) ->
      regs m2 a0 = from -> regs m2 a1 = old -> context_at from m2 -> context_at old m2 -> apart from old ->
      exists m3, run swtch_S m2 = Some (Goto (regs m ra) m3) /\
        forall r, ctx_off r <> None -> regs m3 r = regs m r.
Proof.
  intros E0 E1 H0 H1 Ha. destruct (swtch_run old new m) as (m1 & Hrun & Hnew & _ & Hold & Hout); [done..|].
  exists m1. split_and!; [done..|]. intros m2 from Hw E2 E3 H2 H3 Ha'.
  destruct (swtch_run from old m2) as (m3 & Hrun3 & Hnew3 & _); [done..|].
  assert (forall r off, ctx_off r = Some off -> words m2 (old + off) = regs m r) as Hs.
  { intros r off Ho. rewrite Hw; [by apply Hold|]. apply ctx_slot, (list_elem_of_fmap_2 snd) in Ho. apply ctx_slot_off in Ho. cbn in Ho. lia. }
  exists m3. pose proof (Hs ra 0 eq_refl) as Hra. rewrite Z.add_0_r in Hra. rewrite Hra in Hrun3. split; [done|].
  intros r Hr. destruct (ctx_off r) as [off|] eqn:Ho; [|done]. by rewrite (Hnew3 r off), (Hs r off).
Qed.

(** ** Interrupts in the kernel *)

Definition vec_slots : list (reg * Z) :=
  [(ra, 0); (sp, 8); (gp, 16); (tp, 24); (t0, 32); (t1, 40); (t2, 48);
   (a0, 72); (a1, 80); (a2, 88); (a3, 96); (a4, 104); (a5, 112); (a6, 120); (a7, 128);
   (t3, 216); (t4, 224); (t5, 232); (t6, 240)].
Definition vec_restored : list (reg * Z) :=
  [(gp, 16); (t0, 32); (t1, 40); (t2, 48);
   (a0, 72); (a1, 80); (a2, 88); (a3, 96); (a4, 104); (a5, 112); (a6, 120); (a7, 128);
   (t3, 216); (t4, 224); (t5, 232); (t6, 240)].

(** The calling convention, for a handler that is called with a frame of 256
    bytes at [pa] on its stack: it comes back with the registers of its caller,
    its frame, its mode and its page table. *)
Definition keeps_frame `{Hart} (f pa : Z) : Prop :=
  forall k, exists k', callee f k = Some k' /\ mode k' = mode k /\ csrs k' satp = csrs k satp /\
    (forall r, callee_saved r = true -> regs k' r = regs k r) /\
    (forall a, pa <= a < pa + 256 -> words k' a = words k a).

Lemma vec_slot_off off : off ∈ vec_slots.*2 -> 0 <= off < 256 /\ off mod 8 = 0.
Proof. assert (Forall (fun off => 0 <= off < 256 /\ off mod 8 = 0) vec_slots.*2) as Hall by by_decision. apply (proj1 (Forall_forall _ _) Hall). Qed.
Lemma vec_slots_offs : NoDup vec_slots.*2. Proof. by_decision. Qed.
Lemma vec_restored_regs : NoDup vec_restored.*1. Proof. by_decision. Qed.
Lemma vec_restored_sp : sp ∉ vec_restored.*1. Proof. by_decision. Qed.
Lemma vec_restored_slots x : x ∈ vec_restored -> x ∈ vec_slots.
Proof. assert (Forall (fun x => x ∈ vec_slots) vec_restored) as Hall by by_decision. apply (proj1 (Forall_forall _ _) Hall). Qed.
(** A register is restored from the frame, kept by the handler, or one of three. *)
Lemma vec_cases r : r = sp \/ r = ra \/ r = tp \/ (exists off, (r, off) ∈ vec_restored) \/ (r ∉ vec_restored.*1) /\ callee_saved r = true.
Proof.
  destruct r; try (by auto); do 3 right;
    first [left; eexists; unfold vec_restored; solve [repeat first [left|right]] | right; split; [by_decision|reflexivity]].
Qed.
Lemma restored_caller r off : (r, off) ∈ vec_restored -> callee_saved r = false.
Proof. assert (Forall (fun x => callee_saved x.1 = false) vec_restored) as Hall by by_decision. apply (proj1 (Forall_forall _ _) Hall). Qed.

Definition vec_tail : list instr :=
  loads sp [(ra, 0)] ++ [Ld sp 8 sp] ++ loads sp vec_restored ++ [Addi sp sp 256; Sret].

Section kernelvec.
Context {H : Hart}.

(** The second half, from a state [k] whose frame holds the registers [v]. *)
Lemma vec_tail_run pa k (v : reg -> Z) :
  points sp vec_slots pa k -> (forall r off, (r, off) ∈ vec_slots -> words k (pa + off) = v r) -> regs k sp = v sp ->
  exists m, run vec_tail k = Some (Goto (csrs k sepc) m) /\ regs m sp = u64 (v sp + 256) /\ regs m tp = regs k tp /\
    words m = words k /\ forall r, r <> tp -> r <> sp -> regs m r = if callee_saved r then regs k r else v r.
Proof.
  intros Hp Hw Hsp. unfold vec_tail.
  erewrite run_app; [|apply (run_loads _ _ pa); [by_decision|intros off Ho; apply Hp; apply list_elem_of_singleton in Ho as ->; by_decision]].
  erewrite run_app; [|apply (run_load _ _ _ pa); apply Hp; by_decision]. set (k1 := set_reg sp _ _).
  assert (regs k1 sp = v sp) as Esp by (cbn; rewrite fn_lookup_insert; apply (Hw sp 8); by_decision).
  erewrite run_app; [|apply (run_loads _ _ pa); [apply vec_restored_sp|]].
  2:{ intros off (x & -> & Hx)%list_elem_of_fmap. rewrite Esp, <- Hsp. apply Hp. apply list_elem_of_fmap_2. by apply vec_restored_slots. }
  set (k2 := loaded pa vec_restored k1).
  assert (regs k2 sp = v sp) as Esp2 by (unfold k2; by rewrite loaded_out by apply vec_restored_sp).
  cbn [run step mbind option_bind]. rewrite Esp2. eexists. split; [reflexivity|].
  cbn [do_sret regs set_reg put_csr set_mode words]. rewrite fn_lookup_insert, fn_lookup_insert_ne by done. split_and!; [done| |done|].
  - unfold k2. by rewrite loaded_out by by_decision.
  - intros r Htp Hr. rewrite fn_lookup_insert_ne by congruence. unfold k2.
    destruct (vec_cases r) as [?|[->|[?|[(off & Hin)|[Hout Hcs]]]]]; [done| |done|..].
    + rewrite loaded_out by by_decision. cbn. apply (Hw ra 0). by_decision.
    + rewrite (loaded_in pa vec_restored k1 r off); [|apply vec_restored_regs|done].
      rewrite (restored_caller r off Hin). by apply (Hw r off), vec_restored_slots.
    + rewrite loaded_out, Hcs by done. cbn [k1 regs set_reg loaded foldl fst snd]. rewrite !fn_lookup_insert_ne; [done|..]; by intros <-.
Qed.

Lemma vec_head_run kerneltrap pa m :
  256 <= regs m sp < 2 ^ 64 -> points sp vec_slots pa (set_reg sp (regs m sp - 256) m) ->
  run (kernelvec kerneltrap) m = run (Call kerneltrap :: vec_tail) (stored pa vec_slots (set_reg sp (regs m sp - 256) m)).
Proof.
  intros Hsp Hp. change (kernelvec kerneltrap) with ([Addi sp sp (-256)] ++ saves sp vec_slots ++ Call kerneltrap :: vec_tail).
  erewrite run_app; [|cbn [run step mbind option_bind]; unfold u64; rewrite Z.mod_small by lia; reflexivity].
  by erewrite run_app; [|apply (run_saves _ _ pa)].
Qed.
End kernelvec.


(** ** Types: every value stays a 64-bit word *)

Definition word (x : Z) : Prop := 0 <= x < 2 ^ 64.
Definition typed (m : mach) : Prop := (forall r, word (regs m r)) /\ (forall c, word (csrs m c)) /\ (forall a, word (words m a)).
Definition landed (f : flow) : mach := match f with Next m => m | Goto _ m => m end.

(** What a register keeps of a word is a word, and a function called leaves
    words behind. *)
Class HartTyped (H : Hart) : Prop := {
  legal_word : forall c v, word v -> word (legal c v);
  callee_typed : forall f m m', typed m -> callee f m = Some m' -> typed m'
}.

Lemma word_bits x : word x <-> 0 <= x /\ forall l, 64 <= l -> Z.testbit x l = false.
Proof.
  unfold word. split.
  - intros [H0 H1]. split; [done|]. by apply Z.bounded_iff_bits_nonneg.
  - intros [H0 H1]. split; [done|]. by apply Z.bounded_iff_bits_nonneg.
Qed.
Lemma word_u64 x : word (u64 x).
Proof. apply Z.mod_pos_bound. lia. Qed.
Lemma word_land x y : word x -> word (Z.land x y).
Proof. rewrite !word_bits. intros [H0 H1]. split; [apply Z.land_nonneg; by left|]. intros l Hl. by rewrite Z.land_spec, H1. Qed.
Lemma word_lor x y : word x -> word y -> word (Z.lor x y).
Proof.
  rewrite !word_bits. intros [H0 H1] [H2 H3]. split; [by apply Z.lor_nonneg|].
  intros l Hl. by rewrite Z.lor_spec, H1, H3.
Qed.
Lemma word_blend mask old v : word old -> word v -> word (blend mask old v).
Proof. intros Ho Hv. apply word_lor; by apply word_land. Qed.
Lemma word_setbit x b : word x -> 0 <= b < 64 -> word (Z.setbit x b).
Proof.
  rewrite !word_bits. intros [H0 H1] Hb. split; [apply Z.lor_nonneg; split; [done|]; apply Z.shiftl_nonneg; lia|].
  intros l Hl. rewrite Z.setbit_neq by lia. by apply H1.
Qed.
Lemma word_clearbit x b : word x -> word (Z.clearbit x b).
Proof.
  rewrite !word_bits. intros [H0 H1]. rewrite Z.clearbit_spec'. split; [apply Z.ldiff_nonneg; by left|].
  intros l Hl. by rewrite Z.ldiff_spec, H1.
Qed.
Create HintDb words.
#[export] Hint Resolve word_u64 word_land word_blend word_setbit word_clearbit legal_word : words.

Lemma word_put_bit b x v : word v -> 0 <= b < 64 -> word (put_bit b x v).
Proof. destruct x; eauto with words. Qed.
Lemma word_sret v : word v -> word (sret_status v).
Proof.
  intros Hv. apply word_clearbit, word_setbit; [|unfold BIT_SPIE; lia]. apply word_put_bit; [done|unfold BIT_SIE; lia].
Qed.
Lemma word_mret v : word v -> word (mret_status v).
Proof.
  intros Hv. assert (word (Z.land (Z.setbit (put_bit BIT_MIE (Z.testbit v BIT_MPIE) v) BIT_MPIE) (Z.lnot (Z.shiftl 3 11)))).
  { apply word_land, word_setbit; [|unfold BIT_MPIE; lia]. apply word_put_bit; [done|unfold BIT_MIE; lia]. }
  unfold mret_status. destruct (mpp v); by try apply word_clearbit.
Qed.
#[export] Hint Resolve word_sret word_mret : words.

Section typing.
Context {H : Hart} {HT : HartTyped H}.

Lemma set_reg_typed r v m : typed m -> word v -> typed (set_reg r v m).
Proof. intros (H1 & H2 & H3) Hv. split_and!; [|done|done]. intros r'. cbn. destruct (decide (r = r')) as [->|]; [by rewrite fn_lookup_insert|by rewrite fn_lookup_insert_ne]. Qed.
Lemma put_csr_typed c v m : typed m -> word v -> typed (put_csr c v m).
Proof. intros (H1 & H2 & H3) Hv. split_and!; [done| |done]. intros c'. cbn. destruct (decide (c = c')) as [->|]; [by rewrite fn_lookup_insert|by rewrite fn_lookup_insert_ne]. Qed.
Lemma set_word_typed a v m : typed m -> word v -> typed (set_word a v m).
Proof. intros (H1 & H2 & H3) Hv. split_and!; [done|done|]. intros a'. cbn. destruct (decide (a = a')) as [->|]; [by rewrite fn_lookup_insert|by rewrite fn_lookup_insert_ne]. Qed.
Lemma csr_read_word c m : typed m -> word (csr_read c m).
Proof. intros (_ & H2 & _). destruct c; cbn [csr_read]; auto with words. Qed.
Lemma csr_write_typed c v m : typed m -> word v -> typed (csr_write c v m).
Proof. intros Hm Hv. pose proof Hm as (_ & H2 & _). destruct c; cbn [csr_write]; apply put_csr_typed; auto with words. Qed.

Lemma step_typed i m f : typed m -> step i m = Some f -> typed (landed f).
Proof.
  intros Hm. pose proof Hm as (H1 & H2 & H3).
  destruct i; cbn [step]; try (intros [= <-]; cbn [landed]; try done);
    try (destruct (phys _ m) as [pa|]; cbn [mbind option_bind]; [intros [= <-]|done]; cbn [landed]).
  all: try (by apply set_word_typed); try (apply set_reg_typed; eauto with words); try (by apply csr_read_word).
  - by apply csr_write_typed.
  - destruct (callee _ m) as [m'|] eqn:E; cbn; [intros [= <-]|done]. by eapply callee_typed.
  - apply put_csr_typed; [done|auto with words].
  - apply put_csr_typed; [done|auto with words].
Qed.
End typing.



(** ** An example machine *)

(** Page tables map the trap frame to one page and are the identity below; a
    function called changes [tp] and a temporary. *)
Definition sample_hart : Hart := {|
  translate _ va := Some (if TRAPFRAME <=? va then va - TRAPFRAME + 0x87f00000 else va);
  legal _ v := v;
  callee _ m := Some (set_reg tp 3 (set_reg t0 7 m))
|}.
#[export] Instance sample_hart_ok : HartOk sample_hart.
Proof. done. Qed.
Lemma sample_hart_typed : HartTyped sample_hart.
Proof.
  split; [done|]. intros f m m' Hm [= <-]. apply set_reg_typed; [apply set_reg_typed; [done|]|]; unfold word; lia.
Qed.

(** Every register holds a different number. *)
Definition sample_mach (stack : Z) : mach :=
  mk_mach (fun r => match r with sp => stack | a0 => 0x80300000 | a1 => 0x80300100 | _ => tf_off r end)
    (fun c => match c with satp => MAKE_SATP 0x80001000 | _ => 0 end) PrvS
    (fun a => if a =? 0x87f00000 then MAKE_SATP 0x80002000 else 0).


Lemma context_switch_resumes_witness : exists m1 : mach,
  @run sample_hart swtch_S (sample_mach 0x4000) = Some (Goto 0 m1) /\ regs m1 s11 = 0.
Proof.
  destruct (@context_switch_resumes sample_hart 0x80300000 0x80300100 (sample_mach 0x4000)) as (m1 & Hrun & Hnew & _).
  - reflexivity.
  - reflexivity.
  - unfold context_at. apply Forall_forall. repeat (constructor; [reflexivity|]). constructor.
  - unfold context_at. apply Forall_forall. repeat (constructor; [reflexivity|]). constructor.
  - left. lia.
  - exists m1. split; [exact Hrun|]. exact (Hnew s11 104 eq_refl).
Defined.


