(* ===== verification/Boot.v ===== *)
(** * Machine mode and the interrupt controller
      (kernel/riscv.h, kernel/start.c, kernel/plic.c, kernel/memlayout.h)

    The accessors of the control registers, which riscv.h writes as inline
    assembly, and the code that takes a hart from power-on to [main] in
    supervisor mode; and how the interrupt controller is set up.

    The theorems: in what state every hart enters [main], and which interrupts
    the controller delivers to it. *)

From S2P Require Import Prelude Riscv Asm.

Ltac Zify.zify_post_hook ::= idtac.

(** ** riscv.h *)

Definition MSTATUS_MPP_MASK : Z := Z.shiftl 3 11.
Definition MSTATUS_MPP_S : Z := Z.shiftl 1 11.
Definition SSTATUS_SIE : Z := Z.shiftl 1 1.
Definition SIE_SEIE : Z := Z.shiftl 1 9.
Definition SIE_STIE : Z := Z.shiftl 1 5.
Definition SIE_SSIE : Z := Z.shiftl 1 1.
Definition MIE_STIE : Z := Z.shiftl 1 5.

Section riscv.
Context {H : Hart}.
Implicit Types (m : mach) (x : Z).

Definition r_mhartid m : Z := csr_read mhartid m.
Definition r_mstatus m : Z := csr_read mstatus m.
Definition w_mstatus x m : mach := csr_write mstatus x m.
Definition w_mepc x m : mach := csr_write mepc x m.
Definition r_sstatus m : Z := csr_read sstatus m.
Definition w_sstatus x m : mach := csr_write sstatus x m.
Definition r_sip m : Z := csr_read sip m.
Definition w_sip x m : mach := csr_write sip x m.
Definition r_sie m : Z := csr_read sie m.
Definition w_sie x m : mach := csr_write sie x m.
Definition r_mie m : Z := csr_read mie m.
Definition w_mie x m : mach := csr_write mie x m.
Definition w_sepc x m : mach := csr_write sepc x m.
Definition r_sepc m : Z := csr_read sepc m.
Definition r_medeleg m : Z := csr_read medeleg m.
Definition w_medeleg x m : mach := csr_write medeleg x m.
Definition r_mideleg m : Z := csr_read mideleg m.
Definition w_mideleg x m : mach := csr_write mideleg x m.
Definition w_stvec x m : mach := csr_write stvec x m.
Definition r_stvec m : Z := csr_read stvec m.
Definition r_stimecmp m : Z := csr_read stimecmp m.
Definition w_stimecmp x m : mach := csr_write stimecmp x m.
Definition r_menvcfg m : Z := csr_read menvcfg m.
Definition w_menvcfg x m : mach := csr_write menvcfg x m.
Definition w_pmpcfg0 x m : mach := csr_write pmpcfg0 x m.
Definition w_pmpaddr0 x m : mach := csr_write pmpaddr0 x m.
Definition w_satp x m : mach := csr_write satp x m.
Definition r_satp m : Z := csr_read satp m.
Definition r_scause m : Z := csr_read scause m.
Definition r_stval m : Z := csr_read stval m.
Definition w_mcounteren x m : mach := csr_write mcounteren x m.
Definition r_mcounteren m : Z := csr_read mcounteren m.
Definition r_time m : Z := csr_read time m.

Definition intr_on m : mach := w_sstatus (Z.lor (r_sstatus m) SSTATUS_SIE) m.
Definition intr_off m : mach := w_sstatus (Z.land (r_sstatus m) (Z.lnot SSTATUS_SIE)) m.
Definition intr_get m : bool := negb (Z.land (r_sstatus m) SSTATUS_SIE =? 0).

Definition r_sp m : Z := regs m sp.
Definition r_tp m : Z := regs m tp.
Definition w_tp x m : mach := set_reg tp x m.
Definition r_ra m : Z := regs m ra.
(** Stale translations are not part of the machine. *)
Definition sfence_vma m : mach := m.

(** [kvminithart] of vm.c, with [kernel_pagetable], and [cpuid] of proc.c. *)
Definition kvminithart (kernel_pagetable : Z) m : mach :=
  let m := sfence_vma m in
  let m := w_satp (MAKE_SATP kernel_pagetable) m in
  sfence_vma m.
Definition cpuid m : Z := i32 (r_tp m).

(** ** start.c *)

Definition timerinit m : mach :=
  let m := w_mie (Z.lor (r_mie m) MIE_STIE) m in
  let m := w_menvcfg (Z.lor (r_menvcfg m) (Z.shiftl 1 63)) m in
  let m := w_mcounteren (Z.lor (r_mcounteren m) 2) m in
  w_stimecmp (u64 (r_time m + 1000000)) m.

(** [main] is the address of the function; the last instruction is [mret]. *)
Definition start (main : Z) m : option flow :=
  let x := r_mstatus m in
  let x := Z.land x (Z.lnot MSTATUS_MPP_MASK) in
  let x := Z.lor x MSTATUS_MPP_S in
  let m := w_mstatus x m in
  let m := w_mepc main m in
  let m := w_satp 0 m in
  let m := w_medeleg 0xffff m in
  let m := w_mideleg 0xffff m in
  let m := w_sie (Z.lor (Z.lor (Z.lor (r_sie m) SIE_SEIE) SIE_STIE) SIE_SSIE) m in
  let m := w_pmpaddr0 0x3fffffffffffff m in
  let m := w_pmpcfg0 0xf m in
  let m := timerinit m in
  let id := i32 (r_mhartid m) in
  let m := w_tp (u64 id) m in
  step Mret m.

(** From the first instruction of entry.S on. *)
Definition power_on (stack0 main : Z) m : option flow :=
  f ← run (entry stack0) m; start main (landed f).
End riscv.

(** ** plic.c *)

Definition PLIC_SENABLE (hart : Z) : Z := PLIC + 0x2080 + hart * 0x100.
Definition PLIC_SPRIORITY (hart : Z) : Z := PLIC + 0x201000 + hart * 0x2000.
Definition PLIC_SCLAIM (hart : Z) : Z := PLIC + 0x201004 + hart * 0x2000.

(** The 32-bit registers of the controller, by address. *)
Abbreviation plic := (Z -> Z).
Definition plicinit (r : plic) : plic :=
  <[PLIC + VIRTIO0_IRQ * 4 := 1]> (<[PLIC + UART0_IRQ * 4 := 1]> r).
Definition plicinithart (hart : Z) (r : plic) : plic :=
  <[PLIC_SPRIORITY hart := 0]> (<[PLIC_SENABLE hart := Z.lor (Z.shiftl 1 UART0_IRQ) (Z.shiftl 1 VIRTIO0_IRQ)]> r).

(** The controller's rule, for the sources below 32: a request goes to a hart
    that has it enabled if its priority is above the hart's threshold. *)
Definition plic_delivers (r : plic) (hart irq : Z) : bool :=
  Z.testbit (r (PLIC_SENABLE hart)) irq && (r (PLIC_SPRIORITY hart) <? r (PLIC + irq * 4)).

(** ** The state in which a hart enters [main] *)

(** The rule of physical memory protection for its first entry in the
    top-of-range mode: below the bound, the accesses the entry allows. *)
Definition pmp_allows (m : mach) (pa : Z) : bool :=
  (Z.land (Z.shiftr (csrs m pmpcfg0) 3) 3 =? 1) && (Z.land (csrs m pmpcfg0) 7 =? 7) && (pa <? Z.shiftl (csrs m pmpaddr0) 2).

(** What [start] relies on of the hart: the registers and bits it writes exist
    (supervisor mode, the three supervisor interrupts, the timer of the Sstc
    extension, one entry of memory protection). *)
Class BootOk (H : Hart) : Prop := {
  legal_mpp : forall v, mpp v = PrvS -> mpp (legal mstatus v) = PrvS;
  legal_sie : forall v, Z.testbit (legal mstatus v) BIT_SIE = Z.testbit v BIT_SIE;
  legal_mepc : forall v, word v -> v mod 4 = 0 -> legal mepc v = v;
  legal_bare : legal satp 0 = 0;
  legal_mideleg : forall v b, b = 1 \/ b = 5 \/ b = 9 -> Z.testbit (legal mideleg v) b = Z.testbit v b;
  legal_mie : forall v b, b = 1 \/ b = 5 \/ b = 9 -> Z.testbit (legal mie v) b = Z.testbit v b;
  legal_menvcfg : forall v, Z.testbit (legal menvcfg v) 63 = Z.testbit v 63;
  legal_mcounteren : forall v, Z.testbit (legal mcounteren v) 1 = Z.testbit v 1;
  legal_stimecmp : forall v, word v -> legal stimecmp v = v;
  legal_pmpaddr : forall v, 0 <= v < 2 ^ 54 -> legal pmpaddr0 v = v;
  legal_pmpcfg : legal pmpcfg0 0xf = 0xf
}.

Lemma mpp_supervisor v : Z.testbit v 11 = true -> Z.testbit v 12 = false -> mpp v = PrvS.
Proof.
  intros H1 H2. unfold mpp. assert (Z.land (Z.shiftr v 11) 3 = 1) as ->; [|done].
  apply Z.bits_inj'. intros l Hl. rewrite Z.land_spec, Z.shiftr_spec by done.
  destruct (decide (l = 0)) as [->|]; [change (0 + 11) with 11; by rewrite H1|]. destruct (decide (l = 1)) as [->|]; [change (1 + 11) with 12; by rewrite H2|].
  rewrite (Z.bits_above_log2 3 l), (Z.bits_above_log2 1 l) by (cbn; lia). by rewrite andb_false_r.
Qed.
Lemma mret_keeps_sie v : Z.testbit (mret_status v) BIT_SIE = Z.testbit v BIT_SIE.
Proof.
  assert (forall x, Z.testbit (Z.land (Z.setbit (put_bit BIT_MIE x v) BIT_MPIE) (Z.lnot (Z.shiftl 3 11))) BIT_SIE = Z.testbit v BIT_SIE) as E.
  { intros x. rewrite Z.land_spec, Z.setbit_neq by (unfold BIT_MPIE, BIT_SIE; lia). cbn [Z.lnot]. rewrite andb_true_r.
    unfold put_bit. destruct x; [rewrite Z.setbit_neq by (unfold BIT_MIE, BIT_SIE; lia)|rewrite Z.clearbit_neq by (unfold BIT_MIE, BIT_SIE; lia)]; done. }
  unfold mret_status. destruct (mpp v); [rewrite Z.clearbit_neq by (unfold BIT_MPRV, BIT_SIE; lia); apply E..|apply E].
Qed.
Lemma intr_get_bit `{Hart} m : intr_get m = Z.testbit (csrs m mstatus) BIT_SIE.
Proof.
  unfold intr_get, r_sstatus. cbn [csr_read]. rewrite <- Z.land_assoc. change (Z.land SSTATUS_MASK SSTATUS_SIE) with (2 ^ 1).
  unfold BIT_SIE. destruct (Z.testbit (csrs m mstatus) 1) eqn:E.
  - apply negb_true_iff, Z.eqb_neq. intros E0. apply (f_equal (fun x => Z.testbit x 1)) in E0. by rewrite Z.land_spec, E in E0.
  - apply negb_false_iff, Z.eqb_eq. apply Z.bits_inj'. intros l Hl. rewrite Z.land_spec, Z.bits_0.
    destruct (decide (l = 1)) as [->|]; [by rewrite E|]. by rewrite Z.pow2_bits_false, andb_false_r by lia.
Qed.
Lemma blend_bit mask old v b : 0 <= b -> Z.testbit mask b = true -> Z.testbit (blend mask old v) b = Z.testbit v b.
Proof. intros Hb Hm. unfold blend. by rewrite Z.lor_spec, !Z.land_spec, Z.lnot_spec, Hm, andb_false_r, andb_true_r by done. Qed.

Section boot.
Context {H : Hart} {HB : BootOk H}.

(** The values [start] leaves in the registers. *)
Definition boot_mstatus m : Z := legal mstatus (Z.lor (Z.land (csrs m mstatus) (Z.lnot MSTATUS_MPP_MASK)) MSTATUS_MPP_S).
Definition boot_mideleg : Z := legal mideleg 0xffff.
Definition boot_mie m : Z :=
  legal mie (Z.lor (legal mie (blend boot_mideleg (csrs m mie)
    (Z.lor (Z.lor (Z.lor (Z.land (csrs m mie) boot_mideleg) SIE_SEIE) SIE_STIE) SIE_SSIE))) MIE_STIE).

Lemma start_run main m : exists m', start main m = Some (Goto (legal mepc main) m') /\
  mode m' = mpp (boot_mstatus m) /\ csrs m' mstatus = mret_status (boot_mstatus m) /\
  csrs m' mideleg = boot_mideleg /\ csrs m' mie = boot_mie m /\ csrs m' satp = legal satp 0 /\
  csrs m' pmpaddr0 = legal pmpaddr0 0x3fffffffffffff /\ csrs m' pmpcfg0 = legal pmpcfg0 0xf /\
  csrs m' menvcfg = legal menvcfg (Z.lor (csrs m menvcfg) (Z.shiftl 1 63)) /\
  csrs m' mcounteren = legal mcounteren (Z.lor (csrs m mcounteren) 2) /\
  csrs m' stimecmp = legal stimecmp (u64 (csrs m time + 1000000)) /\
  regs m' tp = u64 (i32 (csrs m mhartid)) /\ regs m' sp = regs m sp.
Proof. eexists. split; [reflexivity|]. split_and!; reflexivity. Qed.

Lemma boot_mode m : mpp (boot_mstatus m) = PrvS.
Proof.
  apply legal_mpp, mpp_supervisor; rewrite Z.lor_spec, Z.land_spec.
  - apply orb_true_r.
  - change (Z.testbit (Z.lnot MSTATUS_MPP_MASK) 12) with false. by rewrite andb_false_r.
Qed.
Lemma boot_sie m : Z.testbit (mret_status (boot_mstatus m)) BIT_SIE = Z.testbit (csrs m mstatus) BIT_SIE.
Proof.
  unfold boot_mstatus. rewrite mret_keeps_sie, legal_sie, Z.lor_spec, Z.land_spec.
  change (Z.testbit (Z.lnot MSTATUS_MPP_MASK) BIT_SIE) with true. change (Z.testbit MSTATUS_MPP_S BIT_SIE) with false.
  by rewrite andb_true_r, orb_false_r.
Qed.
Lemma boot_interrupts m b : b = 1 \/ b = 5 \/ b = 9 -> Z.testbit (Z.land (boot_mie m) boot_mideleg) b = true.
Proof.
  intros Hb. assert (Z.testbit boot_mideleg b = true) as Hd by (unfold boot_mideleg; rewrite legal_mideleg by done; destruct_or!; by subst).
  unfold boot_mie. rewrite Z.land_spec, Hd, andb_true_r, legal_mie, Z.lor_spec, legal_mie, blend_bit, !Z.lor_spec by (done || destruct_or!; subst; done).
  destruct_or!; subst b.
  - change (Z.testbit SIE_SSIE 1) with true. by rewrite !orb_true_r.
  - change (Z.testbit MIE_STIE 5) with true. by rewrite !orb_true_r.
  - change (Z.testbit SIE_SEIE 9) with true. by rewrite !orb_true_r.
Qed.

Lemma entry_run stack0 m : 0 <= csrs m mhartid < NCPU -> 0 <= stack0 -> stack0 + 4096 * NCPU < 2 ^ 64 ->
  exists m', run (entry stack0) m = Some (Next m') /\ csrs m' = csrs m /\ regs m' sp = stack0 + 4096 * (csrs m mhartid + 1).
Proof.
  intros Hh H0 H1. unfold NCPU in *. eexists. split; [reflexivity|]. split; [reflexivity|].
  change (u64 (u64 stack0 + u64 (u64 (1024 * 4) * u64 (csrs m mhartid + 1))) = stack0 + 4096 * (csrs m mhartid + 1)).
  unfold u64. rewrite !(Z.mod_small (_ + 1)), (Z.mod_small (1024 * 4)), (Z.mod_small stack0), !Z.mod_small; lia.
Qed.
End boot.


Ltac plic_addr := unfold PLIC_SENABLE, PLIC_SPRIORITY, PLIC, NCPU in *; lia.

Lemma plicinithart_other h r a : a <> PLIC_SENABLE h -> a <> PLIC_SPRIORITY h -> plicinithart h r a = r a.
Proof. intros H1 H2. unfold plicinithart. by rewrite !fn_lookup_insert_ne. Qed.
Lemma plic_harts_priority r hs irq : Forall (fun h => 0 <= h < NCPU) hs -> 0 <= irq < 32 ->
  foldr plicinithart r hs (PLIC + irq * 4) = r (PLIC + irq * 4).
Proof.
  intros Hhs Hirq. induction Hhs as [|h hs Hh Hhs IH]; [done|]. cbn [foldr].
  by rewrite plicinithart_other by plic_addr.
Qed.
Lemma plic_harts_own r hs h : Forall (fun h => 0 <= h < NCPU) hs -> h ∈ hs ->
  foldr plicinithart r hs (PLIC_SENABLE h) = 0x402 /\ foldr plicinithart r hs (PLIC_SPRIORITY h) = 0.
Proof.
  intros Hhs Hh. assert (0 <= h < NCPU) as Hr by by apply (proj1 (Forall_forall _ _) Hhs).
  induction Hhs as [|h' hs Hh' Hhs IH]; [by apply not_elem_of_nil in Hh|]. cbn [foldr].
  destruct (decide (h = h')) as [->|Hne].
  - unfold plicinithart. rewrite fn_lookup_insert_ne by plic_addr. by rewrite !fn_lookup_insert.
  - rewrite !plicinithart_other by plic_addr. apply IH. by apply elem_of_cons in Hh as [|].
Qed.
Lemma plic_enabled irq : 0 <= irq < 32 -> Z.testbit 0x402 irq = (irq =? UART0_IRQ) || (irq =? VIRTIO0_IRQ).
Proof.
  intros Hirq. assert (Forall (fun irq => Z.testbit 0x402 irq = (irq =? UART0_IRQ) || (irq =? VIRTIO0_IRQ)) (seqZ 0 32)) as Hall by by_decision.
  apply (proj1 (Forall_forall _ _) Hall). apply elem_of_seqZ. lia.
Qed.

(** Once hart 0 has set up the controller and the harts [hs] themselves, in
    any order, each of them is delivered the interrupts of the UART and of the
    disk, and of no other source. *)
Theorem plic_delivers_devices (r : plic) (hs : list Z) (h irq : Z) :
  Forall (fun h => 0 <= h < NCPU) hs -> h ∈ hs -> 0 <= irq < 32 ->
  plic_delivers (foldr plicinithart (plicinit r) hs) h irq = (irq =? UART0_IRQ) || (irq =? VIRTIO0_IRQ).
Proof.
  intros Hhs Hh Hirq. unfold plic_delivers. destruct (plic_harts_own (plicinit r) hs h) as [-> ->]; [done..|].
  rewrite plic_harts_priority, plic_enabled by done.
  destruct (Z.eqb_spec irq UART0_IRQ) as [->|H1]; [done|]. by destruct (Z.eqb_spec irq VIRTIO0_IRQ) as [->|H2].
Qed.

(** ** An example hart: every register keeps what is written to it *)

#[export] Instance sample_boot_ok : BootOk sample_hart.
Proof. split; done. Qed.
Definition sample_reset : mach := mk_mach (fun _ => 0) (fun c => match c with mhartid => 2 | _ => 0 end) PrvM (fun _ => 0).

Lemma plic_delivers_devices_witness : plic_delivers (foldr plicinithart (plicinit (fun _ => 0)) [2; 0; 1]) 2 10 = true.
Proof.
  apply (plic_delivers_devices (fun _ => 0) [2; 0; 1] 2 10).
  - repeat constructor; unfold NCPU; lia.
  - by_decision.
  - lia.
Defined.
