(* ===== verification/FsState.v ===== *)
(** * The state of the devices and the file system

    The objects of kernel/sleeplock.h, buf.h, virtio_disk.c, log.c, fs.h,
    file.h, file.c, console.c and uart.c, gathered in one record that is the
    file-layer part of the kernel state of Proc.v. *)

From S2P Require Import Prelude Spinlock Riscv Kalloc Vm Queue PriorityQueue KString Proc.

(** ** Constants (kernel/param.h, fs.h, virtio.h, stat.h, fcntl.h) *)

Definition NFILE : nat := 100.
Definition NINODE : nat := 50.
Definition NDEV : Z := 10.
Definition ROOTDEV : Z := 1.
Definition MAXOPBLOCKS : Z := 10.
Definition LOGSIZE : Z := MAXOPBLOCKS * 3.
Definition NBUF : nat := 30.
Definition MAXPATH : Z := 128.
Definition ROOTINO : Z := 1.
Definition BSIZE : Z := 1024.
Definition FSMAGIC : Z := 270544960.
Definition NDIRECT : Z := 12.
Definition NINDIRECT : Z := BSIZE / 4.
Definition MAXFILE : Z := NDIRECT + NINDIRECT.
Definition IPB : Z := BSIZE / 64.
Definition BPB : Z := BSIZE * 8.
Definition DIRSIZ : nat := 14.
Definition NUM : nat := 8.
Definition T_DIR : Z := 1.
Definition T_FILE : Z := 2.
Definition T_DEVICE : Z := 3.
Definition O_RDONLY : Z := 0.
Definition O_WRONLY : Z := 1.
Definition O_RDWR : Z := 2.
Definition O_CREATE : Z := 512.
Definition O_TRUNC : Z := 1024.
Definition CONSOLE : Z := 1.

(** ** Little-endian integers in a block *)

Definition get16 (d : list Z) (off : nat) : Z := default 0 (d !! off) + 256 * default 0 (d !! S off).
Definition get32 (d : list Z) (off : nat) : Z := get16 d off + 65536 * get16 d (off + 2).
Definition get64 (d : list Z) (off : nat) : Z := get32 d off + 2 ^ 32 * get32 d (off + 4).
Definition put16 (d : list Z) (off : nat) (v : Z) : list Z :=
  <[S off := u8 (v / 256)]> (<[off := u8 v]> d).
Definition put32 (d : list Z) (off : nat) (v : Z) : list Z :=
  put16 (put16 d off v) (off + 2) (v / 65536).

(** A [short] as C reads it. *)
Definition i16 (x : Z) : Z := (x + 2 ^ 15) mod 2 ^ 16 - 2 ^ 15.

(** ** Sleep-locks, buffers and the disk driver *)

Record sleeplock : Type := mk_sleeplock { sl_locked : Z; sl_pid : Z }.

(** A link of the list of buffers: the list head or a buffer. *)
Inductive blink : Type := BHead | BBuf (i : nat).
#[export] Instance blink_eq_dec : EqDecision blink.
Proof. solve_decision. Defined.

Record buf : Type := mk_buf {
  b_valid : Z; b_disk : Z; b_dev : Z; b_blockno : Z; b_refcnt : Z;
  b_prev : blink; b_next : blink; b_data : list Z
}.

(** The addresses the driver puts into descriptors: a command header, the
    data of a buffer, a status byte. *)
Inductive dma_addr : Type := DmaNull | DmaOps (i : nat) | DmaData (b : nat) | DmaStatus (i : nat).
Record virtq_desc : Type := mk_desc { d_addr : dma_addr; d_len : Z; d_flags : Z; d_next : Z }.
Record virtio_blk_req : Type := mk_req { rq_type : Z; rq_reserved : Z; rq_sector : Z }.
Record disk_info : Type := mk_dinfo { in_b : option nat; in_status : Z }.

(** [struct disk], with the rings it points to, and the medium. *)
Record disk : Type := mk_disk {
  v_desc : list virtq_desc;
  v_avail_idx : Z;
  v_avail_ring : list Z;
  v_used_ring_idx : Z;        (* disk.used->idx, written by the device *)
  v_used_ring : list Z;       (* disk.used->ring[].id *)
  v_free : list Z;
  v_used_idx : Z;
  v_info : list disk_info;
  v_ops : list virtio_blk_req;
  v_regs : list (Z * Z);      (* the writes to the device's registers, latest first *)
  medium : gmap Z (list Z)    (* the blocks on the device *)
}.

(** ** The log, inodes and files *)

Record log : Type := mk_log {
  l_start : Z; l_size : Z; l_outstanding : Z; l_committing : Z; l_dev : Z;
  lh_n : Z; lh_block : list Z
}.

Record superblock : Type := mk_sb {
  sb_magic : Z; sb_size : Z; sb_nblocks : Z; sb_ninodes : Z; sb_nlog : Z;
  sb_logstart : Z; sb_inodestart : Z; sb_bmapstart : Z
}.

Record inode : Type := mk_inode {
  i_dev : Z; i_inum : Z; i_ref : Z; i_valid : Z;
  i_type : Z; i_major : Z; i_minor : Z; i_nlink : Z; i_size : Z; i_addrs : list Z
}.

Inductive fd_type : Type := FD_NONE | FD_PIPE | FD_INODE | FD_DEVICE.
#[export] Instance fd_type_eq_dec : EqDecision fd_type.
Proof. solve_decision. Defined.

Record file : Type := mk_file {
  f_type : fd_type; f_ref : Z; f_readable : Z; f_writable : Z;
  f_pipe : Z; f_ip : option nat; f_off : Z; f_major : Z
}.

(** A driver registered in [devsw]. *)
Inductive driver : Type := DrvConsole.

(** ** Console and UART *)

Record cons_t : Type := mk_cons { c_buf : list Z; c_r : Z; c_w : Z; c_e : Z }.

(** The transmit buffer; and the device: bytes waiting to be read, bytes sent,
    and what the next reads of the line status register say about the
    transmitter (idle when the list is used up). *)
Record uart_t : Type := mk_uart {
  tx_buf : list Z; tx_w : Z; tx_r : Z;
  u_rx : list Z; u_sent : list Z; u_idle : list bool;
  u_regs : list (Z * Z)       (* the writes to the control registers, latest first *)
}.

(** ** The hart's control registers and the interrupt controller *)

(** The interrupt-enable bit of [sstatus] is [intr] of the kernel state; the
    interrupt controller shows the requests waiting to be claimed and records
    those completed. *)
Record hart_regs : Type := mk_hregs {
  r_sstatus : Z; r_scause : Z; r_sepc : Z; r_stval : Z; r_stvec : Z; r_satp : Z; r_tp : Z;
  r_time : Z; r_stimecmp : Z; plic_pending : list Z; plic_done : list Z
}.

(** ** All of it *)

Record fsys : Type := mk_fsys {
  slocks : list sleeplock;
  bufs : list buf;
  bhead_prev : blink;
  bhead_next : blink;
  dk : disk;
  lg : log;
  sb : superblock;
  itable : list inode;
  ftable : list file;
  devsw : list (option driver);
  console : cons_t;
  uart : uart_t;
  hw : hart_regs;
  first : Z                   (* the static variable of [forkret] *)
}.

(** The sleep-lock of a buffer and of an in-memory inode. *)
Definition buf_lock (b : nat) : nat := b.
Definition inode_lock (i : nat) : nat := (NBUF + i)%nat.

(** ** Field updates *)

Definition set_slocks v s := mk_fsys v (bufs s) (bhead_prev s) (bhead_next s) (dk s) (lg s) (sb s) (itable s) (ftable s) (devsw s) (console s) (uart s) (hw s) (first s).
Definition set_bufs v s := mk_fsys (slocks s) v (bhead_prev s) (bhead_next s) (dk s) (lg s) (sb s) (itable s) (ftable s) (devsw s) (console s) (uart s) (hw s) (first s).
Definition set_bhead_prev v s := mk_fsys (slocks s) (bufs s) v (bhead_next s) (dk s) (lg s) (sb s) (itable s) (ftable s) (devsw s) (console s) (uart s) (hw s) (first s).
Definition set_bhead_next v s := mk_fsys (slocks s) (bufs s) (bhead_prev s) v (dk s) (lg s) (sb s) (itable s) (ftable s) (devsw s) (console s) (uart s) (hw s) (first s).
Definition set_dk v s := mk_fsys (slocks s) (bufs s) (bhead_prev s) (bhead_next s) v (lg s) (sb s) (itable s) (ftable s) (devsw s) (console s) (uart s) (hw s) (first s).
Definition set_lg v s := mk_fsys (slocks s) (bufs s) (bhead_prev s) (bhead_next s) (dk s) v (sb s) (itable s) (ftable s) (devsw s) (console s) (uart s) (hw s) (first s).
Definition set_sb v s := mk_fsys (slocks s) (bufs s) (bhead_prev s) (bhead_next s) (dk s) (lg s) v (itable s) (ftable s) (devsw s) (console s) (uart s) (hw s) (first s).
Definition set_itable v s := mk_fsys (slocks s) (bufs s) (bhead_prev s) (bhead_next s) (dk s) (lg s) (sb s) v (ftable s) (devsw s) (console s) (uart s) (hw s) (first s).
Definition set_ftable v s := mk_fsys (slocks s) (bufs s) (bhead_prev s) (bhead_next s) (dk s) (lg s) (sb s) (itable s) v (devsw s) (console s) (uart s) (hw s) (first s).
Definition set_devsw v s := mk_fsys (slocks s) (bufs s) (bhead_prev s) (bhead_next s) (dk s) (lg s) (sb s) (itable s) (ftable s) v (console s) (uart s) (hw s) (first s).
Definition set_console v s := mk_fsys (slocks s) (bufs s) (bhead_prev s) (bhead_next s) (dk s) (lg s) (sb s) (itable s) (ftable s) (devsw s) v (uart s) (hw s) (first s).
Definition set_uart v s := mk_fsys (slocks s) (bufs s) (bhead_prev s) (bhead_next s) (dk s) (lg s) (sb s) (itable s) (ftable s) (devsw s) (console s) v (hw s) (first s).
Definition set_hw v s := mk_fsys (slocks s) (bufs s) (bhead_prev s) (bhead_next s) (dk s) (lg s) (sb s) (itable s) (ftable s) (devsw s) (console s) (uart s) v (first s).
Definition set_first v s := mk_fsys (slocks s) (bufs s) (bhead_prev s) (bhead_next s) (dk s) (lg s) (sb s) (itable s) (ftable s) (devsw s) (console s) (uart s) (hw s) v.

Definition set_r_sstatus v x := mk_hregs v (r_scause x) (r_sepc x) (r_stval x) (r_stvec x) (r_satp x) (r_tp x) (r_time x) (r_stimecmp x) (plic_pending x) (plic_done x).
Definition set_r_scause v x := mk_hregs (r_sstatus x) v (r_sepc x) (r_stval x) (r_stvec x) (r_satp x) (r_tp x) (r_time x) (r_stimecmp x) (plic_pending x) (plic_done x).
Definition set_r_sepc v x := mk_hregs (r_sstatus x) (r_scause x) v (r_stval x) (r_stvec x) (r_satp x) (r_tp x) (r_time x) (r_stimecmp x) (plic_pending x) (plic_done x).
Definition set_r_stval v x := mk_hregs (r_sstatus x) (r_scause x) (r_sepc x) v (r_stvec x) (r_satp x) (r_tp x) (r_time x) (r_stimecmp x) (plic_pending x) (plic_done x).
Definition set_r_stvec v x := mk_hregs (r_sstatus x) (r_scause x) (r_sepc x) (r_stval x) v (r_satp x) (r_tp x) (r_time x) (r_stimecmp x) (plic_pending x) (plic_done x).
Definition set_r_satp v x := mk_hregs (r_sstatus x) (r_scause x) (r_sepc x) (r_stval x) (r_stvec x) v (r_tp x) (r_time x) (r_stimecmp x) (plic_pending x) (plic_done x).
Definition set_r_tp v x := mk_hregs (r_sstatus x) (r_scause x) (r_sepc x) (r_stval x) (r_stvec x) (r_satp x) v (r_time x) (r_stimecmp x) (plic_pending x) (plic_done x).
Definition set_r_time v x := mk_hregs (r_sstatus x) (r_scause x) (r_sepc x) (r_stval x) (r_stvec x) (r_satp x) (r_tp x) v (r_stimecmp x) (plic_pending x) (plic_done x).
Definition set_r_stimecmp v x := mk_hregs (r_sstatus x) (r_scause x) (r_sepc x) (r_stval x) (r_stvec x) (r_satp x) (r_tp x) (r_time x) v (plic_pending x) (plic_done x).
Definition set_plic_pending v x := mk_hregs (r_sstatus x) (r_scause x) (r_sepc x) (r_stval x) (r_stvec x) (r_satp x) (r_tp x) (r_time x) (r_stimecmp x) v (plic_done x).
Definition set_plic_done v x := mk_hregs (r_sstatus x) (r_scause x) (r_sepc x) (r_stval x) (r_stvec x) (r_satp x) (r_tp x) (r_time x) (r_stimecmp x) (plic_pending x) v.
Definition set_b_valid v x := mk_buf v (b_disk x) (b_dev x) (b_blockno x) (b_refcnt x) (b_prev x) (b_next x) (b_data x).
Definition set_b_disk v x := mk_buf (b_valid x) v (b_dev x) (b_blockno x) (b_refcnt x) (b_prev x) (b_next x) (b_data x).
Definition set_b_dev v x := mk_buf (b_valid x) (b_disk x) v (b_blockno x) (b_refcnt x) (b_prev x) (b_next x) (b_data x).
Definition set_b_blockno v x := mk_buf (b_valid x) (b_disk x) (b_dev x) v (b_refcnt x) (b_prev x) (b_next x) (b_data x).
Definition set_b_refcnt v x := mk_buf (b_valid x) (b_disk x) (b_dev x) (b_blockno x) v (b_prev x) (b_next x) (b_data x).
Definition set_b_prev v x := mk_buf (b_valid x) (b_disk x) (b_dev x) (b_blockno x) (b_refcnt x) v (b_next x) (b_data x).
Definition set_b_next v x := mk_buf (b_valid x) (b_disk x) (b_dev x) (b_blockno x) (b_refcnt x) (b_prev x) v (b_data x).
Definition set_b_data v x := mk_buf (b_valid x) (b_disk x) (b_dev x) (b_blockno x) (b_refcnt x) (b_prev x) (b_next x) v.
Definition set_v_desc v x := mk_disk v (v_avail_idx x) (v_avail_ring x) (v_used_ring_idx x) (v_used_ring x) (v_free x) (v_used_idx x) (v_info x) (v_ops x) (v_regs x) (medium x).
Definition set_v_avail_idx v x := mk_disk (v_desc x) v (v_avail_ring x) (v_used_ring_idx x) (v_used_ring x) (v_free x) (v_used_idx x) (v_info x) (v_ops x) (v_regs x) (medium x).
Definition set_v_avail_ring v x := mk_disk (v_desc x) (v_avail_idx x) v (v_used_ring_idx x) (v_used_ring x) (v_free x) (v_used_idx x) (v_info x) (v_ops x) (v_regs x) (medium x).
Definition set_v_used_ring_idx v x := mk_disk (v_desc x) (v_avail_idx x) (v_avail_ring x) v (v_used_ring x) (v_free x) (v_used_idx x) (v_info x) (v_ops x) (v_regs x) (medium x).
Definition set_v_used_ring v x := mk_disk (v_desc x) (v_avail_idx x) (v_avail_ring x) (v_used_ring_idx x) v (v_free x) (v_used_idx x) (v_info x) (v_ops x) (v_regs x) (medium x).
Definition set_v_free v x := mk_disk (v_desc x) (v_avail_idx x) (v_avail_ring x) (v_used_ring_idx x) (v_used_ring x) v (v_used_idx x) (v_info x) (v_ops x) (v_regs x) (medium x).
Definition set_v_used_idx v x := mk_disk (v_desc x) (v_avail_idx x) (v_avail_ring x) (v_used_ring_idx x) (v_used_ring x) (v_free x) v (v_info x) (v_ops x) (v_regs x) (medium x).
Definition set_v_info v x := mk_disk (v_desc x) (v_avail_idx x) (v_avail_ring x) (v_used_ring_idx x) (v_used_ring x) (v_free x) (v_used_idx x) v (v_ops x) (v_regs x) (medium x).
Definition set_v_ops v x := mk_disk (v_desc x) (v_avail_idx x) (v_avail_ring x) (v_used_ring_idx x) (v_used_ring x) (v_free x) (v_used_idx x) (v_info x) v (v_regs x) (medium x).
Definition set_v_regs v x := mk_disk (v_desc x) (v_avail_idx x) (v_avail_ring x) (v_used_ring_idx x) (v_used_ring x) (v_free x) (v_used_idx x) (v_info x) (v_ops x) v (medium x).
Definition set_medium v x := mk_disk (v_desc x) (v_avail_idx x) (v_avail_ring x) (v_used_ring_idx x) (v_used_ring x) (v_free x) (v_used_idx x) (v_info x) (v_ops x) (v_regs x) v.
Definition set_l_start v x := mk_log v (l_size x) (l_outstanding x) (l_committing x) (l_dev x) (lh_n x) (lh_block x).
Definition set_l_size v x := mk_log (l_start x) v (l_outstanding x) (l_committing x) (l_dev x) (lh_n x) (lh_block x).
Definition set_l_outstanding v x := mk_log (l_start x) (l_size x) v (l_committing x) (l_dev x) (lh_n x) (lh_block x).
Definition set_l_committing v x := mk_log (l_start x) (l_size x) (l_outstanding x) v (l_dev x) (lh_n x) (lh_block x).
Definition set_l_dev v x := mk_log (l_start x) (l_size x) (l_outstanding x) (l_committing x) v (lh_n x) (lh_block x).
Definition set_lh_n v x := mk_log (l_start x) (l_size x) (l_outstanding x) (l_committing x) (l_dev x) v (lh_block x).
Definition set_lh_block v x := mk_log (l_start x) (l_size x) (l_outstanding x) (l_committing x) (l_dev x) (lh_n x) v.
Definition set_i_dev v x := mk_inode v (i_inum x) (i_ref x) (i_valid x) (i_type x) (i_major x) (i_minor x) (i_nlink x) (i_size x) (i_addrs x).
Definition set_i_inum v x := mk_inode (i_dev x) v (i_ref x) (i_valid x) (i_type x) (i_major x) (i_minor x) (i_nlink x) (i_size x) (i_addrs x).
Definition set_i_ref v x := mk_inode (i_dev x) (i_inum x) v (i_valid x) (i_type x) (i_major x) (i_minor x) (i_nlink x) (i_size x) (i_addrs x).
Definition set_i_valid v x := mk_inode (i_dev x) (i_inum x) (i_ref x) v (i_type x) (i_major x) (i_minor x) (i_nlink x) (i_size x) (i_addrs x).
Definition set_i_type v x := mk_inode (i_dev x) (i_inum x) (i_ref x) (i_valid x) v (i_major x) (i_minor x) (i_nlink x) (i_size x) (i_addrs x).
Definition set_i_major v x := mk_inode (i_dev x) (i_inum x) (i_ref x) (i_valid x) (i_type x) v (i_minor x) (i_nlink x) (i_size x) (i_addrs x).
Definition set_i_minor v x := mk_inode (i_dev x) (i_inum x) (i_ref x) (i_valid x) (i_type x) (i_major x) v (i_nlink x) (i_size x) (i_addrs x).
Definition set_i_nlink v x := mk_inode (i_dev x) (i_inum x) (i_ref x) (i_valid x) (i_type x) (i_major x) (i_minor x) v (i_size x) (i_addrs x).
Definition set_i_size v x := mk_inode (i_dev x) (i_inum x) (i_ref x) (i_valid x) (i_type x) (i_major x) (i_minor x) (i_nlink x) v (i_addrs x).
Definition set_i_addrs v x := mk_inode (i_dev x) (i_inum x) (i_ref x) (i_valid x) (i_type x) (i_major x) (i_minor x) (i_nlink x) (i_size x) v.
Definition set_f_type v x := mk_file v (f_ref x) (f_readable x) (f_writable x) (f_pipe x) (f_ip x) (f_off x) (f_major x).
Definition set_f_ref v x := mk_file (f_type x) v (f_readable x) (f_writable x) (f_pipe x) (f_ip x) (f_off x) (f_major x).
Definition set_f_readable v x := mk_file (f_type x) (f_ref x) v (f_writable x) (f_pipe x) (f_ip x) (f_off x) (f_major x).
Definition set_f_writable v x := mk_file (f_type x) (f_ref x) (f_readable x) v (f_pipe x) (f_ip x) (f_off x) (f_major x).
Definition set_f_pipe v x := mk_file (f_type x) (f_ref x) (f_readable x) (f_writable x) v (f_ip x) (f_off x) (f_major x).
Definition set_f_ip v x := mk_file (f_type x) (f_ref x) (f_readable x) (f_writable x) (f_pipe x) v (f_off x) (f_major x).
Definition set_f_off v x := mk_file (f_type x) (f_ref x) (f_readable x) (f_writable x) (f_pipe x) (f_ip x) v (f_major x).
Definition set_f_major v x := mk_file (f_type x) (f_ref x) (f_readable x) (f_writable x) (f_pipe x) (f_ip x) (f_off x) v.
Definition set_c_buf v x := mk_cons v (c_r x) (c_w x) (c_e x).
Definition set_c_r v x := mk_cons (c_buf x) v (c_w x) (c_e x).
Definition set_c_w v x := mk_cons (c_buf x) (c_r x) v (c_e x).
Definition set_c_e v x := mk_cons (c_buf x) (c_r x) (c_w x) v.
Definition set_tx_buf v x := mk_uart v (tx_w x) (tx_r x) (u_rx x) (u_sent x) (u_idle x) (u_regs x).
Definition set_tx_w v x := mk_uart (tx_buf x) v (tx_r x) (u_rx x) (u_sent x) (u_idle x) (u_regs x).
Definition set_tx_r v x := mk_uart (tx_buf x) (tx_w x) v (u_rx x) (u_sent x) (u_idle x) (u_regs x).
Definition set_u_rx v x := mk_uart (tx_buf x) (tx_w x) (tx_r x) v (u_sent x) (u_idle x) (u_regs x).
Definition set_u_sent v x := mk_uart (tx_buf x) (tx_w x) (tx_r x) (u_rx x) v (u_idle x) (u_regs x).
Definition set_u_idle v x := mk_uart (tx_buf x) (tx_w x) (tx_r x) (u_rx x) (u_sent x) v (u_regs x).
Definition set_u_regs v x := mk_uart (tx_buf x) (tx_w x) (tx_r x) (u_rx x) (u_sent x) (u_idle x) v.

(** ** Reading and updating the state from a kernel operation *)

#[global] Abbreviation K := (M (kst fsys)).

Definition fs_gets {A} (f : fsys -> A) : K A := gets (fun s => f (files s)).
Definition fs_modify (f : fsys -> fsys) : K unit := modify (fun s => set_files (f (files s)) s).
(** A field of the object a pointer refers to. *)
Definition fs_deref {A} (f : fsys -> option A) : K A := deref (fun s => f (files s)).

Definition get_buf (b : nat) : K buf := fs_deref (fun s => bufs s !! b).
Definition upd_buf (b : nat) (f : buf -> buf) : K unit := fs_modify (fun s => set_bufs (alter f b (bufs s)) s).
Definition get_inode (i : nat) : K inode := fs_deref (fun s => itable s !! i).
Definition upd_inode (i : nat) (f : inode -> inode) : K unit :=
  fs_modify (fun s => set_itable (alter f i (itable s)) s).
Definition get_file (f : nat) : K file := fs_deref (fun s => ftable s !! f).
Definition upd_file (f : nat) (g : file -> file) : K unit :=
  fs_modify (fun s => set_ftable (alter g f (ftable s)) s).
Definition upd_log (f : log -> log) : K unit := fs_modify (fun s => set_lg (f (lg s)) s).
Definition upd_disk (f : disk -> disk) : K unit := fs_modify (fun s => set_dk (f (dk s)) s).
Definition upd_cons (f : cons_t -> cons_t) : K unit := fs_modify (fun s => set_console (f (console s)) s).
Definition upd_uart (f : uart_t -> uart_t) : K unit := fs_modify (fun s => set_uart (f (uart s)) s).
Definition upd_hw (f : hart_regs -> hart_regs) : K unit := fs_modify (fun s => set_hw (f (hw s)) s).

(** Where a write copies from: a user address, or bytes of the kernel
    ([either_copyin] with [user_src] set or not). *)
Inductive wsrc : Type := SrcUser (va : Z) | SrcKernel (bs : list Z).
Definition src_skip (src : wsrc) (m : Z) : wsrc :=
  match src with SrcUser va => SrcUser (u64 (va + m)) | SrcKernel bs => SrcKernel (drop (Z.to_nat m) bs) end.
Definition src_read (src : wsrc) (m : Z) : K (Z * list Z) :=
  match src with SrcUser va => either_copyin va m | SrcKernel bs => ret (0, take (Z.to_nat m) bs) end.
