(* ===== verification/FsBytes.v ===== *)
(** * Integers and structures in the bytes of a block

    Reading back what [put16] and [put32] store, what they leave alone, and
    arrays of words; used for the log header, on-disk inodes and bitmaps. *)

From S2P Require Import Prelude Spinlock Riscv Kalloc Vm Queue PriorityQueue KString Proc FsState.

Ltac Zify.zify_post_hook ::= Z.to_euclidean_division_equations.

Implicit Types (d : list Z) (o j k n : nat) (v : Z).

Lemma put16_length d o v : length (put16 d o v) = length d.
Proof. unfold put16. by rewrite !length_insert. Qed.
Lemma put32_length d o v : length (put32 d o v) = length d.
Proof. unfold put32. by rewrite !put16_length. Qed.

(** Bytes outside the range keep their value. *)
Lemma put16_other d o v j : (j < o \/ o + 2 <= j)%nat -> put16 d o v !! j = d !! j.
Proof. intros. unfold put16. by rewrite !list_lookup_insert_ne by lia. Qed.
Lemma put32_other d o v j : (j < o \/ o + 4 <= j)%nat -> put32 d o v !! j = d !! j.
Proof. intros. unfold put32. by rewrite !put16_other by lia. Qed.

Lemma get16_ext d d' o : (forall j, o <= j < o + 2 -> d !! j = d' !! j)%nat -> get16 d o = get16 d' o.
Proof. intros H. unfold get16. by rewrite !H by lia. Qed.
Lemma get32_ext d d' o : (forall j, o <= j < o + 4 -> d !! j = d' !! j)%nat -> get32 d o = get32 d' o.
Proof. intros H. unfold get32. f_equal; [|f_equal]; apply get16_ext; intros; apply H; lia. Qed.

Lemma get16_put16 d o v : (o + 2 <= length d)%nat -> get16 (put16 d o v) o = u16 v.
Proof.
  intros. unfold get16, put16, u8, u16.
  rewrite list_lookup_insert_ne, list_lookup_insert_eq by lia.
  rewrite list_lookup_insert_eq by (rewrite length_insert; lia). cbn [default]. unfold id. lia.
Qed.

Lemma get32_put32 d o v : (o + 4 <= length d)%nat -> get32 (put32 d o v) o = u32 v.
Proof.
  intros. unfold get32, put32.
  rewrite (get16_ext (put16 (put16 d o v) (o + 2) (v / 65536)) (put16 d o v) o)
    by (intros; apply put16_other; lia).
  rewrite !get16_put16 by (rewrite ?put16_length; lia). unfold u16, u32. lia.
Qed.

Lemma get16_range d o : (forall j x, d !! j = Some x -> 0 <= x < 256) -> 0 <= get16 d o < 2 ^ 16.
Proof.
  intros H. unfold get16.
  assert (forall j, 0 <= default 0 (d !! j) < 256) as Hj.
  { intros j. destruct (d !! j) eqn:E; cbn; [by eapply H|lia]. }
  pose proof (Hj o). pose proof (Hj (S o)). lia.
Qed.

Lemma i16_u16 x : - 2 ^ 15 <= x < 2 ^ 15 -> i16 (u16 x) = x.
Proof. unfold i16, u16. lia. Qed.
Lemma u32_id x : 0 <= x < 2 ^ 32 -> u32 x = x.
Proof. intros. unfold u32. by rewrite Z.mod_small. Qed.
Lemma i32_u32 x : - 2 ^ 31 <= x < 2 ^ 31 -> i32 (u32 x) = x.
Proof. intros. unfold i32, u32. rewrite Zmod_mod. case_match; lia. Qed.
Lemma i32_id x : - 2 ^ 31 <= x < 2 ^ 31 -> i32 x = x.
Proof. intros. unfold i32, u32. case_match; lia. Qed.

(** ** Arrays of words *)

Definition put_words (d : list Z) (b : nat) (f : nat -> Z) (n : nat) : list Z :=
  foldl (fun d k => put32 d (b + 4 * k) (f k)) d (seq 0 n).

Lemma put_words_S d b f n : put_words d b f (S n) = put32 (put_words d b f n) (b + 4 * n) (f n).
Proof. unfold put_words. by rewrite seq_S, foldl_snoc. Qed.

Lemma put_words_length d b f n : length (put_words d b f n) = length d.
Proof. induction n as [|n IH]; [done|]. by rewrite put_words_S, put32_length. Qed.

#[export] Hint Rewrite put16_length put32_length put_words_length : block_length.

Lemma put_words_other d b f n j : (j < b \/ b + 4 * n <= j)%nat -> put_words d b f n !! j = d !! j.
Proof.
  intros H. induction n as [|n IH]; [done|]. rewrite put_words_S, put32_other by lia. apply IH. lia.
Qed.

Lemma get32_put_words d b f n k :
  (b + 4 * n <= length d)%nat -> (k < n)%nat -> get32 (put_words d b f n) (b + 4 * k) = u32 (f k).
Proof.
  intros Hl. induction n as [|n IH]; intros Hk; [lia|]. rewrite put_words_S.
  destruct (decide (k = n)) as [->|].
  - apply get32_put32. rewrite put_words_length. lia.
  - rewrite (get32_ext _ (put_words d b f n)); [apply IH; lia|].
    intros. apply put32_other. lia.
Qed.

Lemma put_words_ext d b f g n : (forall k, k < n -> f k = g k)%nat -> put_words d b f n = put_words d b g n.
Proof.
  induction n as [|n IH]; intros H; [done|].
  rewrite !put_words_S, H by lia. f_equal. apply IH. intros. apply H. lia.
Qed.

(** ** [splice], for block copies *)

Lemma splice_whole d src : length src = length d -> splice d 0 src = src.
Proof. intros H. unfold splice. rewrite take_0. cbn. rewrite drop_ge by lia. by rewrite app_nil_r. Qed.
