(* ===== verification/Env.v ===== *)
(** * Running a kernel thread together with the rest of the machine

    A kernel thread that sleeps is resumed in a state that the rest of the
    machine has reached by then.  Given what the rest of the machine does, the
    function [env], [wpe] is total correctness of the thread and the machine
    together, with a condition that every state in which the machine runs
    satisfies: the states in which a crash may happen. *)

From S2P Require Import Prelude Spinlock Riscv Kalloc Vm Queue PriorityQueue KString Proc ProcProofs ProcLife FsState.

Section wpe.
Context {S : Type} (env : st S -> st S) (C : S -> Prop).

(** What the program makes of every switch. *)
Fixpoint settle {A} (o : outcome S A) : outcome S A :=
  match o with Swtch s k => settle (k (env s)) | _ => o end.

Fixpoint owpe {A} (o : outcome S A) (Q : A -> st S -> Prop) : Prop :=
  match o with
  | Ret a s => Q a s
  | Swtch s k => C (data s) /\ C (data (env s)) /\ owpe (k (env s)) Q
  | _ => False
  end.
Definition wpe {A} (m : M S A) (Q : A -> st S -> Prop) (s : st S) : Prop := owpe (m s) Q.

Lemma owpe_mono {A} (o : outcome S A) (Q Q' : A -> st S -> Prop) :
  owpe o Q -> (forall a s, Q a s -> Q' a s) -> owpe o Q'.
Proof.
  intros H HQ. induction o as [a s| | |s k IH|]; cbn in *; auto.
  destruct H as (? & ? & H). split_and!; auto.
Qed.

Lemma owpe_bind {A B} (o : outcome S A) (f : A -> M S B) Q :
  owpe o (fun a s => wpe (f a) Q s) -> owpe (obind o f) Q.
Proof.
  intros H. induction o as [a s| | |s k IH|]; cbn in *; auto.
  destruct H as (? & ? & H). split_and!; auto.
Qed.

Lemma wpe_mono {A} (m : M S A) (Q Q' : A -> st S -> Prop) s :
  wpe m Q s -> (forall a s', Q a s' -> Q' a s') -> wpe m Q' s.
Proof. apply owpe_mono. Qed.

Lemma wpe_bind {A B} (m : M S A) (f : A -> M S B) Q s :
  wpe m (fun a s' => wpe (f a) Q s') s -> wpe (bind m f) Q s.
Proof. apply owpe_bind. Qed.

(** Code that does not sleep. *)
Lemma wp_wpe {A} (m : M S A) Q s : wp m Q s -> wpe m Q s.
Proof. unfold wp, wpe. by destruct (m s). Qed.

(** Total correctness: the composed run returns a value that satisfies [Q]. *)
Lemma owpe_settle {A} (o : outcome S A) Q :
  owpe o Q -> exists a s, settle o = Ret a s /\ Q a s.
Proof.
  intros H. induction o as [a s| | |s k IH|]; cbn in *; try done; [eauto|].
  destruct H as (? & ? & H). by apply IH.
Qed.
Lemma wpe_settle {A} (m : M S A) Q s :
  wpe m Q s -> exists a s', settle (m s) = Ret a s' /\ Q a s'.
Proof. apply owpe_settle. Qed.

Lemma wpe_for_each {I} (Inv : list I -> st S -> Prop) (body : I -> M S unit) idx (Q : unit -> st S -> Prop) s :
  Inv idx s ->
  (forall i rest s', Inv (i :: rest) s' -> wpe (body i) (fun _ s'' => Inv rest s'') s') ->
  (forall s', Inv [] s' -> Q tt s') ->
  wpe (for_each idx body) Q s.
Proof.
  intros Hi Hb HQ. revert s Hi. induction idx as [|i idx IH]; intros s Hi; cbn [for_each].
  - by apply wp_wpe, wp_ret, HQ.
  - apply wpe_bind. eapply wpe_mono; [by apply Hb|]. intros ? s' Hs. by apply IH.
Qed.

(** The states in which the machine may crash: those in which it runs. *)
Fixpoint crash_point {A} (o : outcome S A) (x : S) : Prop :=
  match o with
  | Swtch s k => x = data s \/ x = data (env s) \/ crash_point (k (env s)) x
  | _ => False
  end.
Lemma wpe_crash_point {A} (m : M S A) Q s x : wpe m Q s -> crash_point (m s) x -> C x.
Proof.
  unfold wpe. generalize (m s). intros o H Hx. induction o as [a s'| | |s' k IH|]; cbn in *; try done.
  destruct H as (H1 & H2 & H3). destruct Hx as [->|[->|Hx]]; [done|done|by eapply IH].
Qed.

(** A loop over the first [n] indices, the invariant given by the index. *)
Lemma wpe_for_seq (Inv : nat -> st S -> Prop) (body : nat -> M S unit) n (Q : unit -> st S -> Prop) s :
  Inv 0%nat s ->
  (forall t s', (t < n)%nat -> Inv t s' -> wpe (body t) (fun _ s'' => Inv (Datatypes.S t) s'') s') ->
  (forall s', Inv n s' -> Q tt s') ->
  wpe (for_each (seq 0 n) body) Q s.
Proof.
  intros H0 Hb HQ. apply (wpe_for_each (fun rest s' => exists t, rest = seq t (n - t) /\ (t <= n)%nat /\ Inv t s')).
  - exists 0%nat. by rewrite Nat.sub_0_r; split_and!; [|lia|].
  - intros j rest s' (t & E & Ht & HI). destruct (n - t)%nat as [|c] eqn:Ec; [done|]. cbn in E. injection E as -> ->.
    eapply wpe_mono; [apply Hb; [lia|done]|]. intros [] s'' HI'. exists (Datatypes.S t). split_and!; [|lia|done]. f_equal. lia.
  - intros s' (t & E & Ht & HI). apply HQ. destruct (n - t)%nat eqn:Ec; [|done]. by replace n with t by lia.
Qed.

(** A search over the first [n] indices. *)
Lemma wpe_for_find_seq {R} (Inv : nat -> st S -> Prop) (body : nat -> M S (option R)) n (Q : option R -> st S -> Prop) s :
  Inv 0%nat s ->
  (forall t s', (t < n)%nat -> Inv t s' ->
     wpe (body t) (fun r s'' => match r with Some _ => Q r s'' | None => Inv (Datatypes.S t) s'' end) s') ->
  (forall s', Inv n s' -> Q None s') ->
  wpe (for_find (seq 0 n) body) Q s.
Proof.
  intros H0 Hb HQ. assert (forall c t s', (t + c = n)%nat -> Inv t s' -> wpe (for_find (seq t c) body) Q s') as H.
  { induction c as [|c IH]; intros t s' Ht HI; cbn [seq for_find].
    - apply wp_wpe, wp_ret, HQ. by replace n with t by lia.
    - apply wpe_bind. eapply wpe_mono; [apply Hb; [lia|done]|]. intros [r|] s'' Hr; [by apply wp_wpe, wp_ret|].
      apply IH; [lia|done]. }
  by apply (H n 0%nat).
Qed.
End wpe.

(** A weaker crash condition. *)
Lemma wpe_crash {S A} (env : st S -> st S) (C C' : S -> Prop) (m : M S A) Q s :
  (forall x, C x -> C' x) -> wpe env C m Q s -> wpe env C' m Q s.
Proof.
  intros HC. unfold wpe. generalize (m s). intros o H.
  induction o as [a s'| | |s' k IH|]; cbn in *; auto.
  destruct H as (? & ? & H). split_and!; auto.
Qed.

(** The steps of a program under [wpe]. *)
Ltac wpe_step :=
  match goal with
  | |- wpe _ _ (bind _ _) _ _ => apply wpe_bind
  | |- wpe _ _ (ret _) _ _ => apply wp_wpe, wp_ret
  | |- wpe _ _ (gets _) _ _ => apply wp_wpe, wp_gets
  | |- wpe _ _ (modify _) _ _ => apply wp_wpe, wp_modify
  end; cbn beta.

(** ** Channels nobody sleeps on *)

Section quiet.
Context {F : Type}.
Implicit Types (s : kst F) (hl : list lockid).

Definition nobody_on (c : chan_t) (ps : list proc) : Prop :=
  forall j p, ps !! j = Some p -> state p = SLEEPING -> chan p <> c.

Lemma woken_nobody c me ps : nobody_on c ps -> imap (woken c me) ps = ps.
Proof.
  intros H. apply list_eq. intros j. rewrite list_lookup_imap.
  destruct (ps !! j) as [p|] eqn:E; [|done]. cbn [fmap option_fmap option_map]. f_equal.
  unfold woken. case_match; [|done]. exfalso. specialize (H j p E).
  repeat match goal with X : _ && _ = true |- _ => apply andb_true_iff in X as [? ?] end.
  apply H; by eapply bool_decide_eq_true_1.
Qed.

Lemma wp_wakeup_nobody c hl s (Q : unit -> st (kst F) -> Prop) :
  length (procs s) = Z.to_nat NPROC -> (forall i, LkProc i ∉ hl) -> nobody_on c (procs s) ->
  Q tt (mk_st hl s) -> wp (wakeup c) Q (mk_st hl s).
Proof.
  intros Hl Hh Hn HQ. eapply wp_eq; [by apply wakeup_run|]. rewrite woken_nobody by done.
  by destruct s.
Qed.
End quiet.
