(* ===== verification/Sleeplock.v ===== *)
(** * Sleep-locks (kernel/sleeplock.c)

    A sleep-lock is named by its index in [slocks]; its spinlock is
    [LkSleep] and its address, as a sleep channel, [ChSleep] of that index. *)

From S2P Require Import Prelude Spinlock Riscv Kalloc Vm Queue PriorityQueue KString Proc FsState.

Section sleeplock.
Context {waits : Waits}.

Definition sl_lk (lk : nat) : lockid := LkSleep (Z.of_nat lk).
Definition sl_chan (lk : nat) : chan_t := ChSleep (Z.of_nat lk).
Definition get_sl (lk : nat) : K sleeplock := fs_deref (fun s => slocks s !! lk).
Definition set_sl (lk : nat) (v : sleeplock) : K unit := fs_modify (fun s => set_slocks (<[lk := v]> (slocks s)) s).

Definition initsleeplock (lk : nat) : K unit := set_sl lk (mk_sleeplock 0 0).

(** [while (lk->locked) sleep(lk, &lk->lk);] *)
Fixpoint acquiresleep_loop (fuel : nat) (lk : nat) : K unit :=
  match fuel with
  | O => nofuel
  | S fuel' =>
      l <- get_sl lk ;;
      if sl_locked l =? 0 then ret tt
      else sleep (sl_chan lk) (sl_lk lk) ;; acquiresleep_loop fuel' lk
  end.

Definition acquiresleep (lk : nat) : K unit :=
  acquire (sl_lk lk) ;;
  acquiresleep_loop (S (S max_waits)) lk ;;
  i <- my ;;
  p <- get_proc i ;;
  set_sl lk (mk_sleeplock 1 (pid p)) ;;
  release (sl_lk lk).

Definition releasesleep (lk : nat) : K unit :=
  acquire (sl_lk lk) ;;
  set_sl lk (mk_sleeplock 0 0) ;;
  wakeup (sl_chan lk) ;;
  release (sl_lk lk).

Definition holdingsleep (lk : nat) : K bool :=
  acquire (sl_lk lk) ;;
  l <- get_sl lk ;;
  r <- (if sl_locked l =? 0 then ret false
        else i <- my ;; p <- get_proc i ;; ret (sl_pid l =? pid p)) ;;
  release (sl_lk lk) ;;
  ret r.
End sleeplock.
