(* ===== verification/Virtio.v ===== *)
(** * The virtio disk driver (kernel/virtio_disk.c)

    The descriptors, rings and in-flight table are the fields of [disk].  The
    device side (reading the available ring, transferring the data of a
    buffer, writing the status byte and the used ring) is not kernel code: it
    acts while the driver sleeps.  Its registers are read through
    [mmio_read], a function of the writes made so far. *)

From S2P Require Import Prelude Spinlock Riscv Kalloc Vm Queue PriorityQueue KString Proc FsState Sleeplock.

Class VirtioMmio : Type := mmio_read : list (Z * Z) -> Z -> Z.

Definition VIRTIO_MMIO_MAGIC_VALUE : Z := 0x000.
Definition VIRTIO_MMIO_VERSION : Z := 0x004.
Definition VIRTIO_MMIO_DEVICE_ID : Z := 0x008.
Definition VIRTIO_MMIO_VENDOR_ID : Z := 0x00c.
Definition VIRTIO_MMIO_DEVICE_FEATURES : Z := 0x010.
Definition VIRTIO_MMIO_DRIVER_FEATURES : Z := 0x020.
Definition VIRTIO_MMIO_QUEUE_SEL : Z := 0x030.
Definition VIRTIO_MMIO_QUEUE_NUM_MAX : Z := 0x034.
Definition VIRTIO_MMIO_QUEUE_NUM : Z := 0x038.
Definition VIRTIO_MMIO_QUEUE_READY : Z := 0x044.
Definition VIRTIO_MMIO_QUEUE_NOTIFY : Z := 0x050.
Definition VIRTIO_MMIO_INTERRUPT_STATUS : Z := 0x060.
Definition VIRTIO_MMIO_INTERRUPT_ACK : Z := 0x064.
Definition VIRTIO_MMIO_STATUS : Z := 0x070.
Definition VIRTIO_MMIO_QUEUE_DESC_LOW : Z := 0x080.
Definition VIRTIO_MMIO_QUEUE_DESC_HIGH : Z := 0x084.
Definition VIRTIO_MMIO_DRIVER_DESC_LOW : Z := 0x090.
Definition VIRTIO_MMIO_DRIVER_DESC_HIGH : Z := 0x094.
Definition VIRTIO_MMIO_DEVICE_DESC_LOW : Z := 0x0a0.
Definition VIRTIO_MMIO_DEVICE_DESC_HIGH : Z := 0x0a4.
Definition VRING_DESC_F_NEXT : Z := 1.
Definition VRING_DESC_F_WRITE : Z := 2.
Definition VIRTIO_BLK_T_IN : Z := 0.
Definition VIRTIO_BLK_T_OUT : Z := 1.

Section virtio.
Context {img : Image} {waits : Waits} {mmio : VirtioMmio}.

Definition vread (r : Z) : K Z := h <- fs_gets (fun s => v_regs (dk s)) ;; ret (u32 (mmio_read h r)).
Definition vwrite (r v : Z) : K unit := upd_disk (fun d => set_v_regs ((r, u32 v) :: v_regs d) d).

(** ** Descriptors *)

Definition zero_desc : virtq_desc := mk_desc DmaNull 0 0 0.
Definition set_desc (i : nat) (d : virtq_desc) : K unit := upd_disk (fun x => set_v_desc (<[i := d]> (v_desc x)) x).
Definition set_free (i : nat) (v : Z) : K unit := upd_disk (fun x => set_v_free (<[i := v]> (v_free x)) x).
Definition get_free (i : nat) : K Z := fs_deref (fun s => v_free (dk s) !! i).

Definition alloc_desc : K Z :=
  r <- for_find (seq 0 NUM) (fun i =>
    f <- get_free i ;;
    if negb (f =? 0) then set_free i 0 ;; ret (Some (Z.of_nat i)) else ret None) ;;
  ret (default (-1) r).

Definition free_desc (i : nat) : K unit :=
  if (NUM <=? i)%nat then panic "free_desc 1" else
  f <- get_free i ;;
  if negb (f =? 0) then panic "free_desc 2" else
  set_desc i zero_desc ;;
  set_free i 1 ;;
  wakeup ChDisk.

(** Each round frees a descriptor that was in use, so there are at most [NUM]. *)
Fixpoint free_chain_loop (fuel : nat) (i : nat) : K unit :=
  match fuel with
  | O => nofuel
  | S fuel' =>
      d <- fs_deref (fun s => v_desc (dk s) !! i) ;;
      free_desc i ;;
      if negb (Z.land (d_flags d) VRING_DESC_F_NEXT =? 0)
      then free_chain_loop fuel' (Z.to_nat (d_next d)) else ret tt
  end.
Definition free_chain (i : nat) : K unit := free_chain_loop (S NUM) i.

(** [idx] holds the descriptors allocated so far; [n] are still to come. *)
Fixpoint alloc3_loop (n : nat) (idx : list nat) : K (option (list nat)) :=
  match n with
  | O => ret (Some idx)
  | S n' =>
      d <- alloc_desc ;;
      if d <? 0 then for_each idx free_desc ;; ret None
      else alloc3_loop n' (idx ++ [Z.to_nat d])
  end.
Definition alloc3_desc : K (option (list nat)) := alloc3_loop 3 [].

(** ** Requests *)

Fixpoint alloc3_wait (fuel : nat) : K (list nat) :=
  match fuel with
  | O => nofuel
  | S fuel' =>
      r <- alloc3_desc ;;
      match r with
      | Some idx => ret idx
      | None => sleep ChDisk LkVdisk ;; alloc3_wait fuel'
      end
  end.

Fixpoint disk_wait (fuel : nat) (b : nat) : K unit :=
  match fuel with
  | O => nofuel
  | S fuel' =>
      x <- get_buf b ;;
      if b_disk x =? 1 then sleep (ChBuf b) LkVdisk ;; disk_wait fuel' b else ret tt
  end.

(** The three descriptors, the status byte and the in-flight entry of a request. *)
Definition format_request (b : nat) (sector : Z) (write : bool) (i0 i1 i2 : nat) : K unit :=
  upd_disk (fun d => set_v_ops (<[i0 := mk_req (if write then VIRTIO_BLK_T_OUT else VIRTIO_BLK_T_IN) 0 sector]> (v_ops d)) d) ;;
  set_desc i0 (mk_desc (DmaOps i0) 16 VRING_DESC_F_NEXT (Z.of_nat i1)) ;;
  set_desc i1 (mk_desc (DmaData b) BSIZE
                 (Z.lor (if write then 0 else VRING_DESC_F_WRITE) VRING_DESC_F_NEXT) (Z.of_nat i2)) ;;
  upd_disk (fun d => set_v_info (alter (fun x => mk_dinfo (in_b x) 255) i0 (v_info d)) d) ;;
  set_desc i2 (mk_desc (DmaStatus i0) 1 VRING_DESC_F_WRITE 0) ;;
  upd_buf b (set_b_disk 1) ;;
  upd_disk (fun d => set_v_info (alter (fun x => mk_dinfo (Some b) (in_status x)) i0 (v_info d)) d).

(** Handing the chain to the device. *)
Definition submit (i0 : nat) : K unit :=
  upd_disk (fun d => set_v_avail_ring (<[Z.to_nat (v_avail_idx d mod Z.of_nat NUM) := Z.of_nat i0]> (v_avail_ring d)) d) ;;
  upd_disk (fun d => set_v_avail_idx (u16 (v_avail_idx d + 1)) d) ;;
  vwrite VIRTIO_MMIO_QUEUE_NOTIFY 0.

Definition virtio_disk_rw (b : nat) (write : bool) : K unit :=
  x <- get_buf b ;;
  let sector := u32 (b_blockno x * (BSIZE / 512)) in
  acquire LkVdisk ;;
  idx <- alloc3_wait (S (S max_waits)) ;;
  match idx with
  | [i0; i1; i2] =>
      format_request b sector write i0 i1 i2 ;;
      submit i0 ;;
      disk_wait (S (S max_waits)) b ;;
      upd_disk (fun d => set_v_info (alter (fun x => mk_dinfo None (in_status x)) i0 (v_info d)) d) ;;
      free_chain i0 ;;
      release LkVdisk
  | _ => fault
  end.

(** The two 16-bit indices meet after fewer than 2^16 steps of one of them. *)
Fixpoint intr_loop (fuel : nat) : K unit :=
  match fuel with
  | O => nofuel
  | S fuel' =>
      d <- fs_gets dk ;;
      if v_used_idx d =? v_used_ring_idx d then ret tt
      else
        id <- deref (fun _ => v_used_ring d !! Z.to_nat (v_used_idx d mod Z.of_nat NUM)) ;;
        x <- deref (fun _ => v_info d !! Z.to_nat id) ;;
        if negb (in_status x =? 0) then panic "virtio_disk_intr status" else
        b <- deref (fun _ => in_b x) ;;
        upd_buf b (set_b_disk 0) ;;
        wakeup (ChBuf b) ;;
        upd_disk (fun d => set_v_used_idx (u16 (v_used_idx d + 1)) d) ;;
        intr_loop fuel'
  end.

Definition virtio_disk_intr : K unit :=
  acquire LkVdisk ;;
  st <- vread VIRTIO_MMIO_INTERRUPT_STATUS ;;
  vwrite VIRTIO_MMIO_INTERRUPT_ACK (Z.land st 3) ;;
  intr_loop (S (Z.to_nat (2 ^ 16))) ;;
  release LkVdisk.

(** ** Initialisation *)

Definition clear_bits (x : Z) (bits : list Z) : Z := foldl (fun y b => Z.land y (Z.lnot (2 ^ b))) x bits.

(** [VIRTIO_BLK_F_RO], [_SCSI], [_CONFIG_WCE], [_MQ], [VIRTIO_F_ANY_LAYOUT],
    [VIRTIO_RING_F_EVENT_IDX], [VIRTIO_RING_F_INDIRECT_DESC] *)
Definition refused_features : list Z := [5; 7; 11; 12; 27; 29; 28].

Definition virtio_disk_init : K unit :=
  magic <- vread VIRTIO_MMIO_MAGIC_VALUE ;;
  version <- vread VIRTIO_MMIO_VERSION ;;
  device <- vread VIRTIO_MMIO_DEVICE_ID ;;
  vendor <- vread VIRTIO_MMIO_VENDOR_ID ;;
  if negb (magic =? 0x74726976) || negb (version =? 2) || negb (device =? 2) || negb (vendor =? 0x554d4551)
  then panic "could not find virtio disk" else
  vwrite VIRTIO_MMIO_STATUS 0 ;;
  vwrite VIRTIO_MMIO_STATUS 1 ;;
  vwrite VIRTIO_MMIO_STATUS 3 ;;
  features <- vread VIRTIO_MMIO_DEVICE_FEATURES ;;
  vwrite VIRTIO_MMIO_DRIVER_FEATURES (clear_bits features refused_features) ;;
  vwrite VIRTIO_MMIO_STATUS 11 ;;
  status <- vread VIRTIO_MMIO_STATUS ;;
  if Z.land status 8 =? 0 then panic "virtio disk FEATURES_OK unset" else
  vwrite VIRTIO_MMIO_QUEUE_SEL 0 ;;
  ready <- vread VIRTIO_MMIO_QUEUE_READY ;;
  if negb (ready =? 0) then panic "virtio disk should not be ready" else
  mx <- vread VIRTIO_MMIO_QUEUE_NUM_MAX ;;
  if mx =? 0 then panic "virtio disk has no queue 0" else
  if mx <? Z.of_nat NUM then panic "virtio disk max queue too short" else
  desc <- mem_op kalloc ;;
  avail <- mem_op kalloc ;;
  used <- mem_op kalloc ;;
  if (desc =? 0) || (avail =? 0) || (used =? 0) then panic "virtio disk kalloc" else
  mem_op (zero_page desc) ;;
  mem_op (zero_page avail) ;;
  mem_op (zero_page used) ;;
  upd_disk (fun d => set_v_desc (replicate NUM zero_desc)
    (set_v_avail_idx 0 (set_v_avail_ring (replicate NUM 0)
    (set_v_used_ring_idx 0 (set_v_used_ring (replicate NUM 0) d))))) ;;
  vwrite VIRTIO_MMIO_QUEUE_NUM (Z.of_nat NUM) ;;
  vwrite VIRTIO_MMIO_QUEUE_DESC_LOW desc ;;
  vwrite VIRTIO_MMIO_QUEUE_DESC_HIGH (Z.shiftr desc 32) ;;
  vwrite VIRTIO_MMIO_DRIVER_DESC_LOW avail ;;
  vwrite VIRTIO_MMIO_DRIVER_DESC_HIGH (Z.shiftr avail 32) ;;
  vwrite VIRTIO_MMIO_DEVICE_DESC_LOW used ;;
  vwrite VIRTIO_MMIO_DEVICE_DESC_HIGH (Z.shiftr used 32) ;;
  vwrite VIRTIO_MMIO_QUEUE_READY 1 ;;
  for_each (seq 0 NUM) (fun i => set_free i 1) ;;
  vwrite VIRTIO_MMIO_STATUS (Z.lor status 4).
End virtio.
