(* ===== verification/World.v ===== *)
(** * The disk, the interrupt and the scheduler while a thread sleeps

    What happens between the switch of a thread that waits for the disk and
    its return: the device serves the request, [virtio_disk_intr] handles its
    interrupt, and the scheduler runs the thread again.  The device and the
    scheduler's turn are parameters, described by the laws of their classes;
    no other process touches the file system meanwhile. *)

From S2P Require Import Prelude Spinlock Riscv Kalloc Vm Queue PriorityQueue KString Proc ProcProofs ProcLife FsState FsBytes Env Sleeplock Virtio.

Ltac Zify.zify_post_hook ::= Z.to_euclidean_division_equations.

(** ** The device *)

Definition zero_block : list Z := replicate (Z.to_nat BSIZE) 0.
(** A block of the medium. *)
Definition blk (m : gmap Z (list Z)) (n : Z) : list Z := default zero_block (m !! n).

(** The chain [i0], [i1], [i2] asks for block [n] to be transferred from or to
    buffer [b], and is the only request outstanding. *)
Record posted (s : fsys) (i0 i1 i2 b : nat) (n : Z) (write : bool) : Prop := {
  po_ring : v_avail_ring (dk s) !! Z.to_nat (u16 (v_avail_idx (dk s) - 1) mod Z.of_nat NUM) = Some (Z.of_nat i0);
  po_one : v_avail_idx (dk s) = u16 (v_used_ring_idx (dk s) + 1);
  po_d0 : v_desc (dk s) !! i0 = Some (mk_desc (DmaOps i0) 16 1 (Z.of_nat i1));
  po_d1 : v_desc (dk s) !! i1 = Some (mk_desc (DmaData b) BSIZE (if write then 1 else 3) (Z.of_nat i2));
  po_d2 : v_desc (dk s) !! i2 = Some (mk_desc (DmaStatus i0) 1 2 0);
  po_op : v_ops (dk s) !! i0 = Some (mk_req (if write then 1 else 0) 0 (2 * n));
  po_buf : is_Some (bufs s !! b)
}.

(** The state once the device has done it: the data is transferred, the status
    byte is zero, and the chain is in the used ring. *)
Definition buf_data (s : fsys) (b : nat) : list Z := default [] (b_data <$> bufs s !! b).
Definition served (s : fsys) (i0 b : nat) (n : Z) (write : bool) : fsys :=
  let d := dk s in
  let d1 := set_v_info (alter (fun x => mk_dinfo (in_b x) 0) i0 (v_info d)) d in
  let d2 := set_v_used_ring (<[Z.to_nat (v_used_ring_idx d mod Z.of_nat NUM) := Z.of_nat i0]> (v_used_ring d)) d1 in
  let d3 := set_v_used_ring_idx (u16 (v_used_ring_idx d + 1)) d2 in
  if write then set_dk (set_medium (<[n := buf_data s b]> (medium d)) d3) s
  else set_bufs (alter (set_b_data (blk (medium d) n)) b (bufs s)) (set_dk d3 s).

(** What the virtio specification says of a block device that has been handed
    a request. *)
Class DiskDevice (device : fsys -> fsys) : Prop :=
  device_serves s i0 i1 i2 b n write : posted s i0 i1 i2 b n write -> device s = served s i0 b n write.

(** ** The scheduler *)

(** The process has been run again: it is RUNNING, time has passed and was
    accounted for in its usage record. *)
Definition resumed (i : nat) (p : proc) (u : cpu_usage) (t : Z) (s : kst fsys) : kst fsys :=
  set_ticks t (set_pm (set_page (usage_time p) (PgUsage u) (pm s))
    (set_procs (<[i := set_state RUNNING p]> (procs s)) s)).

(** The scheduler resumes the runnable process [i] of this hart. *)
Class Scheduler (back : st (kst fsys) -> st (kst fsys)) : Prop :=
  back_resumes i p u s :
    cur s = Some i -> procs s !! i = Some p -> state p = RUNNABLE ->
    mem (pm s) !! usage_time p = Some (PgUsage u) ->
    exists u' t, back (mk_st [LkProc i] s) = mk_st [LkProc i] (resumed i p u' t s).

Section world.
Context {waits : Waits} {mmio : VirtioMmio}.
Context (device : fsys -> fsys) (back : st (kst fsys) -> st (kst fsys)).

(** The interrupt handler, run by a hart that is in no process. *)
Definition interrupt (s : st (kst fsys)) : st (kst fsys) :=
  match virtio_disk_intr (mk_st [] (set_cur None (data s))) with
  | Ret _ s' => mk_st (held s) (set_cur (cur (data s)) (data s'))
  | _ => s
  end.

(** Everything that happens while a process waits for the disk. *)
Definition disk_env (s : st (kst fsys)) : st (kst fsys) :=
  back (interrupt (mk_st (held s) (set_files (device (files (data s))) (data s)))).
End world.
