(* ===== verification/VirtioProofs.v ===== *)
(** * The disk driver transfers a block

    [virtio_disk_rw] on an idle driver posts one request, sleeps until the
    interrupt, frees the descriptors and leaves the driver idle, the block
    read or written. *)

From S2P Require Import Prelude Spinlock Riscv Kalloc Vm Queue PriorityQueue KString Proc ProcProofs ProcLife FsState FsBytes Env Sleeplock Virtio World.

Ltac Zify.zify_post_hook ::= Z.to_euclidean_division_equations.

(** ** Rules for the accessors *)

Section rules.
Implicit Types (k : kst fsys) (f : fsys) (hl : list lockid).

Lemma wp_fs_gets {A} (g : fsys -> A) hl f k (Q : A -> st (kst fsys) -> Prop) :
  Q (g f) (mk_st hl (set_files f k)) -> wp (fs_gets g) Q (mk_st hl (set_files f k)).
Proof. done. Qed.
Lemma wp_fs_modify (g : fsys -> fsys) hl f k (Q : unit -> st (kst fsys) -> Prop) :
  Q tt (mk_st hl (set_files (g f) k)) -> wp (fs_modify g) Q (mk_st hl (set_files f k)).
Proof. done. Qed.
Lemma wp_fs_deref {A} (g : fsys -> option A) a hl f k (Q : A -> st (kst fsys) -> Prop) :
  g f = Some a -> Q a (mk_st hl (set_files f k)) -> wp (fs_deref g) Q (mk_st hl (set_files f k)).
Proof. intros E HQ. eapply wp_deref; [exact E|done]. Qed.
Lemma wp_get_buf b x hl f k (Q : buf -> st (kst fsys) -> Prop) :
  bufs f !! b = Some x -> Q x (mk_st hl (set_files f k)) -> wp (get_buf b) Q (mk_st hl (set_files f k)).
Proof. exact (wp_fs_deref (fun s => bufs s !! b) x hl f k Q). Qed.
Lemma wp_upd_buf b x g hl f k (Q : unit -> st (kst fsys) -> Prop) :
  bufs f !! b = Some x -> Q tt (mk_st hl (set_files (set_bufs (<[b := g x]> (bufs f)) f) k)) ->
  wp (upd_buf b g) Q (mk_st hl (set_files f k)).
Proof. intros Hx HQ. apply wp_fs_modify. by rewrite (alter_insert g b _ x). Qed.
Lemma wp_upd_disk g hl f k (Q : unit -> st (kst fsys) -> Prop) :
  Q tt (mk_st hl (set_files (set_dk (g (dk f)) f) k)) -> wp (upd_disk g) Q (mk_st hl (set_files f k)).
Proof. done. Qed.
Lemma wp_wakeup_files c hl f k (Q : unit -> st (kst fsys) -> Prop) :
  length (procs k) = Z.to_nat NPROC -> (forall j, LkProc j ∉ hl) ->
  Q tt (mk_st hl (set_files f (set_procs (imap (woken c (cur k)) (procs k)) k))) ->
  wp (wakeup c) Q (mk_st hl (set_files f k)).
Proof. intros Hl Hh HQ. eapply wp_eq; [by apply wakeup_run|]. exact HQ. Qed.
End rules.

(** ** The driver at rest *)

Definition all_free : list Z := replicate NUM 1.
Record driver_idle (d : disk) : Prop := {
  di_free : v_free d = all_free;
  di_desc : length (v_desc d) = NUM;
  di_ring : length (v_avail_ring d) = NUM;
  di_used : length (v_used_ring d) = NUM;
  di_info : length (v_info d) = NUM;
  di_ops : length (v_ops d) = NUM;
  di_idx : v_avail_idx d = v_used_idx d /\ v_used_ring_idx d = v_used_idx d /\ 0 <= v_used_idx d < 2 ^ 16
}.

(** The channels of the file system. *)
Definition fs_chan (c : chan_t) : bool :=
  match c with ChSleep _ | ChLog | ChBuf _ | ChDisk => true | _ => false end.

(** A running process, no other sleeping on a channel of the file system. *)
Record ready (i : nat) (k : kst fsys) : Prop := {
  rd_cur : cur k = Some i;
  rd_len : length (procs k) = Z.to_nat NPROC;
  rd_run : exists p u, procs k !! i = Some p /\ state p = RUNNING /\
             mem (pm k) !! usage_time p = Some (PgUsage u);
  rd_quiet : forall c, fs_chan c = true -> nobody_on c (procs k)
}.

(** What a sleep for the disk changes of the kernel state, the file layer
    apart: the clock, and the process's channel and usage record. *)
Record same_kernel (i : nat) (k k' : kst fsys) : Prop := {
  sk_cur : cur k' = cur k;
  sk_intr : intr k' = intr k;
  sk_glob : nextpid k' = nextpid k /\ initproc k' = initproc k /\ pq k' = pq k /\ q k' = q k /\
            rlist k' = rlist k /\ klog k' = klog k;
  sk_procs : exists p c, procs k !! i = Some p /\ procs k' = <[i := set_chan c p]> (procs k);
  sk_mem : exists p u, procs k !! i = Some p /\
            (pm k' = pm k \/ pm k' = set_page (usage_time p) (PgUsage u) (pm k))
}.

Lemma same_kernel_refl i k p : procs k !! i = Some p -> same_kernel i k k.
Proof.
  intros Hp. split; [done|done|done| |].
  - exists p, (chan p). split; [done|]. rewrite list_insert_id; [done|]. by destruct p.
  - exists p, (mk_usage 0 0 0 0 0). split; [done|by left].
Qed.

Lemma same_kernel_trans i k1 k2 k3 : same_kernel i k1 k2 -> same_kernel i k2 k3 -> same_kernel i k1 k3.
Proof.
  intros [c1 n1 g1 (p & c & Hp & P1) (p' & u & Hp' & m1)] [c2 n2 g2 (q1 & d & Hq & P2) (q2 & w & Hq2 & m2)].
  assert (p' = p) as -> by congruence.
  assert (q2 = set_chan c p) as ->.
  { rewrite P1, list_lookup_insert_eq in Hq2 by (by eapply lookup_lt_Some). congruence. }
  assert (q1 = set_chan c p) as -> by congruence.
  split; [congruence|congruence|naive_solver congruence| |].
  - exists p, d. split; [done|]. rewrite P2, P1, list_insert_insert_eq. done.
  - destruct m2 as [m2|m2]; rewrite m2; destruct m1 as [m1|m1]; rewrite m1.
    + exists p, u. auto.
    + exists p, u. auto.
    + exists p, w. auto.
    + exists p, w. split; [done|]. right. unfold set_page. cbn. by rewrite insert_insert_eq.
Qed.

Section virtio.
Context {waits : Waits} {mmio : VirtioMmio}.
Implicit Types (k : kst fsys) (f : fsys) (hl : list lockid).

(** ** Descriptors *)

Definition three_taken : list Z := [0; 0; 0; 1; 1; 1; 1; 1].

Lemma alloc3_idle hl f k :
  v_free (dk f) = all_free ->
  alloc3_desc (mk_st hl (set_files f k)) =
    Ret (Some [0%nat; 1%nat; 2%nat]) (mk_st hl (set_files (set_dk (set_v_free three_taken (dk f)) f) k)).
Proof.
  intros H. destruct f as [sl bu bp bn d l sb it ft dv co ua hw fi].
  destruct d as [de ai ar ui ur fr ux inf op rg me]. cbn in H. subst fr. reflexivity.
Qed.

(** No process sleeps on a channel of the file system. *)
Definition calm k : Prop := length (procs k) = Z.to_nat NPROC /\ forall c, fs_chan c = true -> nobody_on c (procs k).

Lemma wp_wakeup_calm c hl f k (Q : unit -> st (kst fsys) -> Prop) :
  calm k -> fs_chan c = true -> (forall j, LkProc j ∉ hl) ->
  Q tt (mk_st hl (set_files f k)) -> wp (wakeup c) Q (mk_st hl (set_files f k)).
Proof. intros [Hl Hq] Hc Hh HQ. apply wp_wakeup_nobody; [exact Hl|done|exact (Hq c Hc)|done]. Qed.

Lemma wp_free_desc (j : nat) hl f k (Q : unit -> st (kst fsys) -> Prop) :
  calm k -> (forall i, LkProc i ∉ hl) -> (j < NUM)%nat -> v_free (dk f) !! j = Some 0 ->
  Q tt (mk_st hl (set_files (set_dk (set_v_free (<[j := 1]> (v_free (dk f)))
         (set_v_desc (<[j := zero_desc]> (v_desc (dk f))) (dk f))) f) k)) ->
  wp (free_desc j) Q (mk_st hl (set_files f k)).
Proof.
  intros Hc Hh Hj Hf HQ. unfold free_desc. replace (NUM <=? j)%nat with false by lia.
  wp_step. eapply wp_fs_deref; [exact Hf|]. cbn [Z.eqb negb].
  wp_step. apply wp_upd_disk. wp_step. apply wp_upd_disk. by apply wp_wakeup_calm.
Qed.

(** The three descriptors of a request are freed. *)
Lemma wp_free_chain3 hl f k a b e (Q : unit -> st (kst fsys) -> Prop) :
  calm k -> (forall i, LkProc i ∉ hl) -> v_free (dk f) = three_taken ->
  v_desc (dk f) !! 0%nat = Some a -> v_desc (dk f) !! 1%nat = Some b -> v_desc (dk f) !! 2%nat = Some e ->
  d_flags a = 1 -> d_next a = 1 -> Z.land (d_flags b) 1 = 1 -> d_next b = 2 -> d_flags e = 2 ->
  Q tt (mk_st hl (set_files (set_dk (set_v_free all_free
         (set_v_desc (<[2%nat := zero_desc]> (<[1%nat := zero_desc]> (<[0%nat := zero_desc]> (v_desc (dk f))))) (dk f))) f) k)) ->
  wp (free_chain 0) Q (mk_st hl (set_files f k)).
Proof.
  intros Hc Hh Hf Ha Hb He Fa Na Fb Nb Fe HQ. change (free_chain 0) with (free_chain_loop (S (S (S 6))) 0).
  generalize 6%nat as n. intros n. cbn [free_chain_loop].
  wp_step. eapply wp_fs_deref; [exact Ha|]. wp_step. apply wp_free_desc; [done|done|unfold NUM; lia|by rewrite Hf|].
  rewrite Fa, Na. change (negb (Z.land 1 VRING_DESC_F_NEXT =? 0)) with true. change (Z.to_nat 1) with 1%nat. cbn match.
  wp_step. eapply wp_fs_deref; [cbn [dk set_dk v_desc set_v_free set_v_desc]; rewrite list_lookup_insert_ne by lia; exact Hb|].
  wp_step. apply wp_free_desc; [done|done|unfold NUM; lia|cbn [dk set_dk v_free set_v_free]; by rewrite Hf|].
  unfold VRING_DESC_F_NEXT. rewrite Fb, Nb. change (negb (1 =? 0)) with true. change (Z.to_nat 2) with 2%nat. cbn match.
  wp_step. eapply wp_fs_deref; [cbn [dk set_dk v_desc set_v_free set_v_desc]; rewrite !list_lookup_insert_ne by lia; exact He|].
  wp_step. apply wp_free_desc; [done|done|unfold NUM; lia|cbn [dk set_dk v_free set_v_free]; by rewrite Hf|].
  rewrite Fe. change (negb (Z.land 2 1 =? 0)) with false. apply wp_ret.
  cbn [dk set_dk v_free set_v_free v_desc set_v_desc]. rewrite Hf. exact HQ.
Qed.

(** ** The interrupt *)

(** The acknowledgement written by the handler. *)
Definition acked (d : disk) : disk :=
  set_v_regs ((VIRTIO_MMIO_INTERRUPT_ACK,
    u32 (Z.land (u32 (mmio_read (v_regs d) VIRTIO_MMIO_INTERRUPT_STATUS)) 3)) :: v_regs d) d.

(** One finished request: its buffer is handed back and its waiter woken. *)
Definition handled (b : nat) (x : buf) f : fsys :=
  set_bufs (<[b := set_b_disk 0 x]> (bufs f)) (set_dk (set_v_used_idx (v_used_ring_idx (dk f)) (acked (dk f))) f).

Lemma intr_run i0 b x f k :
  length (procs k) = Z.to_nat NPROC ->
  v_used_ring_idx (dk f) = u16 (v_used_idx (dk f) + 1) -> 0 <= v_used_idx (dk f) < 2 ^ 16 ->
  v_used_ring (dk f) !! Z.to_nat (v_used_idx (dk f) mod Z.of_nat NUM) = Some (Z.of_nat i0) ->
  v_info (dk f) !! i0 = Some (mk_dinfo (Some b) 0) -> bufs f !! b = Some x ->
  virtio_disk_intr (mk_st [] (set_files f k)) =
    Ret tt (mk_st [] (set_procs (imap (woken (ChBuf b) (cur k)) (procs k)) (set_files (handled b x f) k))).
Proof.
  intros Hl Hi Hr Hu Hinf Hb. apply wp_ret_eq. unfold virtio_disk_intr.
  wp_step. apply wp_acquire; [apply not_elem_of_nil|].
  wp_step. unfold vread. wp_step. apply wp_fs_gets. wp_step.
  wp_step. apply wp_upd_disk. wp_step.
  destruct (Z.to_nat (2 ^ 16)) as [|n] eqn:E; [lia|]. cbn [intr_loop].
  wp_step. apply wp_fs_gets. cbn [dk set_dk v_used_idx v_used_ring_idx set_v_regs v_used_ring v_info].
  assert (v_used_idx (dk f) <> v_used_ring_idx (dk f)) as Hne by (rewrite Hi; unfold u16; lia).
  rewrite (proj2 (Z.eqb_neq _ _) Hne).
  wp_step. eapply wp_deref; [exact Hu|]. rewrite Nat2Z.id.
  wp_step. eapply wp_deref; [exact Hinf|]. cbn [in_status in_b Z.eqb negb].
  wp_step. eapply wp_deref; [done|].
  wp_step. eapply wp_upd_buf; [exact Hb|].
  wp_step. apply wp_wakeup_files; [exact Hl|intros j [=]%list_elem_of_singleton|].
  wp_step. apply wp_upd_disk.
  wp_step. apply wp_fs_gets. cbn [dk set_dk v_used_idx v_used_ring_idx set_v_used_idx set_v_regs set_bufs].
  rewrite <- Hi, Z.eqb_refl.
  apply wp_ret. apply wp_release_head; [apply not_elem_of_nil|]. split; [done|].
  unfold handled, acked. reflexivity.
Qed.

(** ** Sleeping for the disk *)

(** The sleeper alone is made runnable. *)
Lemma woken_sleeper c i p ps :
  ps !! i = Some p -> nobody_on c ps ->
  imap (woken c None) (<[i := set_state SLEEPING (set_chan c p)]> ps) = <[i := set_state RUNNABLE (set_chan c p)]> ps.
Proof.
  intros Hp Hn. pose proof (lookup_lt_Some _ _ _ Hp) as Hi. apply list_eq. intros j. rewrite list_lookup_imap.
  destruct (decide (i = j)) as [<-|Hne].
  - rewrite !list_lookup_insert_eq by done. cbn [fmap option_fmap option_map]. unfold woken.
    rewrite (bool_decide_false (None = Some i)), !bool_decide_true by done. done.
  - rewrite !list_lookup_insert_ne by done. rewrite <- (woken_nobody c None ps Hn) at 2. by rewrite list_lookup_imap.
Qed.

(** A state predicate that only looks at the medium. *)
Definition on_medium (P : gmap Z (list Z) -> Prop) (k : kst fsys) : Prop := P (medium (dk (files k))).

(** The kernel state after the sleep. *)
Definition back_from_disk i (p : proc) (u : cpu_usage) (t : Z) k : kst fsys :=
  set_procs (<[i := set_chan ChNull p]> (procs k)) (set_ticks t (set_pm (set_page (usage_time p) (PgUsage u) (pm k)) k)).

Lemma back_ready i p u t k :
  ready i k -> procs k !! i = Some p ->
  ready i (back_from_disk i p u t k) /\ same_kernel i k (back_from_disk i p u t k).
Proof.
  intros [Hc Hl (p' & u' & Hp' & Hr & Hu) Hq] Hp. assert (p' = p) as -> by congruence.
  pose proof (lookup_lt_Some _ _ _ Hp) as Hi. split.
  - split; cbn.
    + done.
    + by rewrite length_insert.
    + exists (set_chan ChNull p), u. split_and!; [by apply list_lookup_insert_eq|done|apply lookup_insert_eq].
    + intros c Hfc j x Hj Hs. destruct (decide (i = j)) as [<-|].
      * rewrite list_lookup_insert_eq in Hj by done. injection Hj as <-. cbn in Hs. congruence.
      * rewrite list_lookup_insert_ne in Hj by done. by apply (Hq c Hfc j x).
  - split; try done.
    + by exists p, ChNull.
    + exists p, u. split; [done|by right].
Qed.
Context {device : fsys -> fsys} {back : st (kst fsys) -> st (kst fsys)}.
Context {Hdev : DiskDevice device} {Hback : Scheduler back}.

(** The machine between the switch and the return. *)
Lemma disk_env_run i p u b x n w f k :
  cur k = Some i -> procs k !! i = Some p -> length (procs k) = Z.to_nat NPROC ->
  nobody_on (ChBuf b) (procs k) -> mem (pm k) !! usage_time p = Some (PgUsage u) ->
  posted f 0 1 2 b n w -> v_info (dk f) !! 0%nat = Some (mk_dinfo (Some b) 255) ->
  length (v_used_ring (dk f)) = NUM -> v_used_ring_idx (dk f) = v_used_idx (dk f) -> 0 <= v_used_idx (dk f) < 2 ^ 16 ->
  bufs (served f 0 b n w) !! b = Some x ->
  exists u' t, disk_env device back
      (mk_st [LkProc i] (charged (usage_time p) u (asleep i p (ChBuf b) (set_files f k)))) =
    mk_st [LkProc i] (set_files (handled b x (served f 0 b n w))
      (set_procs (<[i := set_state RUNNING (set_chan (ChBuf b) p)]> (procs k))
        (set_ticks t (set_pm (set_page (usage_time p) (PgUsage u') (pm k)) k)))).
Proof.
  intros Hc Hp Hl Hn Hu Hpo Hinf Hul Hui Hr Hx. pose proof (lookup_lt_Some _ _ _ Hp) as Hi.
  unfold disk_env. cbn [held data].
  replace (device (files (charged (usage_time p) u (asleep i p (ChBuf b) (set_files f k)))))
    with (served f 0 b n w) by (symmetry; by apply (device_serves f 0 1 2 b n w)).
  set (k1 := set_cur None (charged (usage_time p) u (asleep i p (ChBuf b) k))).
  unfold interrupt. cbn [data held cur].
  change (set_cur None _) with (set_files (served f 0 b n w) k1).
  assert (v_used_ring_idx (dk (served f 0 b n w)) = u16 (v_used_idx (dk (served f 0 b n w)) + 1) /\
          v_used_idx (dk (served f 0 b n w)) = v_used_idx (dk f) /\
          v_used_ring (dk (served f 0 b n w)) = <[Z.to_nat (v_used_ring_idx (dk f) mod Z.of_nat NUM) := 0]> (v_used_ring (dk f)) /\
          v_info (dk (served f 0 b n w)) = alter (fun x => mk_dinfo (in_b x) 0) 0%nat (v_info (dk f))) as (E1 & E2 & E3 & E4).
  { unfold served. destruct w; cbn; rewrite Hui; done. }
  rewrite (intr_run 0%nat b x (served f 0 b n w) k1); [|cbn; by rewrite length_insert|done|by rewrite E2| | |done].
  - cbn [data]. change (cur (set_files _ _)) with (cur k). change (cur k1) with (@None nat).
    change (procs k1) with (<[i := set_state SLEEPING (set_chan (ChBuf b) p)]> (procs k)).
    rewrite woken_sleeper by done.
    destruct (back_resumes i (set_state RUNNABLE (set_chan (ChBuf b) p)) (account (ticks k) u)
      (set_files (handled b x (served f 0 b n w))
        (set_procs (<[i := set_state RUNNABLE (set_chan (ChBuf b) p)]> (procs k))
          (set_pm (set_page (usage_time p) (PgUsage (account (ticks k) u)) (pm k)) k)))) as (u' & t & Hb).
    + done.
    + by apply list_lookup_insert_eq.
    + done.
    + apply lookup_insert_eq.
    + exists u', t. etransitivity; [|etransitivity; [exact Hb|]].
      * reflexivity.
      * unfold resumed. cbn. rewrite list_insert_insert_eq. f_equal. unfold set_page; cbn.
        rewrite insert_insert_eq. done.
  - rewrite E3, E2, Hui. apply list_lookup_insert_eq. unfold NUM in *. lia.
  - rewrite E4, list_lookup_alter_eq, Hinf. done.
Qed.

#[local] Abbreviation env := (disk_env device back).

Lemma wpe_sleep_disk P i b x n w f k (Q : unit -> st (kst fsys) -> Prop) :
  ready i k -> posted f 0 1 2 b n w -> v_info (dk f) !! 0%nat = Some (mk_dinfo (Some b) 255) ->
  length (v_used_ring (dk f)) = NUM -> v_used_ring_idx (dk f) = v_used_idx (dk f) -> 0 <= v_used_idx (dk f) < 2 ^ 16 ->
  bufs (served f 0 b n w) !! b = Some x ->
  P (medium (dk f)) -> P (medium (dk (served f 0 b n w))) ->
  (forall k', ready i k' -> same_kernel i k k' ->
     Q tt (mk_st [LkVdisk] (set_files (handled b x (served f 0 b n w)) k'))) ->
  wpe env (on_medium P) (sleep (ChBuf b) LkVdisk) Q (mk_st [LkVdisk] (set_files f k)).
Proof.
  intros Hrd Hpo Hinf Hul Hui Hr Hx P0 P1 HQ. pose proof Hrd as [Hc Hl (p & u & Hp & Hrun & Hu) Hq].
  pose proof (lookup_lt_Some _ _ _ Hp) as Hi.
  destruct (sleep_run i p u (ChBuf b) LkVdisk (set_files f k)) as (kk & E & Hk); [done|done|done|done|].
  unfold wpe. rewrite E. cbn [owpe].
  destruct (disk_env_run i p u b x n w f k) as (u' & t & E'); [done|done|done|by apply Hq|done..|].
  rewrite E'. split_and!; [exact P0| |].
  { unfold on_medium. cbn [data files set_files handled]. exact P1. }
  rewrite (Hk _ (set_state RUNNING (set_chan (ChBuf b) p))); [|done|by apply list_lookup_insert_eq].
  cbn [owpe]. destruct (back_ready i p u' t k Hrd Hp) as [R1 R2].
  specialize (HQ (back_from_disk i p u' t k) R1 R2).
  enough (set_intr (intr (set_files f k)) (set_procs (<[i := set_chan ChNull (set_state RUNNING (set_chan (ChBuf b) p))]>
      (<[i := set_state RUNNING (set_chan (ChBuf b) p)]> (procs k)))
    (set_files (handled b x (served f 0 b n w)) (set_ticks t (set_pm (set_page (usage_time p) (PgUsage u') (pm k)) k)))) =
    set_files (handled b x (served f 0 b n w)) (back_from_disk i p u' t k)) as Eq.
  { cbn [data procs set_files set_procs]. by rewrite <- Eq in HQ. }
  rewrite list_insert_insert_eq. unfold back_from_disk.
  replace (set_chan ChNull (set_state RUNNING (set_chan (ChBuf b) p))) with (set_chan ChNull p); [by destruct k|].
  destruct p; cbn in *. by subst.
Qed.

(** ** A transfer *)

(** The disk after a request: the driver is at rest again, and only a write
    changes the medium. *)
Record after_rw (d : disk) (b : nat) (x : buf) (n : Z) (w : bool) (d' : disk) (x' : buf) : Prop := {
  ar_idle : driver_idle d';
  ar_medium : medium d' = if w then <[n := b_data x]> (medium d) else medium d;
  ar_buf : x' = set_b_disk 0 (if w then x else set_b_data (blk (medium d) n) x)
}.

(** The state in which the request has been handed to the device. *)
Definition requested (b : nat) (x : buf) (w : bool) f : fsys :=
  let d := dk f in
  set_bufs (<[b := set_b_disk 1 x]> (bufs f)) (set_dk (mk_disk
    (<[2%nat := mk_desc (DmaStatus 0) 1 2 0]> (<[1%nat := mk_desc (DmaData b) BSIZE (if w then 1 else 3) 2]>
      (<[0%nat := mk_desc (DmaOps 0) 16 1 1]> (v_desc d))))
    (u16 (v_avail_idx d + 1)) (<[Z.to_nat (v_avail_idx d mod Z.of_nat NUM) := 0]> (v_avail_ring d))
    (v_used_ring_idx d) (v_used_ring d) three_taken (v_used_idx d)
    (alter (fun x => mk_dinfo (Some b) 255) 0%nat (v_info d))
    (<[0%nat := mk_req (if w then 1 else 0) 0 (2 * b_blockno x)]> (v_ops d))
    ((VIRTIO_MMIO_QUEUE_NOTIFY, 0) :: v_regs d) (medium d)) f).

Lemma wp_request b x w hl f k (Q : unit -> st (kst fsys) -> Prop) :
  bufs f !! b = Some x -> 0 <= b_blockno x < 2 ^ 31 ->
  Q tt (mk_st hl (set_files (requested b x w f) k)) ->
  wp (format_request b (u32 (b_blockno x * (BSIZE / 512))) w 0 1 2) (fun _ s' => wp (submit 0) Q s')
    (mk_st hl (set_files (set_dk (set_v_free three_taken (dk f)) f) k)).
Proof.
  intros Hb Hn HQ. unfold format_request, submit, set_desc, vwrite.
  replace (u32 (b_blockno x * (BSIZE / 512))) with (2 * b_blockno x)
    by (change (BSIZE / 512) with 2; rewrite u32_id; lia).
  do 5 (wp_step; apply wp_upd_disk).
  wp_step. apply (wp_upd_buf b x); [done|]. apply wp_upd_disk.
  wp_step. apply wp_upd_disk. wp_step. apply wp_upd_disk. apply wp_upd_disk.
  refine (eq_rect _ (fun z => Q tt (mk_st hl (set_files z k))) HQ _ _).
  assert (forall l : list disk_info,
    alter (fun x => mk_dinfo (Some b) 255) 0%nat l =
    alter (fun x => mk_dinfo (Some b) (in_status x)) 0%nat (alter (fun x => mk_dinfo (in_b x) 255) 0%nat l)) as E
    by (by intros []).
  unfold requested. rewrite (E (v_info (dk f))). destruct w; reflexivity.
Qed.

Lemma requested_posted b x w f :
  driver_idle (dk f) -> bufs f !! b = Some x -> posted (requested b x w f) 0 1 2 b (b_blockno x) w.
Proof.
  intros [If Id Ir Iu Ii Io (Ix1 & Ix2 & Ix3)] Hb. unfold NUM in *.
  split; cbn [requested dk set_bufs set_dk v_avail_ring v_avail_idx v_used_ring_idx v_desc v_ops bufs].
  - replace (u16 (u16 (v_avail_idx (dk f) + 1) - 1)) with (v_avail_idx (dk f)) by (unfold u16; lia).
    apply list_lookup_insert_eq. unfold NUM. lia.
  - by rewrite Ix1, Ix2.
  - rewrite !list_lookup_insert_ne by lia. apply list_lookup_insert_eq. lia.
  - rewrite list_lookup_insert_ne by lia. apply list_lookup_insert_eq. rewrite length_insert. lia.
  - apply list_lookup_insert_eq. rewrite !length_insert. lia.
  - apply list_lookup_insert_eq. lia.
  - rewrite list_lookup_insert_eq by (by eapply lookup_lt_Some). by eexists.
Qed.

(** What a transfer leaves of the state, apart from the disk and the buffer. *)
Lemma set_dk_bufs f v d d0 : set_dk d (set_bufs v (set_dk d0 f)) = set_bufs v (set_dk d f).
Proof. done. Qed.
Lemma set_bufs_dk f v v0 d d0 : set_bufs v (set_dk d (set_bufs v0 (set_dk d0 f))) = set_bufs v (set_dk d f).
Proof. done. Qed.

Definition filled_buf (x : buf) (w : bool) (m : gmap Z (list Z)) : buf :=
  if w then set_b_disk 1 x else set_b_data (blk m (b_blockno x)) (set_b_disk 1 x).

Lemma served_form b x w f :
  bufs f !! b = Some x -> driver_idle (dk f) ->
  exists d, served (requested b x w f) 0 b (b_blockno x) w =
      set_bufs (<[b := filled_buf x w (medium (dk f))]> (bufs f)) (set_dk d f) /\
    v_free d = three_taken /\ v_desc d = v_desc (dk (requested b x w f)) /\
    length (v_avail_ring d) = NUM /\ length (v_used_ring d) = NUM /\ length (v_info d) = NUM /\ length (v_ops d) = NUM /\
    v_avail_idx d = u16 (v_used_idx (dk f) + 1) /\ v_used_ring_idx d = u16 (v_used_idx (dk f) + 1) /\
    medium d = (if w then <[b_blockno x := b_data x]> (medium (dk f)) else medium (dk f)).
Proof.
  intros Hb [If Id Ir Iu Ii Io (Ix1 & Ix2 & Ix3)]. pose proof (lookup_lt_Some _ _ _ Hb) as Hbl.
  exists (dk (served (requested b x w f) 0 b (b_blockno x) w)). split.
  - unfold served. destruct w; [done|]. unfold filled_buf.
    rewrite (alter_insert _ _ _ (set_b_disk 1 x)) by (by apply list_lookup_insert_eq).
    cbn [requested bufs set_bufs]. by rewrite list_insert_insert_eq.
  - unfold served. destruct w; cbn; rewrite ?length_insert, ?length_alter, ?Ix1, ?Ix2; split_and!; try done.
    unfold buf_data. cbn. by rewrite list_lookup_insert_eq.
Qed.

(** The end of [virtio_disk_rw], once the interrupt has handed the buffer back. *)
Lemma wp_rw_finish b x w f k (Q : unit -> st (kst fsys) -> Prop) :
  calm k -> driver_idle (dk f) -> bufs f !! b = Some x ->
  (forall d' x', after_rw (dk f) b x (b_blockno x) w d' x' ->
     Q tt (mk_st [] (set_files (set_bufs (<[b := x']> (bufs f)) (set_dk d' f)) k))) ->
  wp (upd_disk (fun d => set_v_info (alter (fun x => mk_dinfo None (in_status x)) 0%nat (v_info d)) d) ;;
      free_chain 0 ;; release LkVdisk) Q
    (mk_st [LkVdisk] (set_files (handled b (filled_buf x w (medium (dk f)))
                                   (served (requested b x w f) 0 b (b_blockno x) w)) k)).
Proof.
  intros Hc Hid Hb HQ. pose proof (lookup_lt_Some _ _ _ Hb) as Hbl.
  pose proof (requested_posted b x w f Hid Hb) as [_ _ D0 D1 D2 _ _].
  pose proof Hid as [If Id Ir Iu Ii Io (Ix1 & Ix2 & Ix3)].
  destruct (served_form b x w f Hb Hid) as (d & -> & E1 & E2 & E3 & E4 & E5 & E6 & E7 & E8 & E9).
  set (x1 := filled_buf x w (medium (dk f))).
  unfold handled. cbn [dk set_dk set_bufs bufs]. rewrite list_insert_insert_eq, set_bufs_dk.
  assert (Z.land (if w then 1 else 3) 1 = 1) as Hland by (by destruct w).
  wp_step. apply wp_upd_disk. rewrite set_dk_bufs. wp_step.
  apply (wp_free_chain3 [LkVdisk] _ k (mk_desc (DmaOps 0) 16 1 1)
    (mk_desc (DmaData b) BSIZE (if w then 1 else 3) 2) (mk_desc (DmaStatus 0) 1 2 0)); try done;
    cbn [dk set_dk set_bufs v_desc v_free set_v_info set_v_used_idx acked set_v_regs]; try (by rewrite ?E1, ?E2).
  { intros j [=]%list_elem_of_singleton. }
  apply wp_release_head; [apply not_elem_of_nil|]. rewrite set_dk_bufs. apply HQ. split.
  - split; cbn; rewrite ?length_insert, ?length_alter; try done.
    + rewrite E2. cbn. by rewrite !length_insert.
    + rewrite E7, E8. unfold u16. lia.
  - exact E9.
  - subst x1. by destruct w.
Qed.

Lemma virtio_disk_rw_spec P i b x w f k (Q : unit -> st (kst fsys) -> Prop) :
  ready i k -> driver_idle (dk f) -> bufs f !! b = Some x -> 0 <= b_blockno x < 2 ^ 31 ->
  P (medium (dk f)) -> (w = true -> P (<[b_blockno x := b_data x]> (medium (dk f)))) ->
  (forall k' d' x', ready i k' -> same_kernel i k k' -> after_rw (dk f) b x (b_blockno x) w d' x' ->
     Q tt (mk_st [] (set_files (set_bufs (<[b := x']> (bufs f)) (set_dk d' f)) k'))) ->
  wpe env (on_medium P) (virtio_disk_rw b w) Q (mk_st [] (set_files f k)).
Proof.
  intros Hrd Hid Hb Hn P0 P1 HQ. unfold virtio_disk_rw.
  pose proof (lookup_lt_Some _ _ _ Hb) as Hbl. pose proof Hid as [If Id Ir Iu Ii Io (Ix1 & Ix2 & Ix3)].
  pose proof (requested_posted b x w f Hid Hb) as Hpo.
  destruct (served_form b x w f Hb Hid) as (d & Hs & _ & _ & _ & _ & _ & _ & _ & _ & Hm).
  wpe_step. apply wp_wpe, (wp_get_buf b x); [done|].
  wpe_step. apply wp_wpe, wp_acquire; [apply not_elem_of_nil|]. cbn [held data].
  wpe_step. cbn [alloc3_wait]. wpe_step. apply wp_wpe. eapply wp_eq; [by apply alloc3_idle|]. cbn beta iota.
  wpe_step. wpe_step. apply wp_wpe. eapply wp_mono; [apply wp_request; [done|done|]|].
  { instantiate (1 := fun _ s' => s' = mk_st [LkVdisk] (set_files (requested b x w f) k)). done. }
  intros [] s' Hs'. wpe_step. apply wp_wpe. eapply wp_mono; [exact Hs'|]. intros [] ? ->.
  wpe_step. cbn [disk_wait]. wpe_step. apply wp_wpe, (wp_get_buf b (set_b_disk 1 x)); [by apply list_lookup_insert_eq|].
  change (b_disk (set_b_disk 1 x) =? 1) with true. cbn match. wpe_step.
  apply (wpe_sleep_disk P i b (filled_buf x w (medium (dk f))) (b_blockno x) w); try done.
  { cbn [requested dk set_dk set_bufs v_info]. rewrite list_lookup_alter_eq.
    by destruct (proj2 (lookup_lt_is_Some (v_info (dk f)) 0%nat) ltac:(unfold NUM in *; lia)) as [? ->]. }
  { rewrite Hs. by apply list_lookup_insert_eq. }
  { rewrite Hs. cbn [dk set_dk set_bufs]. rewrite Hm. destruct w; auto. }
  intros k' Hrd' Hsk. wpe_step. apply wp_wpe, (wp_get_buf b (set_b_disk 0 (filled_buf x w (medium (dk f))))).
  { rewrite Hs. cbn [handled set_bufs bufs]. apply list_lookup_insert_eq. by rewrite length_insert. }
  match goal with |- context [b_disk ?y =? 1] => change (b_disk y =? 1) with false end. cbn match. apply wp_wpe, wp_ret.
  apply wp_wpe, wp_rw_finish; [by destruct Hrd'|done|done|].
  intros d' x' Har. by apply HQ.
Qed.
End virtio.
