(* ===== verification/Bio.v ===== *)
(** * The buffer cache (kernel/bio.c)

    The buffers are linked through [b_prev] and [b_next], starting at the head
    of the list, as in the code. *)

From S2P Require Import Prelude Spinlock Riscv Kalloc Vm Queue PriorityQueue KString Proc FsState Sleeplock Virtio.

Section bio.
Context {img : Image} {waits : Waits} {mmio : VirtioMmio}.

(** [b->next], [b->prev] and assignments to them, the head included. *)
Definition next_of (l : blink) : K blink :=
  match l with BHead => fs_gets bhead_next | BBuf i => x <- get_buf i ;; ret (b_next x) end.
Definition prev_of (l : blink) : K blink :=
  match l with BHead => fs_gets bhead_prev | BBuf i => x <- get_buf i ;; ret (b_prev x) end.
Definition set_next (l v : blink) : K unit :=
  match l with BHead => fs_modify (set_bhead_next v) | BBuf i => upd_buf i (set_b_next v) end.
Definition set_prev (l v : blink) : K unit :=
  match l with BHead => fs_modify (set_bhead_prev v) | BBuf i => upd_buf i (set_b_prev v) end.

(** Linking [b] in at the front of the list. *)
Definition push_front (b : nat) : K unit :=
  n <- next_of BHead ;;
  set_next (BBuf b) n ;;
  set_prev (BBuf b) BHead ;;
  n <- next_of BHead ;;
  set_prev n (BBuf b) ;;
  set_next BHead (BBuf b).

Definition binit : K unit :=
  set_prev BHead BHead ;;
  set_next BHead BHead ;;
  for_each (seq 0 NBUF) (fun b =>
    n <- next_of BHead ;;
    set_next (BBuf b) n ;;
    set_prev (BBuf b) BHead ;;
    initsleeplock (buf_lock b) ;;
    n <- next_of BHead ;;
    set_prev n (BBuf b) ;;
    set_next BHead (BBuf b)).

(** The two loops of [bget]: along [next] for the block, along [prev] for a
    buffer nobody uses.  A list of buffers has at most [NBUF] of them. *)
Fixpoint find_cached (fuel : nat) (l : blink) (dev blockno : Z) : K (option nat) :=
  match fuel with
  | O => nofuel
  | S fuel' =>
      match l with
      | BHead => ret None
      | BBuf b =>
          x <- get_buf b ;;
          if (b_dev x =? dev) && (b_blockno x =? blockno) then ret (Some b)
          else find_cached fuel' (b_next x) dev blockno
      end
  end.
Fixpoint find_unused_buf (fuel : nat) (l : blink) : K (option nat) :=
  match fuel with
  | O => nofuel
  | S fuel' =>
      match l with
      | BHead => ret None
      | BBuf b =>
          x <- get_buf b ;;
          if b_refcnt x =? 0 then ret (Some b) else find_unused_buf fuel' (b_prev x)
      end
  end.

Definition bget (dev blockno : Z) : K nat :=
  acquire LkBcache ;;
  n <- next_of BHead ;;
  hit <- find_cached (S NBUF) n dev blockno ;;
  match hit with
  | Some b =>
      upd_buf b (fun x => set_b_refcnt (u32 (b_refcnt x + 1)) x) ;;
      release LkBcache ;;
      acquiresleep (buf_lock b) ;;
      ret b
  | None =>
      p <- prev_of BHead ;;
      r <- find_unused_buf (S NBUF) p ;;
      match r with
      | Some b =>
          upd_buf b (fun x => set_b_refcnt 1 (set_b_valid 0 (set_b_blockno blockno (set_b_dev dev x)))) ;;
          release LkBcache ;;
          acquiresleep (buf_lock b) ;;
          ret b
      | None => panic "bget: no buffers"
      end
  end.

Definition bread (dev blockno : Z) : K nat :=
  b <- bget dev blockno ;;
  x <- get_buf b ;;
  when (b_valid x =? 0) (virtio_disk_rw b false ;; upd_buf b (set_b_valid 1)) ;;
  ret b.

Definition bwrite (b : nat) : K unit :=
  h <- holdingsleep (buf_lock b) ;;
  if negb h then panic "bwrite" else virtio_disk_rw b true.

Definition brelse (b : nat) : K unit :=
  h <- holdingsleep (buf_lock b) ;;
  if negb h then panic "brelse" else
  releasesleep (buf_lock b) ;;
  acquire LkBcache ;;
  upd_buf b (fun x => set_b_refcnt (u32 (b_refcnt x - 1)) x) ;;
  x <- get_buf b ;;
  when (b_refcnt x =? 0)
    (set_prev (b_next x) (b_prev x) ;;
     x <- get_buf b ;;
     set_next (b_prev x) (b_next x) ;;
     push_front b) ;;
  release LkBcache.

Definition bpin (b : nat) : K unit :=
  acquire LkBcache ;;
  upd_buf b (fun x => set_b_refcnt (u32 (b_refcnt x + 1)) x) ;;
  release LkBcache.

Definition bunpin (b : nat) : K unit :=
  acquire LkBcache ;;
  upd_buf b (fun x => set_b_refcnt (u32 (b_refcnt x - 1)) x) ;;
  release LkBcache.

(** The data of a buffer. *)
Definition bdata (b : nat) : K (list Z) := x <- get_buf b ;; ret (b_data x).
Definition set_bdata (b : nat) (d : list Z) : K unit := upd_buf b (set_b_data d).
End bio.
