(* ===== verification/Lru.v ===== *)
(** * The list of buffers

    The [prev] and [next] pointers of bcache form a doubly linked list; the
    operations of bio.c on them are those of a list ordered by use: the head
    is the most recently released buffer. *)

From S2P Require Import Prelude Spinlock Riscv Kalloc Vm Queue PriorityQueue KString Proc ProcProofs ProcLife FsState Env Sleeplock Virtio World VirtioProofs Bio.

(** ** Doubly linked paths *)

Section dpath.
Implicit Types (l v : list blink) (a b z : blink) (nx pv : blink -> blink).

Fixpoint dpath nx pv l : Prop :=
  match l with
  | a :: ((b :: _) as l') => nx a = b /\ pv b = a /\ dpath nx pv l'
  | _ => True
  end.

Lemma dpath_app nx pv l a v : dpath nx pv (l ++ a :: v) <-> dpath nx pv (l ++ [a]) /\ dpath nx pv (a :: v).
Proof.
  induction l as [|c l IH]; [cbn; tauto|]. destruct l as [|d l]; [cbn; tauto|].
  change (dpath nx pv ((c :: d :: l) ++ a :: v)) with (nx c = d /\ pv d = c /\ dpath nx pv ((d :: l) ++ a :: v)).
  change (dpath nx pv ((c :: d :: l) ++ [a])) with (nx c = d /\ pv d = c /\ dpath nx pv ((d :: l) ++ [a])).
  rewrite IH. tauto.
Qed.

(** Only the successors of all but the last node and the predecessors of all
    but the first matter. *)
Lemma dpath_ext nx pv nx' pv' l a z :
  (forall b, b ∈ a :: l -> nx' b = nx b) -> (forall b, b ∈ l ++ [z] -> pv' b = pv b) ->
  dpath nx pv (a :: l ++ [z]) -> dpath nx' pv' (a :: l ++ [z]).
Proof.
  revert a. induction l as [|b l IH]; intros a Hn Hp H.
  - cbn in *. rewrite Hn by left. rewrite Hp by left. tauto.
  - cbn [app] in *. destruct H as (H1 & H2 & H3). split_and!.
    + rewrite Hn by left. done.
    + rewrite Hp by left. done.
    + apply IH; [| |done]; intros c Hc; [apply Hn; by right|apply Hp; by right].
Qed.

End dpath.

(** Changing one pointer. *)
Definition upd (g : blink -> blink) (a v : blink) : blink -> blink := fun b => if decide (b = a) then v else g b.
Lemma upd_eq g a v : upd g a v a = v.
Proof. unfold upd. by rewrite decide_True. Qed.
Lemma upd_ne g a v b : b <> a -> upd g a v b = g b.
Proof. intros. unfold upd. by rewrite decide_False. Qed.

(** The cycle through the head and the buffers in [order]. *)
Definition nodes (order : list nat) : list blink := BBuf <$> order.
Definition cycle (nx pv : blink -> blink) (order : list nat) : Prop :=
  dpath nx pv (BHead :: nodes order ++ [BHead]).

Lemma head_not_node order : BHead ∉ nodes order.
Proof. unfold nodes. rewrite list_elem_of_fmap. by intros (b & ? & _). Qed.
Lemma elem_of_nodes b order : BBuf b ∈ nodes order <-> b ∈ order.
Proof. unfold nodes. rewrite list_elem_of_fmap. split; [by intros (? & [= ->] & ?)|eauto]. Qed.

(** Where the forward pointers of a cycle start. *)
Lemma cycle_first nx pv order : cycle nx pv order -> nx BHead = default BHead (nodes order !! 0%nat).
Proof. unfold cycle. destruct order; cbn; by intros (-> & _). Qed.

(** *** Linking a buffer in behind the head *)
Lemma cycle_push nx pv order b :
  NoDup (b :: order) -> cycle nx pv order ->
  cycle (upd (upd nx (BBuf b) (nx BHead)) BHead (BBuf b))
    (upd (upd pv (BBuf b) BHead) (nx BHead) (BBuf b)) (b :: order).
Proof.
  intros [Hb Hd]%NoDup_cons Hc. pose proof (cycle_first _ _ _ Hc) as Hf. unfold cycle in *.
  cbn [nodes fmap list_fmap app] in *. fold (nodes order) in *.
  assert (nx BHead <> BBuf b) as Hhb.
  { rewrite Hf. destruct order as [|c order]; cbn; [done|]. intros [= ->]. apply Hb. by left. }
  cbn [dpath]. rewrite upd_eq. split; [done|]. split.
  { rewrite (upd_ne _ (nx BHead)) by congruence. apply upd_eq. }
  destruct order as [|c order]; cbn [nodes fmap list_fmap app] in *.
  - cbn in *. destruct Hc as (E1 & E2 & _). rewrite E1. split_and!; [|apply upd_eq|done].
    rewrite upd_ne by done. apply upd_eq.
  - fold (nodes order) in *. apply NoDup_cons in Hd as [Hc' Hd]. destruct Hc as (E1 & E2 & Hc). rewrite E1. split_and!.
    + rewrite upd_ne by done. apply upd_eq.
    + apply upd_eq.
    + apply (dpath_ext nx pv); [| |exact Hc]; intros d Hd'.
      * assert (d <> BHead /\ d <> BBuf b) as [? ?]; [|by rewrite !upd_ne].
        split; intros ->; apply elem_of_cons in Hd' as [E|E].
        -- done.
        -- by apply head_not_node in E.
        -- injection E as ->. apply Hb. by left.
        -- apply elem_of_nodes in E. apply Hb. by right.
      * assert (d <> BBuf c /\ d <> BBuf b) as [? ?]; [|by rewrite !upd_ne].
        split; intros ->; apply elem_of_app in Hd' as [E|E%list_elem_of_singleton]; try done; apply elem_of_nodes in E.
        -- done.
        -- apply Hb. by right.
Qed.

(** *** Unlinking a buffer *)
Lemma cycle_remove nx pv u b v :
  NoDup (u ++ b :: v) -> cycle nx pv (u ++ b :: v) ->
  cycle (upd nx (pv (BBuf b)) (nx (BBuf b))) (upd pv (nx (BBuf b)) (pv (BBuf b))) (u ++ v).
Proof.
  intros Hd Hc. apply NoDup_app in Hd as (Hu & Huv & [Hb Hv]%NoDup_cons).
  assert (b ∉ u) as Hbu by (intros H; apply (Huv _ H); by left).
  assert (forall c, c ∈ u -> c ∉ v) as Hcv by (intros c H1 H2; apply (Huv _ H1); by right).
  unfold cycle, nodes in *. rewrite fmap_app in *. cbn [fmap list_fmap app] in Hc. fold (nodes u) (nodes v) in *.
  rewrite <- app_assoc in *. cbn [app] in Hc.
  change (BHead :: nodes u ++ BBuf b :: nodes v ++ [BHead]) with ((BHead :: nodes u) ++ BBuf b :: nodes v ++ [BHead]) in Hc.
  change (BHead :: nodes u ++ nodes v ++ [BHead]) with ((BHead :: nodes u) ++ nodes v ++ [BHead]).
  apply dpath_app in Hc as [H1 H2].
  assert (NoDup (BHead :: nodes u)) as Hnu.
  { constructor; [apply head_not_node|]. apply NoDup_fmap_2; [congruence|done]. }
  assert (exists l p, BHead :: nodes u = l ++ [p]) as (l & p & El).
  { destruct (nodes u) as [|c t] using rev_ind; [by exists [], BHead|]. exists (BHead :: t), c. done. }
  assert (p = BHead \/ p ∈ nodes u) as Hp.
  { apply elem_of_cons. rewrite El. apply elem_of_app. right. by left. }
  assert (exists n t, nodes v ++ [BHead] = n :: t) as (n & t & Et) by (destruct (nodes v); cbn; eauto).
  rewrite El in H1 |- *. rewrite Et in H2 |- *. rewrite <- app_assoc in *. cbn [app] in H1 |- *.
  apply dpath_app in H1 as [H1 (E1 & E2 & _)]. destruct H2 as (E3 & E4 & H2).
  rewrite E2, E3. apply dpath_app. split; [|cbn [dpath]; rewrite !upd_eq; split_and!; [done|done|]].
  - destruct l as [|c l]; [done|]. cbn [app] in *. injection El as <- El.
    apply (dpath_ext nx pv); [| |exact H1]; intros d Hd; apply upd_ne; intros ->.
    + rewrite El in Hnu. change (BHead :: l ++ [p]) with ((BHead :: l) ++ [p]) in Hnu.
      apply NoDup_app in Hnu as (_ & Hnu & _). apply (Hnu p Hd). by left.
    + rewrite <- El in Hd. assert (n ∈ nodes v ++ [BHead]) as Hn by (rewrite Et; by left).
      apply elem_of_app in Hn as [Hn|E%list_elem_of_singleton]; [|rewrite E in Hd; by apply head_not_node in Hd].
      destruct n as [|n]; [by apply head_not_node in Hd|]. apply elem_of_nodes in Hd, Hn. by apply (Hcv n).
  - destruct v as [|e v]; cbn [nodes fmap list_fmap app] in Et; injection Et as <- <-; [done|]. fold (nodes v) in *.
    apply NoDup_cons in Hv as [He Hv].
    apply (dpath_ext nx pv); [| |exact H2]; intros d Hd; apply upd_ne; intros ->.
    + change (BBuf e :: nodes v) with (nodes (e :: v)) in Hd.
      destruct Hp as [->|Hp]; [by apply head_not_node in Hd|]. destruct p as [|p]; [by apply head_not_node in Hd|].
      apply elem_of_nodes in Hd, Hp. by apply (Hcv p).
    + apply elem_of_app in Hd as [Hd|Hd%list_elem_of_singleton]; [|done]. by apply elem_of_nodes in Hd.
Qed.

(** ** The list in memory *)

Definition nxt (f : fsys) (l : blink) : blink :=
  match l with BHead => bhead_next f | BBuf i => default BHead (b_next <$> bufs f !! i) end.
Definition prv (f : fsys) (l : blink) : blink :=
  match l with BHead => bhead_prev f | BBuf i => default BHead (b_prev <$> bufs f !! i) end.

(** The buffers, most recently released first. *)
Record lru (f : fsys) (order : list nat) : Prop := {
  lru_cycle : cycle (nxt f) (prv f) order;
  lru_nodup : NoDup order;
  lru_all : forall b, b ∈ order <-> (b < NBUF)%nat;
  lru_len : length (bufs f) = NBUF
}.

Lemma dpath_pointwise (nx pv nx' pv' : blink -> blink) l :
  (forall a, nx' a = nx a) -> (forall a, pv' a = pv a) -> dpath nx pv l -> dpath nx' pv' l.
Proof.
  intros H1 H2. induction l as [|a l IH]; [done|]. destruct l as [|b l]; [done|]. intros (E1 & E2 & H).
  split_and!; [by rewrite H1|by rewrite H2|by apply IH].
Qed.

(** *** Assignments to the pointers *)

Definition put_next (l v : blink) (f : fsys) : fsys :=
  match l with BHead => set_bhead_next v f | BBuf i => set_bufs (alter (set_b_next v) i (bufs f)) f end.
Definition put_prev (l v : blink) (f : fsys) : fsys :=
  match l with BHead => set_bhead_prev v f | BBuf i => set_bufs (alter (set_b_prev v) i (bufs f)) f end.
Definition valid_link (f : fsys) (l : blink) : Prop := match l with BHead => True | BBuf i => (i < length (bufs f))%nat end.

Lemma nxt_put_next f l v a : valid_link f l -> nxt (put_next l v f) a = upd (nxt f) l v a.
Proof.
  intros Hl. unfold upd. destruct l as [|i], a as [|j]; cbn; try done.
  destruct (decide (BBuf j = BBuf i)) as [[= ->]|Hne].
  - rewrite list_lookup_alter_eq. destruct (lookup_lt_is_Some_2 (bufs f) i Hl) as [x ->]. done.
  - by rewrite list_lookup_alter_ne by congruence.
Qed.
Lemma prv_put_prev f l v a : valid_link f l -> prv (put_prev l v f) a = upd (prv f) l v a.
Proof.
  intros Hl. unfold upd. destruct l as [|i], a as [|j]; cbn; try done.
  destruct (decide (BBuf j = BBuf i)) as [[= ->]|Hne].
  - rewrite list_lookup_alter_eq. destruct (lookup_lt_is_Some_2 (bufs f) i Hl) as [x ->]. done.
  - by rewrite list_lookup_alter_ne by congruence.
Qed.
Lemma alter_field {A} (g : buf -> A) (h : buf -> buf) i j (l : list buf) :
  (forall x, g (h x) = g x) -> g <$> alter h i l !! j = g <$> l !! j.
Proof.
  intros H. destruct (decide (i = j)) as [->|].
  - rewrite list_lookup_alter_eq. destruct (l !! j); cbn; [by rewrite H|done].
  - by rewrite list_lookup_alter_ne.
Qed.
Lemma prv_put_next f l v a : prv (put_next l v f) a = prv f a.
Proof. destruct l as [|i], a as [|j]; cbn; try done. by rewrite (alter_field b_prev). Qed.
Lemma nxt_put_prev f l v a : nxt (put_prev l v f) a = nxt f a.
Proof. destruct l as [|i], a as [|j]; cbn; try done. by rewrite (alter_field b_next). Qed.

(** Everything but the pointers. *)
Definition unlinked (x : buf) : buf := set_b_prev BHead (set_b_next BHead x).
Record relinked (f f' : fsys) : Prop := {
  rl_bufs : unlinked <$> bufs f' = unlinked <$> bufs f;
  rl_rest : f' = set_bufs (bufs f') (set_bhead_prev (bhead_prev f') (set_bhead_next (bhead_next f') f))
}.

Lemma relinked_refl f : relinked f f.
Proof. split; [done|]. by destruct f. Qed.
Lemma relinked_trans f1 f2 f3 : relinked f1 f2 -> relinked f2 f3 -> relinked f1 f3.
Proof. intros [H1 H2] [H3 H4]. split; [congruence|]. rewrite H4 at 1. rewrite H2. done. Qed.
Lemma unlinked_alter h i (l : list buf) :
  (forall x, unlinked (h x) = unlinked x) -> unlinked <$> alter h i l = unlinked <$> l.
Proof.
  intros H. apply list_eq. intros j. rewrite !list_lookup_fmap. by apply alter_field.
Qed.
Lemma relinked_put_next f l v : relinked f (put_next l v f).
Proof. destruct l; (split; [|by destruct f]); cbn; [done|]. by apply unlinked_alter. Qed.
Lemma relinked_put_prev f l v : relinked f (put_prev l v f).
Proof. destruct l; (split; [|by destruct f]); cbn; [done|]. by apply unlinked_alter. Qed.
Lemma relinked_length f f' : relinked f f' -> length (bufs f') = length (bufs f).
Proof. intros [H _]. apply (f_equal length) in H. by rewrite !length_fmap in H. Qed.
Lemma relinked_buf f f' b x : relinked f f' -> bufs f !! b = Some x ->
  exists x', bufs f' !! b = Some x' /\ unlinked x' = unlinked x.
Proof.
  intros [H _] Hx. apply (f_equal (fun l => l !! b)) in H. rewrite !list_lookup_fmap, Hx in H.
  destruct (bufs f' !! b) as [x'|]; [|done]. apply (inj Some) in H. by exists x'.
Qed.

(** *** Searching *)

Fixpoint first_such (p : nat -> bool) (l : list nat) : option nat :=
  match l with [] => None | b :: l' => if p b then Some b else first_such p l' end.

Lemma first_such_Some p l b :
  first_such p l = Some b -> p b = true /\ exists l1 l2, l = l1 ++ b :: l2 /\ Forall (fun c => p c = false) l1.
Proof.
  induction l as [|c l IH]; [done|]. cbn. destruct (p c) eqn:E.
  - intros [= ->]. split; [done|]. by exists [], l.
  - intros H. destruct (IH H) as (? & l1 & l2 & -> & ?). split; [done|]. exists (c :: l1), l2. split; [done|]. by constructor.
Qed.
Lemma first_such_None p l : first_such p l = None <-> Forall (fun c => p c = false) l.
Proof.
  induction l as [|c l IH]; [done|]. cbn. destruct (p c) eqn:E.
  - split; [done|]. intros H. inversion H. congruence.
  - rewrite IH. split; [by constructor|]. by inversion 1.
Qed.

Definition holds_block (f : fsys) (dev n : Z) (b : nat) : bool :=
  match bufs f !! b with Some x => (b_dev x =? dev) && (b_blockno x =? n) | None => false end.
Definition unused_buf (f : fsys) (b : nat) : bool :=
  match bufs f !! b with Some x => b_refcnt x =? 0 | None => false end.

Section searching.
Implicit Types (k : kst fsys) (f : fsys) (hl : list lockid).

Lemma find_cached_run fuel suf dev n hl f k :
  (length suf < fuel)%nat -> (forall b, b ∈ suf -> (b < length (bufs f))%nat) ->
  dpath (nxt f) (prv f) (nodes suf ++ [BHead]) ->
  find_cached fuel (default BHead (nodes suf !! 0%nat)) dev n (mk_st hl (set_files f k)) =
    Ret (first_such (holds_block f dev n) suf) (mk_st hl (set_files f k)).
Proof.
  revert fuel. induction suf as [|b suf IH]; intros fuel Hf Hv Hd; (destruct fuel as [|fuel]; [cbn in Hf; lia|]); [done|].
  change (default BHead (nodes (b :: suf) !! 0%nat)) with (BBuf b). cbn [find_cached first_such].
  destruct (lookup_lt_is_Some_2 (bufs f) b (Hv b ltac:(by left))) as [x Hx].
  apply wp_ret_eq. wp_step. apply (wp_get_buf b x); [done|]. unfold holds_block at 1. rewrite Hx.
  case_match; [by apply wp_ret|].
  assert (b_next x = default BHead (nodes suf !! 0%nat) /\ dpath (nxt f) (prv f) (nodes suf ++ [BHead])) as [-> Hd'].
  { cbn [nodes fmap list_fmap app] in Hd. fold (nodes suf) in Hd.
    destruct suf as [|c suf]; cbn in *; rewrite Hx in Hd; cbn in Hd; tauto. }
  eapply wp_eq; [apply IH; [cbn in Hf; lia|intros c Hc; apply Hv; by right|done]|done].
Qed.

Lemma find_unused_run fuel pre hl f k :
  (length pre < fuel)%nat -> (forall b, b ∈ pre -> (b < length (bufs f))%nat) ->
  dpath (nxt f) (prv f) (BHead :: nodes pre) ->
  find_unused_buf fuel (default BHead (last (nodes pre))) (mk_st hl (set_files f k)) =
    Ret (first_such (unused_buf f) (rev pre)) (mk_st hl (set_files f k)).
Proof.
  revert fuel. induction pre as [|b pre IH] using rev_ind; intros fuel Hf Hv Hd; (destruct fuel as [|fuel]; [cbn in Hf; lia|]); [done|].
  rewrite length_app in Hf. cbn in Hf. unfold nodes in *. rewrite fmap_app in *. cbn [fmap list_fmap] in *. fold (nodes pre) in *.
  rewrite last_snoc, rev_app_distr. change (default BHead (Some (BBuf b))) with (BBuf b). cbn [rev app find_unused_buf first_such].
  destruct (lookup_lt_is_Some_2 (bufs f) b) as [x Hx]; [apply Hv, elem_of_app; right; by left|].
  apply wp_ret_eq. wp_step. apply (wp_get_buf b x); [done|]. unfold unused_buf at 1. rewrite Hx.
  case_match; [by apply wp_ret|].
  assert (b_prev x = default BHead (last (nodes pre)) /\ dpath (nxt f) (prv f) (BHead :: nodes pre)) as [-> Hd'].
  { destruct (nodes pre) as [|c t] eqn:E using rev_ind; [cbn in *; rewrite Hx in Hd; cbn in Hd; tauto|].
    rewrite last_snoc. rewrite <- app_assoc in Hd. cbn [app] in Hd.
    change (BHead :: t ++ [c; BBuf b]) with ((BHead :: t) ++ c :: [BBuf b]) in Hd.
    apply dpath_app in Hd as [Hd (_ & Hp & _)]. cbn in Hp. rewrite Hx in Hp. done. }
  eapply wp_eq; [apply IH; [lia|intros c Hc; apply Hv, elem_of_app; by left|done]|done].
Qed.
End searching.

(** *** Moving a buffer to the front *)

Lemma cycle_neighbours nx pv u b v :
  cycle nx pv (u ++ b :: v) ->
  nx (BBuf b) = default BHead (nodes v !! 0%nat) /\ pv (BBuf b) = default BHead (last (nodes u)).
Proof.
  unfold cycle, nodes. rewrite fmap_app. cbn [fmap list_fmap]. fold (nodes u) (nodes v). rewrite <- app_assoc. cbn [app].
  change (BHead :: nodes u ++ BBuf b :: nodes v ++ [BHead]) with ((BHead :: nodes u) ++ BBuf b :: nodes v ++ [BHead]).
  intros [H1 H2]%dpath_app. split.
  - destruct (nodes v); cbn in *; tauto.
  - destruct (nodes u) as [|c t] using rev_ind; [cbn in *; tauto|]. rewrite last_snoc.
    change ((BHead :: t ++ [c]) ++ [BBuf b]) with (BHead :: (t ++ [c]) ++ [BBuf b]) in H1. rewrite <- app_assoc in H1.
    change (BHead :: t ++ [c] ++ [BBuf b]) with ((BHead :: t) ++ c :: [BBuf b]) in H1.
    apply dpath_app in H1 as [_ (_ & H & _)]. done.
Qed.

Lemma node_valid f order l :
  lru f order -> l = BHead \/ l ∈ nodes order -> valid_link f l.
Proof.
  intros [_ _ Ha Hl] [->|H]; [done|]. destruct l as [|i]; [done|]. cbn. rewrite Hl. by apply Ha, elem_of_nodes.
Qed.

Lemma head_link u : default BHead (nodes u !! 0%nat) = BHead \/ default BHead (nodes u !! 0%nat) ∈ nodes u.
Proof. destruct u as [|c u]; [by left|right]. by left. Qed.
Lemma last_link u : default BHead (last (nodes u)) = BHead \/ default BHead (last (nodes u)) ∈ nodes u.
Proof.
  destruct (nodes u) as [|c t] using rev_ind; [by left|right]. rewrite last_snoc. apply elem_of_app. right. by left.
Qed.

Section moving.
Implicit Types (k : kst fsys) (f : fsys) (hl : list lockid).

Lemma wp_set_next l v hl f k (Q : unit -> st (kst fsys) -> Prop) :
  Q tt (mk_st hl (set_files (put_next l v f) k)) -> wp (set_next l v) Q (mk_st hl (set_files f k)).
Proof. destruct l; by intros H; apply wp_fs_modify. Qed.
Lemma wp_set_prev l v hl f k (Q : unit -> st (kst fsys) -> Prop) :
  Q tt (mk_st hl (set_files (put_prev l v f) k)) -> wp (set_prev l v) Q (mk_st hl (set_files f k)).
Proof. destruct l; by intros H; apply wp_fs_modify. Qed.
Lemma wp_next_head hl f k (Q : blink -> st (kst fsys) -> Prop) :
  Q (nxt f BHead) (mk_st hl (set_files f k)) -> wp (next_of BHead) Q (mk_st hl (set_files f k)).
Proof. exact (wp_fs_gets bhead_next hl f k Q). Qed.

(** The links of a buffer, read from memory. *)
Lemma buf_links f b x : bufs f !! b = Some x -> nxt f (BBuf b) = b_next x /\ prv f (BBuf b) = b_prev x.
Proof. intros H. cbn. by rewrite H. Qed.

(** The six assignments of [brelse]. *)
Definition unlink1 (b : nat) f : fsys := put_prev (nxt f (BBuf b)) (prv f (BBuf b)) f.
Definition unlink2 (b : nat) f : fsys := put_next (prv f (BBuf b)) (nxt f (BBuf b)) f.
Definition push1 (b : nat) f : fsys := put_prev (BBuf b) BHead (put_next (BBuf b) (nxt f BHead) f).
Definition push2 (b : nat) f : fsys := put_next BHead (BBuf b) (put_prev (nxt f BHead) (BBuf b) f).
Definition to_front (b : nat) f : fsys := push2 b (push1 b (unlink2 b (unlink1 b f))).

Lemma to_front_relinked b f : relinked f (to_front b f).
Proof.
  unfold to_front, push2, push1, unlink2, unlink1.
  repeat first [apply relinked_put_next | apply relinked_put_prev |
    eapply relinked_trans; [|apply relinked_put_next] | eapply relinked_trans; [|apply relinked_put_prev]].
Qed.

Lemma relinked_valid f f' l : relinked f f' -> valid_link f l -> valid_link f' l.
Proof. intros R. destruct l; cbn; [done|]. by rewrite (relinked_length _ _ R). Qed.

(** The pointers after the six assignments. *)
Lemma to_front_links b f n p :
  nxt f (BBuf b) = n -> prv f (BBuf b) = p -> n <> BBuf b -> p <> BBuf b ->
  valid_link f n -> valid_link f p -> valid_link f (BBuf b) -> valid_link f (upd (nxt f) p n BHead) ->
  let h := upd (nxt f) p n BHead in
  (forall a, nxt (to_front b f) a = upd (upd (upd (nxt f) p n) (BBuf b) h) BHead (BBuf b) a) /\
  (forall a, prv (to_front b f) a = upd (upd (upd (prv f) n p) (BBuf b) BHead) h (BBuf b) a).
Proof.
  intros En Ep Nn Np Vn Vp Vb Vh h. unfold to_front.
  assert (unlink2 b (unlink1 b f) = put_next p n (put_prev n p f)) as ->.
  { unfold unlink2, unlink1. rewrite En, Ep, prv_put_prev, nxt_put_prev by done. rewrite upd_ne by congruence. by rewrite En, Ep. }
  set (f1 := put_prev n p f). assert (relinked f f1) as R1 by apply relinked_put_prev.
  set (f2 := put_next p n f1). assert (relinked f f2) as R2 by (eapply relinked_trans; [exact R1|apply relinked_put_next]).
  assert (forall a, nxt f2 a = upd (nxt f) p n a) as N2.
  { intros a. unfold f2. rewrite nxt_put_next by (by eapply relinked_valid). unfold upd, f1. by rewrite nxt_put_prev. }
  assert (forall a, prv f2 a = upd (prv f) n p a) as P2.
  { intros a. unfold f2. rewrite prv_put_next. unfold f1. by rewrite prv_put_prev. }
  unfold push1. rewrite (N2 BHead). fold h. set (f3 := put_next (BBuf b) h f2).
  assert (relinked f f3) as R3 by (eapply relinked_trans; [exact R2|apply relinked_put_next]).
  set (f4 := put_prev (BBuf b) BHead f3).
  assert (relinked f f4) as R4 by (eapply relinked_trans; [exact R3|apply relinked_put_prev]).
  assert (forall a, nxt f4 a = upd (upd (nxt f) p n) (BBuf b) h a) as N4.
  { intros a. unfold f4. rewrite nxt_put_prev. unfold f3. rewrite nxt_put_next by (by eapply relinked_valid).
    unfold upd at 1 2. by rewrite N2. }
  assert (forall a, prv f4 a = upd (upd (prv f) n p) (BBuf b) BHead a) as P4.
  { intros a. unfold f4. rewrite prv_put_prev by (by eapply relinked_valid). unfold upd at 1 2, f3. by rewrite prv_put_next, P2. }
  unfold push2. rewrite (N4 BHead), upd_ne by done. fold h. set (f5 := put_prev h (BBuf b) f4).
  split; intros a.
  - rewrite nxt_put_next by done. unfold upd at 1 2, f5. by rewrite nxt_put_prev, N4.
  - rewrite prv_put_next. unfold f5. rewrite prv_put_prev by (by eapply relinked_valid). unfold upd at 1 2. by rewrite P4.
Qed.

Lemma to_front_lru b f u v :
  lru f (u ++ b :: v) -> lru (to_front b f) (b :: u ++ v).
Proof.
  intros H. pose proof H as [Hc Hn Ha Hl]. destruct (cycle_neighbours _ _ _ _ _ Hc) as [En Ep].
  assert ((b ∉ u ++ v) /\ NoDup (u ++ v)) as [Hb Hn'].
  { apply NoDup_app in Hn as (Hu & Huv & [Hb Hv]%NoDup_cons). split.
    - intros [F|F]%elem_of_app; [|done]. apply (Huv b F). by left.
    - apply NoDup_app. split_and!; [done| |done]. intros c F1 F2. apply (Huv c F1). by right. }
  assert (forall l, l = BHead \/ l ∈ nodes (u ++ v) -> valid_link f l /\ l <> BBuf b) as Hv.
  { intros l Hlk. split.
    - apply (node_valid f (u ++ b :: v)); [done|]. destruct Hlk as [->|F]; [by left|right].
      unfold nodes in *. rewrite fmap_app in *. apply elem_of_app in F as [F|F]; apply elem_of_app; [by left|right; by right].
    - intros ->. destruct Hlk as [?|F]; [done|]. by apply elem_of_nodes in F. }
  destruct (Hv (nxt f (BBuf b))) as [Vn Nn].
  { rewrite En. destruct (head_link v) as [->|F]; [by left|right]. unfold nodes in *. rewrite fmap_app. apply elem_of_app. by right. }
  destruct (Hv (prv f (BBuf b))) as [Vp Np].
  { rewrite Ep. destruct (last_link u) as [->|F]; [by left|right]. unfold nodes in *. rewrite fmap_app. apply elem_of_app. by left. }
  pose proof (cycle_remove _ _ _ _ _ Hn Hc) as Hc1.
  set (n := nxt f (BBuf b)) in *. set (p := prv f (BBuf b)) in *.
  assert (NoDup (b :: u ++ v)) as Hnd by (by constructor).
  pose proof (cycle_push _ _ _ b Hnd Hc1) as Hc2.
  set (h := upd (nxt f) p n BHead) in *.
  assert (valid_link f h) as Vh.
  { apply Hv. unfold h. rewrite (cycle_first _ _ _ Hc1). apply head_link. }
  assert (b < NBUF)%nat as Hbn by (apply Ha, elem_of_app; right; by left).
  destruct (to_front_links b f n p) as [L1 L2]; [done..|cbn; by rewrite Hl|done|].
  split; [|done| |].
  - apply (dpath_pointwise _ _ _ _ _ L1 L2). exact Hc2.
  - intros c. rewrite <- Ha. rewrite !elem_of_cons, !elem_of_app, elem_of_cons. tauto.
  - by rewrite (relinked_length _ _ (to_front_relinked b f)).
Qed.

Lemma wp_push_front b hl f k (Q : unit -> st (kst fsys) -> Prop) :
  Q tt (mk_st hl (set_files (push2 b (push1 b f)) k)) -> wp (push_front b) Q (mk_st hl (set_files f k)).
Proof.
  intros HQ. unfold push_front. wp_step. apply wp_next_head. wp_step. apply wp_set_next. wp_step. apply wp_set_prev.
  wp_step. apply wp_next_head. wp_step. apply wp_set_prev. by apply wp_set_next.
Qed.

Lemma wp_to_front b x hl f k (Q : unit -> st (kst fsys) -> Prop) :
  bufs f !! b = Some x -> Q tt (mk_st hl (set_files (to_front b f) k)) ->
  wp (set_prev (b_next x) (b_prev x) ;; x <- get_buf b ;; set_next (b_prev x) (b_next x) ;; push_front b) Q
    (mk_st hl (set_files f k)).
Proof.
  intros Hx HQ. destruct (buf_links f b x Hx) as [En Ep].
  assert (put_prev (b_next x) (b_prev x) f = unlink1 b f) as E1 by (unfold unlink1; by rewrite En, Ep).
  wp_step. apply wp_set_prev. rewrite E1.
  destruct (relinked_buf f (unlink1 b f) b x (relinked_put_prev _ _ _) Hx) as (x' & Hx' & _).
  destruct (buf_links _ b x' Hx') as [En' Ep'].
  wp_step. apply (wp_get_buf b x'); [done|]. wp_step. apply wp_set_next. rewrite <- En', <- Ep'.
  by apply wp_push_front.
Qed.
End moving.
