(* ===== verification/BioProofs.v ===== *)
(** * The buffer cache as a view of the disk

    The cache is abstracted to three maps: the medium, the blocks in use with
    their reference counts and contents, and the buffers held locked.  Each
    operation of bio.c is specified on that abstraction, together with the
    rest of the machine. *)

From S2P Require Import Prelude Spinlock Riscv Kalloc Vm Queue PriorityQueue KString Proc ProcProofs ProcLife FsState FsBytes Env Sleeplock Virtio World VirtioProofs Bio Lru.

(** ** Sleep-locks without contention *)

Section sleeplocks.
Context {waits : Waits}.
Implicit Types (k : kst fsys) (f : fsys) (hl : list lockid).

Lemma wp_get_sl l v hl f k (Q : sleeplock -> st (kst fsys) -> Prop) :
  slocks f !! l = Some v -> Q v (mk_st hl (set_files f k)) -> wp (get_sl l) Q (mk_st hl (set_files f k)).
Proof. exact (wp_fs_deref (fun s => slocks s !! l) v hl f k Q). Qed.
Lemma wp_set_sl l v hl f k (Q : unit -> st (kst fsys) -> Prop) :
  Q tt (mk_st hl (set_files (set_slocks (<[l := v]> (slocks f)) f) k)) ->
  wp (set_sl l v) Q (mk_st hl (set_files f k)).
Proof. apply wp_fs_modify. Qed.

Lemma wp_acquiresleep l v i p hl f k (Q : unit -> st (kst fsys) -> Prop) :
  (sl_lk l ∉ hl) -> slocks f !! l = Some v -> sl_locked v = 0 -> cur k = Some i -> procs k !! i = Some p ->
  Q tt (mk_st hl (set_files (set_slocks (<[l := mk_sleeplock 1 (pid p)]> (slocks f)) f) k)) ->
  wp (acquiresleep l) Q (mk_st hl (set_files f k)).
Proof.
  intros Hh Hl Hv Hc Hp HQ. unfold acquiresleep. wp_step. apply wp_acquire; [done|].
  wp_step. cbn [acquiresleep_loop]. wp_step. apply (wp_get_sl l v); [done|]. rewrite Hv. apply wp_ret.
  wp_step. apply (wp_my i); [done|]. wp_step. apply (wp_get_proc i p); [done|].
  wp_step. apply wp_set_sl. by apply wp_release_head.
Qed.

Lemma wp_holdingsleep l v i p hl f k (Q : bool -> st (kst fsys) -> Prop) :
  (sl_lk l ∉ hl) -> slocks f !! l = Some v -> cur k = Some i -> procs k !! i = Some p ->
  Q (negb (sl_locked v =? 0) && (sl_pid v =? pid p)) (mk_st hl (set_files f k)) ->
  wp (holdingsleep l) Q (mk_st hl (set_files f k)).
Proof.
  intros Hh Hl Hc Hp HQ. unfold holdingsleep. wp_step. apply wp_acquire; [done|].
  wp_step. apply (wp_get_sl l v); [done|]. wp_step. destruct (sl_locked v =? 0).
  - apply wp_ret. wp_step. apply wp_release_head; [done|]. by apply wp_ret.
  - wp_step. apply (wp_my i); [done|]. wp_step. apply (wp_get_proc i p); [done|]. apply wp_ret.
    wp_step. apply wp_release_head; [done|]. by apply wp_ret.
Qed.

Lemma wp_releasesleep l hl f k (Q : unit -> st (kst fsys) -> Prop) :
  (sl_lk l ∉ hl) -> (forall j, LkProc j ∉ hl) -> calm k ->
  Q tt (mk_st hl (set_files (set_slocks (<[l := mk_sleeplock 0 0]> (slocks f)) f) k)) ->
  wp (releasesleep l) Q (mk_st hl (set_files f k)).
Proof.
  intros Hh Hp Hc HQ. unfold releasesleep. wp_step. apply wp_acquire; [done|].
  wp_step. apply wp_set_sl. wp_step. apply wp_wakeup_calm; [done|done| |].
  - intros j [E|E]%elem_of_cons; [done|by apply (Hp j)].
  - by apply wp_release_head.
Qed.
End sleeplocks.

(** ** The abstraction *)

(** The medium; the blocks in use, with the number of references and the
    contents; the buffer of each block held locked. *)
Record bstate : Type := mk_bst {
  bD : gmap Z (list Z);
  bR : gmap Z (nat * list Z);
  bH : gmap Z nat
}.

(** References and contents of a block: those of the medium when unused. *)
Definition block_of (x : bstate) (n : Z) : nat * list Z := default (0%nat, blk (bD x) n) (bR x !! n).
(** The contents of a block as the file system sees it. *)
Definition view (x : bstate) (n : Z) : list Z := snd (block_of x n).

Section rep.
Context (dev pid0 : Z).

Record buf_ok (x : bstate) (y : buf) : Prop := {
  bo_len : length (b_data y) = Z.to_nat BSIZE;
  bo_free : b_refcnt y = 0 -> b_dev y = dev -> b_valid y <> 0 -> b_data y = blk (bD x) (b_blockno y);
  bo_used : b_refcnt y <> 0 -> b_dev y = dev /\ b_valid y <> 0 /\ 0 < b_refcnt y < 2 ^ 32 /\
              bR x !! b_blockno y = Some (Z.to_nat (b_refcnt y), b_data y)
}.

Record cache_rep (f : fsys) (x : bstate) : Prop := {
  cr_order : exists order, lru f order;
  cr_idle : driver_idle (dk f);
  cr_medium : medium (dk f) = bD x;
  cr_blocks : forall n d, bD x !! n = Some d -> length d = Z.to_nat BSIZE;
  cr_bufs : forall b y, bufs f !! b = Some y -> buf_ok x y;
  cr_uniq : forall b b' y y', bufs f !! b = Some y -> bufs f !! b' = Some y' ->
              b_dev y = dev -> b_dev y' = dev -> b_blockno y = b_blockno y' -> b = b';
  cr_refs : forall n r d, bR x !! n = Some (r, d) -> (0 < r)%nat /\ 0 <= n < 2 ^ 31 /\
              exists b y, bufs f !! b = Some y /\ b_dev y = dev /\ b_blockno y = n /\ b_refcnt y = Z.of_nat r;
  cr_slen : length (slocks f) = (NBUF + NINODE)%nat;
  cr_locked : forall n b, bH x !! n = Some b -> slocks f !! b = Some (mk_sleeplock 1 pid0);
  cr_unlocked : forall b, (b < NBUF)%nat -> (forall n, bH x !! n <> Some b) ->
              exists v, slocks f !! b = Some v /\ sl_locked v = 0;
  cr_held : forall n b, bH x !! n = Some b -> is_Some (bR x !! n) /\
              exists y, bufs f !! b = Some y /\ b_dev y = dev /\ b_blockno y = n
}.
End rep.

(** The parts of the file layer that the cache does not touch. *)
Record same_rest (f f' : fsys) : Prop := {
  sr_lg : lg f' = lg f;
  sr_sb : sb f' = sb f;
  sr_itable : itable f' = itable f;
  sr_ftable : ftable f' = ftable f;
  sr_dev : devsw f' = devsw f /\ console f' = console f /\ uart f' = uart f /\ hw f' = hw f /\ first f' = first f;
  sr_slocks : forall j, (NBUF <= j)%nat -> slocks f' !! j = slocks f !! j
}.
Lemma same_rest_refl f : same_rest f f.
Proof. done. Qed.
Lemma same_rest_trans f1 f2 f3 : same_rest f1 f2 -> same_rest f2 f3 -> same_rest f1 f3.
Proof.
  intros [A1 A2 A3 A4 (A5 & A6 & A7 & A8 & A9) A10] [B1 B2 B3 B4 (B5 & B6 & B7 & B8 & B9) B10].
  split; [congruence..|split_and!; congruence|]. intros j Hj. by rewrite B10, A10.
Qed.
Lemma relinked_rest f f' : relinked f f' -> same_rest f f' /\ slocks f' = slocks f /\ dk f' = dk f.
Proof. intros [_ ->]. done. Qed.

(** A change of one buffer's links does not matter to the rest. *)
Lemma unlinked_fields y y' : unlinked y' = unlinked y ->
  b_valid y' = b_valid y /\ b_disk y' = b_disk y /\ b_dev y' = b_dev y /\ b_blockno y' = b_blockno y /\
  b_refcnt y' = b_refcnt y /\ b_data y' = b_data y.
Proof. destruct y, y'. unfold unlinked. cbn. intros [=]. subst. done. Qed.

(** Changing one buffer, its links apart, keeps the list. *)
Lemma nxt_changed f b y y' d l a :
  bufs f !! b = Some y -> b_next y' = b_next y -> b_prev y' = b_prev y ->
  let f' := set_slocks l (set_bufs (<[b := y']> (bufs f)) (set_dk d f)) in
  nxt f' a = nxt f a /\ prv f' a = prv f a.
Proof.
  intros Hb H1 H2 f'. destruct a as [|j]; [done|]. cbn. destruct (decide (j = b)) as [->|].
  - rewrite list_lookup_insert_eq, Hb by (by eapply lookup_lt_Some). cbn. by rewrite H1, H2.
  - by rewrite list_lookup_insert_ne.
Qed.
Lemma lru_changed f b y y' d l order :
  bufs f !! b = Some y -> b_next y' = b_next y -> b_prev y' = b_prev y -> lru f order ->
  lru (set_slocks l (set_bufs (<[b := y']> (bufs f)) (set_dk d f))) order.
Proof.
  intros Hb H1 H2 [Hc Hn Ha Hl]. split; [|done|done|cbn; by rewrite length_insert].
  eapply dpath_pointwise; [..|exact Hc]; intros a; by eapply nxt_changed.
Qed.

Section rep_lemmas.
Context (dev pid0 : Z).
Implicit Types (f : fsys) (x : bstate) (y z : buf).
Abbreviation rep := (cache_rep dev pid0).

Lemma rep_buf_lt f x b y : rep f x -> bufs f !! b = Some y -> (b < NBUF)%nat.
Proof. intros H Hb. destruct (cr_order _ _ _ _ H) as [o Ho]. rewrite <- (lru_len _ _ Ho). by eapply lookup_lt_Some. Qed.
Lemma rep_buf f x b : rep f x -> (b < NBUF)%nat -> exists y, bufs f !! b = Some y.
Proof. intros H Hb. destruct (cr_order _ _ _ _ H) as [o Ho]. apply lookup_lt_is_Some_2. by rewrite (lru_len _ _ Ho). Qed.

(** The buffer of a block in use. *)
Record in_use f x (n : Z) (b : nat) (y : buf) (r : nat) (d : list Z) : Prop := {
  iu_buf : bufs f !! b = Some y;
  iu_dev : b_dev y = dev;
  iu_no : b_blockno y = n;
  iu_cnt : b_refcnt y = Z.of_nat r;
  iu_data : b_data y = d;
  iu_valid : b_valid y <> 0;
  iu_pos : (0 < r)%nat /\ Z.of_nat r < 2 ^ 32;
  iu_range : 0 <= n < 2 ^ 31;
  iu_len : length d = Z.to_nat BSIZE
}.
Lemma ref_in_use f x n r d : rep f x -> bR x !! n = Some (r, d) -> exists b y, in_use f x n b y r d.
Proof.
  intros H Hn. destruct (cr_refs _ _ _ _ H _ _ _ Hn) as (Hr & Hrg & b & y & Hb & Hd & Hno & Hc).
  destruct (cr_bufs _ _ _ _ H _ _ Hb) as [Hlen _ Hu]. destruct Hu as (_ & Hv & Hp & HR); [lia|].
  rewrite Hno, Hn, Hc in HR. injection HR as HR1 HR2. exists b, y. split; try done; try lia. by rewrite HR2.
Qed.
Lemma held_in_use f x n b : rep f x -> bH x !! n = Some b -> exists y r d, bR x !! n = Some (r, d) /\ in_use f x n b y r d.
Proof.
  intros H Hn. destruct (cr_held _ _ _ _ H _ _ Hn) as ([[r d] HR] & y & Hb & Hd & Hno).
  destruct (ref_in_use f x n r d H HR) as (b' & y' & U).
  assert (b = b') as <-. { eapply (cr_uniq _ _ _ _ H); [exact Hb|apply U|done|apply U|]. rewrite Hno. symmetry. apply U. }
  exists y', r, d. done.
Qed.
Lemma in_use_unique f x n b y r d b' z : rep f x -> in_use f x n b y r d -> b' <> b ->
  bufs f !! b' = Some z -> b_dev z = dev -> b_blockno z <> n.
Proof.
  intros H U Hne Hz Hd Hno. apply Hne. eapply (cr_uniq _ _ _ _ H); [exact Hz|apply U|done|apply U|].
  rewrite Hno. symmetry. apply U.
Qed.

(** A change that concerns one buffer, one block and one lock. *)
Record one_block_change f x (b : nat) (y y' : buf) (n : Z) (d' : disk) (l' : list sleeplock) (x' : bstate) : Prop := {
  ob_buf : bufs f !! b = Some y;
  ob_links : b_next y' = b_next y /\ b_prev y' = b_prev y;
  ob_disk : driver_idle d' /\ medium d' = bD x';
  ob_dev : b_dev y' = dev /\ b_blockno y' = n;
  ob_ok : buf_ok dev x' y';
  ob_others : forall b' z, b' <> b -> bufs f !! b' = Some z -> b_dev z = dev -> b_blockno z <> n;
  ob_was : b_refcnt y <> 0 -> b_blockno y = n;
  ob_maps : forall m, m <> n -> bD x' !! m = bD x !! m /\ bR x' !! m = bR x !! m /\ bH x' !! m = bH x !! m;
  ob_block : forall e, bD x' !! n = Some e -> length e = Z.to_nat BSIZE;
  ob_refs : forall r d, bR x' !! n = Some (r, d) -> (0 < r)%nat /\ 0 <= n < 2 ^ 31 /\ b_refcnt y' = Z.of_nat r;
  ob_len : length l' = length (slocks f);
  ob_locks : forall b', b' <> b -> l' !! b' = slocks f !! b';
  ob_lock : match bH x' !! n with
            | Some b' => b' = b /\ l' !! b = Some (mk_sleeplock 1 pid0) /\ is_Some (bR x' !! n)
            | None => exists v, l' !! b = Some v /\ sl_locked v = 0
            end
}.

Lemma rep_one_block f x b y y' n d' l' x' :
  rep f x -> one_block_change f x b y y' n d' l' x' ->
  rep (set_slocks l' (set_bufs (<[b := y']> (bufs f)) (set_dk d' f))) x'.
Proof.
  intros H [Hb [L1 L2] [I1 I2] [D1 D2] Hok Ho Hw Hm He Hr Hl Hls Hlk].
  assert (b < length (bufs f))%nat as Hlt by (by eapply lookup_lt_Some).
  assert (forall b' z, b' <> b -> bufs f !! b' = Some z -> b_dev z = dev -> b_blockno z <> n) as Ho' by done.
  assert (forall m c, m <> n -> bH x !! m = Some c -> c <> b) as Hhb.
  { intros m c Hne Hc ->. destruct (held_in_use f x m b H Hc) as (w & r & d & _ & U).
    assert (w = y) as -> by (pose proof (iu_buf _ _ _ _ _ _ _ U); congruence).
    apply Hne. rewrite <- (iu_no _ _ _ _ _ _ _ U). apply Hw. rewrite (iu_cnt _ _ _ _ _ _ _ U).
    pose proof (iu_pos _ _ _ _ _ _ _ U). lia. }
  split; cbn [set_slocks set_bufs set_dk bufs slocks dk].
  - destruct (cr_order _ _ _ _ H) as [o Hor]. exists o. by eapply lru_changed.
  - done.
  - done.
  - intros m e E. destruct (decide (m = n)) as [->|Hne]; [by apply He|].
    rewrite (proj1 (Hm m Hne)) in E. by eapply (cr_blocks _ _ _ _ H).
  - intros c z E. destruct (decide (c = b)) as [->|Hne].
    { rewrite list_lookup_insert_eq in E by done. injection E as <-. done. }
    rewrite list_lookup_insert_ne in E by done. destruct (cr_bufs _ _ _ _ H _ _ E) as [B1 B2 B3].
    split; [done| |].
    + intros Z1 Z2 Z3. unfold blk. rewrite (proj1 (Hm _ (Ho _ _ Hne E Z2))). by apply B2.
    + intros Z1. destruct (B3 Z1) as (Z2 & Z3 & Z4 & Z5). split_and!; [done|done|lia|lia|].
      by rewrite (proj1 (proj2 (Hm _ (Ho _ _ Hne E Z2)))).
  - intros c c' z z' E E' Z Z' EQ.
    destruct (decide (c = b)) as [->|Hne], (decide (c' = b)) as [->|Hne'].
    + done.
    + rewrite list_lookup_insert_eq in E by done. rewrite list_lookup_insert_ne in E' by done. injection E as <-.
      exfalso. apply (Ho _ _ Hne' E' Z'). congruence.
    + rewrite list_lookup_insert_eq in E' by done. rewrite list_lookup_insert_ne in E by done. injection E' as <-.
      exfalso. apply (Ho _ _ Hne E Z). congruence.
    + rewrite list_lookup_insert_ne in E, E' by done. by apply (cr_uniq _ _ _ _ H c c' z z').
  - intros m r d E. destruct (decide (m = n)) as [->|Hne].
    { destruct (Hr _ _ E) as (R1 & R2 & R3). split_and!; [done|lia|lia|]. exists b, y'.
      rewrite list_lookup_insert_eq by done. done. }
    rewrite (proj1 (proj2 (Hm m Hne))) in E. destruct (cr_refs _ _ _ _ H _ _ _ E) as (R1 & R2 & c & z & R3 & R4 & R5 & R6).
    split_and!; [done|lia|lia|]. exists c, z. rewrite list_lookup_insert_ne; [done|]. intros <-.
    apply Hne. rewrite <- R5. assert (z = y) as -> by congruence. apply Hw. lia.
  - rewrite Hl. apply H.
  - intros m c E. destruct (decide (m = n)) as [->|Hne].
    { rewrite E in Hlk. destruct Hlk as (-> & ? & _). done. }
    rewrite (proj2 (proj2 (Hm m Hne))) in E. rewrite Hls by (by eapply Hhb). by eapply (cr_locked _ _ _ _ H).
  - intros c Hc Hall. destruct (decide (c = b)) as [->|Hne].
    { destruct (bH x' !! n) as [b'|] eqn:E; [|done]. destruct Hlk as (-> & _). by destruct (Hall n). }
    rewrite Hls by done. apply (cr_unlocked _ _ _ _ H c Hc). intros m E. destruct (decide (m = n)) as [->|Hne'].
    + destruct (cr_held _ _ _ _ H _ _ E) as (_ & z & Z1 & Z2 & Z3). by apply (Ho c z).
    + apply (Hall m). by rewrite (proj2 (proj2 (Hm m Hne'))).
  - intros m c E. destruct (decide (m = n)) as [->|Hne].
    { rewrite E in Hlk. destruct Hlk as (-> & ? & ?). split; [done|]. exists y'. by rewrite list_lookup_insert_eq. }
    destruct (Hm m Hne) as (_ & M2 & M3). rewrite M3 in E. rewrite M2.
    destruct (cr_held _ _ _ _ H _ _ E) as (Z0 & z & Z1 & Z2 & Z3). split; [done|]. exists z.
    rewrite list_lookup_insert_ne; [done|]. intros <-. by apply (Hhb m b).
Qed.

(** Moving a buffer in the list changes nothing. *)
Lemma rep_relinked f f' x order : relinked f f' -> lru f' order -> rep f x -> rep f' x.
Proof.
  intros R Ho H. pose proof (relinked_rest _ _ R) as (_ & Esl & Edk).
  assert (forall b z, bufs f' !! b = Some z -> exists y, bufs f !! b = Some y /\ unlinked z = unlinked y) as Hback.
  { intros b z Hz. apply lookup_lt_Some in Hz as Hlt. rewrite (relinked_length _ _ R) in Hlt.
    destruct (lookup_lt_is_Some_2 _ _ Hlt) as [y Hy]. destruct (relinked_buf _ _ _ _ R Hy) as (z' & Hz' & E).
    exists y. split; [done|]. congruence. }
  split; rewrite ?Esl, ?Edk; try apply H.
  - by exists order.
  - intros b z Hz. destruct (Hback b z Hz) as (y & Hy & E%unlinked_fields). destruct E as (E1 & _ & E3 & E4 & E5 & E6).
    destruct (cr_bufs _ _ _ _ H _ _ Hy) as [B1 B2 B3]. split; rewrite ?E1, ?E3, ?E4, ?E5, ?E6; done.
  - intros b b' z z' Hz Hz' D D' E. destruct (Hback b z Hz) as (y & Hy & U%unlinked_fields), (Hback b' z' Hz') as (y' & Hy' & U'%unlinked_fields).
    apply (cr_uniq _ _ _ _ H b b' y y'); [done|done|..]; naive_solver congruence.
  - intros n r d E. destruct (cr_refs _ _ _ _ H _ _ _ E) as (R1 & R2 & b & y & Hy & R4 & R5 & R6).
    split_and!; [done|lia|lia|]. destruct (relinked_buf _ _ _ _ R Hy) as (z & Hz & U%unlinked_fields).
    exists b, z. naive_solver congruence.
  - intros n b E. destruct (cr_held _ _ _ _ H _ _ E) as (Z0 & y & Hy & Z2 & Z3). split; [done|].
    destruct (relinked_buf _ _ _ _ R Hy) as (z & Hz & U%unlinked_fields). exists z. naive_solver congruence.
Qed.
End rep_lemmas.

(** ** The operations on the abstraction *)

Definition x_read (x : bstate) (n : Z) (b : nat) : bstate :=
  mk_bst (bD x) (<[n := (S (fst (block_of x n)), view x n)]> (bR x)) (<[n := b]> (bH x)).
Definition x_write (x : bstate) (n : Z) : bstate := mk_bst (<[n := view x n]> (bD x)) (bR x) (bH x).
Definition x_set (x : bstate) (n : Z) (d : list Z) : bstate :=
  mk_bst (bD x) (<[n := (fst (block_of x n), d)]> (bR x)) (bH x).
Definition x_pin (x : bstate) (n : Z) : bstate :=
  mk_bst (bD x) (<[n := (S (fst (block_of x n)), view x n)]> (bR x)) (bH x).
(** One reference less; a block nobody uses is as on the medium. *)
Definition x_unref (x : bstate) (n : Z) : gmap Z (nat * list Z) :=
  match fst (block_of x n) with
  | S (S r) => <[n := (S r, view x n)]> (bR x)
  | _ => delete n (bR x)
  end.
Definition x_unpin (x : bstate) (n : Z) : bstate := mk_bst (bD x) (x_unref x n) (bH x).
Definition x_release (x : bstate) (n : Z) : bstate := mk_bst (bD x) (x_unref x n) (delete n (bH x)).

Lemma block_of_Some x n r d : bR x !! n = Some (r, d) -> block_of x n = (r, d).
Proof. unfold block_of. by intros ->. Qed.
Lemma block_of_None x n : bR x !! n = None -> block_of x n = (0%nat, blk (bD x) n).
Proof. unfold block_of. by intros ->. Qed.

Lemma set_same_dk l v f : set_slocks l (set_bufs v f) = set_slocks l (set_bufs v (set_dk (dk f) f)).
Proof. by destruct f. Qed.
Lemma set_same_slocks v d f : set_bufs v (set_dk d f) = set_slocks (slocks f) (set_bufs v (set_dk d f)).
Proof. by destruct f. Qed.
Lemma set_read_form v w u d l f :
  set_bufs v (set_bufs w (set_dk d (set_slocks l (set_bufs u f)))) = set_slocks l (set_bufs v (set_dk d f)).
Proof. by destruct f. Qed.
Lemma bufs_form l v f : bufs (set_slocks l (set_bufs v f)) = v.
Proof. done. Qed.

(** ** Finding a buffer *)

Section finding.
Context (dev pid0 : Z).
Implicit Types (f : fsys) (x : bstate) (y z : buf).
Abbreviation rep := (cache_rep dev pid0).

Lemma order_seq f order : lru f order -> order ≡ₚ seq 0 NBUF.
Proof.
  intros [_ Hn Ha _]. apply NoDup_Permutation; [done|apply NoDup_seq|]. intros b. rewrite Ha, elem_of_seq. lia.
Qed.

(** While fewer blocks than buffers are in use, a buffer is unused. *)
Lemma some_unused f x order :
  rep f x -> lru f order -> (size (bR x) < NBUF)%nat ->
  exists b y, first_such (unused_buf f) (rev order) = Some b /\ bufs f !! b = Some y /\ b_refcnt y = 0.
Proof.
  intros H Ho Hs. destruct (first_such (unused_buf f) (rev order)) as [b|] eqn:E.
  { destruct (first_such_Some _ _ _ E) as (Hu & _). unfold unused_buf in Hu.
    destruct (bufs f !! b) as [y|] eqn:Hy; [|done]. exists b, y. split_and!; [done|done|lia]. }
  exfalso. apply first_such_None in E. rewrite Forall_forall in E.
  assert (forall b, b ∈ order -> exists y, bufs f !! b = Some y /\ b_refcnt y <> 0) as Hall.
  { intros b Hb. destruct (rep_buf _ _ f x b H) as [y Hy]; [by apply Ho|]. exists y. split; [done|].
    specialize (E b). unfold unused_buf in E. rewrite Hy in E. rewrite list_elem_of_In, <- in_rev, <- list_elem_of_In in E.
    specialize (E Hb). lia. }
  set (no := fun b => default 0 (b_blockno <$> bufs f !! b)).
  assert (NoDup (no <$> order)) as Hnd.
  { apply NoDup_fmap_2_strong; [|apply Ho]. intros b b' Hb Hb' Eq. unfold no in Eq.
    destruct (Hall b Hb) as (y & Hy & Hr), (Hall b' Hb') as (y' & Hy' & Hr'). rewrite Hy, Hy' in Eq.
    apply (cr_uniq _ _ _ _ H b b' y y' Hy Hy'); [by apply (cr_bufs _ _ _ _ H _ _ Hy)|by apply (cr_bufs _ _ _ _ H _ _ Hy')|done]. }
  assert ((list_to_set (no <$> order) : gset Z) ⊆ dom (bR x)) as Hsub.
  { intros n. rewrite elem_of_list_to_set, list_elem_of_fmap. intros (b & -> & Hb). destruct (Hall b Hb) as (y & Hy & Hr).
    apply elem_of_dom. unfold no. rewrite Hy. cbn. by rewrite (proj2 (proj2 (proj2 (bo_used _ _ _ (cr_bufs _ _ _ _ H _ _ Hy) Hr)))). }
  apply subseteq_size in Hsub. rewrite size_list_to_set, length_fmap, (Permutation_length (order_seq f order Ho)), length_seq in Hsub by done.
  rewrite size_dom in Hsub. lia.
Qed.

(** Where [bget] looks for a block: the buffer that has it, if there is one. *)
Lemma cached_or_not f x order n :
  rep f x -> lru f order ->
  match first_such (holds_block f dev n) order with
  | Some b => exists y, bufs f !! b = Some y /\ b_dev y = dev /\ b_blockno y = n
  | None => bR x !! n = None /\ forall b z, bufs f !! b = Some z -> b_dev z = dev -> b_blockno z <> n
  end.
Proof.
  intros H Ho. destruct (first_such _ _) as [b|] eqn:E.
  { destruct (first_such_Some _ _ _ E) as (Hu & _). unfold holds_block in Hu.
    destruct (bufs f !! b) as [y|] eqn:Hy; [|done]. exists y. split; [done|]. lia. }
  apply first_such_None in E. rewrite Forall_forall in E.
  assert (forall b z, bufs f !! b = Some z -> b_dev z = dev -> b_blockno z <> n) as Hno.
  { intros b z Hz Hd Hn. specialize (E b). unfold holds_block in E. rewrite Hz in E.
    assert (b ∈ order) as Hb by (apply Ho; by eapply rep_buf_lt). specialize (E Hb). lia. }
  split; [|done]. destruct (bR x !! n) as [[r d]|] eqn:En; [|done].
  destruct (ref_in_use _ _ f x n r d H En) as (b & y & U). exfalso. apply (Hno b y); apply U.
Qed.
End finding.

(** ** The operations *)

(** The process at work, in the file system alone. *)
Record at_work (i : nat) (pid0 : Z) (k : kst fsys) : Prop := {
  aw_ready : ready i k;
  aw_pid : exists p, procs k !! i = Some p /\ pid p = pid0
}.
Lemma at_work_calm i pid0 k : at_work i pid0 k -> calm k.
Proof. intros [[? ? ? ?] _]. done. Qed.
Lemma at_work_kept i pid0 k k' : at_work i pid0 k -> ready i k' -> same_kernel i k k' -> at_work i pid0 k'.
Proof.
  intros [_ (p & Hp & Hpid)] Hr [_ _ _ (q & c & Hq & E) _]. split; [done|].
  assert (q = p) as -> by congruence. exists (set_chan c p). split; [|done].
  rewrite E. apply list_lookup_insert_eq. by eapply lookup_lt_Some.
Qed.

(** The buffer that [bget] returns: [y] before, [y'] after. *)
Record got (dev : Z) (f : fsys) (x : bstate) (n : Z) (b : nat) (y y' : buf) : Prop := {
  got_buf : bufs f !! b = Some y;
  got_links : b_next y' = b_next y /\ b_prev y' = b_prev y;
  got_name : b_dev y' = dev /\ b_blockno y' = n;
  got_cnt : b_refcnt y = Z.of_nat (fst (block_of x n)) /\ b_refcnt y' = Z.of_nat (S (fst (block_of x n)));
  got_was : b_refcnt y <> 0 -> b_blockno y = n;
  got_others : forall b' z, b' <> b -> bufs f !! b' = Some z -> b_dev z = dev -> b_blockno z <> n;
  got_data : length (b_data y') = Z.to_nat BSIZE /\ (b_valid y' <> 0 -> b_data y' = view x n);
  got_fresh : b_valid y' = 0 -> bR x !! n = None;
  got_free : forall m, bH x !! m <> Some b
}.

Section getting.
Context {waits : Waits} (dev pid0 : Z) (i : nat).
Implicit Types (f : fsys) (x : bstate) (k : kst fsys) (y z : buf).
Abbreviation rep := (cache_rep dev pid0).

Lemma not_held_unused f x b y : rep f x -> bufs f !! b = Some y -> b_refcnt y = 0 -> forall m, bH x !! m <> Some b.
Proof.
  intros H Hb Hr m E. destruct (held_in_use _ _ f x m b H E) as (z & r & d & _ & U).
  pose proof (iu_buf _ _ _ _ _ _ _ _ U). pose proof (iu_cnt _ _ _ _ _ _ _ _ U). pose proof (iu_pos _ _ _ _ _ _ _ _ U).
  assert (z = y) as -> by congruence. lia.
Qed.

(** Acquiring the buffer that was found. *)
Lemma wp_take_buf b y' f x k (Q : nat -> st (kst fsys) -> Prop) :
  rep f x -> at_work i pid0 k -> (b < NBUF)%nat -> (forall m, bH x !! m <> Some b) ->
  Q b (mk_st [] (set_files (set_slocks (<[b := mk_sleeplock 1 pid0]> (slocks f)) (set_bufs (<[b := y']> (bufs f)) f)) k)) ->
  wp (release LkBcache ;; acquiresleep (buf_lock b) ;; ret b) Q
    (mk_st [LkBcache] (set_files (set_bufs (<[b := y']> (bufs f)) f) k)).
Proof.
  intros H [[Hc _ _ _] (p & Hp & Hpid)] Hb Hf HQ. destruct (cr_unlocked _ _ _ _ H b Hb Hf) as (v & Hv & Hv0).
  wp_step. apply wp_release_head; [apply not_elem_of_nil|].
  wp_step. eapply (wp_acquiresleep b v i p); [apply not_elem_of_nil|exact Hv|done|done|done|].
  apply wp_ret. by rewrite Hpid.
Qed.

Lemma got_hit f x n b y : rep f x -> bH x !! n = None ->
  bufs f !! b = Some y -> b_dev y = dev -> b_blockno y = n -> Z.of_nat (S (fst (block_of x n))) < 2 ^ 32 ->
  got dev f x n b y (set_b_refcnt (u32 (b_refcnt y + 1)) y).
Proof.
  intros H Hh Hb Hd Hn Hov. pose proof (cr_bufs _ _ _ _ H _ _ Hb) as [B1 B2 B3].
  assert (b_refcnt y = Z.of_nat (fst (block_of x n)) /\ (b_valid y <> 0 -> b_data y = view x n) /\
    (b_valid y = 0 -> bR x !! n = None)) as (E1 & E2 & E3).
  { destruct (decide (b_refcnt y = 0)) as [E0|E0].
    - assert (bR x !! n = None) as EN.
      { destruct (bR x !! n) as [[r d]|] eqn:E; [|done]. destruct (ref_in_use _ _ f x n r d H E) as (b' & y' & U).
        assert (b = b') as <- by (eapply (cr_uniq _ _ _ _ H); [exact Hb|apply U|done|apply U|rewrite (iu_no _ _ _ _ _ _ _ _ U); done]).
        pose proof (iu_buf _ _ _ _ _ _ _ _ U). pose proof (iu_cnt _ _ _ _ _ _ _ _ U). pose proof (iu_pos _ _ _ _ _ _ _ _ U).
        assert (y' = y) as -> by congruence. lia. }
      unfold view. rewrite (block_of_None _ _ EN). split_and!; [done| |done]. intros Hv. rewrite (B2 E0 Hd Hv). by rewrite Hn.
    - destruct (B3 E0) as (_ & V & P & R). rewrite Hn in R. unfold view. rewrite (block_of_Some _ _ _ _ R). split_and!; [cbn; lia|done|done]. }
  split; cbn; try done.
  - rewrite E1, u32_id by lia. lia.
  - intros b' z Hne Hz Hdz Hnz. apply Hne. eapply (cr_uniq _ _ _ _ H); [exact Hz|exact Hb|done|done|congruence].
  - intros m E. destruct (cr_held _ _ _ _ H _ _ E) as (_ & z & Hz & _ & Hnz). congruence.
Qed.

Lemma got_miss f x n b y : rep f x -> bufs f !! b = Some y -> b_refcnt y = 0 -> bR x !! n = None ->
  (forall b z, bufs f !! b = Some z -> b_dev z = dev -> b_blockno z <> n) ->
  got dev f x n b y (set_b_refcnt 1 (set_b_valid 0 (set_b_blockno n (set_b_dev dev y)))).
Proof.
  intros H Hb Hr HR Hno. pose proof (cr_bufs _ _ _ _ H _ _ Hb) as [B1 _ _].
  split; cbn; rewrite ?(block_of_None _ _ HR); try done.
  - intros b' z _. apply Hno.
  - by apply (not_held_unused f x b y).
Qed.

Lemma wp_bget f x n k (Q : nat -> st (kst fsys) -> Prop) :
  rep f x -> at_work i pid0 k -> bH x !! n = None ->
  is_Some (bR x !! n) \/ (size (bR x) < NBUF)%nat -> Z.of_nat (S (fst (block_of x n))) < 2 ^ 32 ->
  (forall b y y', got dev f x n b y y' ->
     Q b (mk_st [] (set_files (set_slocks (<[b := mk_sleeplock 1 pid0]> (slocks f)) (set_bufs (<[b := y']> (bufs f)) f)) k))) ->
  wp (bget dev n) Q (mk_st [] (set_files f k)).
Proof.
  intros H Hw Hh Hroom Hov HQ. destruct (cr_order _ _ _ _ H) as [o Ho].
  assert (length o = NBUF) as Hlo by (by rewrite (Permutation_length (order_seq f o Ho)), length_seq).
  assert (forall b, b ∈ o -> (b < length (bufs f))%nat) as Hlt by (intros b Hb; rewrite (lru_len _ _ Ho); by apply Ho).
  unfold bget. wp_step. apply wp_acquire; [apply not_elem_of_nil|]. wp_step. apply wp_next_head.
  rewrite (cycle_first _ _ _ (lru_cycle _ _ Ho)). wp_step.
  eapply wp_eq; [apply find_cached_run; [lia|done|]|].
  { destruct o as [|c o]; [done|]. apply (lru_cycle _ _ Ho). }
  pose proof (cached_or_not _ _ f x o n H Ho) as Hcase.
  destruct (first_such (holds_block f dev n) o) as [b|].
  - destruct Hcase as (y & Hb & Hd & Hn). wp_step. apply (wp_upd_buf b y); [done|].
    pose proof (got_hit f x n b y H Hh Hb Hd Hn Hov) as G.
    eapply wp_take_buf; [done|done|by eapply rep_buf_lt|by apply G|]. by eapply HQ.
  - destruct Hcase as (HR & Hno). destruct (some_unused _ _ f x o H Ho) as (b & y & Hf & Hb & Hr).
    { destruct Hroom as [[? ?]|?]; [congruence|done]. }
    wp_step. apply (wp_fs_gets bhead_prev). wp_step.
    assert (bhead_prev f = default BHead (last (nodes o))) as ->.
    { pose proof (lru_cycle _ _ Ho) as Hc. unfold cycle in Hc. destruct (nodes o) as [|c t] using rev_ind; [cbn in Hc; naive_solver|].
      rewrite last_snoc. rewrite <- app_assoc in Hc. change (BHead :: t ++ [c] ++ [BHead]) with ((BHead :: t) ++ c :: [BHead]) in Hc.
      apply dpath_app in Hc as [_ (_ & Hc & _)]. exact Hc. }
    eapply wp_eq; [apply find_unused_run; [lia|done|]|].
    { pose proof (lru_cycle _ _ Ho) as Hc. unfold cycle in Hc. destruct (nodes o) as [|c t] using rev_ind; [done|].
      rewrite <- app_assoc in Hc. change (BHead :: t ++ [c] ++ [BHead]) with ((BHead :: t) ++ c :: [BHead]) in Hc.
      apply dpath_app in Hc as [Hc _]. exact Hc. }
    rewrite Hf. wp_step. apply (wp_upd_buf b y); [done|].
    pose proof (got_miss f x n b y H Hb Hr HR Hno) as G.
    eapply wp_take_buf; [done|done|by eapply rep_buf_lt|by apply G|]. by eapply HQ.
Qed.
End getting.

(** What an operation leaves: the rest of the file layer and of the kernel. *)
Record kept (i : nat) (pid0 : Z) (f : fsys) (k : kst fsys) (f' : fsys) (k' : kst fsys) : Prop := {
  kp_rest : same_rest f f';
  kp_work : at_work i pid0 k';
  kp_kernel : same_kernel i k k'
}.
Lemma kept_trans i pid0 f k f1 k1 f2 k2 : kept i pid0 f k f1 k1 -> kept i pid0 f1 k1 f2 k2 -> kept i pid0 f k f2 k2.
Proof. intros [A1 A2 A3] [B1 B2 B3]. split; [by eapply same_rest_trans|done|by eapply same_kernel_trans]. Qed.
Lemma kept_rest i pid0 f f' k : at_work i pid0 k -> same_rest f f' -> kept i pid0 f k f' k.
Proof. intros H Hr. split; [done|done|]. destruct H as [_ (p & Hp & _)]. by eapply same_kernel_refl. Qed.

Lemma rest_changed f v d l : (forall j, (NBUF <= j)%nat -> l !! j = slocks f !! j) -> same_rest f (set_slocks l (set_bufs v (set_dk d f))).
Proof. done. Qed.
Lemma rest_lock f b s v d : (b < NBUF)%nat -> same_rest f (set_slocks (<[b := s]> (slocks f)) (set_bufs v (set_dk d f))).
Proof. intros. apply rest_changed. intros j Hj. rewrite list_lookup_insert_ne by lia. done. Qed.

Section operations.
Context {waits : Waits} {mmio : VirtioMmio}.
Context {device : fsys -> fsys} {back : st (kst fsys) -> st (kst fsys)} {Hdev : DiskDevice device} {Hback : Scheduler back}.
Context (dev pid0 : Z) (i : nat).
Implicit Types (f : fsys) (x : bstate) (k : kst fsys) (y z : buf) (P : gmap Z (list Z) -> Prop).
Abbreviation rep := (cache_rep dev pid0).
Abbreviation env := (disk_env device back).

Lemma blk_length f x n : rep f x -> length (blk (bD x) n) = Z.to_nat BSIZE.
Proof.
  intros H. unfold blk. destruct (bD x !! n) as [d|] eqn:E; [by eapply (cr_blocks _ _ _ _ H)|]. apply length_replicate.
Qed.
Lemma view_length f x n : rep f x -> length (view x n) = Z.to_nat BSIZE.
Proof.
  intros H. unfold view. destruct (bR x !! n) as [[r d]|] eqn:E.
  - rewrite (block_of_Some _ _ _ _ E). destruct (ref_in_use _ _ f x n r d H E) as (b & y & U). apply U.
  - rewrite (block_of_None _ _ E). by eapply blk_length.
Qed.

(** The cache once [bread] has the data. *)
Lemma rep_read f x n b y y' y'' d' :
  rep f x -> got dev f x n b y y' -> 0 <= n < 2 ^ 31 -> Z.of_nat (S (fst (block_of x n))) < 2 ^ 32 ->
  driver_idle d' -> medium d' = bD x ->
  b_next y'' = b_next y' -> b_prev y'' = b_prev y' -> b_dev y'' = b_dev y' -> b_blockno y'' = b_blockno y' ->
  b_refcnt y'' = b_refcnt y' -> b_valid y'' <> 0 -> b_data y'' = view x n ->
  rep (set_slocks (<[b := mk_sleeplock 1 pid0]> (slocks f)) (set_bufs (<[b := y'']> (bufs f)) (set_dk d' f))) (x_read x n b).
Proof.
  intros H [G1 [G2 G2'] [G3 G3'] [G4 G4'] G5 G6 [G7 _] _ G8] Hn Hov Hd Hm E1 E2 E3 E4 E5 E6 E7.
  pose proof (rep_buf_lt _ _ _ _ _ _ H G1) as Hb.
  apply (rep_one_block _ _ f x b y y'' n); [done|]. split; unfold x_read; cbn [bD bR bH].
  - done.
  - by rewrite E1, E2.
  - done.
  - by rewrite E3, E4.
  - split; cbn [bD bR].
    + rewrite E7. by eapply view_length.
    + intros F. lia.
    + intros _. rewrite E3, E4, E5, G4', G3', E7. split_and!; [done|done|lia|lia|]. rewrite lookup_insert_eq. by rewrite Nat2Z.id.
  - done.
  - done.
  - intros m Hne. rewrite !lookup_insert_ne by done. done.
  - intros e E. by eapply (cr_blocks _ _ _ _ H).
  - intros r d. rewrite lookup_insert_eq. intros [= <- <-]. split_and!; [lia|lia|lia|]. by rewrite E5, G4'.
  - by rewrite length_insert.
  - intros b' Hne. by rewrite list_lookup_insert_ne.
  - rewrite !lookup_insert_eq. split_and!; [done| |done]. rewrite list_lookup_insert_eq; [done|].
    rewrite (cr_slen _ _ _ _ H). lia.
Qed.

Lemma wpe_bread P f x n k (Q : nat -> st (kst fsys) -> Prop) :
  rep f x -> at_work i pid0 k -> bH x !! n = None -> 0 <= n < 2 ^ 31 ->
  is_Some (bR x !! n) \/ (size (bR x) < NBUF)%nat -> Z.of_nat (S (fst (block_of x n))) < 2 ^ 32 -> P (bD x) ->
  (forall b f' k', rep f' (x_read x n b) -> kept i pid0 f k f' k' -> Q b (mk_st [] (set_files f' k'))) ->
  wpe env (on_medium P) (bread dev n) Q (mk_st [] (set_files f k)).
Proof.
  intros H Hw Hh Hn Hroom Hov HP HQ. unfold bread. wpe_step. apply wp_wpe.
  apply (wp_bget dev pid0 i f x); [done..|]. intros b y y' G. pose proof (got_buf _ _ _ _ _ _ _ G) as Hb.
  pose proof (rep_buf_lt _ _ _ _ _ _ H Hb) as Hlt. assert (b < length (bufs f))%nat as Hlt' by (by eapply lookup_lt_Some).
  wpe_step. apply wp_wpe. eapply (wp_get_buf b y'); [by apply list_lookup_insert_eq|]. wpe_step.
  destruct (b_valid y' =? 0) eqn:E; cbn [when].
  - pose proof (got_name _ _ _ _ _ _ _ G) as [_ Eno]. wpe_step.
    eapply (virtio_disk_rw_spec P i b y'); [apply Hw|apply H|by apply list_lookup_insert_eq|by rewrite Eno| |done|].
    { cbn. rewrite (cr_medium _ _ _ _ H). done. }
    intros k' d' x' Hr' Hs' [A1 A2 A3]. cbn [dk set_slocks set_bufs] in A2, A3. rewrite (cr_medium _ _ _ _ H) in A2, A3. rewrite Eno in A3.
    apply wp_wpe. eapply wp_upd_buf; [cbn; apply list_lookup_insert_eq; by rewrite length_insert|]. cbn [bufs set_bufs].
    apply wp_wpe, wp_ret. rewrite set_read_form, bufs_form, !list_insert_insert_eq. apply HQ.
    + eapply rep_read; try done; subst x'; try done.
      unfold view. rewrite block_of_None by (apply G; lia). done.
    + split; [by apply (rest_lock f b)| |]; [by eapply at_work_kept|done].
  - apply wp_wpe, wp_ret, wp_wpe, wp_ret. rewrite set_same_dk. apply HQ.
    + eapply rep_read; try done; try apply H; [lia|]. apply G. lia.
    + apply kept_rest; [done|]. by apply rest_lock.
Qed.

(** *** A block in use, changed *)

(** The buffer of a block in use gets new contents or references; the lock and
    the other blocks stay. *)
Lemma rep_in_use f x n b y y' r d r' d1 D' dk' :
  rep f x -> in_use dev f x n b y r d -> bR x !! n = Some (r, d) ->
  b_next y' = b_next y -> b_prev y' = b_prev y -> b_dev y' = dev -> b_blockno y' = n -> b_valid y' <> 0 ->
  b_refcnt y' = Z.of_nat r' -> Z.of_nat r' < 2 ^ 32 -> b_data y' = d1 -> length d1 = Z.to_nat BSIZE ->
  driver_idle dk' -> medium dk' = D' -> (forall m, m <> n -> D' !! m = bD x !! m) ->
  (forall e, D' !! n = Some e -> length e = Z.to_nat BSIZE) ->
  (r' = 0%nat -> d1 = blk D' n /\ bH x !! n = None) ->
  rep (set_bufs (<[b := y']> (bufs f)) (set_dk dk' f))
    (mk_bst D' (match r' with O => delete n (bR x) | _ => <[n := (r', d1)]> (bR x) end) (bH x)).
Proof.
  intros H U HR L1 L2 N1 N2 V C1 C2 E1 E2 I1 I2 HD1 HD2 H0. rewrite set_same_slocks.
  pose proof (rep_buf_lt _ _ _ _ _ _ H (iu_buf _ _ _ _ _ _ _ _ U)) as Hlt.
  apply (rep_one_block _ _ f x b y y' n); [done|]. split; cbn [bD bR bH].
  - apply U.
  - done.
  - done.
  - done.
  - split; cbn [bD bR]; [congruence| |].
    + intros F _ _. rewrite E1, N2. apply H0. lia.
    + intros F. split_and!; [done|done|lia|lia|]. rewrite N2, C1, Nat2Z.id, E1. destruct r'; [lia|]. by rewrite lookup_insert_eq.
  - intros b' z. by eapply in_use_unique.
  - intros _. apply U.
  - intros m Hne. split_and!; [by apply HD1| |done]. destruct r'; [by rewrite lookup_delete_ne|by rewrite lookup_insert_ne].
  - done.
  - intros r1 e. destruct r' as [|r']; [by rewrite lookup_delete_eq|]. rewrite lookup_insert_eq. intros [= <- <-].
    split_and!; [lia|apply U|apply U|done].
  - done.
  - done.
  - destruct (bH x !! n) as [b'|] eqn:Eh.
    + destruct (held_in_use _ _ f x n b' H Eh) as (z & r1 & e & HR' & U').
      assert (b' = b) as ->.
      { destruct (decide (b' = b)) as [|Hne]; [done|]. exfalso.
        apply (in_use_unique _ _ f x n b y r d b' z H U Hne (iu_buf _ _ _ _ _ _ _ _ U')); apply U'. }
      split_and!; [done|by eapply (cr_locked _ _ _ _ H)|]. destruct r' as [|r']; [by destruct (H0 eq_refl)|]. by rewrite lookup_insert_eq.
    + apply (cr_unlocked _ _ _ _ H b Hlt). intros m E. destruct (cr_held _ _ _ _ H _ _ E) as (_ & z & Hz & _ & Hnz).
      assert (z = y) as -> by (pose proof (iu_buf _ _ _ _ _ _ _ _ U); congruence). rewrite (iu_no _ _ _ _ _ _ _ _ U) in Hnz. congruence.
Qed.

Lemma wp_bdata f x n b hl k (Q : list Z -> st (kst fsys) -> Prop) :
  rep f x -> bH x !! n = Some b -> Q (view x n) (mk_st hl (set_files f k)) -> wp (bdata b) Q (mk_st hl (set_files f k)).
Proof.
  intros H Hh HQ. destruct (held_in_use _ _ f x n b H Hh) as (y & r & d & HR & U).
  unfold bdata. wp_step. apply (wp_get_buf b y); [apply U|]. apply wp_ret. rewrite (iu_data _ _ _ _ _ _ _ _ U).
  unfold view in HQ. by rewrite (block_of_Some _ _ _ _ HR) in HQ.
Qed.

Lemma set_dk_same v f : set_bufs v f = set_bufs v (set_dk (dk f) f).
Proof. by destruct f. Qed.

Lemma wp_set_bdata f x n b d hl k (Q : unit -> st (kst fsys) -> Prop) :
  rep f x -> at_work i pid0 k -> bH x !! n = Some b -> length d = Z.to_nat BSIZE ->
  (forall f', rep f' (x_set x n d) -> kept i pid0 f k f' k -> Q tt (mk_st hl (set_files f' k))) ->
  wp (set_bdata b d) Q (mk_st hl (set_files f k)).
Proof.
  intros H Hw Hh Hd HQ. destruct (held_in_use _ _ f x n b H Hh) as (y & r & e & HR & U).
  apply (wp_upd_buf b y); [apply U|]. apply HQ; [|by apply kept_rest].
  rewrite set_dk_same. unfold x_set. rewrite (block_of_Some _ _ _ _ HR). cbn [fst].
  pose proof (iu_pos _ _ _ _ _ _ _ _ U) as Hpos.
  eapply (rep_in_use f x n b y (set_b_data d y) r e r d (bD x) (dk f)) in HR; try done; try apply U; try apply H; try lia.
  destruct r; [lia|done].
Qed.

(** *** References *)

Lemma wp_bpin f x n b hl k (Q : unit -> st (kst fsys) -> Prop) :
  rep f x -> at_work i pid0 k -> bH x !! n = Some b -> LkBcache ∉ hl -> Z.of_nat (S (fst (block_of x n))) < 2 ^ 32 ->
  (forall f', rep f' (x_pin x n) -> kept i pid0 f k f' k -> Q tt (mk_st hl (set_files f' k))) ->
  wp (bpin b) Q (mk_st hl (set_files f k)).
Proof.
  intros H Hw Hh Hl Hov HQ. destruct (held_in_use _ _ f x n b H Hh) as (y & r & e & HR & U).
  unfold bpin. wp_step. apply wp_acquire; [done|]. wp_step. apply (wp_upd_buf b y); [apply U|].
  apply wp_release_head; [done|]. apply HQ; [|by apply kept_rest].
  rewrite set_dk_same. unfold x_pin, view. rewrite (block_of_Some _ _ _ _ HR) in *. cbn [fst snd] in *.
  eapply (rep_in_use f x n b y (set_b_refcnt (u32 (b_refcnt y + 1)) y) r e (S r) e (bD x) (dk f)) in HR; try done; try apply U; try apply H.
  cbn. rewrite (iu_cnt _ _ _ _ _ _ _ _ U), u32_id by lia. lia.
Qed.

(** A reference less, the lock free or other references left. *)
Lemma rep_unref f x n b y r d :
  rep f x -> in_use dev f x n b y r d -> bR x !! n = Some (r, d) ->
  (r = 1%nat -> d = blk (bD x) n /\ bH x !! n = None) ->
  rep (set_bufs (<[b := set_b_refcnt (u32 (b_refcnt y - 1)) y]> (bufs f)) f) (x_unpin x n).
Proof.
  intros H U HR H1. pose proof (iu_pos _ _ _ _ _ _ _ _ U) as Hpos.
  rewrite set_dk_same. unfold x_unpin, x_unref, view. rewrite (block_of_Some _ _ _ _ HR). cbn [fst snd].
  destruct r as [|r]; [lia|].
  eapply (rep_in_use f x n b y (set_b_refcnt (u32 (b_refcnt y - 1)) y) (S r) d r d (bD x) (dk f)) in HR; try done; try apply U; try apply H; try lia.
  - destruct r; done.
  - cbn. rewrite (iu_cnt _ _ _ _ _ _ _ _ U), u32_id by lia. lia.
  - intros ->. by apply H1.
Qed.

Lemma wp_bunpin f x n b hl k (Q : unit -> st (kst fsys) -> Prop) :
  rep f x -> at_work i pid0 k -> bH x !! n = Some b -> LkBcache ∉ hl -> (1 < fst (block_of x n))%nat ->
  (forall f', rep f' (x_unpin x n) -> kept i pid0 f k f' k -> Q tt (mk_st hl (set_files f' k))) ->
  wp (bunpin b) Q (mk_st hl (set_files f k)).
Proof.
  intros H Hw Hh Hl Hr HQ. destruct (held_in_use _ _ f x n b H Hh) as (y & r & e & HR & U).
  rewrite (block_of_Some _ _ _ _ HR) in Hr. cbn in Hr.
  unfold bunpin. wp_step. apply wp_acquire; [done|]. wp_step. apply (wp_upd_buf b y); [apply U|].
  apply wp_release_head; [done|]. apply HQ; [|by apply kept_rest]. eapply rep_unref; try done. lia.
Qed.

(** *** Writing and releasing *)

Lemma wp_holding_buf f x n b hl k (Q : bool -> st (kst fsys) -> Prop) :
  rep f x -> at_work i pid0 k -> bH x !! n = Some b -> sl_lk b ∉ hl ->
  Q true (mk_st hl (set_files f k)) -> wp (holdingsleep (buf_lock b)) Q (mk_st hl (set_files f k)).
Proof.
  intros H [[Hc _ _ _] (p & Hp & Hpid)] Hh Hl HQ.
  eapply (wp_holdingsleep b _ i p); [done|by eapply (cr_locked _ _ _ _ H)|done|done|].
  cbn. by rewrite Hpid, Z.eqb_refl.
Qed.

Lemma wpe_bwrite P f x n b k (Q : unit -> st (kst fsys) -> Prop) :
  rep f x -> at_work i pid0 k -> bH x !! n = Some b -> P (bD x) -> P (<[n := view x n]> (bD x)) ->
  (forall f' k', rep f' (x_write x n) -> kept i pid0 f k f' k' -> Q tt (mk_st [] (set_files f' k'))) ->
  wpe env (on_medium P) (bwrite b) Q (mk_st [] (set_files f k)).
Proof.
  intros H Hw Hh HP HP' HQ. destruct (held_in_use _ _ f x n b H Hh) as (y & r & d & HR & U).
  assert (view x n = b_data y) as Ev.
  { unfold view. rewrite (block_of_Some _ _ _ _ HR). cbn. symmetry. apply U. }
  unfold bwrite. wpe_step. apply wp_wpe. eapply wp_holding_buf; [done..|apply not_elem_of_nil|]. cbn [negb].
  apply (virtio_disk_rw_spec P i b y); [apply Hw|apply H|apply U|rewrite (iu_no _ _ _ _ _ _ _ _ U); apply U| | |].
  - by rewrite (cr_medium _ _ _ _ H).
  - intros _. rewrite (cr_medium _ _ _ _ H), (iu_no _ _ _ _ _ _ _ _ U), <- Ev. done.
  - intros k' d' x' Hr' Hs' [A1 A2 A3]. rewrite (cr_medium _ _ _ _ H), (iu_no _ _ _ _ _ _ _ _ U), <- Ev in A2. apply HQ.
    + unfold x_write. pose proof (iu_pos _ _ _ _ _ _ _ _ U). pose proof (iu_data _ _ _ _ _ _ _ _ U).
      pose proof HR as HR'.
      eapply (rep_in_use f x n b y x' r d r d) in HR'; try done; try (subst x'; apply U); try lia; try apply U.
      * destruct r as [|r]; [lia|]. rewrite (insert_id (bR x)) in HR' by done. exact HR'.
      * by subst x'.
      * by subst x'.
      * intros m Hne. by rewrite lookup_insert_ne.
      * intros e. rewrite lookup_insert_eq. intros [= <-]. by eapply view_length.
    + split; [done| |done]. by eapply at_work_kept.
Qed.

(** Unlocking the buffer of a block that stays in use. *)
Lemma rep_unlock f x n b : rep f x -> bH x !! n = Some b ->
  rep (set_slocks (<[b := mk_sleeplock 0 0]> (slocks f)) f) (mk_bst (bD x) (bR x) (delete n (bH x))).
Proof.
  intros H Hh. destruct (held_in_use _ _ f x n b H Hh) as (y & r & d & HR & U).
  pose proof (iu_buf _ _ _ _ _ _ _ _ U) as Hb.
  assert (set_slocks (<[b := mk_sleeplock 0 0]> (slocks f)) f =
    set_slocks (<[b := mk_sleeplock 0 0]> (slocks f)) (set_bufs (<[b := y]> (bufs f)) (set_dk (dk f) f))) as ->.
  { rewrite (list_insert_id (bufs f)) by done. by destruct f. }
  apply (rep_one_block _ _ f x b y y n); [done|]. split; cbn [bD bR bH].
  - done.
  - done.
  - split; apply H.
  - split; apply U.
  - destruct (cr_bufs _ _ _ _ H b y Hb). by split.
  - intros b' z. by eapply in_use_unique.
  - intros _. apply U.
  - intros m Hne. by rewrite lookup_delete_ne.
  - apply (cr_blocks _ _ _ _ H).
  - intros r1 e E. rewrite HR in E. injection E as <- <-. split_and!; apply U.
  - by rewrite length_insert.
  - intros b' Hne. by rewrite list_lookup_insert_ne.
  - rewrite lookup_delete_eq. exists (mk_sleeplock 0 0). split; [|done]. apply list_lookup_insert_eq.
    rewrite (cr_slen _ _ _ _ H). pose proof (rep_buf_lt _ _ _ _ _ _ H Hb). lia.
Qed.

Lemma buf_in_use_ext f x n b y r d f' x' : in_use dev f x n b y r d -> bufs f' = bufs f -> in_use dev f' x' n b y r d.
Proof. intros [] E. split; try done. by rewrite E. Qed.

Lemma wp_brelse f x n b k (Q : unit -> st (kst fsys) -> Prop) :
  rep f x -> at_work i pid0 k -> bH x !! n = Some b ->
  (fst (block_of x n) = 1%nat -> view x n = blk (bD x) n) ->
  (forall f', rep f' (x_release x n) -> kept i pid0 f k f' k -> Q tt (mk_st [] (set_files f' k))) ->
  wp (brelse b) Q (mk_st [] (set_files f k)).
Proof.
  intros H Hw Hh Hclean HQ. destruct (held_in_use _ _ f x n b H Hh) as (y & r & d & HR & U).
  pose proof (rep_buf_lt _ _ _ _ _ _ H (iu_buf _ _ _ _ _ _ _ _ U)) as Hlt.
  unfold view in Hclean. rewrite (block_of_Some _ _ _ _ HR) in Hclean. cbn [fst snd] in Hclean.
  unfold brelse. wp_step. eapply wp_holding_buf; [done..|apply not_elem_of_nil|]. cbn [negb].
  wp_step. apply wp_releasesleep; [apply not_elem_of_nil|intros; apply not_elem_of_nil|by eapply at_work_calm|].
  pose proof (rep_unlock f x n b H Hh) as H1. set (f1 := set_slocks _ f) in *. set (x1 := mk_bst _ _ _) in H1.
  assert (same_rest f f1) as Hr1.
  { split; try done. intros j Hj. cbn. rewrite list_lookup_insert_ne by (unfold buf_lock; lia). done. }
  assert (in_use dev f1 x1 n b y r d) as U1 by (by eapply buf_in_use_ext).
  wp_step. apply wp_acquire; [apply not_elem_of_nil|].
  wp_step. apply (wp_upd_buf b y); [apply U1|]. wp_step.
  set (y2 := set_b_refcnt _ y). set (f2 := set_bufs _ f1).
  assert (same_rest f f2) as Hr2 by (destruct Hr1; by split).
  assert (rep f2 (x_release x n)) as H2.
  { apply (rep_unref f1 x1 n b y r d) in H1; [exact H1|done|exact HR|]. intros ->. split; [by apply Hclean|]. apply lookup_delete_eq. }
  assert (bufs f2 !! b = Some y2) as Hy2 by (apply list_lookup_insert_eq; eapply lookup_lt_Some, U1).
  apply (wp_get_buf b y2); [done|]. wp_step. destruct (b_refcnt y2 =? 0); cbn [when].
  - eapply wp_to_front; [done|]. destruct (cr_order _ _ _ _ H2) as [o Ho].
    assert (b ∈ o) as (u & v & ->)%list_elem_of_split by (by apply Ho).
    apply wp_release_head; [apply not_elem_of_nil|]. pose proof (to_front_relinked b f2) as R. apply HQ.
    + eapply rep_relinked; [exact R|by apply to_front_lru|done].
    + apply kept_rest; [done|]. eapply same_rest_trans; [exact Hr2|apply (relinked_rest _ _ R)].
  - apply wp_ret. apply wp_release_head; [apply not_elem_of_nil|]. apply HQ; [done|]. by apply kept_rest.
Qed.
End operations.

(** ** What the cache promises to its clients *)

Class BlockLayer {waits : Waits} {mmio : VirtioMmio} (env : st (kst fsys) -> st (kst fsys)) (i : nat) (pid0 dev : Z)
    (rep : fsys -> bstate -> Prop) : Prop := {
  bl_frame : forall f x l, rep f x -> rep (set_lg l f) x;
  bl_frame_itable : forall f x v, rep f x -> rep (set_itable v f) x;
  bl_view : forall f x n, rep f x -> length (view x n) = Z.to_nat BSIZE;
  bl_refs : forall f x n r d, rep f x -> bR x !! n = Some (r, d) -> (0 < r)%nat /\ Z.of_nat r < 2 ^ 32;
  bl_name : forall f x n b, rep f x -> bH x !! n = Some b -> exists y, bufs f !! b = Some y /\ b_blockno y = n /\ 0 <= n < 2 ^ 31;
  bl_bread : forall P f x n k (Q : nat -> st (kst fsys) -> Prop),
    rep f x -> at_work i pid0 k -> bH x !! n = None -> 0 <= n < 2 ^ 31 ->
    is_Some (bR x !! n) \/ (size (bR x) < NBUF)%nat -> Z.of_nat (S (fst (block_of x n))) < 2 ^ 32 -> P (bD x) ->
    (forall b f' k', rep f' (x_read x n b) -> kept i pid0 f k f' k' -> Q b (mk_st [] (set_files f' k'))) ->
    wpe env (on_medium P) (bread dev n) Q (mk_st [] (set_files f k));
  bl_bwrite : forall P f x n b k (Q : unit -> st (kst fsys) -> Prop),
    rep f x -> at_work i pid0 k -> bH x !! n = Some b -> P (bD x) -> P (<[n := view x n]> (bD x)) ->
    (forall f' k', rep f' (x_write x n) -> kept i pid0 f k f' k' -> Q tt (mk_st [] (set_files f' k'))) ->
    wpe env (on_medium P) (bwrite b) Q (mk_st [] (set_files f k));
  bl_brelse : forall f x n b k (Q : unit -> st (kst fsys) -> Prop),
    rep f x -> at_work i pid0 k -> bH x !! n = Some b ->
    (fst (block_of x n) = 1%nat -> view x n = blk (bD x) n) ->
    (forall f', rep f' (x_release x n) -> kept i pid0 f k f' k -> Q tt (mk_st [] (set_files f' k))) ->
    wp (brelse b) Q (mk_st [] (set_files f k));
  bl_bdata : forall f x n b hl k (Q : list Z -> st (kst fsys) -> Prop),
    rep f x -> bH x !! n = Some b -> Q (view x n) (mk_st hl (set_files f k)) -> wp (bdata b) Q (mk_st hl (set_files f k));
  bl_set_bdata : forall f x n b d hl k (Q : unit -> st (kst fsys) -> Prop),
    rep f x -> at_work i pid0 k -> bH x !! n = Some b -> length d = Z.to_nat BSIZE ->
    (forall f', rep f' (x_set x n d) -> kept i pid0 f k f' k -> Q tt (mk_st hl (set_files f' k))) ->
    wp (set_bdata b d) Q (mk_st hl (set_files f k));
  bl_bpin : forall f x n b hl k (Q : unit -> st (kst fsys) -> Prop),
    rep f x -> at_work i pid0 k -> bH x !! n = Some b -> LkBcache ∉ hl -> Z.of_nat (S (fst (block_of x n))) < 2 ^ 32 ->
    (forall f', rep f' (x_pin x n) -> kept i pid0 f k f' k -> Q tt (mk_st hl (set_files f' k))) ->
    wp (bpin b) Q (mk_st hl (set_files f k));
  bl_bunpin : forall f x n b hl k (Q : unit -> st (kst fsys) -> Prop),
    rep f x -> at_work i pid0 k -> bH x !! n = Some b -> LkBcache ∉ hl -> (1 < fst (block_of x n))%nat ->
    (forall f', rep f' (x_unpin x n) -> kept i pid0 f k f' k -> Q tt (mk_st hl (set_files f' k))) ->
    wp (bunpin b) Q (mk_st hl (set_files f k))
}.

#[export] Instance cache_layer {waits : Waits} {mmio : VirtioMmio} device back {Hdev : DiskDevice device} {Hback : Scheduler back}
    i pid0 dev : BlockLayer (disk_env device back) i pid0 dev (cache_rep dev pid0).
Proof.
  split.
  - intros f x l [[o [Hc Hn Ha Hl]] ? ? ? ? ? ? ? ? ? ?]. split; try done. exists o. split; try done.
  - intros f x v [[o [Hc Hn Ha Hl]] ? ? ? ? ? ? ? ? ? ?]. split; try done. exists o. split; try done.
  - intros. by eapply view_length.
  - intros f x n r d H Hn. destruct (ref_in_use _ _ f x n r d H Hn) as (b & y & U). apply U.
  - intros f x n b H Hn. destruct (held_in_use _ _ f x n b H Hn) as (y & r & d & _ & U). exists y. split_and!; apply U.
  - intros. by eapply wpe_bread.
  - intros. by eapply wpe_bwrite.
  - intros. by eapply wp_brelse.
  - intros. by eapply wp_bdata.
  - intros. by eapply wp_set_bdata.
  - intros. by eapply wp_bpin.
  - intros. by eapply wp_bunpin.
Qed.
