(* ===== verification/Log.v ===== *)
(** * The log (kernel/log.c)

    The in-memory header [log.lh] is [lh_n] and [lh_block]; the header on disk
    is laid out in a block as the C structure is: [n] in the first word, then
    [block[i]]. *)

From S2P Require Import Prelude Spinlock Riscv Kalloc Vm Queue PriorityQueue KString Proc FsState Sleeplock Virtio Bio.

Section log.
Context {img : Image} {waits : Waits} {mmio : VirtioMmio}.

(** Offsets in [struct logheader] *)
Definition hdr_n : nat := 0.
Definition hdr_block (i : nat) : nat := 4 + 4 * i.

Definition copy_block (dst src : nat) : K unit :=
  d <- bdata src ;;
  old <- bdata dst ;;
  set_bdata dst (splice old 0 (take (Z.to_nat BSIZE) d)).

Definition log_dev : K Z := fs_gets (fun s => u32 (l_dev (lg s))).
Definition lh_at (i : nat) : K Z := fs_deref (fun s => lh_block (lg s) !! i).

(** The loops run while [tail < log.lh.n], which their bodies do not change. *)
Definition log_range : K (list nat) := n <- fs_gets (fun s => lh_n (lg s)) ;; ret (seq 0 (Z.to_nat n)).

Definition install_block (recovering : bool) (tail : nat) : K unit :=
  dev <- log_dev ;;
  start <- fs_gets (fun s => l_start (lg s)) ;;
  lbuf <- bread dev (u32 (start + Z.of_nat tail + 1)) ;;
  blk <- lh_at tail ;;
  dbuf <- bread dev (u32 blk) ;;
  copy_block dbuf lbuf ;;
  bwrite dbuf ;;
  when (negb recovering) (bunpin dbuf) ;;
  brelse lbuf ;;
  brelse dbuf.

Definition install_trans (recovering : bool) : K unit := r <- log_range ;; for_each r (install_block recovering).

Definition read_entry (d : list Z) (i : nat) : K unit :=
  _ <- lh_at i ;;
  upd_log (fun l => set_lh_block (<[i := i32 (get32 d (hdr_block i))]> (lh_block l)) l).

Definition read_head : K unit :=
  dev <- log_dev ;;
  start <- fs_gets (fun s => l_start (lg s)) ;;
  b <- bread dev (u32 start) ;;
  d <- bdata b ;;
  upd_log (set_lh_n (i32 (get32 d hdr_n))) ;;
  r <- log_range ;;
  for_each r (read_entry d) ;;
  brelse b.

Definition write_entry (b : nat) (i : nat) : K unit :=
  v <- lh_at i ;;
  d <- bdata b ;;
  set_bdata b (put32 d (hdr_block i) v).

Definition write_head : K unit :=
  dev <- log_dev ;;
  start <- fs_gets (fun s => l_start (lg s)) ;;
  b <- bread dev (u32 start) ;;
  n <- fs_gets (fun s => lh_n (lg s)) ;;
  d <- bdata b ;;
  set_bdata b (put32 d hdr_n n) ;;
  r <- log_range ;;
  for_each r (write_entry b) ;;
  bwrite b ;;
  brelse b.

Definition recover_from_log : K unit :=
  read_head ;;
  install_trans true ;;
  upd_log (set_lh_n 0) ;;
  write_head.

(** [sizeof(struct logheader)] is [4 + 4 * LOGSIZE]. *)
Definition initlog (dev : Z) (sb0 : superblock) : K unit :=
  if BSIZE <=? 4 + 4 * LOGSIZE then panic "initlog: too big logheader" else
  upd_log (fun l => set_l_dev dev (set_l_size (i32 (sb_nlog sb0)) (set_l_start (i32 (sb_logstart sb0)) l))) ;;
  recover_from_log.

Fixpoint begin_op_loop (fuel : nat) : K unit :=
  match fuel with
  | O => nofuel
  | S fuel' =>
      l <- fs_gets lg ;;
      if negb (l_committing l =? 0) then sleep ChLog LkLog ;; begin_op_loop fuel'
      else if LOGSIZE <? lh_n l + (l_outstanding l + 1) * MAXOPBLOCKS
      then sleep ChLog LkLog ;; begin_op_loop fuel'
      else upd_log (fun l => set_l_outstanding (l_outstanding l + 1) l) ;; release LkLog
  end.

Definition begin_op : K unit := acquire LkLog ;; begin_op_loop (S (S max_waits)).

Definition write_log_block (tail : nat) : K unit :=
  dev <- log_dev ;;
  start <- fs_gets (fun s => l_start (lg s)) ;;
  to <- bread dev (u32 (start + Z.of_nat tail + 1)) ;;
  blk <- lh_at tail ;;
  from <- bread dev (u32 blk) ;;
  copy_block to from ;;
  bwrite to ;;
  brelse from ;;
  brelse to.

Definition write_log : K unit := r <- log_range ;; for_each r write_log_block.

Definition commit : K unit :=
  n <- fs_gets (fun s => lh_n (lg s)) ;;
  when (0 <? n)
    (write_log ;;
     write_head ;;
     install_trans false ;;
     upd_log (set_lh_n 0) ;;
     write_head).

Definition end_op : K unit :=
  acquire LkLog ;;
  upd_log (fun l => set_l_outstanding (l_outstanding l - 1) l) ;;
  l <- fs_gets lg ;;
  if negb (l_committing l =? 0) then panic "log.committing" else
  let do_commit := l_outstanding l =? 0 in
  (if do_commit then upd_log (set_l_committing 1) else wakeup ChLog) ;;
  release LkLog ;;
  when do_commit
    (commit ;;
     acquire LkLog ;;
     upd_log (set_l_committing 0) ;;
     wakeup ChLog ;;
     release LkLog).

(** The index the loop of [log_write] stops at. *)
Fixpoint log_slot (blocks : list Z) (n i : nat) (blockno : Z) : nat :=
  match n, blocks with
  | S n', x :: blocks' => if u32 x =? blockno then i else log_slot blocks' n' (S i) blockno
  | _, _ => i
  end.

Definition log_write (b : nat) : K unit :=
  acquire LkLog ;;
  l <- fs_gets lg ;;
  if (LOGSIZE <=? lh_n l) || (l_size l - 1 <=? lh_n l) then panic "too big a transaction" else
  if l_outstanding l <? 1 then panic "log_write outside of trans" else
  x <- get_buf b ;;
  let i := log_slot (lh_block l) (Z.to_nat (lh_n l)) 0 (b_blockno x) in
  upd_log (fun l => set_lh_block (<[i := i32 (b_blockno x)]> (lh_block l)) l) ;;
  when (Z.of_nat i =? lh_n l)
    (bpin b ;; upd_log (fun l => set_lh_n (lh_n l + 1) l)) ;;
  release LkLog.
End log.
