(* ===== verification/LogSpec.v ===== *)
(** * The log on the medium

    The header block names the home blocks of a committed transaction; the
    blocks behind it hold their contents.  [replay] is the disk that recovery
    has to produce from a medium. *)

From S2P Require Import Prelude Spinlock Riscv Kalloc Vm Queue PriorityQueue KString Proc FsState FsBytes Virtio World Bio Log.

Ltac Zify.zify_post_hook ::= Z.to_euclidean_division_equations.

Implicit Types (m : gmap Z (list Z)) (hs : list Z) (t : nat).

Section layout.
Context (start : Z).

(** The log area: the header and the blocks behind it. *)
Definition in_log (n : Z) : Prop := start <= n < start + LOGSIZE.
Definition log_block (t : nat) : Z := start + Z.of_nat t + 1.

(** The header block. *)
Definition hdr_count (d : list Z) : Z := i32 (get32 d hdr_n).
Definition hdr_targets (d : list Z) : list Z := (fun t => i32 (get32 d (hdr_block t))) <$> seq 0 (Z.to_nat (hdr_count d)).
Definition targets m : list Z := hdr_targets (blk m start).

(** A transaction that fits the log. *)
Record log_ok hs : Prop := {
  lo_start : 0 <= start /\ start + LOGSIZE < 2 ^ 31;
  lo_fits : Z.of_nat (length hs) < LOGSIZE;
  lo_nodup : NoDup hs;
  lo_homes : forall h, h ∈ hs -> 0 <= h < 2 ^ 31 /\ ~ in_log h
}.

(** What recovery makes of a medium. *)
Definition install m hs : gmap Z (list Z) :=
  foldl (fun a th => <[snd th := blk m (log_block (fst th))]> a) m (imap pair hs).
Definition replay m : gmap Z (list Z) := install m (targets m).

Lemma install_snoc m hs h : install m (hs ++ [h]) = <[h := blk m (log_block (length hs))]> (install m hs).
Proof. unfold install. rewrite imap_app, foldl_app. cbn. by rewrite Nat.add_0_r. Qed.

Lemma blk_insert_eq m n d : blk (<[n := d]> m) n = d.
Proof. unfold blk. by rewrite lookup_insert_eq. Qed.
Lemma blk_insert_ne m n n' d : n' <> n -> blk (<[n := d]> m) n' = blk m n'.
Proof. intros. unfold blk. by rewrite lookup_insert_ne. Qed.

Lemma install_out m hs n : (n ∉ hs) -> blk (install m hs) n = blk m n.
Proof.
  induction hs as [|h hs IH] using rev_ind; [done|]. intros [H1 H2]%not_elem_of_app.
  rewrite install_snoc, blk_insert_ne; [by apply IH|]. intros ->. apply H2. by left.
Qed.
Lemma install_in m hs t h : NoDup hs -> hs !! t = Some h -> blk (install m hs) h = blk m (log_block t).
Proof.
  induction hs as [|g hs IH] using rev_ind; [done|]. intros (Hd & Hn & _)%NoDup_app Ht. rewrite install_snoc.
  apply lookup_app_Some in Ht as [Ht|[Hl Ht]].
  - rewrite blk_insert_ne; [by apply IH|]. intros ->. apply (Hn g); [by eapply list_elem_of_lookup_2|by left].
  - destruct (t - length hs)%nat as [|j] eqn:E; [|by destruct j]. injection Ht as ->.
    rewrite blk_insert_eq. do 2 f_equal. lia.
Qed.

Lemma log_block_in t : Z.of_nat t + 1 < LOGSIZE -> in_log (log_block t).
Proof. unfold in_log, log_block. lia. Qed.
Lemma start_in : in_log start.
Proof. unfold in_log, LOGSIZE, MAXOPBLOCKS. lia. Qed.
Lemma log_block_neq t : log_block t <> start.
Proof. unfold log_block. lia. Qed.
Lemma log_block_inj t t' : log_block t = log_block t' -> t = t'.
Proof. unfold log_block. lia. Qed.

(** An installed block keeps the log, and a log once installed can be
    installed again. *)
Lemma install_log m hs n : log_ok hs -> in_log n -> blk (install m hs) n = blk m n.
Proof. intros H Hn. apply install_out. intros Hi. by apply (lo_homes _ H n). Qed.

(** Media that agree on the log and outside the homes are recovered alike. *)
Lemma install_agree m m' hs n :
  NoDup hs -> (forall t h, hs !! t = Some h -> blk m' (log_block t) = blk m (log_block t)) ->
  ((n ∉ hs) -> blk m' n = blk m n) -> blk (install m' hs) n = blk (install m hs) n.
Proof.
  intros Hd Hl Hn. destruct (decide (n ∈ hs)) as [Hi|Hi].
  - apply list_elem_of_lookup_1 in Hi as [t Ht]. rewrite !(install_in _ _ _ _ Hd Ht). by eapply Hl.
  - rewrite !install_out by done. by apply Hn.
Qed.

(** ** Writing the header *)

Definition write_hdr (d : list Z) hs : list Z :=
  put_words (put32 d hdr_n (Z.of_nat (length hs))) 4 (fun t => default 0 (hs !! t)) (length hs).

Lemma write_hdr_length d hs : length (write_hdr d hs) = length d.
Proof. unfold write_hdr. by rewrite put_words_length, put32_length. Qed.

Lemma hdr_count_written d hs : length d = Z.to_nat BSIZE -> Z.of_nat (length hs) < LOGSIZE ->
  hdr_count (write_hdr d hs) = Z.of_nat (length hs).
Proof.
  intros Hd Hf. unfold LOGSIZE, MAXOPBLOCKS, BSIZE in *. unfold hdr_count, hdr_n, write_hdr.
  rewrite (get32_ext _ (put32 d 0 (Z.of_nat (length hs))) 0) by (intros; apply put_words_other; lia).
  rewrite get32_put32 by lia. apply i32_u32. lia.
Qed.

Lemma hdr_roundtrip d hs : length d = Z.to_nat BSIZE -> log_ok hs -> hdr_targets (write_hdr d hs) = hs.
Proof.
  intros Hd Hok. pose proof (lo_fits _ Hok) as Hf.
  assert (4 + 4 * length hs <= length d)%nat as Hlen by (rewrite Hd; unfold LOGSIZE, MAXOPBLOCKS, BSIZE in *; lia).
  unfold hdr_targets. rewrite hdr_count_written, Nat2Z.id by done. apply list_eq. intros t. rewrite list_lookup_fmap.
  destruct (decide (t < length hs)%nat) as [Ht|Ht].
  - rewrite lookup_seq_lt by done. destruct (lookup_lt_is_Some_2 hs t Ht) as [h Hh]. rewrite Hh.
    change (Some (i32 (get32 (write_hdr d hs) (hdr_block t))) = Some h).
    unfold write_hdr, hdr_block. rewrite get32_put_words by (rewrite ?put32_length; lia). rewrite Hh. f_equal.
    apply i32_u32. destruct (lo_homes _ Hok h) as [? _]; [by eapply list_elem_of_lookup_2|]. lia.
  - rewrite lookup_seq_ge, (lookup_ge_None_2 hs) by lia. done.
Qed.

(** ** What recovery makes of a medium *)

(** A header that can be read back. *)
Record hdr_ok m : Prop := {
  ho_count : 0 <= hdr_count (blk m start);
  ho_ok : log_ok (targets m)
}.

(** The medium is recovered to the contents [c]. *)
Definition recovers_to m (c : Z -> list Z) : Prop := hdr_ok m /\ forall n, ~ in_log n -> blk (replay m) n = c n.

Lemma hdr_ok_same m m' : blk m' start = blk m start -> hdr_ok m -> hdr_ok m'.
Proof. intros E [H1 H2]. split; unfold targets in *; by rewrite E. Qed.

Lemma hdr_ok_written m hs : length (blk m start) = Z.to_nat BSIZE -> log_ok hs ->
  let m' := <[start := write_hdr (blk m start) hs]> m in hdr_ok m' /\ targets m' = hs.
Proof.
  intros Hl Hok m'. assert (targets m' = hs) as Et.
  { unfold targets, m'. rewrite blk_insert_eq. by apply hdr_roundtrip. }
  split; [|done]. split; [|by rewrite Et]. unfold m'. rewrite blk_insert_eq, hdr_count_written by (done || apply Hok). lia.
Qed.

(** Installing some of the blocks does not change what is recovered. *)
Lemma recovers_installed m t c : recovers_to m c -> recovers_to (install m (take t (targets m))) c.
Proof.
  intros [Hh Hc]. pose proof (ho_ok _ Hh) as Hok.
  assert (forall n, in_log n -> blk (install m (take t (targets m))) n = blk m n) as Hlog.
  { intros n Hn. apply install_out. intros (j & Hj)%list_elem_of_lookup_1. apply lookup_take_Some in Hj as [Hj _].
    by apply (lo_homes _ Hok n); [eapply list_elem_of_lookup_2|]. }
  assert (targets (install m (take t (targets m))) = targets m) as Et by (unfold targets at 1; by rewrite Hlog by apply start_in).
  split; [eapply hdr_ok_same; [|exact Hh]; apply Hlog, start_in|]. intros n Hn. unfold replay. rewrite Et, <- Hc by done.
  apply install_agree; [apply Hok| |].
  - intros j h Hj%lookup_lt_Some. apply Hlog, log_block_in. pose proof (lo_fits _ Hok). lia.
  - intros Hni. apply install_out. intros (j & Hj)%list_elem_of_lookup_1. apply lookup_take_Some in Hj as [Hj _].
    apply Hni. by eapply list_elem_of_lookup_2.
Qed.

(** Erasing the transaction once it is installed neither. *)
Lemma recovers_erased m c : recovers_to m c -> length (blk m start) = Z.to_nat BSIZE ->
  let m' := <[start := write_hdr (blk m start) []]> (install m (targets m)) in
  recovers_to m' c /\ targets m' = [] /\ forall n, ~ in_log n -> blk m' n = c n.
Proof.
  intros [Hh Hc] Hl m'. pose proof (ho_ok _ Hh) as Hok.
  assert (blk (install m (targets m)) start = blk m start) as Es by (by apply install_log; [|apply start_in]).
  assert (log_ok []) as Hnil.
  { destruct Hok as [? ? ? ?]. split; [done|done|constructor|by intros h ?%not_elem_of_nil]. }
  destruct (hdr_ok_written (install m (targets m)) []) as [H1 H2]; [by rewrite Es|done|]. rewrite Es in H1, H2. fold m' in H1, H2.
  assert (forall n, ~ in_log n -> blk m' n = c n) as Hn.
  { intros n Hn. unfold m'. rewrite blk_insert_ne by (intros ->; apply Hn, start_in). by apply Hc. }
  split_and!; [|done|done]. split; [done|]. intros n Hni. unfold replay. rewrite H2. by apply Hn.
Qed.
End layout.
