(* ===== verification/LogProofs.v ===== *)
(** * The log over the buffer cache

    What write_log, write_head, read_head, install_trans and commit do to the
    medium, and what a crash at any point of them leaves, proved against the
    interface of the buffer cache. *)

From S2P Require Import Prelude Spinlock Riscv Kalloc Vm Queue PriorityQueue KString Proc ProcProofs ProcLife FsState FsBytes Env Sleeplock Virtio World VirtioProofs Bio BioProofs Log LogSpec.

Ltac Zify.zify_post_hook ::= Z.to_euclidean_division_equations.

(** ** The abstract operations, computed *)

Section compute.
Implicit Types (D : gmap Z (list Z)) (R : gmap Z (nat * list Z)) (H : gmap Z nat).

Lemma x_read_eq D R H n b r d : block_of (mk_bst D R H) n = (r, d) ->
  x_read (mk_bst D R H) n b = mk_bst D (<[n := (S r, d)]> R) (<[n := b]> H).
Proof. intros E. unfold x_read, view. by rewrite E. Qed.
Lemma x_set_eq D R H n r d e : R !! n = Some (r, d) -> x_set (mk_bst D R H) n e = mk_bst D (<[n := (r, e)]> R) H.
Proof. intros E. unfold x_set. by rewrite (block_of_Some (mk_bst D R H) _ _ _ E). Qed.
Lemma x_write_eq D R H n r d : R !! n = Some (r, d) -> x_write (mk_bst D R H) n = mk_bst (<[n := d]> D) R H.
Proof. intros E. unfold x_write, view. by rewrite (block_of_Some (mk_bst D R H) _ _ _ E). Qed.
Lemma x_release_last D R H n d : R !! n = Some (1%nat, d) -> x_release (mk_bst D R H) n = mk_bst D (delete n R) (delete n H).
Proof. intros E. unfold x_release, x_unref. by rewrite (block_of_Some (mk_bst D R H) _ _ _ E). Qed.
Lemma x_release_more D R H n r d : R !! n = Some (S (S r), d) ->
  x_release (mk_bst D R H) n = mk_bst D (<[n := (S r, d)]> R) (delete n H).
Proof. intros E. unfold x_release, x_unref, view. by rewrite (block_of_Some (mk_bst D R H) _ _ _ E). Qed.
Lemma x_unpin_more D R H n r d : R !! n = Some (S (S r), d) ->
  x_unpin (mk_bst D R H) n = mk_bst D (<[n := (S r, d)]> R) H.
Proof. intros E. unfold x_unpin, x_unref, view. by rewrite (block_of_Some (mk_bst D R H) _ _ _ E). Qed.
Lemma view_Some D R H n r d : R !! n = Some (r, d) -> view (mk_bst D R H) n = d.
Proof. intros E. unfold view. by rewrite (block_of_Some (mk_bst D R H) _ _ _ E). Qed.
Lemma view_None D R H n : R !! n = None -> view (mk_bst D R H) n = blk D n.
Proof. intros E. unfold view. by rewrite (block_of_None (mk_bst D R H) _ E). Qed.
Lemma cnt_Some D R H n r d : R !! n = Some (r, d) -> fst (block_of (mk_bst D R H) n) = r.
Proof. intros E. by rewrite (block_of_Some (mk_bst D R H) _ _ _ E). Qed.
End compute.

(** Equality of maps built by insertions and deletions. *)
Ltac maps := apply map_eq; intros ?j;
  repeat match goal with
  | |- context [<[?n := _]> _ !! j] => destruct (decide (j = n)) as [->|]; simplify_map_eq
  | |- context [delete ?n _ !! j] => destruct (decide (j = n)) as [->|]; simplify_map_eq
  end; try done; try congruence.

Section log.
Context {waits : Waits} {mmio : VirtioMmio} {env : st (kst fsys) -> st (kst fsys)} {i : nat} {pid0 dev : Z}.
Context {rep : fsys -> bstate -> Prop} {BL : BlockLayer env i pid0 dev rep} (start : Z).
Implicit Types (f : fsys) (x : bstate) (k : kst fsys) (P : gmap Z (list Z) -> Prop) (hs : list Z).
Implicit Types (D : gmap Z (list Z)) (R : gmap Z (nat * list Z)).

(** The log in memory, with the transaction [hs]. *)
Record log_mem (l : log) hs : Prop := {
  lm_start : l_start l = start;
  lm_dev : u32 (l_dev l) = dev;
  lm_n : lh_n l = Z.of_nat (length hs);
  lm_len : length (lh_block l) = Z.to_nat LOGSIZE;
  lm_block : forall t h, hs !! t = Some h -> lh_block l !! t = Some h
}.

Lemma kept_lg f k f' k' : kept i pid0 f k f' k' -> lg f' = lg f.
Proof. intros [[] _ _]. done. Qed.

Lemma wp_log_dev f k hl hs (Q : Z -> st (kst fsys) -> Prop) :
  log_mem (lg f) hs -> Q dev (mk_st hl (set_files f k)) -> wp log_dev Q (mk_st hl (set_files f k)).
Proof. intros H HQ. apply wp_fs_gets. by rewrite (lm_dev _ _ H). Qed.
Lemma wp_log_start f k hl hs (Q : Z -> st (kst fsys) -> Prop) :
  log_mem (lg f) hs -> Q start (mk_st hl (set_files f k)) -> wp (fs_gets (fun s => l_start (lg s))) Q (mk_st hl (set_files f k)).
Proof. intros H HQ. apply wp_fs_gets. by rewrite (lm_start _ _ H). Qed.
Lemma wp_lh_at f k hl hs t h (Q : Z -> st (kst fsys) -> Prop) :
  log_mem (lg f) hs -> hs !! t = Some h -> Q h (mk_st hl (set_files f k)) -> wp (lh_at t) Q (mk_st hl (set_files f k)).
Proof. intros H Ht HQ. eapply wp_fs_deref; [|exact HQ]. by apply H. Qed.
Lemma wp_log_range f k hl hs (Q : list nat -> st (kst fsys) -> Prop) :
  log_mem (lg f) hs -> Q (seq 0 (length hs)) (mk_st hl (set_files f k)) -> wp log_range Q (mk_st hl (set_files f k)).
Proof. intros H HQ. unfold log_range. wp_step. apply wp_fs_gets. apply wp_ret. by rewrite (lm_n _ _ H), Nat2Z.id. Qed.

(** Copying one held block over another. *)
Lemma wp_copy_block f x n m b c k (Q : unit -> st (kst fsys) -> Prop) :
  rep f x -> at_work i pid0 k -> bH x !! n = Some b -> bH x !! m = Some c ->
  (forall f', rep f' (x_set x n (view x m)) -> kept i pid0 f k f' k -> Q tt (mk_st [] (set_files f' k))) ->
  wp (copy_block b c) Q (mk_st [] (set_files f k)).
Proof.
  intros H Hw Hb Hc HQ. pose proof (bl_view f x n H) as Ln. pose proof (bl_view f x m H) as Lm.
  unfold copy_block. wp_step. eapply bl_bdata; [done|exact Hc|]. wp_step. eapply bl_bdata; [done|exact Hb|].
  rewrite take_ge by lia. rewrite splice_whole by lia. by eapply bl_set_bdata.
Qed.

(** The numbers of the blocks, as the code computes them. *)
Lemma u32_log_block hs t h : log_ok start hs -> hs !! t = Some h ->
  u32 (start + Z.of_nat t + 1) = log_block start t /\ 0 <= log_block start t < 2 ^ 31 /\ u32 h = h /\ 0 <= h < 2 ^ 31 /\
  h <> log_block start t /\ in_log start (log_block start t).
Proof.
  intros Hok Ht. pose proof (lo_start _ _ Hok). pose proof (lo_fits _ _ Hok). apply lookup_lt_Some in Ht as Hlt.
  destruct (lo_homes _ _ Hok h) as [Hh Hn]; [by eapply list_elem_of_lookup_2|].
  assert (in_log start (log_block start t)) as Hin by (apply log_block_in; lia).
  unfold log_block in *. unfold in_log in *. unfold LOGSIZE, MAXOPBLOCKS in *.
  split_and!; try lia; try (apply u32_id; lia).
Qed.

(** *** One block written to the log *)
Lemma wpe_write_log_block P f D R t h v k hs (Q : unit -> st (kst fsys) -> Prop) :
  rep f (mk_bst D R ∅) -> at_work i pid0 k -> log_mem (lg f) hs -> log_ok start hs -> hs !! t = Some h ->
  R !! h = Some (1%nat, v) -> R !! log_block start t = None -> (size R < NBUF)%nat -> P D -> P (<[log_block start t := v]> D) ->
  (forall f' k', rep f' (mk_bst (<[log_block start t := v]> D) R ∅) -> kept i pid0 f k f' k' -> Q tt (mk_st [] (set_files f' k'))) ->
  wpe env (on_medium P) (write_log_block t) Q (mk_st [] (set_files f k)).
Proof.
  intros H Hw Hm Hok Ht Hv Hnone Hs HP HP' HQ.
  destruct (u32_log_block hs t h Hok Ht) as (E1 & L1 & E2 & L2 & Hne & _). set (n := log_block start t) in *.
  unfold write_log_block. wpe_step. apply wp_wpe. apply (wp_log_dev f k [] hs); [done|]. wpe_step. apply wp_wpe. apply (wp_log_start f k [] hs); [done|].
  rewrite E1. wpe_step. eapply bl_bread; [exact H|done|done|done|by right| |done|].
  { rewrite block_of_None by done. done. }
  intros to f1 k1 H1 K1. rewrite (x_read_eq _ _ _ _ _ 0 (blk D n)) in H1 by (by apply block_of_None).
  pose proof (kept_lg _ _ _ _ K1) as G1. wpe_step. apply wp_wpe. apply (wp_lh_at f1 k1 [] hs t h); [by rewrite G1|done|]. rewrite E2.
  wpe_step. eapply bl_bread; [exact H1|apply K1|cbn; by simplify_map_eq|done| | |done|].
  { left. cbn. rewrite lookup_insert_ne by done. by exists (1%nat, v). }
  { rewrite (block_of_Some _ _ 1 v) by (cbn; by simplify_map_eq). done. }
  intros from f2 k2 H2 K2. rewrite (x_read_eq _ _ _ _ _ 1 v) in H2 by (apply block_of_Some; cbn; by simplify_map_eq).
  wpe_step. apply wp_wpe. eapply (wp_copy_block f2 _ n h to from); [exact H2|apply K2|cbn; by simplify_map_eq|cbn; by simplify_map_eq|].
  intros f3 H3 K3. rewrite (view_Some _ _ _ _ 2 v) in H3 by by simplify_map_eq.
  rewrite (x_set_eq _ _ _ _ 1 (blk D n)) in H3 by by simplify_map_eq.
  wpe_step. eapply (bl_bwrite P f3 _ n to); [exact H3|apply K3|cbn; by simplify_map_eq|done| |].
  { rewrite (view_Some _ _ _ _ 1 v) by by simplify_map_eq. done. }
  intros f4 k4 H4 K4. rewrite (x_write_eq _ _ _ _ 1 v) in H4 by by simplify_map_eq.
  wpe_step. apply wp_wpe. eapply (bl_brelse f4 _ h from); [exact H4|apply K4|cbn; by simplify_map_eq| |].
  { rewrite (cnt_Some _ _ _ _ 2 v) by by simplify_map_eq. done. }
  intros f5 H5 K5. rewrite (x_release_more _ _ _ _ 0 v) in H5 by by simplify_map_eq.
  apply wp_wpe. eapply (bl_brelse f5 _ n to); [exact H5|apply K5|cbn; by simplify_map_eq| |].
  { intros _. rewrite (view_Some _ _ _ _ 1 v) by by simplify_map_eq. cbn. by rewrite blk_insert_eq. }
  intros f6 H6 K6. rewrite (x_release_last _ _ _ _ v) in H6 by by simplify_map_eq.
  apply HQ; [|eauto 7 using kept_trans].
  replace (mk_bst (<[n := v]> D) R ∅) with (mk_bst (<[n := v]> D)
    (delete n (<[h := (1%nat, v)]> (<[n := (1%nat, v)]> (<[h := (2%nat, v)]> (<[n := (1%nat, blk D n)]> R)))))
    (delete n (delete h (<[h := from]> (<[n := to]> ∅))))); [exact H6|]. f_equal; maps.
Qed.

(** *** One block installed at its home *)

(** The reference of a pinned block is given up after the transaction. *)
Lemma wpe_unpin_home (b : bool) P f D R H h db d k (Q : unit -> st (kst fsys) -> Prop) :
  rep f (mk_bst D R H) -> at_work i pid0 k -> H !! h = Some db -> R !! h = Some (if b then 2%nat else 1%nat, d) ->
  (forall f', rep f' (mk_bst D (<[h := (1%nat, d)]> R) H) -> kept i pid0 f k f' k -> Q tt (mk_st [] (set_files f' k))) ->
  wpe env (on_medium P) (when b (bunpin db)) Q (mk_st [] (set_files f k)).
Proof.
  intros Hr Hw Hh HR HQ. apply wp_wpe. destruct b; cbn [when].
  - eapply (bl_bunpin f _ h db); [exact Hr|done|done|apply not_elem_of_nil|rewrite (cnt_Some _ _ _ _ 2 d) by done; lia|].
    intros f' Hr' K. rewrite (x_unpin_more _ _ _ _ 0 d) in Hr' by done. by apply HQ.
  - apply wp_ret, HQ; [|by apply kept_rest]. by rewrite insert_id.
Qed.

(** The home block is pinned, unless the log is being recovered. *)
Definition pinned (recovering : bool) R (h : Z) : Prop :=
  if recovering then R !! h = None else exists v, R !! h = Some (1%nat, v).

Lemma wpe_install_block P f D R t h k hs recovering (Q : unit -> st (kst fsys) -> Prop) :
  rep f (mk_bst D R ∅) -> at_work i pid0 k -> log_mem (lg f) hs -> log_ok start hs -> hs !! t = Some h ->
  pinned recovering R h -> R !! log_block start t = None -> (size R + 1 < NBUF \/ recovering = false /\ size R < NBUF)%nat ->
  P D -> P (<[h := blk D (log_block start t)]> D) ->
  (forall f' k', rep f' (mk_bst (<[h := blk D (log_block start t)]> D) (delete h R) ∅) -> kept i pid0 f k f' k' ->
     Q tt (mk_st [] (set_files f' k'))) ->
  wpe env (on_medium P) (install_block recovering t) Q (mk_st [] (set_files f k)).
Proof.
  intros H Hw Hm Hok Ht Hpin Hnone Hs HP HP' HQ.
  destruct (u32_log_block hs t h Hok Ht) as (E1 & L1 & E2 & L2 & Hne & _). set (n := log_block start t) in *. set (d := blk D n) in *.
  assert (exists r v, block_of (mk_bst D R ∅) h = (r, v) /\ r = (if recovering then 0 else 1)%nat /\
    (is_Some (R !! h) \/ (size R + 1 < NBUF)%nat)) as (r & v & Er & Hr & Hroom).
  { unfold pinned in Hpin. destruct recovering.
    - exists 0%nat, (blk D h). split_and!; [by apply block_of_None|done|]. destruct Hs as [?|[? _]]; [by right|done].
    - destruct Hpin as [v Hv]. exists 1%nat, v. split_and!; [by apply block_of_Some|done|]. left. by exists (1%nat, v). }
  unfold install_block. wpe_step. apply wp_wpe. apply (wp_log_dev f k [] hs); [done|]. wpe_step. apply wp_wpe. apply (wp_log_start f k [] hs); [done|].
  rewrite E1. wpe_step. eapply bl_bread; [exact H|done|done|done|right; cbn; lia| |done|].
  { rewrite block_of_None by done. done. }
  intros lb f1 k1 H1 K1. rewrite (x_read_eq _ _ _ _ _ 0 d) in H1 by (by apply block_of_None).
  pose proof (kept_lg _ _ _ _ K1) as G1. wpe_step. apply wp_wpe. apply (wp_lh_at f1 k1 [] hs t h); [by rewrite G1|done|]. rewrite E2.
  assert (block_of (mk_bst D (<[n := (1%nat, d)]> R) (<[n := lb]> ∅)) h = (r, v)) as Er1.
  { rewrite <- Er. unfold block_of. cbn. by rewrite lookup_insert_ne. }
  wpe_step. eapply bl_bread; [exact H1|apply K1|cbn; by simplify_map_eq|done| | |done|].
  { cbn. rewrite lookup_insert_ne by done. destruct Hroom as [?|?]; [by left|right]. rewrite map_size_insert_None by done. lia. }
  { rewrite Er1. cbn [fst]. subst r. destruct recovering; done. }
  intros db f2 k2 H2 K2. rewrite (x_read_eq _ _ _ _ _ r v) in H2 by done.
  wpe_step. apply wp_wpe. eapply (wp_copy_block f2 _ h n db lb); [exact H2|apply K2|cbn; by simplify_map_eq|cbn; by simplify_map_eq|].
  intros f3 H3 K3. rewrite (view_Some _ _ _ _ 1 d) in H3 by by simplify_map_eq.
  rewrite (x_set_eq _ _ _ _ (S r) v) in H3 by by simplify_map_eq.
  wpe_step. eapply (bl_bwrite P f3 _ h db); [exact H3|apply K3|cbn; by simplify_map_eq|done| |].
  { rewrite (view_Some _ _ _ _ (S r) d) by by simplify_map_eq. done. }
  intros f4 k4 H4 K4. rewrite (x_write_eq _ _ _ _ (S r) d) in H4 by by simplify_map_eq.
  wpe_step. apply (wpe_unpin_home (negb recovering) P f4 (<[h := d]> D) (<[h := (S r, d)]> (<[h := (S r, v)]> (<[n := (1%nat, d)]> R)))
    (<[h := db]> (<[n := lb]> ∅)) h db d); [exact H4|apply K4|by simplify_map_eq|subst r; destruct recovering; by simplify_map_eq|].
  intros f5 H5 K5. wpe_step. apply wp_wpe. eapply (bl_brelse f5 _ n lb); [exact H5|apply K5|cbn; by simplify_map_eq| |].
  { intros _. rewrite (view_Some _ _ _ _ 1 d) by by simplify_map_eq. cbn. by rewrite blk_insert_ne. }
  intros f6 H6 K6. rewrite (x_release_last _ _ _ _ d) in H6 by by simplify_map_eq.
  apply wp_wpe. eapply (bl_brelse f6 _ h db); [exact H6|apply K6|cbn; by simplify_map_eq| |].
  { intros _. rewrite (view_Some _ _ _ _ 1 d) by by simplify_map_eq. cbn. by rewrite blk_insert_eq. }
  intros f7 H7 K7. rewrite (x_release_last _ _ _ _ d) in H7 by by simplify_map_eq.
  apply HQ; [|eauto 8 using kept_trans].
  match type of H7 with rep _ (mk_bst _ ?R1 ?H1) => replace (delete h R) with R1 by maps; replace (∅ : gmap Z nat) with H1 by maps end.
  exact H7.
Qed.

(** ** The loops *)

(** The medium with the first [t] log blocks written. *)
Fixpoint logged (val : nat -> list Z) D (t : nat) : gmap Z (list Z) :=
  match t with O => D | S t' => <[log_block start t' := val t']> (logged val D t') end.

Lemma logged_other val D t n : (forall j, (j < t)%nat -> n <> log_block start j) -> blk (logged val D t) n = blk D n.
Proof.
  induction t as [|t IH]; intros H; [done|]. cbn. rewrite blk_insert_ne by (apply H; lia). apply IH. intros j Hj. apply H. lia.
Qed.
Lemma logged_block val D t j : (j < t)%nat -> blk (logged val D t) (log_block start j) = val j.
Proof.
  induction t as [|t IH]; intros H; [lia|]. cbn. destruct (decide (j = t)) as [->|].
  - apply blk_insert_eq.
  - rewrite blk_insert_ne by (intros E%log_block_inj; lia). apply IH. lia.
Qed.

(** The contents of the transaction's blocks. *)
Definition value R hs (t : nat) : list Z := default [] (h ← hs !! t; snd <$> R !! h).

Lemma wpe_write_log P f D R k hs (Q : unit -> st (kst fsys) -> Prop) :
  rep f (mk_bst D R ∅) -> at_work i pid0 k -> log_mem (lg f) hs -> log_ok start hs ->
  (forall h, h ∈ hs -> pinned false R h) -> (forall n, in_log start n -> R !! n = None) -> (size R < NBUF)%nat ->
  (forall t, (t <= length hs)%nat -> P (logged (value R hs) D t)) ->
  (forall f' k', rep f' (mk_bst (logged (value R hs) D (length hs)) R ∅) -> kept i pid0 f k f' k' -> Q tt (mk_st [] (set_files f' k'))) ->
  wpe env (on_medium P) write_log Q (mk_st [] (set_files f k)).
Proof.
  intros H Hw Hm Hok Hpin Hlog Hs HP HQ. unfold write_log. wpe_step. apply wp_wpe. apply (wp_log_range f k [] hs); [done|].
  apply (wpe_for_seq _ _ (fun t s => exists f' k', s = mk_st [] (set_files f' k') /\
    rep f' (mk_bst (logged (value R hs) D t) R ∅) /\ kept i pid0 f k f' k')).
  - exists f, k. split_and!; [done|done|]. by apply kept_rest.
  - intros t s Ht (f1 & k1 & -> & H1 & K1). destruct (lookup_lt_is_Some_2 hs t Ht) as [h Hh].
    destruct (Hpin h) as [v Hv]; [by eapply list_elem_of_lookup_2|].
    assert (value R hs t = v) as Ev by (unfold value; rewrite Hh; cbn; by rewrite Hv).
    eapply (wpe_write_log_block P f1 _ R t h v k1 hs); [exact H1|apply K1|by rewrite (kept_lg _ _ _ _ K1)|done|done|done| |done|apply HP; lia| |].
    + apply Hlog, (u32_log_block hs t h Hok Hh).
    + rewrite <- Ev. apply (HP (S t)). lia.
    + intros f2 k2 H2 K2. exists f2, k2. split_and!; [done| |by eapply kept_trans]. cbn. by rewrite Ev.
  - intros s (f1 & k1 & -> & H1 & K1). by apply HQ.
Qed.

Lemma size_delete_le {A} (R1 : gmap Z A) n : (size (delete n R1) <= size R1)%nat.
Proof. rewrite map_size_delete. destruct (R1 !! n); cbn; lia. Qed.

(** The references left after the blocks [l] are installed. *)
Definition dropped R (l : list Z) : gmap Z (nat * list Z) := foldl (fun a h => delete h a) R l.
Lemma dropped_snoc R l h : dropped R (l ++ [h]) = delete h (dropped R l).
Proof. unfold dropped. by rewrite foldl_app. Qed.
Lemma dropped_out R l n : (n ∉ l) -> dropped R l !! n = R !! n.
Proof.
  induction l as [|h l IH] using rev_ind; [done|]. intros [H1 H2]%not_elem_of_app. rewrite dropped_snoc.
  rewrite lookup_delete_ne; [by apply IH|]. intros ->. apply H2. by left.
Qed.
Lemma dropped_in R l n : n ∈ l \/ R !! n = None -> dropped R l !! n = None.
Proof.
  induction l as [|h l IH] using rev_ind; [by intros [?%not_elem_of_nil|?]|]. rewrite dropped_snoc. intros H.
  destruct (decide (n = h)) as [->|]; [apply lookup_delete_eq|]. rewrite lookup_delete_ne by done. apply IH.
  destruct H as [[?|?%list_elem_of_singleton]%elem_of_app|?]; [by left|done|by right].
Qed.
Lemma dropped_size R l : (size (dropped R l) <= size R)%nat.
Proof.
  induction l as [|h l IH] using rev_ind; [done|]. rewrite dropped_snoc. pose proof (size_delete_le (dropped R l) h). lia.
Qed.

Lemma wpe_install_trans P f D R k hs recovering (Q : unit -> st (kst fsys) -> Prop) :
  rep f (mk_bst D R ∅) -> at_work i pid0 k -> log_mem (lg f) hs -> log_ok start hs ->
  (forall h, h ∈ hs -> pinned recovering R h) -> (forall n, in_log start n -> R !! n = None) ->
  (size R + 1 < NBUF \/ recovering = false /\ size R < NBUF)%nat ->
  (forall t, (t <= length hs)%nat -> P (install start D (take t hs))) ->
  (forall f' k', rep f' (mk_bst (install start D hs) (dropped R hs) ∅) -> kept i pid0 f k f' k' -> Q tt (mk_st [] (set_files f' k'))) ->
  wpe env (on_medium P) (install_trans recovering) Q (mk_st [] (set_files f k)).
Proof.
  intros H Hw Hm Hok Hpin Hlog Hs HP HQ. unfold install_trans. wpe_step. apply wp_wpe. apply (wp_log_range f k [] hs); [done|].
  apply (wpe_for_seq _ _ (fun t s => exists f' k', s = mk_st [] (set_files f' k') /\
    rep f' (mk_bst (install start D (take t hs)) (dropped R (take t hs)) ∅) /\ kept i pid0 f k f' k')).
  - exists f, k. rewrite take_0. split_and!; [done|done|]. by apply kept_rest.
  - intros t s Ht (f1 & k1 & -> & H1 & K1). destruct (lookup_lt_is_Some_2 hs t Ht) as [h Hh].
    destruct (u32_log_block hs t h Hok Hh) as (_ & _ & _ & _ & _ & Hin).
    assert (h ∉ take t hs) as Hnew.
    { intros (j & Hj)%list_elem_of_lookup_1. apply lookup_take_Some in Hj as [Hj Hlt].
      pose proof (NoDup_lookup _ _ _ _ (lo_nodup _ _ Hok) Hj Hh). lia. }
    assert (blk (install start D (take t hs)) (log_block start t) = blk D (log_block start t)) as Elog.
    { apply install_out. intros (j & Hj)%list_elem_of_lookup_1. apply lookup_take_Some in Hj as [Hj _].
      by apply (lo_homes _ _ Hok (log_block start t)); [eapply list_elem_of_lookup_2|]. }
    assert (<[h := blk D (log_block start t)]> (install start D (take t hs)) = install start D (take (S t) hs)) as Enext.
    { rewrite (take_S_r _ _ h) by done. rewrite install_snoc, length_take. do 3 f_equal. lia. }
    pose proof (dropped_size R (take t hs)) as Hsz.
    eapply (wpe_install_block P f1 _ _ t h k1 hs recovering);
      [exact H1|apply K1|by rewrite (kept_lg _ _ _ _ K1)|done|done| | |destruct Hs as [?|[? ?]]; [left; lia|right; split; [done|lia]]|apply HP; lia| |].
    + unfold pinned. rewrite dropped_out by done. apply Hpin. by eapply list_elem_of_lookup_2.
    + apply dropped_in. right. by apply Hlog.
    + rewrite Elog, Enext. apply HP. lia.
    + rewrite Elog, Enext. intros f2 k2 H2 K2. exists f2, k2. split_and!; [done| |by eapply kept_trans].
      by rewrite <- dropped_snoc, <- (take_S_r hs t h) in H2 by done.
  - intros s (f1 & k1 & -> & H1 & K1). rewrite firstn_all in H1. by apply HQ.
Qed.

(** ** The header *)

Lemma wpe_write_head P f D R k hs (Q : unit -> st (kst fsys) -> Prop) :
  rep f (mk_bst D R ∅) -> at_work i pid0 k -> log_mem (lg f) hs -> log_ok start hs ->
  R !! start = None -> (size R < NBUF)%nat -> P D -> P (<[start := write_hdr (blk D start) hs]> D) ->
  (forall f' k', rep f' (mk_bst (<[start := write_hdr (blk D start) hs]> D) R ∅) -> kept i pid0 f k f' k' ->
     Q tt (mk_st [] (set_files f' k'))) ->
  wpe env (on_medium P) write_head Q (mk_st [] (set_files f k)).
Proof.
  intros H Hw Hm Hok Hnone Hs HP HP' HQ. destruct (lo_start _ _ Hok) as [Hs0 Hs1].
  assert (length (blk D start) = Z.to_nat BSIZE) as Hlen by (rewrite <- (bl_view f _ start H), (view_None D R) by done; done).
  assert (0 <= start < 2 ^ 31) as Hrg by (unfold LOGSIZE, MAXOPBLOCKS in Hs1; lia).
  unfold write_head. wpe_step. apply wp_wpe. apply (wp_log_dev f k [] hs); [done|]. wpe_step. apply wp_wpe. apply (wp_log_start f k [] hs); [done|].
  rewrite u32_id by lia. wpe_step. eapply bl_bread; [exact H|done|done|done|by right| |done|].
  { rewrite block_of_None by done. done. }
  intros b f1 k1 H1 K1. rewrite (x_read_eq _ _ _ _ _ 0 (blk D start)) in H1 by (by apply block_of_None).
  assert (log_mem (lg f1) hs) as Hm1 by (by rewrite (kept_lg _ _ _ _ K1)).
  wpe_step. apply wp_wpe, wp_fs_gets. rewrite (lm_n _ _ Hm1).
  wpe_step. apply wp_wpe. eapply (bl_bdata f1 _ start b); [exact H1|cbn; by simplify_map_eq|].
  rewrite (view_Some _ _ _ _ 1 (blk D start)) by by simplify_map_eq.
  wpe_step. apply wp_wpe. eapply (bl_set_bdata f1 _ start b); [exact H1|apply K1|cbn; by simplify_map_eq|by rewrite put32_length|].
  intros f2 H2 K2. rewrite (x_set_eq _ _ _ _ 1 (blk D start)) in H2 by by simplify_map_eq. rewrite insert_insert_eq in H2.
  assert (log_mem (lg f2) hs) as Hm2 by (by rewrite (kept_lg _ _ _ _ K2)).
  wpe_step. apply wp_wpe. apply (wp_log_range f2 k1 [] hs); [done|].
  set (d := put32 (blk D start) hdr_n (Z.of_nat (length hs))) in *. set (val := fun t => default 0 (hs !! t)).
  wpe_step. apply (wpe_for_seq _ _ (fun t s => exists f', s = mk_st [] (set_files f' k1) /\
    rep f' (mk_bst D (<[start := (1%nat, put_words d 4 val t)]> R) (<[start := b]> ∅)) /\ kept i pid0 f k f' k1)).
  - exists f2. split_and!; [done|done|]. by eapply kept_trans.
  - intros t s Ht (f3 & -> & H3 & K3). destruct (lookup_lt_is_Some_2 hs t Ht) as [h Hh].
    apply wp_wpe. unfold write_entry. wp_step. apply (wp_lh_at f3 k1 [] hs t h); [by rewrite (kept_lg _ _ _ _ K3)|done|].
    wp_step. eapply (bl_bdata f3 _ start b); [exact H3|cbn; by simplify_map_eq|].
    rewrite (view_Some _ _ _ _ 1 (put_words d 4 val t)) by by simplify_map_eq.
    eapply (bl_set_bdata f3 _ start b); [exact H3|apply K3|cbn; by simplify_map_eq|by rewrite put32_length, put_words_length; unfold d; rewrite put32_length|].
    intros f4 H4 K4. rewrite (x_set_eq _ _ _ _ 1 (put_words d 4 val t)), insert_insert_eq in H4 by by simplify_map_eq.
    exists f4. split_and!; [done| |by eapply kept_trans]. rewrite put_words_S. unfold val at 2. by rewrite Hh.
  - intros s (f3 & -> & H3 & K3). change (put_words d 4 val (length hs)) with (write_hdr (blk D start) hs) in H3.
    wpe_step. eapply (bl_bwrite P f3 _ start b); [exact H3|apply K3|cbn; by simplify_map_eq|done| |].
    { rewrite (view_Some _ _ _ _ 1 (write_hdr (blk D start) hs)) by by simplify_map_eq. done. }
    intros f4 k4 H4 K4. rewrite (x_write_eq _ _ _ _ 1 (write_hdr (blk D start) hs)) in H4 by by simplify_map_eq.
    apply wp_wpe. eapply (bl_brelse f4 _ start b); [exact H4|apply K4|cbn; by simplify_map_eq| |].
    { intros _. rewrite (view_Some _ _ _ _ 1 (write_hdr (blk D start) hs)) by by simplify_map_eq. cbn. by rewrite blk_insert_eq. }
    intros f5 H5 K5. rewrite (x_release_last _ _ _ _ (write_hdr (blk D start) hs)) in H5 by by simplify_map_eq.
    apply HQ; [|eauto 7 using kept_trans]. rewrite !delete_insert_id in H5 by done. done.
Qed.

(** What the operations below keep: everything but the log's own record. *)
Definition kept_log f k f' k' : Prop := kept i pid0 (set_lg (lg f') f) k f' k'.
Lemma set_lg_twice l l' f : set_lg l (set_lg l' f) = set_lg l f.
Proof. by destruct f. Qed.
Lemma kept_log_trans f k f1 k1 f2 k2 : kept_log f k f1 k1 -> kept_log f1 k1 f2 k2 -> kept_log f k f2 k2.
Proof.
  unfold kept_log. intros [[A1 A2 A3 A4 A5 A6] Aw Ak] B. eapply kept_trans; [|exact B]. split; [|done|done]. by split.
Qed.
Lemma kept_kept_log f k f' k' : kept i pid0 f k f' k' -> kept_log f k f' k'.
Proof. intros [[A1 A2 A3 A4 A5 A6] Aw Ak]. split; [|done|done]. by split. Qed.
Lemma set_lg_kept_log f k l : at_work i pid0 k -> kept_log f k (set_lg l f) k.
Proof. intros H. apply kept_rest; [done|]. by split. Qed.

Lemma wp_upd_log g hl f k (Q : unit -> st (kst fsys) -> Prop) :
  Q tt (mk_st hl (set_files (set_lg (g (lg f)) f) k)) -> wp (upd_log g) Q (mk_st hl (set_files f k)).
Proof. apply wp_fs_modify. Qed.

Lemma targets_length D : 0 <= hdr_count (blk D start) -> Z.of_nat (length (targets start D)) = hdr_count (blk D start).
Proof. intros. unfold targets, hdr_targets. rewrite length_fmap, length_seq. lia. Qed.

Lemma wpe_read_head P f D R k hs (Q : unit -> st (kst fsys) -> Prop) :
  rep f (mk_bst D R ∅) -> at_work i pid0 k -> log_mem (lg f) hs -> hdr_ok start D ->
  R !! start = None -> (size R < NBUF)%nat -> P D ->
  (forall f' k', rep f' (mk_bst D R ∅) -> log_mem (lg f') (targets start D) -> kept_log f k f' k' -> Q tt (mk_st [] (set_files f' k'))) ->
  wpe env (on_medium P) read_head Q (mk_st [] (set_files f k)).
Proof.
  intros H Hw Hm [Hc Hok] Hnone Hs HP HQ. destruct (lo_start _ _ Hok) as [Hs0 Hs1]. pose proof (targets_length D Hc) as Htl.
  pose proof (lo_fits _ _ Hok) as Hfit. set (d := blk D start) in *. set (n := length (targets start D)) in *.
  assert (0 <= start < 2 ^ 31) as Hrg by (unfold LOGSIZE, MAXOPBLOCKS in Hs1; lia).
  unfold read_head. wpe_step. apply wp_wpe. apply (wp_log_dev f k [] hs); [done|]. wpe_step. apply wp_wpe. apply (wp_log_start f k [] hs); [done|].
  rewrite u32_id by lia. wpe_step. eapply bl_bread; [exact H|done|done|done|by right| |done|].
  { rewrite block_of_None by done. done. }
  intros b f1 k1 H1 K1. rewrite (x_read_eq _ _ _ _ _ 0 d) in H1 by (by apply block_of_None).
  wpe_step. apply wp_wpe. eapply (bl_bdata f1 _ start b); [exact H1|cbn; by simplify_map_eq|].
  rewrite (view_Some _ _ _ _ 1 d) by by simplify_map_eq.
  wpe_step. apply wp_wpe, wp_upd_log. fold (hdr_count d). rewrite <- Htl.
  wpe_step. apply wp_wpe. unfold log_range. wp_step. apply wp_fs_gets. apply wp_ret. cbn [lg set_lg lh_n set_lh_n]. rewrite Nat2Z.id.
  wpe_step. apply (wpe_for_seq _ _ (fun t s => exists f', s = mk_st [] (set_files f' k1) /\
    rep f' (mk_bst D (<[start := (1%nat, d)]> R) (<[start := b]> ∅)) /\ kept_log f k f' k1 /\
    log_mem (set_lh_n (Z.of_nat t) (lg f')) (take t (targets start D)) /\ lh_n (lg f') = Z.of_nat n)).
  - eexists. split_and!; [done|by apply bl_frame| | |done].
    + eapply kept_log_trans; [by apply kept_kept_log|]. apply set_lg_kept_log, K1.
    + rewrite take_0. destruct Hm. rewrite (kept_lg _ _ _ _ K1). by split.
  - intros t s Ht (f2 & -> & H2 & K2 & M2 & N2). destruct (lookup_lt_is_Some_2 (targets start D) t Ht) as [h Hh].
    assert (i32 (get32 d (hdr_block t)) = h) as Eh.
    { pose proof Hh as Hh'. unfold targets, hdr_targets in Hh'. apply list_lookup_fmap_Some in Hh' as (j & -> & [-> _]%lookup_seq). done. }
    pose proof (lm_len _ _ M2) as Hll. cbn in Hll.
    assert (t < length (lh_block (lg f2)))%nat as Hlt by lia. destruct (lookup_lt_is_Some_2 _ _ Hlt) as [old Hold].
    apply wp_wpe. unfold read_entry. wp_step. eapply wp_fs_deref; [exact Hold|]. apply wp_upd_log. rewrite Eh.
    eexists. split_and!; [done|by apply bl_frame| | |done].
    + eapply kept_log_trans; [exact K2|]. apply set_lg_kept_log, K2.
    + destruct M2 as [M21 M22 M23 _ M25]. cbn in *. split; cbn.
      * done.
      * done.
      * rewrite length_take. lia.
      * by rewrite length_insert.
      * intros j g Hj. apply lookup_take_Some in Hj as [Hj Hjt]. destruct (decide (j = t)) as [->|Hne].
        -- rewrite list_lookup_insert_eq by done. congruence.
        -- rewrite list_lookup_insert_ne by done. apply M25. apply lookup_take_Some. split; [done|lia].
  - intros s (f2 & -> & H2 & K2 & M2 & N2). unfold n in M2. rewrite firstn_all in M2. apply wp_wpe.
    eapply (bl_brelse f2 _ start b); [exact H2|apply K2|cbn; by simplify_map_eq| |].
    { intros _. rewrite (view_Some _ _ _ _ 1 d) by by simplify_map_eq. done. }
    intros f3 H3 K3. rewrite (x_release_last _ _ _ _ d) in H3 by by simplify_map_eq. rewrite !delete_insert_id in H3 by done.
    apply HQ; [done| |].
    + rewrite (kept_lg _ _ _ _ K3). destruct M2. by split.
    + eapply kept_log_trans; [exact K2|by apply kept_kept_log].
Qed.

(** ** Committing *)

(** A transaction: exactly its blocks are in use, each pinned once. *)
Record transaction R hs : Prop := {
  tr_in : forall h, h ∈ hs -> pinned false R h;
  tr_out : forall n, (n ∉ hs) -> R !! n = None
}.

Lemma transaction_dropped R hs : transaction R hs -> dropped R hs = ∅.
Proof.
  intros [_ H]. apply map_eq. intros n. rewrite lookup_empty. apply dropped_in.
  destruct (decide (n ∈ hs)); [by left|right]. by apply H.
Qed.
Lemma transaction_size R hs : transaction R hs -> NoDup hs -> size R = length hs.
Proof.
  intros [H1 H2] Hd. rewrite <- size_dom. replace (dom R) with (list_to_set hs : gset Z); [by apply size_list_to_set|].
  apply set_eq. intros n. rewrite elem_of_list_to_set, elem_of_dom. destruct (decide (n ∈ hs)) as [Hn|Hn].
  - split; [|done]. intros _. destruct (H1 n Hn) as [v Hv]. by exists (1%nat, v).
  - split; [done|]. rewrite (H2 n Hn). by intros [? ?].
Qed.
Lemma transaction_room R hs : transaction R hs -> log_ok start hs -> (size R < NBUF)%nat /\ forall n, in_log start n -> R !! n = None.
Proof.
  intros H Hok. rewrite (transaction_size R hs) by (done || apply Hok). pose proof (lo_fits _ _ Hok) as Hf.
  unfold LOGSIZE, MAXOPBLOCKS in Hf. split; [unfold NBUF; lia|]. intros n Hn. apply H. intros Hi. by apply (lo_homes _ _ Hok n).
Qed.

(** The media of a commit. *)
Section media.
Context (D : gmap Z (list Z)) (R : gmap Z (nat * list Z)) (hs : list Z).
Context (Hok : log_ok start hs) (Ht : transaction R hs) (Hh : hdr_ok start D) (He : targets start D = [])
  (Hlen : length (blk D start) = Z.to_nat BSIZE).
Let val := value R hs.

Lemma logged_start t : blk (logged val D t) start = blk D start.
Proof. apply logged_other. intros j _ E. symmetry in E. by apply log_block_neq in E. Qed.
Lemma logged_home t n : (t <= length hs)%nat -> ~ in_log start n -> blk (logged val D t) n = blk D n.
Proof. intros H Hn. apply logged_other. intros j Hj ->. apply Hn, log_block_in. pose proof (lo_fits _ _ Hok). lia. Qed.

Lemma recovers_logged t : (t <= length hs)%nat -> recovers_to start (logged val D t) (blk D).
Proof.
  intros H. split; [eapply hdr_ok_same; [apply logged_start|done]|]. intros n Hn. unfold replay, targets. rewrite logged_start.
  unfold targets in He. rewrite He. cbn. by apply logged_home.
Qed.

Definition committed : gmap Z (list Z) := <[start := write_hdr (blk D start) hs]> (logged val D (length hs)).

Lemma recovers_committed :
  recovers_to start committed (view (mk_bst D R ∅)) /\ targets start committed = hs /\ length (blk committed start) = Z.to_nat BSIZE.
Proof.
  destruct (hdr_ok_written start (logged val D (length hs)) hs) as [H1 H2]; [by rewrite logged_start|done|].
  rewrite logged_start in H1, H2. fold committed in H1, H2.
  split_and!; [|done|unfold committed; by rewrite blk_insert_eq, write_hdr_length].
  split; [done|]. intros n Hn. unfold replay. rewrite H2. destruct (decide (n ∈ hs)) as [Hi|Hi].
  - apply list_elem_of_lookup_1 in Hi as [t Hi]. rewrite (install_in _ _ _ t n) by (done || apply Hok).
    unfold committed. rewrite blk_insert_ne by apply log_block_neq. rewrite logged_block by (by eapply lookup_lt_Some).
    destruct (tr_in _ _ Ht n) as [v Hv]; [by eapply list_elem_of_lookup_2|].
    rewrite (view_Some _ _ _ _ 1 v) by done. unfold val, value. rewrite Hi. cbn. by rewrite Hv.
  - rewrite install_out by done. unfold committed. rewrite blk_insert_ne by (intros ->; apply Hn, start_in).
    rewrite logged_home, view_None by (done || by apply Ht). done.
Qed.

(** What a crash during the commit leaves: all of the transaction or nothing. *)
Definition atomic (m : gmap Z (list Z)) : Prop := recovers_to start m (blk D) \/ recovers_to start m (view (mk_bst D R ∅)).
End media.

(** The medium after a commit or a recovery: nothing to recover. *)
Record settled (D' : gmap Z (list Z)) (c : Z -> list Z) : Prop := {
  st_hdr : hdr_ok start D';
  st_empty : targets start D' = [];
  st_home : forall n, ~ in_log start n -> blk D' n = c n
}.

(** The end of both: the transaction is installed and erased. *)
Lemma wpe_install_erase P f D R k recovering c (Q : unit -> st (kst fsys) -> Prop) :
  rep f (mk_bst D R ∅) -> at_work i pid0 k -> log_mem (lg f) (targets start D) -> recovers_to start D c ->
  (forall h, h ∈ targets start D -> pinned recovering R h) -> (forall n, in_log start n -> R !! n = None) ->
  (size R + 1 < NBUF \/ recovering = false /\ size R < NBUF)%nat ->
  (forall m, recovers_to start m c -> P m) ->
  (forall f' k' D', rep f' (mk_bst D' (dropped R (targets start D)) ∅) -> settled D' c -> log_mem (lg f') [] ->
     lg f' = set_lh_n 0 (lg f) -> kept_log f k f' k' -> Q tt (mk_st [] (set_files f' k'))) ->
  wpe env (on_medium P) (install_trans recovering ;; upd_log (set_lh_n 0) ;; write_head) Q (mk_st [] (set_files f k)).
Proof.
  intros H Hw Hm HD Hpin Hlog Hs HP HQ. pose proof (ho_ok _ _ (proj1 HD)) as Hok.
  assert (length (blk D start) = Z.to_nat BSIZE) as Hlen.
  { rewrite <- (bl_view f _ start H), view_None by (apply Hlog, start_in). done. }
  wpe_step. eapply (wpe_install_trans P f D R k (targets start D) recovering); [done..| |].
  { intros t Ht. apply HP. by apply recovers_installed. }
  intros f1 k1 H1 K1. wpe_step. apply wp_wpe, wp_upd_log.
  destruct (recovers_erased start D c HD Hlen) as (E1 & E2 & E3).
  assert (blk (install start D (targets start D)) start = blk D start) as Es by (apply install_log; [done|apply start_in]).
  assert (log_mem (set_lh_n 0 (lg f1)) []) as Hm0.
  { rewrite (kept_lg _ _ _ _ K1). destruct Hm. by split. }
  eapply (wpe_write_head P _ _ _ k1 []); [apply bl_frame; exact H1|apply K1|exact Hm0| | | | | |].
  - destruct Hok. split; [done|done|constructor|by intros h ?%not_elem_of_nil].
  - apply dropped_in. right. apply Hlog, start_in.
  - pose proof (dropped_size R (targets start D)). lia.
  - apply HP. pose proof (recovers_installed start D (length (targets start D)) c HD) as HI. by rewrite firstn_all in HI.
  - rewrite Es. by apply HP.
  - rewrite Es. intros f2 k2 H2 K2. eapply HQ; [exact H2| | | |].
    + split; [apply E1|done|done].
    + by rewrite (kept_lg _ _ _ _ K2).
    + rewrite (kept_lg _ _ _ _ K2). cbn. by rewrite (kept_lg _ _ _ _ K1).
    + eapply kept_log_trans; [by apply kept_kept_log|]. eapply kept_log_trans; [apply set_lg_kept_log, K1|by apply kept_kept_log].
Qed.

Lemma wpe_commit f D R k hs (Q : unit -> st (kst fsys) -> Prop) :
  rep f (mk_bst D R ∅) -> at_work i pid0 k -> log_mem (lg f) hs -> log_ok start hs -> transaction R hs ->
  hdr_ok start D -> targets start D = [] ->
  (forall f' k' D', rep f' (mk_bst D' ∅ ∅) -> settled D' (view (mk_bst D R ∅)) -> log_mem (lg f') [] ->
     lg f' = set_lh_n 0 (lg f) -> kept_log f k f' k' -> Q tt (mk_st [] (set_files f' k'))) ->
  wpe env (on_medium (atomic D R)) commit Q (mk_st [] (set_files f k)).
Proof.
  intros H Hw Hm Hok Ht Hh He HQ. destruct (transaction_room R hs Ht Hok) as [Hs Hlog].
  assert (length (blk D start) = Z.to_nat BSIZE) as Hlen.
  { rewrite <- (bl_view f _ start H), view_None by (apply Hlog, start_in). done. }
  destruct (recovers_committed D R hs Hok Ht Hlen) as (C1 & C2 & C3).
  unfold commit. wpe_step. apply wp_wpe, wp_fs_gets. rewrite (lm_n _ _ Hm).
  destruct (0 <? Z.of_nat (length hs)) eqn:En; cbn [when].
  - wpe_step. apply (wpe_write_log _ f D R k hs); [done..|apply Ht|done|done| |].
    { intros t Hle. left. by apply recovers_logged. }
    intros f1 k1 H1 K1. wpe_step. eapply (wpe_write_head _ f1 _ R k1 hs); [done|apply K1|by rewrite (kept_lg _ _ _ _ K1)|done|apply Hlog, start_in|done| | |].
    + left. by apply recovers_logged.
    + right. rewrite logged_start. exact C1.
    + rewrite logged_start. fold (committed D R hs). intros f2 k2 H2 K2.
      pose proof (kept_lg _ _ _ _ K1) as G1. pose proof (kept_lg _ _ _ _ K2) as G2.
      eapply (wpe_install_erase _ f2 _ R k2 false (view (mk_bst D R ∅))); [exact H2|apply K2|by rewrite C2, G2, G1|done| |done|by right| |].
      * rewrite C2. apply Ht.
      * intros m Hmr. by right.
      * rewrite C2, (transaction_dropped R hs Ht). intros f3 k3 D' H3 S3 M3 L3 K3. eapply HQ; [exact H3|done|done|congruence|].
        eapply kept_log_trans; [apply kept_kept_log; by eapply kept_trans|done].
  - assert (hs = []) as -> by (destruct hs; [done|cbn in En; lia]). apply wp_wpe, wp_ret.
    assert (R = ∅) as -> by (apply map_eq; intros n; rewrite lookup_empty; apply Ht, not_elem_of_nil).
    assert (lg f = set_lh_n 0 (lg f)) as El by (destruct (lg f); destruct Hm as [? ? E ? ?]; cbn in *; by subst).
    eapply HQ; [exact H| |done|done|apply kept_kept_log, kept_rest; done].
    split; [done|done|]. intros n _. by rewrite view_None.
Qed.

(** ** Recovery *)

Lemma wpe_recover_from_log f D k hs c (Q : unit -> st (kst fsys) -> Prop) :
  rep f (mk_bst D ∅ ∅) -> at_work i pid0 k -> log_mem (lg f) hs -> recovers_to start D c ->
  (forall f' k' D', rep f' (mk_bst D' ∅ ∅) -> settled D' c -> log_mem (lg f') [] -> kept_log f k f' k' ->
     Q tt (mk_st [] (set_files f' k'))) ->
  wpe env (on_medium (fun m => recovers_to start m c)) recover_from_log Q (mk_st [] (set_files f k)).
Proof.
  intros H Hw Hm HD HQ. unfold recover_from_log. wpe_step.
  eapply (wpe_read_head _ f D ∅ k hs); [done..|apply HD|done|rewrite map_size_empty; unfold NBUF; lia|done|].
  intros f1 k1 H1 M1 K1. eapply (wpe_install_erase _ f1 D ∅ k1 true c); [done|apply K1|done|done| |done| | |].
  - done.
  - left. rewrite map_size_empty. unfold NBUF. lia.
  - done.
  - intros f2 k2 D' H2 S2 M2 _ K2. eapply HQ; [|done|done|by eapply kept_log_trans].
    replace (dropped ∅ (targets start D)) with (∅ : gmap Z (nat * list Z)) in H2; [exact H2|].
    apply map_eq. intros n. rewrite dropped_in by (by right). done.
Qed.

(** ** Transactions *)

(** [begin_op] reserves space for the largest system call. *)
Definition reserved (l : log) : Prop := lh_n l + l_outstanding l * MAXOPBLOCKS <= LOGSIZE.

Lemma wp_begin_op f k (Q : unit -> st (kst fsys) -> Prop) :
  l_committing (lg f) = 0 -> lh_n (lg f) + (l_outstanding (lg f) + 1) * MAXOPBLOCKS <= LOGSIZE ->
  Q tt (mk_st [] (set_files (set_lg (set_l_outstanding (l_outstanding (lg f) + 1) (lg f)) f) k)) ->
  wp begin_op Q (mk_st [] (set_files f k)).
Proof.
  intros Hc Hr HQ. unfold begin_op. wp_step. apply wp_acquire; [apply not_elem_of_nil|]. cbn [begin_op_loop].
  wp_step. apply (wp_fs_gets lg). rewrite Hc. cbn [negb Z.eqb].
  assert ((LOGSIZE <? lh_n (lg f) + (l_outstanding (lg f) + 1) * MAXOPBLOCKS) = false) as -> by lia.
  wp_step. apply wp_upd_log. by apply wp_release_head; [apply not_elem_of_nil|].
Qed.

(** *** Absorption *)

Lemma log_slot_spec blocks (n j : nat) h :
  (forall t g, (t < n)%nat -> blocks !! t = Some g -> 0 <= g < 2 ^ 31) -> (n <= length blocks)%nat ->
  let r := log_slot blocks n j h in
  (j <= r <= j + n)%nat /\ (r <> j + n -> blocks !! (r - j) = Some h)%nat /\
  (forall t, (t < r - j)%nat -> blocks !! t <> Some h).
Proof.
  revert n j. induction blocks as [|g blocks IH]; intros n j Hrg Hl.
  - cbn in Hl. assert (n = 0%nat) as -> by lia. cbn. split_and!; [lia|lia|lia|]. intros t Ht. lia.
  - destruct n as [|n]; cbn [log_slot]; [split_and!; [lia|lia|lia|]; intros t Ht; lia|].
    rewrite u32_id by (pose proof (Hrg 0%nat g ltac:(lia) eq_refl); lia).
    destruct (g =? h) eqn:E.
    + assert (g = h) as -> by lia. cbn. split_and!; [lia|lia| |]; [by rewrite Nat.sub_diag|intros t Ht; lia].
    + destruct (IH n (S j)) as (H1 & H2 & H3); [intros t g' Ht; apply (Hrg (S t)); lia|cbn in Hl; lia|].
      set (r := log_slot blocks n (S j) h) in *. cbn. split_and!; [lia|lia| |].
      * intros Hne. replace (r - j)%nat with (S (r - S j)) by lia. apply H2. lia.
      * intros [|t] Ht; [cbn; intros [= ->]; lia|]. apply H3. lia.
Qed.

(** The transaction after [log_write] of block [n]. *)
Definition absorbed hs (n : Z) : list Z := if decide (n ∈ hs) then hs else hs ++ [n].
Definition x_logged x hs (n : Z) : bstate := if decide (n ∈ hs) then x else x_pin x n.

Lemma log_mem_slot l hs n : log_mem l hs -> (forall h, h ∈ hs -> 0 <= h < 2 ^ 31) -> Z.of_nat (length hs) < LOGSIZE ->
  let r := log_slot (lh_block l) (Z.to_nat (lh_n l)) 0 n in
  (if decide (n ∈ hs) then hs !! r = Some n else r = length hs) /\
  log_mem (set_lh_n (Z.of_nat (length (absorbed hs n))) (set_lh_block (<[r := n]> (lh_block l)) l)) (absorbed hs n).
Proof.
  intros Hm Hrg Hfit r. pose proof (lm_len _ _ Hm) as Hlen. pose proof (lm_n _ _ Hm) as Hn.
  destruct (log_slot_spec (lh_block l) (Z.to_nat (lh_n l)) 0 n) as (R1 & R2 & R3).
  { intros t g Ht Hg. rewrite Hn, Nat2Z.id in Ht. destruct (lookup_lt_is_Some_2 hs t Ht) as [h Hh].
    pose proof (lm_block _ _ Hm t h Hh). assert (g = h) as -> by congruence. apply Hrg. by eapply list_elem_of_lookup_2. }
  { lia. }
  fold r in R1, R2, R3. rewrite Nat.sub_0_r in R2, R3. rewrite Hn, Nat2Z.id in R1, R2.
  assert (if decide (n ∈ hs) then hs !! r = Some n else r = length hs) as Hr.
  { destruct (decide (n ∈ hs)) as [Hi|Hi].
    - apply list_elem_of_lookup_1 in Hi as [t Ht]. apply lookup_lt_Some in Ht as Hlt.
      destruct (decide (t < r)%nat) as [Htr|Htr]; [by destruct (R3 t Htr); apply Hm|].
      destruct (lookup_lt_is_Some_2 hs r ltac:(lia)) as [g Hg]. pose proof (lm_block _ _ Hm r g Hg) as Hg'.
      rewrite R2 in Hg' by lia. congruence.
    - destruct (decide (r = length hs)) as [|Hne]; [done|]. exfalso. apply Hi.
      destruct (lookup_lt_is_Some_2 hs r ltac:(lia)) as [g Hg]. pose proof (lm_block _ _ Hm r g Hg) as Hg'.
      rewrite R2 in Hg' by lia. injection Hg' as ->. by eapply list_elem_of_lookup_2. }
  split; [done|]. destruct Hm as [M1 M2 M3 M4 M5]. split; cbn; [done|done|done|by rewrite length_insert|].
  intros t h Ht. unfold absorbed in Ht. destruct (decide (n ∈ hs)) as [Hi|Hi].
  - destruct (decide (t = r)) as [->|]; [rewrite list_lookup_insert_eq by (apply lookup_lt_Some in Hr; lia); congruence|].
    rewrite list_lookup_insert_ne by done. by apply M5.
  - rewrite Hr. apply lookup_app_Some in Ht as [Ht|[Ht1 Ht2]].
    + apply lookup_lt_Some in Ht as Hlt. rewrite list_lookup_insert_ne by lia. by apply M5.
    + apply list_lookup_singleton_Some in Ht2 as [Ht2 <-]. replace t with (length hs) by lia. apply list_lookup_insert_eq. lia.
Qed.

Lemma wp_log_write f x n b k hs (Q : unit -> st (kst fsys) -> Prop) :
  rep f x -> at_work i pid0 k -> bH x !! n = Some b -> log_mem (lg f) hs -> (forall h, h ∈ hs -> 0 <= h < 2 ^ 31) ->
  Z.of_nat (length hs) < LOGSIZE -> Z.of_nat (length hs) < l_size (lg f) - 1 -> 1 <= l_outstanding (lg f) ->
  Z.of_nat (S (fst (block_of x n))) < 2 ^ 32 ->
  (forall f', rep f' (x_logged x hs n) -> log_mem (lg f') (absorbed hs n) ->
     l_outstanding (lg f') = l_outstanding (lg f) -> l_committing (lg f') = l_committing (lg f) -> l_size (lg f') = l_size (lg f) ->
     kept_log f k f' k -> Q tt (mk_st [] (set_files f' k))) ->
  wp (log_write b) Q (mk_st [] (set_files f k)).
Proof.
  intros H Hw Hb Hm Hrg Hfit Hsz Hout Hov HQ. pose proof (lm_n _ _ Hm) as Hn.
  destruct (bl_name f x n b H Hb) as (y & Hy & Hyn & Hnr).
  destruct (log_mem_slot (lg f) hs n Hm Hrg Hfit) as [Hr Hm'].
  unfold log_write. wp_step. apply wp_acquire; [apply not_elem_of_nil|]. wp_step. apply (wp_fs_gets lg). rewrite Hn in *.
  assert ((LOGSIZE <=? Z.of_nat (length hs)) || (l_size (lg f) - 1 <=? Z.of_nat (length hs)) = false) as -> by lia.
  assert ((l_outstanding (lg f) <? 1) = false) as -> by lia.
  wp_step. apply (wp_get_buf b y); [done|]. rewrite Hyn. set (r := log_slot _ _ _ _) in *.
  wp_step. apply wp_upd_log. assert (i32 n = n) as -> by (apply i32_id; lia).
  set (f1 := set_lg _ f). pose proof (bl_frame f x _ H : rep f1 x) as H1.
  pose proof (set_lg_kept_log f k (set_lh_block (<[r := n]> (lh_block (lg f))) (lg f)) Hw) as K1.
  unfold x_logged, absorbed in *. wp_step. destruct (decide (n ∈ hs)) as [Hi|Hi].
  - assert ((Z.of_nat r =? Z.of_nat (length hs)) = false) as -> by (apply lookup_lt_Some in Hr; lia).
    apply wp_ret, wp_release_head; [apply not_elem_of_nil|]. apply HQ; try done.
    destruct Hm' as [M1 M2 M3 M4 M5]. split; [done|done|exact Hn|done|done].
  - rewrite Hr, Z.eqb_refl. cbn [when]. wp_step. eapply (bl_bpin f1 x n b); [done|done|done|by intros [=]%list_elem_of_singleton|done|].
    intros f2 H2 K2. pose proof (kept_lg _ _ _ _ K2) as G2. apply wp_upd_log, wp_release_head; [apply not_elem_of_nil|].
    rewrite G2. unfold f1. cbn [lg set_lg lh_n set_lh_block]. rewrite Hn. apply HQ; try done.
    + by apply bl_frame.
    + rewrite length_app in Hm'. cbn [length] in Hm'. replace (Z.of_nat (length hs) + 1) with (Z.of_nat (length hs + 1)) by lia.
      exact Hm'.
    + eapply kept_log_trans; [exact K1|]. eapply kept_log_trans; [by apply kept_kept_log|]. by apply set_lg_kept_log.
Qed.

(** The operation that ends the last system call commits. *)
Lemma wpe_end_op f D R k hs (Q : unit -> st (kst fsys) -> Prop) :
  rep f (mk_bst D R ∅) -> at_work i pid0 k -> log_mem (lg f) hs -> log_ok start hs -> transaction R hs ->
  hdr_ok start D -> targets start D = [] -> l_outstanding (lg f) = 1 -> l_committing (lg f) = 0 ->
  (forall f' k' D', rep f' (mk_bst D' ∅ ∅) -> settled D' (view (mk_bst D R ∅)) -> log_mem (lg f') [] ->
     l_outstanding (lg f') = 0 -> l_committing (lg f') = 0 -> l_size (lg f') = l_size (lg f) -> kept_log f k f' k' ->
     Q tt (mk_st [] (set_files f' k'))) ->
  wpe env (on_medium (atomic D R)) end_op Q (mk_st [] (set_files f k)).
Proof.
  intros H Hw Hm Hok Ht Hh He Ho Hc HQ.
  unfold end_op. wpe_step. apply wp_wpe, wp_acquire; [apply not_elem_of_nil|]. wpe_step. apply wp_wpe, wp_upd_log.
  wpe_step. apply wp_wpe, (wp_fs_gets lg). cbn [lg set_lg l_committing set_l_outstanding l_outstanding]. rewrite Hc, Ho.
  change (negb (0 =? 0)) with false. change (1 - 1 =? 0) with true. cbv zeta. cbn [when].
  wpe_step. apply wp_wpe, wp_upd_log. wpe_step. apply wp_wpe, wp_release_head; [apply not_elem_of_nil|].
  rewrite set_lg_twice. set (l1 := set_l_committing 1 _). wpe_step.
  assert (log_mem l1 hs) as Hm1 by (destruct Hm; by split).
  eapply (wpe_commit (set_lg l1 f) D R k hs); [by apply bl_frame|done|exact Hm1|done..|].
  intros f1 k1 D' H1 S1 M1 L1 K1. apply wp_wpe. wp_step. apply wp_acquire; [apply not_elem_of_nil|].
  wp_step. apply wp_upd_log. wp_step. apply wp_wakeup_calm; [by eapply at_work_calm, K1|done|by intros j [=]%list_elem_of_singleton|].
  apply wp_release_head; [apply not_elem_of_nil|]. cbn [lg set_lg] in L1. rewrite L1.
  eapply HQ; [by apply bl_frame|exact S1| |done|done|done|].
  - rewrite L1 in M1. destruct M1. by split.
  - eapply kept_log_trans; [by apply (set_lg_kept_log f k l1)|]. eapply kept_log_trans; [exact K1|]. apply set_lg_kept_log, K1.
Qed.
End log.
