(* ===== verification/FsBoot.v ===== *)
(** * The file system's state at boot

    [binit] from zeroed memory, a block device and a scheduler that behave as
    the classes of World.v ask, and a concrete machine for the examples. *)

From S2P Require Import Prelude Spinlock Riscv Kalloc Vm Queue PriorityQueue KString Proc ProcProofs ProcLife FsState FsBytes Env Sleeplock Virtio World VirtioProofs Bio Lru BioProofs Log LogSpec LogProofs.

Ltac Zify.zify_post_hook ::= Z.to_euclidean_division_equations.

(** ** The buffer cache *)

Section binit.
Implicit Types (f : fsys) (k : kst fsys).

(** Static memory is zero, and the driver has been set up. *)
Record cold f : Prop := {
  cd_len : length (bufs f) = NBUF;
  cd_bufs : forall b y, bufs f !! b = Some y -> b_refcnt y = 0 /\ b_dev y = 0 /\ length (b_data y) = Z.to_nat BSIZE;
  cd_slen : length (slocks f) = (NBUF + NINODE)%nat;
  cd_idle : driver_idle (dk f);
  cd_blocks : forall n d, medium (dk f) !! n = Some d -> length d = Z.to_nat BSIZE
}.

(** The state after [t] rounds of the loop. *)
Record initialised f (t : nat) f' : Prop := {
  in_cycle : cycle (nxt f') (prv f') (rev (seq 0 t));
  in_rest : exists l, relinked (set_slocks l f) f' /\ length l = length (slocks f) /\
    (forall b, (b < t)%nat -> l !! b = Some (mk_sleeplock 0 0)) /\ (forall b, (t <= b)%nat -> l !! b = slocks f !! b)
}.

Lemma push_links b l f a :
  valid_link f (BBuf b) -> valid_link f (nxt f BHead) ->
  let f' := push2 b (set_slocks l (push1 b f)) in
  nxt f' a = upd (upd (nxt f) (BBuf b) (nxt f BHead)) BHead (BBuf b) a /\
  prv f' a = upd (upd (prv f) (BBuf b) BHead) (nxt f BHead) (BBuf b) a.
Proof.
  intros Vb Vh f'. set (g := push1 b f).
  assert (relinked f g) as R by (eapply relinked_trans; [apply relinked_put_next|apply relinked_put_prev]).
  assert (forall a, nxt g a = upd (nxt f) (BBuf b) (nxt f BHead) a) as N1.
  { intros c. unfold g, push1. rewrite nxt_put_prev. by apply nxt_put_next. }
  assert (forall a, prv g a = upd (prv f) (BBuf b) BHead a) as P1.
  { intros c. unfold g, push1. rewrite prv_put_prev by (by eapply relinked_valid; [apply relinked_put_next|]).
    unfold upd. by rewrite prv_put_next. }
  assert (nxt g BHead = nxt f BHead) as Eh by (rewrite N1, upd_ne; done).
  unfold f', push2. change (nxt (set_slocks l (push1 b f)) BHead) with (nxt g BHead). rewrite Eh.
  set (h := set_slocks l g). change (set_slocks l (push1 b f)) with h.
  assert (valid_link h (nxt f BHead)) as Vh'. { apply (relinked_valid f g) in Vh; [|done]. by destruct (nxt f BHead). }
  split.
  - rewrite nxt_put_next by done. unfold upd at 1. rewrite nxt_put_prev. change (nxt h a) with (nxt g a). rewrite N1. done.
  - rewrite prv_put_next, prv_put_prev by done. unfold upd at 1. change (prv h a) with (prv g a). rewrite P1. done.
Qed.

Lemma relinked_slocks l f f' : relinked f f' -> relinked (set_slocks l f) (set_slocks l f').
Proof. intros [H1 H2]. split; [done|]. rewrite H2 at 1. done. Qed.

Lemma binit_round f t f' hl k (Q : unit -> st (kst fsys) -> Prop) :
  cold f -> (t < NBUF)%nat -> initialised f t f' ->
  (forall f'', initialised f (S t) f'' -> Q tt (mk_st hl (set_files f'' k))) ->
  wp (n <- next_of BHead ;; set_next (BBuf t) n ;; set_prev (BBuf t) BHead ;; initsleeplock (buf_lock t) ;;
      n <- next_of BHead ;; set_prev n (BBuf t) ;; set_next BHead (BBuf t)) Q (mk_st hl (set_files f' k)).
Proof.
  intros Hc Ht [Hcy (l & R & Hll & Hl1 & Hl2)] HQ.
  wp_step. apply wp_next_head. wp_step. apply wp_set_next. wp_step. apply wp_set_prev. wp_step. apply wp_set_sl.
  wp_step. apply wp_next_head. wp_step. apply wp_set_prev. apply wp_set_next. fold (push1 t f').
  set (l' := <[buf_lock t := mk_sleeplock 0 0]> (slocks (push1 t f'))). fold (push2 t (set_slocks l' (push1 t f'))).
  assert (length (bufs f') = NBUF) as Hlen by (rewrite (relinked_length _ _ R); apply Hc).
  assert (relinked f' (push1 t f')) as R1 by (eapply relinked_trans; [apply relinked_put_next|apply relinked_put_prev]).
  assert (slocks (push1 t f') = l) as El.
  { destruct (relinked_rest _ _ R1) as (_ & -> & _). destruct (relinked_rest _ _ R) as (_ & -> & _). done. }
  assert (valid_link f' (nxt f' BHead)) as Vh.
  { rewrite (cycle_first _ _ _ Hcy). destruct (head_link (rev (seq 0 t))) as [->|E]; [done|].
    destruct (default BHead (nodes (rev (seq 0 t)) !! 0%nat)) as [|j]; [done|]. cbn. rewrite Hlen. apply elem_of_nodes in E.
    rewrite list_elem_of_In, <- in_rev, <- list_elem_of_In, elem_of_seq in E. lia. }
  apply HQ. split.
  - rewrite seq_S, rev_app_distr. cbn [rev app]. eapply dpath_pointwise; [intros a; eapply (push_links t l' f' a)..|].
    all: try (cbn; lia); try done. apply cycle_push; [|done].
    constructor; [|apply NoDup_ListNoDup, NoDup_rev, NoDup_ListNoDup, NoDup_seq].
    rewrite list_elem_of_In, <- in_rev, <- list_elem_of_In, elem_of_seq. lia.
  - exists l'. split_and!.
    + eapply relinked_trans; [|eapply relinked_trans; [apply relinked_put_prev|apply relinked_put_next]].
      apply (relinked_slocks l') in R1. eapply relinked_trans; [|exact R1]. apply (relinked_slocks l') in R. by destruct f.
    + unfold l'. rewrite length_insert, El. done.
    + intros b Hb. unfold l', buf_lock. destruct (decide (b = t)) as [->|].
      * apply list_lookup_insert_eq. rewrite El, Hll, (cd_slen _ Hc). lia.
      * rewrite list_lookup_insert_ne, El by done. apply Hl1. lia.
    + intros b Hb. unfold l', buf_lock. rewrite list_lookup_insert_ne, El by lia. apply Hl2. lia.
Qed.

Lemma wp_binit dev pid0 f hl k (Q : unit -> st (kst fsys) -> Prop) :
  cold f -> dev <> 0 ->
  (forall f', cache_rep dev pid0 f' (mk_bst (medium (dk f)) ∅ ∅) -> same_rest f f' -> Q tt (mk_st hl (set_files f' k))) ->
  wp binit Q (mk_st hl (set_files f k)).
Proof.
  intros Hc Hd HQ. unfold binit. wp_step. apply wp_set_prev. wp_step. apply wp_set_next.
  apply (wp_for_seq (fun t s => exists f', s = mk_st hl (set_files f' k) /\ initialised f t f')).
  - eexists. split; [done|]. split; [done|]. exists (slocks f). split_and!; [|done|lia|done].
    assert (set_slocks (slocks f) f = f) as -> by (by destruct f).
    eapply relinked_trans; [apply relinked_put_prev|apply relinked_put_next].
  - intros t s Ht (f1 & -> & H1). eapply binit_round; [exact Hc|done|exact H1|]. intros f2 H2. by exists f2.
  - intros s (f1 & -> & [Hcy (l & R & Hll & Hl1 & Hl2)]). destruct (relinked_rest _ _ R) as ([A1 A2 A3 A4 A5 A6] & Esl & Edk).
    cbn [slocks set_slocks] in Esl, A6.
    apply HQ; [|split; try done; intros j Hj; by rewrite Esl, Hl2].
    assert (forall b y, bufs f1 !! b = Some y -> b_refcnt y = 0 /\ b_dev y = 0 /\ length (b_data y) = Z.to_nat BSIZE) as Hb.
    { intros b y Hy. apply lookup_lt_Some in Hy as Hlt. rewrite (relinked_length _ _ R) in Hlt.
      destruct (lookup_lt_is_Some_2 _ _ Hlt) as [z Hz]. destruct (relinked_buf _ _ _ _ R Hz) as (y' & Hy' & U%unlinked_fields).
      assert (y' = y) as -> by congruence. pose proof (cd_bufs _ Hc b z Hz). naive_solver congruence. }
    split; cbn [bD bR bH].
    + exists (rev (seq 0 NBUF)). split; [done| | |].
      * apply NoDup_ListNoDup, NoDup_rev, NoDup_ListNoDup, NoDup_seq.
      * intros b. rewrite list_elem_of_In, <- in_rev, <- list_elem_of_In, elem_of_seq. lia.
      * rewrite (relinked_length _ _ R). apply Hc.
    + rewrite Edk. apply Hc.
    + by rewrite Edk.
    + apply Hc.
    + intros b y Hy. destruct (Hb b y Hy) as (? & ? & ?). split; [done|congruence|congruence].
    + intros b b' y y' Hy _ E. destruct (Hb b y Hy). naive_solver congruence.
    + done.
    + rewrite Esl, Hll. apply Hc.
    + done.
    + intros b Hlt _. exists (mk_sleeplock 0 0). rewrite Esl. split; [by apply Hl1|done].
    + done.
Qed.
End binit.

(** ** A device and a scheduler *)

(** The device takes the chain last made available, follows it, and serves the
    request. *)
Definition sample_device (s : fsys) : fsys :=
  let d := dk s in
  let i0 := Z.to_nat (default 0 (v_avail_ring d !! Z.to_nat (u16 (v_avail_idx d - 1) mod Z.of_nat NUM))) in
  let rq := default (mk_req 0 0 0) (v_ops d !! i0) in
  let i1 := Z.to_nat (default 0 (d_next <$> v_desc d !! i0)) in
  match d_addr <$> v_desc d !! i1 with
  | Some (DmaData b) => served s i0 b (rq_sector rq / 2) (rq_type rq =? 1)
  | _ => s
  end.
#[export] Instance sample_device_serves : DiskDevice sample_device.
Proof.
  intros s i0 i1 i2 b n write [P1 P2 P3 P4 P5 P6 P7]. unfold sample_device. rewrite P1. cbn [default]. unfold id. rewrite Nat2Z.id, P3, P6.
  cbn [fmap option_fmap option_map default d_next rq_sector rq_type id]. unfold id. rewrite Nat2Z.id, P4. cbn [fmap option_fmap option_map d_addr].
  replace (2 * n / 2) with n by (rewrite Z.mul_comm; symmetry; by apply Z.div_mul). by destruct write.
Qed.

(** The scheduler runs the process at the next tick. *)
Definition sample_back (s : st (kst fsys)) : st (kst fsys) :=
  let k := data s in
  match cur k with
  | Some i =>
      match procs k !! i with
      | Some p =>
          match mem (pm k) !! usage_time p with
          | Some (PgUsage u) => mk_st (held s) (resumed i p u (ticks k + 1) k)
          | _ => s
          end
      | None => s
      end
  | None => s
  end.
#[export] Instance sample_back_resumes : Scheduler sample_back.
Proof. intros i p u s Hc Hp _ Hu. exists u, (ticks s + 1). unfold sample_back. cbn. by rewrite Hc, Hp, Hu. Qed.
