(* ===== verification/FsExample.v ===== *)
(** * A machine for the examples of the file system's theorems

    The file layer as the kernel finds it after setting up the disk driver, an
    empty disk, one process that runs; then the same machine in the middle of a
    transaction. *)

From S2P Require Import Prelude Spinlock Riscv Kalloc Vm Queue PriorityQueue KString Proc ProcProofs ProcLife FsState FsBytes Env Sleeplock Virtio World VirtioProofs Bio Lru BioProofs Log LogSpec LogProofs FsBoot.

#[export] Instance one_wait : Waits := 1%nat.
#[export] Instance quiet_mmio : VirtioMmio := fun _ _ => 0.

Definition ROOT : Z := 1.
(** An empty disk but for the map of used blocks, in block 45: the first 104
    blocks are in use. *)
Definition bitmap0 : list Z := replicate 13 255 ++ replicate (Z.to_nat BSIZE - 13) 0.
Definition medium0 : gmap Z (list Z) := {[45 := bitmap0]}.
Definition disk0 : disk :=
  mk_disk (replicate NUM zero_desc) 0 (replicate NUM 0) 0 (replicate NUM 0) all_free 0
    (replicate NUM (mk_dinfo None 0)) (replicate NUM (mk_req 0 0 0)) [] medium0.
Definition buf0 : buf := mk_buf 0 0 0 0 0 BHead BHead zero_block.
Definition sb0 : superblock := mk_sb 0x10203040 2000 1954 200 30 2 32 45.
(** The log as [initlog] leaves it. *)
Definition log0 : log := mk_log 2 30 0 0 ROOT 0 (replicate (Z.to_nat LOGSIZE) 0).
Definition inode0 : inode := mk_inode 0 0 0 0 0 0 0 0 0 (replicate 13 0).
(** A file of one block, block 100, in use. *)
Definition inode1 : inode := mk_inode ROOT 5 1 1 2 0 0 1 1024 (100 :: replicate 12 0).
Definition file0 : file := mk_file FD_NONE 0 0 0 0 None 0 0.
Definition fs0 : fsys :=
  mk_fsys (replicate (NBUF + NINODE) (mk_sleeplock 0 0)) (replicate NBUF buf0) BHead BHead disk0 log0 sb0
    (inode1 :: replicate (NINODE - 1) inode0) (replicate 100 file0) (replicate 10 None) (mk_cons (replicate 128 0) 0 0 0)
    (mk_uart (replicate 32 0) 0 0 [] [] [] []) (mk_hregs 0 0 0 0 0 0 0 0 0 [] []) 1.

Definition usage_page : Z := PHYSTOP - PGSIZE.
Definition runner : proc := set_state RUNNING (set_pid 1 (set_usage_time usage_page zero_proc)).
Definition kernel0 : kst fsys :=
  mk_kst (<[0%nat := runner]> (replicate (Z.to_nat NPROC) zero_proc)) (Some 0%nat)
    (mk_pmem {[usage_page := PgUsage (mk_usage 0 0 MAX_UINT 0 MAX_UINT)]} 0)
    (PQ.mk (replicate (Z.to_nat NPROC) 0%nat) 0) (Queue.mk (replicate (Z.to_nat NPROC) None) 0 0 0)
    2 None 10 true (mk_rlist [] 0 0) [] fs0.

Lemma medium0_blocks n d : medium0 !! n = Some d -> length d = Z.to_nat BSIZE.
Proof. unfold medium0. intros [_ <-]%lookup_singleton_Some. done. Qed.

Lemma fs0_cold : cold fs0.
Proof.
  split; [done| |done| |apply medium0_blocks].
  - intros b y [-> _]%lookup_replicate. done.
  - split; try done.
Qed.

Lemma kernel0_at_work : at_work 0 1 kernel0.
Proof.
  split; [split|].
  - done.
  - done.
  - exists runner, (mk_usage 0 0 MAX_UINT 0 MAX_UINT). split_and!; [done|done|]. apply lookup_singleton_eq.
  - intros c Hc j p Hp Hs. exfalso. change (procs kernel0) with (<[0%nat := runner]> (replicate (Z.to_nat NPROC) zero_proc)) in Hp.
    destruct j as [|j]; [injection Hp as <-; done|]. rewrite list_lookup_insert_ne in Hp by done.
    apply lookup_replicate in Hp as [-> _]. done.
  - exists runner. done.
Qed.

Lemma kernel0_files : set_files fs0 kernel0 = kernel0.
Proof. reflexivity. Qed.

(** ** After [binit] *)

Definition result_or {A} (s : st (kst fsys)) (o : outcome (kst fsys) A) : st (kst fsys) :=
  match o with Ret _ s' => s' | _ => s end.
Lemma wp_result {A} (m : K A) s (Q : st (kst fsys) -> Prop) d : wp m (fun _ s' => Q s') s -> Q (result_or d (m s)).
Proof. unfold wp. by destruct (m s). Qed.

Definition after_binit (f : fsys) (k : kst fsys) (s : st (kst fsys)) : Prop :=
  exists f', s = mk_st [] (set_files f' k) /\ cache_rep ROOT 1 f' (mk_bst (medium (dk f)) ∅ ∅) /\ same_rest f f'.
Lemma binit_result f k d : cold f -> after_binit f k (result_or d (binit (mk_st [] (set_files f k)))).
Proof.
  intros Hc. apply wp_result. apply (wp_binit ROOT 1); [done|done|]. intros f' Hf Hr. by exists f'.
Qed.

Definition state0 : st (kst fsys) := result_or (mk_st [] kernel0) (binit (mk_st [] (set_files fs0 kernel0))).
Lemma state0_spec : after_binit fs0 kernel0 state0.
Proof. apply binit_result, fs0_cold. Qed.

(** ** In the middle of a transaction: block 100 has been given new contents *)

Definition ones : list Z := replicate (Z.to_nat BSIZE) 1.
Definition sample_tx : K unit :=
  begin_op ;; b <- bread ROOT 100 ;; set_bdata b ones ;; log_write b ;; brelse b.
Abbreviation sample_env := (disk_env sample_device sample_back).
Definition state1 : st (kst fsys) := result_or state0 (settle sample_env (sample_tx state0)).

Lemma log_ok_100 : log_ok 2 [100].
Proof.
  split; [unfold LOGSIZE, MAXOPBLOCKS; lia|done|apply NoDup_singleton|].
  intros h ->%list_elem_of_singleton. unfold in_log, LOGSIZE, MAXOPBLOCKS. lia.
Qed.

Record mid_transaction (f : fsys) (k : kst fsys) : Prop := {
  mt_rep : cache_rep ROOT 1 f (mk_bst medium0 {[100 := (1%nat, ones)]} ∅);
  mt_work : at_work 0 1 k;
  mt_log : log_mem (dev := ROOT) 2 (lg f) [100];
  mt_out : l_outstanding (lg f) = 1;
  mt_com : l_committing (lg f) = 0;
  mt_size : l_size (lg f) = LOGSIZE;
  mt_rest : itable f = itable fs0 /\ sb f = sb0
}.

Lemma sample_tx_spec : wpe sample_env (fun _ => True) sample_tx
  (fun _ s => exists f k, s = mk_st [] (set_files f k) /\ mid_transaction f k) state0.
Proof.
  pose (BL := cache_layer sample_device sample_back 0 1 ROOT).
  destruct state0_spec as (f & -> & H & [R1 R2 R3 _ _ _]). change (medium (dk fs0)) with medium0 in H. pose proof kernel0_at_work as Hw. change (lg fs0) with log0 in R1.
  assert (log_mem (dev := ROOT) 2 log0 []) as Hm0 by done.
  unfold sample_tx. wpe_step. apply wp_wpe, wp_begin_op; [by rewrite R1|rewrite R1; cbn; unfold LOGSIZE, MAXOPBLOCKS; lia|].
  set (f1 := set_lg _ f). pose proof (bl_frame f _ (lg f1) H : cache_rep ROOT 1 f1 _) as H1.
  assert (lg f1 = set_l_outstanding 1 log0) as L1 by (unfold f1; cbn; by rewrite R1).
  wpe_step. eapply (wpe_crash _ (on_medium (fun _ => True))); [done|].
  eapply (bl_bread _ f1); [exact H1|done|done|lia|right; cbn; rewrite map_size_empty; unfold NBUF; lia|rewrite block_of_None by done; done|done|].
  intros b f2 k2 H2 K2. rewrite (x_read_eq _ _ _ _ _ 0 zero_block) in H2 by done.
  wpe_step. apply wp_wpe. eapply (bl_set_bdata f2 _ 100 b ones); [exact H2|apply K2|cbn; by simplify_map_eq|done|].
  intros f3 H3 K3. rewrite (x_set_eq _ _ _ _ 1 zero_block), insert_insert_eq in H3 by by simplify_map_eq.
  assert (lg f3 = set_l_outstanding 1 log0) as L3 by (by rewrite (kept_lg _ _ _ _ K3), (kept_lg _ _ _ _ K2)).
  wpe_step. apply wp_wpe. eapply (wp_log_write (BL := BL) 2 f3 _ 100 b k2 []);
    [exact H3|apply K3|cbn; by simplify_map_eq|by rewrite L3|by intros h ?%not_elem_of_nil|done|by rewrite L3|by rewrite L3| |].
  { rewrite (cnt_Some _ _ _ _ 1 ones) by by simplify_map_eq. lia. }
  intros f4 H4 M4 O4 C4 S4 K4. rewrite L3 in O4, C4, S4.
  unfold x_logged in H4. rewrite decide_False in H4 by apply not_elem_of_nil.
  unfold x_pin, view in H4. rewrite (block_of_Some _ _ 1 ones) in H4 by (cbn; by simplify_map_eq). cbn [bD bR bH fst snd] in H4.
  rewrite insert_insert_eq in H4.
  apply wp_wpe. eapply (bl_brelse f4 _ 100 b); [exact H4|apply K4|cbn; by simplify_map_eq| |].
  { rewrite (cnt_Some _ _ _ _ 2 ones) by by simplify_map_eq. done. }
  intros f5 H5 K5. rewrite (x_release_more _ _ _ _ 0 ones) in H5 by by simplify_map_eq.
  rewrite insert_insert_eq, delete_insert_id in H5 by done. pose proof (kept_lg _ _ _ _ K5) as L5.
  exists f5, k2. split; [done|]. split; rewrite ?L5; [done|apply K5| |done|done|done|].
  - unfold absorbed in M4. by rewrite decide_False in M4 by apply not_elem_of_nil.
  - destruct K2 as [[_ A1 A2 _ _ _] _ _], K3 as [[_ B1 B2 _ _ _] _ _], K4 as [[_ C1 C2 _ _ _] _ _], K5 as [[_ E1 E2 _ _ _] _ _].
    unfold f1 in *. cbn [sb itable set_lg] in *. change (sb fs0) with sb0 in R2. split; congruence.
Qed.

Lemma state1_spec : exists f k, state1 = mk_st [] (set_files f k) /\ mid_transaction f k.
Proof.
  destruct (wpe_settle _ _ _ _ _ sample_tx_spec) as ([] & s & E & f & k & -> & Hm). exists f, k. split; [|done].
  unfold state1. by rewrite E.
Qed.

Lemma transaction_100 : transaction {[100 := (1%nat, ones)]} [100].
Proof.
  split.
  - intros h ->%list_elem_of_singleton. exists ones. apply lookup_singleton_eq.
  - intros n Hn. apply lookup_singleton_ne. intros <-. apply Hn. by left.
Qed.

(** The first state in which a crash may find the machine. *)
Definition first_crash {A} (o : outcome (kst fsys) A) : option (gmap Z (list Z)) :=
  match o with Swtch s _ => Some (medium (dk (files (data s)))) | _ => None end.
Lemma first_crash_point {A} env (o : outcome (kst fsys) A) m :
  first_crash o = Some m -> exists x, crash_point env o x /\ medium (dk (files x)) = m.
Proof. destruct o; try done. intros [= <-]. eexists. split; [by left|done]. Qed.
