(* ===== verification/LogTheorems.v ===== *)
(** * Crash safety of the log

    Whatever point of a transaction's end the machine crashes at, and however
    often it crashes again while it recovers, recovery completes and the disk
    then holds either all of the transaction or nothing of it. *)

From S2P Require Import Prelude Spinlock Riscv Kalloc Vm Queue PriorityQueue KString Proc ProcProofs ProcLife FsState FsBytes Env Sleeplock Virtio World VirtioProofs Bio Lru BioProofs Log LogSpec LogProofs FsBoot FsExample.

Section recovery.
Context {waits : Waits} {mmio : VirtioMmio}.
Context {device : fsys -> fsys} {back : st (kst fsys) -> st (kst fsys)} {Hdev : DiskDevice device} {Hback : Scheduler back}.
Context (dev pid0 : Z) (i : nat) (sb0 : superblock).
Implicit Types (f : fsys) (k : kst fsys) (m : gmap Z (list Z)).
Abbreviation env := (disk_env device back).
Abbreviation start := (i32 (sb_logstart sb0)).

Definition disk_of (k : kst fsys) : gmap Z (list Z) := medium (dk (files k)).

(** A machine that has been started again with the medium [m]: static memory is
    zero, the buffer cache empty, and a process runs [fsinit]. *)
Definition booted m (s : st (kst fsys)) : Prop :=
  exists f k, s = mk_st [] (set_files f k) /\ cache_rep dev pid0 f (mk_bst m ∅ ∅) /\ at_work i pid0 k /\
    length (lh_block (lg f)) = Z.to_nat LOGSIZE /\ lh_n (lg f) = 0.

(** The machine is started with [m] and crashes during recovery, leaving [m']. *)
Definition reboot_crash m m' : Prop :=
  exists s x, booted m s /\ crash_point env (initlog dev sb0 s) x /\ m' = disk_of x.

Lemma wpe_initlog m s c : 0 <= dev < 2 ^ 32 -> booted m s -> recovers_to start m c ->
  wpe env (on_medium (fun m => recovers_to start m c)) (initlog dev sb0)
    (fun _ s' => settled start (disk_of (data s')) c) s.
Proof.
  intros Hd (f & k & -> & H & Hw & Hl & Hn) Hm. unfold initlog. change (BSIZE <=? 4 + 4 * LOGSIZE) with false. cbv iota.
  wpe_step. apply wp_wpe, wp_upd_log. set (f1 := set_lg _ f).
  pose proof (bl_frame (BlockLayer := cache_layer device back i pid0 dev) f _ (lg f1) H : cache_rep dev pid0 f1 _) as H1.
  eapply (wpe_recover_from_log (BL := cache_layer device back i pid0 dev) start f1 m k []); [exact H1|done| |done|].
  - split; cbn; [done|by apply u32_id|done|done|done].
  - intros f' k' D' H' S' _ _. unfold disk_of. cbn. by rewrite (cr_medium _ _ _ _ H').
Qed.

Lemma reboots_recover m m' c : 0 <= dev < 2 ^ 32 -> rtc reboot_crash m m' -> recovers_to start m c -> recovers_to start m' c.
Proof.
  intros Hd Hr. induction Hr as [m|m m1 m' (s & x & Hb & Hx & ->) _ IH]; [done|]. intros Hm. apply IH.
  eapply (wpe_crash_point env (on_medium (fun m => recovers_to start m c))); [by eapply wpe_initlog|exact Hx].
Qed.

(** C1: a transaction is atomic under crashes.  The process runs [end_op] as
    the last system call of the transaction [hs], whose blocks, and only those,
    are pinned in the cache; [D] is the medium.  If the machine crashes at any
    point, and again at any point of the recovery, any number of times, the
    recovery that completes leaves every block outside the log as before the
    transaction, or every block with the contents the transaction gave it. *)
Theorem transaction_crash_atomic f k D R hs x m s' :
  0 <= dev < 2 ^ 32 ->
  cache_rep dev pid0 f (mk_bst D R ∅) -> at_work i pid0 k ->
  log_mem (dev := dev) start (lg f) hs -> log_ok start hs -> transaction R hs ->
  hdr_ok start D -> targets start D = [] -> l_outstanding (lg f) = 1 -> l_committing (lg f) = 0 ->
  crash_point env (end_op (mk_st [] (set_files f k))) x -> rtc reboot_crash (disk_of x) m -> booted m s' ->
  exists s'', settle env (initlog dev sb0 s') = Ret tt s'' /\
    ((forall n, ~ in_log start n -> blk (disk_of (data s'')) n = blk D n) \/
     (forall n, ~ in_log start n -> blk (disk_of (data s'')) n = view (mk_bst D R ∅) n)).
Proof.
  intros Hd H Hw Hm Hok Ht Hh He Ho Hc Hx Hr Hb.
  assert (atomic start D R (disk_of x)) as Ha.
  { eapply (wpe_crash_point env (on_medium (atomic start D R))); [|exact Hx].
    eapply (wpe_end_op (BL := cache_layer device back i pid0 dev) start f D R k hs (fun _ _ => True)); done. }
  assert (exists c, recovers_to start m c /\ (c = blk D \/ c = view (mk_bst D R ∅))) as (c & Hmc & Hcc).
  { destruct Ha as [Ha|Ha]; eexists; (split; [by eapply reboots_recover|]); auto. }
  destruct (wpe_settle _ _ _ _ _ (wpe_initlog m s' c Hd Hb Hmc)) as ([] & s'' & E & [_ _ S]).
  exists s''. split; [done|]. destruct Hcc as [-> | ->]; auto.
Qed.

(** C8: without a crash, [end_op] returns, the transaction is on the disk, the
    log is empty again on the medium and in memory, and no block stays in use. *)
Theorem end_op_commits f k D R hs :
  cache_rep dev pid0 f (mk_bst D R ∅) -> at_work i pid0 k ->
  log_mem (dev := dev) start (lg f) hs -> log_ok start hs -> transaction R hs ->
  hdr_ok start D -> targets start D = [] -> l_outstanding (lg f) = 1 -> l_committing (lg f) = 0 ->
  exists f' k' D', settle env (end_op (mk_st [] (set_files f k))) = Ret tt (mk_st [] (set_files f' k')) /\
    cache_rep dev pid0 f' (mk_bst D' ∅ ∅) /\ (forall n, ~ in_log start n -> blk D' n = view (mk_bst D R ∅) n) /\
    targets start D' = [] /\ lh_n (lg f') = 0 /\ l_outstanding (lg f') = 0 /\ l_committing (lg f') = 0 /\
    same_rest (set_lg (lg f') f) f' /\ same_kernel i k k'.
Proof.
  intros H Hw Hm Hok Ht Hh He Ho Hc.
  destruct (wpe_settle env (on_medium (atomic start D R)) end_op (fun _ s => exists f' k' D', s = mk_st [] (set_files f' k') /\
    cache_rep dev pid0 f' (mk_bst D' ∅ ∅) /\ settled start D' (view (mk_bst D R ∅)) /\ log_mem (dev := dev) start (lg f') [] /\
    l_outstanding (lg f') = 0 /\ l_committing (lg f') = 0 /\ kept_log (i := i) (pid0 := pid0) f k f' k')
    (mk_st [] (set_files f k))) as ([] & s' & E & f' & k' & D' & -> & H' & [S1 S2 S3] & M & O' & C' & [K1 K2 K3]).
  { eapply (wpe_end_op (BL := cache_layer device back i pid0 dev) start f D R k hs); [done..|].
    intros f' k' D' H' S' M' O' C' _ K'. by exists f', k', D'. }
  exists f', k', D'. split_and!; try done. apply (lm_n _ _ _ M).
Qed.
End recovery.

(** ** Examples: block 100 of an empty disk is written *)

Lemma state0_booted : booted ROOT 1 0 medium0 state0.
Proof.
  destruct state0_spec as (f & E & H & [R1 _ _ _ _ _]). change (medium (dk fs0)) with medium0 in H.
  exists f, kernel0. rewrite R1. split_and!; [exact E|exact H|apply kernel0_at_work|done|done].
Qed.
Lemma empty_header : hdr_ok 2 medium0 /\ targets 2 medium0 = [].
Proof.
  assert (targets 2 medium0 = []) as E by (vm_compute; reflexivity). split; [|done]. split; [vm_compute; congruence|]. rewrite E.
  destruct log_ok_100. split; [done|done|constructor|by intros h ?%not_elem_of_nil].
Qed.

Lemma start_2 : i32 (sb_logstart sb0) = 2.
Proof. reflexivity. Qed.
Lemma ROOT_range : 0 <= ROOT < 2 ^ 32.
Proof. done. Qed.

Lemma transaction_crash_atomic_witness :
  exists x, crash_point sample_env (end_op state1) x /\
  exists s'', settle sample_env (initlog ROOT sb0 state0) = Ret tt s'' /\
    ((forall n, ~ in_log 2 n -> blk (disk_of (data s'')) n = blk medium0 n) \/
     (forall n, ~ in_log 2 n -> blk (disk_of (data s'')) n = view (mk_bst medium0 {[100 := (1%nat, ones)]} ∅) n)).
Proof.
  destruct (first_crash_point sample_env (end_op state1) medium0) as (x & Hx & Em); [vm_compute; reflexivity|].
  exists x. split; [exact Hx|]. destruct state1_spec as (f & k & E & [H1 H2 H3 H4 H5]). rewrite E in Hx.
  destruct empty_header as [Hh He].
  assert (rtc (reboot_crash (device := sample_device) (back := sample_back) ROOT 1 0 sb0) (disk_of x) medium0) as Hr.
  { unfold disk_of. rewrite Em. apply rtc_refl. }
  pose proof (transaction_crash_atomic (device := sample_device) (back := sample_back) ROOT 1 0 sb0 f k medium0 {[100 := (1%nat, ones)]} [100] x medium0 state0) as T.
  rewrite start_2 in T. exact (T ROOT_range H1 H2 H3 log_ok_100 transaction_100 Hh He H4 H5 Hx Hr state0_booted).
Defined.

Lemma end_op_commits_witness :
  exists f' k' D', settle sample_env (end_op state1) = Ret tt (mk_st [] (set_files f' k')) /\
    cache_rep ROOT 1 f' (mk_bst D' ∅ ∅) /\ blk D' 100 = ones.
Proof.
  destruct state1_spec as (f & k & E & [H1 H2 H3 H4 H5]). rewrite E. destruct empty_header as [Hh He].
  pose proof (end_op_commits (device := sample_device) (back := sample_back) ROOT 1 0 sb0 f k medium0 {[100 := (1%nat, ones)]} [100]) as T.
  rewrite start_2 in T. destruct (T H1 H2 H3 log_ok_100 transaction_100 Hh He H4 H5) as (f' & k' & D' & E' & H' & Hd & _).
  exists f', k', D'. split_and!; [exact E'|exact H'|]. rewrite Hd by (unfold in_log, LOGSIZE, MAXOPBLOCKS; lia).
  rewrite (view_Some _ _ _ _ 1 ones); [done|]. apply lookup_singleton_eq.
Defined.
