(* ===== verification/TxProofs.v ===== *)
(** * Blocks inside a transaction

    Between [begin_op] and [end_op] the file system reads blocks, changes them
    in the cache and records them with [log_write].  These are the rules for
    those steps, on the contents of the blocks as the file system sees them;
    the medium does not change. *)

From S2P Require Import Prelude Spinlock Riscv Kalloc Vm Queue PriorityQueue KString Proc ProcProofs ProcLife FsState FsBytes Env Sleeplock Virtio World VirtioProofs Bio BioProofs Log LogSpec LogProofs.

Ltac Zify.zify_post_hook ::= Z.to_euclidean_division_equations.

Definition pins (hs : list Z) (n : Z) : nat := if decide (n ∈ hs) then 1 else 0.
Definition holds (H : gmap Z nat) (n : Z) : nat := match H !! n with Some _ => 1 | None => 0 end.

Section tx.
Context {waits : Waits} {mmio : VirtioMmio} {env : st (kst fsys) -> st (kst fsys)} {i : nat} {pid0 dev : Z}.
Context {rep : fsys -> bstate -> Prop} {BL : BlockLayer env i pid0 dev rep} (start : Z).
Implicit Types (f : fsys) (x : bstate) (k : kst fsys) (P : gmap Z (list Z) -> Prop) (hs : list Z).
Abbreviation log_mem := (log_mem (dev := dev) start).
Abbreviation kept_log := (kept_log (i := i) (pid0 := pid0)).

(** A transaction in progress, with the blocks [hs] recorded so far. *)
Record tx f x hs : Prop := {
  tx_rep : rep f x;
  tx_log : log_mem (lg f) hs;
  tx_ok : log_ok start hs;
  tx_size : l_size (lg f) = LOGSIZE;
  tx_out : 1 <= l_outstanding (lg f);
  tx_refs : forall n, fst (block_of x n) = (pins hs n + holds (bH x) n)%nat;
  tx_clean : forall n, (n ∉ hs) -> view x n = blk (bD x) n
}.

Lemma in_refs f x hs n : tx f x hs -> is_Some (bR x !! n) <-> n ∈ hs \/ is_Some (bH x !! n).
Proof.
  intros H. pose proof (tx_refs _ _ _ H n) as E. unfold pins, holds in E. split.
  - intros [[r d] Hr]. rewrite (block_of_Some _ _ _ _ Hr) in E. cbn in E. destruct (bl_refs f x n r d (tx_rep _ _ _ H) Hr) as [Hp _].
    destruct (decide (n ∈ hs)); [by left|]. destruct (bH x !! n); [by right|]. lia.
  - intros Hn. destruct (bR x !! n) as [rd|] eqn:Er; [done|]. rewrite block_of_None in E by done. cbn in E.
    destruct Hn as [Hn|[b Hb]]; [rewrite decide_True in E by done; lia|]. rewrite Hb in E. destruct (decide (n ∈ hs)); lia.
Qed.

Lemma tx_room f x hs : tx f x hs -> (size (bR x) <= length hs + size (bH x))%nat.
Proof.
  intros H. rewrite <- !size_dom. transitivity (size (list_to_set hs ∪ dom (bH x) : gset Z)).
  - apply subseteq_size. intros n Hn. apply elem_of_dom in Hn. apply (in_refs f x hs n H) in Hn.
    rewrite elem_of_union, elem_of_list_to_set, elem_of_dom. done.
  - rewrite size_union_alt. pose proof (size_list_to_set (C := gset Z) hs (lo_nodup _ _ (tx_ok _ _ _ H))) as Hs.
    assert (size (dom (bH x) ∖ list_to_set hs) <= size (dom (bH x)))%nat by (apply subseteq_size; set_solver). lia.
Qed.

Lemma small_refs f x hs n : tx f x hs -> Z.of_nat (S (fst (block_of x n))) < 2 ^ 32.
Proof. intros H. rewrite (tx_refs _ _ _ H n). unfold pins, holds. destruct (decide _), (bH x !! n); lia. Qed.

Lemma view_ext x x' n : bD x' = bD x -> bR x' !! n = bR x !! n -> view x' n = view x n.
Proof. intros H1 H2. unfold view, block_of. by rewrite H1, H2. Qed.

Lemma block_of_insert D R H n m r d :
  block_of (mk_bst D (<[n := (r, d)]> R) H) m = if decide (m = n) then (r, d) else default (0%nat, blk D m) (R !! m).
Proof. unfold block_of. cbn. destruct (decide (m = n)) as [->|]; [by rewrite lookup_insert_eq|by rewrite lookup_insert_ne]. Qed.

(** Reading a block does not change what the file system sees. *)
Lemma x_read_tx f x hs n b f' :
  tx f x hs -> bH x !! n = None -> rep f' (x_read x n b) -> lg f' = lg f ->
  tx f' (x_read x n b) hs /\ forall m, view (x_read x n b) m = view x m.
Proof.
  intros H Hn Hr El.
  assert (forall m, block_of (x_read x n b) m = ((fst (block_of x m) + (if decide (m = n) then 1 else 0))%nat, view x m)) as Eb.
  { intros m. unfold x_read. rewrite block_of_insert. fold (block_of x m). destruct (decide (m = n)) as [->|]; [f_equal; lia|].
    unfold view. destruct (block_of x m). cbn. f_equal. lia. }
  assert (forall m, view (x_read x n b) m = view x m) as Ev by (intros m; unfold view at 1; by rewrite Eb).
  split; [|done]. destruct H as [_ H2 H3 H4 H5 H6 H7]. split; rewrite ?El; try done.
  - intros m. rewrite Eb, H6. cbn. unfold holds. destruct (decide (m = n)) as [->|].
    + rewrite lookup_insert_eq, Hn. lia.
    + rewrite lookup_insert_ne by done. lia.
  - intros m Hm. rewrite Ev. by apply H7.
Qed.

Lemma tx_bread P f x hs n k (Q : nat -> st (kst fsys) -> Prop) :
  tx f x hs -> at_work i pid0 k -> bH x !! n = None -> 0 <= n < 2 ^ 31 ->
  n ∈ hs \/ (length hs + size (bH x) < NBUF)%nat -> P (bD x) ->
  (forall b f' x' k', tx f' x' hs -> bH x' = <[n := b]> (bH x) -> bD x' = bD x -> (forall m, view x' m = view x m) ->
     kept i pid0 f k f' k' -> Q b (mk_st [] (set_files f' k'))) ->
  wpe env (on_medium P) (bread dev n) Q (mk_st [] (set_files f k)).
Proof.
  intros H Hw Hn Hrg Hroom HP HQ. eapply bl_bread; [apply H|done|done|done| |by eapply small_refs|done|].
  - destruct Hroom as [Hi|Hr]; [left; apply (in_refs f x hs n H); by left|right]. pose proof (tx_room f x hs H). lia.
  - intros b f' k' Hr K. destruct (x_read_tx f x hs n b f' H Hn Hr (kept_lg _ _ _ _ K)) as [Ht Ev]. by eapply HQ.
Qed.

(** Releasing one neither. *)
Lemma x_release_tx f x hs n b f' :
  tx f x hs -> bH x !! n = Some b -> rep f' (x_release x n) -> lg f' = lg f ->
  tx f' (x_release x n) hs /\ forall m, view (x_release x n) m = view x m.
Proof.
  intros H Hn Hr El. pose proof (tx_refs _ _ _ H n) as Rn. unfold holds in Rn. rewrite Hn in Rn.
  assert (forall m, block_of (x_release x n) m = ((fst (block_of x m) - (if decide (m = n) then 1 else 0))%nat, view x m)) as Eb.
  { intros m. unfold x_release, x_unref, pins in *. destruct (fst (block_of x n)) as [|[|r]] eqn:E; [lia| |].
    - unfold block_of. cbn. destruct (decide (m = n)) as [->|].
      + rewrite lookup_delete_eq. cbn. unfold block_of in E. f_equal; [by rewrite E|]. symmetry. apply H. intros Hi.
        rewrite decide_True in Rn by done. lia.
      + rewrite lookup_delete_ne by done. fold (block_of x m). unfold view. destruct (block_of x m). cbn. f_equal. lia.
    - rewrite block_of_insert. fold (block_of x m). destruct (decide (m = n)) as [->|]; [rewrite E; f_equal; lia|].
      unfold view. destruct (block_of x m). cbn. f_equal. lia. }
  assert (forall m, view (x_release x n) m = view x m) as Ev by (intros m; unfold view at 1; by rewrite Eb).
  split; [|done]. destruct H as [_ H2 H3 H4 H5 H6 H7]. split; rewrite ?El; try done.
  - intros m. rewrite Eb, H6. cbn. unfold holds. destruct (decide (m = n)) as [->|].
    + rewrite lookup_delete_eq, Hn. lia.
    + rewrite lookup_delete_ne by done. lia.
  - intros m Hm. rewrite Ev. by apply H7.
Qed.

Lemma tx_brelse f x hs n b k (Q : unit -> st (kst fsys) -> Prop) :
  tx f x hs -> at_work i pid0 k -> bH x !! n = Some b ->
  (forall f' x', tx f' x' hs -> bH x' = delete n (bH x) -> bD x' = bD x -> (forall m, view x' m = view x m) ->
     kept i pid0 f k f' k -> Q tt (mk_st [] (set_files f' k))) ->
  wp (brelse b) Q (mk_st [] (set_files f k)).
Proof.
  intros H Hw Hn HQ. eapply bl_brelse; [apply H|done|done| |].
  - intros E. apply H. intros Hi. rewrite (tx_refs _ _ _ H n) in E. unfold pins, holds in E. rewrite decide_True, Hn in E by done. lia.
  - intros f' Hr K. destruct (x_release_tx f x hs n b f' H Hn Hr (kept_lg _ _ _ _ K)) as [Ht Ev]. by eapply HQ.
Qed.

Lemma tx_bdata f x hs n b hl k (Q : list Z -> st (kst fsys) -> Prop) :
  tx f x hs -> bH x !! n = Some b -> Q (view x n) (mk_st hl (set_files f k)) -> wp (bdata b) Q (mk_st hl (set_files f k)).
Proof. intros H Hn HQ. eapply bl_bdata; [apply H|done|done]. Qed.

(** *** Changing a block *)

Lemma log_ok_absorbed hs n : log_ok start hs -> 0 <= n < 2 ^ 31 -> ~ in_log start n -> Z.of_nat (length hs) < LOGSIZE - 1 ->
  log_ok start (absorbed hs n).
Proof.
  intros [L1 L2 L3 L4] Hn Hi Hl. unfold absorbed. destruct (decide (n ∈ hs)) as [|Hni]; [done|]. split; [done| | |].
  - rewrite length_app. cbn. lia.
  - apply NoDup_app. split_and!; [done| |apply NoDup_singleton]. by intros m Hm ->%list_elem_of_singleton.
  - intros h [?|E%list_elem_of_singleton]%elem_of_app; [by apply L4|by rewrite E].
Qed.

Lemma pins_absorbed hs n : pins (absorbed hs n) n = 1%nat.
Proof.
  unfold pins. apply decide_True. unfold absorbed. destruct (decide (n ∈ hs)); [done|]. apply elem_of_app. right. by left.
Qed.

Lemma x_write_tx f x hs n b d f' :
  tx f x hs -> bH x !! n = Some b -> 0 <= n < 2 ^ 31 -> ~ in_log start n -> Z.of_nat (length hs) < LOGSIZE - 1 ->
  let x' := x_logged (x_set x n d) hs n in
  rep f' x' -> log_mem (lg f') (absorbed hs n) -> l_outstanding (lg f') = l_outstanding (lg f) -> l_size (lg f') = l_size (lg f) ->
  tx f' x' (absorbed hs n) /\ bH x' = bH x /\ bD x' = bD x /\ view x' n = d /\ forall m, m <> n -> view x' m = view x m.
Proof.
  intros H Hb Hn Hi Hl x' Hr Hm Ho Hs.
  assert (block_of (x_set x n d) n = (fst (block_of x n), d)) as En.
  { unfold x_set. rewrite block_of_insert. by rewrite decide_True. }
  assert (forall m, m <> n -> block_of (x_set x n d) m = block_of x m) as Em.
  { intros m Hne. unfold x_set. rewrite block_of_insert. by rewrite decide_False. }
  assert (bH x' = bH x /\ bD x' = bD x) as [EH ED] by (unfold x', x_logged; by destruct (decide _)).
  assert (forall m, block_of x' m = if decide (m = n) then (2%nat, d) else block_of x m) as Eb.
  { intros m. pose proof (tx_refs _ _ _ H n) as Rn. unfold pins, holds in Rn. rewrite Hb in Rn. unfold x', x_logged.
    destruct (decide (n ∈ hs)) as [Hin|Hni].
    - destruct (decide (m = n)) as [->|]; [rewrite En, Rn; done|by apply Em].
    - unfold x_pin, view. rewrite En, block_of_insert. cbn [fst snd].
      destruct (decide (m = n)) as [->|]; [by rewrite Rn|]. fold (block_of (x_set x n d) m). by apply Em. }
  assert (view x' n = d) as Vn by (unfold view; rewrite Eb, decide_True; done).
  assert (forall m, m <> n -> view x' m = view x m) as Vm by (intros m Hne; unfold view; rewrite Eb, decide_False; done).
  split_and!; try done. pose proof H as [_ H2 H3 H4 H5 H6 H7]. split; rewrite ?Ho, ?Hs; try done.
  - by apply log_ok_absorbed.
  - intros m. rewrite Eb, EH. unfold holds. destruct (decide (m = n)) as [->|Hne]; [by rewrite Hb, pins_absorbed|]. rewrite H6. unfold pins, holds.
    f_equal. unfold absorbed. destruct (decide (n ∈ hs)); [done|].
    destruct (decide (m ∈ hs)) as [Hmi|Hmi]; [rewrite decide_True; [done|apply elem_of_app; by left]|].
    rewrite decide_False; [done|]. by intros [?|?%list_elem_of_singleton]%elem_of_app.
  - intros m Hmi. assert (m <> n /\ m ∉ hs) as [Hne Hmh].
    { unfold absorbed in Hmi. destruct (decide (n ∈ hs)); [split; [by intros ->|done]|]. apply not_elem_of_app in Hmi as [? Hx].
      split; [|done]. intros ->. apply Hx. by left. }
    rewrite Vm, ED by done. by apply H7.
Qed.

(** [set_bdata] and [log_write], then the rest of the program. *)
Lemma tx_write {A} P f x hs n b d k (m : K A) (Q : A -> st (kst fsys) -> Prop) :
  tx f x hs -> at_work i pid0 k -> bH x !! n = Some b -> length d = Z.to_nat BSIZE -> ~ in_log start n ->
  Z.of_nat (length hs) < LOGSIZE - 1 ->
  (forall f' x', tx f' x' (absorbed hs n) -> bH x' = bH x -> bD x' = bD x -> view x' n = d ->
     (forall m, m <> n -> view x' m = view x m) -> kept_log f k f' k -> wpe env (on_medium P) m Q (mk_st [] (set_files f' k))) ->
  wpe env (on_medium P) (set_bdata b d ;; log_write b ;; m) Q (mk_st [] (set_files f k)).
Proof.
  intros H Hw Hb Hd Hi Hl HQ. destruct (bl_name f x n b (tx_rep _ _ _ H) Hb) as (y & _ & _ & Hn).
  wpe_step. apply wp_wpe. eapply bl_set_bdata; [apply H|done|done|done|]. intros f1 H1 K1. pose proof (kept_lg _ _ _ _ K1) as G1.
  wpe_step. apply wp_wpe. eapply (wp_log_write start f1 _ n b k hs); [exact H1|apply K1|done|rewrite G1; apply H| |pose proof (lo_fits _ _ (tx_ok _ _ _ H)); lia| | | |].
  - intros h Hh. by apply (lo_homes _ _ (tx_ok _ _ _ H)).
  - rewrite G1, (tx_size _ _ _ H). lia.
  - rewrite G1. apply H.
  - unfold x_set. rewrite block_of_insert, decide_True by done. by apply (small_refs f x hs n).
  - intros f2 H2 M2 O2 C2 S2 K2. rewrite G1 in O2, S2.
    destruct (x_write_tx f x hs n b d f2 H Hb Hn Hi Hl H2 M2 O2 S2) as (T & T1 & T2 & T3 & T4).
    eapply HQ; [exact T|done|done|done|done|]. eapply kept_log_trans; [by apply kept_kept_log|done].
Qed.
End tx.
