(* ===== verification/Fs.v ===== *)
(** * Inodes, directories and paths (kernel/fs.c)

    A pointer to an in-memory inode is an index of [itable]; where the code
    tests it for NULL it is an option.  The on-disk structures are read and
    written at their offsets in the bytes of a block. *)

From S2P Require Import Prelude Spinlock Riscv Kalloc Vm Queue PriorityQueue KString Proc FsState Sleeplock Virtio Bio Log.

(** ** Layout (kernel/fs.h) *)

Definition IBLOCK (i : Z) (s : superblock) : Z := u32 (i / IPB + sb_inodestart s).
Definition BBLOCK (b : Z) (s : superblock) : Z := u32 (b / BPB + sb_bmapstart s).

Definition decode_sb (d : list Z) : superblock :=
  mk_sb (get32 d 0) (get32 d 4) (get32 d 8) (get32 d 12) (get32 d 16) (get32 d 20) (get32 d 24) (get32 d 28).

(** [struct dinode] at its offset in a block: [type], [major], [minor],
    [nlink], [size] and [addrs]. *)
Definition DINODE_SIZE : nat := 64.
Definition dinode_off (inum : Z) : nat := (Z.to_nat (inum mod IPB) * DINODE_SIZE)%nat.

Definition addr_slots : list nat := seq 0 (Z.to_nat NDIRECT + 1).
Definition put_addrs (d : list Z) (o : nat) (addrs : list Z) : list Z :=
  foldl (fun d k => put32 d (o + 12 + 4 * k) (default 0 (addrs !! k))) d addr_slots.
Definition put_dinode (d : list Z) (o : nat) (ip : inode) : list Z :=
  let d := put16 d o (i_type ip) in
  let d := put16 d (o + 2) (i_major ip) in
  let d := put16 d (o + 4) (i_minor ip) in
  let d := put16 d (o + 6) (i_nlink ip) in
  let d := put32 d (o + 8) (i_size ip) in
  put_addrs d o (i_addrs ip).
Definition get_dinode (d : list Z) (o : nat) (ip : inode) : inode :=
  mk_inode (i_dev ip) (i_inum ip) (i_ref ip) (i_valid ip)
    (i16 (get16 d o)) (i16 (get16 d (o + 2))) (i16 (get16 d (o + 4))) (i16 (get16 d (o + 6)))
    (get32 d (o + 8)) ((fun k => get32 d (o + 12 + 4 * k)) <$> addr_slots).

(** [struct dirent]: [inum] and [name]. *)
Definition DIRENT_SIZE : Z := 16.
Definition de_inum (de : list Z) : Z := get16 de 0.
Definition de_name (de : list Z) : list Z := drop 2 de.

(** kernel/stat.h; the four bytes of padding before [size] are left zero. *)
Record stat : Type := mk_stat { st_dev : Z; st_ino : Z; st_type : Z; st_nlink : Z; st_size : Z }.
Definition stat_bytes (s : stat) : list Z :=
  let d := replicate 24 0 in
  let d := put32 d 0 (st_dev s) in
  let d := put32 d 4 (st_ino s) in
  let d := put16 d 8 (st_type s) in
  let d := put16 d 10 (st_nlink s) in
  let d := put32 d 16 (st_size s) in
  put32 d 20 (st_size s / 2 ^ 32).

Section fs.
Context {img : Image} {waits : Waits} {mmio : VirtioMmio}.

Definition readsb (dev : Z) : K unit :=
  bp <- bread dev 1 ;;
  d <- bdata bp ;;
  fs_modify (set_sb (decode_sb d)) ;;
  brelse bp.

Definition fsinit (dev : Z) : K unit :=
  readsb dev ;;
  s <- fs_gets sb ;;
  if negb (sb_magic s =? FSMAGIC) then panic "invalid file system" else
  initlog dev s.

(** ** Blocks *)

Definition bzero (dev bno : Z) : K unit :=
  bp <- bread (u32 dev) (u32 bno) ;;
  d <- bdata bp ;;
  set_bdata bp (splice d 0 (replicate (Z.to_nat BSIZE) 0)) ;;
  log_write bp ;;
  brelse bp.

(** Bit [bi] of a bitmap block. *)
Definition bit_mask (bi : Z) : Z := 2 ^ (bi mod 8).
Definition bit_byte (bi : Z) : nat := Z.to_nat (bi / 8).
Definition bit_clear (d : list Z) (bi : Z) : bool := Z.land (default 0 (d !! bit_byte bi)) (bit_mask bi) =? 0.
Definition set_bit (d : list Z) (bi : Z) : list Z := alter (fun x => Z.lor x (bit_mask bi)) (bit_byte bi) d.
Definition reset_bit (d : list Z) (bi : Z) : list Z :=
  alter (fun x => Z.land x (Z.lnot (bit_mask bi))) (bit_byte bi) d.

(** [for(bi = 0; bi < BPB && b + bi < sb.size; bi++)]: the first clear bit. *)
Fixpoint free_bit (n : nat) (d : list Z) (bi : Z) : option Z :=
  match n with
  | O => None
  | S n' => if bit_clear d bi then Some bi else free_bit n' d (bi + 1)
  end.

Definition balloc (dev : Z) : K Z :=
  s <- fs_gets sb ;;
  r <- for_find (seq 0 (Z.to_nat ((sb_size s + BPB - 1) / BPB))) (fun k =>
    let b := Z.of_nat k * BPB in
    bp <- bread dev (BBLOCK b s) ;;
    d <- bdata bp ;;
    match free_bit (Z.to_nat (Z.min BPB (sb_size s - b))) d 0 with
    | Some bi =>
        set_bdata bp (set_bit d bi) ;;
        log_write bp ;;
        brelse bp ;;
        bzero dev (b + bi) ;;
        ret (Some (b + bi))
    | None => brelse bp ;; ret None
    end) ;;
  match r with
  | Some b => ret b
  | None => printf "balloc: out of blocks\n" [] ;; ret 0
  end.

Definition bfree (dev b : Z) : K unit :=
  s <- fs_gets sb ;;
  bp <- bread (u32 dev) (BBLOCK b s) ;;
  d <- bdata bp ;;
  let bi := b mod BPB in
  if bit_clear d bi then panic "freeing free block" else
  set_bdata bp (reset_bit d bi) ;;
  log_write bp ;;
  brelse bp.

(** ** Inodes *)

Definition iinit : K unit := for_each (seq 0 NINODE) (fun i => initsleeplock (inode_lock i)).

(** The scan of [iget]: the entry that holds the inode, or the first unused one. *)
Fixpoint iget_scan (idx : list nat) (dev inum : Z) (empty : option nat) : K (option nat * option nat) :=
  match idx with
  | [] => ret (None, empty)
  | i :: idx' =>
      ip <- get_inode i ;;
      if (0 <? i_ref ip) && (i_dev ip =? dev) && (i_inum ip =? inum) then ret (Some i, empty)
      else iget_scan idx' dev inum
             (match empty with Some _ => empty | None => if i_ref ip =? 0 then Some i else None end)
  end.

Definition iget (dev inum : Z) : K nat :=
  acquire LkItable ;;
  r <- iget_scan (seq 0 NINODE) dev inum None ;;
  match r with
  | (Some i, _) =>
      upd_inode i (fun ip => set_i_ref (i32 (i_ref ip + 1)) ip) ;;
      release LkItable ;;
      ret i
  | (None, None) => panic "iget: no inodes"
  | (None, Some i) =>
      upd_inode i (fun ip => set_i_valid 0 (set_i_ref 1 (set_i_inum inum (set_i_dev dev ip)))) ;;
      release LkItable ;;
      ret i
  end.

Definition ialloc (dev type : Z) : K (option nat) :=
  s <- fs_gets sb ;;
  r <- for_find (seq 1 (Z.to_nat (sb_ninodes s) - 1)) (fun n =>
    let inum := Z.of_nat n in
    bp <- bread dev (IBLOCK inum s) ;;
    d <- bdata bp ;;
    let o := dinode_off inum in
    if get16 d o =? 0 then
      set_bdata bp (put16 (splice d o (replicate DINODE_SIZE 0)) o type) ;;
      log_write bp ;;
      brelse bp ;;
      i <- iget dev inum ;;
      ret (Some i)
    else brelse bp ;; ret None) ;;
  match r with
  | Some i => ret (Some i)
  | None => printf "ialloc: no inodes\n" [] ;; ret None
  end.

Definition iupdate (i : nat) : K unit :=
  s <- fs_gets sb ;;
  ip <- get_inode i ;;
  bp <- bread (i_dev ip) (IBLOCK (i_inum ip) s) ;;
  d <- bdata bp ;;
  ip <- get_inode i ;;
  set_bdata bp (put_dinode d (dinode_off (i_inum ip)) ip) ;;
  log_write bp ;;
  brelse bp.

Definition idup (i : nat) : K nat :=
  acquire LkItable ;;
  _ <- get_inode i ;;
  upd_inode i (fun ip => set_i_ref (i32 (i_ref ip + 1)) ip) ;;
  release LkItable ;;
  ret i.

Definition ilock (o : option nat) : K unit :=
  match o with
  | None => panic "ilock"
  | Some i =>
      ip <- get_inode i ;;
      if i_ref ip <? 1 then panic "ilock" else
      acquiresleep (inode_lock i) ;;
      ip <- get_inode i ;;
      when (i_valid ip =? 0)
        (s <- fs_gets sb ;;
         bp <- bread (i_dev ip) (IBLOCK (i_inum ip) s) ;;
         d <- bdata bp ;;
         upd_inode i (fun ip => get_dinode d (dinode_off (i_inum ip)) ip) ;;
         brelse bp ;;
         upd_inode i (set_i_valid 1) ;;
         ip <- get_inode i ;;
         if i_type ip =? 0 then panic "ilock: no type" else ret tt)
  end.

Definition iunlock (o : option nat) : K unit :=
  match o with
  | None => panic "iunlock"
  | Some i =>
      h <- holdingsleep (inode_lock i) ;;
      ip <- get_inode i ;;
      if negb h || (i_ref ip <? 1) then panic "iunlock" else
      releasesleep (inode_lock i)
  end.

(** ** Inode content *)

Definition get_addr (i : nat) (k : nat) : K Z := ip <- get_inode i ;; deref (fun _ => i_addrs ip !! k).
Definition set_addr (i : nat) (k : nat) (v : Z) : K unit :=
  upd_inode i (fun ip => set_i_addrs (<[k := v]> (i_addrs ip)) ip).

Definition bmap (i : nat) (bn : Z) : K Z :=
  ip <- get_inode i ;;
  if bn <? NDIRECT then
    addr <- get_addr i (Z.to_nat bn) ;;
    if addr =? 0 then
      addr <- balloc (i_dev ip) ;;
      if addr =? 0 then ret 0
      else set_addr i (Z.to_nat bn) addr ;; ret addr
    else ret addr
  else
    let bn := bn - NDIRECT in
    if bn <? NINDIRECT then
      addr <- get_addr i (Z.to_nat NDIRECT) ;;
      addr <- (if addr =? 0 then
                 addr <- balloc (i_dev ip) ;;
                 (if addr =? 0 then ret 0 else set_addr i (Z.to_nat NDIRECT) addr ;; ret addr)
               else ret addr) ;;
      if addr =? 0 then ret 0 else
      bp <- bread (i_dev ip) addr ;;
      d <- bdata bp ;;
      let o := (4 * Z.to_nat bn)%nat in
      let addr := get32 d o in
      addr <- (if addr =? 0 then
                 addr <- balloc (i_dev ip) ;;
                 when (negb (addr =? 0))
                   (d <- bdata bp ;; set_bdata bp (put32 d o addr) ;; log_write bp) ;;
                 ret addr
               else ret addr) ;;
      brelse bp ;;
      ret addr
    else panic "bmap: out of range".

Definition itrunc (i : nat) : K unit :=
  for_each (seq 0 (Z.to_nat NDIRECT)) (fun k =>
    ip <- get_inode i ;;
    a <- get_addr i k ;;
    when (negb (a =? 0)) (bfree (i_dev ip) a ;; set_addr i k 0)) ;;
  ip <- get_inode i ;;
  a <- get_addr i (Z.to_nat NDIRECT) ;;
  when (negb (a =? 0))
    (bp <- bread (i_dev ip) a ;;
     for_each (seq 0 (Z.to_nat NINDIRECT)) (fun j =>
       d <- bdata bp ;;
       let x := get32 d (4 * j) in
       when (negb (x =? 0)) (bfree (i_dev ip) x)) ;;
     brelse bp ;;
     bfree (i_dev ip) a ;;
     set_addr i (Z.to_nat NDIRECT) 0) ;;
  upd_inode i (set_i_size 0) ;;
  iupdate i.

Definition iput (i : nat) : K unit :=
  acquire LkItable ;;
  ip <- get_inode i ;;
  when ((i_ref ip =? 1) && negb (i_valid ip =? 0) && (i_nlink ip =? 0))
    (acquiresleep (inode_lock i) ;;
     release LkItable ;;
     itrunc i ;;
     upd_inode i (set_i_type 0) ;;
     iupdate i ;;
     upd_inode i (set_i_valid 0) ;;
     releasesleep (inode_lock i) ;;
     acquire LkItable) ;;
  upd_inode i (fun ip => set_i_ref (i32 (i_ref ip - 1)) ip) ;;
  release LkItable.

Definition iunlockput (o : option nat) : K unit :=
  iunlock o ;; i <- deref (fun _ => o) ;; iput i.

Definition stati (i : nat) : K stat :=
  ip <- get_inode i ;;
  ret (mk_stat (i32 (i_dev ip)) (i_inum ip) (i_type ip) (i_nlink ip) (i_size ip)).

(** The loop of [readi]: what is returned, and the bytes copied to a kernel
    destination.  Every round copies at least one byte. *)
Fixpoint readi_loop (fuel : nat) (i : nat) (user_dst : bool) (dst off n tot : Z) (out : list Z)
    : K (Z * list Z) :=
  match fuel with
  | O => nofuel
  | S fuel' =>
      if tot <? n then
        addr <- bmap i (off / BSIZE) ;;
        if addr =? 0 then ret (tot, out) else
        ip <- get_inode i ;;
        bp <- bread (i_dev ip) addr ;;
        let m := Z.min (n - tot) (BSIZE - off mod BSIZE) in
        d <- bdata bp ;;
        let chunk := take (Z.to_nat m) (drop (Z.to_nat (off mod BSIZE)) d) in
        r <- either_copyout user_dst dst chunk ;;
        if r =? -1 then brelse bp ;; ret (-1, out)
        else
          brelse bp ;;
          readi_loop fuel' i user_dst (u64 (dst + m)) (u32 (off + m)) n (tot + m) (out ++ chunk)
      else ret (tot, out)
  end.

Definition readi (i : nat) (user_dst : bool) (dst off n : Z) : K (Z * list Z) :=
  ip <- get_inode i ;;
  if (i_size ip <? off) || (u32 (off + n) <? off) then ret (0, [])
  else
    let n := if i_size ip <? u32 (off + n) then i_size ip - off else n in
    r <- readi_loop (S (Z.to_nat n)) i user_dst dst off n 0 [] ;;
    ret (i32 (fst r), snd r).

(** The loop of [writei]: the bytes written and the offset reached.  What a
    failing copy has already put into the buffer stays there. *)
Fixpoint writei_loop (fuel : nat) (i : nat) (src : wsrc) (off n tot : Z) : K (Z * Z) :=
  match fuel with
  | O => nofuel
  | S fuel' =>
      if tot <? n then
        addr <- bmap i (off / BSIZE) ;;
        if addr =? 0 then ret (tot, off) else
        ip <- get_inode i ;;
        bp <- bread (i_dev ip) addr ;;
        let m := Z.min (n - tot) (BSIZE - off mod BSIZE) in
        r <- src_read src m ;;
        d <- bdata bp ;;
        set_bdata bp (splice d (Z.to_nat (off mod BSIZE)) (snd r)) ;;
        if fst r =? -1 then brelse bp ;; ret (tot, off)
        else
          log_write bp ;;
          brelse bp ;;
          writei_loop fuel' i (src_skip src m) (u32 (off + m)) n (tot + m)
      else ret (tot, off)
  end.

Definition writei (i : nat) (src : wsrc) (off n : Z) : K Z :=
  ip <- get_inode i ;;
  if (i_size ip <? off) || (u32 (off + n) <? off) then ret (-1)
  else if MAXFILE * BSIZE <? u32 (off + n) then ret (-1)
  else
    r <- writei_loop (S (Z.to_nat n)) i src off n 0 ;;
    let '(tot, off) := r in
    ip <- get_inode i ;;
    when (i_size ip <? off) (upd_inode i (set_i_size off)) ;;
    iupdate i ;;
    ret (i32 tot).

(** ** Directories *)

Definition namecmp (s t : list Z) : Z := strncmp s t DIRSIZ.

(** A [readi] of the entry at [off] that must succeed. *)
Definition read_dirent (i : nat) (off : Z) (msg : string) : K (list Z) :=
  r <- readi i false 0 off DIRENT_SIZE ;;
  if negb (fst r =? DIRENT_SIZE) then panic msg else ret (snd r).

(** The entry found, with its offset. *)
Fixpoint dirlookup_loop (fuel : nat) (i : nat) (name : list Z) (off : Z) : K (option (nat * Z)) :=
  match fuel with
  | O => nofuel
  | S fuel' =>
      ip <- get_inode i ;;
      if off <? i_size ip then
        de <- read_dirent i off "dirlookup read" ;;
        if de_inum de =? 0 then dirlookup_loop fuel' i name (u32 (off + DIRENT_SIZE))
        else if namecmp name (de_name de) =? 0 then
          ip <- get_inode i ;;
          x <- iget (i_dev ip) (de_inum de) ;;
          ret (Some (x, off))
        else dirlookup_loop fuel' i name (u32 (off + DIRENT_SIZE))
      else ret None
  end.

Definition dir_fuel (ip : inode) : nat := S (S (Z.to_nat (i_size ip / DIRENT_SIZE))).

Definition dirlookup (i : nat) (name : list Z) : K (option (nat * Z)) :=
  ip <- get_inode i ;;
  if negb (i_type ip =? T_DIR) then panic "dirlookup not DIR" else
  dirlookup_loop (dir_fuel ip) i name 0.

(** The offset of the first empty entry, or the end of the directory. *)
Fixpoint empty_dirent (fuel : nat) (i : nat) (off : Z) : K Z :=
  match fuel with
  | O => nofuel
  | S fuel' =>
      ip <- get_inode i ;;
      if off <? i_size ip then
        de <- read_dirent i off "dirlink read" ;;
        if de_inum de =? 0 then ret off else empty_dirent fuel' i (off + DIRENT_SIZE)
      else ret off
  end.

Definition mk_dirent (name : list Z) (inum : Z) : list Z :=
  put16 (replicate 2 0) 0 inum ++ strncpy_out name DIRSIZ.

Definition dirlink (i : nat) (name : list Z) (inum : Z) : K Z :=
  r <- dirlookup i name ;;
  match r with
  | Some (ip, _) => iput ip ;; ret (-1)
  | None =>
      ip <- get_inode i ;;
      off <- empty_dirent (dir_fuel ip) i 0 ;;
      w <- writei i (SrcKernel (mk_dirent name inum)) off DIRENT_SIZE ;;
      if negb (w =? DIRENT_SIZE) then ret (-1) else ret 0
  end.

(** ** Paths *)

Definition slash : Z := 47.

Fixpoint skip_slashes (path : list Z) : list Z :=
  match path with c :: path' => if c =? slash then skip_slashes path' else path | [] => [] end.

(** The element at the front of a path and what follows it. *)
Fixpoint span_elem (path : list Z) : list Z * list Z :=
  match path with
  | c :: path' =>
      if (c =? slash) || (c =? 0) then ([], path)
      else let '(e, rest) := span_elem path' in (c :: e, rest)
  | [] => ([], [])
  end.

(** The rest of the path and the new contents of [name]. *)
Definition skipelem (path name : list Z) : option (list Z * list Z) :=
  let path := skip_slashes path in
  if char0 path =? 0 then None
  else
    let '(s, path) := span_elem path in
    let name :=
      if (DIRSIZ <=? length s)%nat then splice name 0 (take DIRSIZ s)
      else splice name 0 (s ++ [0]) in
    Some (skip_slashes path, name).

(** Each round removes an element of the path. *)
Fixpoint namex_loop (fuel : nat) (ip : nat) (path : list Z) (nameiparent : bool) (name : list Z)
    : K (option nat * list Z) :=
  match fuel with
  | O => nofuel
  | S fuel' =>
      match skipelem path name with
      | None => if nameiparent then iput ip ;; ret (None, name) else ret (Some ip, name)
      | Some (path, name) =>
          ilock (Some ip) ;;
          x <- get_inode ip ;;
          if negb (i_type x =? T_DIR) then iunlockput (Some ip) ;; ret (None, name)
          else if nameiparent && (char0 path =? 0) then iunlock (Some ip) ;; ret (Some ip, name)
          else
            r <- dirlookup ip name ;;
            match r with
            | None => iunlockput (Some ip) ;; ret (None, name)
            | Some (next, _) =>
                iunlockput (Some ip) ;;
                namex_loop fuel' next path nameiparent name
            end
      end
  end.

Definition namex (path : list Z) (nameiparent : bool) (name : list Z) : K (option nat * list Z) :=
  ip <- (if char0 path =? slash then iget ROOTDEV ROOTINO
         else i <- my ;; p <- get_proc i ;; c <- deref (fun _ => cwd p) ;; idup c) ;;
  namex_loop (S (length path)) ip path nameiparent name.

(** A [name] array on the stack: [skipelem] writes what is read of it. *)
Definition fresh_name : list Z := replicate DIRSIZ 0.

Definition namei (path : list Z) : K (option nat) :=
  r <- namex path false fresh_name ;; ret (fst r).

Definition nameiparent (path name : list Z) : K (option nat * list Z) := namex path true name.
End fs.
