(* ===== verification/BlockAlloc.v ===== *)
(** * The free-block map (balloc, bfree and bzero of kernel/fs.c)

    A bit of the map is set for every block in use.  [balloc] takes the first
    block whose bit is clear, sets the bit and zeroes the block, all inside the
    transaction; [bfree] clears the bit. *)

From S2P Require Import Prelude Spinlock Riscv Kalloc Vm Queue PriorityQueue KString Proc ProcProofs ProcLife FsState FsBytes Env Sleeplock Virtio World VirtioProofs Bio BioProofs Log LogSpec LogProofs TxProofs Fs.

Ltac Zify.zify_post_hook ::= Z.to_euclidean_division_equations.

(** ** Bits *)

Lemma land_pow2 x n : 0 <= n -> (Z.land x (2 ^ n) =? 0) = negb (Z.testbit x n).
Proof.
  intros Hn. destruct (Z.testbit x n) eqn:E; cbn.
  - apply Z.eqb_neq. intros H. assert (Z.testbit (Z.land x (2 ^ n)) n = true) as T.
    { rewrite Z.land_spec, E, Z.pow2_bits_true; [done|lia]. }
    rewrite H, Z.bits_0 in T. done.
  - apply Z.eqb_eq. apply Z.bits_inj'. intros m Hm. rewrite Z.land_spec, Z.bits_0.
    destruct (decide (m = n)) as [->|Hne]; [by rewrite E|]. rewrite Z.pow2_bits_false by lia. by rewrite andb_false_r.
Qed.

Definition bit (d : list Z) (bi : Z) : bool := Z.testbit (default 0 (d !! bit_byte bi)) (bi mod 8).
Lemma bit_clear_spec d bi : bit_clear d bi = negb (bit d bi).
Proof. unfold bit_clear, bit_mask. apply land_pow2. lia. Qed.

Lemma bit_alter g d bi bj : 0 <= bi < 8 * Z.of_nat (length d) ->
  (forall x n, 0 <= n < 8 -> Z.testbit (g x) n = if decide (n = bi mod 8) then Z.testbit (g x) (bi mod 8) else Z.testbit x n) ->
  0 <= bj ->
  bit (alter g (bit_byte bi) d) bj =
    if decide (bj = bi) then Z.testbit (g (default 0 (d !! bit_byte bi))) (bi mod 8) else bit d bj.
Proof.
  intros Hbi Hg Hbj. unfold bit, bit_byte in *.
  destruct (lookup_lt_is_Some_2 d (Z.to_nat (bi / 8))) as [y Hy]; [lia|].
  destruct (decide (bi / 8 = bj / 8)) as [E|Hne].
  - rewrite <- E. rewrite list_lookup_alter_eq, Hy. cbn. destruct (decide (bj = bi)) as [->|Hne]; [done|].
    rewrite Hg by lia. rewrite decide_False by lia. done.
  - rewrite list_lookup_alter_ne by lia. rewrite decide_False by (intros ->; lia). done.
Qed.

Lemma bit_set d bi bj : 0 <= bi < 8 * Z.of_nat (length d) -> 0 <= bj ->
  bit (set_bit d bi) bj = if decide (bj = bi) then true else bit d bj.
Proof.
  intros Hbi Hbj. unfold set_bit. rewrite bit_alter; [|done| |done].
  - destruct (decide (bj = bi)); [|done]. unfold bit_mask. rewrite Z.lor_spec, Z.pow2_bits_true by lia. by rewrite orb_true_r.
  - intros x n Hn. unfold bit_mask. rewrite !Z.lor_spec. destruct (decide (n = bi mod 8)) as [->|Hne]; [done|].
    rewrite Z.pow2_bits_false by lia. by rewrite orb_false_r.
Qed.
Lemma bit_reset d bi bj : 0 <= bi < 8 * Z.of_nat (length d) -> 0 <= bj ->
  bit (reset_bit d bi) bj = if decide (bj = bi) then false else bit d bj.
Proof.
  intros Hbi Hbj. unfold reset_bit. rewrite bit_alter; [|done| |done].
  - destruct (decide (bj = bi)); [|done]. unfold bit_mask. rewrite Z.land_spec, Z.lnot_spec, Z.pow2_bits_true by lia. by rewrite andb_false_r.
  - intros x n Hn. unfold bit_mask. rewrite !Z.land_spec, !Z.lnot_spec by lia. destruct (decide (n = bi mod 8)) as [->|Hne]; [done|].
    rewrite Z.pow2_bits_false by lia. by rewrite andb_true_r.
Qed.
Lemma set_bit_length d bi : length (set_bit d bi) = length d.
Proof. apply length_alter. Qed.
Lemma reset_bit_length d bi : length (reset_bit d bi) = length d.
Proof. apply length_alter. Qed.

Lemma free_bit_spec n d bi : 
  match free_bit n d bi with
  | Some bj => bi <= bj < bi + Z.of_nat n /\ bit d bj = false /\ forall b, bi <= b < bj -> bit d b = true
  | None => forall b, bi <= b < bi + Z.of_nat n -> bit d b = true
  end.
Proof.
  revert bi. induction n as [|n IH]; intros bi; cbn [free_bit]; [intros; lia|].
  rewrite bit_clear_spec. destruct (bit d bi) eqn:E; cbn [negb].
  - specialize (IH (bi + 1)). destruct (free_bit n d (bi + 1)) as [bj|].
    + destruct IH as (H1 & H2 & H3). split_and!; [lia|lia|done|]. intros b Hb. destruct (decide (b = bi)) as [->|]; [done|]. apply H3. lia.
    + intros b Hb. destruct (decide (b = bi)) as [->|]; [done|]. apply IH. lia.
  - split_and!; [lia|lia|done|]. intros b Hb. lia.
Qed.

(** ** The map *)

Section map.
Context {waits : Waits} {mmio : VirtioMmio} {env : st (kst fsys) -> st (kst fsys)} {i : nat} {pid0 dev : Z}.
Context {rep : fsys -> bstate -> Prop} {BL : BlockLayer env i pid0 dev rep} (start : Z) (s0 : superblock).
Implicit Types (f : fsys) (x : bstate) (k : kst fsys) (P : gmap Z (list Z) -> Prop) (hs : list Z) (V : Z -> list Z).
Abbreviation tx := (tx (dev := dev) (rep := rep) start).
Abbreviation kept_log := (kept_log (i := i) (pid0 := pid0)).

(** The block of the map for block [b], and whether [b] is in use. *)
Definition map_block (b : Z) : Z := b / BPB + sb_bmapstart s0.
Definition used V (b : Z) : bool := bit (V (map_block b)) (b mod BPB).

(** Where the map lies: outside the log, and marked as used itself, as the log
    is. *)
Record map_layout V : Prop := {
  ml_dev : 0 <= dev < 2 ^ 32;
  ml_size : 0 <= sb_size s0 < 2 ^ 31;
  ml_start : 0 <= sb_bmapstart s0 /\ sb_bmapstart s0 + sb_size s0 / BPB < sb_size s0;
  ml_len : forall b, length (V b) = Z.to_nat BSIZE;
  ml_log : forall b, 0 <= b < sb_size s0 -> in_log start (map_block b) -> False;
  ml_used : forall b, 0 <= b < sb_size s0 -> in_log start b \/ (exists c, 0 <= c < sb_size s0 /\ b = map_block c) -> used V b = true
}.

Lemma BBLOCK_map b : 0 <= b < sb_size s0 -> (exists V, map_layout V) -> BBLOCK b s0 = map_block b /\ 0 <= map_block b < 2 ^ 31.
Proof.
  intros Hb (V & [_ Hs [Hm1 Hm2] _ _ _]). unfold BBLOCK, map_block, BPB, BSIZE in *.
  assert (0 <= b / (1024 * 8) + sb_bmapstart s0 < 2 ^ 31) as Hr by lia. split; [|done]. apply u32_id. lia.
Qed.

Lemma map_layout_ext V V' : (forall m, V' m = V m) -> map_layout V -> map_layout V'.
Proof.
  intros E [L1 L2 L3 L4 L5 L6]. split; try done; [intros b; by rewrite E|]. intros b Hb Hc. unfold used. rewrite E. by apply L6.
Qed.

(** What a step changes of the contents: block [n] becomes [d]. *)
Definition upd V (n : Z) (d : list Z) : Z -> list Z := fun m => if decide (m = n) then d else V m.

Lemma wpe_bzero P f x hs n k (Q : unit -> st (kst fsys) -> Prop) :
  tx f x hs -> at_work i pid0 k -> 0 <= dev < 2 ^ 32 -> 0 <= n < 2 ^ 31 -> ~ in_log start n -> bH x !! n = None ->
  (length hs + size (bH x) < NBUF)%nat -> Z.of_nat (length hs) < LOGSIZE - 1 -> P (bD x) ->
  (forall f' x' k', tx f' x' (absorbed hs n) -> bH x' = bH x -> bD x' = bD x ->
     (forall m, view x' m = upd (view x) n (replicate (Z.to_nat BSIZE) 0) m) -> kept_log f k f' k' -> Q tt (mk_st [] (set_files f' k'))) ->
  wpe env (on_medium P) (bzero dev n) Q (mk_st [] (set_files f k)).
Proof.
  intros H Hw Hd Hn Hi Hh Hroom Hl HP HQ. unfold bzero. rewrite !u32_id by lia.
  wpe_step. eapply (tx_bread start P f x hs n); [done|done|done|done|by right|done|]. intros b f1 x1 k1 H1 B1 D1 V1 K1.
  wpe_step. apply wp_wpe. eapply (tx_bdata start f1 x1 hs n b); [done|rewrite B1; by simplify_map_eq|].
  pose proof (bl_view f1 x1 n (tx_rep _ _ _ _ H1)) as Hlen. rewrite splice_whole by (rewrite length_replicate; lia).
  eapply (tx_write start P f1 x1 hs n b); [done|apply K1|rewrite B1; by simplify_map_eq|apply length_replicate|done|done|].
  intros f2 x2 H2 B2 D2 V2 V2' K2. apply wp_wpe.
  eapply (tx_brelse start f2 x2 _ n b); [done|apply K2|rewrite B2, B1; by simplify_map_eq|]. intros f3 x3 H3 B3 D3 V3 K3.
  eapply (HQ f3 x3 k1); [done|rewrite B3, B2, B1; by rewrite delete_insert_id|by rewrite D3, D2, D1| |].
  - intros m. rewrite V3. unfold upd. destruct (decide (m = n)) as [->|]; [done|]. by rewrite V2', V1.
  - eapply kept_log_trans; [apply kept_kept_log; exact K1|]. eapply kept_log_trans; [exact K2|by apply kept_kept_log].
Qed.

(** *** Allocation *)

(** The effect on the contents. *)
Definition taken V (b : Z) : Z -> list Z :=
  upd (upd V (map_block b) (set_bit (V (map_block b)) (b mod BPB))) b (replicate (Z.to_nat BSIZE) 0).

Lemma map_block_mod b c : 0 <= b -> 0 <= c -> map_block b = map_block c -> b mod BPB = c mod BPB -> b = c.
Proof. unfold map_block, BPB, BSIZE. lia. Qed.
Lemma mod_in_block V b : map_layout V -> 0 <= b mod BPB < 8 * Z.of_nat (length (V (map_block b))).
Proof. intros H. rewrite (ml_len _ H). unfold BPB, BSIZE. lia. Qed.

(** Exactly the block becomes used. *)
Lemma taken_used V b c : map_layout V -> 0 <= b < sb_size s0 -> used V b = false -> 0 <= c < sb_size s0 ->
  used (taken V b) c = if decide (c = b) then true else used V c.
Proof.
  intros H Hb Hu Hc. unfold used, taken.
  assert (map_block c <> b) as Hne.
  { intros E. rewrite (ml_used _ H b) in Hu; [done|done|]. right. by exists c. }
  unfold upd at 1. rewrite decide_False by done. unfold upd. destruct (decide (map_block c = map_block b)) as [E|E].
  - rewrite bit_set by (apply mod_in_block || unfold BPB, BSIZE; try done; lia). rewrite E.
    destruct (decide (c = b)) as [->|Hcb]; [by rewrite decide_True|]. rewrite decide_False; [done|].
    intros Em. apply Hcb. apply map_block_mod; [lia|lia|done|done].
  - rewrite decide_False; [done|]. by intros ->.
Qed.

Lemma taken_layout V b : map_layout V -> 0 <= b < sb_size s0 -> used V b = false -> map_layout (taken V b).
Proof.
  intros H Hb Hu. pose proof H as [L1 L2 L3 L4 L5 L6]. split; try done.
  - intros c. unfold taken, upd. destruct (decide (c = b)); [apply length_replicate|].
    destruct (decide (c = map_block b)); [by rewrite set_bit_length|done].
  - intros c Hc Hm. rewrite taken_used by done. destruct (decide (c = b)); [done|]. by apply L6.
Qed.

(** What an allocation leaves. *)
Definition alloc_post f x hs k (r : Z) f' x' hs' k' : Prop :=
  bH x' = bH x /\ bD x' = bD x /\
  (0 <= r < sb_size s0 /\ used (view x) r = false /\
     (forall b, 0 <= b < r -> used (view x) b = true) /\
     hs' = absorbed (absorbed hs (map_block r)) r /\ (forall m, view x' m = taken (view x) r m) /\ kept_log f k f' k' \/
   r = 0 /\ (forall b, 0 <= b < sb_size s0 -> used (view x) b = true) /\ hs' = hs /\ (forall m, view x' m = view x m) /\
     exists k1, kept_log f k f' k1 /\ k' = set_klog (klog k1 ++ [("balloc: out of blocks\n", [])]) k1).

Lemma absorbed_length hs n : (length (absorbed hs n) <= S (length hs))%nat.
Proof. unfold absorbed. destruct (decide _); [lia|]. rewrite length_app. cbn. lia. Qed.

(** One block of the map in which a bit is clear. *)
Lemma wpe_balloc_found P f x hs b bp k (Q : option Z -> st (kst fsys) -> Prop) :
  tx f x hs -> at_work i pid0 k -> map_layout (view x) -> bH x !! map_block b = Some bp ->
  0 <= b < sb_size s0 -> used (view x) b = false -> bH x !! b = None ->
  (length hs + size (bH x) < NBUF)%nat -> Z.of_nat (length hs) < LOGSIZE - 2 -> P (bD x) ->
  (forall f' x' k', tx f' x' (absorbed (absorbed hs (map_block b)) b) -> bH x' = delete (map_block b) (bH x) -> bD x' = bD x ->
     (forall m, view x' m = taken (view x) b m) -> kept_log f k f' k' -> Q (Some b) (mk_st [] (set_files f' k'))) ->
  wpe env (on_medium P)
    (set_bdata bp (set_bit (view x (map_block b)) (b mod BPB)) ;; log_write bp ;; brelse bp ;; bzero dev b ;; ret (Some b)) Q
    (mk_st [] (set_files f k)).
Proof.
  intros H Hw HM Hbp Hb Hu Hhb Hroom Hl HP HQ.
  assert (~ in_log start b) as Hbl by (intros Hi; rewrite (ml_used _ HM b) in Hu; [done|done|by left]).
  assert (map_block b <> b) as Hne.
  { intros E. rewrite (ml_used _ HM b) in Hu; [done|done|]. right. by exists b. }
  pose proof (absorbed_length hs (map_block b)) as Hal.
  eapply (tx_write start P f x hs (map_block b) bp); [done|done|done|rewrite set_bit_length; apply HM|intros Hi; by apply (ml_log _ HM b)|lia|].
  intros f2 x2 H2 B2 D2 V2 V2' K2. wpe_step. apply wp_wpe.
  eapply (tx_brelse start f2 x2 _ (map_block b) bp); [done|apply K2|by rewrite B2|]. intros f3 x3 H3 B3 D3 V3 K3.
  assert (size (bH x3) + 1 = size (bH x))%nat as Hsz.
  { rewrite B3, B2. rewrite map_size_delete_Some by (by eexists). assert (size (bH x) <> 0)%nat; [|lia].
    intros E0. apply map_size_empty_inv in E0. by rewrite E0 in Hbp. }
  wpe_step. eapply (wpe_bzero P f3 x3 _ b); [done|apply K3|apply HM|pose proof (ml_size _ HM); lia|done| |lia|lia|by rewrite D3, D2|].
  { rewrite B3, B2. rewrite lookup_delete_ne by done. done. }
  intros f4 x4 k4 H4 B4 D4 V4 K4. apply wp_wpe, wp_ret. eapply HQ; [done|by rewrite B4, B3, B2|by rewrite D4, D3, D2| |].
  - intros m. rewrite V4. unfold taken, upd. destruct (decide (m = b)); [done|]. rewrite V3.
    destruct (decide (m = map_block b)) as [->|]; [done|]. by apply V2'.
  - eapply kept_log_trans; [exact K2|]. eapply kept_log_trans; [by apply kept_kept_log|done].
Qed.

Lemma used_below V t b : (forall c, 0 <= c < Z.of_nat t * BPB -> c < sb_size s0 -> used V c = true) ->
  (forall bj, 0 <= bj < Z.min BPB (sb_size s0 - Z.of_nat t * BPB) -> bj < b -> bit (V (map_block (Z.of_nat t * BPB))) bj = true) ->
  forall c, 0 <= c < Z.of_nat t * BPB + b -> c < Z.of_nat (S t) * BPB -> c < sb_size s0 -> used V c = true.
Proof.
  intros H1 H2 c Hc Hc' Hs. destruct (decide (c < Z.of_nat t * BPB)); [apply H1; lia|].
  unfold used. assert (map_block c = map_block (Z.of_nat t * BPB) /\ c mod BPB = c - Z.of_nat t * BPB) as [-> ->]
    by (unfold map_block, BPB, BSIZE in *; lia).
  apply H2; unfold BPB, BSIZE in *; lia.
Qed.

Lemma wpe_balloc P f x hs k (Q : Z -> st (kst fsys) -> Prop) :
  tx f x hs -> at_work i pid0 k -> sb f = s0 -> map_layout (view x) ->
  (forall n b, bH x !! n = Some b -> used (view x) n = true /\ forall c, 0 <= c < sb_size s0 -> n <> map_block c) ->
  (length hs + size (bH x) + 1 < NBUF)%nat -> Z.of_nat (length hs) < LOGSIZE - 2 -> P (bD x) ->
  (forall r f' x' hs' k', tx f' x' hs' -> alloc_post f x hs k r f' x' hs' k' -> Q r (mk_st [] (set_files f' k'))) ->
  wpe env (on_medium P) (balloc dev) Q (mk_st [] (set_files f k)).
Proof.
  intros H Hw Hsb HM Hheld Hroom Hl HP HQ. unfold balloc. wpe_step. apply wp_wpe, (wp_fs_gets sb). rewrite Hsb.
  pose proof (ml_size _ HM) as Hsize. set (nb := Z.to_nat ((sb_size s0 + BPB - 1) / BPB)). wpe_step.
  apply (wpe_for_find_seq _ _ (fun t s => exists f' x' k', s = mk_st [] (set_files f' k') /\ tx f' x' hs /\ bH x' = bH x /\ bD x' = bD x /\
    (forall m, view x' m = view x m) /\ kept i pid0 f k f' k' /\ forall c, 0 <= c < Z.of_nat t * BPB -> c < sb_size s0 -> used (view x) c = true)).
  - exists f, x, k. split_and!; try done; [by apply kept_rest|]. intros c Hc. lia.
  - intros t s Ht (f1 & x1 & k1 & -> & H1 & B1 & D1 & V1 & K1 & U1). set (b0 := Z.of_nat t * BPB).
    assert (0 <= b0 < sb_size s0) as Hb0 by (unfold b0, nb, BPB, BSIZE in *; lia).
    destruct (BBLOCK_map b0 Hb0 ltac:(by eexists)) as [EB HBr]. rewrite EB.
    assert (bH x1 !! map_block b0 = None) as Hn0.
    { rewrite B1. destruct (bH x !! map_block b0) as [b'|] eqn:E; [|done]. destruct (Hheld _ _ E) as [_ Hx]. by destruct (Hx b0 Hb0). }
    wpe_step. eapply (tx_bread start P f1 x1 hs (map_block b0)); [done|apply K1|done|done|right; rewrite B1; lia|by rewrite D1|].
    intros bp f2 x2 k2 H2 B2 D2 V2 K2. wpe_step. apply wp_wpe. eapply (tx_bdata start f2 x2 hs (map_block b0) bp); [done|rewrite B2; by simplify_map_eq|].
    assert (forall m, view x2 m = view x m) as V2' by (intros m; by rewrite V2). rewrite V2'.
    pose proof (free_bit_spec (Z.to_nat (Z.min BPB (sb_size s0 - b0))) (view x (map_block b0)) 0) as Hfb.
    assert (used_below_t : forall bj, (forall b, 0 <= b < bj -> b < Z.min BPB (sb_size s0 - b0) -> bit (view x (map_block b0)) b = true) ->
      forall c, 0 <= c < b0 + bj -> c < Z.of_nat (S t) * BPB -> c < sb_size s0 -> used (view x) c = true).
    { intros bj Hbj. apply used_below; [done|]. intros b Hb Hbb. apply Hbj; unfold b0 in *; lia. }
    destruct (free_bit _ _ 0) as [bi|].
    + destruct Hfb as (Hbi & Hclear & Hbelow). rewrite Z2Nat.id in Hbi by (unfold BPB, BSIZE in *; lia).
      assert (map_block (b0 + bi) = map_block b0 /\ (b0 + bi) mod BPB = bi) as [Em Emod] by (unfold map_block, b0, BPB, BSIZE in *; lia).
      rewrite <- Em in B2. replace (set_bit (view x (map_block b0)) bi) with (set_bit (view x2 (map_block (b0 + bi))) ((b0 + bi) mod BPB))
        by (by rewrite Em, Emod, V2').
      assert (forall c, used (view x2) c = used (view x) c) as U2 by (intros c; unfold used; by rewrite V2').
      assert (used (view x) (b0 + bi) = false) as Hub by (unfold used; by rewrite Em, Emod).
      assert (map_layout (view x2)) as HM2 by (by apply (map_layout_ext (view x))).
      eapply (wpe_balloc_found P f2 x2 hs (b0 + bi) bp); [done|apply K2|done|rewrite B2; by simplify_map_eq|lia|by rewrite U2| |rewrite B2, map_size_insert_None; [rewrite B1; lia|by rewrite Em]|lia|by rewrite D2, D1|].
      { rewrite B2. rewrite lookup_insert_ne.
        - rewrite B1. destruct (bH x !! (b0 + bi)) as [b'|] eqn:E; [|done]. destruct (Hheld _ _ E) as [Hx _]. congruence.
        - intros E. assert (used (view x) (b0 + bi) = true); [|congruence]. apply HM; [lia|]. right. exists (b0 + bi). split; [lia|done]. }
      intros f3 x3 k3 H3 B3 D3 V3 K3. apply wp_wpe, wp_ret. eapply HQ; [exact H3|]. split_and!; [rewrite B3, B2, delete_insert_id by (by rewrite Em); done|by rewrite D3, D2|].
      left. split_and!; [lia|lia|done| |done| |].
      * intros c Hc. apply (used_below_t bi); [|lia|unfold b0, BPB, BSIZE in *; lia|lia]. intros b Hb _. apply Hbelow. lia.
      * intros m. rewrite V3. unfold taken, upd. rewrite !V2'. done.
      * eapply kept_log_trans; [apply kept_kept_log; by eapply kept_trans|done].
    + wpe_step. apply wp_wpe. eapply (tx_brelse start f2 x2 hs (map_block b0) bp); [done|apply K2|rewrite B2; by simplify_map_eq|].
      intros f3 x3 H3 B3 D3 V3 K3. apply wp_wpe, wp_ret. exists f3, x3, k2.
      split_and!; [done|done|by rewrite B3, B2, delete_insert_id|by rewrite D3, D2|intros m; by rewrite V3|by eapply kept_trans; [eapply kept_trans|]|].
      intros c Hc Hcs. apply (used_below_t BPB); [|unfold b0; lia|lia|done].
      intros b Hb Hb'. apply Hfb. rewrite Z2Nat.id by (unfold BPB, BSIZE in *; lia). lia.
  - intros s (f1 & x1 & k1 & -> & H1 & B1 & D1 & V1 & K1 & U1). wpe_step. apply wp_wpe, wp_modify. apply wp_wpe, wp_ret.
    assert (set_klog (klog (set_files f1 k1) ++ [("balloc: out of blocks\n", [])]) (set_files f1 k1) =
      set_files f1 (set_klog (klog k1 ++ [("balloc: out of blocks\n", [])]) k1)) as E by (by destruct k1).
    cbn [held data]. rewrite E. eapply HQ; [exact H1|]. split_and!; [done|done|]. right. split_and!; [done| |done|done|].
    + intros b Hb. apply U1; [|lia]. unfold nb, BPB, BSIZE in *. lia.
    + exists k1. split; [by apply kept_kept_log|done].
Qed.

(** *** Freeing *)

Definition freed V (b : Z) : Z -> list Z := upd V (map_block b) (reset_bit (V (map_block b)) (b mod BPB)).

Lemma freed_used V b c : map_layout V -> 0 <= b < sb_size s0 -> 0 <= c < sb_size s0 ->
  used (freed V b) c = if decide (c = b) then false else used V c.
Proof.
  intros H Hb Hc. unfold used, freed, upd. destruct (decide (map_block c = map_block b)) as [E|E].
  - rewrite bit_reset by (apply mod_in_block || unfold BPB, BSIZE; try done; lia). rewrite E.
    destruct (decide (c = b)) as [->|Hcb]; [by rewrite decide_True|]. rewrite decide_False; [done|].
    intros Em. apply Hcb. apply map_block_mod; [lia|lia|done|done].
  - rewrite decide_False; [done|]. by intros ->.
Qed.

Lemma wpe_bfree P f x hs b k (Q : unit -> st (kst fsys) -> Prop) :
  tx f x hs -> at_work i pid0 k -> sb f = s0 -> map_layout (view x) -> 0 <= b < sb_size s0 -> used (view x) b = true ->
  bH x !! map_block b = None -> (length hs + size (bH x) < NBUF)%nat -> Z.of_nat (length hs) < LOGSIZE - 1 -> P (bD x) ->
  (forall f' x' k', tx f' x' (absorbed hs (map_block b)) -> bH x' = bH x -> bD x' = bD x ->
     (forall m, view x' m = freed (view x) b m) -> kept_log f k f' k' -> Q tt (mk_st [] (set_files f' k'))) ->
  wpe env (on_medium P) (bfree dev b) Q (mk_st [] (set_files f k)).
Proof.
  intros H Hw Hsb HM Hb Hu Hh Hroom Hl HP HQ. destruct (BBLOCK_map b Hb ltac:(by eexists)) as [EB HBr].
  unfold bfree. wpe_step. apply wp_wpe, (wp_fs_gets sb). rewrite Hsb, EB, u32_id by apply HM.
  wpe_step. eapply (tx_bread start P f x hs (map_block b)); [done|done|done|done|by right|done|]. intros bp f1 x1 k1 H1 B1 D1 V1 K1.
  wpe_step. apply wp_wpe. eapply (tx_bdata start f1 x1 hs (map_block b) bp); [done|rewrite B1; by simplify_map_eq|]. rewrite V1.
  rewrite bit_clear_spec. unfold used in Hu. rewrite Hu. cbn [negb].
  eapply (tx_write start P f1 x1 hs (map_block b) bp); [done|apply K1|rewrite B1; by simplify_map_eq|rewrite reset_bit_length; apply HM|intros Hi; by apply (ml_log _ HM b)|done|].
  intros f2 x2 H2 B2 D2 V2 V2' K2. apply wp_wpe.
  eapply (tx_brelse start f2 x2 _ (map_block b) bp); [done|apply K2|rewrite B2, B1; by simplify_map_eq|]. intros f3 x3 H3 B3 D3 V3 K3.
  eapply (HQ f3 x3 k1); [done|rewrite B3, B2, B1; by rewrite delete_insert_id|by rewrite D3, D2, D1| |].
  - intros m. rewrite V3. unfold freed, upd. destruct (decide (m = map_block b)) as [->|]; [done|]. by rewrite V2', V1.
  - eapply kept_log_trans; [apply kept_kept_log; exact K1|]. eapply kept_log_trans; [exact K2|by apply kept_kept_log].
Qed.
End map.
