(* ===== verification/Console.v ===== *)
(** * The UART and the console (kernel/uart.c, kernel/console.c)

    [push_off] and [pop_off] around a busy-wait change nothing else of the
    state; [panicked] is zero, since nothing runs after a panic in the model. *)

From S2P Require Import Prelude Spinlock Riscv Kalloc Vm Queue PriorityQueue KString Proc FsState.

Definition BACKSPACE : Z := 0x100.
Definition ctrl (x : Z) : Z := x - 64.   (* C(x) *)
Definition newline : Z := 10.
Definition INPUT_BUF_SIZE : Z := 128.
Definition UART_TX_BUF_SIZE : Z := 32.
Definition IER : Z := 1.
Definition FCR : Z := 2.
Definition LCR : Z := 3.

Section console.
Context {img : Image} {waits : Waits}.

(** ** The UART *)

Definition WriteReg (reg v : Z) : K unit := upd_uart (fun u => set_u_regs ((reg, v) :: u_regs u) u).
(** Sending a byte: a write to THR. *)
Definition write_thr (c : Z) : K unit := upd_uart (fun u => set_u_sent (u_sent u ++ [u8 c]) u).
(** A read of LSR for the transmitter's state. *)
Definition tx_idle : K bool :=
  u <- fs_gets uart ;;
  match u_idle u with
  | [] => ret true
  | b :: l => upd_uart (set_u_idle l) ;; ret b
  end.

Definition uartinit : K unit :=
  WriteReg IER 0 ;;
  WriteReg LCR 128 ;;
  WriteReg 0 3 ;;
  WriteReg 1 0 ;;
  WriteReg LCR 3 ;;
  WriteReg FCR 7 ;;
  WriteReg IER 3.

Fixpoint uartstart_loop (fuel : nat) : K unit :=
  match fuel with
  | O => nofuel
  | S fuel' =>
      u <- fs_gets uart ;;
      if tx_w u =? tx_r u then ret tt
      else
        idle <- tx_idle ;;
        if negb idle then ret tt
        else
          let c := default 0 (tx_buf u !! Z.to_nat (tx_r u mod UART_TX_BUF_SIZE)) in
          upd_uart (fun u => set_tx_r (u64 (tx_r u + 1)) u) ;;
          wakeup ChUartTx ;;
          write_thr c ;;
          uartstart_loop fuel'
  end.
(** At most [UART_TX_BUF_SIZE] bytes are waiting. *)
Definition uartstart : K unit := uartstart_loop (S (Z.to_nat UART_TX_BUF_SIZE)).

Fixpoint uartputc_wait (fuel : nat) : K unit :=
  match fuel with
  | O => nofuel
  | S fuel' =>
      u <- fs_gets uart ;;
      if tx_w u =? u64 (tx_r u + UART_TX_BUF_SIZE)
      then sleep ChUartTx LkUart ;; uartputc_wait fuel' else ret tt
  end.

Definition uartputc (c : Z) : K unit :=
  acquire LkUart ;;
  uartputc_wait (S (S max_waits)) ;;
  upd_uart (fun u => set_tx_w (u64 (tx_w u + 1))
    (set_tx_buf (<[Z.to_nat (tx_w u mod UART_TX_BUF_SIZE) := u8 c]> (tx_buf u)) u)) ;;
  uartstart ;;
  release LkUart.

(** [while((ReadReg(LSR) & LSR_TX_IDLE) == 0) ;] *)
Fixpoint until_idle (l : list bool) : list bool :=
  match l with [] => [] | true :: l' => l' | false :: l' => until_idle l' end.
Definition uartputc_sync (c : Z) : K unit :=
  upd_uart (fun u => set_u_idle (until_idle (u_idle u)) u) ;;
  write_thr c.

Definition uartgetc : K Z :=
  u <- fs_gets uart ;;
  match u_rx u with
  | [] => ret (-1)
  | c :: l => upd_uart (set_u_rx l) ;; ret c
  end.

(** ** The console *)

Definition consputc (c : Z) : K unit :=
  if c =? BACKSPACE then uartputc_sync 8 ;; uartputc_sync 32 ;; uartputc_sync 8
  else uartputc_sync c.

Fixpoint consolewrite_loop (n : nat) (src : wsrc) (i : Z) : K Z :=
  match n with
  | O => ret i
  | S n' =>
      r <- src_read src 1 ;;
      if fst r =? -1 then ret i
      else
        uartputc (default 0 (snd r !! 0%nat)) ;;
        consolewrite_loop n' (src_skip src 1) (i + 1)
  end.
Definition consolewrite (src : wsrc) (n : Z) : K Z := consolewrite_loop (Z.to_nat n) src 0.

Definition cons_at (c : cons_t) (i : Z) : Z := default 0 (c_buf c !! Z.to_nat (i mod INPUT_BUF_SIZE)).

(** The loop of [consoleread], with the bytes copied so far; [None] when the
    caller was killed while waiting (the lock released). *)
Fixpoint consoleread_loop (fuel : nat) (user_dst : bool) (dst n target : Z) (out : list Z)
    : K (option (Z * list Z)) :=
  match fuel with
  | O => nofuel
  | S fuel' =>
      if 0 <? n then
        c <- fs_gets console ;;
        if c_r c =? c_w c then
          i <- my ;;
          k <- killed i ;;
          if negb (k =? 0) then release LkCons ;; ret None
          else sleep ChConsR LkCons ;; consoleread_loop fuel' user_dst dst n target out
        else
          let ch := cons_at c (c_r c) in
          upd_cons (fun c => set_c_r (u32 (c_r c + 1)) c) ;;
          if ch =? ctrl 68 then
            when (n <? target) (upd_cons (fun c => set_c_r (u32 (c_r c - 1)) c)) ;;
            ret (Some (n, out))
          else
            r <- either_copyout user_dst dst [ch] ;;
            if r =? -1 then ret (Some (n, out))
            else if ch =? newline then ret (Some (n - 1, out ++ [ch]))
            else consoleread_loop fuel' user_dst (u64 (dst + 1)) (n - 1) target (out ++ [ch])
      else ret (Some (n, out))
  end.

Definition consoleread (user_dst : bool) (dst n : Z) : K (Z * list Z) :=
  acquire LkCons ;;
  r <- consoleread_loop (S (S (Z.to_nat n + max_waits))) user_dst dst n (u32 n) [] ;;
  match r with
  | None => ret (-1, [])
  | Some (m, out) => release LkCons ;; ret (i32 (n - m), out)
  end.

(** Kill line: at most the [INPUT_BUF_SIZE] characters being edited. *)
Fixpoint kill_line (fuel : nat) : K unit :=
  match fuel with
  | O => nofuel
  | S fuel' =>
      c <- fs_gets console ;;
      if negb (c_e c =? c_w c) && negb (cons_at c (u32 (c_e c - 1)) =? newline) then
        upd_cons (fun c => set_c_e (u32 (c_e c - 1)) c) ;;
        consputc BACKSPACE ;;
        kill_line fuel'
      else ret tt
  end.

Definition consoleintr (c : Z) : K unit :=
  acquire LkCons ;;
  (if c =? ctrl 80 then procdump
   else if c =? ctrl 85 then kill_line (S (Z.to_nat INPUT_BUF_SIZE))
   else if (c =? ctrl 72) || (c =? 127) then
     x <- fs_gets console ;;
     when (negb (c_e x =? c_w x))
       (upd_cons (fun x => set_c_e (u32 (c_e x - 1)) x) ;; consputc BACKSPACE)
   else
     x <- fs_gets console ;;
     when (negb (c =? 0) && (u32 (c_e x - c_r x) <? INPUT_BUF_SIZE))
       (let c := if c =? 13 then newline else c in
        consputc c ;;
        upd_cons (fun x => set_c_e (u32 (c_e x + 1))
          (set_c_buf (<[Z.to_nat (c_e x mod INPUT_BUF_SIZE) := u8 c]> (c_buf x)) x)) ;;
        x <- fs_gets console ;;
        when ((c =? newline) || (c =? ctrl 68) || (u32 (c_e x - c_r x) =? INPUT_BUF_SIZE))
          (upd_cons (fun x => set_c_w (c_e x) x) ;; wakeup ChConsR))) ;;
  release LkCons.

Fixpoint uartintr_loop (fuel : nat) : K unit :=
  match fuel with
  | O => nofuel
  | S fuel' =>
      c <- uartgetc ;;
      if c =? -1 then ret tt else consoleintr c ;; uartintr_loop fuel'
  end.
(** One round for each byte received. *)
Definition uartintr : K unit :=
  u <- fs_gets uart ;;
  uartintr_loop (S (length (u_rx u))) ;;
  acquire LkUart ;;
  uartstart ;;
  release LkUart.

Definition consoleinit : K unit :=
  uartinit ;;
  fs_modify (fun s => set_devsw (<[Z.to_nat CONSOLE := Some DrvConsole]> (devsw s)) s).
End console.
