(* ===== verification/ConsoleTheorems.v ===== *)
(** * The console and the UART

    The two ring buffers against what they stand for: the console's input
    buffer is a line editor, the UART's output buffer a queue that drains.
    Every interrupt is handled in a bounded number of steps. *)

From S2P Require Import Prelude Spinlock Riscv Kalloc Vm VmExample Queue PriorityQueue KString Proc ProcProofs ProcLife FsState FsBytes Env Sleeplock Virtio World VirtioProofs Bio Log FsBoot FsExample Console.

Ltac Zify.zify_post_hook ::= idtac.

(** ** Rings *)

(** [l] is in the ring [buf], from index [start] (modulo its size) on. *)
Definition ring (size : Z) (buf : list Z) (start : Z) (l : list Z) : Prop :=
  forall j x, l !! j = Some x -> buf !! Z.to_nat ((start + Z.of_nat j) mod size) = Some x.

Section ring.
Context (size : Z) (Hsize : 0 < size).
Implicit Types (buf l : list Z) (start : Z).

Lemma ring_mod buf start start' l : start mod size = start' mod size -> ring size buf start l -> ring size buf start' l.
Proof.
  intros E H j x Hj. rewrite <- (H j x Hj). do 2 f_equal. rewrite (Z.add_mod start), (Z.add_mod start') by lia. by rewrite E.
Qed.
Lemma ring_prefix buf start l l' : ring size buf start (l ++ l') -> ring size buf start l.
Proof. intros H j x Hj. apply H. by apply lookup_app_l_Some. Qed.
Lemma ring_snoc buf start l x : Z.of_nat (length buf) = size -> Z.of_nat (length l) < size -> ring size buf start l ->
  ring size (<[Z.to_nat ((start + Z.of_nat (length l)) mod size) := x]> buf) start (l ++ [x]).
Proof.
  intros Hb Hl H j y Hj. pose proof (Z.mod_pos_bound (start + Z.of_nat (length l)) size Hsize).
  apply lookup_snoc_Some in Hj as [[Hj Hy]|[-> <-]]; [|apply list_lookup_insert_eq; lia].
  rewrite list_lookup_insert_ne; [by apply H|]. pose proof (Z.mod_pos_bound (start + Z.of_nat j) size Hsize).
  intros E%Z2Nat.inj; [|lia..].
  pose proof (Z.div_mod (start + Z.of_nat (length l)) size ltac:(lia)) as E1. pose proof (Z.div_mod (start + Z.of_nat j) size ltac:(lia)) as E2.
  rewrite E in E1. set (q1 := (start + Z.of_nat (length l)) / size) in *. set (q2 := (start + Z.of_nat j) / size) in *.
  assert (Z.of_nat (length l) - Z.of_nat j = size * (q1 - q2)) by lia. assert (0 < q1 - q2 < 1) by nia. lia.
Qed.
Lemma ring_cons buf start x l : ring size buf start (x :: l) -> buf !! Z.to_nat (start mod size) = Some x /\ ring size buf (start + 1) l.
Proof.
  intros H. split; [rewrite <- (H 0%nat x eq_refl); do 3 f_equal; lia|].
  intros j y Hj. rewrite <- (H (S j) y Hj). do 3 f_equal. lia.
Qed.
End ring.

(** ** The line editor

    What is typed, seen from above: the characters that wait to be read, and
    those of the line being edited. *)

Definition DEL : Z := 127.
Definition erased : list Z := [8; 32; 8].

(** A key that is not a control of the editor. *)
Definition typed_key (es : list Z * list Z) (c : Z) : (list Z * list Z) * list Z :=
  let '(un, line) := es in
  if negb (c =? 0) && (Z.of_nat (length un + length line) <? INPUT_BUF_SIZE) then
    let c := if c =? 13 then newline else c in
    let line := line ++ [c] in
    if (c =? newline) || (c =? ctrl 68) || (Z.of_nat (length un + length line) =? INPUT_BUF_SIZE)
    then ((un ++ line, []), [c]) else ((un, line), [c])
  else (es, []).
(** A key: the new state, and what is echoed. *)
Definition edit (es : list Z * list Z) (c : Z) : (list Z * list Z) * list Z :=
  let '(un, line) := es in
  if c =? ctrl 80 then (es, [])
  else if c =? ctrl 85 then ((un, []), concat (replicate (length line) erased))
  else if (c =? ctrl 72) || (c =? DEL) then
    match line with [] => (es, []) | _ => ((un, removelast line), erased) end
  else typed_key es c.
Fixpoint edits (es : list Z * list Z) (cs : list Z) : (list Z * list Z) * list Z :=
  match cs with
  | [] => (es, [])
  | c :: cs' => let r := edit es c in let r' := edits r.1 cs' in (r'.1, r.2 ++ r'.2)
  end.

Record cons_rep (c : cons_t) (st : list Z * list Z) : Prop := {
  cr_len : length (c_buf c) = Z.to_nat INPUT_BUF_SIZE;
  cr_r : 0 <= c_r c < 2 ^ 32;
  cr_w : c_w c = u32 (c_r c + Z.of_nat (length st.1));
  cr_e : c_e c = u32 (c_r c + Z.of_nat (length st.1 + length st.2));
  cr_fit : Z.of_nat (length st.1 + length st.2) <= INPUT_BUF_SIZE;
  cr_ring : ring INPUT_BUF_SIZE (c_buf c) (c_r c) (st.1 ++ st.2)
}.
(** No newline is in the line being edited. *)
Definition cons_ok (c : cons_t) (st : list Z * list Z) : Prop := cons_rep c st /\ newline ∉ st.2.

Ltac zdiv := Z.to_euclidean_division_equations; lia.

Lemma u32_mod_size x : u32 x mod INPUT_BUF_SIZE = x mod INPUT_BUF_SIZE.
Proof. unfold u32, INPUT_BUF_SIZE. zdiv. Qed.

Lemma cons_editing c st : cons_rep c st -> (c_e c =? c_w c) = bool_decide (st.2 = []).
Proof.
  intros [_ Hr Hw He Hf _]. rewrite He, Hw. unfold u32, INPUT_BUF_SIZE in *. destruct st as [un [|x line]]; cbn [fst snd length] in *.
  - rewrite Nat.add_0_r, Z.eqb_refl. symmetry. by apply bool_decide_eq_true.
  - etransitivity; [|symmetry; by apply bool_decide_eq_false]. apply Z.eqb_neq. zdiv.
Qed.
Lemma cons_count c st : cons_rep c st -> u32 (c_e c - c_r c) = Z.of_nat (length st.1 + length st.2).
Proof. intros [_ Hr _ He Hf _]. rewrite He. unfold u32, INPUT_BUF_SIZE in *. zdiv. Qed.

Lemma cons_pop c un line x : cons_rep c (un, line ++ [x]) ->
  cons_rep (set_c_e (u32 (c_e c - 1)) c) (un, line) /\ cons_at c (u32 (c_e c - 1)) = x.
Proof.
  intros [Hl Hr Hw He Hf Hring]. cbn [fst snd] in *. rewrite length_app in He, Hf. cbn [length] in He, Hf.
  assert (u32 (c_e c - 1) = u32 (c_r c + Z.of_nat (length un + length line))) as E.
  { rewrite He. unfold u32. rewrite Zminus_mod_idemp_l. f_equal. lia. }
  split.
  - split; cbn; [done..|exact E|lia|]. apply (ring_prefix _ _ _ _ [x]). by rewrite <- app_assoc.
  - rewrite E. unfold cons_at. rewrite u32_mod_size. rewrite app_assoc in Hring.
    pose proof (Hring (length (un ++ line)) x) as Hx. rewrite length_app in Hx. rewrite Hx; [done|]. by rewrite <- length_app, lookup_app_r, Nat.sub_diag by lia.
Qed.

Definition pushed (x : Z) (c : cons_t) : cons_t :=
  set_c_e (u32 (c_e c + 1)) (set_c_buf (<[Z.to_nat (c_e c mod INPUT_BUF_SIZE) := u8 x]> (c_buf c)) c).
Lemma cons_push c un line x : cons_rep c (un, line) -> Z.of_nat (length un + length line) < INPUT_BUF_SIZE -> 0 <= x < 256 ->
  cons_rep (pushed x c) (un, line ++ [x]).
Proof.
  intros [Hl Hr Hw He Hf Hring] Hn Hx. cbn [fst snd] in *. split; cbn [pushed set_c_e set_c_buf c_buf c_r c_w c_e fst snd]; rewrite ?length_app; cbn [length].
  - by rewrite length_insert.
  - done.
  - done.
  - rewrite He. unfold u32. rewrite Zplus_mod_idemp_l. f_equal. lia.
  - lia.
  - rewrite He, u32_mod_size. unfold u8. rewrite (Z.mod_small x) by lia. rewrite app_assoc, <- length_app.
    apply ring_snoc; [done|rewrite Hl; done|rewrite length_app; lia|done].
Qed.
Lemma cons_commit c un line : cons_rep c (un, line) -> cons_rep (set_c_w (c_e c) c) (un ++ line, []).
Proof.
  intros [Hl Hr Hw He Hf Hring]. cbn [fst snd] in *. split; cbn [set_c_w c_buf c_r c_w c_e fst snd length]; rewrite ?length_app, ?app_nil_r, ?Nat.add_0_r; done.
Qed.

(** ** Output without the buffer *)

Definition sync1 (c : Z) (u : uart_t) : uart_t := set_u_sent (u_sent u ++ [u8 c]) (set_u_idle (until_idle (u_idle u)) u).
Definition sync (l : list Z) (u : uart_t) : uart_t := foldl (fun u c => sync1 c u) u l.
Lemma sync_app l l' u : sync (l ++ l') u = sync l' (sync l u).
Proof. apply foldl_app. Qed.
Lemma sync_sent l u : Forall (fun c => 0 <= c < 256) l -> u_sent (sync l u) = u_sent u ++ l.
Proof.
  intros Hl. revert u. induction Hl as [|c l Hc Hl IH]; intros u; [by rewrite app_nil_r|]. unfold sync in *. cbn [foldl]. rewrite IH. cbn.
  unfold u8. rewrite Z.mod_small by lia. by rewrite <- app_assoc.
Qed.
Lemma sync_fields l u : tx_buf (sync l u) = tx_buf u /\ tx_w (sync l u) = tx_w u /\ tx_r (sync l u) = tx_r u /\ u_rx (sync l u) = u_rx u.
Proof. revert u. induction l as [|c l IH]; intros u; [done|]. unfold sync in *. cbn [foldl]. by destruct (IH (sync1 c u)) as (-> & -> & -> & ->). Qed.

Lemma sync_set_rx l r r' u : set_u_rx r (sync l (set_u_rx r' u)) = sync l (set_u_rx r u).
Proof. revert u. induction l as [|c l IH]; intros u; [done|]. exact (IH (sync1 c u)). Qed.

(** The keys are bytes, and so is what is echoed. *)
Lemma edit_bytes es c : 0 <= c < 256 -> Forall (fun c => 0 <= c < 256) (edit es c).2.
Proof.
  intros Hc. assert (Forall (fun c => 0 <= c < 256) erased) as He by (by repeat (apply Forall_cons; split); [..|apply Forall_nil]).
  destruct es as [un line]. unfold edit, typed_key. destruct (c =? ctrl 80); [constructor|]. destruct (c =? ctrl 85).
  { cbn. apply Forall_concat. by apply Forall_replicate. }
  destruct (_ || _); [by destruct line|]. destruct (_ && _); [|constructor].
  assert (Forall (fun c => 0 <= c < 256) [if c =? 13 then newline else c]) by (constructor; [by destruct (c =? 13)|constructor]).
  by destruct (_ || _).
Qed.
Lemma edits_bytes es cs : Forall (fun c => 0 <= c < 256) cs -> Forall (fun c => 0 <= c < 256) (edits es cs).2.
Proof. intros H. revert es. induction H; intros es; cbn [edits snd]; [constructor|]. apply Forall_app. split; [by apply edit_bytes|done]. Qed.

(** ** The queue of the UART *)

Record uart_ok (u : uart_t) (q : list Z) : Prop := {
  uo_len : length (tx_buf u) = Z.to_nat UART_TX_BUF_SIZE;
  uo_r : 0 <= tx_r u < 2 ^ 64;
  uo_w : tx_w u = u64 (tx_r u + Z.of_nat (length q));
  uo_fit : Z.of_nat (length q) <= UART_TX_BUF_SIZE;
  uo_ring : ring UART_TX_BUF_SIZE (tx_buf u) (tx_r u) q;
  uo_bytes : Forall (fun c => 0 <= c < 256) q
}.

(** What the transmitter takes, given what its status register will say: the
    bytes sent, those left, and what the register will say later. *)
Fixpoint drain (idle : list bool) (q : list Z) : list Z * list Z * list bool :=
  match q with
  | [] => ([], [], idle)
  | x :: q' =>
      if default true (head idle) then let r := drain (tail idle) q' in (x :: r.1.1, r.1.2, r.2)
      else ([], q, tail idle)
  end.

(** The state after the bytes of [drain] are sent. *)
Record sends (u : uart_t) (q : list Z) (u' : uart_t) : Prop := {
  se_ok : uart_ok u' (drain (u_idle u) q).1.2;
  se_sent : u_sent u' = u_sent u ++ (drain (u_idle u) q).1.1;
  se_idle : u_idle u' = (drain (u_idle u) q).2;
  se_rx : u_rx u' = u_rx u;
  se_regs : u_regs u' = u_regs u
}.

Lemma uart_empty u q : uart_ok u q -> (tx_w u =? tx_r u) = bool_decide (q = []).
Proof.
  intros [_ Hr Hw Hf _ _]. rewrite Hw. unfold u64, UART_TX_BUF_SIZE in *. destruct q as [|x q]; cbn [length] in *.
  - rewrite Z.add_0_r, Z.mod_small by lia. rewrite Z.eqb_refl. symmetry. by apply bool_decide_eq_true.
  - etransitivity; [|symmetry; by apply bool_decide_eq_false]. apply Z.eqb_neq. zdiv.
Qed.
Lemma uart_pop u x q : uart_ok u (x :: q) ->
  uart_ok (set_tx_r (u64 (tx_r u + 1)) u) q /\ default 0 (tx_buf u !! Z.to_nat (tx_r u mod UART_TX_BUF_SIZE)) = x.
Proof.
  intros [Hl Hr Hw Hf Hring Hb]. apply ring_cons in Hring as [-> Hring]. split; [|done]. split; cbn [tx_buf tx_w tx_r set_tx_r length] in *.
  - done.
  - unfold u64. apply Z.mod_pos_bound. lia.
  - rewrite Hw. unfold u64. rewrite Zplus_mod_idemp_l. f_equal. lia.
  - lia.
  - eapply ring_mod; [done| |exact Hring]. unfold u64, UART_TX_BUF_SIZE. zdiv.
  - by inversion Hb.
Qed.
Lemma uart_ok_device u q l i r g : uart_ok u q -> uart_ok (mk_uart (tx_buf u) (tx_w u) (tx_r u) r l i g) q.
Proof. by intros [? ? ? ? ? ?]. Qed.
Lemma sends_nothing u : uart_ok u [] -> sends u [] u.
Proof. intros H. split; [done|cbn; by rewrite app_nil_r|done..]. Qed.

Lemma sends_busy u x q : uart_ok u (x :: q) -> default true (head (u_idle u)) = false ->
  sends u (x :: q) (set_u_idle (tail (u_idle u)) u).
Proof. intros H E. split; cbn [drain]; rewrite ?E; [by apply uart_ok_device|cbn; by rewrite app_nil_r|done..]. Qed.
Lemma sends_one u x q u' : uart_ok u (x :: q) -> default true (head (u_idle u)) = true ->
  sends (set_u_sent (u_sent u ++ [u8 x]) (set_tx_r (u64 (tx_r u + 1)) (set_u_idle (tail (u_idle u)) u))) q u' ->
  sends u (x :: q) u'.
Proof.
  intros [_ _ _ _ _ Hb] E [H1 H2 H3 H4 H5]. split; cbn [drain]; rewrite ?E; [done| |done..].
  rewrite H2. cbn. unfold u8. rewrite Z.mod_small by by inversion Hb. by rewrite <- app_assoc.
Qed.

Lemma uart_ok_sync l u q : uart_ok u q -> uart_ok (sync l u) q.
Proof. revert u. induction l as [|c l IH]; intros u Hu; [done|]. apply IH. exact (uart_ok_device _ _ _ _ _ _ Hu). Qed.
Lemma drain_split idle q : (drain idle q).1.1 ++ (drain idle q).1.2 = q.
Proof. revert idle. induction q as [|x q IH]; intros idle; [done|]. cbn [drain]. destruct (default true (head idle)); [|done]. cbn. by rewrite IH. Qed.

(** Nothing happens to processes but that some sleeping ones are woken. *)
Record only_wakes (k k' : kst fsys) : Prop := {
  ow_len : length (procs k') = length (procs k);
  ow_cur : cur k' = cur k;
  ow_procs : forall i p', procs k' !! i = Some p' -> exists p, procs k !! i = Some p /\ (p' = p \/ state p = SLEEPING /\ p' = set_state RUNNABLE p)
}.
Lemma only_wakes_refl k : only_wakes k k.
Proof. split; [done|done|]. intros i p Hp. eauto. Qed.
Lemma only_wakes_trans k k1 k2 : only_wakes k k1 -> only_wakes k1 k2 -> only_wakes k k2.
Proof.
  intros [L1 C1 P1] [L2 C2 P2]. split; [by rewrite L2|by rewrite C2|]. intros i p2 H2.
  destruct (P2 i p2 H2) as (p1 & H1 & E1). destruct (P1 i p1 H1) as (p & H & E). exists p. split; [done|].
  destruct E as [->|[Hs ->]]; [done|]. destruct E1 as [->|[Hs1 _]]; [by right|done].
Qed.
Lemma only_wakes_log l k : only_wakes k (set_klog l k).
Proof. destruct (only_wakes_refl k). by split. Qed.
Lemma only_wakes_woken c k : only_wakes k (set_procs (imap (woken c (cur k)) (procs k)) k).
Proof.
  split; [cbn; apply length_imap|done|]. intros i p' Hp. cbn in Hp. rewrite list_lookup_imap in Hp.
  destruct (procs k !! i) as [p|]; [|done]. injection Hp as <-. exists p. split; [done|]. unfold woken.
  destruct (negb _ && _ && _) eqn:E; [right|by left]. apply andb_prop in E as [[_ Hs]%andb_prop _]. by apply bool_decide_eq_true in Hs.
Qed.
(** Who slept on the channel is runnable, the current process apart. *)
Definition awake (c : chan_t) (k k' : kst fsys) : Prop :=
  forall i p, procs k !! i = Some p -> state p = SLEEPING -> chan p = c -> cur k <> Some i ->
    exists p', procs k' !! i = Some p' /\ state p' = RUNNABLE.
Lemma awake_woken c k : awake c k (set_procs (imap (woken c (cur k)) (procs k)) k).
Proof.
  intros i p Hp Hs Hc Hi. exists (set_state RUNNABLE p). split; [|done]. cbn. rewrite list_lookup_imap, Hp. cbn. unfold woken.
  by rewrite (bool_decide_false (cur k = Some i)), !bool_decide_true by done.
Qed.
Lemma awake_wakes c k k1 k2 : awake c k k1 -> only_wakes k1 k2 -> awake c k k2.
Proof.
  intros Hw [Hlen _ Hp] i p Hi Hs Hc Hme. destruct (Hw i p Hi Hs Hc Hme) as (p1 & H1 & Hs1).
  destruct (lookup_lt_is_Some_2 (procs k2) i) as [p2 H2]; [rewrite Hlen; by eapply lookup_lt_Some|].
  exists p2. split; [done|]. destruct (Hp i p2 H2) as (p1' & H1' & [->|[_ ->]]); [|done]. congruence.
Qed.
Lemma awake_after c k k1 k2 : only_wakes k k1 -> awake c k1 k2 -> only_wakes k1 k2 -> awake c k k2.
Proof.
  intros [Hlen Hcur Hp] Hw Hk2 i p Hi Hs Hc Hme. destruct (lookup_lt_is_Some_2 (procs k1) i) as [p1 H1]; [rewrite Hlen; by eapply lookup_lt_Some|].
  destruct (Hp i p1 H1) as (p0 & H0 & [->|[_ ->]]); assert (p0 = p) as -> by congruence; [apply (Hw i p); [done..|by rewrite Hcur]|].
  destruct Hk2 as [Hlen2 _ Hp2]. destruct (lookup_lt_is_Some_2 (procs k2) i) as [p2 H2]; [rewrite Hlen2; by eapply lookup_lt_Some|].
  exists p2. split; [done|]. destruct (Hp2 i p2 H2) as (p1' & H1' & [->|[_ ->]]); [|done]. rewrite H1 in H1'. by injection H1' as <-.
Qed.
#[export] Hint Resolve only_wakes_refl only_wakes_log only_wakes_woken : xv6.

Section console.
Context {img : Image} {waits : Waits}.
Implicit Types (k : kst fsys) (f : fsys) (hl : list lockid).

Abbreviation at_fs hl f k := (mk_st hl (set_files f k)).

Lemma same_devices f : set_console (console f) (set_uart (uart f) f) = f.
Proof. by destruct f. Qed.
Lemma same_uart f : set_uart (uart f) f = f.
Proof. by destruct f. Qed.
Lemma wp_upd_uart g hl f k (Q : unit -> st (kst fsys) -> Prop) :
  Q tt (at_fs hl (set_uart (g (uart f)) f) k) -> wp (upd_uart g) Q (at_fs hl f k).
Proof. done. Qed.
Lemma wp_upd_cons g hl f k (Q : unit -> st (kst fsys) -> Prop) :
  Q tt (at_fs hl (set_console (g (console f)) f) k) -> wp (upd_cons g) Q (at_fs hl f k).
Proof. done. Qed.

Lemma wp_uartputc_sync c hl f k (Q : unit -> st (kst fsys) -> Prop) :
  Q tt (at_fs hl (set_uart (sync [c] (uart f)) f) k) -> wp (uartputc_sync c) Q (at_fs hl f k).
Proof. done. Qed.
Lemma wp_consputc c hl f k (Q : unit -> st (kst fsys) -> Prop) :
  Q tt (at_fs hl (set_uart (sync (if c =? BACKSPACE then erased else [c]) (uart f)) f) k) -> wp (consputc c) Q (at_fs hl f k).
Proof. intros HQ. unfold consputc. by destruct (c =? BACKSPACE). Qed.

(** [procdump] changes nothing but what is on the kernel's log. *)
Lemma wp_printf fmt args hl s (Q : unit -> st (kst fsys) -> Prop) :
  (forall l, Q tt (mk_st hl (set_klog l s))) -> wp (Proc.printf fmt args) Q (mk_st hl s).
Proof. intros HQ. unfold Proc.printf. wp_step. apply HQ. Qed.
Lemma wp_procdump hl k (Q : unit -> st (kst fsys) -> Prop) :
  length (procs k) = Z.to_nat NPROC -> (forall l, Q tt (mk_st hl (set_klog l k))) -> wp procdump Q (mk_st hl k).
Proof.
  intros Hl HQ. unfold procdump. wp_step. apply wp_printf. intros l0.
  apply (wp_for_each (fun rest s' => (forall i, i ∈ rest -> (i < Z.to_nat NPROC)%nat) /\ exists l, s' = mk_st hl (set_klog l k))).
  - split; [|by eexists]. intros i Hi. apply elem_of_seq in Hi. lia.
  - intros i rest s' [Hi [l ->]]. destruct (lookup_lt_is_Some_2 (procs k) i) as [p Hp]; [rewrite Hl; apply Hi; left|].
    wp_step. apply (wp_get_proc i p); [done|]. destruct (bool_decide _).
    + wp_step. split; [|by eexists]. intros j Hj. apply Hi. by right.
    + wp_step. apply wp_printf. intros l1. apply wp_printf. intros l2. split; [intros j Hj; apply Hi; by right|]. by exists l2.
  - intros s' [_ [l ->]]. apply HQ.
Qed.

Lemma wp_kill_line n c un line hl f k (Q : unit -> st (kst fsys) -> Prop) :
  (length line < n)%nat -> console f = c -> cons_ok c (un, line) ->
  (forall c', cons_ok c' (un, []) ->
    Q tt (at_fs hl (set_console c' (set_uart (sync (concat (replicate (length line) erased)) (uart f)) f)) k)) ->
  wp (kill_line n) Q (at_fs hl f k).
Proof.
  revert n c f. induction line as [|x line IH] using rev_ind; intros n c f Hn Hc [Hrep Hnl] HQ; (destruct n as [|n]; [lia|]); cbn [kill_line];
    wp_step; apply wp_fs_gets; rewrite Hc, (cons_editing _ _ Hrep); cbn [snd].
  - rewrite bool_decide_true by done. cbn [negb andb]. wp_step. specialize (HQ c). destruct f. cbn in *. subst. by apply HQ.
  - rewrite bool_decide_false by by destruct line. destruct (cons_pop c un line x Hrep) as [Hrep' Hx]. cbn [snd] in Hnl.
    rewrite Hx, (proj2 (Z.eqb_neq x newline)) by (intros ->; apply Hnl, elem_of_app; right; by left). cbn [negb andb].
    wp_step. apply wp_upd_cons. wp_step. apply wp_consputc. cbn [Z.eqb BACKSPACE Pos.eqb].
    eapply IH; [rewrite length_app in Hn; cbn in Hn; lia|reflexivity| |].
    + cbn. rewrite Hc. split; [exact Hrep'|]. intros Hin. apply Hnl, elem_of_app. by left.
    + intros c' Hc'. specialize (HQ c' Hc'). rewrite length_app, Nat.add_1_r in HQ. cbn [replicate concat] in HQ. rewrite sync_app in HQ. exact HQ.
Qed.

Definition free_locks hl : Prop := (LkCons ∉ hl) /\ (LkUart ∉ hl) /\ forall j, LkProc j ∉ hl.

Lemma wp_type_char c un line hl f k (Q : unit -> st (kst fsys) -> Prop) :
  (forall j, LkProc j ∉ hl) -> length (procs k) = Z.to_nat NPROC -> cons_ok (console f) (un, line) -> 0 <= c < 256 ->
  (forall c' k', cons_ok c' (typed_key (un, line) c).1 -> only_wakes k k' ->
    Q tt (at_fs (LkCons :: hl) (set_console c' (set_uart (sync (typed_key (un, line) c).2 (uart f)) f)) k')) ->
  wp (x <- fs_gets console ;;
      when (negb (c =? 0) && (u32 (c_e x - c_r x) <? INPUT_BUF_SIZE))
       (let c := if c =? 13 then newline else c in
        consputc c ;;
        upd_cons (fun x => set_c_e (u32 (c_e x + 1))
          (set_c_buf (<[Z.to_nat (c_e x mod INPUT_BUF_SIZE) := u8 c]> (c_buf x)) x)) ;;
        x <- fs_gets console ;;
        when ((c =? newline) || (c =? ctrl 68) || (u32 (c_e x - c_r x) =? INPUT_BUF_SIZE))
          (upd_cons (fun x => set_c_w (c_e x) x) ;; wakeup ChConsR))) Q (at_fs (LkCons :: hl) f k).
Proof.
  intros Hlp Hlen [Hrep Hnl] Hc HQ. unfold typed_key in HQ. wp_step. apply wp_fs_gets. rewrite (cons_count _ _ Hrep). cbn [fst snd] in *.
  destruct (negb (c =? 0) && (Z.of_nat (length un + length line) <? INPUT_BUF_SIZE)) eqn:Ec; cbn [when].
  2:{ wp_step. rewrite <- (same_devices f). apply HQ; [done|auto with xv6]. }
  apply andb_prop in Ec as [_ Hn%Z.ltb_lt]. set (x := if c =? 13 then newline else c) in *.
  assert (0 <= x < 256) as Hx by (unfold x, newline; destruct (c =? 13); lia).
  wp_step. apply wp_consputc. rewrite (proj2 (Z.eqb_neq x BACKSPACE)) by (unfold BACKSPACE; lia).
  wp_step. apply wp_upd_cons. fold (pushed x (console f)). pose proof (cons_push _ _ _ x Hrep Hn Hx) as Hp.
  wp_step. apply wp_fs_gets. cbn [console set_console set_uart]. fold (pushed x (console f)). rewrite (cons_count _ _ Hp). cbn [fst snd].
  destruct ((x =? newline) || (x =? ctrl 68) || (Z.of_nat (length un + length (line ++ [x])) =? INPUT_BUF_SIZE)) eqn:Eend; cbn [when].
  - wp_step. apply wp_upd_cons. cbn [console set_console set_uart]. fold (pushed x (console f)).
    apply wp_wakeup_files; [done|by intros j [[=]|Hj%Hlp]%elem_of_cons|]. cbn [fst snd] in HQ.
    apply (HQ (set_c_w (c_e (pushed x (console f))) (pushed x (console f)))); [|auto with xv6]. split; [by apply cons_commit|]. by apply not_elem_of_nil.
  - wp_step. apply (HQ (pushed x (console f))); [|auto with xv6]. split; [done|]. cbn [fst snd].
    intros [Hin|E%list_elem_of_singleton]%elem_of_app; [done|]. by rewrite <- E, Z.eqb_refl in Eend.
Qed.

Lemma wp_consoleintr c es hl f k (Q : unit -> st (kst fsys) -> Prop) :
  free_locks hl -> length (procs k) = Z.to_nat NPROC -> cons_ok (console f) es -> 0 <= c < 256 ->
  (forall c' k', cons_ok c' (edit es c).1 -> only_wakes k k' ->
    Q tt (at_fs hl (set_console c' (set_uart (sync (edit es c).2 (uart f)) f)) k')) ->
  wp (consoleintr c) Q (at_fs hl f k).
Proof.
  intros (Hlc & Hlu & Hlp) Hlen Hok Hc HQ. pose proof Hok as [Hrep Hnl]. destruct es as [un line]. unfold consoleintr. wp_step. apply wp_acquire; [done|]. cbn beta.
  assert (forall c' u' k', Q tt (at_fs hl (set_console c' (set_uart u' f)) k') ->
    wp (release LkCons) Q (at_fs (LkCons :: hl) (set_console c' (set_uart u' f)) k')) as Hrel by (intros; by apply wp_release_head).
  cbn [held data]. unfold edit in HQ. wp_step. destruct (c =? ctrl 80).
  { apply wp_procdump; [done|]. intros l. rewrite <- (same_devices f). apply (Hrel _ _ (set_klog l k)). apply HQ; auto with xv6. }
  destruct (c =? ctrl 85).
  { apply (wp_kill_line _ (console f) un line); [|done|done|].
    - destruct Hrep as [_ _ _ _ Hfit _]. cbn [fst snd] in Hfit. unfold INPUT_BUF_SIZE in *. lia.
    - intros c' Hc'. apply Hrel. apply HQ; auto with xv6. }
  destruct ((c =? ctrl 72) || (c =? DEL)) eqn:Eb; unfold DEL in Eb; rewrite Eb.
  { wp_step. apply wp_fs_gets. rewrite (cons_editing _ _ Hrep). cbn [snd]. destruct line as [|x line _] using rev_ind.
    - rewrite bool_decide_true by done. rewrite <- (same_devices f). apply Hrel. apply HQ; auto with xv6.
    - rewrite bool_decide_false by by destruct line. cbn [negb when]. wp_step. apply wp_upd_cons. apply wp_consputc.
      destruct (cons_pop (console f) un line x Hrep) as [Hrep' _].
      assert (forall l : list Z, match line ++ [x] with [] => ((un, line ++ [x]), []) | _ :: _ => ((un, removelast (line ++ [x])), erased) end = ((un, line), erased)) as Ee
        by (intros _; rewrite removelast_last; by destruct line).
      rewrite (Ee []) in HQ. specialize (HQ (set_c_e (u32 (c_e (console f) - 1)) (console f)) k). cbn [fst snd] in HQ.
      apply (Hrel _ _ k). apply HQ; [|auto with xv6]. split; [done|]. intros Hin. apply Hnl. cbn. apply elem_of_app. by left. }
  apply (wp_type_char c un line); [done..|]. intros c' k' Hc' Hk'. apply Hrel. apply HQ; done.
Qed.

Lemma same_rx u : u_rx u = [] -> set_u_rx [] u = u.
Proof. by destruct u as [? ? ? rx]; cbn; intros ->. Qed.

(** ** The handler's loop over the received bytes *)

Lemma wp_uartintr_loop l n es hl f k (Q : unit -> st (kst fsys) -> Prop) :
  free_locks hl -> length (procs k) = Z.to_nat NPROC -> cons_ok (console f) es ->
  u_rx (uart f) = l -> Forall (fun c => 0 <= c < 256) l -> (length l < n)%nat ->
  (forall c' k', cons_ok c' (edits es l).1 -> only_wakes k k' ->
    Q tt (at_fs hl (set_console c' (set_uart (sync (edits es l).2 (set_u_rx [] (uart f))) f)) k')) ->
  wp (uartintr_loop n) Q (at_fs hl f k).
Proof.
  revert n es f k. induction l as [|c l IH]; intros n es f k Hl Hlen Hok Hrx Hby Hn HQ; (destruct n as [|n]; [cbn in Hn; lia|]); cbn [uartintr_loop]; unfold uartgetc;
    wp_step; wp_step; apply wp_fs_gets; rewrite Hrx.
  - wp_step. cbn. rewrite <- (same_devices f) at 1. rewrite <- (same_rx (uart f) Hrx). apply HQ; auto with xv6.
  - inversion Hby; subst. wp_step. apply wp_upd_uart. wp_step. rewrite (proj2 (Z.eqb_neq c (-1))) by lia. wp_step.
    apply (wp_consoleintr c es); [done|done|done|done|]. intros c' k' Hc' Hk'.
    apply (IH n (edit es c).1); [done|by rewrite (ow_len _ _ Hk')|done| |done|cbn in Hn; lia|].
    + cbn. by destruct (sync_fields (edit es c).2 (set_u_rx l (uart f))) as (_ & _ & _ & ->).
    + intros c2 k2 Hc2 Hk2. cbn [edits fst snd] in HQ. rewrite sync_app in HQ. specialize (HQ c2 k2 Hc2 (only_wakes_trans _ _ _ Hk' Hk2)).
      cbn [uart set_console set_uart] in *. rewrite sync_set_rx. exact HQ.
Qed.

(** ** Sending what is queued *)

Lemma wp_tx_idle hl f k (Q : bool -> st (kst fsys) -> Prop) :
  Q (default true (head (u_idle (uart f)))) (at_fs hl (set_uart (set_u_idle (tail (u_idle (uart f))) (uart f)) f) k) ->
  wp tx_idle Q (at_fs hl f k).
Proof.
  intros HQ. unfold tx_idle. wp_step. apply wp_fs_gets. destruct (u_idle (uart f)) as [|b l] eqn:E; wp_step; [|apply wp_upd_uart; by wp_step].
  replace (set_u_idle (tail []) (uart f)) with (uart f) in HQ by (destruct (uart f); cbn in *; by subst). by rewrite same_uart in HQ.
Qed.
Lemma wp_uartstart_loop q n hl f k (Q : unit -> st (kst fsys) -> Prop) :
  (forall j, LkProc j ∉ hl) -> length (procs k) = Z.to_nat NPROC -> uart_ok (uart f) q -> (length q < n)%nat ->
  (forall u' k', sends (uart f) q u' -> only_wakes k k' -> ((drain (u_idle (uart f)) q).1.1 = [] \/ awake ChUartTx k k') ->
    Q tt (at_fs hl (set_uart u' f) k')) ->
  wp (uartstart_loop n) Q (at_fs hl f k).
Proof.
  revert n f k. induction q as [|x q IH]; intros n f k Hl Hlen Hok Hn HQ; (destruct n as [|n]; [cbn in Hn; lia|]); cbn [uartstart_loop];
    wp_step; apply wp_fs_gets; rewrite (uart_empty _ _ Hok).
  - rewrite bool_decide_true by done. wp_step. rewrite <- (same_uart f). apply HQ; [|auto with xv6|by left]. by apply sends_nothing.
  - rewrite bool_decide_false by done. destruct (uart_pop _ _ _ Hok) as [Hok' ->].
    wp_step. apply wp_tx_idle. cbn [drain] in HQ. destruct (default true (head (u_idle (uart f)))) eqn:Ei; cbn [negb].
    + wp_step. apply wp_upd_uart. wp_step. apply wp_wakeup_files; [done|done|]. wp_step. apply wp_upd_uart.
      apply IH; [done|cbn; by rewrite length_imap|exact (uart_ok_device _ _ _ _ _ _ Hok')|cbn in Hn; lia|].
      intros u' k' Hs Hk Hw. apply HQ; [by eapply sends_one|by eapply only_wakes_trans; [apply only_wakes_woken|]|right].
      eapply awake_wakes; [apply awake_woken|done].
    + wp_step. apply HQ; [by apply sends_busy|auto with xv6|by left].
Qed.

(** ** An interrupt *)

Lemma wp_uartintr es q hl f k (Q : unit -> st (kst fsys) -> Prop) :
  free_locks hl -> length (procs k) = Z.to_nat NPROC -> cons_ok (console f) es -> uart_ok (uart f) q ->
  Forall (fun c => 0 <= c < 256) (u_rx (uart f)) ->
  (forall c' u' k', let echoed := sync (edits es (u_rx (uart f))).2 (set_u_rx [] (uart f)) in
    cons_ok c' (edits es (u_rx (uart f))).1 -> sends echoed q u' -> only_wakes k k' ->
    ((drain (u_idle echoed) q).1.1 = [] \/ awake ChUartTx k k') -> Q tt (at_fs hl (set_console c' (set_uart u' f)) k')) ->
  wp uartintr Q (at_fs hl f k).
Proof.
  intros Hl Hlen Hc Hu Hb HQ. pose proof Hl as (_ & Hlu & Hlp). unfold uartintr. wp_step. apply wp_fs_gets. wp_step.
  apply (wp_uartintr_loop (u_rx (uart f)) _ es); [done..|lia|]. intros c' k' Hc' Hk'. wp_step. apply wp_acquire; [done|]. cbn [held data]. wp_step.
  apply (wp_uartstart_loop q).
  - by intros j [[=]|Hj%Hlp]%elem_of_cons.
  - by rewrite (ow_len _ _ Hk').
  - apply uart_ok_sync. by apply (uart_ok_device _ _ _ _ [] _ Hu).
  - destruct Hu as [_ _ _ Hfit _ _]. unfold UART_TX_BUF_SIZE in *. lia.
  - intros u2 k2 Hs Hk2 Hw. apply wp_release_head; [done|]. apply (HQ c' u2); [done|done|by eapply only_wakes_trans|].
    destruct Hw; [by left|right]. by eapply awake_after.
Qed.
End console.

(** ** What the interrupts do *)

(** The buffers hold what the editor and the queue say. *)
Definition devices_hold (f : fsys) (es : list Z * list Z) (q : list Z) : Prop :=
  cons_ok (console f) es /\ uart_ok (uart f) q /\ Forall (fun c => 0 <= c < 256) (u_rx (uart f)).


(** Interrupts in a row. *)
Fixpoint interrupts `{Image} `{Waits} (n : nat) : K unit :=
  match n with O => ret tt | S n' => uartintr ;; interrupts n' end.
Definition busy (idle : list bool) : nat := length (filter (fun b => b = false) idle).

Lemma drain_busy idle q : (drain idle q).1.2 = [] \/ (busy (drain idle q).2 < busy idle)%nat.
Proof.
  revert idle. induction q as [|x q IH]; intros idle; [by left|]. cbn [drain]. destruct idle as [|[] idle]; cbn [default head tail].
  - apply (IH []).
  - apply (IH idle).
  - right. cbn [snd]. unfold busy. rewrite filter_cons_True by done. cbn [id snd length]. lia.
Qed.

Section drains.
Context {img : Image} {waits : Waits} (hl : list lockid) (Hl : free_locks hl).
Implicit Types (k : kst fsys) (f : fsys).

(** An interrupt without input. *)
Lemma wp_quiet_interrupt es q f k (Q : unit -> st (kst fsys) -> Prop) :
  length (procs k) = Z.to_nat NPROC -> devices_hold f es q -> u_rx (uart f) = [] ->
  (forall f' k', devices_hold f' es (drain (u_idle (uart f)) q).1.2 -> u_rx (uart f') = [] ->
    u_sent (uart f') = u_sent (uart f) ++ (drain (u_idle (uart f)) q).1.1 -> u_idle (uart f') = (drain (u_idle (uart f)) q).2 ->
    only_wakes k k' -> ((drain (u_idle (uart f)) q).1.1 = [] \/ awake ChUartTx k k') -> Q tt (mk_st hl (set_files f' k'))) ->
  wp uartintr Q (mk_st hl (set_files f k)).
Proof.
  intros Hlen (Hc & Hu & Hb) Hrx HQ. eapply wp_uartintr; [done..|]. rewrite Hrx. cbn [edits fst snd sync foldl]. rewrite (same_rx (uart f) Hrx).
  intros c' u' k' Hc' [Hok Hsent Hidle Hrx' _] Hk Hw. rewrite Hrx in Hrx'.
  apply HQ; [|done..]. split; [done|]. split; [done|]. cbn. rewrite Hrx'. constructor.
Qed.

Lemma wp_interrupts n es q f k (Q : unit -> st (kst fsys) -> Prop) :
  length (procs k) = Z.to_nat NPROC -> devices_hold f es q -> u_rx (uart f) = [] -> (busy (u_idle (uart f)) < n)%nat \/ q = [] ->
  (forall f' k', devices_hold f' es [] -> u_sent (uart f') = u_sent (uart f) ++ q -> only_wakes k k' -> (q = [] \/ awake ChUartTx k k') ->
    Q tt (mk_st hl (set_files f' k'))) ->
  wp (interrupts n) Q (mk_st hl (set_files f k)).
Proof.
  revert q f k. induction n as [|n IH]; intros q f k Hlen Hd Hrx Hn HQ; cbn [interrupts].
  { destruct Hn as [Hn| ->]; [lia|]. wp_step. apply HQ; [done|by rewrite app_nil_r|auto with xv6|by left]. }
  wp_step. apply (wp_quiet_interrupt es q); [done..|]. intros f1 k1 Hd1 Hrx1 Hsent1 Hidle1 Hk1 Hw1. pose proof (drain_split (u_idle (uart f)) q) as Eq.
  apply (IH (drain (u_idle (uart f)) q).1.2); [by rewrite (ow_len _ _ Hk1)|done|done| |].
  - destruct Hn as [Hn| ->]; [|by right]. rewrite Hidle1. destruct (drain_busy (u_idle (uart f)) q) as [->|?]; [by right|left; lia].
  - intros f' k' Hd' Hsent' Hk' Hw'. apply HQ; [done| |by eapply only_wakes_trans|].
    + by rewrite Hsent', Hsent1, <- app_assoc, Eq.
    + destruct Hw1 as [E1|Hw1]; [|right; by eapply awake_wakes]. rewrite E1 in Eq. cbn [app] in Eq.
      destruct Hw' as [E2|Hw2]; [left; congruence|right; by eapply awake_after].
Qed.
End drains.

(** C24: The transmit queue drains.  However often the transmitter is found
    busy, after as many interrupts as that and one more every queued byte was
    sent, in order, the queue is empty, and whoever slept for room in it is
    runnable. *)
Theorem uart_drains `{img : Image} `{waits : Waits} hl f (k : kst fsys) es q n :
  free_locks hl -> length (procs k) = Z.to_nat NPROC -> devices_hold f es q -> u_rx (uart f) = [] ->
  (busy (u_idle (uart f)) < n)%nat ->
  exists f' k', interrupts n (mk_st hl (set_files f k)) = Ret tt (mk_st hl (set_files f' k')) /\
    devices_hold f' es [] /\ u_sent (uart f') = u_sent (uart f) ++ q /\ only_wakes k k' /\ (q <> [] -> awake ChUartTx k k').
Proof.
  intros Hl Hlen Hd Hrx Hn.
  assert (wp (interrupts n) (fun _ s' => exists f' k', s' = mk_st hl (set_files f' k') /\ devices_hold f' es [] /\
    u_sent (uart f') = u_sent (uart f) ++ q /\ only_wakes k k' /\ (q <> [] -> awake ChUartTx k k')) (mk_st hl (set_files f k))) as Hwp.
  - apply (wp_interrupts hl Hl n es q); [done..|by left|]. intros f' k' Hd' Hs' Hk' Hw'. exists f', k'. split_and!; [done..|]. intros Hq. by destruct Hw'.
  - apply wp_run in Hwp as ([] & s' & E & f' & k' & -> & Hrest). eauto.
Qed.

(** ** Examples *)

#[local] Existing Instance demo_image.

(** Two bytes are queued, at the end of the ring, and a writer sleeps; the
    transmitter will be busy twice. *)
Definition busy_uart (rx : list Z) : uart_t :=
  mk_uart (<[31%nat := 104]> (<[0%nat := 105]> (replicate 32 0))) 33 31 rx [] [true; false; false] [].
Definition busy_fs (rx : list Z) : fsys := set_uart (busy_uart rx) fs0.
Definition writer : proc := set_state SLEEPING (set_chan ChUartTx zero_proc).
Definition busy_kernel : kst fsys := set_procs (<[3%nat := writer]> (procs kernel0)) kernel0.

Lemma busy_devices rx : Forall (fun c => 0 <= c < 256) rx -> devices_hold (busy_fs rx) ([], []) [104; 105].
Proof.
  intros Hrx. split; [|split; [|done]].
  - split; [split; try (by vm_compute)|by apply not_elem_of_nil].
  - split; [by vm_compute..| |apply (bool_decide_unpack _); vm_compute; exact I].
    intros [|[|j]] x Hj; [injection Hj as <-; by vm_compute..|done].
Qed.


Lemma uart_drains_witness : exists f' k', interrupts 3 (mk_st [] (set_files (busy_fs []) busy_kernel)) = Ret tt (mk_st [] (set_files f' k')) /\
  u_sent (uart f') = [104; 105] /\ state <$> procs k' !! 3%nat = Some RUNNABLE.
Proof.
  destruct (uart_drains [] (busy_fs []) busy_kernel ([], []) [104; 105] 3) as (f' & k' & E & _ & Hs & _ & Hw).
  - split_and!; [apply not_elem_of_nil..|]. intros j. apply not_elem_of_nil.
  - by vm_compute.
  - by apply busy_devices.
  - done.
  - vm_compute. lia.
  - exists f', k'. split_and!; [exact E|exact Hs|]. destruct (Hw ltac:(done) 3%nat writer) as (p' & -> & <-); done.
Defined.
