(* ===== verification/File.v ===== *)
(** * Open files (kernel/file.c, and [pipealloc] of kernel/pipe.c)

    A [struct file *] is an index of [ftable].  The end of the file provides
    the file system's operations to the process layer of Proc.v. *)

From S2P Require Import Prelude Spinlock Riscv Kalloc Vm Queue PriorityQueue KString Proc Pipe FsState Sleeplock Virtio Bio Log Fs Console.

Section file.
Context {img : Image} {waits : Waits} {mmio : VirtioMmio}.

Definition filealloc : K (option nat) :=
  acquire LkFtable ;;
  r <- for_find (seq 0 NFILE) (fun f =>
    x <- get_file f ;;
    if f_ref x =? 0 then upd_file f (set_f_ref 1) ;; release LkFtable ;; ret (Some f)
    else ret None) ;;
  match r with
  | Some f => ret (Some f)
  | None => release LkFtable ;; ret None
  end.

Definition filedup (f : nat) : K nat :=
  acquire LkFtable ;;
  x <- get_file f ;;
  if f_ref x <? 1 then panic "filedup" else
  upd_file f (fun x => set_f_ref (i32 (f_ref x + 1)) x) ;;
  release LkFtable ;;
  ret f.

Definition fileclose (f : nat) : K unit :=
  acquire LkFtable ;;
  x <- get_file f ;;
  if f_ref x <? 1 then panic "fileclose" else
  upd_file f (fun x => set_f_ref (f_ref x - 1) x) ;;
  ff <- get_file f ;;
  if 0 <? f_ref ff then release LkFtable
  else
    upd_file f (fun x => set_f_type FD_NONE (set_f_ref 0 x)) ;;
    release LkFtable ;;
    match f_type ff with
    | FD_PIPE => pipeclose (f_pipe ff) (f_writable ff)
    | FD_INODE | FD_DEVICE =>
        begin_op ;;
        ip <- deref (fun _ => f_ip ff) ;;
        iput ip ;;
        end_op
    | FD_NONE => ret tt
    end.

(** The bytes a fresh page holds where [struct pipe] has [data]: after the
    24 bytes of its lock. *)
Definition fresh_pipe_data (p : page) : option (list Z) :=
  match p with PgBytes b => Some (take (Z.to_nat PIPESIZE) (drop 24 b)) | _ => None end.

(** The two ends of the new pipe, or [None] for -1. *)
Definition pipealloc : K (option (nat * nat)) :=
  f0 <- filealloc ;;
  f1 <- (match f0 with None => ret None | Some _ => filealloc end) ;;
  pi <- (match f0, f1 with Some _, Some _ => mem_op kalloc | _, _ => ret 0 end) ;;
  match f0, f1 with
  | Some a, Some b =>
      if pi =? 0 then fileclose a ;; fileclose b ;; ret None
      else
        d <- deref (fun s => p ← mem (pm s) !! pi; fresh_pipe_data p) ;;
        mem_op (modify (set_page pi (PgPipe (mk_pipe d 0 0 1 1)))) ;;
        upd_file a (fun x => set_f_pipe pi (set_f_writable 0 (set_f_readable 1 (set_f_type FD_PIPE x)))) ;;
        upd_file b (fun x => set_f_pipe pi (set_f_writable 1 (set_f_readable 0 (set_f_type FD_PIPE x)))) ;;
        ret (Some (a, b))
  | Some a, None => fileclose a ;; ret None
  | None, _ => ret None
  end.

Definition filestat (f : nat) (addr : Z) : K Z :=
  i <- my ;;
  x <- get_file f ;;
  match f_type x with
  | FD_INODE | FD_DEVICE =>
      ilock (f_ip x) ;;
      ip <- deref (fun _ => f_ip x) ;;
      st <- stati ip ;;
      iunlock (f_ip x) ;;
      p <- get_proc i ;;
      r <- mem_op (copyout (pagetable p) addr (stat_bytes st)) ;;
      if r <? 0 then ret (-1) else ret 0
  | _ => ret (-1)
  end.

(** [devsw[major]], when it is a driver. *)
Definition dev_driver (major : Z) : K (option driver) :=
  if (major <? 0) || (NDEV <=? major) then ret None
  else d <- fs_gets devsw ;; ret (default None (d !! Z.to_nat major)).

Definition fileread (f : nat) (addr n : Z) : K Z :=
  x <- get_file f ;;
  if f_readable x =? 0 then ret (-1) else
  match f_type x with
  | FD_PIPE => piperead (f_pipe x) addr n
  | FD_DEVICE =>
      d <- dev_driver (f_major x) ;;
      match d with
      | None => ret (-1)
      | Some DrvConsole => r <- consoleread true addr n ;; ret (fst r)
      end
  | FD_INODE =>
      ilock (f_ip x) ;;
      ip <- deref (fun _ => f_ip x) ;;
      x <- get_file f ;;
      r <- readi ip true addr (f_off x) (u32 n) ;;
      when (0 <? fst r) (upd_file f (fun y => set_f_off (u32 (f_off y + fst r)) y)) ;;
      iunlock (f_ip x) ;;
      ret (fst r)
  | FD_NONE => panic "fileread"
  end.

(** The largest write of one transaction. *)
Definition max_write : Z := ((MAXOPBLOCKS - 1 - 1 - 2) / 2) * BSIZE.

(** Each round but the last advances by [max_write]. *)
Fixpoint filewrite_loop (fuel : nat) (f : nat) (addr n i : Z) : K Z :=
  match fuel with
  | O => nofuel
  | S fuel' =>
      if i <? n then
        let n1 := if max_write <? n - i then max_write else n - i in
        begin_op ;;
        x <- get_file f ;;
        ilock (f_ip x) ;;
        ip <- deref (fun _ => f_ip x) ;;
        x <- get_file f ;;
        r <- writei ip (SrcUser (u64 (addr + i))) (f_off x) n1 ;;
        when (0 <? r) (upd_file f (fun y => set_f_off (u32 (f_off y + r)) y)) ;;
        iunlock (f_ip x) ;;
        end_op ;;
        if negb (r =? n1) then ret i else filewrite_loop fuel' f addr n (i + r)
      else ret i
  end.

Definition filewrite (f : nat) (addr n : Z) : K Z :=
  x <- get_file f ;;
  if f_writable x =? 0 then ret (-1) else
  match f_type x with
  | FD_PIPE => pipewrite (f_pipe x) addr n
  | FD_DEVICE =>
      d <- dev_driver (f_major x) ;;
      match d with
      | None => ret (-1)
      | Some DrvConsole => consolewrite (SrcUser addr) n
      end
  | FD_INODE =>
      i <- filewrite_loop (S (Z.to_nat (n / max_write + 1))) f addr n 0 ;;
      ret (if i =? n then n else -1)
  | FD_NONE => panic "filewrite"
  end.

#[export] Instance file_ops : FileOps fsys := {
  Proc.filedup := filedup;
  Proc.fileclose := fileclose;
  Proc.idup := idup;
  Proc.iput := iput;
  Proc.begin_op := begin_op;
  Proc.end_op := end_op;
  Proc.namei := namei
}.
End file.
