(* ===== verification/SysArgs.v ===== *)
(** * System-call arguments (kernel/syscall.c) *)

From S2P Require Import Prelude Spinlock Riscv Kalloc Vm Queue PriorityQueue KString Proc FsState.

(** The current process's page table and size. *)
Definition my_proc : K proc := i <- my ;; get_proc i.

(** [fetchaddr]: the result and the word fetched. *)
Definition fetchaddr (addr : Z) : K (Z * Z) :=
  p <- my_proc ;;
  if (sz p <=? addr) || (sz p <? u64 (addr + 8)) then ret (-1, 0)
  else
    r <- mem_op (copyin (pagetable p) addr 8) ;;
    if negb (fst r =? 0) then ret (-1, 0) else ret (0, get64 (snd r) 0).

(** [fetchstr]: the result and what the buffer holds. *)
Definition fetchstr (addr mx : Z) : K (Z * list Z) :=
  p <- my_proc ;;
  r <- mem_op (copyinstr (pagetable p) addr mx) ;;
  if fst r <? 0 then ret (-1, snd r) else ret (strlen (snd r), snd r).

Definition argraw (n : nat) : K Z :=
  p <- my_proc ;;
  if (n <=? 5)%nat then
    tf <- mem_op (load_tf (trapframe_ptr p)) ;;
    deref (fun _ => tf !! (TF_a0 + n)%nat)
  else panic "argraw".

Definition argint (n : nat) : K Z := v <- argraw n ;; ret (i32 v).
Definition argaddr (n : nat) : K Z := argraw n.
Definition argstr (n : nat) (mx : Z) : K (Z * list Z) := addr <- argaddr n ;; fetchstr addr mx.
