(* ===== verification/Exec.v ===== *)
(** * Program loading (kernel/exec.c)

    The ELF structures are read at their offsets in the bytes of the file; an
    argument is the address of a page that holds its characters. *)

From S2P Require Import Prelude Spinlock Riscv Kalloc Vm Queue PriorityQueue KString Proc FsState Sleeplock Virtio Bio Log Fs.

Definition ELF_MAGIC : Z := 0x464C457F.
Definition ELF_PROG_LOAD : Z := 1.
Definition ELFHDR_SIZE : Z := 64.
Definition PROGHDR_SIZE : Z := 56.

(** kernel/elf.h: the fields [exec] uses *)
Record elfhdr : Type := mk_elfhdr { e_magic : Z; e_entry : Z; e_phoff : Z; e_phnum : Z }.
Record proghdr : Type := mk_proghdr {
  ph_type : Z; ph_flags : Z; ph_off : Z; ph_vaddr : Z; ph_filesz : Z; ph_memsz : Z
}.
Definition decode_elfhdr (d : list Z) : elfhdr := mk_elfhdr (get32 d 0) (get64 d 24) (get64 d 32) (get16 d 56).
Definition decode_proghdr (d : list Z) : proghdr :=
  mk_proghdr (get32 d 0) (get32 d 4) (get64 d 8) (get64 d 16) (get64 d 32) (get64 d 40).

Definition flags2perm (flags : Z) : Z :=
  let perm := if negb (Z.land flags 1 =? 0) then PTE_X else 0 in
  if negb (Z.land flags 2 =? 0) then Z.lor perm PTE_W else perm.

(** The last element of a path: [last] moves behind every slash. *)
Fixpoint last_elem (last s : list Z) : list Z :=
  match s with
  | [] => last
  | c :: s' => if c =? 0 then last else last_elem (if c =? slash then s' else last) s'
  end.

(** The bytes of a 64-bit word in memory. *)
Definition word_bytes (x : Z) : list Z := int_bytes (x mod 2 ^ 32) ++ int_bytes (x / 2 ^ 32).

Section exec.
Context {img : Image} {waits : Waits} {mmio : VirtioMmio}.

Fixpoint loadseg_loop (fuel : nat) (pagetable va : Z) (ip : nat) (offset sz i : Z) : K Z :=
  match fuel with
  | O => nofuel
  | S fuel' =>
      if i <? sz then
        pa <- mem_op (walkaddr pagetable (u64 (va + i))) ;;
        if pa =? 0 then panic "loadseg: address should exist" else
        let n := if sz - i <? PGSIZE then sz - i else PGSIZE in
        r <- readi ip false pa (u32 (offset + i)) n ;;
        mem_op (write_bytes pa 0 (snd r)) ;;
        if negb (fst r =? n) then ret (-1)
        else loadseg_loop fuel' pagetable va ip offset sz (u32 (i + PGSIZE))
      else ret 0
  end.
Definition loadseg (pagetable va : Z) (ip : nat) (offset sz : Z) : K Z :=
  loadseg_loop (S (S (Z.to_nat (sz / PGSIZE)))) pagetable va ip offset sz 0.

(** The program headers: the size reached, and whether all were loaded. *)
Fixpoint load_segments (n : nat) (pagetable : Z) (ip : nat) (off sz : Z) : K (Z * bool) :=
  match n with
  | O => ret (sz, true)
  | S n' =>
      r <- readi ip false 0 (u32 off) PROGHDR_SIZE ;;
      if negb (fst r =? PROGHDR_SIZE) then ret (sz, false) else
      let ph := decode_proghdr (snd r) in
      if negb (ph_type ph =? ELF_PROG_LOAD) then load_segments n' pagetable ip (i32 (off + PROGHDR_SIZE)) sz
      else if ph_memsz ph <? ph_filesz ph then ret (sz, false)
      else if u64 (ph_vaddr ph + ph_memsz ph) <? ph_vaddr ph then ret (sz, false)
      else if negb (ph_vaddr ph mod PGSIZE =? 0) then ret (sz, false)
      else
        sz1 <- mem_op (uvmalloc pagetable sz (u64 (ph_vaddr ph + ph_memsz ph)) (flags2perm (ph_flags ph))) ;;
        if sz1 =? 0 then ret (sz, false) else
        l <- loadseg pagetable (ph_vaddr ph) ip (u32 (ph_off ph)) (u32 (ph_filesz ph)) ;;
        if l <? 0 then ret (sz1, false)
        else load_segments n' pagetable ip (i32 (off + PROGHDR_SIZE)) sz1
  end.

(** The label [bad]; [ip] is the inode when it is still locked. *)
Definition exec_bad (pagetable sz : Z) (ip : option nat) : K Z :=
  when (negb (pagetable =? 0)) (mem_op (proc_freepagetable pagetable sz)) ;;
  match ip with
  | Some _ => iunlockput ip ;; end_op
  | None => ret tt
  end ;;
  ret (-1).

(** The characters at an address in a kernel page, up to the terminator. *)
Definition load_str (a : Z) : K (list Z) := b <- deref (fun s => bytes_at a (pm s)) ;; ret (cstr b).

(** [for(argc = 0; argv[argc]; argc++)]: the stack pointer and [ustack] so
    far, or [None] for [goto bad]. *)
Fixpoint push_args (argv : list Z) (pagetable sp stackbase : Z) (ustack : list Z)
    : K (option (Z * list Z)) :=
  match argv with
  | [] => ret (Some (sp, ustack))
  | a :: argv' =>
      if a =? 0 then ret (Some (sp, ustack))
      else if MAXARG <=? Z.of_nat (length ustack) then ret None
      else
        s <- load_str a ;;
        let sp := u64 (sp - (Z.of_nat (length s) + 1)) in
        let sp := u64 (sp - sp mod 16) in
        if sp <? stackbase then ret None else
        r <- mem_op (copyout pagetable sp (s ++ [0])) ;;
        if r <? 0 then ret None else push_args argv' pagetable sp stackbase (ustack ++ [sp])
  end.

(** From [p = myproc()] after the file was read: the stack, the arguments and
    the new image. *)
Definition exec_commit (path argv : list Z) (entry pagetable sz0 : Z) : K Z :=
  i <- my ;;
  p <- get_proc i ;;
  let oldsz := sz p in
  let sz0 := PGROUNDUP sz0 in
  sz1 <- mem_op (uvmalloc pagetable sz0 (u64 (sz0 + (USERSTACK + 1) * PGSIZE)) PTE_W) ;;
  if sz1 =? 0 then exec_bad pagetable sz0 None else
  mem_op (uvmclear pagetable (u64 (sz1 - (USERSTACK + 1) * PGSIZE))) ;;
  let stackbase := u64 (sz1 - USERSTACK * PGSIZE) in
  r <- push_args argv pagetable sz1 stackbase [] ;;
  match r with
  | None => exec_bad pagetable sz1 None
  | Some (sp, ustack) =>
      let argc := Z.of_nat (length ustack) in
      let sp := u64 (sp - (argc + 1) * 8) in
      let sp := u64 (sp - sp mod 16) in
      if sp <? stackbase then exec_bad pagetable sz1 None else
      r <- mem_op (copyout pagetable sp (flat_map word_bytes (ustack ++ [0]))) ;;
      if r <? 0 then exec_bad pagetable sz1 None else
      mem_op (set_tf (trapframe_ptr p) TF_a1 sp) ;;
      upd_proc i (fun x => set_name (safestrcpy (name x) (last_elem path path) 16) x) ;;
      let oldpagetable := Proc.pagetable p in
      upd_proc i (fun x => set_sz sz1 (set_pagetable pagetable x)) ;;
      mem_op (set_tf (trapframe_ptr p) TF_epc entry) ;;
      mem_op (set_tf (trapframe_ptr p) TF_sp sp) ;;
      mem_op (proc_freepagetable oldpagetable oldsz) ;;
      ret argc
  end.

Definition exec (path argv : list Z) : K Z :=
  i <- my ;;
  begin_op ;;
  ip <- namei path ;;
  match ip with
  | None => end_op ;; ret (-1)
  | Some x =>
      ilock ip ;;
      r <- readi x false 0 0 ELFHDR_SIZE ;;
      if negb (fst r =? ELFHDR_SIZE) then exec_bad 0 0 ip else
      let elf := decode_elfhdr (snd r) in
      if negb (e_magic elf =? ELF_MAGIC) then exec_bad 0 0 ip else
      p <- get_proc i ;;
      pagetable <- mem_op (proc_pagetable (trapframe_ptr p)) ;;
      if pagetable =? 0 then exec_bad 0 0 ip else
      l <- load_segments (Z.to_nat (e_phnum elf)) pagetable x (i32 (e_phoff elf)) 0 ;;
      let '(sz, ok) := l in
      if negb ok then exec_bad pagetable sz ip else
      iunlockput ip ;;
      end_op ;;
      exec_commit path argv (e_entry elf) pagetable sz
  end.
End exec.
