(* ===== verification/Sysfile.v ===== *)
(** * File-system calls (kernel/sysfile.c)

    The results are those of the C functions before their conversion to the
    64-bit register. *)

From S2P Require Import Prelude Spinlock Riscv Kalloc Vm Queue PriorityQueue KString Proc Pipe FsState Sleeplock Virtio Bio Log Fs Console File SysArgs Exec.

Section sysfile.
Context {img : Image} {waits : Waits} {mmio : VirtioMmio}.

(** [argfd]: the descriptor and the file. *)
Definition argfd (n : nat) : K (option (Z * nat)) :=
  fd <- argint n ;;
  if (fd <? 0) || (Z.of_nat NOFILE <=? fd) then ret None
  else
    p <- my_proc ;;
    match default None (ofile p !! Z.to_nat fd) with
    | None => ret None
    | Some f => ret (Some (fd, f))
    end.

Definition set_fd (i : nat) (fd : nat) (v : option nat) : K unit :=
  upd_proc i (fun x => set_ofile (<[fd := v]> (ofile x)) x).

Definition fdalloc (f : nat) : K Z :=
  i <- my ;;
  r <- for_find (seq 0 NOFILE) (fun fd =>
    p <- get_proc i ;;
    match default None (ofile p !! fd) with
    | None => set_fd i fd (Some f) ;; ret (Some (Z.of_nat fd))
    | Some _ => ret None
    end) ;;
  ret (default (-1) r).

Definition sys_dup : K Z :=
  a <- argfd 0 ;;
  match a with
  | None => ret (-1)
  | Some (_, f) =>
      fd <- fdalloc f ;;
      if fd <? 0 then ret (-1) else _ <- filedup f ;; ret fd
  end.

Definition sys_read : K Z :=
  p <- argaddr 1 ;;
  n <- argint 2 ;;
  a <- argfd 0 ;;
  match a with None => ret (-1) | Some (_, f) => fileread f p n end.

Definition sys_write : K Z :=
  p <- argaddr 1 ;;
  n <- argint 2 ;;
  a <- argfd 0 ;;
  match a with None => ret (-1) | Some (_, f) => filewrite f p n end.

Definition sys_close : K Z :=
  a <- argfd 0 ;;
  match a with
  | None => ret (-1)
  | Some (fd, f) =>
      i <- my ;;
      set_fd i (Z.to_nat fd) None ;;
      fileclose f ;;
      ret 0
  end.

Definition sys_fstat : K Z :=
  st <- argaddr 1 ;;
  a <- argfd 0 ;;
  match a with None => ret (-1) | Some (_, f) => filestat f st end.

(** The label [bad] of [sys_link]. *)
Definition link_bad (ip : nat) : K Z :=
  ilock (Some ip) ;;
  upd_inode ip (fun x => set_i_nlink (i16 (i_nlink x - 1)) x) ;;
  iupdate ip ;;
  iunlockput (Some ip) ;;
  end_op ;;
  ret (-1).

Definition sys_link : K Z :=
  old <- argstr 0 MAXPATH ;;
  if fst old <? 0 then ret (-1) else
  new <- argstr 1 MAXPATH ;;
  if fst new <? 0 then ret (-1) else
  begin_op ;;
  o <- namei (snd old) ;;
  match o with
  | None => end_op ;; ret (-1)
  | Some ip =>
      ilock (Some ip) ;;
      x <- get_inode ip ;;
      if i_type x =? T_DIR then iunlockput (Some ip) ;; end_op ;; ret (-1)
      else
        upd_inode ip (fun x => set_i_nlink (i16 (i_nlink x + 1)) x) ;;
        iupdate ip ;;
        iunlock (Some ip) ;;
        d <- nameiparent (snd new) fresh_name ;;
        match d with
        | (None, _) => link_bad ip
        | (Some dp, name) =>
            ilock (Some dp) ;;
            dx <- get_inode dp ;;
            x <- get_inode ip ;;
            r <- (if negb (i_dev dx =? i_dev x) then ret (-1) else dirlink dp name (i_inum x)) ;;
            if r <? 0 then iunlockput (Some dp) ;; link_bad ip
            else
              iunlockput (Some dp) ;;
              iput ip ;;
              end_op ;;
              ret 0
        end
  end.

Fixpoint isdirempty_loop (fuel : nat) (dp : nat) (off : Z) : K bool :=
  match fuel with
  | O => nofuel
  | S fuel' =>
      x <- get_inode dp ;;
      if off <? i_size x then
        de <- read_dirent dp off "isdirempty: readi" ;;
        if negb (de_inum de =? 0) then ret false
        else isdirempty_loop fuel' dp (off + DIRENT_SIZE)
      else ret true
  end.
Definition isdirempty (dp : nat) : K bool :=
  x <- get_inode dp ;; isdirempty_loop (dir_fuel x) dp (2 * DIRENT_SIZE).

Definition dot : list Z := string_bytes ".".
Definition dotdot : list Z := string_bytes "..".

(** The label [bad] of [sys_unlink]. *)
Definition unlink_bad (dp : nat) : K Z := iunlockput (Some dp) ;; end_op ;; ret (-1).

Definition sys_unlink : K Z :=
  path <- argstr 0 MAXPATH ;;
  if fst path <? 0 then ret (-1) else
  begin_op ;;
  d <- nameiparent (snd path) fresh_name ;;
  match d with
  | (None, _) => end_op ;; ret (-1)
  | (Some dp, name) =>
      ilock (Some dp) ;;
      if (namecmp name dot =? 0) || (namecmp name dotdot =? 0) then unlink_bad dp else
      r <- dirlookup dp name ;;
      match r with
      | None => unlink_bad dp
      | Some (ip, off) =>
          ilock (Some ip) ;;
          x <- get_inode ip ;;
          if i_nlink x <? 1 then panic "unlink: nlink < 1" else
          empty <- (if i_type x =? T_DIR then isdirempty ip else ret true) ;;
          if negb empty then iunlockput (Some ip) ;; unlink_bad dp
          else
            w <- writei dp (SrcKernel (replicate (Z.to_nat DIRENT_SIZE) 0)) off DIRENT_SIZE ;;
            if negb (w =? DIRENT_SIZE) then panic "unlink: writei" else
            x <- get_inode ip ;;
            when (i_type x =? T_DIR)
              (upd_inode dp (fun y => set_i_nlink (i16 (i_nlink y - 1)) y) ;; iupdate dp) ;;
            iunlockput (Some dp) ;;
            upd_inode ip (fun y => set_i_nlink (i16 (i_nlink y - 1)) y) ;;
            iupdate ip ;;
            iunlockput (Some ip) ;;
            end_op ;;
            ret 0
      end
  end.

(** The label [fail] of [create]. *)
Definition create_fail (ip dp : nat) : K (option nat) :=
  upd_inode ip (set_i_nlink 0) ;;
  iupdate ip ;;
  iunlockput (Some ip) ;;
  iunlockput (Some dp) ;;
  ret None.

Definition create (path : list Z) (type major minor : Z) : K (option nat) :=
  d <- nameiparent path fresh_name ;;
  match d with
  | (None, _) => ret None
  | (Some dp, name) =>
      ilock (Some dp) ;;
      r <- dirlookup dp name ;;
      match r with
      | Some (ip, _) =>
          iunlockput (Some dp) ;;
          ilock (Some ip) ;;
          x <- get_inode ip ;;
          if (type =? T_FILE) && ((i_type x =? T_FILE) || (i_type x =? T_DEVICE)) then ret (Some ip)
          else iunlockput (Some ip) ;; ret None
      | None =>
          dx <- get_inode dp ;;
          o <- ialloc (i_dev dx) type ;;
          match o with
          | None => iunlockput (Some dp) ;; ret None
          | Some ip =>
              ilock (Some ip) ;;
              upd_inode ip (fun x => set_i_nlink 1 (set_i_minor minor (set_i_major major x))) ;;
              iupdate ip ;;
              x <- get_inode ip ;;
              dx <- get_inode dp ;;
              ok <- (if type =? T_DIR then
                       a <- dirlink ip dot (i_inum x) ;;
                       (if a <? 0 then ret false else b <- dirlink ip dotdot (i_inum dx) ;; ret (negb (b <? 0)))
                     else ret true) ;;
              if negb ok then create_fail ip dp else
              l <- dirlink dp name (i_inum x) ;;
              if l <? 0 then create_fail ip dp else
              when (type =? T_DIR)
                (upd_inode dp (fun y => set_i_nlink (i16 (i_nlink y + 1)) y) ;; iupdate dp) ;;
              iunlockput (Some dp) ;;
              ret (Some ip)
          end
      end
  end.

(** [sys_open] once the inode is found and locked. *)
Definition open_fail (ip : nat) : K Z := iunlockput (Some ip) ;; end_op ;; ret (-1).
Definition open_inode (ip : nat) (omode : Z) : K Z :=
  x <- get_inode ip ;;
  if (i_type x =? T_DEVICE) && ((i_major x <? 0) || (NDEV <=? i_major x)) then open_fail ip else
  o <- filealloc ;;
  match o with
  | None => open_fail ip
  | Some f =>
      fd <- fdalloc f ;;
      if fd <? 0 then fileclose f ;; open_fail ip
      else
        x <- get_inode ip ;;
        (if i_type x =? T_DEVICE then upd_file f (fun y => set_f_major (i_major x) (set_f_type FD_DEVICE y))
         else upd_file f (fun y => set_f_off 0 (set_f_type FD_INODE y))) ;;
        let wr := negb (Z.land omode O_WRONLY =? 0) in
        upd_file f (fun y => set_f_writable (if wr || negb (Z.land omode O_RDWR =? 0) then 1 else 0)
          (set_f_readable (if wr then 0 else 1) (set_f_ip (Some ip) y))) ;;
        when (negb (Z.land omode O_TRUNC =? 0) && (i_type x =? T_FILE)) (itrunc ip) ;;
        iunlock (Some ip) ;;
        end_op ;;
        ret fd
  end.

Definition sys_open : K Z :=
  omode <- argint 1 ;;
  path <- argstr 0 MAXPATH ;;
  if fst path <? 0 then ret (-1) else
  begin_op ;;
  if negb (Z.land omode O_CREATE =? 0) then
    o <- create (snd path) T_FILE 0 0 ;;
    match o with
    | None => end_op ;; ret (-1)
    | Some ip => open_inode ip omode
    end
  else
    o <- namei (snd path) ;;
    match o with
    | None => end_op ;; ret (-1)
    | Some ip =>
        ilock (Some ip) ;;
        x <- get_inode ip ;;
        if (i_type x =? T_DIR) && negb (omode =? O_RDONLY) then open_fail ip
        else open_inode ip omode
    end.

Definition sys_mkdir : K Z :=
  begin_op ;;
  path <- argstr 0 MAXPATH ;;
  o <- (if fst path <? 0 then ret None else create (snd path) T_DIR 0 0) ;;
  match o with
  | None => end_op ;; ret (-1)
  | Some ip => iunlockput (Some ip) ;; end_op ;; ret 0
  end.

Definition sys_mknod : K Z :=
  begin_op ;;
  major <- argint 1 ;;
  minor <- argint 2 ;;
  path <- argstr 0 MAXPATH ;;
  o <- (if fst path <? 0 then ret None else create (snd path) T_DEVICE (i16 major) (i16 minor)) ;;
  match o with
  | None => end_op ;; ret (-1)
  | Some ip => iunlockput (Some ip) ;; end_op ;; ret 0
  end.

Definition sys_chdir : K Z :=
  i <- my ;;
  begin_op ;;
  path <- argstr 0 MAXPATH ;;
  o <- (if fst path <? 0 then ret None else namei (snd path)) ;;
  match o with
  | None => end_op ;; ret (-1)
  | Some ip =>
      ilock (Some ip) ;;
      x <- get_inode ip ;;
      if negb (i_type x =? T_DIR) then iunlockput (Some ip) ;; end_op ;; ret (-1)
      else
        iunlock (Some ip) ;;
        p <- get_proc i ;;
        c <- deref (fun _ => cwd p) ;;
        iput c ;;
        end_op ;;
        upd_proc i (set_cwd (Some ip)) ;;
        ret 0
  end.

(** The argument loop of [sys_exec]: the pages filled so far, and whether the
    array's terminator was reached. *)
Fixpoint fetch_args (n : nat) (uargv : Z) (argv : list Z) : K (list Z * bool) :=
  match n with
  | O => ret (argv, false)
  | S n' =>
      r <- fetchaddr (u64 (uargv + 8 * Z.of_nat (length argv))) ;;
      if fst r <? 0 then ret (argv, false)
      else if snd r =? 0 then ret (argv, true)
      else
        a <- mem_op kalloc ;;
        if a =? 0 then ret (argv, false) else
        s <- fetchstr (snd r) PGSIZE ;;
        mem_op (write_bytes a 0 (snd s)) ;;
        if fst s <? 0 then ret (argv ++ [a], false)
        else fetch_args n' uargv (argv ++ [a])
  end.

Definition sys_exec : K Z :=
  uargv <- argaddr 1 ;;
  path <- argstr 0 MAXPATH ;;
  if fst path <? 0 then ret (-1) else
  r <- fetch_args (Z.to_nat MAXARG) uargv [] ;;
  let '(argv, ok) := r in
  v <- (if (ok : bool) then exec (snd path) argv else ret (-1)) ;;
  for_each argv (fun a => mem_op (kfree a)) ;;
  ret v.

Definition sys_pipe : K Z :=
  i <- my ;;
  fdarray <- argaddr 0 ;;
  o <- pipealloc ;;
  match o with
  | None => ret (-1)
  | Some (rf, wf) =>
      fd0 <- fdalloc rf ;;
      fd1 <- (if fd0 <? 0 then ret (-1) else fdalloc wf) ;;
      if (fd0 <? 0) || (fd1 <? 0) then
        when (0 <=? fd0) (set_fd i (Z.to_nat fd0) None) ;;
        fileclose rf ;;
        fileclose wf ;;
        ret (-1)
      else
        p <- get_proc i ;;
        r <- mem_op (copyout (pagetable p) fdarray (int_bytes fd0)) ;;
        r <- (if r <? 0 then ret r else mem_op (copyout (pagetable p) (u64 (fdarray + 4)) (int_bytes fd1))) ;;
        if r <? 0 then
          set_fd i (Z.to_nat fd0) None ;;
          set_fd i (Z.to_nat fd1) None ;;
          fileclose rf ;;
          fileclose wf ;;
          ret (-1)
        else ret 0
  end.
End sysfile.
