(* ===== verification/Sysproc.v ===== *)
(** * Process system calls and dispatch (kernel/sysproc.c, [syscall] of syscall.c)

    The results are those of the C functions before their conversion to the
    64-bit register. *)

From S2P Require Import Prelude Spinlock Riscv Kalloc Vm Queue PriorityQueue KString Proc Pipe FsState Sleeplock Virtio Bio Log Fs Console File SysArgs Exec Sysfile.

(** What three system calls find in the structures they keep on the kernel
    stack without initialising them, and where on the stack those are. *)
Class Uninit : Type := {
  cps_bytes : list Z;            (* struct child_processes kcps *)
  rep_bytes : list Z;            (* struct report_traps kreptraps *)
  top_entries : list proc_info;  (* ktop.processes *)
  local_off : Z                  (* their offset on the stack page *)
}.

(** ** Structures passed to user space *)

Definition state_code (s : procstate) : Z :=
  match s with
  | UNUSED => 0 | USED => 1 | SLEEPING => 2 | RUNNABLE => 3 | RUNNING => 4 | ZOMBIE => 5
  | PASSED_QUOTA => 6 | CHOSEN_TO_RUN => 7 | DROPPED => 8
  end.

(** [struct child_processes]: [count], then entries of 48 bytes ([name], [pid],
    [ppid], [state], and [usage], which is left as it was). *)
Definition CPS_SIZE : Z := 4 + 48 * NPROC.
Definition put_cps (d : list Z) (k : nat) (e : proc_info_cps) : list Z :=
  splice d (4 + 48 * k) (cps_name e ++ int_bytes (cps_pid e) ++ int_bytes (cps_ppid e) ++
                         int_bytes (state_code (cps_state e))).
Definition encode_cps (d : list Z) (l : list proc_info_cps) : list Z :=
  foldl (fun d '(k, e) => put_cps d k e) (splice d 0 (int_bytes (Z.of_nat (length l))))
    (zip (seq 0 (length l)) l).

(** [struct report] is 72 bytes with its padding: [pname], [pid], [scause],
    [sepc], [stval], [parents], [parents_count]; then the count. *)
Definition REP_SIZE : Z := 72 * Z.of_nat MAX_REPORT_BUFFER_SIZE + 8.
Definition put_report (d : list Z) (k : nat) (r : report) : list Z :=
  let o := (72 * k)%nat in
  let d := splice d o (r_pname r ++ int_bytes (r_pid r)) in
  splice d (o + 24) (word_bytes (Proc.r_scause r) ++ word_bytes (Proc.r_sepc r) ++ word_bytes (Proc.r_stval r) ++
                     flat_map int_bytes (r_parents r) ++ int_bytes (r_parents_count r)).
Definition encode_reports (d : list Z) (l : list report) : list Z :=
  splice (foldl (fun d '(k, r) => put_report d k r) d (zip (seq 0 (length l)) l))
    (72 * MAX_REPORT_BUFFER_SIZE) (int_bytes (Z.of_nat (length l))).

(** [struct top]: [count], then entries of 48 bytes. *)
Definition usage_bytes (u : cpu_usage) : list Z :=
  int_bytes (sum_of_ticks u) ++ int_bytes (start_tick u) ++ int_bytes (quota u) ++
  int_bytes (last_sched_tick u) ++ int_bytes (deadline u).
Definition info_bytes (e : proc_info) : list Z :=
  pi_name e ++ int_bytes (pi_pid e) ++ int_bytes (pi_ppid e) ++ int_bytes (state_code (pi_state e)) ++
  usage_bytes (pi_usage e).
Definition encode_top (count : nat) (l : list proc_info) : list Z :=
  int_bytes (Z.of_nat count) ++ flat_map info_bytes l.

Section sysproc.
Context {img : Image} {waits : Waits} {mmio : VirtioMmio} {uninit : Uninit}.

Definition sys_exit : K Z := n <- argint 0 ;; exit n ;; ret 0.
Definition sys_getpid : K Z := p <- my_proc ;; ret (pid p).
Definition sys_fork : K Z := fork.
Definition sys_wait : K Z := p <- argaddr 0 ;; wait (S (S max_waits)) p.

Definition sys_sbrk : K Z :=
  n <- argint 0 ;;
  p <- my_proc ;;
  r <- growproc n ;;
  if r <? 0 then ret (-1) else ret (sz p).

Fixpoint sys_sleep_loop (fuel : nat) (ticks0 n : Z) : K Z :=
  match fuel with
  | O => nofuel
  | S fuel' =>
      now <- gets ticks ;;
      if u32 (now - ticks0) <? n then
        i <- my ;;
        k <- killed i ;;
        if negb (k =? 0) then release LkTicks ;; ret (-1)
        else sleep ChTicks LkTicks ;; sys_sleep_loop fuel' ticks0 n
      else release LkTicks ;; ret 0
  end.
Definition sys_sleep : K Z :=
  n <- argint 0 ;;
  let n := if n <? 0 then 0 else n in
  acquire LkTicks ;;
  ticks0 <- gets ticks ;;
  sys_sleep_loop (S (S max_waits)) ticks0 n.

Definition sys_kill : K Z := pid <- argint 0 ;; kill pid.

Definition sys_uptime : K Z :=
  acquire LkTicks ;; xticks <- gets ticks ;; release LkTicks ;; ret xticks.

(** [copyin(p->pagetable, (char * )uaddr, (uint64)&local, sizeof(local))]: the
    arguments are exchanged, so it reads at the user address that the local
    variable's kernel address denotes, and writes to the user's address as if
    it were the kernel's.  The result is ignored. *)
Definition swapped_copyin (p : proc) (size : Z) : K unit :=
  r <- mem_op (copyin (pagetable p) (u64 (kstack p + local_off)) size) ;;
  match snd r with [] => ret tt | _ => fault end.

Definition sys_child_processes : K Z :=
  cps <- argaddr 0 ;;
  p <- my_proc ;;
  swapped_copyin p CPS_SIZE ;;
  acquire LkTicks ;;
  r <- child_processes ;;
  release LkTicks ;;
  _ <- mem_op (copyout (pagetable p) cps (encode_cps cps_bytes (snd r))) ;;
  ret (fst r).

Definition sys_report_traps : K Z :=
  reptraps <- argaddr 0 ;;
  p <- my_proc ;;
  swapped_copyin p REP_SIZE ;;
  acquire LkTicks ;;
  r <- report_traps ;;
  release LkTicks ;;
  _ <- mem_op (copyout (pagetable p) reptraps (encode_reports rep_bytes (snd r))) ;;
  ret (fst r).

Definition sys_create_thread : K Z :=
  start <- argaddr 0 ;;
  arg <- argaddr 1 ;;
  pstack <- argaddr 2 ;;
  create_thread start arg pstack.
Definition sys_join_thread : K Z := tid <- argint 0 ;; join_thread tid.
Definition sys_exit_thread : K Z := tid <- argint 0 ;; exit_thread tid.
Definition sys_cpu_used : K Z := cpu_used.
Definition sys_set_cpu_quota : K Z := pid <- argint 0 ;; quota <- argint 1 ;; set_cpu_quota pid quota.

Definition sys_fork_deadline : K Z :=
  deadline <- argint 0 ;;
  now <- gets ticks ;;
  printf "(sysproc) tick: %d\n" [PInt now] ;;
  fork_deadline deadline.

Definition sys_top_func : K Z :=
  printf "this is sys_top!\n" [] ;;
  top <- argaddr 0 ;;
  p <- my_proc ;;
  swapped_copyin p CPS_SIZE ;;
  r <- top_func top_entries ;;
  let '(res, (count, arr)) := r in
  _ <- mem_op (copyout (pagetable p) top (encode_top count arr)) ;;
  ret res.

(** ** Dispatch *)

(** The table [syscalls] (kernel/syscall.h has the numbers). *)
Definition syscalls (num : Z) : option (K Z) :=
  match num with
  | 1 => Some sys_fork | 2 => Some sys_exit | 3 => Some sys_wait | 4 => Some sys_pipe
  | 5 => Some sys_read | 6 => Some sys_kill | 7 => Some sys_exec | 8 => Some sys_fstat
  | 9 => Some sys_chdir | 10 => Some sys_dup | 11 => Some sys_getpid | 12 => Some sys_sbrk
  | 13 => Some sys_sleep | 14 => Some sys_uptime | 15 => Some sys_open | 16 => Some sys_write
  | 17 => Some sys_mknod | 18 => Some sys_unlink | 19 => Some sys_link | 20 => Some sys_mkdir
  | 21 => Some sys_close | 22 => Some sys_child_processes | 23 => Some sys_report_traps
  | 24 => Some sys_create_thread | 25 => Some sys_join_thread | 26 => Some sys_exit_thread
  | 27 => Some sys_cpu_used | 28 => Some sys_set_cpu_quota | 29 => Some sys_fork_deadline
  | 30 => Some sys_top_func
  | _ => None
  end.

Definition syscall : K unit :=
  i <- my ;;
  p <- get_proc i ;;
  tf <- mem_op (load_tf (trapframe_ptr p)) ;;
  a7 <- deref (fun _ => tf !! TF_a7) ;;
  let num := i32 a7 in
  match syscalls num with
  | Some call =>
      r <- call ;;
      p <- get_proc i ;;
      mem_op (set_tf (trapframe_ptr p) TF_a0 r)
  | None =>
      printf "%d %s: unknown sys call %d\n" [PInt (pid p); PChars (name p); PInt num] ;;
      mem_op (set_tf (trapframe_ptr p) TF_a0 (-1))
  end.
End sysproc.
