(* ===== verification/Trap.v ===== *)
(** * Traps and interrupts (kernel/trap.c; [forkret] of proc.c; kernel/plic.c)

    The control registers are those of the hart ([hw]); a [swtch] inside one
    of these functions comes back with whatever they hold by then. *)

From S2P Require Import Prelude Spinlock Riscv Kalloc Vm Queue PriorityQueue KString Proc FsState Sleeplock Virtio Bio Log Fs Console File SysArgs Exec Sysfile Sysproc.

Definition SSTATUS_SPP : Z := 256.
Definition SSTATUS_SPIE : Z := 32.

(** Addresses of code: [kernelvec], [usertrap], and the offsets of [uservec]
    and [userret] in the trampoline page. *)
Class TrapCode : Type := { kernelvec : Z; usertrap_addr : Z; uservec_off : Z; userret_off : Z }.

Section trap.
Context {img : Image} {waits : Waits} {mmio : VirtioMmio} {uninit : Uninit} {code : TrapCode}.

Definition csr (f : hart_regs -> Z) : K Z := fs_gets (fun s => f (hw s)).

(** ** plic.c *)

Definition plic_claim : K Z :=
  l <- fs_gets (fun s => plic_pending (hw s)) ;;
  match l with
  | [] => ret 0
  | irq :: l' => upd_hw (set_plic_pending l') ;; ret irq
  end.
Definition plic_complete (irq : Z) : K unit := upd_hw (fun h => set_plic_done (plic_done h ++ [irq]) h).

(** ** trap.c *)

Definition trapinithart : K unit := upd_hw (set_r_stvec kernelvec).

(** [n] rounds of the ancestors loop: their pids, in order. *)
Fixpoint ancestors (n : nat) (parent0 : procptr) : K (list Z) :=
  match n with
  | O => ret []
  | S n' =>
      i <- deref (fun _ => parent0) ;;
      x <- get_proc i ;;
      if pid x =? 1 then ret [pid x]
      else l <- ancestors n' (parent x) ;; ret (pid x :: l)
  end.

(** Entries of [parents] from [parents_count] on are not written. *)
Definition add_report_trap : K unit :=
  scause <- csr r_scause ;;
  sepc <- csr r_sepc ;;
  stval <- csr r_stval ;;
  p <- my_proc ;;
  l <- ancestors MAX_PARENT_BUFFER_SIZE (parent p) ;;
  let rep := mk_report (strncpy_out (name p) 16) (pid p) scause sepc stval
               (l ++ replicate (MAX_PARENT_BUFFER_SIZE - length l) 0) (Z.of_nat (length l)) in
  rl <- gets rlist ;;
  _ <- deref (fun _ => reports rl !! Z.to_nat (writeIndex rl)) ;;
  modify (set_rlist (mk_rlist (<[Z.to_nat (writeIndex rl) := rep]> (reports rl))
    (if numberOfReports rl =? Z.of_nat MAX_REPORT_BUFFER_SIZE then numberOfReports rl else numberOfReports rl + 1)
    (if writeIndex rl =? Z.of_nat MAX_REPORT_BUFFER_SIZE - 1 then 0 else writeIndex rl + 1))).

Definition clockintr : K unit :=
  hart <- csr r_tp ;;
  when (hart =? 0)
    (acquire LkTicks ;;
     modify (fun s => set_ticks (u32 (ticks s + 1)) s) ;;
     wakeup ChTicks ;;
     release LkTicks) ;;
  upd_hw (fun h => set_r_stimecmp (u64 (r_time h + 1000000)) h).

Definition devintr : K Z :=
  scause <- csr r_scause ;;
  if scause =? 0x8000000000000009 then
    irq <- plic_claim ;;
    (if irq =? UART0_IRQ then uartintr
     else if irq =? VIRTIO0_IRQ then virtio_disk_intr
     else when (negb (irq =? 0)) (printf "unexpected interrupt irq=%d\n" [PInt irq])) ;;
    when (negb (irq =? 0)) (plic_complete irq) ;;
    ret 1
  else if scause =? 0x8000000000000005 then clockintr ;; ret 2
  else ret 0.

(** What [userret] is called with: its address and [satp]. *)
Definition usertrapret : K (Z * Z) :=
  i <- my ;;
  modify (set_intr false) ;;
  upd_hw (set_r_stvec (u64 (TRAMPOLINE + uservec_off))) ;;
  p <- get_proc i ;;
  satp <- csr r_satp ;;
  mem_op (set_tf (trapframe_ptr p) TF_kernel_satp satp) ;;
  mem_op (set_tf (trapframe_ptr p) TF_kernel_sp (kstack p + PGSIZE)) ;;
  mem_op (set_tf (trapframe_ptr p) TF_kernel_trap usertrap_addr) ;;
  tp <- csr r_tp ;;
  mem_op (set_tf (trapframe_ptr p) TF_kernel_hartid tp) ;;
  upd_hw (fun h => set_r_sstatus (Z.lor (Z.land (r_sstatus h) (Z.lnot SSTATUS_SPP)) SSTATUS_SPIE) h) ;;
  tf <- mem_op (load_tf (trapframe_ptr p)) ;;
  epc <- deref (fun _ => tf !! TF_epc) ;;
  upd_hw (set_r_sepc epc) ;;
  ret (u64 (TRAMPOLINE + userret_off), MAKE_SATP (pagetable p)).

(** The branches of [usertrap] on the cause: [which_dev]. *)
Definition handle_trap (i : nat) : K Z :=
  scause <- csr r_scause ;;
  if scause =? 8 then
    k <- killed i ;;
    when (negb (k =? 0)) (exit (-1)) ;;
    p <- get_proc i ;;
    tf <- mem_op (load_tf (trapframe_ptr p)) ;;
    epc <- deref (fun _ => tf !! TF_epc) ;;
    mem_op (set_tf (trapframe_ptr p) TF_epc (epc + 4)) ;;
    modify (set_intr true) ;;
    syscall ;;
    ret 0
  else
    which_dev <- devintr ;;
    if negb (which_dev =? 0) then ret which_dev
    else
      sepc <- csr r_sepc ;;
      if sepc =? 0xfffffffffffffffe then _ <- exit_thread (-1) ;; ret 0
      else
        add_report_trap ;;
        p <- get_proc i ;;
        printf "usertrap(): unexpected scause 0x%lx pid=%d\n" [PInt scause; PInt (pid p)] ;;
        setkilled i ;;
        ret 0.

Definition usertrap : K (Z * Z) :=
  sstatus <- csr r_sstatus ;;
  if negb (Z.land sstatus SSTATUS_SPP =? 0) then panic "usertrap: not from user mode" else
  upd_hw (set_r_stvec kernelvec) ;;
  i <- my ;;
  p <- get_proc i ;;
  now <- gets ticks ;;
  mem_op (upd_usage (usage_time p) (account now)) ;;
  u <- mem_op (load_usage (usage_time p)) ;;
  when (deadline u <=? now) (upd_proc i (set_state DROPPED) ;; yield) ;;
  p <- get_proc i ;;
  sepc <- csr r_sepc ;;
  mem_op (set_tf (trapframe_ptr p) TF_epc sepc) ;;
  which_dev <- handle_trap i ;;
  k <- killed i ;;
  when (negb (k =? 0)) (exit (-1)) ;;
  when (which_dev =? 2) yield ;;
  p <- get_proc i ;;
  now <- gets ticks ;;
  mem_op (upd_usage (usage_time p) (set_last now)) ;;
  usertrapret.

Definition kerneltrap : K unit :=
  sepc <- csr r_sepc ;;
  sstatus <- csr r_sstatus ;;
  scause <- csr r_scause ;;
  if Z.land sstatus SSTATUS_SPP =? 0 then panic "kerneltrap: not from supervisor mode" else
  on <- intr_get ;;
  if (on : bool) then panic "kerneltrap: interrupts enabled" else
  which_dev <- devintr ;;
  if which_dev =? 0 then
    sepc' <- csr r_sepc ;;
    stval <- csr r_stval ;;
    printf "scause=0x%lx sepc=0x%lx stval=0x%lx\n" [PInt scause; PInt sepc'; PInt stval] ;;
    panic "kerneltrap"
  else
    me <- myproc ;;
    when ((which_dev =? 2) && bool_decide (me <> None)) yield ;;
    upd_hw (fun h => set_r_sstatus sstatus (set_r_sepc sepc h)).

(** ** The first return to user space *)

Definition forkret : K (Z * Z) :=
  i <- my ;;
  release (LkProc i) ;;
  f <- fs_gets first ;;
  when (negb (f =? 0)) (fsinit ROOTDEV ;; fs_modify (set_first 0)) ;;
  usertrapret.
End trap.
