(* ===== verification/Printf.v ===== *)
(** * Formatted output (kernel/printf.c)

    The format and the arguments as the function receives them; what is
    printed goes through [consputc].  A store beyond the 16 characters of
    [printint]'s buffer is a [Fault].  (The other models record the arguments
    of their [printf] calls instead.) *)

From S2P Require Import Prelude Spinlock Riscv Kalloc Vm Queue PriorityQueue KString Proc FsState Console.

Definition i64 (x : Z) : Z := let y := x mod 2 ^ 64 in if y <? 2 ^ 63 then y else y - 2 ^ 64.

(** A variable argument: a register, or a string pointer. *)
Inductive varg : Type := VNum (x : Z) | VStr (s : option (list Z)).

(** [digits[d]]: the characters 0-9 and a-f. *)
Definition digit (d : Z) : Z := if d <? 10 then 48 + d else 87 + d.
Definition PRINT_BUF : nat := 16.

(** [buf[i++] = c], [i] being the length of what is stored so far. *)
Definition buf_push (buf : list Z) (c : Z) : option (list Z) :=
  if (length buf <? PRINT_BUF)%nat then Some (buf ++ [c]) else None.

(** The do-while loop; a 64-bit number has at most 64 digits. *)
Fixpoint digits_loop (fuel : nat) (x base : Z) (buf : list Z) : option (list Z) :=
  match fuel with
  | O => None
  | S fuel' =>
      buf ← buf_push buf (digit (x mod base));
      if x / base =? 0 then Some buf else digits_loop fuel' (x / base) base buf
  end.

(** The characters [printint] prints, [None] when it overruns its buffer. *)
Definition printint_out (xx base : Z) (sign : bool) : option (list Z) :=
  let neg := sign && (xx <? 0) in
  let x := if neg then u64 (- xx) else u64 xx in
  buf ← digits_loop 64 x base [];
  buf ← (if neg then buf_push buf 45 else Some buf);
  Some (rev buf).

(** The sixteen digits of [printptr]. *)
Fixpoint ptr_digits (n : nat) (x : Z) : list Z :=
  match n with
  | O => []
  | S n' => digit (Z.shiftr x 60) :: ptr_digits n' (u64 (Z.shiftl x 4))
  end.

Section printf.
Context {img : Image}.

Definition puts (l : list Z) : K unit := for_each l consputc.

Definition printint (xx base : Z) (sign : bool) : K unit :=
  l <- deref (fun _ => printint_out xx base sign) ;; puts l.
Definition printptr (x : Z) : K unit := puts (48 :: 120 :: ptr_digits 16 x).

Definition va_int (a : varg) : K Z := match a with VNum x => ret (i32 x) | VStr _ => fault end.
Definition va_uint64 (a : varg) : K Z := match a with VNum x => ret (u64 x) | VStr _ => fault end.
Definition va_str (a : varg) : K (list Z) :=
  match a with VStr (Some s) => ret (cstr s) | VStr None => ret (string_bytes "(null)") | VNum _ => fault end.

Definition c_d : Z := 100.
Definition c_l : Z := 108.
Definition c_u : Z := 117.
Definition c_x : Z := 120.
Definition c_p : Z := 112.
Definition c_s : Z := 115.
Definition c_percent : Z := 37.

(** A conversion that takes an argument: what it prints, and how many
    characters of the format it has after the first; [None] for the rest. *)
Definition conversion (c0 c1 c2 : Z) : option (varg -> K unit) * nat :=
  let int32 base sign a := x <- va_int a ;; printint x base sign in
  let int64 base sign a := x <- va_uint64 a ;; printint (i64 x) base sign in
  if c0 =? c_d then (Some (int32 10 true), 0%nat)
  else if (c0 =? c_l) && (c1 =? c_d) then (Some (int64 10 true), 1%nat)
  else if (c0 =? c_l) && (c1 =? c_l) && (c2 =? c_d) then (Some (int64 10 true), 2%nat)
  else if c0 =? c_u then (Some (int32 10 false), 0%nat)
  else if (c0 =? c_l) && (c1 =? c_u) then (Some (int64 10 false), 1%nat)
  else if (c0 =? c_l) && (c1 =? c_l) && (c2 =? c_u) then (Some (int64 10 false), 2%nat)
  else if c0 =? c_x then (Some (int32 16 false), 0%nat)
  else if (c0 =? c_l) && (c1 =? c_x) then (Some (int64 16 false), 1%nat)
  else if (c0 =? c_l) && (c1 =? c_l) && (c2 =? c_x) then (Some (int64 16 false), 2%nat)
  else if c0 =? c_p then (Some (fun a => x <- va_uint64 a ;; printptr x), 0%nat)
  else if c0 =? c_s then (Some (fun a => s <- va_str a ;; puts s), 0%nat)
  else (None, 0%nat).

(** The loop over the format. *)
Fixpoint printf_loop (fuel : nat) (fmt : list Z) (ap : list varg) : K unit :=
  match fuel, fmt with
  | O, _ => nofuel
  | _, [] => ret tt
  | S fuel', cx :: fmt' =>
      if cx =? 0 then ret tt
      else if negb (cx =? c_percent) then consputc cx ;; printf_loop fuel' fmt' ap
      else
        let c0 := char0 fmt' in
        let c1 := if c0 =? 0 then 0 else char0 (drop 1 fmt') in
        let c2 := if c1 =? 0 then 0 else char0 (drop 2 fmt') in
        match conversion c0 c1 c2 with
        | (Some conv, more) =>
            match ap with
            | [] => fault
            | a :: ap' => conv a ;; printf_loop fuel' (drop (S more) fmt') ap'
            end
        | (None, _) =>
            if c0 =? c_percent then consputc c_percent ;; printf_loop fuel' (drop 1 fmt') ap
            else if c0 =? 0 then ret tt
            else consputc c_percent ;; consputc c0 ;; printf_loop fuel' (drop 1 fmt') ap
        end
  end.

(** The lock [pr.lock] only keeps the output of different harts apart. *)
Definition kprintf (fmt : list Z) (ap : list varg) : K unit := printf_loop (S (length fmt)) fmt ap.
End printf.
