(* ===== verification/FsTheorems.v ===== *)
(** * On-disk inodes, the block bitmap and path names

    Properties of kernel/fs.c that do not depend on the disk: the layout of
    inodes in a block, the bits of the free map, the splitting of paths. *)

From S2P Require Import Prelude Spinlock Riscv Kalloc Vm VmCopy Queue PriorityQueue KString Proc FsState FsBytes Sleeplock Virtio Bio Log Fs.

Ltac Zify.zify_post_hook ::= Z.to_euclidean_division_equations.

(** ** Inodes on disk *)

Definition short (x : Z) : Prop := - 2 ^ 15 <= x < 2 ^ 15.
Definition uint (x : Z) : Prop := 0 <= x < 2 ^ 32.

(** The C types of the fields that are stored. *)
Record inode_typed (ip : inode) : Prop := {
  it_type : short (i_type ip);
  it_major : short (i_major ip);
  it_minor : short (i_minor ip);
  it_nlink : short (i_nlink ip);
  it_size : uint (i_size ip);
  it_addrs : length (i_addrs ip) = 13%nat /\ Forall uint (i_addrs ip)
}.

Lemma put_addrs_words d o addrs :
  put_addrs d o addrs = put_words d (o + 12) (fun k => default 0 (addrs !! k)) 13.
Proof. done. Qed.

Lemma put_dinode_length d o ip : length (put_dinode d o ip) = length d.
Proof. unfold put_dinode. rewrite put_addrs_words. by autorewrite with block_length. Qed.

Lemma put_dinode_other d o ip j :
  (j < o \/ o + 64 <= j)%nat -> put_dinode d o ip !! j = d !! j.
Proof.
  intros. unfold put_dinode. rewrite put_addrs_words, put_words_other by lia.
  rewrite put32_other by lia. by rewrite !put16_other by lia.
Qed.

(** Reading a field of 16 bits through the stores that follow it. *)
Lemma get16_put_addrs d o addrs j : (j + 2 <= o + 12)%nat -> get16 (put_addrs d o addrs) j = get16 d j.
Proof. intros. rewrite put_addrs_words. apply get16_ext. intros. apply put_words_other. lia. Qed.
Lemma get16_put32 d o v j : (j + 2 <= o \/ o + 4 <= j)%nat -> get16 (put32 d o v) j = get16 d j.
Proof. intros. apply get16_ext. intros. apply put32_other. lia. Qed.
Lemma get16_put16_ne d o v j : (j + 2 <= o \/ o + 2 <= j)%nat -> get16 (put16 d o v) j = get16 d j.
Proof. intros. apply get16_ext. intros. apply put16_other. lia. Qed.

Lemma get_dinode_put d o ip ip' :
  (o + 64 <= length d)%nat -> inode_typed ip ->
  get_dinode (put_dinode d o ip) o ip' =
  mk_inode (i_dev ip') (i_inum ip') (i_ref ip') (i_valid ip')
    (i_type ip) (i_major ip) (i_minor ip) (i_nlink ip) (i_size ip) (i_addrs ip).
Proof.
  intros Hl [Ht Hma Hmi Hn Hs [Hla Ha]]. unfold get_dinode, put_dinode. f_equal.
  1-4: rewrite get16_put_addrs, get16_put32 by lia; rewrite ?get16_put16_ne by lia;
    rewrite get16_put16 by (rewrite ?put16_length; lia); by apply i16_u16.
  - rewrite put_addrs_words.
    rewrite (get32_ext _ (put32 (put16 (put16 (put16 (put16 d o (i_type ip)) (o + 2) (i_major ip)) (o + 4)
      (i_minor ip)) (o + 6) (i_nlink ip)) (o + 8) (i_size ip))) by (intros; apply put_words_other; lia).
    rewrite get32_put32 by (rewrite !put16_length; lia). by apply u32_id.
  - apply list_eq. intros k. unfold addr_slots.
    change (Z.to_nat NDIRECT + 1)%nat with 13%nat. rewrite list_lookup_fmap.
    destruct (decide (k < 13)%nat) as [Hk|].
    + rewrite lookup_seq_lt by done. cbn [fmap option_fmap option_map].
      rewrite put_addrs_words, Nat.add_0_l, get32_put_words by (rewrite ?put32_length, ?put16_length; lia).
      destruct (lookup_lt_is_Some_2 (i_addrs ip) k ltac:(lia)) as [x Hx]. rewrite Hx. cbn [default]. f_equal.
      apply u32_id. by apply (Forall_lookup_1 _ _ _ _ Ha Hx).
    + rewrite lookup_seq_ge by lia. cbn. rewrite lookup_ge_None_2; [done|lia].
Qed.

Lemma get_dinode_ext d d' o ip :
  (forall j, o <= j < o + 64 -> d !! j = d' !! j)%nat -> get_dinode d o ip = get_dinode d' o ip.
Proof.
  intros H. unfold get_dinode. f_equal.
  1-4: f_equal; apply get16_ext; intros; apply H; lia.
  - apply get32_ext. intros. apply H. lia.
  - apply list_fmap_ext. intros k x [Hx Hk]%lookup_seq. apply get32_ext. intros. apply H.
    change (k < 13)%nat in Hk. lia.
Qed.

(** [iupdate] followed by [ilock]: an inode whose fields are in the range of
    their C types is read back as it was stored, and storing it leaves the
    other inodes of the block as they were. *)
Theorem dinode_roundtrip d inum inum' ip ip' :
  length d = Z.to_nat BSIZE -> inode_typed ip -> inum' mod IPB <> inum mod IPB ->
  let d' := put_dinode d (dinode_off inum) ip in
  length d' = Z.to_nat BSIZE /\
  get_dinode d' (dinode_off inum) ip' =
    mk_inode (i_dev ip') (i_inum ip') (i_ref ip') (i_valid ip')
      (i_type ip) (i_major ip) (i_minor ip) (i_nlink ip) (i_size ip) (i_addrs ip) /\
  get_dinode d' (dinode_off inum') ip' = get_dinode d (dinode_off inum') ip'.
Proof.
  intros Hl Ht Hne d'.
  assert (BSIZE = 1024 /\ IPB = 16 /\ DINODE_SIZE = 64%nat) as (HB & HI & HD) by done.
  pose proof (Z.mod_pos_bound inum IPB ltac:(lia)). pose proof (Z.mod_pos_bound inum' IPB ltac:(lia)).
  subst d'. rewrite put_dinode_length. split_and!; [done| |].
  - apply get_dinode_put; [|done]. unfold dinode_off. rewrite HD. lia.
  - apply get_dinode_ext. unfold dinode_off. rewrite HD. intros j Hj. apply put_dinode_other. nia.
Qed.

Definition sample_inode : inode := mk_inode 1 5 1 1 2 0 0 1 300 (46 :: 47 :: replicate 11 0).

Lemma dinode_roundtrip_witness :
  get_dinode (put_dinode (replicate 1024 7) (dinode_off 5) sample_inode) (dinode_off 5) sample_inode = sample_inode.
Proof.
  apply (dinode_roundtrip (replicate 1024 7) 5 6 sample_inode sample_inode); [done| |done].
  split; cbn; unfold short, uint; try lia. split; [done|]. repeat constructor; lia.
Defined.

(** ** Path names *)

(** The reference: what lies between the slashes, without the empty pieces. *)
Fixpoint pieces (l : list Z) : list (list Z) :=
  match l with
  | [] => [[]]
  | c :: l' =>
      if c =? slash then [] :: pieces l'
      else match pieces l' with p :: ps => (c :: p) :: ps | [] => [[c]] end
  end.
Definition elements (l : list Z) : list (list Z) := filter (fun p => p <> []) (pieces l).
Definition path_elements (path : list Z) : list (list Z) := elements (cstr path).

Lemma pieces_ne l : pieces l <> [].
Proof. destruct l as [|c l]; [done|]. cbn. case_match; [done|]. by case_match. Qed.

Lemma elements_slash l : elements (slash :: l) = elements l.
Proof. unfold elements. cbn [pieces]. by rewrite Z.eqb_refl. Qed.

(** A name followed by the end or by a slash is the first element. *)
Lemma pieces_app e l :
  Forall (fun c => c <> slash) e -> l = [] \/ head l = Some slash ->
  exists ps, pieces (e ++ l) = e :: ps /\ filter (fun p => p <> []) ps = elements l.
Proof.
  intros He Hl. induction He as [|c e Hc _ IH]; cbn [app].
  - destruct Hl as [->|Hl]; [by exists []|]. destruct l as [|c l]; [done|]. injection Hl as ->.
    exists (pieces l). by rewrite elements_slash.
  - destruct IH as (ps & E & Hps). exists ps. cbn [pieces].
    apply Z.eqb_neq in Hc. by rewrite Hc, E.
Qed.

Lemma elements_app e l :
  e <> [] -> Forall (fun c => c <> slash) e -> l = [] \/ head l = Some slash ->
  elements (e ++ l) = e :: elements l.
Proof.
  intros Hne He Hl. destruct (pieces_app e l He Hl) as (ps & E & Hps).
  unfold elements at 1. rewrite E, filter_cons_True by done. by rewrite Hps.
Qed.

Lemma skip_slashes_spec path :
  path_elements (skip_slashes path) = path_elements path /\
  char0 (skip_slashes path) <> slash /\ (length (skip_slashes path) <= length path)%nat.
Proof.
  induction path as [|c path IH]; [done|]. cbn [skip_slashes].
  destruct (c =? slash) eqn:E; [|by split_and!; [|cbn; lia|]].
  apply Z.eqb_eq in E as ->. destruct IH as (H1 & H2 & H3). split_and!; [|done|cbn; lia].
  rewrite H1. unfold path_elements. cbn [cstr]. symmetry. apply elements_slash.
Qed.

Lemma span_elem_spec path e rest :
  span_elem path = (e, rest) ->
  path = e ++ rest /\ Forall (fun c => c <> slash) e /\ Forall (fun c => c <> 0) e /\
  (rest = [] \/ char0 rest = slash \/ char0 rest = 0).
Proof.
  revert e. induction path as [|c path IH]; intros e; cbn [span_elem].
  - intros [= <- <-]. by split_and!; [| | |left].
  - destruct ((c =? slash) || (c =? 0)) eqn:E.
    + intros [= <- <-]. split_and!; [done..|]. cbn. lia.
    + destruct (span_elem path) as [e' r]. intros [= <- <-].
      destruct (IH e' eq_refl) as (-> & H1 & H2 & H3). split_and!; [done|constructor; [lia|done]..|done].
Qed.

Lemma cstr_app_nonzero e l : Forall (fun c => c <> 0) e -> cstr (e ++ l) = e ++ cstr l.
Proof. induction 1 as [|c e Hc _ IH]; [done|]. cbn. apply Z.eqb_neq in Hc. by rewrite Hc, IH. Qed.

(** The directory name held by a [DIRSIZ]-byte array. *)
Definition dir_name (name : list Z) : list Z := cstr (take DIRSIZ name).

Lemma cstr_nonzero l : Forall (fun c => c <> 0) l -> cstr l = l.
Proof. intros H. rewrite <- (app_nil_r l) at 1. rewrite cstr_app_nonzero by done. apply app_nil_r. Qed.

Lemma skipelem_name name e :
  length name = DIRSIZ -> Forall (fun c => c <> 0) e ->
  let name' := if (DIRSIZ <=? length e)%nat then splice name 0 (take DIRSIZ e) else splice name 0 (e ++ [0]) in
  length name' = DIRSIZ /\ dir_name name' = take DIRSIZ e.
Proof.
  intros Hn He. cbn zeta. unfold splice, dir_name. rewrite take_0. cbn [app Nat.add].
  destruct (DIRSIZ <=? length e)%nat eqn:E.
  - rewrite length_app, length_drop, length_take. split; [lia|].
    rewrite take_app_le by (rewrite length_take; lia). rewrite take_take, Nat.min_id.
    apply cstr_nonzero. by apply Forall_take.
  - rewrite !length_app, length_drop, ?length_app. cbn [length]. split; [lia|].
    rewrite take_ge by (rewrite !length_app, length_drop, ?length_app; cbn [length]; lia).
    unfold DIRSIZ in *. rewrite <- app_assoc, cstr_app_nonzero by done. cbn. rewrite app_nil_r, take_ge by lia. done.
Qed.

(** [skipelem] finds no name exactly when the path has no element; otherwise
    the name it stores is the first element, cut to [DIRSIZ] characters, the
    path it returns has the remaining elements, does not start with a slash,
    and is shorter (so the loop of [namex] ends); the test for the last element
    is exact. *)
Theorem skipelem_splits path name :
  length name = DIRSIZ ->
  match skipelem path name with
  | None => path_elements path = []
  | Some (rest, name') =>
      exists e, path_elements path = e :: path_elements rest /\
        dir_name name' = take DIRSIZ e /\ length name' = DIRSIZ /\
        char0 rest <> slash /\ (length rest < length path)%nat /\
        (char0 rest = 0 <-> path_elements rest = [])
  end.
Proof.
  intros Hn. unfold skipelem. destruct (skip_slashes_spec path) as (H1 & H2 & H3).
  set (p := skip_slashes path) in *. rewrite <- H1. clearbody p.
  destruct (char0 p =? 0) eqn:E0.
  - unfold path_elements. rewrite cstr_char0. by rewrite E0.
  - destruct (span_elem p) as [e r] eqn:E. destruct (span_elem_spec _ _ _ E) as (-> & He & Hz & Hr).
    assert (e <> []) as Hne.
    { intros ->. cbn in H2, E0. destruct Hr as [->|[?|?]]; [done|done|lia]. }
    destruct (skip_slashes_spec r) as (R1 & R2 & R3). destruct (skipelem_name name e Hn Hz) as [N1 N2].
    exists e. rewrite R1. split_and!; [|done|done|done| |].
    + unfold path_elements. rewrite cstr_app_nonzero by done. apply elements_app; [done|done|].
      rewrite cstr_char0. destruct (char0 r =? 0) eqn:Er; [by left|right]. cbn. f_equal.
      destruct Hr as [->|[?|?]]; [done|done|lia].
    + destruct e; [done|]. rewrite length_app in H3. cbn in *. lia.
    + rewrite <- R1. unfold path_elements. rewrite cstr_char0. split.
      * by intros ->.
      * destruct (char0 (skip_slashes r) =? 0) eqn:Es; [intros _; lia|].
        unfold elements. cbn [pieces]. apply Z.eqb_neq in R2. rewrite R2.
        match goal with |- context [pieces ?l] => destruct (pieces l) end; by rewrite filter_cons_True.
Qed.

Lemma skipelem_splits_witness :
  exists e, path_elements (string_bytes "//usr/bin") = e :: path_elements (string_bytes "bin") /\ e = string_bytes "usr".
Proof.
  pose proof (skipelem_splits (string_bytes "//usr/bin") (replicate DIRSIZ 0) eq_refl) as H.
  vm_compute in H. destruct H as (e & H & H' & _). exists e. vm_compute. split; [done|congruence].
Defined.
