(* ===== verification/InodeProofs.v ===== *)
(** * The contents of files (bmap, readi, writei and iupdate of kernel/fs.c)

    The bytes of a file are those of its blocks, found through the addresses in
    the inode and in its indirect block.  [readi] returns them and [writei]
    changes them, inside a transaction. *)

From S2P Require Import Prelude Spinlock Riscv Kalloc Vm VmCopy Queue PriorityQueue KString Proc ProcProofs ProcLife FsState FsBytes Env Sleeplock Virtio World VirtioProofs Bio BioProofs Log LogSpec LogProofs TxProofs Fs BlockAlloc FsTheorems.

(** Division is only unfolded where it matters. *)
Ltac Zify.zify_post_hook ::= idtac.
Ltac zdiv := unfold BSIZE in *; Z.to_euclidean_division_equations; lia.

(** ** Blocks of a range of bytes *)

Definition nblocks (off n : Z) : Z := if n =? 0 then 0 else (off + n - 1) / BSIZE - off / BSIZE + 1.

Lemma chunk_arith off n : 0 <= off -> 0 < n -> let m := Z.min n (BSIZE - off mod BSIZE) in
  0 < m <= n /\ off mod BSIZE + m <= BSIZE /\ nblocks off n = 1 + nblocks (off + m) (n - m) /\
  off / BSIZE <= (off + m) / BSIZE /\ 0 <= off mod BSIZE < BSIZE /\ off / BSIZE <= (off + n - 1) / BSIZE.
Proof. intros Ho Hn m. unfold nblocks, m. destruct (n =? 0) eqn:E1, (n - Z.min n (BSIZE - off mod BSIZE) =? 0) eqn:E2; zdiv. Qed.
Lemma nblocks_nonneg off n : 0 <= off -> 0 <= n -> 0 <= nblocks off n.
Proof. intros. unfold nblocks. destruct (n =? 0) eqn:E; [lia|zdiv]. Qed.

(** ** The bytes of a file *)

Definition addr_at (ip : inode) (n : nat) : Z := default 0 (i_addrs ip !! n).
(** The block that holds block [bn] of the file, 0 if there is none. *)
Definition fblock (V : Z -> list Z) (ip : inode) (bn : Z) : Z :=
  if bn <? NDIRECT then addr_at ip (Z.to_nat bn)
  else if addr_at ip (Z.to_nat NDIRECT) =? 0 then 0
  else get32 (V (addr_at ip (Z.to_nat NDIRECT))) (4 * Z.to_nat (bn - NDIRECT)).

Definition file_byte (V : Z -> list Z) (ip : inode) (j : Z) : Z :=
  default 0 (V (fblock V ip (j / BSIZE)) !! Z.to_nat (j mod BSIZE)).
Definition file_slice (V : Z -> list Z) (ip : inode) (off n : Z) : list Z := file_byte V ip <$> seqZ off n.

Lemma file_slice_app V ip off n m : 0 <= n -> 0 <= m -> file_slice V ip off (n + m) = file_slice V ip off n ++ file_slice V ip (off + n) m.
Proof. intros. unfold file_slice. rewrite seqZ_app by lia. by rewrite fmap_app. Qed.
Lemma file_slice_length V ip off n : length (file_slice V ip off n) = Z.to_nat n.
Proof. unfold file_slice. by rewrite length_fmap, length_seqZ. Qed.

Lemma chunk_slice V ip off m : 0 <= off -> 0 <= m -> off mod BSIZE + m <= BSIZE ->
  length (V (fblock V ip (off / BSIZE))) = Z.to_nat BSIZE ->
  take (Z.to_nat m) (drop (Z.to_nat (off mod BSIZE)) (V (fblock V ip (off / BSIZE)))) = file_slice V ip off m.
Proof.
  intros Ho Hm Hfit Hl. apply list_eq. intros t. unfold file_slice. rewrite list_lookup_fmap.
  destruct (decide (Z.of_nat t < m)) as [Ht|Ht].
  - rewrite lookup_take_lt, lookup_drop by lia. rewrite lookup_seqZ_lt by lia. cbn [fmap option_fmap option_map]. unfold file_byte.
    assert ((off + Z.of_nat t) / BSIZE = off / BSIZE /\ Z.to_nat ((off + Z.of_nat t) mod BSIZE) = (Z.to_nat (off mod BSIZE) + t)%nat) as [-> ->]
      by zdiv.
    destruct (lookup_lt_is_Some_2 (V (fblock V ip (off / BSIZE))) (Z.to_nat (off mod BSIZE) + t)) as [v ->]; [zdiv|done].
  - rewrite lookup_take_ge by lia. rewrite lookup_seqZ_ge by lia. done.
Qed.

Section inodes.
Context {waits : Waits} {mmio : VirtioMmio} {env : st (kst fsys) -> st (kst fsys)} {i : nat} {pid0 dev : Z}.
Context {rep : fsys -> bstate -> Prop} {BL : BlockLayer env i pid0 dev rep} (start : Z).
Implicit Types (f : fsys) (x : bstate) (k : kst fsys) (P : gmap Z (list Z) -> Prop) (hs : list Z) (V : Z -> list Z) (ip : inode).
Abbreviation tx := (tx (dev := dev) (rep := rep) start).
Abbreviation kept_log := (kept_log (i := i) (pid0 := pid0)).

Lemma wp_get_inode j ip hl f k (Q : inode -> st (kst fsys) -> Prop) :
  itable f !! j = Some ip -> Q ip (mk_st hl (set_files f k)) -> wp (get_inode j) Q (mk_st hl (set_files f k)).
Proof. exact (wp_fs_deref (fun s => itable s !! j) ip hl f k Q). Qed.
Lemma wp_get_addr j ip n a hl f k (Q : Z -> st (kst fsys) -> Prop) :
  itable f !! j = Some ip -> i_addrs ip !! n = Some a -> Q a (mk_st hl (set_files f k)) -> wp (get_addr j n) Q (mk_st hl (set_files f k)).
Proof. intros Hj Ha HQ. unfold get_addr. wp_step. apply (wp_get_inode j ip); [done|]. by eapply wp_deref. Qed.

(** Block [bn] of the file exists. *)
Record mapped V ip (bn : Z) : Prop := {
  mp_addrs : length (i_addrs ip) = 13%nat;
  mp_range : 0 <= bn < MAXFILE;
  mp_block : 0 < fblock V ip bn < 2 ^ 31;
  mp_ind : NDIRECT <= bn -> 0 < addr_at ip (Z.to_nat NDIRECT) < 2 ^ 31
}.

Lemma mapped_ext V V' ip bn : (forall m, V' m = V m) -> mapped V ip bn -> mapped V' ip bn /\ fblock V' ip bn = fblock V ip bn.
Proof.
  intros E [M1 M2 M3 M4]. assert (fblock V' ip bn = fblock V ip bn) as Ef by (unfold fblock; by rewrite E).
  split; [|done]. split; try done. by rewrite Ef.
Qed.

(** *** [bmap] of a block that exists *)
Lemma wpe_bmap_mapped P f x hs j ip bn k (Q : Z -> st (kst fsys) -> Prop) :
  tx f x hs -> at_work i pid0 k -> itable f !! j = Some ip -> i_dev ip = dev -> mapped (view x) ip bn -> bH x = ∅ ->
  (length hs < NBUF)%nat -> P (bD x) ->
  (forall f' x' k', tx f' x' hs -> bH x' = ∅ -> bD x' = bD x -> (forall m, view x' m = view x m) -> kept i pid0 f k f' k' ->
     Q (fblock (view x) ip bn) (mk_st [] (set_files f' k'))) ->
  wpe env (on_medium P) (bmap j bn) Q (mk_st [] (set_files f k)).
Proof.
  intros H Hw Hj Hd [M1 M2 M3 M4] HH Hroom HP HQ. unfold bmap. wpe_step. apply wp_wpe. apply (wp_get_inode j ip); [done|].
  unfold fblock in M3, HQ. destruct (bn <? NDIRECT) eqn:E.
  - destruct (lookup_lt_is_Some_2 (i_addrs ip) (Z.to_nat bn)) as [a Ha]; [unfold NDIRECT in E; lia|].
    unfold addr_at in M3, HQ. rewrite Ha in M3, HQ. cbn [default] in M3, HQ. unfold id in M3, HQ.
    wpe_step. apply wp_wpe. apply (wp_get_addr j ip _ a); [done|done|]. rewrite (proj2 (Z.eqb_neq a 0)) by lia.
    apply wp_wpe, wp_ret. eapply HQ; [done|done|done|done|]. by apply kept_rest.
  - assert ((bn - NDIRECT <? NINDIRECT) = true) as -> by (unfold MAXFILE in M2; lia).
    destruct (lookup_lt_is_Some_2 (i_addrs ip) (Z.to_nat NDIRECT)) as [a Ha]; [rewrite M1; unfold NDIRECT; lia|].
    specialize (M4 ltac:(lia)). unfold addr_at in M3, M4, HQ. rewrite Ha in M3, M4, HQ. cbn [default] in M3, M4, HQ. unfold id in M3, M4, HQ.
    rewrite (proj2 (Z.eqb_neq a 0)) in M3, HQ by lia.
    wpe_step. apply wp_wpe. apply (wp_get_addr j ip _ a); [done|done|]. rewrite (proj2 (Z.eqb_neq a 0)) by lia.
    wpe_step. apply wp_wpe, wp_ret. rewrite (proj2 (Z.eqb_neq a 0)) by lia. rewrite Hd.
    wpe_step. eapply (tx_bread start P f x hs a); [done|done|by rewrite HH|lia|right; rewrite HH, map_size_empty; lia|done|].
    intros bp f1 x1 k1 H1 B1 D1 V1 K1. wpe_step. apply wp_wpe. eapply (tx_bdata start f1 x1 hs a bp); [done|rewrite B1; by simplify_map_eq|].
    rewrite V1, (proj2 (Z.eqb_neq (get32 (view x a) _) 0)) by lia. wpe_step. apply wp_wpe, wp_ret.
    wpe_step. apply wp_wpe. eapply (tx_brelse start f1 x1 hs a bp); [done|apply K1|rewrite B1; by simplify_map_eq|].
    intros f2 x2 H2 B2 D2 V2 K2. apply wp_wpe, wp_ret. eapply HQ; [done| |by rewrite D2|intros m; by rewrite V2|by eapply kept_trans].
    rewrite B2, B1, HH. by apply delete_insert_id.
Qed.

(** *** [readi] into kernel memory *)
Lemma readi_loop_spec fuel P f x hs j ip dst off n tot out k (Q : Z * list Z -> st (kst fsys) -> Prop) :
  tx f x hs -> at_work i pid0 k -> itable f !! j = Some ip -> i_dev ip = dev -> bH x = ∅ -> (length hs < NBUF)%nat -> P (bD x) ->
  0 <= off -> 0 <= tot <= n -> off + (n - tot) < 2 ^ 32 -> (Z.to_nat (n - tot) < fuel)%nat ->
  (forall bn, off / BSIZE <= bn -> bn * BSIZE < off + (n - tot) -> mapped (view x) ip bn) ->
  (forall f' x' k', tx f' x' hs -> bH x' = ∅ -> bD x' = bD x -> (forall m, view x' m = view x m) -> kept i pid0 f k f' k' ->
     Q (n, out ++ file_slice (view x) ip off (n - tot)) (mk_st [] (set_files f' k'))) ->
  wpe env (on_medium P) (readi_loop fuel j false dst off n tot out) Q (mk_st [] (set_files f k)).
Proof.
  revert f x k dst off tot out. induction fuel as [|fuel IH]; intros f x k dst off tot out H Hw Hj Hd HH Hroom HP Ho Htot Hov Hf Hmap HQ; [lia|].
  cbn [readi_loop]. destruct (tot <? n) eqn:E.
  2: { apply wp_wpe, wp_ret. assert (tot = n) as -> by lia. rewrite Z.sub_diag in HQ. unfold file_slice in HQ. rewrite seqZ_nil, app_nil_r in HQ by lia.
       eapply HQ; [done|done|done|done|]. by apply kept_rest. }
  pose proof (Hmap (off / BSIZE) ltac:(lia) ltac:(zdiv)) as Hm0.
  wpe_step. eapply (wpe_bmap_mapped P f x hs j ip); [done|done|done|done|done|done|done|done|]. intros f1 x1 k1 H1 B1 D1 V1 K1.
  pose proof (mp_block _ _ _ Hm0) as Hfb. rewrite (proj2 (Z.eqb_neq (fblock (view x) ip (off / BSIZE)) 0)) by lia.
  assert (itable f1 !! j = Some ip) as Hj1 by (by rewrite (sr_itable _ _ (kp_rest _ _ _ _ _ _ K1))).
  wpe_step. apply wp_wpe. apply (wp_get_inode j ip); [done|]. rewrite Hd. set (a := fblock (view x) ip (off / BSIZE)) in *.
  wpe_step. eapply (tx_bread start P f1 x1 hs a); [done|apply K1|by rewrite B1|lia|right; rewrite B1, map_size_empty; lia|by rewrite D1|].
  intros bp f2 x2 k2 H2 B2 D2 V2 K2. wpe_step. apply wp_wpe. eapply (tx_bdata start f2 x2 hs a bp); [done|rewrite B2; by simplify_map_eq|].
  rewrite V2, V1. pose proof (bl_view f x a (tx_rep _ _ _ _ H)) as Hlen. set (m := Z.min (n - tot) (BSIZE - off mod BSIZE)).
  destruct (chunk_arith off (n - tot) Ho ltac:(lia)) as (Hm & Hfit & _ & Hdiv & _). fold m in Hm, Hfit, Hdiv. clearbody m.
  wpe_step. apply wp_wpe, wp_ret. change (0 =? -1) with false. cbv iota.
  wpe_step. apply wp_wpe. eapply (tx_brelse start f2 x2 hs a bp); [done|apply K2|rewrite B2; by simplify_map_eq|].
  intros f3 x3 H3 B3 D3 V3 K3. assert (kept i pid0 f k f3 k2) as K by (eapply kept_trans; [eapply kept_trans; [exact K1|exact K2]|exact K3]).
  assert (forall m0, view x3 m0 = view x m0) as V3' by (intros m0; by rewrite V3, V2, V1).
  rewrite (u32_id (off + m)) by lia.
  eapply (IH f3 x3 k2); [done|apply K|by rewrite (sr_itable _ _ (kp_rest _ _ _ _ _ _ K))|done| |done|by rewrite D3, D2, D1|lia|lia|lia|lia| |].
  - rewrite B3, B2, B1. by apply delete_insert_id.
  - intros bn Hb1 Hb2. eapply mapped_ext; [done|]. apply Hmap; lia.
  - intros f4 x4 k4 H4 B4 D4 V4 K4. rewrite <- app_assoc.
    replace (file_slice (view x3) ip (off + m) (n - (tot + m))) with (file_slice (view x) ip (off + m) (n - (tot + m))).
    + unfold a. rewrite chunk_slice by (done || lia). rewrite <- file_slice_app by lia. replace (m + (n - (tot + m))) with (n - tot) by lia.
      eapply HQ; [done|done|by rewrite D4, D3, D2, D1|intros m0; by rewrite V4|by eapply kept_trans].
    + apply list_fmap_ext. intros t y _. unfold file_byte, fblock. by rewrite !V3'.
Qed.

Lemma wpe_readi P f x hs j ip dst off n k (Q : Z * list Z -> st (kst fsys) -> Prop) :
  tx f x hs -> at_work i pid0 k -> itable f !! j = Some ip -> i_dev ip = dev -> bH x = ∅ -> (length hs < NBUF)%nat -> P (bD x) ->
  0 <= off <= i_size ip -> 0 <= n -> off + n < 2 ^ 32 -> i_size ip <= MAXFILE * BSIZE ->
  (forall bn, off / BSIZE <= bn -> bn * BSIZE < i_size ip -> mapped (view x) ip bn) ->
  (forall f' x' k', tx f' x' hs -> bH x' = ∅ -> bD x' = bD x -> (forall m, view x' m = view x m) -> kept i pid0 f k f' k' ->
     let m := Z.min n (i_size ip - off) in
     Q (m, file_slice (view x) ip off m) (mk_st [] (set_files f' k'))) ->
  wpe env (on_medium P) (readi j false dst off n) Q (mk_st [] (set_files f k)).
Proof.
  intros H Hw Hj Hd HH Hroom HP Hoff Hn Hov Hsize Hmap HQ. unfold readi. wpe_step. apply wp_wpe. apply (wp_get_inode j ip); [done|].
  rewrite u32_id by lia. assert ((i_size ip <? off) || (off + n <? off) = false) as -> by lia. cbv iota.
  set (m := Z.min n (i_size ip - off)) in *. replace (if i_size ip <? off + n then i_size ip - off else n) with m.
  2: { unfold m. destruct (i_size ip <? off + n) eqn:E; lia. }
  wpe_step. unfold MAXFILE, NINDIRECT, NDIRECT, BSIZE in Hsize.
  eapply (readi_loop_spec _ P f x hs j ip); [done|done|done|done|done|done|done|lia|lia|lia|lia| |].
  - intros bn Hb1 Hb2. apply Hmap; [done|]. lia.
  - intros f' x' k' H' B' D' V' K'. apply wp_wpe, wp_ret. cbn [fst snd app]. rewrite Z.sub_0_r, i32_id by lia. by eapply HQ.
Qed.

(** *** [iupdate] *)

(** Everything but the log and the inode table is kept. *)
Definition kept_fs f k f' k' : Prop := kept i pid0 (set_itable (itable f') (set_lg (lg f') f)) k f' k'.
Lemma kept_fs_trans f k f1 k1 f2 k2 : kept_fs f k f1 k1 -> kept_fs f1 k1 f2 k2 -> kept_fs f k f2 k2.
Proof.
  unfold kept_fs. intros [[A1 A2 A3 A4 A5 A6] Aw Ak] B. eapply kept_trans; [|exact B]. split; [|done|done]. by split.
Qed.
Lemma kept_log_fs f k f' k' : kept_log f k f' k' -> kept_fs f k f' k' /\ itable f' = itable f.
Proof. intros [[A1 A2 A3 A4 A5 A6] Aw Ak]. split; [|done]. split; [|done|done]. by split. Qed.
Lemma set_itable_kept f k v : at_work i pid0 k -> kept_fs f k (set_itable v f) k.
Proof. intros H. apply kept_rest; [done|]. by split. Qed.
Lemma kept_fs_sb f k f' k' : kept_fs f k f' k' -> sb f' = sb f.
Proof. intros [[A1 A2 A3 A4 A5 A6] Aw Ak]. done. Qed.
Lemma kept_fs_work f k f' k' : kept_fs f k f' k' -> at_work i pid0 k'.
Proof. by intros [_ ? _]. Qed.

Definition inode_block (s0 : superblock) ip : Z := i_inum ip / IPB + sb_inodestart s0.
Record inode_home (s0 : superblock) ip : Prop := {
  ih_range : 0 <= inode_block s0 ip < 2 ^ 31;
  ih_log : ~ in_log start (inode_block s0 ip)
}.
Definition stored (s0 : superblock) V ip : Z -> list Z :=
  upd V (inode_block s0 ip) (put_dinode (V (inode_block s0 ip)) (dinode_off (i_inum ip)) ip).

Lemma wpe_iupdate P f x hs j ip k (Q : unit -> st (kst fsys) -> Prop) :
  tx f x hs -> at_work i pid0 k -> itable f !! j = Some ip -> i_dev ip = dev -> bH x = ∅ -> inode_home (sb f) ip ->
  (length hs < NBUF)%nat -> Z.of_nat (length hs) < LOGSIZE - 1 -> P (bD x) ->
  (forall f' x' k', tx f' x' (absorbed hs (inode_block (sb f) ip)) -> bH x' = ∅ -> bD x' = bD x ->
     (forall m, view x' m = stored (sb f) (view x) ip m) -> kept_log f k f' k' -> Q tt (mk_st [] (set_files f' k'))) ->
  wpe env (on_medium P) (iupdate j) Q (mk_st [] (set_files f k)).
Proof.
  intros H Hw Hj Hd HH [R1 R2] Hroom Hl HP HQ. unfold iupdate. wpe_step. apply wp_wpe, (wp_fs_gets sb).
  wpe_step. apply wp_wpe. apply (wp_get_inode j ip); [done|]. set (n := inode_block (sb f) ip) in *.
  assert (IBLOCK (i_inum ip) (sb f) = n) as -> by (unfold IBLOCK; apply u32_id; unfold n, inode_block in *; lia). rewrite Hd.
  wpe_step. eapply (tx_bread start P f x hs n); [done|done|by rewrite HH|done|right; rewrite HH, map_size_empty; lia|done|].
  intros b f1 x1 k1 H1 B1 D1 V1 K1. wpe_step. apply wp_wpe. eapply (tx_bdata start f1 x1 hs n b); [done|rewrite B1; by simplify_map_eq|].
  rewrite V1. wpe_step. apply wp_wpe. apply (wp_get_inode j ip); [by rewrite (sr_itable _ _ (kp_rest _ _ _ _ _ _ K1))|].
  eapply (tx_write start P f1 x1 hs n b); [done|apply K1|rewrite B1; by simplify_map_eq| |done|done|].
  { rewrite put_dinode_length. by eapply bl_view, tx_rep. }
  intros f2 x2 H2 B2 D2 V2 V2' K2. apply wp_wpe.
  eapply (tx_brelse start f2 x2 _ n b); [done|apply K2|rewrite B2, B1; by simplify_map_eq|]. intros f3 x3 H3 B3 D3 V3 K3.
  eapply (HQ f3 x3 k1); [done|rewrite B3, B2, B1, HH; by rewrite delete_insert_id|by rewrite D3, D2, D1| |].
  - intros m. rewrite V3. unfold stored, upd. fold n. destruct (decide (m = n)) as [->|]; [done|]. by rewrite V2', V1.
  - eapply kept_log_trans; [apply kept_kept_log; exact K1|]. eapply kept_log_trans; [exact K2|by apply kept_kept_log].
Qed.

(** *** [writei] from kernel memory, to blocks that exist *)

(** The blocks [b1] to [b2] of the file exist and belong to it alone. *)
Record data_ok V ip (b1 b2 : Z) : Prop := {
  do_mapped : forall bn, b1 <= bn <= b2 -> mapped V ip bn;
  do_own : forall bn bn', b1 <= bn <= b2 -> 0 <= bn' < MAXFILE -> fblock V ip bn' = fblock V ip bn -> bn' = bn;
  do_ind : forall bn, b1 <= bn <= b2 -> fblock V ip bn <> addr_at ip (Z.to_nat NDIRECT);
  do_log : forall bn, b1 <= bn <= b2 -> ~ in_log start (fblock V ip bn)
}.

Lemma fblock_ext V V' ip bn : V' (addr_at ip (Z.to_nat NDIRECT)) = V (addr_at ip (Z.to_nat NDIRECT)) -> fblock V' ip bn = fblock V ip bn.
Proof. intros E. unfold fblock. by rewrite E. Qed.
Lemma data_ok_ext V V' ip b1 b2 :
  V' (addr_at ip (Z.to_nat NDIRECT)) = V (addr_at ip (Z.to_nat NDIRECT)) -> data_ok V ip b1 b2 -> data_ok V' ip b1 b2.
Proof.
  intros E [D1 D2 D3 D4]. pose proof (fblock_ext V V' ip) as Ef. split.
  - intros bn Hb. destruct (D1 bn Hb). split; try done. by rewrite Ef.
  - intros bn bn' Hb Hb'. rewrite !Ef by done. by apply D2.
  - intros bn Hb. rewrite Ef by done. by apply D3.
  - intros bn Hb. rewrite Ef by done. by apply D4.
Qed.

(** The bytes [bs] have been written at [off], and nothing else. *)
Record written V ip (off : Z) (bs : list Z) V' : Prop := {
  wr_bytes : forall j, 0 <= j < MAXFILE * BSIZE ->
    file_byte V' ip j = if (off <=? j) && (j <? off + Z.of_nat (length bs)) then default 0 (bs !! Z.to_nat (j - off)) else file_byte V ip j;
  wr_ind : V' (addr_at ip (Z.to_nat NDIRECT)) = V (addr_at ip (Z.to_nat NDIRECT));
  wr_rest : forall m, (forall j, off <= j < off + Z.of_nat (length bs) -> m <> fblock V ip (j / BSIZE)) -> V' m = V m
}.

Lemma written_nil V V' ip off : (forall m, V' m = V m) -> written V ip off [] V'.
Proof.
  intros E. split; [|done|done]. intros j Hj. assert ((off <=? j) && (j <? off + Z.of_nat (length (@nil Z))) = false) as -> by (cbn; lia).
  unfold file_byte, fblock. by rewrite !E.
Qed.

Lemma written_app V ip off bs V1 bs' V2 : 0 <= off ->
  written V ip off bs V1 -> written V1 ip (off + Z.of_nat (length bs)) bs' V2 -> written V ip off (bs ++ bs') V2.
Proof.
  intros Ho [W1 W2 W3] [X1 X2 X3]. split; [|by rewrite X2|].
  - intros j Hj. rewrite X1, W1 by done. rewrite length_app.
    destruct (decide (off <= j < off + Z.of_nat (length bs))) as [Hin|Hout].
    + assert ((off + Z.of_nat (length bs) <=? j) && (j <? off + Z.of_nat (length bs) + Z.of_nat (length bs')) = false) as -> by lia.
      assert ((off <=? j) && (j <? off + Z.of_nat (length bs)) = true) as -> by lia.
      assert ((off <=? j) && (j <? off + Z.of_nat (length bs + length bs')) = true) as -> by lia.
      rewrite lookup_app_l by lia. done.
    + destruct (decide (off + Z.of_nat (length bs) <= j < off + Z.of_nat (length bs) + Z.of_nat (length bs'))) as [Hin2|Hout2].
      * assert ((off + Z.of_nat (length bs) <=? j) && (j <? off + Z.of_nat (length bs) + Z.of_nat (length bs')) = true) as -> by lia.
        assert ((off <=? j) && (j <? off + Z.of_nat (length bs + length bs')) = true) as -> by lia.
        rewrite lookup_app_r by lia. do 2 f_equal. lia.
      * assert ((off + Z.of_nat (length bs) <=? j) && (j <? off + Z.of_nat (length bs) + Z.of_nat (length bs')) = false) as -> by lia.
        assert ((off <=? j) && (j <? off + Z.of_nat (length bs)) = false) as -> by lia.
        assert ((off <=? j) && (j <? off + Z.of_nat (length bs + length bs')) = false) as -> by lia. done.
  - intros m Hm. rewrite X3, W3; [done| |].
    + intros j Hj. apply Hm. rewrite length_app. lia.
    + intros j Hj. rewrite (fblock_ext V V1) by done. apply Hm. rewrite length_app. lia.
Qed.

(** One block written. *)
Lemma written_chunk V V' ip off bs b1 b2 :
  data_ok V ip b1 b2 -> 0 <= off -> b1 <= off / BSIZE <= b2 -> off mod BSIZE + Z.of_nat (length bs) <= BSIZE ->
  (forall m, length (V m) = Z.to_nat BSIZE) ->
  let a := fblock V ip (off / BSIZE) in
  V' a = splice (V a) (Z.to_nat (off mod BSIZE)) bs -> (forall m, m <> a -> V' m = V m) -> (0 < length bs)%nat -> written V ip off bs V'.
Proof.
  intros Hd Ho Hb Hfit Hlen a Ha Hm Hpos.
  assert (V' (addr_at ip (Z.to_nat NDIRECT)) = V (addr_at ip (Z.to_nat NDIRECT))) as Ei.
  { apply Hm. intros E. symmetry in E. by apply (do_ind _ _ _ _ Hd (off / BSIZE)) in E. }
  split; [|done|].
  - intros j Hj. unfold file_byte at 1. rewrite (fblock_ext V V') by done.
    destruct (decide (j / BSIZE = off / BSIZE)) as [Ej|Ej].
    + rewrite Ej. fold a. rewrite Ha, splice_lookup by (rewrite Hlen; zdiv).
      destruct (decide (Z.to_nat (off mod BSIZE) <= Z.to_nat (j mod BSIZE) < Z.to_nat (off mod BSIZE) + length bs)%nat) as [Hin|Hout].
      * assert ((off <=? j) && (j <? off + Z.of_nat (length bs)) = true) as -> by zdiv. do 2 f_equal. zdiv.
      * assert ((off <=? j) && (j <? off + Z.of_nat (length bs)) = false) as -> by zdiv.
        unfold file_byte. rewrite Ej. done.
    + assert ((off <=? j) && (j <? off + Z.of_nat (length bs)) = false) as -> by zdiv.
      unfold file_byte. rewrite Hm; [done|]. intros E. apply Ej. apply (do_own _ _ _ _ Hd); [done|zdiv|done].
  - intros m Hmm. apply Hm. unfold a. apply (Hmm off). lia.
Qed.

Lemma writei_loop_spec fuel P f x hs j ip off n tot bs b1 b2 k (Q : Z * Z -> st (kst fsys) -> Prop) :
  tx f x hs -> at_work i pid0 k -> itable f !! j = Some ip -> i_dev ip = dev -> bH x = ∅ -> P (bD x) ->
  0 <= off -> 0 <= tot <= n -> Z.of_nat (length bs) = n - tot -> off + (n - tot) < 2 ^ 32 -> (Z.to_nat (n - tot) < fuel)%nat ->
  data_ok (view x) ip b1 b2 -> b1 <= off / BSIZE -> (0 < n - tot -> (off + (n - tot) - 1) / BSIZE <= b2) ->
  Z.of_nat (length hs) + nblocks off (n - tot) < LOGSIZE ->
  (forall f' x' hs' k', tx f' x' hs' -> bH x' = ∅ -> bD x' = bD x -> written (view x) ip off bs (view x') ->
     Z.of_nat (length hs') <= Z.of_nat (length hs) + nblocks off (n - tot) -> kept_log f k f' k' ->
     Q (n, off + (n - tot)) (mk_st [] (set_files f' k'))) ->
  wpe env (on_medium P) (writei_loop fuel j (SrcKernel bs) off n tot) Q (mk_st [] (set_files f k)).
Proof.
  revert f x hs k off tot bs. induction fuel as [|fuel IH]; intros f x hs k off tot bs H Hw Hj Hd HH HP Ho Htot Hbs Hov Hf Hok Hb1 Hb2 Hl HQ; [lia|].
  cbn [writei_loop]. destruct (tot <? n) eqn:E.
  2: { apply wp_wpe, wp_ret. assert (tot = n) as -> by lia. assert (bs = []) as -> by (apply nil_length_inv; lia).
       rewrite Z.sub_diag, (Z.add_0_r off) in HQ. eapply HQ; [done|done|done|by apply written_nil|unfold nblocks; cbn; lia|]. by apply kept_kept_log, kept_rest. }
  destruct (chunk_arith off (n - tot) Ho ltac:(lia)) as (Hm & Hfit & Hnb & Hdiv & Hmod & Hlast). specialize (Hb2 ltac:(lia)).
  set (m := Z.min (n - tot) (BSIZE - off mod BSIZE)) in *. clearbody m.
  pose proof (nblocks_nonneg (off + m) (n - tot - m) ltac:(lia) ltac:(lia)) as Hnn.
  assert (b1 <= off / BSIZE <= b2) as Hb by lia.
  pose proof (do_mapped _ _ _ _ Hok _ Hb) as Hm0. pose proof (mp_block _ _ _ Hm0) as Hfb.
  assert (length hs < NBUF)%nat as Hroom by (unfold LOGSIZE, MAXOPBLOCKS, NBUF in *; lia).
  wpe_step. eapply (wpe_bmap_mapped P f x hs j ip); [done|done|done|done|done|done|done|done|]. intros f1 x1 k1 H1 B1 D1 V1 K1.
  rewrite (proj2 (Z.eqb_neq (fblock (view x) ip (off / BSIZE)) 0)) by lia.
  assert (itable f1 !! j = Some ip) as Hj1 by (by rewrite (sr_itable _ _ (kp_rest _ _ _ _ _ _ K1))).
  wpe_step. apply wp_wpe. apply (wp_get_inode j ip); [done|]. rewrite Hd. set (a := fblock (view x) ip (off / BSIZE)) in *.
  wpe_step. eapply (tx_bread start P f1 x1 hs a); [done|apply K1|by rewrite B1|lia|right; rewrite B1, map_size_empty; lia|by rewrite D1|].
  intros bp f2 x2 k2 H2 B2 D2 V2 K2.
  wpe_step. apply wp_wpe, wp_ret. cbn [fst snd]. change (0 =? -1) with false. cbv iota.
  wpe_step. apply wp_wpe. eapply (tx_bdata start f2 x2 hs a bp); [done|rewrite B2; by simplify_map_eq|]. rewrite V2, V1.
  set (c := take (Z.to_nat m) bs). assert (length c = Z.to_nat m) as Hlc by (unfold c; rewrite length_take; clear -Hbs Hm; lia).
  assert (forall b, length (view x b) = Z.to_nat BSIZE) as Hlen by (intros b; by eapply bl_view, tx_rep).
  eapply (tx_write start P f2 x2 hs a bp); [done|apply K2|rewrite B2; by simplify_map_eq| |by apply (do_log _ _ _ _ Hok)|clear -Hl Hnb Hnn; lia|].
  { rewrite splice_length; [apply Hlen|]. rewrite Hlen, Hlc. clear -Hm Hfit Hmod. lia. }
  intros f3 x3 H3 B3 D3 V3 V3' K3. wpe_step. apply wp_wpe.
  eapply (tx_brelse start f3 x3 _ a bp); [done|apply K3|rewrite B3, B2; by simplify_map_eq|]. intros f4 x4 H4 B4 D4 V4 K4.
  assert (written (view x) ip off c (view x4)) as Hwr.
  { apply (written_chunk (view x) (view x4) ip off c b1 b2); [done|done|done|rewrite Hlc; clear -Hm Hfit; lia|done| | |rewrite Hlc; clear -Hm; lia].
    - rewrite V4. exact V3.
    - intros b Hne. rewrite V4, V3' by done. by rewrite V2, V1. }
  assert (kept_log f k f4 k2) as K.
  { eapply kept_log_trans; [apply kept_kept_log; eapply kept_trans; [exact K1|exact K2]|]. eapply kept_log_trans; [exact K3|by apply kept_kept_log]. }
  pose proof (absorbed_length hs a) as Hal. rewrite (u32_id (off + m)) by (clear -Hm Hov Ho; lia). cbn [src_skip].
  assert (n - (tot + m) = n - tot - m) as En by (clear; lia). assert (off + m + (n - tot - m) = off + (n - tot)) as Eo by (clear; lia).
  eapply (IH f4 x4 (absorbed hs a) k2); rewrite ?En, ?Eo; [done|apply K|by rewrite (proj2 (kept_log_fs _ _ _ _ K))|done| |by rewrite D4, D3, D2, D1|clear -Hm Ho; lia|clear -Hm Htot; lia| |done|clear -Hm Hf; lia| |clear -Hdiv Hb1; lia|done|clear -Hl Hnb Hal; lia|].
  - rewrite B4, B3, B2, B1. by apply delete_insert_id.
  - rewrite length_drop. clear -Hbs Hm. lia.
  - eapply data_ok_ext; [apply Hwr|done].
  - intros f5 x5 hs5 k5 H5 B5 D5 W5 L5 K5.
    eapply HQ; [done|done|by rewrite D5, D4, D3, D2, D1| |clear -L5 Hnb Hal; lia|by eapply kept_log_trans].
    rewrite <- (take_drop (Z.to_nat m) bs). fold c. eapply written_app; [done|exact Hwr|].
    replace (off + Z.of_nat (length c)) with (off + m) by (rewrite Hlc; clear -Hm; lia). exact W5.
Qed.

(** The inode's own block is none of the file's. *)
Record inode_apart (s0 : superblock) V ip : Prop := {
  ia_data : forall bn, 0 <= bn < MAXFILE -> fblock V ip bn <> inode_block s0 ip;
  ia_ind : addr_at ip (Z.to_nat NDIRECT) <> inode_block s0 ip
}.
Lemma stored_bytes s0 V ip t : inode_apart s0 V ip -> 0 <= t < MAXFILE * BSIZE -> file_byte (stored s0 V ip) ip t = file_byte V ip t.
Proof.
  intros [A1 A2] Ht. unfold file_byte, stored. rewrite (fblock_ext V) by (unfold upd; by rewrite decide_False).
  unfold upd. rewrite decide_False; [done|]. apply A1. zdiv.
Qed.

(** The inode with the size [writei] leaves. *)
Definition grown ip (off : Z) : inode := if i_size ip <? off then set_i_size off ip else ip.
Lemma grown_fields ip off : i_addrs (grown ip off) = i_addrs ip /\ i_inum (grown ip off) = i_inum ip /\ i_dev (grown ip off) = i_dev ip /\
  i_size (grown ip off) = Z.max (i_size ip) off.
Proof. unfold grown. destruct (i_size ip <? off) eqn:E; cbn; split_and!; try done; lia. Qed.
Lemma grown_bytes V ip off t : file_byte V (grown ip off) t = file_byte V ip t.
Proof. unfold file_byte, fblock, addr_at. by rewrite (proj1 (grown_fields ip off)). Qed.

Lemma tx_frame_itable f x hs v : tx f x hs -> tx (set_itable v f) x hs.
Proof. intros [H1 H2 H3 H4 H5 H6 H7]. split; try done. by apply bl_frame_itable. Qed.

Lemma wpe_writei P f x hs j ip bs off k (Q : Z -> st (kst fsys) -> Prop) :
  let n := Z.of_nat (length bs) in
  tx f x hs -> at_work i pid0 k -> itable f !! j = Some ip -> i_dev ip = dev -> bH x = ∅ -> P (bD x) ->
  0 <= off <= i_size ip -> off + n <= MAXFILE * BSIZE ->
  data_ok (view x) ip (off / BSIZE) ((off + n - 1) / BSIZE) -> inode_home (sb f) ip ->
  Z.of_nat (length hs) + nblocks off n + 1 < LOGSIZE ->
  (forall f' x' hs' k' V', tx f' x' hs' -> bH x' = ∅ -> bD x' = bD x -> written (view x) ip off bs V' ->
     (forall m, view x' m = stored (sb f) V' (grown ip (off + n)) m) -> itable f' = <[j := grown ip (off + n)]> (itable f) ->
     Z.of_nat (length hs') <= Z.of_nat (length hs) + nblocks off n + 1 -> kept_fs f k f' k' -> Q n (mk_st [] (set_files f' k'))) ->
  wpe env (on_medium P) (writei j (SrcKernel bs) off n) Q (mk_st [] (set_files f k)).
Proof.
  intros n H Hw Hj Hd HH HP Hoff Hmax Hok Hhome Hl HQ. pose proof (nblocks_nonneg off n ltac:(lia) ltac:(lia)) as Hnn.
  assert (0 <= n /\ off + n < 2 ^ 31) as [Hn Hov] by (unfold MAXFILE, NINDIRECT, NDIRECT, BSIZE in Hmax; lia).
  unfold writei. wpe_step. apply wp_wpe. apply (wp_get_inode j ip); [done|]. rewrite u32_id by lia.
  assert ((i_size ip <? off) || (off + n <? off) = false) as -> by lia. assert ((MAXFILE * BSIZE <? off + n) = false) as -> by lia. cbv iota.
  wpe_step. eapply (writei_loop_spec _ P f x hs j ip off n 0 bs); [done..|lia|lia|lia|lia|lia|exact Hok|lia|rewrite Z.sub_0_r; lia|rewrite Z.sub_0_r; lia|].
  rewrite !Z.sub_0_r. intros f1 x1 hs1 k1 H1 B1 D1 W1 L1 K1. cbv beta iota. destruct (kept_log_fs _ _ _ _ K1) as [K1' Eit].
  pose proof (kept_fs_sb _ _ _ _ K1') as Esb.
  assert (itable f1 !! j = Some ip) as Hj1 by (by rewrite Eit). wpe_step. apply wp_wpe. apply (wp_get_inode j ip); [done|].
  set (ip' := grown ip (off + n)). destruct (grown_fields ip (off + n)) as (G1 & G2 & G3 & G4). fold ip' in G1, G2, G3, G4.
  wpe_step. apply wp_wpe. assert (wp (when (i_size ip <? off + n) (upd_inode j (set_i_size (off + n))))
    (fun _ s => s = mk_st [] (set_files (set_itable (<[j := ip']> (itable f1)) f1) k1)) (mk_st [] (set_files f1 k1))) as Hwhen.
  { unfold ip', grown. destruct (i_size ip <? off + n); cbn [when].
    - apply wp_fs_modify. by rewrite (alter_insert _ _ _ ip).
    - apply wp_ret. rewrite list_insert_id by done. by destruct f1. }
  eapply wp_mono; [exact Hwhen|]. intros _ s ->. set (f2 := set_itable _ f1). pose proof (tx_frame_itable f1 x1 hs1 (<[j := ip']> (itable f1)) H1 : tx f2 x1 hs1) as H2.
  assert (inode_block (sb f2) ip' = inode_block (sb f) ip) as Eib by (unfold inode_block; rewrite G2; change (sb f2) with (sb f1); by rewrite Esb).
  wpe_step. eapply (wpe_iupdate P f2 x1 hs1 j ip'); [done|apply K1| |by rewrite G3|done| |unfold NBUF, LOGSIZE, MAXOPBLOCKS in *; lia|lia|by rewrite D1|].
  { apply list_lookup_insert_eq. by eapply lookup_lt_Some. }
  { destruct Hhome. split; rewrite Eib; done. }
  intros f3 x3 k3 H3 B3 D3 V3 K3. destruct (kept_log_fs _ _ _ _ K3) as [K3' Eit3]. apply wp_wpe, wp_ret.
  rewrite i32_id by lia. pose proof (absorbed_length hs1 (inode_block (sb f2) ip')) as Hal.
  eapply (HQ f3 x3 _ k3 (view x1)); [exact H3|done|by rewrite D3|done| | |lia|].
  - intros m. rewrite V3. change (sb f2) with (sb f1). by rewrite Esb.
  - rewrite Eit3. change (itable f2) with (<[j := ip']> (itable f1)). by rewrite Eit.
  - eapply kept_fs_trans; [exact K1'|]. eapply kept_fs_trans; [apply (set_itable_kept f1 k1), K1|done].
Qed.
End inodes.
