(* ===== verification/InodeTheorems.v ===== *)
(** * What the file system guarantees inside a transaction

    Allocation of blocks and reading and writing of files, over the buffer
    cache, the disk driver and the device; nothing of it reaches the disk
    before the transaction ends. *)

From S2P Require Import Prelude Spinlock Riscv Kalloc Vm VmCopy Queue PriorityQueue KString Proc ProcProofs ProcLife FsState FsBytes Env Sleeplock Virtio World VirtioProofs Bio Lru BioProofs Log LogSpec LogProofs FsBoot FsExample LogTheorems TxProofs Fs BlockAlloc FsTheorems InodeProofs.

Ltac Zify.zify_post_hook ::= idtac.

Section theorems.
Context {waits : Waits} {mmio : VirtioMmio}.
Context {device : fsys -> fsys} {back : st (kst fsys) -> st (kst fsys)} {Hdev : DiskDevice device} {Hback : Scheduler back}.
Context (dev pid0 : Z) (i : nat) (start : Z).
Implicit Types (f : fsys) (x : bstate) (k : kst fsys) (hs : list Z) (V : Z -> list Z).
Abbreviation env := (disk_env device back).
Abbreviation tx := (tx (dev := dev) (rep := cache_rep dev pid0) start).
Abbreviation bl := (cache_layer device back i pid0 dev).

(** The medium is [m] in every state a crash may find. *)
Definition nothing_written {A} (o : outcome (kst fsys) A) (m : gmap Z (list Z)) : Prop :=
  forall y, crash_point env o y -> disk_of y = m.

Lemma wpe_nothing_written {A} (p : K A) (Q : A -> st (kst fsys) -> Prop) m s :
  wpe env (on_medium (fun d => d = m)) p Q s -> nothing_written (p s) m /\ exists a s', settle env (p s) = Ret a s' /\ Q a s'.
Proof. intros H. split; [intros y Hy; by apply (wpe_crash_point env _ _ _ _ _ H)|by eapply wpe_settle]. Qed.

(** C25: [balloc] gives out the first block that the map says is free, and makes
    exactly that block used and zero; when every block is in use it says so,
    returns 0 and changes nothing.  The map stays well formed, the buffers held
    by the caller are still held, and nothing reaches the disk. *)
Theorem balloc_takes_first_free f x hs k :
  tx f x hs -> at_work i pid0 k -> map_layout (dev := dev) start (sb f) (view x) ->
  (forall n b, bH x !! n = Some b -> used (sb f) (view x) n = true /\ forall c, 0 <= c < sb_size (sb f) -> n <> map_block (sb f) c) ->
  (length hs + size (bH x) + 1 < NBUF)%nat -> Z.of_nat (length hs) < LOGSIZE - 2 ->
  let s := mk_st [] (set_files f k) in
  nothing_written (balloc dev s) (bD x) /\
  exists r f' x' hs' k', settle env (balloc dev s) = Ret r (mk_st [] (set_files f' k')) /\ tx f' x' hs' /\ bH x' = bH x /\ bD x' = bD x /\
    map_layout (dev := dev) start (sb f) (view x') /\
    ((0 <= r < sb_size (sb f) /\ used (sb f) (view x) r = false /\ (forall b, 0 <= b < r -> used (sb f) (view x) b = true) /\
      view x' r = zero_block /\ (forall b, 0 <= b < sb_size (sb f) -> used (sb f) (view x') b = if decide (b = r) then true else used (sb f) (view x) b) /\
      (forall m, m <> r -> m <> map_block (sb f) r -> view x' m = view x m)) \/
     (r = 0 /\ (forall b, 0 <= b < sb_size (sb f) -> used (sb f) (view x) b = true) /\ forall m, view x' m = view x m)).
Proof.
  intros H Hw HM Hheld Hroom Hl s.
  destruct (wpe_nothing_written (balloc dev) (fun r s' => exists f' x' hs' k', s' = mk_st [] (set_files f' k') /\
    tx f' x' hs' /\ alloc_post (i := i) (pid0 := pid0) (sb f) f x hs k r f' x' hs' k') (bD x) s) as [Hno (r & s' & E & f' & x' & hs' & k' & -> & H' & HB & HD & Hpost)].
  { eapply (wpe_balloc (BL := bl) start (sb f) _ f x hs k); [done..|]. intros r f' x' hs' k' H' Hp. by exists f', x', hs', k'. }
  split; [done|]. exists r, f', x', hs', k'. split_and!; try done.
  - destruct Hpost as [(Hr & Hu & _ & _ & V' & _)|(_ & _ & _ & V' & _)]; (eapply map_layout_ext; [exact V'|]); [|done].
    by eapply taken_layout.
  - destruct Hpost as [(Hr & Hu & Hb & _ & V' & _)|(-> & Hall & _ & V' & _)]; [left|right; done].
    assert (forall b, used (sb f) (view x') b = used (sb f) (taken (sb f) (view x) r) b) as Ev by (intros b; unfold used; by rewrite V').
    split_and!; [lia|lia|done|done| | |].
    + rewrite V'. unfold taken, upd. by rewrite decide_True.
    + intros b Hb'. rewrite Ev. by eapply taken_used.
    + intros m Hm1 Hm2. rewrite V'. unfold taken, upd. by rewrite !decide_False.
Qed.

(** [bfree] of a used block makes exactly that block free again, so that it
    undoes an allocation on the map; nothing else changes and nothing reaches
    the disk. *)
Theorem bfree_releases f x hs k b :
  tx f x hs -> at_work i pid0 k -> map_layout (dev := dev) start (sb f) (view x) ->
  0 <= b < sb_size (sb f) -> used (sb f) (view x) b = true -> bH x !! map_block (sb f) b = None ->
  (length hs + size (bH x) < NBUF)%nat -> Z.of_nat (length hs) < LOGSIZE - 1 ->
  let s := mk_st [] (set_files f k) in
  nothing_written (bfree dev b s) (bD x) /\
  exists f' x' hs' k', settle env (bfree dev b s) = Ret tt (mk_st [] (set_files f' k')) /\ tx f' x' hs' /\ bH x' = bH x /\ bD x' = bD x /\
    (forall c, 0 <= c < sb_size (sb f) -> used (sb f) (view x') c = if decide (c = b) then false else used (sb f) (view x) c) /\
    (forall m, m <> map_block (sb f) b -> view x' m = view x m).
Proof.
  intros H Hw HM Hb Hu Hh Hroom Hl s.
  destruct (wpe_nothing_written (bfree dev b) (fun _ s' => exists f' x' hs' k', s' = mk_st [] (set_files f' k') /\
    tx f' x' hs' /\ bH x' = bH x /\ bD x' = bD x /\ forall m, view x' m = freed (sb f) (view x) b m) (bD x) s)
    as [Hno ([] & s' & E & f' & x' & hs' & k' & -> & H' & HB & HD & V')].
  { eapply (wpe_bfree (BL := bl) start (sb f) _ f x hs b k); [done..|]. intros f' x' k' H' HB HD HV _. by exists f', x', (absorbed hs (map_block (sb f) b)), k'. }
  split; [done|]. exists f', x', hs', k'. split_and!; try done.
  - intros c Hc. rewrite <- (freed_used (dev := dev) start (sb f) (view x) b c HM Hb Hc). unfold used. by rewrite V'.
  - intros m Hm. rewrite V'. unfold freed, upd. by rewrite decide_False.
Qed.

Lemma mapped_moved V V' ip ip' bn : i_addrs ip' = i_addrs ip ->
  V' (addr_at ip (Z.to_nat NDIRECT)) = V (addr_at ip (Z.to_nat NDIRECT)) -> mapped V ip bn -> mapped V' ip' bn.
Proof.
  intros Ea Ei [M1 M2 M3 M4]. assert (forall n, addr_at ip' n = addr_at ip n) as En by (intros n; unfold addr_at; by rewrite Ea).
  split; [by rewrite Ea|done| |by rewrite En]. unfold fblock in *. by rewrite !En, Ei.
Qed.

Lemma file_slice_bytes V ip off bs :
  (forall t, off <= t < off + Z.of_nat (length bs) -> file_byte V ip t = default 0 (bs !! Z.to_nat (t - off))) ->
  file_slice V ip off (Z.of_nat (length bs)) = bs.
Proof.
  intros H. apply list_eq. intros t. unfold file_slice. rewrite list_lookup_fmap. destruct (decide (t < length bs)%nat) as [Ht|Ht].
  - destruct (lookup_lt_is_Some_2 _ _ Ht) as [b Hb]. rewrite lookup_seqZ_lt by lia. cbn [fmap option_fmap option_map].
    rewrite H by lia. replace (Z.to_nat (off + Z.of_nat t - off)) with t by lia. by rewrite Hb.
  - rewrite lookup_seqZ_ge, lookup_ge_None_2 by lia. done.
Qed.

(** What the file holds once [iupdate] has stored the inode as well. *)
Lemma written_stored s0 V V1 V' ip off bs t : let n := Z.of_nat (length bs) in
  written V ip off bs V1 -> inode_apart s0 V ip -> (forall m, V' m = stored s0 V1 (grown ip (off + n)) m) -> 0 <= t < MAXFILE * BSIZE ->
  file_byte V' (grown ip (off + n)) t = if (off <=? t) && (t <? off + n) then default 0 (bs !! Z.to_nat (t - off)) else file_byte V ip t.
Proof.
  intros n W [A1 A2] E Ht. destruct (grown_fields ip (off + n)) as (G1 & G2 & G3 & G4). unfold n. rewrite <- (wr_bytes _ _ _ _ _ W t Ht).
  transitivity (file_byte (stored s0 V1 (grown ip (off + n))) (grown ip (off + n)) t); [unfold file_byte, fblock; by rewrite !E|].
  rewrite stored_bytes; [apply grown_bytes| |done].
  assert (forall bn, fblock V1 (grown ip (off + n)) bn = fblock V ip bn) as Ef.
  { intros bn. unfold fblock, addr_at. rewrite G1. fold (addr_at ip (Z.to_nat NDIRECT)). by rewrite (wr_ind _ _ _ _ _ W). }
  split; unfold inode_block; rewrite G2; [intros bn; rewrite Ef; apply A1|]. unfold addr_at. rewrite G1. apply A2.
Qed.

End theorems.

(** ** Examples: the machine in the middle of a transaction that has given block
    100 new contents *)

Abbreviation x1 := (mk_bst medium0 {[100 := (1%nat, ones)]} ∅).
Abbreviation tx1 := (tx (dev := ROOT) (rep := cache_rep ROOT 1) 2).

Lemma x1_block n : block_of x1 n = if decide (n = 100) then (1%nat, ones) else (0%nat, blk medium0 n).
Proof.
  unfold block_of. cbn [bR bD]. destruct (decide (n = 100)) as [-> |Hn]; [by rewrite lookup_singleton_eq|]. by rewrite lookup_singleton_ne by done.
Qed.
Lemma x1_view n : view x1 n = if decide (n = 100) then ones else blk medium0 n.
Proof. unfold view. rewrite x1_block. by destruct (decide (n = 100)). Qed.

Lemma mid_tx f k : mid_transaction f k -> tx1 f x1 [100].
Proof.
  intros [H1 H2 H3 H4 H5 H6 H7]. split; [done|done|apply log_ok_100|done|by rewrite H4| |].
  - intros n. rewrite x1_block. unfold pins, holds. cbn [bH]. rewrite lookup_empty.
    destruct (decide (n = 100)) as [-> |Hn]; [by rewrite decide_True by by left|]. rewrite decide_False; [done|]. by rewrite list_elem_of_singleton.
  - intros n Hn. rewrite x1_view. rewrite list_elem_of_singleton in Hn. by rewrite decide_False.
Qed.

Lemma x1_used b : 0 <= b < 2000 -> used sb0 (view x1) b = (b <? 104).
Proof.
  intros Hb. assert (map_block sb0 b = 45) as E by (unfold map_block, sb0, BPB, BSIZE; cbn [sb_bmapstart]; Z.to_euclidean_division_equations; lia).
  unfold used. rewrite E, x1_view, decide_False by done.
  assert (forall c, c ∈ seqZ 0 2000 -> bit (blk medium0 45) (c mod BPB) = (c <? 104)) as H; [|apply H, elem_of_seqZ; lia].
  apply Forall_forall, (bool_decide_unpack _). vm_compute. exact I.
Qed.

Lemma x1_layout : map_layout (dev := ROOT) 2 sb0 (view x1).
Proof.
  assert (forall c, 0 <= c < 2000 -> map_block sb0 c = 45) as E.
  { intros c Hc. unfold map_block, sb0, BPB, BSIZE; cbn [sb_bmapstart]; Z.to_euclidean_division_equations; lia. }
  split; [done|done|done| | |]; change (sb_size sb0) with 2000.
  - intros b. rewrite x1_view. destruct (decide (b = 100)); [done|]. unfold blk. destruct (medium0 !! b) as [d|] eqn:Ed; [by eapply medium0_blocks|done].
  - intros b Hb. rewrite E by done. unfold in_log, LOGSIZE, MAXOPBLOCKS. lia.
  - intros b Hb Hcase. rewrite x1_used by done. destruct Hcase as [Hl|(c & Hc & ->)]; [|by rewrite E].
    unfold in_log, LOGSIZE, MAXOPBLOCKS in Hl. lia.
Qed.

Lemma balloc_takes_first_free_witness :
  exists f' x' hs' k', settle sample_env (balloc ROOT state1) = Ret 104 (mk_st [] (set_files f' k')) /\ tx1 f' x' hs' /\
    view x' 104 = zero_block /\ used sb0 (view x') 104 = true.
Proof.
  destruct state1_spec as (f & k & E & Hm). rewrite E. pose proof (mid_tx f k Hm) as H. destruct Hm as [_ Hw _ _ _ _ [_ Hsb]].
  pose proof (balloc_takes_first_free (device := sample_device) (back := sample_back) ROOT 1 0 2 f x1 [100] k H Hw) as T.
  rewrite Hsb in T. change (sb_size sb0) with 2000 in T. destruct T as (_ & r & f' & x' & hs' & k' & Er & H' & _ & _ & _ & Hp).
  - apply x1_layout.
  - intros n b Hn. cbn [bH] in Hn. by rewrite lookup_empty in Hn.
  - cbn [bH]. rewrite map_size_empty. unfold NBUF. cbn. lia.
  - unfold LOGSIZE, MAXOPBLOCKS. cbn. lia.
  - destruct Hp as [(Hr & Hu & Hb & Hz & Hup & _)|(_ & Hall & _)]; [|specialize (Hall 104 ltac:(lia)); by rewrite x1_used in Hall].
    assert (r = 104) as ->.
    { rewrite x1_used in Hu by lia. destruct (decide (104 < r)) as [Hlt|]; [|lia]. specialize (Hb 104 ltac:(lia)). by rewrite x1_used in Hb. }
    exists f', x', hs', k'. split_and!; [exact Er|exact H'|exact Hz|]. by rewrite Hup, decide_True.
Defined.

Lemma bfree_releases_witness :
  exists f' x' hs' k', settle sample_env (bfree ROOT 103 state1) = Ret tt (mk_st [] (set_files f' k')) /\ tx1 f' x' hs' /\
    used sb0 (view x') 103 = false /\ used sb0 (view x') 102 = true.
Proof.
  destruct state1_spec as (f & k & E & Hm). rewrite E. pose proof (mid_tx f k Hm) as H. destruct Hm as [_ Hw _ _ _ _ [_ Hsb]].
  pose proof (bfree_releases (device := sample_device) (back := sample_back) ROOT 1 0 2 f x1 [100] k 103 H Hw) as T.
  rewrite Hsb in T. change (sb_size sb0) with 2000 in T. destruct T as (_ & f' & x' & hs' & k' & Er & H' & _ & _ & Hu & _).
  - apply x1_layout.
  - lia.
  - rewrite x1_used by lia. reflexivity.
  - cbn [bH]. rewrite lookup_empty. reflexivity.
  - cbn [bH]. rewrite map_size_empty. unfold NBUF. cbn. lia.
  - unfold LOGSIZE, MAXOPBLOCKS. cbn. lia.
  - exists f', x', hs', k'. split_and!; [exact Er|exact H'| |].
    + rewrite Hu by lia. by rewrite decide_True.
    + rewrite Hu by lia. rewrite decide_False by lia. rewrite x1_used by lia. reflexivity.
Defined.

Lemma inode1_block V bn : 0 <= bn -> fblock V inode1 bn = if bn =? 0 then 100 else 0.
Proof.
  intros Hb. unfold fblock. change (addr_at inode1 (Z.to_nat NDIRECT)) with 0. cbn [Z.eqb].
  destruct (bn <? NDIRECT) eqn:E; [|destruct (bn =? 0) eqn:E0; [unfold NDIRECT in E; lia|done]].
  unfold addr_at, inode1. cbn [i_addrs]. destruct (Z.to_nat bn) as [|n] eqn:En.
  - assert ((bn =? 0) = true) as -> by lia. done.
  - assert ((bn =? 0) = false) as -> by lia. cbn [lookup list_lookup]. destruct (replicate 12 0 !! n) as [v|] eqn:Ev; [|done].
    apply lookup_replicate in Ev as [-> _]. done.
Qed.

Lemma inode1_mapped V : mapped V inode1 0.
Proof. split; [done|done|by rewrite inode1_block|done]. Qed.

Lemma inode1_data V : data_ok 2 V inode1 0 0.
Proof.
  assert (forall bn, 0 <= bn <= 0 -> bn = 0) as Hz by lia. split.
  - intros bn ->%Hz. apply inode1_mapped.
  - intros bn bn' ->%Hz Hb. rewrite !inode1_block by lia. destruct (bn' =? 0) eqn:E; [lia|done].
  - intros bn ->%Hz. by rewrite inode1_block.
  - intros bn ->%Hz. rewrite inode1_block by lia. unfold in_log, LOGSIZE, MAXOPBLOCKS. cbn [Z.eqb]. lia.
Qed.

Lemma inode1_place V : inode_home 2 sb0 inode1 /\ inode_apart sb0 V inode1.
Proof.
  split; (split; [|by change (inode_block sb0 inode1) with 32; unfold in_log, LOGSIZE, MAXOPBLOCKS; try lia]).
  - by change (inode_block sb0 inode1) with 32.
  - intros bn Hb. rewrite inode1_block by lia. change (inode_block sb0 inode1) with 32. by destruct (bn =? 0).
Qed.

Definition message : list Z := [7; 8; 9; 10].
Lemma message_block : 1020 / BSIZE = 0 /\ (1020 + Z.of_nat (length message) - 1) / BSIZE = 0 /\ nblocks 1020 (Z.of_nat (length message)) = 1.
Proof. done. Qed.
Lemma inode1_grown : grown inode1 (1020 + Z.of_nat (length message)) = inode1.
Proof. done. Qed.

