(* ===== verification/PrintfTheorems.v ===== *)
(** * Numbers in kernel output

    What [printint] prints is read back to the number it was given, and the
    numbers whose digits do not fit its 16-character buffer are exactly those
    that overrun it. *)

From S2P Require Import Prelude Spinlock Riscv Kalloc Vm Queue PriorityQueue KString Proc FsState Console Printf.

Ltac Zify.zify_post_hook ::= Z.to_euclidean_division_equations.

(** ** Reading a numeral back *)

Definition digit_value (c : Z) : Z := if c <? 58 then c - 48 else c - 87.
(** The value of digits stored least significant first, as in the buffer. *)
Definition rvalue (base : Z) (ds : list Z) : Z := foldr (fun c acc => digit_value c + base * acc) 0 ds.
(** The number a printed text denotes, with or without a minus sign. *)
Definition minus : Z := 45.
Definition unsigned (l : list Z) : list Z := if bool_decide (head l = Some minus) then tail l else l.
Definition numeral (base : Z) (l : list Z) : Z :=
  let v := rvalue base (rev (unsigned l)) in if bool_decide (head l = Some minus) then - v else v.
(** No leading zero, except for zero itself. *)
Definition canonical (l : list Z) : Prop :=
  l = [48] \/ (unsigned l <> [] /\ head (unsigned l) <> Some 48).

Lemma digit_value_digit d : 0 <= d < 16 -> digit_value (digit d) = d.
Proof. unfold digit_value, digit. intros. destruct (d <? 10) eqn:E; case_match; lia. Qed.

Lemma digit_not_minus d : 0 <= d < 16 -> digit d <> 45.
Proof. unfold digit. intros. destruct (d <? 10) eqn:E; lia. Qed.

Lemma digit_zero d : 0 <= d < 16 -> digit d = 48 -> d = 0.
Proof. unfold digit. intros. destruct (d <? 10) eqn:E; lia. Qed.

(** Deciding whether the buffer has room. *)
Ltac fits b :=
  match goal with |- context [(?n <=? PRINT_BUF)%nat] =>
    replace (n <=? PRINT_BUF)%nat with b by (cbn [length] in *; lia) end.

(** ** The digits, without the buffer's limit *)

Fixpoint rdigits (fuel : nat) (x base : Z) : list Z :=
  match fuel with
  | O => []
  | S fuel' => digit (x mod base) :: (if x / base =? 0 then [] else rdigits fuel' (x / base) base)
  end.

Lemma digits_loop_eq fuel x base buf :
  2 <= base -> 0 <= x < base ^ Z.of_nat (S fuel) -> (length buf <= PRINT_BUF)%nat ->
  digits_loop (S fuel) x base buf =
    (if (length buf + length (rdigits (S fuel) x base) <=? PRINT_BUF)%nat
     then Some (buf ++ rdigits (S fuel) x base) else None).
Proof.
  intros Hb. revert x buf. induction fuel as [|fuel IH]; intros x buf Hx Hl.
  all: cbn [digits_loop rdigits]; unfold buf_push; destruct (length buf <? PRINT_BUF)%nat eqn:E; cbn [mbind option_bind].
  - rewrite Z.div_small by (cbn in *; lia). cbn [Z.eqb length].
    by fits true.
  - by fits false.
  - destruct (x / base =? 0) eqn:E0.
    + cbn [length]. by fits true.
    + assert (base ^ Z.of_nat (S (S fuel)) = base * base ^ Z.of_nat (S fuel)) as Hp.
      { rewrite (Nat2Z.inj_succ (S fuel)), Z.pow_succ_r; lia. }
      change (digits_loop (S fuel) (x / base) base (buf ++ [digit (x mod base)]) =
        (if (length buf + S (length (rdigits (S fuel) (x / base) base)) <=? PRINT_BUF)%nat
         then Some (buf ++ digit (x mod base) :: rdigits (S fuel) (x / base) base) else None)).
      rewrite IH; [|split; [apply Z.div_pos; lia|apply Z.div_lt_upper_bound; lia]|rewrite length_app; cbn; lia].
      rewrite length_app, <- app_assoc. cbn [length app].
      by replace (length buf + 1 + length (rdigits (S fuel) (x / base) base))%nat
        with (length buf + S (length (rdigits (S fuel) (x / base) base)))%nat by lia.
  - by fits false.
Qed.

Lemma rdigits_value fuel x base :
  2 <= base <= 16 -> 0 <= x < base ^ Z.of_nat fuel -> rvalue base (rdigits fuel x base) = x.
Proof.
  intros Hb. revert x. induction fuel as [|fuel IH]; intros x Hx; [cbn in *; lia|].
  assert (base ^ Z.of_nat (S fuel) = base * base ^ Z.of_nat fuel) as Hp.
  { rewrite Nat2Z.inj_succ, Z.pow_succ_r; lia. }
  pose proof (Z.div_mod x base ltac:(lia)) as Hdm. pose proof (Z.mod_pos_bound x base ltac:(lia)).
  cbn [rdigits rvalue foldr]. rewrite digit_value_digit by lia.
  destruct (x / base =? 0) eqn:E0; cbn [foldr].
  - lia.
  - fold (rvalue base (rdigits fuel (x / base) base)). rewrite IH; [lia|].
    split; [apply Z.div_pos; lia|apply Z.div_lt_upper_bound; lia].
Qed.

Lemma rdigits_last fuel x base :
  2 <= base <= 16 -> 0 < x < base ^ Z.of_nat fuel ->
  exists d, last (rdigits fuel x base) = Some (digit d) /\ 0 < d < base.
Proof.
  intros Hb. revert x. induction fuel as [|fuel IH]; intros x Hx; [cbn in *; lia|].
  assert (base ^ Z.of_nat (S fuel) = base * base ^ Z.of_nat fuel) as Hp.
  { rewrite Nat2Z.inj_succ, Z.pow_succ_r; lia. }
  pose proof (Z.div_mod x base ltac:(lia)). pose proof (Z.mod_pos_bound x base ltac:(lia)).
  cbn [rdigits]. destruct (x / base =? 0) eqn:E0.
  - exists (x mod base). split; [done|]. lia.
  - destruct (IH (x / base)) as (d & Hd & Hd').
    { split; [|apply Z.div_lt_upper_bound; lia].
      pose proof (Z.div_pos x base ltac:(lia) ltac:(lia)). lia. }
    exists d. split; [|done]. rewrite last_cons, Hd. done.
Qed.

(** ** How many digits *)

Lemma rdigits_length fuel x base n :
  2 <= base -> 0 <= x < base ^ Z.of_nat fuel -> (0 < n)%nat ->
  (length (rdigits fuel x base) <= n)%nat <-> x < base ^ Z.of_nat n.
Proof.
  intros Hb. revert x n. induction fuel as [|fuel IH]; intros x n Hx Hn; [cbn in *; lia|].
  destruct n as [|n]; [lia|].
  assert (forall k, base ^ Z.of_nat (S k) = base * base ^ Z.of_nat k) as Hp.
  { intros k. rewrite Nat2Z.inj_succ, Z.pow_succ_r; lia. }
  rewrite Hp in *. cbn [rdigits length].
  pose proof (Z.div_mod x base ltac:(lia)). pose proof (Z.mod_pos_bound x base ltac:(lia)).
  assert (1 <= base ^ Z.of_nat n) by (pose proof (Z.pow_pos_nonneg base (Z.of_nat n)); lia).
  destruct (x / base =? 0) eqn:E0; cbn [length]; [nia|].
  assert (0 < x / base) by (pose proof (Z.div_pos x base ltac:(lia) ltac:(lia)); lia).
  destruct n as [|n].
  - split; [|cbn; nia]. destruct fuel as [|fuel]; [cbn in Hx; nia|]. cbn. lia.
  - assert (x / base < base ^ Z.of_nat fuel) by (apply Z.div_lt_upper_bound; lia).
    pose proof (IH (x / base) (S n) ltac:(lia) ltac:(lia)) as Hi.
    assert (x / base < base ^ Z.of_nat (S n) <-> x < base * base ^ Z.of_nat (S n)) as <-.
    { split; [intros; nia|intros; apply Z.div_lt_upper_bound; lia]. }
    rewrite <- Hi. lia.
Qed.

(** ** What is printed *)

Lemma rev_last (ds : list Z) c : last ds = Some c -> exists l, rev ds = c :: l.
Proof.
  intros [l ->]%last_Some. rewrite rev_app_distr. by exists (rev l).
Qed.

(** The digits in printing order, plain and behind a minus sign. *)
Lemma printed base ds d :
  last ds = Some (digit d) -> 0 < d < 16 ->
  (numeral base (rev ds) = rvalue base ds /\ canonical (rev ds)) /\
  (numeral base (minus :: rev ds) = - rvalue base ds /\ canonical (minus :: rev ds)).
Proof.
  intros Hl Hd. destruct (rev_last _ _ Hl) as [l E].
  assert (digit d <> 48) by (intros F; apply digit_zero in F; lia).
  assert (rev (digit d :: l) = ds) as Er by (by rewrite <- E, rev_involutive).
  pose proof (digit_not_minus d ltac:(lia)) as Hm. rewrite E. unfold numeral, canonical, unsigned.
  rewrite (bool_decide_false (head (digit d :: l) = _)) by (cbn; unfold minus; congruence).
  cbn [head tail]. rewrite bool_decide_true by done. rewrite Er.
  split; (split; [done|right; split; [done|cbn; congruence]]).
Qed.

Lemma rdigits_zero fuel base : 2 <= base -> rdigits (S fuel) 0 base = [48].
Proof. intros. cbn [rdigits]. rewrite Z.mod_0_l, Z.div_0_l by lia. done. Qed.

Lemma two64_base base : 2 <= base -> 2 ^ 64 <= base ^ 64.
Proof. intros. apply Z.pow_le_mono_l. lia. Qed.

Lemma printint_out_spec xx base sign :
  2 <= base <= 16 -> - 2 ^ 63 <= xx < 2 ^ 63 ->
  let neg := sign && (xx <? 0) in
  let x := if neg then - xx else u64 xx in
  let room := if neg then 15 else 16 in
  (x < base ^ room -> exists l,
     printint_out xx base sign = Some l /\ numeral base l = (if neg then xx else x) /\ canonical l) /\
  (base ^ room <= x -> printint_out xx base sign = None).
Proof.
  intros Hb Hxx neg x room. pose proof (two64_base base ltac:(lia)) as H64.
  assert (0 <= x < 2 ^ 64 /\ (neg = true -> 0 < x)) as [Hx Hpos].
  { subst x neg. unfold u64. destruct sign, (xx <? 0) eqn:E; cbn [andb]; (split; [|intros; try done; lia]); try lia.
    all: apply Z.mod_pos_bound; lia. }
  assert ((if neg then u64 (- xx) else u64 xx) = x) as Hux.
  { subst x. destruct neg; [|done]. unfold u64. apply Z.mod_small. lia. }
  unfold printint_out. fold neg. rewrite Hux.
  rewrite (digits_loop_eq 63 x base []) by (cbn [length]; change (Z.of_nat 64) with 64; lia).
  change (length [] + length (rdigits 64 x base))%nat with (length (rdigits 64 x base)).
  pose proof (rdigits_length 64 x base 16 ltac:(lia) ltac:(change (Z.of_nat 64) with 64; lia) ltac:(lia)) as H16.
  pose proof (rdigits_length 64 x base 15 ltac:(lia) ltac:(change (Z.of_nat 64) with 64; lia) ltac:(lia)) as H15.
  change (Z.of_nat 16) with 16 in H16. change (Z.of_nat 15) with 15 in H15.
  pose proof (rdigits_value 64 x base Hb ltac:(change (Z.of_nat 64) with 64; lia)) as Hv.
  assert (x = 0 \/ exists d, last (rdigits 64 x base) = Some (digit d) /\ 0 < d < 16) as Hd.
  { destruct (decide (x = 0)); [by left|right].
    destruct (rdigits_last 64 x base) as (d & ? & ?); [lia|change (Z.of_nat 64) with 64; lia|].
    exists d. split; [done|lia]. }
  unfold buf_push, PRINT_BUF. subst room. destruct neg.
  - destruct Hd as [|(d & Hd & Hd')]; [specialize (Hpos eq_refl); lia|].
    destruct (printed base _ d Hd Hd') as (_ & Hn & Hc). rewrite Hv in Hn.
    split; intros H.
    + apply H15 in H. replace (length _ <=? 16)%nat with true by lia. cbn [mbind option_bind app].
      replace (length _ <? 16)%nat with true by lia. cbn [mbind option_bind].
      eexists. split; [done|]. rewrite rev_app_distr. cbn [rev app]. fold minus. split; [lia|done].
    + assert (15 < length (rdigits 64 x base))%nat by lia.
      destruct (length _ <=? 16)%nat eqn:E; cbn [mbind option_bind app]; [|done].
      by replace (length _ <? 16)%nat with false by lia.
  - split; intros H.
    + apply H16 in H. replace (length _ <=? 16)%nat with true by lia. cbn [mbind option_bind app].
      eexists. split; [done|]. destruct Hd as [->|(d & Hd & Hd')].
      * rewrite rdigits_zero by lia. split; [done|by left].
      * destruct (printed base _ d Hd Hd') as ((Hn & Hc) & _). by rewrite Hv in Hn.
    + by replace (length _ <=? 16)%nat with false by lia.
Qed.

(** Printing a 64-bit number, in any base up to 16 and with or without a sign:
    if the digits, and the sign when there is one, fit the 16 characters of
    the buffer, the text is the canonical numeral of the number; if they do
    not, the buffer is overrun. *)
Theorem printint_exact xx base sign :
  2 <= base <= 16 -> - 2 ^ 63 <= xx < 2 ^ 63 ->
  let neg := sign && (xx <? 0) in
  let x := if neg then - xx else u64 xx in
  let room := if neg then 15 else 16 in
  (x < base ^ room -> exists l,
     printint_out xx base sign = Some l /\ numeral base l = (if neg then xx else x) /\ canonical l) /\
  (base ^ room <= x -> printint_out xx base sign = None).
Proof. apply printint_out_spec. Qed.

Lemma printint_exact_witness :
  (exists l, printint_out (-2147483648) 10 true = Some l /\ numeral 10 l = -2147483648 /\ canonical l) /\
  printint_out (-1) 10 false = None.
Proof.
  split.
  - apply (printint_exact (-2147483648) 10 true ltac:(lia) ltac:(lia)). by vm_compute.
  - apply (printint_exact (-1) 10 false ltac:(lia) ltac:(lia)). by vm_compute.
Defined.

(** [printf] with the conversion for unsigned integers, given one that does
    not fit a signed [int] (at least 2^31): the argument is read as an [int] and
    extended to 64 bits with its sign, and its twenty digits overrun the buffer. *)
Theorem percent_u_overruns (n : Z) s :
  kprintf (string_bytes "%u") [VNum (2 ^ 31 + n mod 2 ^ 31)] s = Fault.
Proof.
  pose proof (Z.mod_pos_bound n (2 ^ 31) ltac:(lia)) as Hv.
  set (v := 2 ^ 31 + n mod 2 ^ 31). assert (2 ^ 31 <= v < 2 ^ 32) as Hb by (subst v; lia). clearbody v.
  assert (i32 v = v - 2 ^ 32) as Hi.
  { unfold i32. rewrite Z.mod_small by lia. by replace (v <? 2 ^ 31) with false by lia. }
  assert (printint_out (v - 2 ^ 32) 10 false = None) as Hn.
  { destruct (printint_out_spec (v - 2 ^ 32) 10 false) as [_ H]; [lia|lia|]. apply H. cbn [andb]. unfold u64.
    replace (v - 2 ^ 32) with (v - 2 ^ 32 + 2 ^ 64 + -1 * 2 ^ 64) by lia.
    rewrite Z.mod_add, Z.mod_small; lia. }
  unfold kprintf. change (string_bytes "%u") with [37; 117].
  cbn -[printint_out i32]. unfold bind, va_int, ret. cbn [obind]. rewrite Hi.
  unfold printint, bind, deref. rewrite Hn. done.
Qed.
