(* ===== verification/Mkfs.v ===== *)
(** * Building the initial file system (mkfs/mkfs.c)

    The program that writes the disk image the kernel boots from, on the host.
    The image is the blocks written so far; a read past its end is short, and
    the program dies.  Writing to the image is taken to succeed; how many bytes
    the host's [read] delivers is a parameter.  [die] and a failed [assert] end
    the program. *)

From S2P Require Import Ulib Prelude Spinlock Riscv Kalloc Vm Queue PriorityQueue KString Proc FsState Sleeplock Virtio Bio Log Fs.

(** ** Layout *)

Definition FSSIZE : Z := 2000.
Definition NINODES : Z := 200.
Definition nbitmap : Z := FSSIZE / BPB + 1.
Definition ninodeblocks : Z := NINODES / IPB + 1.
Definition nlog : Z := LOGSIZE.
Definition nmeta : Z := 2 + nlog + ninodeblocks + nbitmap.
Definition nblocks : Z := FSSIZE - nmeta.

(** The bytes [xint] and [xshort] make are little-endian, as [put32] and
    [put16] store them. *)
Definition mkfs_sb : superblock :=
  mk_sb FSMAGIC FSSIZE nblocks NINODES nlog 2 (2 + nlog) (2 + nlog + ninodeblocks).
Definition encode_sb (s : superblock) : list Z :=
  let d := replicate (Z.to_nat BSIZE) 0 in
  let d := put32 d 0 (sb_magic s) in
  let d := put32 d 4 (sb_size s) in
  let d := put32 d 8 (sb_nblocks s) in
  let d := put32 d 12 (sb_ninodes s) in
  let d := put32 d 16 (sb_nlog s) in
  let d := put32 d 20 (sb_logstart s) in
  let d := put32 d 24 (sb_inodestart s) in
  put32 d 28 (sb_bmapstart s).

(** ** State: the image and the two counters *)

Record mkfs_st : Type := mk_mkfs { image : gmap Z (list Z); freeinode : Z; freeblock : Z }.
Definition set_image v s := mk_mkfs v (freeinode s) (freeblock s).
Definition set_freeinode v s := mk_mkfs (image s) v (freeblock s).
Definition set_freeblock v s := mk_mkfs (image s) (freeinode s) v.

Abbreviation MK := (M mkfs_st).
Definition die {A} (msg : string) : MK A := panic msg.
Definition assert_ (b : bool) : MK unit := if b then ret tt else panic "assert".

(** ** Sectors and inodes *)

Definition zeroes : list Z := replicate (Z.to_nat BSIZE) 0.
(** Where [lseek] goes, in blocks. *)
Definition sector (sec : Z) : Z := u32 (sec * BSIZE) / BSIZE.

Definition wsect (sec : Z) (buf : list Z) : MK unit :=
  modify (fun s => set_image (<[sector sec := buf]> (image s)) s).
Definition rsect (sec : Z) : MK (list Z) :=
  o <- gets (fun s => image s !! sector sec) ;;
  match o with Some d => ret d | None => die "read" end.

(** A [struct dinode]; the other fields of [inode] belong to the kernel. *)
Definition dinode0 : inode := mk_inode 0 0 0 0 0 0 0 0 0 (replicate 13 0).

Definition winode (inum : Z) (ip : inode) : MK unit :=
  let bn := IBLOCK inum mkfs_sb in
  buf <- rsect bn ;;
  wsect bn (put_dinode buf (dinode_off inum) ip).
Definition rinode (inum : Z) : MK inode :=
  let bn := IBLOCK inum mkfs_sb in
  buf <- rsect bn ;;
  ret (get_dinode buf (dinode_off inum) dinode0).

Definition ialloc (type : Z) : MK Z :=
  inum <- gets freeinode ;;
  modify (set_freeinode (u32 (inum + 1))) ;;
  winode inum (set_i_size 0 (set_i_nlink 1 (set_i_type type dinode0))) ;;
  ret inum.

(** [freeblock++] *)
Definition next_block : MK Z :=
  b <- gets freeblock ;;
  modify (set_freeblock (u32 (b + 1))) ;;
  ret b.

(** ** Appending to a file *)

Definition din_addr (din : inode) (k : Z) : Z := default 0 (i_addrs din !! Z.to_nat k).
Definition set_din_addr (din : inode) (k v : Z) : inode := set_i_addrs (<[Z.to_nat k := v]> (i_addrs din)) din.

(** An address of the inode, allocated first if there is none. *)
Definition need_addr (din : inode) (k : Z) : MK inode :=
  if din_addr din k =? 0 then b <- next_block ;; ret (set_din_addr din k b) else ret din.

(** The block for block [fbn] of the file. *)
Definition append_block (din : inode) (fbn : Z) : MK (inode * Z) :=
  if fbn <? NDIRECT then
    din <- need_addr din fbn ;;
    ret (din, din_addr din fbn)
  else
    din <- need_addr din NDIRECT ;;
    indirect <- rsect (din_addr din NDIRECT) ;;
    let o := (4 * Z.to_nat (fbn - NDIRECT))%nat in
    if get32 indirect o =? 0 then
      b <- next_block ;;
      let indirect := put32 indirect o b in
      wsect (din_addr din NDIRECT) indirect ;;
      ret (din, get32 indirect o)
    else ret (din, get32 indirect o).

Fixpoint iappend_loop (fuel : nat) (din : inode) (off : Z) (p : list Z) : MK (inode * Z) :=
  match fuel with
  | O => nofuel
  | S fuel' =>
      let n := Z.of_nat (length p) in
      if 0 <? n then
        let fbn := off / BSIZE in
        assert_ (fbn <? MAXFILE) ;;
        dx <- append_block din fbn ;;
        let '(din, x) := dx in
        let n1 := Z.min n ((fbn + 1) * BSIZE - off) in
        buf <- rsect x ;;
        wsect x (splice buf (Z.to_nat (off - fbn * BSIZE)) (take (Z.to_nat n1) p)) ;;
        iappend_loop fuel' din (u32 (off + n1)) (drop (Z.to_nat n1) p)
      else ret (din, off)
  end.

Definition iappend (inum : Z) (p : list Z) : MK unit :=
  din <- rinode inum ;;
  r <- iappend_loop (S (length p)) din (i_size din) p ;;
  let '(din, off) := r in
  winode inum (set_i_size off din).

(** ** The free-block map *)

Definition used_map (used : Z) : list Z := foldl set_bit zeroes (seqZ 0 used).
Definition balloc (used : Z) : MK unit :=
  assert_ (used <? BPB) ;;
  wsect (sb_bmapstart mkfs_sb) (used_map used).

(** ** The program *)

Definition dirent (inum : Z) (name : list Z) : list Z :=
  put16 (replicate 2 0) 0 inum ++ strncpy (replicate DIRSIZ 0) name DIRSIZ.

(** The name of a file in the image. *)
Definition past_user (arg : list Z) : list Z :=
  if strncmp arg (string_bytes "user/") 5 =? 0 then drop 5 arg else arg.
Definition shortname (arg : list Z) : list Z :=
  if char0 (past_user arg) =? 95 then drop 1 (past_user arg) else past_user arg.

Section main.
Context {R : Reads}.

Fixpoint copy_file (fuel : nat) (inum : Z) (inp : list Z) : MK unit :=
  match fuel with
  | O => nofuel
  | S fuel' =>
      let cc := delivered inp BSIZE in
      if 0 <? cc then
        iappend inum (take (Z.to_nat cc) inp) ;;
        copy_file fuel' inum (drop (Z.to_nat cc) inp)
      else ret tt
  end.

(** One file named on the command line; it has no content if it cannot be
    opened. *)
Definition add_file (rootino : Z) (arg : list Z * option (list Z)) : MK unit :=
  assert_ (match strchr (past_user (fst arg)) 47 with None => true | Some _ => false end) ;;
  match snd arg with
  | None => die "open"
  | Some content =>
      assert_ (strlen (shortname (fst arg)) <=? Z.of_nat DIRSIZ) ;;
      inum <- ialloc T_FILE ;;
      iappend rootino (dirent inum (shortname (fst arg))) ;;
      copy_file (S (length content)) inum content
  end.

(** The size of the root directory is rounded up to blocks. *)
Definition fix_root (rootino : Z) : MK unit :=
  din <- rinode rootino ;;
  winode rootino (set_i_size (u32 ((i_size din / BSIZE + 1) * BSIZE)) din).

Definition mkfs_main (args : list (list Z * option (list Z))) : MK unit :=
  modify (set_freeblock nmeta) ;;
  for_each (seqZ 0 FSSIZE) (fun i => wsect i zeroes) ;;
  wsect 1 (encode_sb mkfs_sb) ;;
  rootino <- ialloc T_DIR ;;
  assert_ (rootino =? ROOTINO) ;;
  iappend rootino (dirent rootino (string_bytes ".")) ;;
  iappend rootino (dirent rootino (string_bytes "..")) ;;
  for_each args (add_file rootino) ;;
  fix_root rootino ;;
  used <- gets freeblock ;;
  balloc used.

(** The image of a run from the program's initial state. *)
Definition mkfs (args : list (list Z * option (list Z))) : outcome mkfs_st unit :=
  mkfs_main args (mk_st [] (mk_mkfs ∅ 1 0)).
End main.
