(* ===== verification/MkfsProofs.v ===== *)
(** * What the image holds while it is built

    The invariant of mkfs/mkfs.c: the files so far, each with its inode and
    its content, lie in blocks of their own below [freeblock], and everything
    from there on is zero. *)

From S2P Require Import Ulib Prelude Spinlock Riscv Kalloc Vm VmCopy Queue PriorityQueue KString Proc FsState FsBytes Sleeplock Virtio Bio Log Fs FsTheorems BlockAlloc InodeProofs Mkfs.

Ltac Zify.zify_post_hook ::= idtac.
Ltac zdiv := Z.to_euclidean_division_equations; lia.
Ltac consts := unfold MAXFILE, NINDIRECT, NDIRECT, BSIZE in *.

Implicit Types (V : Z -> list Z) (ip : inode) (c bs : list Z) (fs : list (inode * list Z)).

(** ** Blocks of a file *)

(** The address in a place of the inode: of a block of the file, or of the
    indirect block, as the last place. *)
Definition place V ip (n : Z) : Z := if n =? MAXFILE then addr_at ip 12 else fblock V ip n.

Record content V (fb : Z) fs : Prop := {
  ct_addrs k ip c : fs !! k = Some (ip, c) -> length (i_addrs ip) = 13%nat;
  ct_range k ip c n : fs !! k = Some (ip, c) -> 0 <= n <= MAXFILE -> place V ip n = 0 \/ nmeta <= place V ip n < fb;
  ct_inj k ip c n k' ip' c' n' : fs !! k = Some (ip, c) -> fs !! k' = Some (ip', c') -> 0 <= n <= MAXFILE -> 0 <= n' <= MAXFILE ->
    place V ip n <> 0 -> place V ip n = place V ip' n' -> k = k' /\ n = n';
  ct_bytes k ip c j : fs !! k = Some (ip, c) -> 0 <= j < MAXFILE * BSIZE -> file_byte V ip j = default 0 (c !! Z.to_nat j);
  ct_zero b : b = 0 \/ fb <= b -> V b = zeroes;
  ct_len b : length (V b) = Z.to_nat BSIZE
}.

#[export] Hint Resolve ct_addrs ct_len : xv6.

Lemma get16_zeroes o : get16 zeroes o = 0.
Proof.
  assert (forall k, default 0 (zeroes !! k) = 0) as E; [|unfold get16; by rewrite !E].
  intros k. unfold zeroes. destruct (decide (k < Z.to_nat BSIZE)%nat); [by rewrite lookup_replicate_2|by rewrite lookup_ge_None_2 by (rewrite length_replicate; lia)].
Qed.
Lemma get32_zeroes o : get32 zeroes o = 0.
Proof. unfold get32. by rewrite !get16_zeroes. Qed.

Lemma place_ind V ip : place V ip MAXFILE = addr_at ip 12.
Proof. done. Qed.
Lemma place_data V ip n : 0 <= n < MAXFILE -> place V ip n = fblock V ip n.
Proof. intros H. unfold place. by rewrite (proj2 (Z.eqb_neq _ _)) by lia. Qed.
Lemma file_byte_place V ip j : 0 <= j < MAXFILE * BSIZE -> file_byte V ip j = default 0 (V (place V ip (j / BSIZE)) !! Z.to_nat (j mod BSIZE)).
Proof. intros H. rewrite place_data; [done|]. consts. zdiv. Qed.

(** An address put into the inode. *)
Definition addr_place (a : nat) : Z := if (a =? 12)%nat then MAXFILE else Z.of_nat a.
Lemma addr_at_set ip a v b : length (i_addrs ip) = 13%nat -> (a <= 12)%nat ->
  addr_at (set_din_addr ip (Z.of_nat a) v) b = if decide (b = a) then v else addr_at ip b.
Proof.
  intros Hl Ha. unfold addr_at, set_din_addr. cbn. rewrite Nat2Z.id. destruct (decide (b = a)) as [->|Hne].
  - by rewrite list_lookup_insert_eq by lia.
  - by rewrite list_lookup_insert_ne by done.
Qed.
Lemma place_set_addr V ip a v n : length (i_addrs ip) = 13%nat -> (a <= 12)%nat -> 0 <= n <= MAXFILE -> addr_at ip a = 0 -> v <> 0 -> V v = zeroes ->
  place V (set_din_addr ip (Z.of_nat a) v) n = if decide (n = addr_place a) then v else place V ip n.
Proof.
  intros Hl Ha Hn H0 Hv HV. unfold place, addr_place, fblock. rewrite !addr_at_set by done. change (Z.to_nat NDIRECT) with 12%nat.
  destruct (Z.eqb_spec n MAXFILE) as [->|Hm].
  - destruct (Nat.eqb_spec a 12) as [->|Ha']; [by rewrite !decide_True|]. repeat case_decide; (done || consts; lia).
  - destruct (Nat.eqb_spec a 12) as [->|Ha'].
    + rewrite (decide_False (P := n = MAXFILE)) by done. rewrite H0, (decide_True (P := 12%nat = 12%nat)) by done. destruct (Z.ltb_spec n NDIRECT).
      * case_decide; (done || consts; lia).
      * rewrite (proj2 (Z.eqb_neq _ _) Hv), HV. apply get32_zeroes.
    + rewrite (decide_False (P := 12%nat = a)) by done. destruct (Z.ltb_spec n NDIRECT).
      * destruct (decide (n = Z.of_nat a)) as [->|Hne]; [by rewrite decide_True by lia|]. rewrite decide_False by lia. done.
      * case_decide; (done || consts; lia).
Qed.

Lemma nmeta_val : nmeta = 46.
Proof. done. Qed.

(** Only the file of the place changes. *)
Lemma insert_cases {A} (l : list A) k x k' y : <[k := x]> l !! k' = Some y -> (k' = k /\ y = x /\ (k < length l)%nat) \/ (k' <> k /\ l !! k' = Some y).
Proof. intros [(-> & -> & H)|[H1 H2]]%list_lookup_insert_Some; auto. Qed.

(** A place of file [k] that was empty gets the next block; only the indirect
    block of the file may change. *)
Section alloc.
Context V V' (fb : Z) fs (k : nat) ip ip' c (n0 : Z) (H : content V fb fs) (Hfb : nmeta <= fb) (Hk : fs !! k = Some (ip, c)).
Context (Hn0 : 0 <= n0 <= MAXFILE) (H0 : place V ip n0 = 0) (Hl : length (i_addrs ip') = 13%nat).
Context (Hp : forall n, 0 <= n <= MAXFILE -> place V' ip' n = if decide (n = n0) then fb else place V ip n).
Context (Ho : forall k2 ip2 c2 n, k2 <> k -> fs !! k2 = Some (ip2, c2) -> 0 <= n <= MAXFILE -> place V' ip2 n = place V ip2 n).
Context (HV : forall b, V' b = V b \/ b = place V ip MAXFILE /\ b <> 0) (HL : forall b, length (V' b) = Z.to_nat BSIZE).

(** Places of the new state: the new one, or one of the old state. *)
Lemma alloc_places k2 ip2 c2 n : <[k := (ip', c)]> fs !! k2 = Some (ip2, c2) -> 0 <= n <= MAXFILE ->
  (k2 = k /\ n = n0 /\ place V' ip2 n = fb /\ c2 = c) \/
  (exists ip1, fs !! k2 = Some (ip1, c2) /\ place V' ip2 n = place V ip1 n).
Proof using Hk Hp Ho.
  intros [(-> & [= -> ->] & _)|[Hne E]]%insert_cases Hn; [|right; eauto].
  rewrite Hp by done. case_decide; [by left|right; eauto].
Qed.
Lemma content_alloc : content V' (fb + 1) (<[k := (ip', c)]> fs).
Proof using All.
  pose proof nmeta_val as Hm. assert (0 <= MAXFILE <= MAXFILE) as HM by (consts; zdiv). pose proof (ct_range _ _ _ H _ _ _ MAXFILE Hk HM) as HrM. split.
  - intros k' ip2 c2 [(-> & [= -> ->] & _)|[_ E]]%insert_cases; [done|by apply (ct_addrs _ _ _ H _ _ _ E)].
  - intros k' ip2 c2 n E Hn. destruct (alloc_places _ _ _ _ E Hn) as [(_ & _ & -> & _)|(ip1 & E1 & ->)]; [lia|].
    destruct (ct_range _ _ _ H _ _ _ n E1 Hn); lia.
  - intros k1 ip1 c1 n1 k2 ip2 c2 n2 E1 E2 Hn1 Hn2.
    destruct (alloc_places _ _ _ _ E1 Hn1) as [(-> & -> & -> & _)|(jp1 & F1 & ->)], (alloc_places _ _ _ _ E2 Hn2) as [(-> & -> & -> & _)|(jp2 & F2 & ->)].
    + done.
    + destruct (ct_range _ _ _ H _ _ _ n2 F2 Hn2); lia.
    + destruct (ct_range _ _ _ H _ _ _ n1 F1 Hn1); lia.
    + by apply (ct_inj _ _ _ H _ _ _ _ _ _ _ _ F1 F2).
  - intros k2 ip2 c2 j E Hj. assert (0 <= j / BSIZE < MAXFILE) as Hn by (consts; zdiv). rewrite file_byte_place by done.
    destruct (alloc_places k2 ip2 c2 (j / BSIZE) E ltac:(lia)) as [(-> & En & -> & ->)|(ip1 & E1 & ->)].
    + rewrite <- (ct_bytes _ _ _ H _ _ _ _ Hk Hj), file_byte_place, En, H0 by done. destruct (HV fb) as [->|[? _]]; [|lia].
      by rewrite !(ct_zero _ _ _ H) by lia.
    + rewrite <- (ct_bytes _ _ _ H _ _ _ _ E1 Hj), file_byte_place by done. destruct (HV (place V ip1 (j / BSIZE))) as [->|[Hb Hb0]]; [done|].
      destruct (ct_inj _ _ _ H _ _ _ (j / BSIZE) _ _ _ MAXFILE E1 Hk); (done || lia).
  - intros b Hb. destruct (HV b) as [->|[-> ?]]; [apply (ct_zero _ _ _ H); lia|lia].
  - done.
Qed.
End alloc.

Lemma content_addr V fb fs k ip c a : content V fb fs -> nmeta <= fb -> fs !! k = Some (ip, c) -> (a <= 12)%nat -> addr_at ip a = 0 ->
  content V (fb + 1) (<[k := (set_din_addr ip (Z.of_nat a) fb, c)]> fs).
Proof.
  intros H Hfb Hk Ha H0. pose proof nmeta_val as Hm. pose proof (ct_addrs _ _ _ H _ _ _ Hk) as Hl. pose proof (ct_zero _ _ _ H fb ltac:(lia)) as Hz.
  apply (content_alloc V V fb fs k ip _ c (addr_place a)); try done.
  - unfold addr_place. destruct (a =? 12)%nat; consts; zdiv.
  - unfold addr_place, place, fblock. destruct (Nat.eqb_spec a 12) as [->|]; [by rewrite Z.eqb_refl|].
    rewrite (proj2 (Z.eqb_neq _ _)), (proj2 (Z.ltb_lt _ _)) by (consts; zdiv). by rewrite Nat2Z.id.
  - cbn. by rewrite length_insert.
  - intros n Hn. apply place_set_addr; (done || lia).
  - auto.
  - eauto with xv6.
Qed.

(** A word of the indirect block. *)
Lemma place_upd V ip b d n : addr_at ip 12 <> b \/ addr_at ip 12 = 0 -> place (upd V b d) ip n = place V ip n.
Proof.
  intros Hb. unfold place. destruct (n =? MAXFILE); [done|]. unfold fblock. change (Z.to_nat NDIRECT) with 12%nat. destruct (n <? NDIRECT); [done|].
  destruct (Z.eqb_spec (addr_at ip 12) 0); [done|]. unfold upd. rewrite decide_False; [done|]. by destruct Hb.
Qed.
Lemma place_indirect V ip n : addr_at ip 12 <> 0 -> NDIRECT <= n < MAXFILE -> place V ip n = get32 (V (addr_at ip 12)) (4 * Z.to_nat (n - NDIRECT)).
Proof.
  intros Ha Hn. rewrite place_data by (consts; lia). unfold fblock. rewrite (proj2 (Z.ltb_ge _ _)) by lia. change (Z.to_nat NDIRECT) with 12%nat.
  by rewrite (proj2 (Z.eqb_neq _ _) Ha).
Qed.
Section word.
Context V (fb : Z) fs (k : nat) ip c (n0 : Z) (H : content V fb fs) (Hfb : nmeta <= fb < 2 ^ 32) (Hk : fs !! k = Some (ip, c)).
Let a := addr_at ip 12.
Let o := (4 * Z.to_nat (n0 - NDIRECT))%nat.
Let V' := upd V a (put32 (V a) o fb).
Context (Hn0 : NDIRECT <= n0 < MAXFILE) (Ha : a <> 0) (H0 : get32 (V a) o = 0).

Lemma place_word n : 0 <= n <= MAXFILE -> place V' ip n = if decide (n = n0) then fb else place V ip n.
Proof using All.
  pose proof nmeta_val as Hm. intros Hn. unfold place. destruct (Z.eqb_spec n MAXFILE) as [->|Hne]; [by rewrite decide_False by lia|].
  unfold fblock. change (Z.to_nat NDIRECT) with 12%nat. fold a. destruct (Z.ltb_spec n NDIRECT); [by rewrite decide_False by lia|].
  rewrite (proj2 (Z.eqb_neq _ _) Ha). unfold V', upd. rewrite (decide_True (P := a = a)) by done. pose proof (ct_len _ _ _ H a) as Hl. case_decide as Hd.
  - subst n. fold o. rewrite get32_put32; [apply u32_id; lia|]. rewrite Hl. unfold o. consts. zdiv.
  - apply get32_ext. intros j Hj. apply put32_other. unfold o. lia.
Qed.
Lemma place_word_other k2 ip2 c2 n : k2 <> k -> fs !! k2 = Some (ip2, c2) -> place V' ip2 n = place V ip2 n.
Proof using All.
  intros Hne E. assert (0 <= MAXFILE <= MAXFILE) as HM by (consts; zdiv). apply place_upd. destruct (decide (addr_at ip2 12 = a)) as [Ea|]; [|by left]. exfalso. apply Hne.
  apply (ct_inj _ _ _ H _ _ _ MAXFILE _ _ _ MAXFILE E Hk); rewrite ?place_ind; (done || congruence).
Qed.
Lemma content_word : content V' (fb + 1) fs.
Proof using All.
  pose proof nmeta_val as Hm. assert (0 <= MAXFILE <= MAXFILE) as HM by (consts; zdiv).
  rewrite <- (list_insert_id fs k (ip, c) Hk). apply (content_alloc V _ fb fs k ip ip c n0); try done.
  - lia.
  - consts. lia.
  - by rewrite place_indirect.
  - by apply (ct_addrs _ _ _ H _ _ _ Hk).
  - apply place_word.
  - intros k2 ip2 c2 n Hne E _. by eapply place_word_other.
  - intros b. unfold V', upd. case_decide; [|by left]. right. by subst.
  - intros b. unfold V', upd. case_decide; [rewrite put32_length|]; apply (ct_len _ _ _ H).
Qed.
End word.

(** Bytes added to the end of a file, within a block it has. *)
Section write.
Context V (fb : Z) fs (k : nat) ip c bs (H : content V fb fs) (Hk : fs !! k = Some (ip, c)).
Let off := Z.of_nat (length c).
Let x := place V ip (off / BSIZE).
Let V' := upd V x (splice (V x) (Z.to_nat (off mod BSIZE)) bs).
Context (Hmax : off < MAXFILE * BSIZE) (Hfit : off mod BSIZE + Z.of_nat (length bs) <= BSIZE) (Hx : x <> 0).

Lemma write_bn : 0 <= off / BSIZE < MAXFILE.
Proof using All. unfold off in *. consts. zdiv. Qed.
Lemma write_range : nmeta <= x < fb.
Proof using All. pose proof write_bn. destruct (ct_range _ _ _ H _ _ _ (off / BSIZE) Hk ltac:(lia)); [done|done]. Qed.
Lemma write_fits : (Z.to_nat (off mod BSIZE) + length bs <= length (V x))%nat.
Proof using All. rewrite (ct_len _ _ _ H). unfold off in *. consts. zdiv. Qed.

Lemma write_places k2 ip2 c2 n : fs !! k2 = Some (ip2, c2) -> place V' ip2 n = place V ip2 n.
Proof using All.
  intros E. apply place_upd. destruct (decide (addr_at ip2 12 = x)) as [Ex|]; [|by left]. right. pose proof write_bn.
  destruct (decide (x = 0)); [done|].
  destruct (ct_inj _ _ _ H _ _ _ (off / BSIZE) _ _ _ MAXFILE Hk E); (done || lia || consts; lia).
Qed.

Lemma write_byte k2 ip2 c2 j : fs !! k2 = Some (ip2, c2) -> 0 <= j < MAXFILE * BSIZE ->
  file_byte V' ip2 j = if decide (k2 = k /\ off <= j < off + Z.of_nat (length bs)) then default 0 (bs !! Z.to_nat (j - off)) else file_byte V ip2 j.
Proof using All.
  intros E Hj. pose proof write_bn as Hbn. assert (0 <= j / BSIZE < MAXFILE) as Hn by (consts; zdiv).
  rewrite !file_byte_place, (write_places _ _ _ _ E) by done. unfold V', upd. case_decide as Hb.
  - destruct (ct_inj _ _ _ H _ _ _ (off / BSIZE) _ _ _ (j / BSIZE) Hk E) as [Ek Eb]; [lia|lia|done|done|]. subst k2.
    rewrite Hb, splice_lookup by apply write_fits. unfold off in *.
    destruct (decide (Z.to_nat (Z.of_nat (length c) mod BSIZE) <= Z.to_nat (j mod BSIZE) < Z.to_nat (Z.of_nat (length c) mod BSIZE) + length bs)%nat) as [Hd|Hd].
    + rewrite decide_True by (split; [done|]; clear -Hd Eb Hj; consts; zdiv). do 2 f_equal. clear -Hd Eb Hj. consts. zdiv.
    + rewrite decide_False; [done|]. intros [_ Hc]. apply Hd. clear -Hc Eb Hj Hfit. consts. zdiv.
  - rewrite decide_False; [done|]. intros [Ek Hc]. subst k2. rewrite Hk in E. injection E as <- <-. apply Hb. unfold x. f_equal. unfold off in *. clear -Hc Hj Hfit. consts. zdiv.
Qed.

Lemma content_write : content V' fb (<[k := (ip, c ++ bs)]> fs).
Proof using All.
  pose proof write_range as Hr. pose proof nmeta_val as Hm.
  assert (forall k2 ip2 c2, <[k := (ip, c ++ bs)]> fs !! k2 = Some (ip2, c2) -> exists c1, fs !! k2 = Some (ip2, c1) /\ c2 = if decide (k2 = k) then c1 ++ bs else c1) as Hold.
  { intros k2 ip2 c2 [(-> & [= -> ->] & _)|[Hne E]]%insert_cases; eexists; (split; [done|]); [by rewrite decide_True|by rewrite decide_False]. }
  split.
  - intros k2 ip2 c2 (c1 & E & _)%Hold. by apply (ct_addrs _ _ _ H _ _ _ E).
  - intros k2 ip2 c2 n (c1 & E & _)%Hold. rewrite (write_places _ _ _ _ E). by apply (ct_range _ _ _ H _ _ _ n E).
  - intros k1 ip1 c1 n1 k2 ip2 c2 n2 (d1 & E1 & _)%Hold (d2 & E2 & _)%Hold. rewrite (write_places _ _ _ _ E1), (write_places _ _ _ _ E2).
    by apply (ct_inj _ _ _ H _ _ _ _ _ _ _ _ E1 E2).
  - intros k2 ip2 c2 j (c1 & E & ->)%Hold Hj. rewrite (write_byte _ _ _ _ E Hj), (ct_bytes _ _ _ H _ _ _ _ E Hj). unfold off in *.
    destruct (decide (k2 = k)) as [Ek|Hne]; [subst k2|by rewrite decide_False by naive_solver]. rewrite Hk in E. injection E as <- <-.
    destruct (decide (Z.to_nat j < length c)%nat) as [Hl|Hl].
    + rewrite decide_False by lia. by rewrite lookup_app_l.
    + rewrite lookup_app_r by lia. case_decide as Hd; [do 2 f_equal; lia|]. rewrite !lookup_ge_None_2; [done| |]; lia.
  - intros b Hb. unfold V', upd. rewrite decide_False by lia. by apply (ct_zero _ _ _ H).
  - intros b. unfold V', upd. case_decide; [rewrite splice_length by apply write_fits|]; apply (ct_len _ _ _ H).
Qed.
End write.
