(* ===== verification/MkfsAppend.v ===== *)
(** * Appending to a file of the image

    The block operations of mkfs/mkfs.c and [iappend]'s loop: the content grows
    by the bytes, in as many new blocks as it needs. *)

From S2P Require Import Ulib Prelude Spinlock Riscv Kalloc Vm VmCopy Queue PriorityQueue KString Proc FsState FsBytes Sleeplock Virtio Bio Log Fs FsTheorems BlockAlloc InodeProofs Mkfs MkfsProofs.

Ltac Zify.zify_post_hook ::= idtac.
Ltac zdiv := Z.to_euclidean_division_equations; lia.

Implicit Types (V : Z -> list Z) (ip : inode) (c bs : list Z) (fs : list (inode * list Z)) (s : st mkfs_st).

(** ** Sectors *)

Record holds s V (fb fi : Z) : Prop := {
  hd_image b : 0 <= b < FSSIZE -> image (data s) !! b = Some (V b);
  hd_size b d : image (data s) !! b = Some d -> 0 <= b < FSSIZE;
  hd_block : freeblock (data s) = fb;
  hd_inode : freeinode (data s) = fi
}.

Lemma sector_id b : 0 <= b < FSSIZE -> sector b = b.
Proof. intros H. unfold sector. rewrite u32_id by (unfold FSSIZE, BSIZE in *; lia). apply Z.div_mul. done. Qed.

Lemma wp_rsect s V fb fi b (Q : list Z -> st mkfs_st -> Prop) : holds s V fb fi -> 0 <= b < FSSIZE -> Q (V b) s -> wp (rsect b) Q s.
Proof. intros H Hb HQ. unfold rsect. apply wp_bind, wp_gets. by rewrite sector_id, (hd_image _ _ _ _ H b Hb) by done. Qed.
Lemma wp_wsect s V fb fi b d (Q : unit -> st mkfs_st -> Prop) : holds s V fb fi -> 0 <= b < FSSIZE ->
  (forall s', holds s' (upd V b d) fb fi -> Q tt s') -> wp (wsect b d) Q s.
Proof.
  intros H Hb HQ. unfold wsect. apply wp_modify, HQ. split; [| |apply H|apply H]; cbn; rewrite sector_id by done.
  - intros b' Hb'. unfold upd. case_decide as Hd; [subst; by rewrite lookup_insert_eq|]. rewrite lookup_insert_ne by done. by apply H.
  - intros b' d' [[<- _]|[_ E]]%lookup_insert_Some; [done|by apply (hd_size _ _ _ _ H _ _ E)].
Qed.
Lemma wp_next_block s V fb fi (Q : Z -> st mkfs_st -> Prop) : holds s V fb fi -> 0 <= fb < FSSIZE ->
  (forall s', holds s' V (fb + 1) fi -> Q fb s') -> wp next_block Q s.
Proof.
  intros H Hb HQ. unfold next_block. apply wp_bind, wp_gets, wp_bind, wp_modify. rewrite (hd_block _ _ _ _ H).
  apply wp_ret, HQ. split; cbn; [apply H|apply H|apply u32_id; unfold FSSIZE in *; lia|apply H].
Qed.

(** ** How many blocks a file has *)

Definition data_blocks (len : Z) : Z := (len + BSIZE - 1) / BSIZE.
Definition need (len : Z) : Z := data_blocks len + (if NDIRECT <? data_blocks len then 1 else 0).

Lemma need_same len n : 0 <= len -> len mod BSIZE <> 0 -> 0 <= n -> len mod BSIZE + n <= BSIZE -> need (len + n) = need len.
Proof. intros. unfold need. replace (data_blocks (len + n)) with (data_blocks len); [done|]. unfold data_blocks, BSIZE in *. zdiv. Qed.
Lemma need_new len n : 0 <= len -> len mod BSIZE = 0 -> 1 <= n <= BSIZE -> need (len + n) = need len + 1 + (if len =? NDIRECT * BSIZE then 1 else 0).
Proof.
  intros H1 H2 H3. unfold need. assert (data_blocks (len + n) = data_blocks len + 1 /\ data_blocks len * BSIZE = len) as [-> E] by (unfold data_blocks, BSIZE in *; zdiv).
  generalize dependent (data_blocks len). intros m E. unfold NDIRECT, BSIZE in *. destruct (Z.ltb_spec 12 m), (Z.ltb_spec 12 (m + 1)), (Z.eqb_spec len (12 * 1024)); lia.
Qed.
Lemma need_mono len n : 0 <= len -> 0 <= n -> need len <= need (len + n).
Proof.
  intros H1 H2. unfold need. assert (data_blocks len <= data_blocks (len + n)) by (unfold data_blocks, BSIZE; zdiv).
  destruct (Z.ltb_spec NDIRECT (data_blocks len)), (Z.ltb_spec NDIRECT (data_blocks (len + n))); lia.
Qed.

(** The places in use are those a content of [len] bytes needs. *)
Definition sized V ip (len : Z) : Prop :=
  (forall n, 0 <= n < MAXFILE -> place V ip n <> 0 <-> n * BSIZE < len) /\ (addr_at ip 12 <> 0 <-> NDIRECT * BSIZE < len).
Lemma sized_ext V ip len len' : data_blocks len = data_blocks len' -> sized V ip len -> sized V ip len'.
Proof.
  intros E [H1 H2]. assert (forall n, n * BSIZE < len <-> n * BSIZE < len') as Hn by (intros n; unfold data_blocks, BSIZE in *; clear H1 H2; zdiv).
  split; [intros n Hr; rewrite <- Hn; by apply H1|]. rewrite <- Hn. exact H2.
Qed.
Lemma sized_places V V' ip len : (forall n, 0 <= n <= MAXFILE -> place V' ip n = place V ip n) -> sized V ip len -> sized V' ip len.
Proof. intros E [H1 H2]. split; [|done]. intros n Hn. rewrite E by lia. by apply H1. Qed.

(** ** Appending *)

(** What may change while file [k] grows: no block of the metadata, no place of
    another file, and no field of the inode but its addresses. *)
Record growing fs (k : nat) V ip V' ip' : Prop := {
  gr_low b : b < nmeta -> V' b = V b;
  gr_other k2 ip2 c2 n : k2 <> k -> fs !! k2 = Some (ip2, c2) -> 0 <= n <= MAXFILE -> place V' ip2 n = place V ip2 n;
  gr_inode : ip' = set_i_addrs (i_addrs ip') ip
}.
Lemma growing_refl fs k V ip : growing fs k V ip V ip.
Proof. split; try done. by destruct ip. Qed.

Section append.
Context s V (fb fi : Z) fs (k : nat) ip c (Hs : holds s V fb fi) (H : content V fb fs) (Hfb : nmeta <= fb) (Hk : fs !! k = Some (ip, c)).
Let off := Z.of_nat (length c).
Let fbn := off / BSIZE.
Let more := need (off + 1) - need off.
Context (Hmax : off < MAXFILE * BSIZE) (Hz : sized V ip off) (Hroom : fb + more <= FSSIZE).

Definition appended (ip' : inode) (x : Z) s' : Prop :=
  exists V', holds s' V' (fb + more) fi /\ content V' (fb + more) (<[k := (ip', c)]> fs) /\
    x = place V' ip' fbn /\ sized V' ip' (off + 1) /\ growing fs k V ip V' ip'.

Lemma fbn_range : 0 <= fbn < MAXFILE /\ (fbn * BSIZE < off <-> off mod BSIZE <> 0) /\ fbn * BSIZE <= off < (fbn + 1) * BSIZE.
Proof using Hmax. clear -Hmax. unfold fbn, off in *. consts. zdiv. Qed.

(** Nothing is missing. *)
Lemma appended_none : off mod BSIZE <> 0 -> appended ip (place V ip fbn) s.
Proof using All.
  intros Hm. destruct fbn_range as (R1 & R2 & R3). assert (more = 0) as E0 by (unfold more; rewrite need_same; unfold off, BSIZE in *; clear -Hm; zdiv).
  exists V. rewrite E0, Z.add_0_r, list_insert_id by done. split_and!; try done; [|apply growing_refl].
  eapply sized_ext; [|exact Hz]. clear -Hm. unfold data_blocks, off, BSIZE in *. zdiv.
Qed.

(** The places after the block for [fbn], and the indirect block where it comes
    with it, have been filled. *)
Lemma sized_new V' ip' : off mod BSIZE = 0 ->
  (forall n, 0 <= n <= MAXFILE -> place V' ip' n <> 0 <-> place V ip n <> 0 \/ n = fbn \/ (n = MAXFILE /\ NDIRECT <= fbn)) -> sized V' ip' (off + 1).
Proof using All.
  intros Hm Hp. destruct fbn_range as (R1 & R2 & R3). destruct Hz as [Z1 Z2]. assert (0 <= MAXFILE <= MAXFILE) as HM by (consts; zdiv). split.
  - intros n Hn. rewrite Hp, Z1 by lia. clear -Hm R1 R3 Hn. unfold BSIZE in *. split; [intros [?|[->|[? ?]]]; lia|]. intros ?. assert (n <= fbn) by lia.
    destruct (decide (n = fbn)); [by right; left|left]. lia.
  - rewrite <- (place_ind V'), (Hp MAXFILE HM), place_ind, Z2. clear -Hm R1 R3. unfold NDIRECT, BSIZE in *. split; [intros [?|[?|[_ ?]]]; lia|]. intros ?. right. right. lia.
Qed.

(** The block is found or allocated. *)
Lemma append_direct : fbn < NDIRECT -> wp (append_block ip fbn) (fun r s' => appended (fst r) (snd r) s') s.
Proof using All.
  intros Hd. destruct fbn_range as (R1 & R2 & R3). pose proof nmeta_val as Hm. unfold append_block. rewrite (proj2 (Z.ltb_lt _ _) Hd). unfold need_addr.
  assert (din_addr ip fbn = place V ip fbn) as ->.
  { rewrite place_data by done. unfold fblock. by rewrite (proj2 (Z.ltb_lt _ _) Hd). }
  apply wp_bind. destruct (Z.eqb_spec (place V ip fbn) 0) as [E0|E0].
  - assert (off mod BSIZE = 0) as Ho. { destruct (decide (off mod BSIZE = 0)); [done|]. exfalso. by apply (proj2 (proj1 Hz fbn R1)); [apply R2|]. }
    assert (more = 1) as Em. { unfold more. rewrite need_new by (unfold off, BSIZE in *; lia). rewrite (proj2 (Z.eqb_neq _ _)); [lia|]. unfold NDIRECT, BSIZE in *. lia. }
    apply wp_bind. eapply wp_next_block; [done|lia|]. intros s' Hs'. apply wp_ret, wp_ret. cbn [fst snd].
    rewrite <- (Z2Nat.id fbn) by lia. set (a := Z.to_nat fbn). assert (addr_at ip a = 0) as Ha.
    { rewrite <- E0, place_data by done. unfold fblock. by rewrite (proj2 (Z.ltb_lt _ _) Hd). }
    assert (a < 12)%nat as Ha12 by (unfold a, NDIRECT in *; lia). pose proof (ct_addrs _ _ _ H _ _ _ Hk) as Hl.
    assert (addr_place a = fbn) as Eap by (unfold addr_place; rewrite (proj2 (Nat.eqb_neq _ _)) by lia; unfold a; lia).
    assert (forall n, 0 <= n <= MAXFILE -> place V (set_din_addr ip (Z.of_nat a) fb) n = if decide (n = fbn) then fb else place V ip n) as Hp.
    { intros n Hn. rewrite place_set_addr by (done || lia || apply (ct_zero _ _ _ H); lia). by rewrite Eap. }
    exists V. rewrite Em. split_and!; [done|by apply content_addr; [..|lia|]| | |by split].
    + rewrite Hp, decide_True by (done || lia). unfold din_addr. rewrite Nat2Z.id. fold (addr_at (set_din_addr ip (Z.of_nat a) fb) a). by rewrite addr_at_set, decide_True by (done || lia).
    + apply sized_new; [done|]. intros n Hn. rewrite Hp by done. case_decide; [|naive_solver (unfold NDIRECT in *; lia)]. split; [auto|lia].
  - apply wp_ret, wp_ret. cbn [fst snd]. assert (din_addr ip fbn = place V ip fbn) as ->.
    { rewrite place_data by done. unfold fblock. by rewrite (proj2 (Z.ltb_lt _ _) Hd). }
    apply appended_none. apply R2. by apply Hz.
Qed.

(** With an indirect block at hand ([ip1], in the state after [d] blocks). *)
Lemma append_word s1 ip1 d : NDIRECT <= fbn -> off mod BSIZE = 0 -> 0 <= d -> more = d + 1 -> holds s1 V (fb + d) fi ->
  content V (fb + d) (<[k := (ip1, c)]> fs) -> addr_at ip1 12 <> 0 -> ip1 = set_i_addrs (i_addrs ip1) ip ->
  (forall n, 0 <= n <= MAXFILE -> place V ip1 n <> 0 <-> place V ip n <> 0 \/ n = MAXFILE) ->
  let indirect := V (addr_at ip1 12) in let o := (4 * Z.to_nat (fbn - NDIRECT))%nat in
  get32 indirect o = 0 /\
  wp (b <- next_block ;; wsect (addr_at ip1 12) (put32 indirect o b) ;; ret (ip1, get32 (put32 indirect o b) o))
    (fun r s' => appended (fst r) (snd r) s') s1.
Proof using All.
  intros Hd Ho Hdd Em Hs1 H1 Ha Hip Hp indirect o. destruct fbn_range as (R1 & R2 & R3). pose proof nmeta_val as Hm.
  assert (0 <= MAXFILE <= MAXFILE) as HM by (consts; zdiv).
  assert (<[k := (ip1, c)]> fs !! k = Some (ip1, c)) as Hk1 by eauto with xv6.
  assert (get32 indirect o = 0) as H0.
  { unfold indirect, o. rewrite <- place_indirect by (done || lia). destruct (decide (place V ip1 fbn = 0)) as [|Hne]; [done|]. exfalso. apply Hp in Hne as [Hne|Hne]; [|lia|lia].
    by apply (proj1 Hz fbn R1) in Hne; apply R2 in Hne. }
  split; [done|]. assert (nmeta <= addr_at ip1 12 < fb + d) as Hr by (by destruct (ct_range _ _ _ H1 _ _ _ MAXFILE Hk1 HM)).
  apply wp_bind. eapply wp_next_block; [done|lia|]. intros s2 Hs2. apply wp_bind. eapply wp_wsect; [done|lia|]. intros s3 Hs3. apply wp_ret. cbn [fst snd].
  assert (nmeta <= fb + d < 2 ^ 32) as Hfd by (unfold FSSIZE in *; lia).
  pose proof (place_word V (fb + d) _ k ip1 c fbn H1 Hfd Hk1 ltac:(lia) Ha H0) as Hw. cbv zeta in Hw. fold indirect o in Hw.
  eexists. rewrite Em, Z.add_assoc. split_and!; [exact Hs3|apply (content_word V (fb + d) _ k ip1 c fbn); (done || lia)| | |split].
  - rewrite Hw, decide_True by (done || lia). rewrite get32_put32; [apply u32_id; lia|]. unfold indirect, o. rewrite (ct_len _ _ _ H1). consts. zdiv.
  - apply sized_new; [done|]. intros n Hn. rewrite Hw by done. case_decide; [split; [auto|lia]|]. rewrite Hp by done. naive_solver lia.
  - intros b Hb. unfold upd. by rewrite decide_False by lia.
  - intros k2 ip2 c2 n Hne E _. eapply (place_word_other V (fb + d) _ k ip1 c fbn); try done; [lia|]. by rewrite list_lookup_insert_ne by done.
  - done.
Qed.

Lemma append_indirect : NDIRECT <= fbn -> wp (append_block ip fbn) (fun r s' => appended (fst r) (snd r) s') s.
Proof using All.
  intros Hd. destruct fbn_range as (R1 & R2 & R3). pose proof nmeta_val as Hm. assert (0 <= MAXFILE <= MAXFILE) as HM by (consts; zdiv).
  unfold append_block. rewrite (proj2 (Z.ltb_ge _ _) Hd). unfold need_addr. change (din_addr ip NDIRECT) with (addr_at ip 12). apply wp_bind.
  destruct (Z.eqb_spec (addr_at ip 12) 0) as [Ea|Ea].
  - assert (off = NDIRECT * BSIZE) as Ho. { destruct (decide (NDIRECT * BSIZE < off)); [by exfalso; apply (proj2 Hz)|]. unfold NDIRECT, BSIZE in *. lia. }
    assert (off mod BSIZE = 0) as Ho' by (rewrite Ho; done).
    assert (more = 2) as Em. { unfold more. rewrite need_new by (unfold off, BSIZE in *; lia). rewrite (proj2 (Z.eqb_eq _ _) Ho). lia. }
    apply wp_bind. eapply wp_next_block; [done|lia|]. intros s1 Hs1. apply wp_ret. change NDIRECT with (Z.of_nat 12) at 1 2. set (ip1 := set_din_addr ip (Z.of_nat 12) fb).
    pose proof (ct_addrs _ _ _ H _ _ _ Hk) as Hl. assert (addr_at ip1 12 = fb) as Ea1 by (unfold ip1; by rewrite addr_at_set, decide_True by (done || lia)).
    change (din_addr ip1 (Z.of_nat 12)) with (addr_at ip1 12).
    apply wp_bind. eapply wp_rsect; [done|lia|]. cbv zeta. destruct (append_word s1 ip1 1) as [-> Hw]; try done; try lia; [apply content_addr; (done || lia)|].
    intros n Hn. unfold ip1. rewrite place_set_addr by (done || lia || apply (ct_zero _ _ _ H); lia). change (addr_place 12) with MAXFILE. case_decide; [split; [auto|lia]|]. naive_solver.
  - apply wp_ret. destruct (ct_range _ _ _ H _ _ _ MAXFILE Hk HM) as [?|Hr]; [done|]. rewrite place_ind in Hr. pose proof (need_mono off 1 ltac:(unfold off; lia) ltac:(lia)). assert (0 <= more) by (unfold more; lia).
    change (din_addr ip NDIRECT) with (addr_at ip 12). apply wp_bind. eapply wp_rsect; [done|lia|]. cbv zeta.
    destruct (decide (off mod BSIZE = 0)) as [Ho|Ho].
    + assert (more = 1) as Em. { unfold more. rewrite need_new by (unfold off, BSIZE in *; lia). rewrite (proj2 (Z.eqb_neq _ _)); [lia|]. intros E. apply Hz in Ea. lia. }
      destruct (append_word s ip 0) as [-> Hw]; try done; rewrite ?Z.add_0_r; try done; [by rewrite list_insert_id|by clear; destruct ip|].
      intros n Hn. split; [auto|]. intros [?|E]; [done|]. by rewrite E, place_ind.
    + rewrite <- place_indirect by (done || lia). rewrite (proj2 (Z.eqb_neq _ _)); [|by apply Hz; [|apply R2]]. apply wp_ret. by apply appended_none.
Qed.

Lemma append_block_spec : wp (append_block ip fbn) (fun r s' => appended (fst r) (snd r) s') s.
Proof using All. destruct (Z.lt_ge_cases fbn NDIRECT); [by apply append_direct|by apply append_indirect]. Qed.
End append.

Lemma growing_trans fs k V ip V1 ip1 y V2 ip2 : growing fs k V ip V1 ip1 -> growing (<[k := y]> fs) k V1 ip1 V2 ip2 -> growing fs k V ip V2 ip2.
Proof.
  intros [A1 A2 A3] [B1 B2 B3]. split.
  - intros b Hb. by rewrite B1, A1.
  - intros k2 jp c2 n Hne E Hn. rewrite (B2 k2 jp c2 n), (A2 k2 jp c2 n); try done. by rewrite list_lookup_insert_ne.
  - rewrite B3 at 1. by rewrite A3.
Qed.

(** One round of the loop: the bytes up to the end of the block. *)
Lemma append_chunk s V fb fi fs k ip c bs :
  let off := Z.of_nat (length c) in let n1 := Z.of_nat (length bs) in let fb' := fb + (need (off + n1) - need off) in
  holds s V fb fi -> content V fb fs -> nmeta <= fb -> fs !! k = Some (ip, c) -> sized V ip off ->
  off < MAXFILE * BSIZE -> 0 < n1 -> off mod BSIZE + n1 <= BSIZE -> fb' <= FSSIZE ->
  wp (r <- append_block ip (off / BSIZE) ;; buf <- rsect (snd r) ;; wsect (snd r) (splice buf (Z.to_nat (off mod BSIZE)) bs) ;; ret (fst r))
    (fun ip' s' => exists V', holds s' V' fb' fi /\ content V' fb' (<[k := (ip', c ++ bs)]> fs) /\ sized V' ip' (off + n1) /\ growing fs k V ip V' ip') s.
Proof.
  intros off n1 fb' Hs H Hfb Hk Hz Hmax Hn1 Hfit Hroom. assert (0 <= off) as Hoff by (unfold off; lia).
  assert (data_blocks (off + 1) = data_blocks (off + n1)) as Edb by (clear -Hn1 Hfit Hoff; unfold data_blocks, BSIZE in *; zdiv).
  assert (need (off + n1) = need (off + 1)) as En by (unfold need; by rewrite Edb). unfold fb' in *. rewrite En in *.
  apply wp_bind. eapply wp_mono; [by eapply (append_block_spec s V fb fi fs k ip c)|]. fold off.
  intros [ip1 x] s1 (V1 & Hs1 & H1 & Ex & Hz1 & G1). cbn [fst snd] in *. fold off in Hs1, H1, Ex, Hz1. set (fb1 := fb + (need (off + 1) - need off)) in *.
  assert (0 <= off / BSIZE < MAXFILE) as Hbn by (clear -Hmax Hoff; consts; zdiv).
  assert (x <> 0) as Hx by (rewrite Ex; apply Hz1; [done|]; clear -Hoff; unfold BSIZE; zdiv).
  assert (<[k := (ip1, c)]> fs !! k = Some (ip1, c)) as Hk1 by eauto with xv6.
  assert (nmeta <= x < fb1) as Hr. { subst x. destruct (ct_range _ _ _ H1 _ _ _ (off / BSIZE) Hk1); [lia|done|done]. }
  pose proof nmeta_val. apply wp_bind. eapply wp_rsect; [done|lia|]. apply wp_bind. eapply wp_wsect; [done|lia|]. intros s2 Hs2. apply wp_ret.
  subst x. eexists. split; [exact Hs2|].
  pose proof (write_places V1 fb1 _ k ip1 c bs H1 Hk1 Hmax Hfit Hx) as Hp. cbv zeta in Hp. fold off in Hp. split_and!.
  - rewrite <- (list_insert_insert_eq fs k (ip1, c ++ bs) (ip1, c)). by apply (content_write V1 fb1 _ k ip1 c bs).
  - eapply sized_ext; [exact Edb|]. eapply sized_places; [|exact Hz1]. intros n _. by eapply Hp.
  - eapply growing_trans; [exact G1|]. split; [|intros k2 jp c2 n _ E _; by eapply Hp|by clear; destruct ip1]. intros b Hb. unfold upd. by rewrite decide_False by lia.
Qed.

Definition loop_done V fb fi fs k ip c p (r : inode * Z) s' : Prop :=
  let len := Z.of_nat (length (c ++ p)) in let fb' := fb + (need len - need (Z.of_nat (length c))) in
  exists V', holds s' V' fb' fi /\ content V' fb' (<[k := (fst r, c ++ p)]> fs) /\ sized V' (fst r) len /\ growing fs k V ip V' (fst r) /\ snd r = len.

Lemma iappend_loop_spec fuel s V fb fi fs k ip c p :
  let off := Z.of_nat (length c) in let len := Z.of_nat (length (c ++ p)) in
  holds s V fb fi -> content V fb fs -> nmeta <= fb -> fs !! k = Some (ip, c) -> sized V ip off ->
  len <= MAXFILE * BSIZE -> fb + (need len - need off) <= FSSIZE -> (length p < fuel)%nat ->
  wp (iappend_loop fuel ip off p) (loop_done V fb fi fs k ip c p) s.
Proof.
  revert s V fb fs ip c p. induction fuel as [|fuel IH]; intros s V fb fs ip c p off len Hs H Hfb Hk Hz Hmax Hroom Hf; [lia|]. cbn [iappend_loop].
  destruct (Z.ltb_spec 0 (Z.of_nat (length p))) as [Hp|Hp].
  2: { destruct p; [|cbn in Hp; lia]. apply wp_ret. unfold loop_done. rewrite app_nil_r, list_insert_id by done. exists V.
       rewrite Z.sub_diag, Z.add_0_r. split_and!; try done. apply growing_refl. }
  assert (len = off + Z.of_nat (length p)) as Elen by (unfold len, off; rewrite length_app; lia). assert (0 <= off) as Hoff by lia.
  assert (off < MAXFILE * BSIZE) as Ho by lia.
  set (n1 := Z.min (Z.of_nat (length p)) ((off / BSIZE + 1) * BSIZE - off)). set (bs := take (Z.to_nat n1) p).
  assert (0 < n1 <= Z.of_nat (length p) /\ off mod BSIZE + n1 <= BSIZE) as [Hn1 Hfit] by (unfold n1; clear -Hp Hoff; unfold BSIZE; zdiv).
  assert (Z.of_nat (length bs) = n1) as Ebs by (unfold bs; rewrite length_take; lia).
  assert (Z.of_nat (length (c ++ bs)) = off + n1) as Ecb by (rewrite length_app; lia).
  assert (need off <= need (off + n1) <= need len) as Hneed by (split; [apply need_mono; lia|]; replace len with (off + n1 + (len - off - n1)) by lia; apply need_mono; lia).
  assert (off / BSIZE < MAXFILE) as Hbn by (clear -Ho Hoff; consts; zdiv). rewrite (proj2 (Z.ltb_lt _ _) Hbn). apply wp_bind, wp_ret.
  pose proof (append_chunk s V fb fi fs k ip c bs) as Hc. cbv zeta in Hc. rewrite Ebs in Hc. fold off in Hc. specialize (Hc Hs H Hfb Hk Hz Ho ltac:(lia) Hfit ltac:(lia)).
  replace (off - off / BSIZE * BSIZE) with (off mod BSIZE) by (clear -Hoff; unfold BSIZE; zdiv).
  apply wp_bind_inv in Hc. apply wp_bind. eapply wp_mono; [exact Hc|]. intros [ip1 x] s1 Hc1. cbn [fst snd] in Hc1.
  apply wp_bind_inv in Hc1. apply wp_bind. eapply wp_mono; [exact Hc1|]. intros buf s2 Hc2.
  apply wp_bind_inv in Hc2. apply wp_bind. eapply wp_mono; [exact Hc2|]. intros [] s3 (V' & Hs3 & H3 & Hz3 & G3). cbn [fst snd] in *.
  rewrite u32_id by (clear -Hoff Hmax Elen Hn1; consts; zdiv). rewrite <- Ecb. assert (c ++ p = (c ++ bs) ++ drop (Z.to_nat n1) p) as Ecp by (unfold bs; by rewrite <- app_assoc, take_drop).
  eapply wp_mono; [apply (IH s3 V' (fb + (need (off + n1) - need off)) (<[k := (ip1, c ++ bs)]> fs) ip1 (c ++ bs))|].
  - done.
  - done.
  - lia.
  - eauto with xv6.
  - by rewrite Ecb.
  - by rewrite <- Ecp.
  - rewrite <- Ecp, Ecb. fold len. lia.
  - rewrite length_drop. lia.
  - intros [ip2 off2] s4 (V2 & Hs4 & H4 & Hz4 & G4 & E4). unfold loop_done. cbn [fst snd] in *. rewrite <- Ecp in Hs4, H4, Hz4, E4. rewrite Ecb in Hs4, H4. fold len off. fold len in Hs4, H4, Hz4, E4.
    exists V2. replace (fb + (need len - need off)) with (fb + (need (off + n1) - need off) + (need len - need (off + n1))) by lia.
    rewrite list_insert_insert_eq in H4. split_and!; try done. by eapply growing_trans.
Qed.
