(* ===== verification/MkfsTheorems.v ===== *)
(** * The image is a file system the kernel can use

    mkfs/mkfs.c as a whole: the inodes on the image, the root directory, the
    files of the command line and the free map, against what the kernel's file
    system expects of its disk. *)

From S2P Require Import Ulib Prelude Spinlock Riscv Kalloc Vm VmCopy Queue PriorityQueue KString Proc FsState FsBytes Sleeplock Virtio Bio Log LogSpec Fs FsTheorems BlockAlloc InodeProofs Mkfs MkfsProofs MkfsAppend.

Ltac Zify.zify_post_hook ::= idtac.
Ltac zdiv := Z.to_euclidean_division_equations; lia.

Implicit Types (V : Z -> list Z) (ip : inode) (c bs : list Z) (fs : list (inode * list Z)) (s : st mkfs_st).

(** ** Inodes on the image *)

Definition iblock (inum : Z) : Z := inum / IPB + sb_inodestart mkfs_sb.
Definition disk_inode V (inum : Z) : inode := get_dinode (V (iblock inum)) (dinode_off inum) dinode0.
(** An inode never written. *)
Definition unused_inode V (inum : Z) : Prop := forall j, (j < 64)%nat -> V (iblock inum) !! (dinode_off inum + j)%nat = Some 0.
Definition inum_ok (inum : Z) : Prop := 0 < inum < NINODES.

Lemma iblock_range inum : inum_ok inum -> IBLOCK inum mkfs_sb = iblock inum /\ 32 <= iblock inum < 45.
Proof.
  intros H. unfold inum_ok, NINODES in H. assert (32 <= iblock inum < 45) as Hr by (unfold iblock; change (sb_inodestart mkfs_sb) with 32; change IPB with 16; zdiv).
  split; [|done]. unfold IBLOCK. fold (iblock inum). apply u32_id. lia.
Qed.
Lemma dinode_off_fits inum : (dinode_off inum + 64 <= Z.to_nat BSIZE)%nat.
Proof. unfold dinode_off, DINODE_SIZE. change IPB with 16. unfold BSIZE. zdiv. Qed.
Lemma dinode_apart inum inum' : inum' <> inum -> iblock inum' <> iblock inum \/ (dinode_off inum' + 64 <= dinode_off inum \/ dinode_off inum + 64 <= dinode_off inum')%nat.
Proof.
  intros Hne. unfold iblock, dinode_off, DINODE_SIZE. change IPB with 16.
  destruct (decide (inum' / 16 = inum / 16)); [right|left; lia]. zdiv.
Qed.

(** What [winode] writes. *)
Definition stored_at V (inum : Z) ip : Z -> list Z := upd V (iblock inum) (put_dinode (V (iblock inum)) (dinode_off inum) ip).
Record clean ip : Prop := {
  cl_typed : inode_typed ip;
  cl_core : i_dev ip = 0 /\ i_inum ip = 0 /\ i_ref ip = 0 /\ i_valid ip = 0;
  cl_rest : i_major ip = 0 /\ i_minor ip = 0 /\ i_nlink ip = 1
}.

Lemma stored_same V inum ip : length (V (iblock inum)) = Z.to_nat BSIZE -> clean ip -> disk_inode (stored_at V inum ip) inum = ip.
Proof.
  intros Hl [Ht (C1 & C2 & C3 & C4) _]. unfold disk_inode, stored_at, upd. rewrite decide_True by done.
  rewrite get_dinode_put; [|rewrite Hl; apply dinode_off_fits|done]. cbn. clear -C1 C2 C3 C4. destruct ip. cbn in *. by subst.
Qed.
Lemma stored_byte V inum ip inum' j : inum' <> inum -> (j < 64)%nat ->
  stored_at V inum ip (iblock inum') !! (dinode_off inum' + j)%nat = V (iblock inum') !! (dinode_off inum' + j)%nat.
Proof.
  intros Hne Hj. unfold stored_at, upd. case_decide as Hd; [|done]. destruct (dinode_apart _ _ Hne) as [?|Ho]; [done|].
  rewrite put_dinode_other by lia. by rewrite Hd.
Qed.
Lemma stored_other V inum ip inum' : inum' <> inum -> disk_inode (stored_at V inum ip) inum' = disk_inode V inum'.
Proof. intros Hne. apply get_dinode_ext. intros j Hj. replace j with (dinode_off inum' + (j - dinode_off inum'))%nat by lia. apply stored_byte; [done|lia]. Qed.

Lemma wp_winode s V fb fi inum ip (Q : unit -> st mkfs_st -> Prop) : holds s V fb fi -> inum_ok inum ->
  (forall s', holds s' (stored_at V inum ip) fb fi -> Q tt s') -> wp (winode inum ip) Q s.
Proof.
  intros H Hi HQ. destruct (iblock_range inum Hi) as [E Hr]. unfold winode. rewrite E. apply wp_bind. eapply wp_rsect; [done|unfold FSSIZE; lia|].
  eapply wp_wsect; [done|unfold FSSIZE; lia|done].
Qed.
Lemma wp_rinode s V fb fi inum (Q : inode -> st mkfs_st -> Prop) : holds s V fb fi -> inum_ok inum -> Q (disk_inode V inum) s -> wp (rinode inum) Q s.
Proof.
  intros H Hi HQ. destruct (iblock_range inum Hi) as [E Hr]. unfold rinode. rewrite E. apply wp_bind. eapply wp_rsect; [done|unfold FSSIZE; lia|]. by apply wp_ret.
Qed.

(** Writing to the metadata leaves the contents alone. *)
Lemma place_low V fb fs k ip c b d n : content V fb fs -> fs !! k = Some (ip, c) -> b < nmeta -> place (upd V b d) ip n = place V ip n.
Proof.
  intros H Hk Hb. apply place_upd. assert (0 <= MAXFILE <= MAXFILE) as HM by (consts; zdiv).
  destruct (ct_range _ _ _ H _ _ _ MAXFILE Hk HM) as [E|E]; rewrite place_ind in E; [by right|left; lia].
Qed.
Lemma content_low V fb fs b d : content V fb fs -> 0 < b < nmeta -> nmeta <= fb -> length d = Z.to_nat BSIZE -> content (upd V b d) fb fs.
Proof.
  intros H Hb Hfb Hd. split.
  - apply (ct_addrs _ _ _ H).
  - intros k ip c n Hk Hn. rewrite (place_low V fb fs k ip c) by (done || lia). by apply (ct_range _ _ _ H _ _ _ n Hk).
  - intros k ip c n k' ip' c' n' Hk Hk' Hn Hn'. rewrite (place_low V fb fs k ip c), (place_low V fb fs k' ip' c') by (done || lia). by apply (ct_inj _ _ _ H _ _ _ _ _ _ _ _ Hk Hk').
  - intros k ip c j Hk Hj. rewrite <- (ct_bytes _ _ _ H _ _ _ _ Hk Hj), !file_byte_place, (place_low V fb fs k ip c) by (done || lia).
    unfold upd. rewrite decide_False; [done|]. assert (0 <= j / BSIZE <= MAXFILE) as Hn by (consts; zdiv). destruct (ct_range _ _ _ H _ _ _ _ Hk Hn); lia.
  - intros b' Hb'. unfold upd. rewrite decide_False by lia. by apply (ct_zero _ _ _ H).
  - intros b'. unfold upd. case_decide; [done|]. apply (ct_len _ _ _ H).
Qed.
(** The contents depend on the addresses of the inodes only. *)
Lemma place_addrs V ip ip' n : i_addrs ip' = i_addrs ip -> place V ip' n = place V ip n.
Proof. intros E. unfold place, fblock, addr_at. by rewrite E. Qed.
Lemma content_inode V fb fs k ip ip' c : fs !! k = Some (ip, c) -> i_addrs ip' = i_addrs ip -> content V fb fs -> content V fb (<[k := (ip', c)]> fs).
Proof.
  intros Hk E H.
  assert (forall k2 ip2 c2, <[k := (ip', c)]> fs !! k2 = Some (ip2, c2) -> exists ip1, fs !! k2 = Some (ip1, c2) /\ i_addrs ip2 = i_addrs ip1) as Hold.
  { intros k2 ip2 c2 [(-> & [= -> ->] & _)|[Hne E2]]%insert_cases; eauto. }
  split.
  - intros k2 ip2 c2 (ip1 & E1 & ->)%Hold. by apply (ct_addrs _ _ _ H _ _ _ E1).
  - intros k2 ip2 c2 n (ip1 & E1 & Ea)%Hold. rewrite (place_addrs V ip1 ip2) by done. by apply (ct_range _ _ _ H _ _ _ n E1).
  - intros k1 ip1 c1 n1 k2 ip2 c2 n2 (jp1 & E1 & Ea1)%Hold (jp2 & E2 & Ea2)%Hold. rewrite (place_addrs V jp1 ip1), (place_addrs V jp2 ip2) by done.
    by apply (ct_inj _ _ _ H _ _ _ _ _ _ _ _ E1 E2).
  - intros k2 ip2 c2 j (ip1 & E1 & Ea)%Hold Hj. rewrite <- (ct_bytes _ _ _ H _ _ _ _ E1 Hj), !file_byte_place, (place_addrs V ip1 ip2) by done. done.
  - apply (ct_zero _ _ _ H).
  - eauto with xv6.
Qed.

(** ** The image so far *)

Definition len {A} (l : list A) : Z := Z.of_nat (length l).
Definition blocks_of fs : Z := foldr (fun f n => need (len (snd f)) + n) 0 fs.
Definition next_free fs : Z := nmeta + blocks_of fs.

(** File [k] has inode number [k + 1]. *)
Definition inum_of (k : nat) : Z := Z.of_nat k + 1.

Record built V fs : Prop := {
  bt_content : content V (next_free fs) fs;
  bt_sized k ip c : fs !! k = Some (ip, c) -> sized V ip (len c);
  bt_disk k ip c : fs !! k = Some (ip, c) -> disk_inode V (inum_of k) = ip;
  bt_clean k ip c : fs !! k = Some (ip, c) -> clean ip;
  bt_unused inum : len fs < inum < NINODES -> unused_inode V inum;
  bt_count : len fs < NINODES;
  bt_super : V 1 = encode_sb mkfs_sb;
  bt_log b : 2 <= b < 2 + nlog -> V b = zeroes;
  bt_room : next_free fs <= FSSIZE
}.
Definition state s V fs : Prop := holds s V (next_free fs) (len fs + 1) /\ built V fs.

Lemma need_nonneg n : 0 <= n -> 0 <= need n.
Proof. intros H. pose proof (need_mono 0 n ltac:(lia) H) as Hm. exact Hm. Qed.
Lemma blocks_cons f fs : blocks_of (f :: fs) = need (len (snd f)) + blocks_of fs.
Proof. done. Qed.
Lemma blocks_nonneg fs : 0 <= blocks_of fs.
Proof. induction fs as [|[ip c] fs IH]; [done|]. rewrite blocks_cons. pose proof (need_nonneg (len c) ltac:(unfold len; lia)). cbn [snd]. lia. Qed.
Lemma blocks_app fs fs' : blocks_of (fs ++ fs') = blocks_of fs + blocks_of fs'.
Proof. induction fs as [|f fs IH]; [done|]. cbn [app]. rewrite !blocks_cons, IH. lia. Qed.
Lemma blocks_insert fs k ip c ip' c' : fs !! k = Some (ip, c) -> blocks_of (<[k := (ip', c')]> fs) = blocks_of fs + (need (len c') - need (len c)).
Proof.
  revert k. induction fs as [|f fs IH]; intros [|k] E; try done.
  - injection E as ->. change (<[0%nat := (ip', c')]> ((ip, c) :: fs)) with ((ip', c') :: fs). rewrite !blocks_cons. cbn [snd]. lia.
  - change (<[S k := (ip', c')]> (f :: fs)) with (f :: <[k := (ip', c')]> fs). rewrite !blocks_cons, IH by done. lia.
Qed.

Lemma inum_of_ok fs k (f : inode * list Z) : fs !! k = Some f -> len fs < NINODES -> inum_ok (inum_of k).
Proof. intros E%lookup_lt_Some. unfold len, inum_ok, inum_of. lia. Qed.

(** The inode of file [k] is written. *)
Lemma built_store V fs k ip ip' c :
  (forall k2 ip2 c2, k2 <> k -> fs !! k2 = Some (ip2, c2) -> disk_inode V (inum_of k2) = ip2) ->
  fs !! k = Some (ip, c) -> i_addrs ip' = i_addrs ip -> clean ip' -> content V (next_free fs) fs ->
  (forall k2 ip2 c2, fs !! k2 = Some (ip2, c2) -> sized V ip2 (len c2)) ->
  (forall k2 ip2 c2, k2 <> k -> fs !! k2 = Some (ip2, c2) -> clean ip2) ->
  (forall inum, len fs < inum < NINODES -> unused_inode V inum) -> len fs < NINODES -> V 1 = encode_sb mkfs_sb ->
  (forall b, 2 <= b < 2 + nlog -> V b = zeroes) -> next_free fs <= FSSIZE ->
  built (stored_at V (inum_of k) ip') (<[k := (ip', c)]> fs).
Proof.
  intros Hdisk Hk Ha Hclean Hc Hsz Hcl Hun Hn Hsb Hlog Hroom. pose proof (inum_of_ok _ _ _ Hk Hn) as Hi. destruct (iblock_range _ Hi) as [_ Hr].
  pose proof nmeta_val as Hm. pose proof (blocks_nonneg fs) as Hb.
  assert (next_free (<[k := (ip', c)]> fs) = next_free fs) as En by (unfold next_free; rewrite (blocks_insert fs k ip c) by done; lia).
  assert (len (<[k := (ip', c)]> fs) = len fs) as El by (unfold len; by rewrite length_insert).
  assert (content V (next_free fs) (<[k := (ip', c)]> fs)) as Hc' by (by eapply content_inode). split.
  - rewrite En. apply content_low; [done|lia|unfold next_free; lia|]. rewrite put_dinode_length. apply (ct_len _ _ _ Hc).
  - intros k2 ip2 c2 E. eapply sized_places; [intros n _; by eapply place_low; [exact Hc'|exact E|lia]|].
    apply insert_cases in E as [(-> & [= -> ->] & _)|[_ E]]; [|by eapply Hsz]. destruct (Hsz _ _ _ Hk) as [S1 S2]. split; [intros n Hn'; rewrite (place_addrs V ip) by done; by apply S1|].
    unfold addr_at. rewrite Ha. exact S2.
  - intros k2 ip2 c2 [(-> & [= -> ->] & _)|[Hne E]]%insert_cases; [by apply stored_same; [apply (ct_len _ _ _ Hc)|]|].
    rewrite stored_other by (unfold inum_of; lia). by eapply Hdisk.
  - intros k2 ip2 c2 [(-> & [= -> ->] & _)|[Hne E]]%insert_cases; [done|by eapply Hcl].
  - rewrite El. intros inum Hinum j Hj. rewrite stored_byte; [by apply Hun| |done]. apply lookup_lt_Some in Hk. unfold inum_of, len in *. lia.
  - by rewrite El.
  - unfold stored_at, upd. by rewrite decide_False by lia.
  - intros b Hb'. unfold stored_at, upd. rewrite decide_False; [by apply Hlog|]. change (2 + nlog) with 32 in Hb'. lia.
  - by rewrite En.
Qed.

Lemma addrs_uint V fb fs k ip c : content V fb fs -> fb <= FSSIZE -> fs !! k = Some (ip, c) -> length (i_addrs ip) = 13%nat /\ Forall uint (i_addrs ip).
Proof.
  intros H Hfb Hk. pose proof (ct_addrs _ _ _ H _ _ _ Hk) as Hl. split; [done|]. apply Forall_lookup_2. intros a x Ha. pose proof (lookup_lt_Some _ _ _ Ha).
  assert (0 <= addr_place a <= MAXFILE) as Hp by (unfold addr_place; destruct (a =? 12)%nat; consts; zdiv). pose proof nmeta_val.
  assert (place V ip (addr_place a) = x) as E; [|destruct (ct_range _ _ _ H _ _ _ _ Hk Hp); unfold uint, FSSIZE in *; lia].
  unfold place, addr_place, fblock, addr_at. destruct (Nat.eqb_spec a 12) as [->|]; [by rewrite Z.eqb_refl, Ha|].
  rewrite (proj2 (Z.eqb_neq _ _)), (proj2 (Z.ltb_lt _ _)) by (consts; zdiv). by rewrite Nat2Z.id, Ha.
Qed.

Lemma iappend_spec s V fs k ip c p : state s V fs -> fs !! k = Some (ip, c) -> i_size ip = len c -> len (c ++ p) <= MAXFILE * BSIZE ->
  next_free fs + (need (len (c ++ p)) - need (len c)) <= FSSIZE ->
  wp (iappend (inum_of k) p) (fun _ s' => exists V' ip', state s' V' (<[k := (ip', c ++ p)]> fs) /\ i_type ip' = i_type ip /\ i_size ip' = len (c ++ p)) s.
Proof.
  intros [Hs B] Hk Hsize Hmax Hroom. pose proof (inum_of_ok _ _ _ Hk (bt_count _ _ B)) as Hi. pose proof nmeta_val as Hm. pose proof (blocks_nonneg fs) as Hb.
  unfold iappend. apply wp_bind. eapply wp_rinode; [done|done|]. rewrite (bt_disk _ _ B _ _ _ Hk), Hsize. apply wp_bind.
  eapply wp_mono; [eapply (iappend_loop_spec _ s V (next_free fs) _ fs k ip c p); try done; [apply B|unfold next_free; lia|by eapply (bt_sized _ _ B)|lia]|].
  intros [ip1 off] s1 (V1 & Hs1 & H1 & Hz1 & [G1 G2 G3] & E1). cbn [fst snd] in *. subst off. fold (len (c ++ p)) (len c) in *.
  set (fs1 := <[k := (ip1, c ++ p)]> fs) in *. assert (next_free fs1 = next_free fs + (need (len (c ++ p)) - need (len c))) as En by (unfold next_free, fs1; rewrite (blocks_insert fs k ip c) by done; lia).
  assert (len fs1 = len fs) as El by (unfold len, fs1; by rewrite length_insert).
  assert (fs1 !! k = Some (ip1, c ++ p)) as Hk1 by eauto with xv6.
  eapply wp_winode; [done|done|]. intros s2 Hs2. set (ip2 := set_i_size (len (c ++ p)) ip1) in *.
  assert (<[k := (ip2, c ++ p)]> fs = <[k := (ip2, c ++ p)]> fs1) as Ef by (unfold fs1; by rewrite list_insert_insert_eq).
  exists (stored_at V1 (inum_of k) ip2), ip2. rewrite Ef. split_and!; [|unfold ip2; rewrite G3; done|done]. rewrite <- En in *.
  assert (forall inum, inum_ok inum -> V1 (iblock inum) = V (iblock inum)) as Elow by (intros inum Hin; apply G1; destruct (iblock_range _ Hin); lia).
  assert (forall k2 ip3 c3, k2 <> k -> fs1 !! k2 = Some (ip3, c3) -> fs !! k2 = Some (ip3, c3)) as Hoth by (intros k2 ip3 c3 Hne; unfold fs1; by rewrite list_lookup_insert_ne).
  assert (built (stored_at V1 (inum_of k) ip2) (<[k := (ip2, c ++ p)]> fs1)) as Bt.
  { apply (built_store V1 fs1 k ip1 ip2); try done.
    - intros k2 ip3 c3 Hne E%Hoth; [|done]. unfold disk_inode. rewrite Elow by (by eapply inum_of_ok; [done|apply B]). by eapply (bt_disk _ _ B).
    - destruct (bt_clean _ _ B _ _ _ Hk) as [[T1 T2 T3 T4 T5 T6] C2 C3]. unfold ip2. pose proof (addrs_uint _ _ _ _ _ _ H1 Hroom Hk1) as Ha.
      unfold ip2. rewrite G3. split; [|done|done]. split; try done. cbn. clear -Hmax. unfold uint, len in *. consts. zdiv.
    - intros k2 ip3 c3 E. destruct (decide (k2 = k)) as [->|Hne]; [rewrite Hk1 in E; by injection E as <- <-|]. apply Hoth in E; [|done].
      eapply sized_places; [|by eapply (bt_sized _ _ B)]. intros n Hn. by eapply G2.
    - intros k2 ip3 c3 Hne E%Hoth; [|done]. by eapply (bt_clean _ _ B).
    - rewrite El. intros inum Hin j Hj. rewrite Elow by (unfold inum_ok, len in *; lia). by apply (bt_unused _ _ B).
    - rewrite El. apply B.
    - rewrite G1 by lia. apply B.
    - intros b Hb'. rewrite G1 by (change (2 + nlog) with 32 in Hb'; lia). by apply (bt_log _ _ B). }
  split; [|done]. unfold next_free in *. rewrite (blocks_insert fs1 k ip1 (c ++ p)) by done. rewrite Z.sub_diag, Z.add_0_r. unfold len at 1. rewrite length_insert. fold (len fs1). by rewrite El.
Qed.

Definition new_inode (t : Z) : inode := set_i_size 0 (set_i_nlink 1 (set_i_type t dinode0)).
Lemma place_new V t n : place V (new_inode t) n = 0.
Proof.
  assert (forall a, addr_at (new_inode t) a = 0) as E.
  { intros a. unfold addr_at. change (i_addrs (new_inode t)) with (replicate 13 0).
    destruct (decide (a < 13)%nat); [by rewrite lookup_replicate_2|by rewrite lookup_ge_None_2 by (rewrite length_replicate; lia)]. }
  unfold place, fblock. rewrite !E. destruct (n =? MAXFILE); [done|]. by destruct (n <? NDIRECT).
Qed.
Lemma content_new V fb fs t : content V fb fs -> content V fb (fs ++ [(new_inode t, [])]).
Proof.
  intros H. split.
  - intros k ip c [[_ E]|[-> [= <- <-]]]%lookup_snoc_Some; [by apply (ct_addrs _ _ _ H _ _ _ E)|done].
  - intros k ip c n [[_ E]|[-> [= <- <-]]]%lookup_snoc_Some Hn; [by apply (ct_range _ _ _ H _ _ _ n E)|left; apply place_new].
  - intros k ip c n k' ip' c' n' [[_ E]|[-> [= <- <-]]]%lookup_snoc_Some [[_ E']|[-> [= <- <-]]]%lookup_snoc_Some Hn Hn'; rewrite ?place_new; try done.
    by apply (ct_inj _ _ _ H _ _ _ _ _ _ _ _ E E').
  - intros k ip c j [[_ E]|[-> [= <- <-]]]%lookup_snoc_Some Hj; [by apply (ct_bytes _ _ _ H _ _ _ _ E)|].
    rewrite file_byte_place, place_new, (ct_zero _ _ _ H) by auto. unfold zeroes. rewrite lookup_replicate_2 by (consts; zdiv). done.
  - apply (ct_zero _ _ _ H).
  - eauto with xv6.
Qed.

Lemma ialloc_spec s V fs t : state s V fs -> len fs + 1 < NINODES -> short t ->
  wp (ialloc t) (fun r s' => r = inum_of (length fs) /\ exists V', state s' V' (fs ++ [(new_inode t, [])])) s.
Proof.
  intros [Hs B] Hn Ht. unfold ialloc. apply wp_bind, wp_gets. rewrite (hd_inode _ _ _ _ Hs). fold (inum_of (length fs)). set (inum := inum_of (length fs)).
  apply wp_bind, wp_modify. rewrite u32_id by (unfold inum, inum_of, len, NINODES in *; lia). apply wp_bind.
  set (fs1 := fs ++ [(new_inode t, [])]). assert (fs1 !! length fs = Some (new_inode t, [])) as Hk by (apply lookup_snoc_Some; by right).
  assert (next_free fs1 = next_free fs) as En by (unfold next_free, fs1; rewrite blocks_app; change (blocks_of [(new_inode t, [])]) with 0; lia).
  assert (len fs1 = len fs + 1) as El by (unfold len, fs1; rewrite length_app; cbn; lia).
  eapply wp_winode; [split; cbn; [apply Hs|apply Hs|apply Hs|reflexivity]|unfold inum_ok, inum, inum_of, len in *; lia|].
  intros s' Hs'. apply wp_ret. split; [done|]. exists (stored_at V inum (new_inode t)). split.
  - rewrite En, El. exact Hs'.
  - rewrite <- (list_insert_id fs1 (length fs) _ Hk). apply (built_store V fs1 (length fs) (new_inode t)); try done.
    + intros k2 ip2 c2 Hne [[_ E]|[? _]]%lookup_snoc_Some; [by eapply (bt_disk _ _ B)|done].
    + split; [|done|done]. split; try done. split; [done|]. by repeat constructor.
    + rewrite En. apply content_new, B.
    + intros k2 ip2 c2 [[_ E]|[-> [= <- <-]]]%lookup_snoc_Some; [by eapply (bt_sized _ _ B)|].
      split; [|split; [intros []; apply (place_new V t MAXFILE)|done]]. intros n Hn'. rewrite place_new. unfold len, BSIZE. cbn. lia.
    + intros k2 ip2 c2 Hne [[_ E]|[? _]]%lookup_snoc_Some; [by eapply (bt_clean _ _ B)|done].
    + rewrite El. intros inum' Hin. apply (bt_unused _ _ B). lia.
    + lia.
    + apply B.
    + apply B.
    + rewrite En. apply B.
Qed.

Section copying.
Context {R : Reads} {HR : ReadsOk R}.

Lemma copy_file_spec fuel s V fs k ip c inp : state s V fs -> fs !! k = Some (ip, c) -> i_size ip = len c -> len (c ++ inp) <= MAXFILE * BSIZE ->
  next_free fs + (need (len (c ++ inp)) - need (len c)) <= FSSIZE -> (length inp < fuel)%nat ->
  wp (copy_file fuel (inum_of k) inp)
    (fun _ s' => exists V' ip', state s' V' (<[k := (ip', c ++ inp)]> fs) /\ i_type ip' = i_type ip /\ i_size ip' = len (c ++ inp)) s.
Proof.
  revert s V fs ip c inp. induction fuel as [|fuel IH]; intros s V fs ip c inp Hs Hk Hsize Hmax Hroom Hf; [lia|]. cbn [copy_file].
  destruct inp as [|x inp'] eqn:Einp.
  { rewrite reads_end by auto. apply wp_ret. rewrite app_nil_r. exists V, ip. by rewrite list_insert_id. }
  rewrite <- Einp in *. pose proof (reads_some inp BSIZE ltac:(by subst) ltac:(done)) as Hcc. set (cc := delivered inp BSIZE) in *.
  rewrite (proj2 (Z.ltb_lt _ _)) by lia. set (bs := take (Z.to_nat cc) inp). assert (len bs = cc) as Ebs by (unfold len, bs; rewrite length_take; lia).
  assert (c ++ inp = (c ++ bs) ++ drop (Z.to_nat cc) inp) as Ec by (unfold bs; by rewrite <- app_assoc, take_drop).
  assert (len (c ++ inp) = len c + len inp /\ len (c ++ bs) = len c + cc) as [El1 El2] by (rewrite <- Ebs; unfold len; rewrite !length_app; lia).
  assert (need (len (c ++ bs)) <= need (len (c ++ inp))) as Hneed.
  { rewrite El1, El2. replace (len c + len inp) with (len c + cc + (len inp - cc)) by lia. apply need_mono; unfold len in *; lia. }
  apply wp_bind. eapply wp_mono; [apply (iappend_spec s V fs k ip c bs); try done; [unfold len in *; lia|lia]|].
  intros [] s1 (V1 & ip1 & Hs1 & T1 & Z1). set (fs1 := <[k := (ip1, c ++ bs)]> fs) in *.
  assert (next_free fs1 = next_free fs + (need (len (c ++ bs)) - need (len c))) as En by (unfold next_free, fs1; rewrite (blocks_insert fs k ip c) by done; lia).
  eapply wp_mono; [apply (IH s1 V1 fs1 ip1 (c ++ bs))|].
  - done.
  - eauto with xv6.
  - done.
  - by rewrite <- Ec.
  - rewrite <- Ec, En. lia.
  - rewrite length_drop. lia.
  - intros [] s2 (V2 & ip2 & Hs2 & T2 & Z2). rewrite <- Ec in *. unfold fs1 in Hs2. rewrite list_insert_insert_eq in Hs2. exists V2, ip2. split_and!; [done|congruence|done].
Qed.
End copying.

(** ** The files of the command line *)

Abbreviation arg := (list Z * option (list Z))%type.
Implicit Types (args : list arg) (a : arg).

(** Type, size and content of a file. *)
Definition kind (f : inode * list Z) : Z * Z * list Z := (i_type (fst f), i_size (fst f), snd f).
Definition file_kind (t : Z) c : Z * Z * list Z := (t, len c, c).
Definition arg_content a : list Z := default [] (snd a).

Definition dir_bytes (names : list (list Z)) : list Z :=
  dirent 1 (string_bytes ".") ++ dirent 1 (string_bytes "..") ++ concat (imap (fun k name => dirent (inum_of (S k)) name) names).
Definition root_bytes args : list Z := dir_bytes ((fun a => shortname (fst a)) <$> args).
Definition expected args : list (Z * Z * list Z) :=
  file_kind T_DIR (root_bytes args) :: ((fun a => file_kind T_FILE (arg_content a)) <$> args).

(** The blocks the files need. *)
Definition room args : Z := need (len (root_bytes args)) + foldr (fun a n => need (len (arg_content a)) + n) 0 args.

Record arg_ok a : Prop := {
  ao_name : strchr (past_user (fst a)) 47 = None /\ strlen (shortname (fst a)) <= Z.of_nat DIRSIZ;
  ao_file : is_Some (snd a);
  ao_size : len (arg_content a) <= MAXFILE * BSIZE
}.

Lemma dirent_length inum name : length (dirent inum name) = 16%nat.
Proof.
  unfold dirent, strncpy. rewrite !length_app, put16_length, length_drop, !length_replicate. assert (length (strncpy_out name DIRSIZ) = DIRSIZ) as ->; [|done].
  generalize DIRSIZ as n. intros n. revert name. induction n as [|n IH]; intros name; [done|]. cbn [strncpy_out]. case_match; cbn; [by rewrite length_replicate|by rewrite IH].
Qed.
Lemma root_snoc args a : root_bytes (args ++ [a]) = root_bytes args ++ dirent (inum_of (S (length args))) (shortname (fst a)).
Proof.
  unfold root_bytes, dir_bytes. rewrite fmap_app, imap_app, concat_app. cbn. rewrite length_fmap, app_nil_r, Nat.add_0_r. by rewrite <- !app_assoc.
Qed.
Lemma root_length args : length (root_bytes args) = (16 * (2 + length args))%nat.
Proof.
  induction args as [|a args IH] using rev_ind; [done|]. rewrite root_snoc, !length_app, IH, dirent_length. cbn. lia.
Qed.

Lemma blocks_kind fs : blocks_of fs = foldr (fun f n => need (len (snd f)) + n) 0 (kind <$> fs).
Proof. induction fs as [|f fs IH]; [done|]. rewrite blocks_cons, IH. done. Qed.
Lemma blocks_expected fs args : kind <$> fs = expected args -> blocks_of fs = room args.
Proof.
  intros E. rewrite blocks_kind, E. unfold expected, room. cbn [foldr snd file_kind]. f_equal. clear. induction args as [|a args IH]; [done|].
  cbn [foldr fmap list_fmap snd file_kind]. by rewrite <- IH.
Qed.
Lemma room_snoc args a : room (args ++ [a]) = room args + (need (len (root_bytes (args ++ [a]))) - need (len (root_bytes args))) + need (len (arg_content a)).
Proof.
  unfold room. rewrite foldr_app. cbn [foldr]. rewrite Z.add_0_r. generalize (need (len (arg_content a))) as z. intros z.
  assert (forall l, foldr (fun (a : arg) n => need (len (arg_content a)) + n) z l = foldr (fun (a : arg) n => need (len (arg_content a)) + n) 0 l + z) as ->; [|lia].
  intros l. induction l as [|b l IH]; [done|]. cbn [foldr]. rewrite IH. lia.
Qed.
Lemma root_mono args a : need (len (root_bytes args)) <= need (len (root_bytes (args ++ [a]))).
Proof. rewrite root_snoc. unfold len. rewrite length_app, Nat2Z.inj_add. apply need_mono; lia. Qed.
Lemma room_mono args args' : room args <= room (args ++ args').
Proof.
  revert args. induction args' as [|a args' IH]; intros args; [by rewrite app_nil_r|]. replace (args ++ a :: args') with ((args ++ [a]) ++ args') by (by rewrite <- app_assoc).
  pose proof (IH (args ++ [a])) as H. pose proof (root_mono args a). pose proof (need_nonneg (len (arg_content a)) ltac:(unfold len; lia)). rewrite (room_snoc args a) in H. lia.
Qed.

(** The files on the image are those expected. *)
Definition files_are s args : Prop := exists V fs, state s V fs /\ kind <$> fs = expected args.

Lemma kind_root fs args : kind <$> fs = expected args -> exists ip fs', fs = (ip, root_bytes args) :: fs' /\ i_type ip = T_DIR /\ i_size ip = len (root_bytes args) /\ length fs' = length args.
Proof.
  intros E. destruct fs as [|[ip c] fs']; [done|]. unfold expected in E. rewrite fmap_cons in E. injection E as E1 E2 -> E4. exists ip, fs'. split_and!; try done.
  apply (f_equal length) in E4. by rewrite !length_fmap in E4.
Qed.

Section files.
Context {R : Reads} {HR : ReadsOk R}.

Lemma add_file_spec s args a : files_are s args -> arg_ok a -> len args + 2 < NINODES -> nmeta + room (args ++ [a]) <= FSSIZE ->
  wp (add_file ROOTINO a) (fun _ s' => files_are s' (args ++ [a])) s.
Proof.
  intros (V & fs & Hs & Ek) [[Hn1 Hn2] [content Hf] Hsize] Hcount Hroom. unfold add_file. rewrite Hn1, Hf, (proj2 (Z.leb_le _ _) Hn2).
  assert (arg_content a = content) as Ec by (unfold arg_content; by rewrite Hf). rewrite Ec in Hsize.
  pose proof (blocks_expected _ _ Ek) as Eb. pose proof (room_snoc args a) as Er. pose proof (root_mono args a) as Hrm. rewrite Ec in Er.
  pose proof (need_nonneg (len content) ltac:(unfold len; lia)) as Hnc.
  destruct (kind_root _ _ Ek) as (ip & fs' & -> & T & Sz & L). apply wp_bind, wp_ret, wp_bind, wp_ret, wp_bind.
  eapply wp_mono; [apply (ialloc_spec s V); [done|unfold len in *; cbn; lia|done]|]. intros inum s1 (-> & V1 & Hs1). cbn [length] in *. rewrite L. apply wp_bind.
  set (de := dirent (inum_of (S (length args))) (shortname (fst a))). change ROOTINO with (inum_of 0).
  assert (forall ip, next_free (((ip, root_bytes args) :: fs') ++ [(new_inode T_FILE, [])]) = nmeta + room args) as En.
  { intros ip1. unfold next_free. rewrite blocks_app. change (blocks_of [(new_inode T_FILE, [])]) with 0. rewrite blocks_cons in Eb |- *. cbn [snd] in *. lia. }
  eapply wp_mono; [apply (iappend_spec s1 V1 (((ip, root_bytes args) :: fs') ++ [(new_inode T_FILE, [])]) 0%nat ip (root_bytes args) de); try done|].
  { unfold len, de. rewrite <- root_snoc, root_length, length_app. cbn [length]. unfold len, NINODES in Hcount. consts. zdiv. }
  { rewrite En. unfold de. rewrite <- root_snoc. lia. }
  intros [] s2 (V2 & ip2 & Hs2 & T2 & Z2). unfold de in Hs2, Z2. rewrite <- root_snoc in Hs2, Z2. cbn [app] in Hs2.
  change (<[0%nat := ?x]> (?y :: ?l)) with (x :: l) in Hs2. set (fs2 := (ip2, root_bytes (args ++ [a])) :: fs' ++ [(new_inode T_FILE, [])]) in *.
  assert (fs2 !! S (length args) = Some (new_inode T_FILE, [])) as Hk by (unfold fs2; cbn; rewrite <- L; apply lookup_snoc_Some; by right).
  eapply wp_mono; [apply (copy_file_spec _ s2 V2 fs2 (S (length args)) (new_inode T_FILE) [] content); try done; [|cbn; lia]|].
  { cbn [app]. unfold next_free, fs2. rewrite blocks_cons, blocks_app. change (blocks_of [(new_inode T_FILE, [])]) with 0. change (need (len [])) with 0.
    rewrite blocks_cons in Eb. cbn [snd] in *. lia. }
  intros [] s3 (V3 & ip3 & Hs3 & T3 & Z3). exists V3. eexists. split; [exact Hs3|]. cbn [app] in *. unfold fs2.
  change (<[S (length args) := ?x]> (?y :: ?l)) with (y :: <[length args := x]> l). rewrite <- L, <- (Nat.add_0_r (length fs')), insert_app_r. cbn [list_insert insert].
  unfold expected. rewrite fmap_cons, !fmap_app. unfold expected in Ek. rewrite fmap_cons in Ek. injection Ek as _ _ Ek'. cbn [fmap list_fmap]. rewrite <- Ek', Ec.
  unfold kind, file_kind. cbn [fst snd]. rewrite T2, T3, T, Z2, Z3. done.
Qed.

Lemma add_files_spec s args args' : files_are s args -> Forall arg_ok args' -> len (args ++ args') + 1 < NINODES -> nmeta + room (args ++ args') <= FSSIZE ->
  wp (for_each args' (add_file ROOTINO)) (fun _ s' => files_are s' (args ++ args')) s.
Proof.
  revert s args. induction args' as [|a args' IH]; intros s args Hs Ha Hn Hr; cbn [for_each]; [rewrite app_nil_r; by apply wp_ret|].
  apply Forall_cons in Ha as [Ha Has]. assert (args ++ a :: args' = (args ++ [a]) ++ args') as Ea by (by rewrite <- app_assoc). pose proof (room_mono (args ++ [a]) args').
  apply wp_bind. eapply wp_mono; [apply (add_file_spec s args a); try done; [unfold len in *; rewrite length_app in Hn; cbn in Hn; lia|rewrite Ea in Hr; lia]|].
  intros [] s' Hs'. rewrite Ea in *. by apply IH.
Qed.
End files.

(** ** The empty image *)

Definition empty_image : Z -> list Z := upd (fun _ => zeroes) 1 (encode_sb mkfs_sb).

Lemma encode_length : length (encode_sb mkfs_sb) = Z.to_nat BSIZE.
Proof. unfold encode_sb. autorewrite with block_length. apply length_replicate. Qed.
Lemma decode_encode : decode_sb (encode_sb mkfs_sb) = mkfs_sb.
Proof. vm_compute. reflexivity. Qed.

Lemma zero_blocks_spec s fi : image (data s) = ∅ -> freeblock (data s) = nmeta -> freeinode (data s) = fi ->
  wp (for_each (seqZ 0 FSSIZE) (fun i => wsect i zeroes)) (fun _ s' => holds s' (fun _ => zeroes) nmeta fi) s.
Proof.
  intros H0 Hb Hi. apply (wp_for_each (fun rest s' => exists t, 0 <= t <= FSSIZE /\ rest = seqZ t (FSSIZE - t) /\
    (forall b, 0 <= b < t -> image (data s') !! b = Some zeroes) /\ (forall b d, image (data s') !! b = Some d -> 0 <= b < FSSIZE) /\
    freeblock (data s') = nmeta /\ freeinode (data s') = fi)).
  - exists 0. split_and!; try done; [intros b Hb'; lia|]. rewrite H0. intros b d E. by rewrite lookup_empty in E.
  - intros b rest s' (t & Ht & E & Him & Hout & Hfb & Hfi). destruct (decide (t = FSSIZE)) as [->|Hne]; [by rewrite Z.sub_diag in E|].
    rewrite seqZ_cons in E by lia. injection E as -> ->. unfold wsect. apply wp_modify. exists (Z.succ t). split_and!; [lia|lia| | | |done|done].
    + f_equal. lia.
    + intros b Hb'. cbn. rewrite sector_id by lia. destruct (decide (b = t)) as [->|]; [by rewrite lookup_insert_eq|]. rewrite lookup_insert_ne by done. apply Him. lia.
    + intros b d. cbn. rewrite sector_id by lia. intros [[<- _]|[_ E]]%lookup_insert_Some; [lia|by eapply Hout].
  - intros s' (t & Ht & E & Him & Hout & Hfb & Hfi). split; [|done|done|done]. intros b Hb'. apply Him. destruct (decide (t = FSSIZE)); [lia|]. by rewrite seqZ_cons in E by lia.
Qed.

Lemma zeroes_length : length zeroes = Z.to_nat BSIZE.
Proof. apply length_replicate. Qed.
Lemma empty_built : built empty_image [].
Proof.
  pose proof nmeta_val as Hm. assert (forall b, b <> 1 -> empty_image b = zeroes) as E by (intros b Hb; unfold empty_image, upd; by rewrite decide_False).
  split; try done.
  - split; try done.
    + intros b Hb. apply E. change (next_free []) with 46 in Hb. lia.
    + intros b. unfold empty_image, upd. case_decide; [apply encode_length|apply zeroes_length].
  - intros inum Hin j Hj. assert (inum_ok inum) as Hi by (unfold inum_ok, len in *; cbn in Hin; lia). destruct (iblock_range _ Hi). rewrite E by lia.
    unfold zeroes. apply lookup_replicate_2. pose proof (dinode_off_fits inum). lia.
  - intros b Hb. apply E. lia.
Qed.

(** ** The free map *)

Lemma used_map_spec n : 0 <= n <= BPB -> length (used_map n) = Z.to_nat BSIZE /\ forall b, 0 <= b < BPB -> bit (used_map n) b = (b <? n).
Proof.
  intros Hn. rewrite <- (Z2Nat.id n) in * by lia. set (m := Z.to_nat n) in *. clearbody m. clear n. induction m as [|m IH].
  - split; [apply zeroes_length|]. intros b Hb. assert ((b <? Z.of_nat 0) = false) as -> by lia. unfold bit. change (used_map (Z.of_nat 0)) with zeroes. unfold zeroes.
    rewrite lookup_replicate_2; [cbn; apply Z.bits_0|]. unfold bit_byte, BPB, BSIZE in *. zdiv.
  - destruct IH as [IH1 IH2]; [lia|]. assert (used_map (Z.of_nat (S m)) = set_bit (used_map (Z.of_nat m)) (Z.of_nat m)) as E.
    { unfold used_map. replace (Z.of_nat (S m)) with (Z.of_nat m + 1) by lia. rewrite seqZ_app by lia. rewrite foldl_app. cbn. by rewrite Z.add_0_l. }
    rewrite E, set_bit_length. split; [done|]. intros b Hb. rewrite bit_set; [|rewrite IH1; unfold BPB, BSIZE in *; lia|lia]. rewrite IH2 by done. case_decide; lia.
Qed.

(** ** The whole program *)

(** The root directory's size is rounded up to the next block. *)
Definition final_kinds args : list (Z * Z * list Z) :=
  (T_DIR, (len (root_bytes args) / BSIZE + 1) * BSIZE, root_bytes args) :: ((fun a => file_kind T_FILE (arg_content a)) <$> args).

(** The inode the kernel reads. *)
Definition kernel_inode V (inum : Z) : inode := get_dinode (V (IBLOCK inum mkfs_sb)) (dinode_off inum) dinode0.

(** The image is the blocks of the file system, and nothing else. *)
Definition image_is (m : gmap Z (list Z)) V : Prop :=
  (forall b, 0 <= b < FSSIZE -> m !! b = Some (V b)) /\ (forall b d, m !! b = Some d -> 0 <= b < FSSIZE).

(** A disk the kernel can use, holding the files: [fb] is the first free block. *)
Record image_ok V args (fb : Z) : Prop := {
  io_super : decode_sb (V 1) = mkfs_sb;
  io_log : forall b, 2 <= b < 2 + nlog -> V b = zeroes;
  io_layout : map_layout (dev := ROOTDEV) (sb_logstart mkfs_sb) mkfs_sb V;
  io_used b : 0 <= b < FSSIZE -> used mkfs_sb V b = (b <? fb);
  io_unused inum : len args + 1 < inum < NINODES -> get16 (V (IBLOCK inum mkfs_sb)) (dinode_off inum) = 0;
  io_inode k t size c : final_kinds args !! k = Some (t, size, c) -> let ip := kernel_inode V (inum_of k) in
    i_type ip = t /\ i_nlink ip = 1 /\ i_size ip = size;
  io_content k t size c j : final_kinds args !! k = Some (t, size, c) -> 0 <= j < MAXFILE * BSIZE ->
    file_byte V (kernel_inode V (inum_of k)) j = default 0 (c !! Z.to_nat j);
  io_mapped k t size c bn : final_kinds args !! k = Some (t, size, c) -> 0 <= bn -> bn * BSIZE < len c -> let ip := kernel_inode V (inum_of k) in
    mapped V ip bn /\ nmeta <= fblock V ip bn < fb;
  io_apart k k' n n' : (k < length (final_kinds args))%nat -> (k' < length (final_kinds args))%nat -> 0 <= n <= MAXFILE -> 0 <= n' <= MAXFILE ->
    place V (kernel_inode V (inum_of k)) n <> 0 ->
    place V (kernel_inode V (inum_of k)) n = place V (kernel_inode V (inum_of k')) n' -> k = k' /\ n = n'
}.

Lemma built_inode V fs k ip c : built V fs -> fs !! k = Some (ip, c) -> kernel_inode V (inum_of k) = ip.
Proof.
  intros B Hk. pose proof (inum_of_ok _ _ _ Hk (bt_count _ _ B)) as Hi. unfold kernel_inode. rewrite (proj1 (iblock_range _ Hi)). by apply (bt_disk _ _ B _ _ _ Hk).
Qed.

(** The map is written to a block no file uses. *)
Lemma built_map V fs d : built V fs -> length d = Z.to_nat BSIZE -> built (upd V 45 d) fs.
Proof.
  intros B Hd. pose proof nmeta_val as Hm. pose proof (blocks_nonneg fs) as Hb.
  assert (forall inum, inum_ok inum -> upd V 45 d (iblock inum) = V (iblock inum)) as E by (intros inum Hi; destruct (iblock_range _ Hi); unfold upd; by rewrite decide_False by lia).
  split.
  - apply content_low; [apply B|lia|unfold next_free; lia|done].
  - intros k ip c Hk. eapply sized_places; [|by eapply (bt_sized _ _ B)]. intros n _. eapply place_low; [apply B|done|lia].
  - intros k ip c Hk. unfold disk_inode. rewrite E by (by eapply inum_of_ok; [done|apply B]). by eapply (bt_disk _ _ B).
  - apply B.
  - intros inum Hin j Hj. rewrite E by (unfold inum_ok, len in *; lia). by apply (bt_unused _ _ B).
  - apply B.
  - unfold upd. rewrite decide_False by lia. apply B.
  - intros b Hb'. unfold upd. rewrite decide_False by (change (2 + nlog) with 32 in Hb'; lia). by apply (bt_log _ _ B).
  - apply B.
Qed.

Lemma built_mapped V fs k ip c bn : built V fs -> fs !! k = Some (ip, c) -> len c <= MAXFILE * BSIZE -> 0 <= bn -> bn * BSIZE < len c ->
  mapped V ip bn /\ nmeta <= fblock V ip bn < next_free fs.
Proof.
  intros B Hk Hmax Hbn Hin. pose proof nmeta_val as Hm. pose proof (bt_room _ _ B) as Hr. unfold FSSIZE in Hr.
  assert (0 <= bn < MAXFILE) as Hr1 by (clear -Hmax Hbn Hin; consts; zdiv). assert (0 <= MAXFILE <= MAXFILE) as HM by (consts; zdiv).
  destruct (bt_sized _ _ B _ _ _ Hk) as [S1 S2]. pose proof (proj2 (S1 bn Hr1) Hin) as Hne.
  destruct (ct_range _ _ _ (bt_content _ _ B) _ _ _ bn Hk ltac:(lia)) as [?|Hp]; [done|]. rewrite place_data in Hp by done. split; [|done].
  split; [apply (ct_addrs _ _ _ (bt_content _ _ B) _ _ _ Hk)|done|lia|]. intros Hd. change (Z.to_nat NDIRECT) with 12%nat.
  assert (addr_at ip 12 <> 0) as Ha by (apply S2; clear -Hd Hin; unfold NDIRECT, BSIZE in *; lia).
  destruct (ct_range _ _ _ (bt_content _ _ B) _ _ _ MAXFILE Hk HM) as [?|Hp']; rewrite ?place_ind in *; [done|lia].
Qed.

(** What is built is what the kernel expects. *)
Lemma built_ok V fs args : built V fs -> kind <$> fs = final_kinds args -> Forall arg_ok args -> len args + 1 < NINODES ->
  V 45 = used_map (next_free fs) -> image_ok V args (next_free fs).
Proof.
  intros B Ek Ha Hn Hmap. pose proof nmeta_val as Hm. pose proof (blocks_nonneg fs) as Hb. pose proof (bt_room _ _ B) as Hr. pose proof (bt_content _ _ B) as Hc.
  assert (0 <= next_free fs <= BPB) as Hf by (unfold next_free, FSSIZE, BPB, BSIZE in *; lia). destruct (used_map_spec _ Hf) as [Hl Hbit].
  assert (forall b, 0 <= b < FSSIZE -> map_block mkfs_sb b = 45) as Hblk.
  { intros b Hb'. unfold map_block. change (sb_bmapstart mkfs_sb) with 45. change BPB with 8192. rewrite Z.div_small; [done|unfold FSSIZE in *; lia]. }
  assert (forall b, 0 <= b < FSSIZE -> used mkfs_sb V b = (b <? next_free fs)) as Hused.
  { intros b Hb'. unfold used. rewrite Hblk, Hmap by done. rewrite Z.mod_small by (change BPB with 8192; unfold FSSIZE in *; lia). apply Hbit. change BPB with 8192. unfold FSSIZE in *. lia. }
  assert (forall k t size c, final_kinds args !! k = Some (t, size, c) -> exists ip, fs !! k = Some (ip, c) /\ i_type ip = t /\ i_size ip = size /\ len c <= MAXFILE * BSIZE) as Hk.
  { intros k t size c E. pose proof E as E'. rewrite <- Ek, list_lookup_fmap in E. destruct (fs !! k) as [[ip c']|]; [|done]. injection E as <- <- ->. exists ip. split_and!; try done.
    unfold final_kinds in E'. rewrite lookup_cons in E'. destruct k as [|k]; [injection E' as _ _ <-; unfold len in *; rewrite root_length; unfold NINODES in Hn; consts; zdiv|].
    rewrite list_lookup_fmap in E'. destruct (args !! k) as [a|] eqn:Ea; [|done]. injection E' as _ _ <-. apply (Forall_lookup_1 _ _ _ _ Ha Ea). }
  assert (length fs = S (length args)) as Elen by (apply (f_equal length) in Ek; unfold final_kinds in Ek; cbn in Ek; by rewrite !length_fmap in Ek).
  assert (forall k, (k < length (final_kinds args))%nat -> exists ip c, fs !! k = Some (ip, c)) as Hlook.
  { intros k Hk'. rewrite <- Ek, length_fmap in Hk'. destruct (lookup_lt_is_Some_2 _ _ Hk') as [[ip c] E]. eauto. }
  split.
  - by rewrite (bt_super _ _ B), decode_encode.
  - apply B.
  - split; try done.
    + apply Hc.
    + intros b Hb' Hlog. change (sb_size mkfs_sb) with FSSIZE in Hb'. rewrite Hblk in Hlog by done. unfold in_log in Hlog. change (sb_logstart mkfs_sb) with 2 in Hlog. change LOGSIZE with 30 in Hlog. lia.
    + intros b Hb' Hc'. change (sb_size mkfs_sb) with FSSIZE in *. rewrite Hused by done. apply Z.ltb_lt. unfold next_free.
      destruct Hc' as [Hlog|(b' & Hb2 & ->)]; [unfold in_log in Hlog; change (sb_logstart mkfs_sb) with 2 in Hlog; change LOGSIZE with 30 in Hlog; lia|rewrite Hblk by done; lia].
  - done.
  - intros inum Hin. assert (inum_ok inum) as Hi by (unfold inum_ok, len in *; lia). rewrite (proj1 (iblock_range _ Hi)).
    assert (unused_inode V inum) as Hu by (apply B; unfold len in *; lia). unfold get16. pose proof (Hu 0%nat ltac:(lia)) as E0. pose proof (Hu 1%nat ltac:(lia)) as E1.
    rewrite Nat.add_0_r in E0. rewrite Nat.add_1_r in E1. by rewrite E0, E1.
  - intros k t size c (ip & E & T & Z & _)%Hk. cbv zeta. rewrite (built_inode V fs k ip c) by done. destruct (bt_clean _ _ B _ _ _ E) as [_ _ (_ & _ & N)]. done.
  - intros k t size c j (ip & E & _)%Hk Hj. rewrite (built_inode V fs k ip c) by done. by apply (ct_bytes _ _ _ Hc _ _ _ _ E).
  - intros k t size c bn (ip & E & _ & _ & L)%Hk Hbn Hin. cbv zeta. rewrite (built_inode V fs k ip c) by done. by eapply built_mapped.
  - intros k k' n n' (ip & c & E)%Hlook (ip' & c' & E')%Hlook Hn1 Hn2. rewrite (built_inode V fs k ip c), (built_inode V fs k' ip' c') by done.
    by apply (ct_inj _ _ _ Hc _ _ _ _ _ _ _ _ E E').
Qed.

Section whole.
Context {R : Reads} {HR : ReadsOk R}.

(** The root directory with its two entries. *)
Lemma root_spec s V (Q : Z -> st mkfs_st -> Prop) : state s V [] ->
  (forall s', files_are s' [] -> Q ROOTINO s') ->
  wp (rootino <- ialloc T_DIR ;; assert_ (rootino =? ROOTINO) ;; iappend rootino (dirent rootino (string_bytes ".")) ;;
      iappend rootino (dirent rootino (string_bytes "..")) ;; ret rootino) Q s.
Proof.
  intros Hs HQ. apply wp_bind. eapply wp_mono; [by apply (ialloc_spec s V [])|]. intros inum s1 (-> & V1 & Hs1). cbn [length]. apply wp_bind, wp_ret.
  change (inum_of 0) with 1. apply wp_bind. eapply wp_mono; [by apply (iappend_spec s1 V1 [(new_inode T_DIR, [])] 0 (new_inode T_DIR) [])|].
  intros [] s2 (V2 & ip2 & Hs2 & T2 & Z2). apply wp_bind. eapply wp_mono; [by apply (iappend_spec s2 V2 _ 0 ip2 ([] ++ dirent 1 (string_bytes ".")) (dirent 1 (string_bytes "..")) Hs2)|].
  intros [] s3 (V3 & ip3 & Hs3 & T3 & Z3). apply wp_ret, HQ. exists V3. eexists. split; [exact Hs3|]. cbn [list_insert insert fmap list_fmap]. unfold kind, expected, file_kind. cbn [fst snd fmap list_fmap].
  rewrite T3, T2, Z3. done.
Qed.

Lemma mkfs_main_spec args s : image (data s) = ∅ -> freeinode (data s) = 1 -> Forall arg_ok args -> len args + 1 < NINODES -> nmeta + room args <= FSSIZE ->
  wp (mkfs_main args) (fun _ s' => exists V, image_is (image (data s')) V /\ image_ok V args (nmeta + room args)) s.
Proof.
  intros H0 Hi Ha Hn Hr. unfold mkfs_main. apply wp_bind, wp_modify, wp_bind. eapply wp_mono; [by apply zero_blocks_spec|]. intros [] s1 Hs1.
  apply wp_bind. eapply wp_wsect; [done|done|]. intros s2 Hs2. pose proof (root_spec s2 empty_image) as Hroot.
  specialize (Hroot (fun r s' => r = ROOTINO /\ files_are s' []) (conj Hs2 empty_built) ltac:(done)).
  apply wp_bind_inv in Hroot. apply wp_bind. eapply wp_mono; [exact Hroot|]. clear Hroot. intros inum s3 Hroot.
  apply wp_bind_inv in Hroot. apply wp_bind. eapply wp_mono; [exact Hroot|]. clear Hroot. intros [] s4 Hroot.
  apply wp_bind_inv in Hroot. apply wp_bind. eapply wp_mono; [exact Hroot|]. clear Hroot. intros [] s5 Hroot.
  apply wp_bind_inv in Hroot. apply wp_bind. eapply wp_mono; [exact Hroot|]. clear Hroot. intros [] s6 [-> Hs6].
  apply wp_bind. eapply wp_mono; [by apply (add_files_spec s6 [] args)|]. cbn [app]. intros [] s7 (V & fs & [Hs7 B] & Ek).
  destruct (kind_root _ _ Ek) as (ip & fs' & -> & T & Sz & L). pose proof (blocks_expected _ _ Ek) as Eb. unfold fix_root. change ROOTINO with (inum_of 0).
  set (fs := (ip, root_bytes args) :: fs') in *. assert (fs !! 0%nat = Some (ip, root_bytes args)) as Hk0 by done. pose proof (inum_of_ok _ _ _ Hk0 (bt_count _ _ B)) as Hi0.
  apply wp_bind, wp_bind. eapply wp_rinode; [done|done|]. rewrite (bt_disk _ _ B _ _ _ Hk0). eapply wp_winode; [done|done|]. intros s8 Hs8.
  assert (0 <= (i_size ip / BSIZE + 1) * BSIZE < 2 ^ 32) as Hsz by (rewrite Sz; unfold len in *; rewrite root_length; unfold NINODES in Hn; clear -Hn; unfold BSIZE; zdiv).
  rewrite u32_id in Hs8 by done. set (ip' := set_i_size ((i_size ip / BSIZE + 1) * BSIZE) ip) in *.
  assert (built (stored_at V (inum_of 0) ip') (<[0%nat := (ip', root_bytes args)]> fs)) as B'.
  { apply (built_store V fs 0 ip); try done; try apply B; [intros k2 ip2 c2 _; apply B| |intros k2 ip2 c2 _; apply B].
    destruct (bt_clean _ _ B _ _ _ Hk0) as [[T1 T2 T3 T4 T5 T6] C2 C3]. split; [|done|done]. by split. }
  apply wp_bind, wp_gets. rewrite (hd_block _ _ _ _ Hs8). unfold next_free. rewrite Eb. unfold balloc.
  rewrite (proj2 (Z.ltb_lt _ _)) by (unfold FSSIZE in Hr; change BPB with 8192; lia). apply wp_bind, wp_ret. eapply wp_wsect; [done|done|]. intros s9 Hs9.
  eexists. split; [split; [apply Hs9|intros b d; apply (hd_size _ _ _ _ Hs9)]|]. pose proof (blocks_nonneg fs) as Hb. rewrite Eb in Hb. change (sb_bmapstart mkfs_sb) with 45 in *.
  set (fs1 := <[0%nat := (ip', root_bytes args)]> fs) in *. assert (next_free fs1 = nmeta + room args) as En by (unfold next_free, fs1; rewrite (blocks_insert fs 0 ip (root_bytes args)) by done; lia).
  rewrite <- En. apply (built_ok _ fs1).
  - apply built_map; [done|]. apply used_map_spec. pose proof nmeta_val. unfold FSSIZE in Hr. change BPB with 8192. lia.
  - unfold expected in Ek. unfold fs, fs1 in *. rewrite fmap_cons in Ek. injection Ek as _ _ Ek'. unfold final_kinds. rewrite <- Ek', <- Sz. change (kind <$> <[0%nat := ?x]> (?y :: ?l)) with (kind x :: (kind <$> l)). f_equal. unfold kind. cbn [fst snd]. by rewrite <- T.
  - done.
  - done.
  - unfold upd. by rewrite decide_True.
Qed.

Lemma mkfs_image args : Forall arg_ok args -> len args + 1 < NINODES -> nmeta + room args <= FSSIZE ->
  exists s V, mkfs args = Ret tt s /\ image_is (image (data s)) V /\ image_ok V args (nmeta + room args).
Proof.
  intros Ha Hn Hr. destruct (proj1 (wp_run _ _ _) (mkfs_main_spec args (mk_st [] (mk_mkfs ∅ 1 0)) eq_refl eq_refl Ha Hn Hr)) as ([] & s & E & V & H1 & H2).
  exists s, V. split; [exact E|split; [exact H1|exact H2]].
Qed.

(** C2: [mkfs] builds a file system the kernel can use.  Given files with short
    names that fit, it comes to an end with an image in which: the super block
    is the one the kernel decodes; the log is empty, so that recovery at boot
    does nothing; exactly the blocks below the first free one are marked in the
    free map, the map and the log among them, as [balloc] and [bfree] require;
    inodes not used are free for [ialloc]; and every file, and the root
    directory with its entries, has an inode of its type and size and reads, by
    the kernel's way from inode to block, as the bytes that were put in, in
    blocks that no other place of any file shares. *)
Theorem mkfs_builds_file_system args : Forall arg_ok args -> len args + 1 < NINODES -> nmeta + room args <= FSSIZE ->
  exists s V, mkfs args = Ret tt s /\ image_is (image (data s)) V /\ image_ok V args (nmeta + room args).
Proof. apply mkfs_image. Qed.
End whole.

Definition sample_args : list arg :=
  [(string_bytes "user/_cat", Some (replicate 1500 7)); (string_bytes "README", Some (string_bytes "xv6"))].
Lemma sample_args_ok : Forall arg_ok sample_args.
Proof.
  repeat apply Forall_cons_2; [| |by apply Forall_nil_2]; (split; [split; [reflexivity|by vm_compute]|by eexists|]);
    unfold len, arg_content; cbn [snd default]; rewrite ?length_replicate; by vm_compute.
Qed.
Definition host_reads : Reads := fun inp n => Z.max 0 (Z.min n (Z.of_nat (length inp))).
Lemma host_reads_ok : ReadsOk host_reads.
Proof. split; unfold delivered, host_reads; [intros [|x inp] n H Hn|intros inp n [->| ->]]; cbn [length] in *; (done || lia). Qed.

Lemma mkfs_builds_file_system_witness :
  exists s V, @mkfs host_reads sample_args = Ret tt s /\ image_is (image (data s)) V /\ image_ok V sample_args 50.
Proof. apply (@mkfs_builds_file_system host_reads host_reads_ok sample_args); [exact sample_args_ok|by vm_compute|by vm_compute]. Defined.
