(* ===== verification/MkfsBoot.v ===== *)
(** * Booting from the image

    The kernel started with a disk that mkfs/mkfs.c has built: [fsinit] of
    kernel/fs.c accepts it, and recovery leaves the files as they were. *)

From S2P Require Import Ulib Prelude Spinlock Riscv Kalloc Vm Queue PriorityQueue KString Proc ProcProofs ProcLife FsState FsBytes Env Sleeplock Virtio World VirtioProofs Bio Lru BioProofs Log LogSpec LogProofs FsBoot FsExample LogTheorems Fs BlockAlloc InodeProofs Mkfs MkfsProofs MkfsAppend MkfsTheorems.

Ltac Zify.zify_post_hook ::= idtac.

Implicit Types (f : fsys) (k : kst fsys) (m : gmap Z (list Z)) (V : Z -> list Z).

(** The log of the image is empty: recovery has nothing to do. *)
Lemma image_recovers m V args fb : image_is m V -> image_ok V args fb -> recovers_to 2 m (blk m) /\ decode_sb (blk m 1) = mkfs_sb.
Proof.
  intros [Hm _] Hok. assert (blk m 1 = V 1 /\ blk m 2 = zeroes) as [E1 E2].
  { unfold blk. rewrite !Hm by (unfold FSSIZE; lia). split; [done|]. apply (io_log _ _ _ Hok). done. }
  split; [|by rewrite E1, (io_super _ _ _ Hok)]. assert (hdr_count (blk m 2) = 0) as Ec by (rewrite E2; unfold hdr_count; by rewrite get32_zeroes).
  assert (targets 2 m = []) as Et by (unfold targets, hdr_targets; by rewrite Ec). split.
  - split; [lia|]. rewrite Et. split; [done|done|constructor|by intros h ?%not_elem_of_nil].
  - intros n _. unfold replay. by rewrite Et.
Qed.

Section mount.
Context {waits : Waits} {mmio : VirtioMmio}.
Context {device : fsys -> fsys} {back : st (kst fsys) -> st (kst fsys)} {Hdev : DiskDevice device} {Hback : Scheduler back}.
Context (pid0 : Z) (i : nat).
Abbreviation env := (disk_env device back).

Lemma rep_frame_sb f x v : cache_rep ROOTDEV pid0 f x -> cache_rep ROOTDEV pid0 (set_sb v f) x.
Proof. intros [[o [Hc Hn Ha Hl]] ? ? ? ? ? ? ? ? ? ?]. split; try done. exists o. split; try done. Qed.

(** The super block is read into memory; nothing else changes. *)
Lemma wpe_readsb P f m k (Q : unit -> st (kst fsys) -> Prop) :
  cache_rep ROOTDEV pid0 f (mk_bst m ∅ ∅) -> at_work i pid0 k -> P m ->
  (forall f' k', cache_rep ROOTDEV pid0 f' (mk_bst m ∅ ∅) -> sb f' = decode_sb (blk m 1) -> lg f' = lg f -> at_work i pid0 k' ->
     Q tt (mk_st [] (set_files f' k'))) ->
  wpe env (on_medium P) (readsb ROOTDEV) Q (mk_st [] (set_files f k)).
Proof.
  intros H Hw HP HQ. unfold readsb. wpe_step.
  eapply (bl_bread (BlockLayer := cache_layer device back i pid0 ROOTDEV)); [exact H|done|done|lia|right; cbn; rewrite map_size_empty; unfold NBUF; lia| |done|].
  { rewrite block_of_None by done. done. }
  intros b f1 k1 H1 K1. rewrite (x_read_eq _ _ _ _ _ 0 (blk m 1)) in H1 by (by apply block_of_None).
  wpe_step. apply wp_wpe. eapply (bl_bdata (BlockLayer := cache_layer device back i pid0 ROOTDEV) f1 _ 1 b); [exact H1|cbn; by simplify_map_eq|].
  rewrite (view_Some _ _ _ _ 1 (blk m 1)) by by simplify_map_eq.
  wpe_step. apply wp_wpe, wp_fs_modify. set (f2 := set_sb _ f1). pose proof (rep_frame_sb f1 _ (decode_sb (blk m 1)) H1) as H2. fold f2 in H2.
  apply wp_wpe. eapply (bl_brelse (BlockLayer := cache_layer device back i pid0 ROOTDEV) f2 _ 1 b); [exact H2|apply K1|cbn; by simplify_map_eq| |].
  { intros _. rewrite (view_Some _ _ _ _ 1 (blk m 1)) by by simplify_map_eq. done. }
  intros f3 H3 K3. rewrite (x_release_last _ _ _ _ (blk m 1)) in H3 by by simplify_map_eq. rewrite !delete_insert_id in H3 by done.
  destruct K3 as [[A1 A2 _ _ _ _] W _]. destruct K1 as [[B1 _ _ _ _ _] _ _]. apply HQ; [done|by rewrite A2|by rewrite A1|done].
Qed.

Lemma wpe_fsinit m s : booted ROOTDEV pid0 i m s -> recovers_to 2 m (blk m) -> decode_sb (blk m 1) = mkfs_sb ->
  wpe env (on_medium (fun m' => recovers_to 2 m' (blk m))) (fsinit ROOTDEV)
    (fun _ s' => sb (files (data s')) = mkfs_sb /\ settled 2 (disk_of (data s')) (blk m)) s.
Proof.
  intros (f & k & -> & H & Hw & Hl & Hn) Hm Hsb. unfold fsinit. wpe_step. eapply wpe_readsb; [exact H|exact Hw|exact Hm|].
  intros f1 k1 H1 S1 L1 W1. wpe_step. apply wp_wpe, wp_fs_gets. rewrite S1, Hsb. change (sb_magic mkfs_sb =? FSMAGIC) with true. cbn [negb].
  unfold initlog. change (BSIZE <=? 4 + 4 * LOGSIZE) with false. cbv iota. wpe_step. apply wp_wpe, wp_upd_log. set (f2 := set_lg _ f1).
  pose proof (bl_frame (BlockLayer := cache_layer device back i pid0 ROOTDEV) f1 _ (lg f2) H1 : cache_rep ROOTDEV pid0 f2 _) as H2.
  eapply (wpe_recover_from_log (BL := cache_layer device back i pid0 ROOTDEV) 2 f2 m k1 []); [exact H2|done| |done|].
  - split; cbn; rewrite ?L1; done.
  - intros f3 k3 D' H3 S3 _ [[_ A2 _ _ _ _] _ _]. split; [cbn; rewrite A2; cbn; by rewrite S1|]. unfold disk_of. cbn. by rewrite (cr_medium _ _ _ _ H3).
Qed.
End mount.

Section boot.
Context {waits : Waits} {mmio : VirtioMmio}.
Context {device : fsys -> fsys} {back : st (kst fsys) -> st (kst fsys)} {Hdev : DiskDevice device} {Hback : Scheduler back}.
Context {R : Reads} {HR : ReadsOk R}.

End boot.

(** ** The machine of the examples, with another disk *)

Definition fs_with m : fsys := set_dk (set_medium m disk0) fs0.
Definition started_with m : st (kst fsys) := result_or (mk_st [] kernel0) (binit (mk_st [] (set_files (fs_with m) kernel0))).

Lemma started_booted m : (forall n d, m !! n = Some d -> length d = Z.to_nat BSIZE) -> booted ROOTDEV 1 0 m (started_with m).
Proof.
  intros Hm. assert (cold (fs_with m)) as Hc by (destruct fs0_cold as [C1 C2 C3 C4 _]; by split).
  destruct (binit_result (fs_with m) kernel0 (mk_st [] kernel0) Hc) as (f & E & H & [R1 _ _ _ _ _]).
  exists f, kernel0. rewrite R1. split_and!; [exact E|exact H|apply kernel0_at_work|done|done].
Qed.
Lemma image_lengths m V args fb n d : image_is m V -> image_ok V args fb -> m !! n = Some d -> length d = Z.to_nat BSIZE.
Proof. intros [H1 H2] Hok E. pose proof (H2 _ _ E) as Hn. rewrite (H1 n Hn) in E. injection E as <-. apply (ml_len _ _ _ (io_layout _ _ _ Hok)). Qed.

