(* ===== verification/UserTests.v ===== *)
(** * The kernel's tests as programs (user/usertests.c)

    Each test is the tree of the system calls it makes.  A test runs in a child
    of the driver, which has not touched [buf], so [buf] starts out zero; what a
    [read] puts into it is carried along where the test looks at it.  The
    allocator of umalloc.c, which [mem] calls, is in Umalloc. *)

From S2P Require Import Prelude Riscv KString FsState Ulib UPrintf Grep UserProg.
From ITree Require Import ITree.

Definition BUFSZ : Z := (MAXOPBLOCKS + 2) * BSIZE.
Definition buf0 : list Z := replicate (Z.to_nat BUFSZ) 0.

(** What the locals of a test hold before they are set, the stack pointer. *)
Class TestMem : Type := { local_de : list Z; local_block : list Z; stack_pointer : Z }.

(** [if (b) { printf(...); exit(1); }] *)
Definition oops (b : bool) (fmt : string) (args : list uarg) : prog unit :=
  if b then _ ← printf fmt args; exit 1 else Ret tt.
Definition str (s : list Z) : uarg := UStr (Some s).
(** [for (i = a; i < b; i++)] *)
Definition for_range (a b : Z) (body : Z -> prog unit) : prog unit := for_args (seqZ a (b - a)) body.
(** A call whose result is not looked at. *)
Definition call (e : sysE Z) : prog unit := _ ← sys e; Ret tt.
Definition MINUS1 : Z := 2 ^ 64 - 1.
Definition c_0 : Z := 48.   (* '0' *)

Record test : Type := mk_test { t_f : list Z -> prog unit; t_s : list Z }.

Section tests.
Context {locals : TestMem}.
Implicit Types s : list Z.

(** ** Pointers that are not the program's *)

Definition bad_addrs : list Z := [0x80000000; 0x3fffffe000; 0x3ffffff000; 0x4000000000; 0xffffffffffffffff].

Definition copyin s : prog unit :=
  for_args bad_addrs (fun addr =>
    fd ← sys (Open (lit "copyin1") (Z.lor O_CREATE O_WRONLY));
    _ ← oops (fd <? 0) "open(copyin1) failed\n" [];
    n ← sys (WriteAt fd addr 8192);
    _ ← oops (0 <=? n) "write(fd, %p, 8192) returned %d, not -1\n" [UNum addr; UNum n];
    _ ← call (Close fd);
    _ ← call (Unlink (lit "copyin1"));
    n ← sys (WriteAt 1 addr 8192);
    _ ← oops (0 <? n) "write(1, %p, 8192) returned %d, not -1 or 0\n" [UNum addr; UNum n];
    '(r, (p0, p1)) ← sys Pipe;
    _ ← oops (r <? 0) "pipe() failed\n" [];
    n ← sys (WriteAt p1 addr 8192);
    _ ← oops (0 <? n) "write(pipe, %p, 8192) returned %d, not -1 or 0\n" [UNum addr; UNum n];
    _ ← call (Close p0);
    call (Close p1)).

Definition copyout s : prog unit :=
  for_args (0 :: bad_addrs) (fun addr =>
    fd ← sys (Open (lit "README") 0);
    _ ← oops (fd <? 0) "open(README) failed\n" [];
    n ← sys (ReadAt fd addr 8192);
    _ ← oops (0 <? n) "read(fd, %p, 8192) returned %d, not -1 or 0\n" [UNum addr; UNum n];
    _ ← call (Close fd);
    '(r, (p0, p1)) ← sys Pipe;
    _ ← oops (r <? 0) "pipe() failed\n" [];
    n ← sys (Write p1 (lit "x"));
    _ ← oops (negb (n =? 1)) "pipe write failed\n" [];
    n ← sys (ReadAt p0 addr 8192);
    _ ← oops (0 <? n) "read(pipe, %p, 8192) returned %d, not -1 or 0\n" [UNum addr; UNum n];
    _ ← call (Close p0);
    call (Close p1)).

Definition copyinstr1 s : prog unit :=
  for_args bad_addrs (fun addr =>
    fd ← sys (OpenAt addr (Z.lor O_CREATE O_WRONLY));
    oops (0 <=? fd) "open(%p) returned %d, not -1\n" [UNum addr; UNum fd]).

Definition copyinstr2 s : prog unit :=
  let b := replicate (Z.to_nat MAXPATH) 120 in
  ret ← sys (Unlink b);
  _ ← oops (negb (ret =? -1)) "unlink(%s) returned %d, not -1\n" [str b; UNum ret];
  fd ← sys (Open b (Z.lor O_CREATE O_WRONLY));
  _ ← oops (negb (fd =? -1)) "open(%s) returned %d, not -1\n" [str b; UNum fd];
  ret ← sys (Link b b);
  _ ← oops (negb (ret =? -1)) "link(%s, %s) returned %d, not -1\n" [str b; str b; UNum ret];
  ret ← sys (ExecE b [lit "xx"]);
  _ ← oops (negb (ret =? -1)) "exec(%s) returned %d, not -1\n" [str b; UNum fd];
  pid ← sys Fork;
  _ ← oops (pid <? 0) "fork failed\n" [];
  _ ← (if pid =? 0 then
         let big := replicate (Z.to_nat PGSIZE) 120 in
         ret ← sys (ExecE (lit "echo") [big; big; big]);
         _ ← oops (negb (ret =? -1)) "exec(echo, BIG) returned %d, not -1\n" [UNum fd];
         exit 747
       else Ret tt);
  '(_, st) ← sys WaitStatus;
  oops (negb (st =? 747)) "exec(echo, BIG) succeeded, should have failed\n" [].

Definition copyinstr3 s : prog unit :=
  _ ← call (Sbrk 8192);
  top ← sys (Sbrk 0);
  _ ← (if negb (top mod PGSIZE =? 0) then call (Sbrk (PGSIZE - top mod PGSIZE)) else Ret tt);
  top ← sys (Sbrk 0);
  _ ← oops (negb (top mod PGSIZE =? 0)) "oops\n" [];
  let b := u64 (top - 1) in
  _ ← sys (StoreByte b 120);
  ret ← sys (UnlinkAt b);
  _ ← (if negb (ret =? -1) then
         t ← sys (LoadStr b);
         _ ← printf "unlink(%s) returned %d, not -1\n" [str t; UNum ret];
         exit 1
       else Ret tt);
  fd ← sys (OpenAt b (Z.lor O_CREATE O_WRONLY));
  _ ← (if negb (fd =? -1) then
         t ← sys (LoadStr b);
         _ ← printf "open(%s) returned %d, not -1\n" [str t; UNum fd];
         exit 1
       else Ret tt);
  ret ← sys (LinkAt b b);
  _ ← (if negb (ret =? -1) then
         t ← sys (LoadStr b);
         _ ← printf "link(%s, %s) returned %d, not -1\n" [str t; str t; UNum ret];
         exit 1
       else Ret tt);
  ret ← sys (ExecAt b [lit "xx"]);
  if negb (ret =? -1) then
    t ← sys (LoadStr b);
    _ ← printf "exec(%s) returned %d, not -1\n" [str t; UNum fd];
    exit 1
  else Ret tt.

Definition rwsbrk s : prog unit :=
  a ← sys (Sbrk 8192);
  _ ← oops (a =? MINUS1) "sbrk(rwsbrk) failed\n" [];
  r ← sys (Sbrk (-8192));
  _ ← oops (r =? MINUS1) "sbrk(rwsbrk) shrink failed\n" [];
  fd ← sys (Open (lit "rwsbrk") (Z.lor O_CREATE O_WRONLY));
  _ ← oops (fd <? 0) "open(rwsbrk) failed\n" [];
  n ← sys (WriteAt fd (u64 (a + 4096)) 1024);
  _ ← oops (0 <=? n) "write(fd, %p, 1024) returned %d, not -1\n" [UNum (a + 4096); UNum n];
  _ ← call (Close fd);
  _ ← call (Unlink (lit "rwsbrk"));
  fd ← sys (Open (lit "README") O_RDONLY);
  _ ← oops (fd <? 0) "open(rwsbrk) failed\n" [];
  n ← sys (ReadAt fd (u64 (a + 4096)) 10);
  _ ← oops (0 <=? n) "read(fd, %p, 10) returned %d, not -1\n" [UNum (a + 4096); UNum n];
  _ ← call (Close fd);
  exit 0.

(** ** Files *)

Definition truncate1 s : prog unit :=
  _ ← call (Unlink (lit "truncfile"));
  fd1 ← sys (Open (lit "truncfile") (Z.lor (Z.lor O_CREATE O_WRONLY) O_TRUNC));
  _ ← call (Write fd1 (lit "abcd"));
  _ ← call (Close fd1);
  fd2 ← sys (Open (lit "truncfile") O_RDONLY);
  '(n, _) ← sys (Read fd2 32);
  _ ← oops (negb (n =? 4)) "%s: read %d bytes, wanted 4\n" [str s; UNum n];
  fd1 ← sys (Open (lit "truncfile") (Z.lor O_WRONLY O_TRUNC));
  fd3 ← sys (Open (lit "truncfile") O_RDONLY);
  '(n, _) ← sys (Read fd3 32);
  _ ← (if negb (n =? 0) then
         _ ← printf "aaa fd3=%d\n" [UNum fd3];
         _ ← printf "%s: read %d bytes, wanted 0\n" [str s; UNum n];
         exit 1
       else Ret tt);
  '(n, _) ← sys (Read fd2 32);
  _ ← (if negb (n =? 0) then
         _ ← printf "bbb fd2=%d\n" [UNum fd2];
         _ ← printf "%s: read %d bytes, wanted 0\n" [str s; UNum n];
         exit 1
       else Ret tt);
  _ ← call (Write fd1 (lit "abcdef"));
  '(n, _) ← sys (Read fd3 32);
  _ ← oops (negb (n =? 6)) "%s: read %d bytes, wanted 6\n" [str s; UNum n];
  '(n, _) ← sys (Read fd2 32);
  _ ← oops (negb (n =? 2)) "%s: read %d bytes, wanted 2\n" [str s; UNum n];
  _ ← call (Unlink (lit "truncfile"));
  _ ← call (Close fd1);
  _ ← call (Close fd2);
  call (Close fd3).

Definition truncate2 s : prog unit :=
  _ ← call (Unlink (lit "truncfile"));
  fd1 ← sys (Open (lit "truncfile") (Z.lor (Z.lor O_CREATE O_TRUNC) O_WRONLY));
  _ ← call (Write fd1 (lit "abcd"));
  fd2 ← sys (Open (lit "truncfile") (Z.lor O_TRUNC O_WRONLY));
  n ← sys (Write fd1 (lit "x"));
  _ ← oops (negb (n =? -1)) "%s: write returned %d, expected -1\n" [str s; UNum n];
  _ ← call (Unlink (lit "truncfile"));
  _ ← call (Close fd1);
  call (Close fd2).

Definition truncate3 s : prog unit :=
  fd ← sys (Open (lit "truncfile") (Z.lor (Z.lor O_CREATE O_TRUNC) O_WRONLY));
  _ ← call (Close fd);
  pid ← sys Fork;
  _ ← oops (pid <? 0) "%s: fork failed\n" [str s];
  _ ← (if pid =? 0 then
         _ ← for_range 0 100 (fun _ =>
           fd ← sys (Open (lit "truncfile") O_WRONLY);
           _ ← oops (fd <? 0) "%s: open failed\n" [str s];
           n ← sys (Write fd (lit "1234567890"));
           _ ← oops (negb (n =? 10)) "%s: write got %d, expected 10\n" [str s; UNum n];
           _ ← call (Close fd);
           fd ← sys (Open (lit "truncfile") O_RDONLY);
           _ ← sys (Read fd 32);
           call (Close fd));
         exit 0
       else Ret tt);
  _ ← for_range 0 150 (fun _ =>
    fd ← sys (Open (lit "truncfile") (Z.lor (Z.lor O_CREATE O_WRONLY) O_TRUNC));
    _ ← oops (fd <? 0) "%s: open failed\n" [str s];
    n ← sys (Write fd (lit "xxx"));
    _ ← oops (negb (n =? 3)) "%s: write got %d, expected 3\n" [str s; UNum n];
    call (Close fd));
  '(_, xstatus) ← sys WaitStatus;
  _ ← call (Unlink (lit "truncfile"));
  exit xstatus.

Definition iputtest s : prog unit :=
  r ← sys (Mkdir (lit "iputdir"));
  _ ← oops (r <? 0) "%s: mkdir failed\n" [str s];
  r ← sys (Chdir (lit "iputdir"));
  _ ← oops (r <? 0) "%s: chdir iputdir failed\n" [str s];
  r ← sys (Unlink (lit "../iputdir"));
  _ ← oops (r <? 0) "%s: unlink ../iputdir failed\n" [str s];
  r ← sys (Chdir (lit "/"));
  oops (r <? 0) "%s: chdir / failed\n" [str s].

Definition exitiputtest s : prog unit :=
  pid ← sys Fork;
  _ ← oops (pid <? 0) "%s: fork failed\n" [str s];
  _ ← (if pid =? 0 then
         r ← sys (Mkdir (lit "iputdir"));
         _ ← oops (r <? 0) "%s: mkdir failed\n" [str s];
         r ← sys (Chdir (lit "iputdir"));
         _ ← oops (r <? 0) "%s: child chdir failed\n" [str s];
         r ← sys (Unlink (lit "../iputdir"));
         _ ← oops (r <? 0) "%s: unlink ../iputdir failed\n" [str s];
         exit 0
       else Ret tt);
  '(_, xstatus) ← sys WaitStatus;
  exit xstatus.

Definition openiputtest s : prog unit :=
  r ← sys (Mkdir (lit "oidir"));
  _ ← oops (r <? 0) "%s: mkdir oidir failed\n" [str s];
  pid ← sys Fork;
  _ ← oops (pid <? 0) "%s: fork failed\n" [str s];
  _ ← (if pid =? 0 then
         fd ← sys (Open (lit "oidir") O_RDWR);
         _ ← oops (0 <=? fd) "%s: open directory for write succeeded\n" [str s];
         exit 0
       else Ret tt);
  _ ← call (SleepE 1);
  r ← sys (Unlink (lit "oidir"));
  _ ← oops (negb (r =? 0)) "%s: unlink failed\n" [str s];
  '(_, xstatus) ← sys WaitStatus;
  exit xstatus.

Definition opentest s : prog unit :=
  fd ← sys (Open (lit "echo") 0);
  _ ← oops (fd <? 0) "%s: open echo failed!\n" [str s];
  _ ← call (Close fd);
  fd ← sys (Open (lit "doesnotexist") 0);
  oops (0 <=? fd) "%s: open doesnotexist succeeded!\n" [str s].

Definition writetest s : prog unit :=
  let N := 100 in let SZ := 10 in
  fd ← sys (Open (lit "small") (Z.lor O_CREATE O_RDWR));
  _ ← oops (fd <? 0) "%s: error: creat small failed!\n" [str s];
  _ ← for_range 0 N (fun i =>
    r ← sys (Write fd (lit "aaaaaaaaaa"));
    _ ← oops (negb (r =? SZ)) "%s: error: write aa %d new file failed\n" [str s; UNum i];
    r ← sys (Write fd (lit "bbbbbbbbbb"));
    oops (negb (r =? SZ)) "%s: error: write bb %d new file failed\n" [str s; UNum i]);
  _ ← call (Close fd);
  fd ← sys (Open (lit "small") O_RDONLY);
  _ ← oops (fd <? 0) "%s: error: open small failed!\n" [str s];
  '(i, _) ← sys (Read fd (N * SZ * 2));
  _ ← oops (negb (i =? N * SZ * 2)) "%s: read failed\n" [str s];
  _ ← call (Close fd);
  r ← sys (Unlink (lit "small"));
  oops (r <? 0) "%s: unlink small failed\n" [str s].

(** [((int* )buf)[0] = i]; what a read leaves of the buffer. *)
Definition put_int (b : list Z) (i : Z) : list Z := put32 b 0 i.
Definition read_into (b c : list Z) : list Z := c ++ drop (length c) b.

(** The reading loop of [writebig], with the buffer and the block number. *)
Definition writebig_read s (fd : Z) (st : list Z * Z) : prog ((list Z * Z) + unit) :=
  let '(b, n) := st in
  '(i, c) ← sys (Read fd BSIZE);
  let b := read_into b c in
  if i =? 0 then
    _ ← oops (negb (n =? MAXFILE)) "%s: read only %d blocks from big" [str s; UNum n];
    Ret (inr tt)
  else
    _ ← oops (negb (i =? BSIZE)) "%s: read failed %d\n" [str s; UNum i];
    _ ← oops (negb (i32 (get32 b 0) =? n)) "%s: read content of block %d is %d\n" [str s; UNum n; UNum (i32 (get32 b 0))];
    Ret (inl (b, n + 1)).
Definition writebig s : prog unit :=
  fd ← sys (Open (lit "big") (Z.lor O_CREATE O_RDWR));
  _ ← oops (fd <? 0) "%s: error: creat big failed!\n" [str s];
  _ ← for_range 0 MAXFILE (fun i =>
    r ← sys (Write fd (take (Z.to_nat BSIZE) (put_int buf0 i)));
    oops (negb (r =? BSIZE)) "%s: error: write big file failed i=%d\n" [str s; UNum i]);
  _ ← call (Close fd);
  fd ← sys (Open (lit "big") O_RDONLY);
  _ ← oops (fd <? 0) "%s: error: open big failed!\n" [str s];
  _ ← ITree.iter (writebig_read s fd) (put_int buf0 (MAXFILE - 1), 0);
  _ ← call (Close fd);
  r ← sys (Unlink (lit "big"));
  oops (r <? 0) "%s: unlink big failed\n" [str s].

Definition createtest s : prog unit :=
  let N := 52 in
  _ ← for_range 0 N (fun i =>
    fd ← sys (Open [97; u8 (c_0 + i)] (Z.lor O_CREATE O_RDWR));
    call (Close fd));
  for_range 0 N (fun i => call (Unlink [97; u8 (c_0 + i)])).

Definition dirtest s : prog unit :=
  r ← sys (Mkdir (lit "dir0"));
  _ ← oops (r <? 0) "%s: mkdir failed\n" [str s];
  r ← sys (Chdir (lit "dir0"));
  _ ← oops (r <? 0) "%s: chdir dir0 failed\n" [str s];
  r ← sys (Chdir (lit ".."));
  _ ← oops (r <? 0) "%s: chdir .. failed\n" [str s];
  r ← sys (Unlink (lit "dir0"));
  oops (r <? 0) "%s: unlink dir0 failed\n" [str s].

Definition exectest s : prog unit :=
  _ ← call (Unlink (lit "echo-ok"));
  pid ← sys Fork;
  _ ← oops (pid <? 0) "%s: fork failed\n" [str s];
  _ ← (if pid =? 0 then
         _ ← call (Close 1);
         fd ← sys (Open (lit "echo-ok") (Z.lor O_CREATE O_WRONLY));
         _ ← oops (fd <? 0) "%s: create failed\n" [str s];
         _ ← oops (negb (fd =? 1)) "%s: wrong fd\n" [str s];
         r ← sys (ExecE (lit "echo") [lit "echo"; lit "OK"]);
         oops (r <? 0) "%s: exec echo failed\n" [str s]
       else Ret tt);
  '(r, xstatus) ← sys WaitStatus;
  _ ← (if negb (r =? pid) then printf "%s: wait failed!\n" [str s] else Ret tt);
  if negb (xstatus =? 0) then exit xstatus
  else
    fd ← sys (Open (lit "echo-ok") O_RDONLY);
    _ ← oops (fd <? 0) "%s: open failed\n" [str s];
    '(r, c) ← sys (Read fd 2);
    _ ← oops (negb (r =? 2)) "%s: read failed\n" [str s];
    _ ← call (Unlink (lit "echo-ok"));
    if (nth 0 c 0 =? 79) && (nth 1 c 0 =? 75) then exit 0
    else
      _ ← printf "%s: wrong output\n" [str s];
      exit 1.

(** ** Processes *)

(** The reading loop of [pipe1], with the next byte expected, the bytes so far
    and the size of the next read; [None] when a byte is wrong. *)
Definition pipe1_read s (fd : Z) (st : Z * Z * Z) : prog ((Z * Z * Z) + option Z) :=
  let '(seq, total, cc) := st in
  '(n, c) ← sys (Read fd cc);
  if 0 <? n then
    if bool_decide (take (Z.to_nat n) c = (fun k => u8 (seq + k)) <$> seqZ 0 n) then
      Ret (inl (seq + n, total + n, if BUFSZ <? cc * 2 then BUFSZ else cc * 2))
    else
      _ ← printf "%s: pipe1 oops 2\n" [str s];
      Ret (inr None)
  else Ret (inr (Some total)).
Definition pipe1 s : prog unit :=
  let N := 5 in let SZ := 1033 in
  '(r, (p0, p1)) ← sys Pipe;
  _ ← oops (negb (r =? 0)) "%s: pipe() failed\n" [str s];
  pid ← sys Fork;
  if pid =? 0 then
    _ ← call (Close p0);
    _ ← for_range 0 N (fun n =>
      r ← sys (Write p1 ((fun k => u8 (n * SZ + k)) <$> seqZ 0 SZ));
      oops (negb (r =? SZ)) "%s: pipe1 oops 1\n" [str s]);
    exit 0
  else if 0 <? pid then
    _ ← call (Close p1);
    r ← ITree.iter (pipe1_read s p0) (0, 0, 1);
    match r with
    | None => Ret tt
    | Some total =>
        _ ← oops (negb (total =? N * SZ)) "%s: pipe1 oops 3 total %d\n" [str s; UNum total];
        _ ← call (Close p0);
        '(_, xstatus) ← sys WaitStatus;
        exit xstatus
    end
  else
    _ ← printf "%s: fork() failed\n" [str s];
    exit 1.

(** [while (1) body] and [for (;;) ;] *)
Definition forever {A} (body : prog unit) : prog A := ITree.iter (fun _ : unit => _ ← body; Ret (inl tt)) tt.
Definition spin {A} : prog A := forever (Ret tt).

Definition killstatus s : prog unit :=
  _ ← for_range 0 100 (fun _ =>
    pid1 ← sys Fork;
    _ ← oops (pid1 <? 0) "%s: fork failed\n" [str s];
    _ ← (if pid1 =? 0 then forever (call Getpid) else Ret tt);
    _ ← call (SleepE 1);
    _ ← call (KillE pid1);
    '(_, xst) ← sys WaitStatus;
    oops (negb (xst =? -1)) "%s: status should be -1\n" [str s]);
  exit 0.

Definition preempt s : prog unit :=
  pid1 ← sys Fork;
  _ ← oops (pid1 <? 0) "%s: fork failed" [str s];
  _ ← (if pid1 =? 0 then spin else Ret tt);
  pid2 ← sys Fork;
  _ ← oops (pid2 <? 0) "%s: fork failed\n" [str s];
  _ ← (if pid2 =? 0 then spin else Ret tt);
  '(_, (p0, p1)) ← sys Pipe;
  pid3 ← sys Fork;
  _ ← oops (pid3 <? 0) "%s: fork failed\n" [str s];
  _ ← (if pid3 =? 0 then
         _ ← call (Close p0);
         r ← sys (Write p1 (lit "x"));
         _ ← (if negb (r =? 1) then printf "%s: preempt write error" [str s] else Ret tt);
         _ ← call (Close p1);
         spin
       else Ret tt);
  _ ← call (Close p1);
  '(r, _) ← sys (Read p0 BUFSZ);
  if negb (r =? 1) then printf "%s: preempt read error" [str s]
  else
    _ ← call (Close p0);
    _ ← printf "kill... " [];
    _ ← call (KillE pid1);
    _ ← call (KillE pid2);
    _ ← call (KillE pid3);
    _ ← printf "wait... " [];
    _ ← call Wait;
    _ ← call Wait;
    call Wait.

Definition exitwait s : prog unit :=
  for_range 0 100 (fun i =>
    pid ← sys Fork;
    _ ← oops (pid <? 0) "%s: fork failed\n" [str s];
    if negb (pid =? 0) then
      '(r, xstate) ← sys WaitStatus;
      _ ← oops (negb (r =? pid)) "%s: wait wrong pid\n" [str s];
      oops (negb (i =? xstate)) "%s: wait wrong exit status\n" [str s]
    else exit i).

Definition reparent s : prog unit :=
  master_pid ← sys Getpid;
  _ ← for_range 0 200 (fun _ =>
    pid ← sys Fork;
    _ ← oops (pid <? 0) "%s: fork failed\n" [str s];
    if negb (pid =? 0) then
      r ← sys Wait;
      oops (negb (r =? pid)) "%s: wait wrong pid\n" [str s]
    else
      pid2 ← sys Fork;
      if pid2 <? 0 then
        _ ← call (KillE master_pid);
        exit 1
      else exit 0);
  exit 0.

Definition twochildren s : prog unit :=
  for_range 0 1000 (fun _ =>
    pid1 ← sys Fork;
    _ ← oops (pid1 <? 0) "%s: fork failed\n" [str s];
    if pid1 =? 0 then exit 0
    else
      pid2 ← sys Fork;
      _ ← oops (pid2 <? 0) "%s: fork failed\n" [str s];
      if pid2 =? 0 then exit 0
      else
        _ ← call Wait;
        call Wait).

Definition forkfork s : prog unit :=
  let N := 2 in
  _ ← for_range 0 N (fun _ =>
    pid ← sys Fork;
    _ ← oops (pid <? 0) "%s: fork failed" [str s];
    if pid =? 0 then
      _ ← for_range 0 200 (fun _ =>
        pid1 ← sys Fork;
        if pid1 <? 0 then exit 1
        else if pid1 =? 0 then exit 0
        else call Wait);
      exit 0
    else Ret tt);
  for_range 0 N (fun _ =>
    '(_, xstatus) ← sys WaitStatus;
    oops (negb (xstatus =? 0)) "%s: fork in child failed" [str s]).

Definition close_new (path : string) : prog unit :=
  fd ← sys (Open (lit path) (Z.lor O_CREATE O_RDWR)); call (Close fd).
Definition forkforkfork s : prog unit :=
  _ ← call (Unlink (lit "stopforking"));
  pid ← sys Fork;
  _ ← oops (pid <? 0) "%s: fork failed" [str s];
  _ ← (if pid =? 0 then
         forever (
           fd ← sys (Open (lit "stopforking") 0);
           if 0 <=? fd then exit 0
           else
             r ← sys Fork;
             if r <? 0 then close_new "stopforking" else Ret tt)
       else Ret tt);
  _ ← call (SleepE 20);
  _ ← close_new "stopforking";
  _ ← call Wait;
  call (SleepE 10).

Definition reparent2 s : prog unit :=
  _ ← for_range 0 800 (fun _ =>
    pid1 ← sys Fork;
    _ ← oops (pid1 <? 0) "fork failed\n" [];
    _ ← (if pid1 =? 0 then
           _ ← call Fork;
           _ ← call Fork;
           exit 0
         else Ret tt);
    call Wait);
  exit 0.

Definition mem s : prog unit :=
  pid ← sys Fork;
  if pid =? 0 then
    m1 ← ITree.iter (fun m1 : Z =>
      m2 ← sys (Malloc 10001);
      if negb (m2 =? 0) then _ ← sys (StoreWord m2 m1); Ret (inl m2) else Ret (inr m1)) 0;
    _ ← ITree.iter (fun m1 : Z =>
      if negb (m1 =? 0) then
        m2 ← sys (LoadWord m1);
        _ ← sys (Free m1);
        Ret (inl m2)
      else Ret (inr tt)) m1;
    m1 ← sys (Malloc (1024 * 20));
    _ ← oops (m1 =? 0) "%s: couldn't allocate mem?!!\n" [str s];
    _ ← sys (Free m1);
    exit 0
  else
    '(_, xstatus) ← sys WaitStatus;
    if xstatus =? -1 then exit 0 else exit xstatus.

(** ** More files *)

(** The counting loop of [sharedfd]: the buffer, the numbers of c and p. *)
Definition sharedfd_read (fd : Z) (st : list Z * Z * Z) : prog ((list Z * Z * Z) + (Z * Z)) :=
  let '(b, nc, np) := st in
  '(n, c) ← sys (Read fd 10);
  let b := read_into b c in
  if 0 <? n then
    Ret (inl (b, nc + Z.of_nat (length (filter (fun x => x = 99) b)), np + Z.of_nat (length (filter (fun x => x = 112) b))))
  else Ret (inr (nc, np)).
Definition sharedfd s : prog unit :=
  let N := 1000 in let SZ := 10 in
  _ ← call (Unlink (lit "sharedfd"));
  fd ← sys (Open (lit "sharedfd") (Z.lor O_CREATE O_RDWR));
  _ ← oops (fd <? 0) "%s: cannot open sharedfd for writing" [str s];
  pid ← sys Fork;
  let b := replicate (Z.to_nat SZ) (if pid =? 0 then 99 else 112) in
  _ ← for_range 0 N (fun _ =>
    r ← sys (Write fd b);
    oops (negb (r =? SZ)) "%s: write sharedfd failed\n" [str s]);
  _ ← (if pid =? 0 then exit 0
       else
         '(_, xstatus) ← sys WaitStatus;
         if negb (xstatus =? 0) then exit xstatus else Ret tt);
  _ ← call (Close fd);
  fd ← sys (Open (lit "sharedfd") 0);
  _ ← oops (fd <? 0) "%s: cannot open sharedfd for reading\n" [str s];
  '(nc, np) ← ITree.iter (sharedfd_read fd) (b, 0, 0);
  _ ← call (Close fd);
  _ ← call (Unlink (lit "sharedfd"));
  if (nc =? N * SZ) && (np =? N * SZ) then exit 0
  else
    _ ← printf "%s: nc/np test fails\n" [str s];
    exit 1.

(** Reading a file to its end: every byte must be [x]; the bytes read. *)
Definition all_bytes s (fd x total : Z) : prog (Z + Z) :=
  '(n, c) ← sys (Read fd BUFSZ);
  if 0 <? n then
    _ ← oops (negb (forallb (fun y => y =? x) (take (Z.to_nat n) c))) "%s: wrong char\n" [str s];
    Ret (inl (total + n))
  else Ret (inr total).
Definition fourfiles s : prog unit :=
  let names := ["f0"; "f1"; "f2"; "f3"] in
  let N := 12 in let NCHILD := 4 in let SZ := 500 in
  let name pi := lit (nth (Z.to_nat pi) names "") in
  _ ← for_range 0 NCHILD (fun pi =>
    _ ← call (Unlink (name pi));
    pid ← sys Fork;
    _ ← oops (pid <? 0) "%s: fork failed\n" [str s];
    if pid =? 0 then
      fd ← sys (Open (name pi) (Z.lor O_CREATE O_RDWR));
      _ ← oops (fd <? 0) "%s: create failed\n" [str s];
      _ ← for_range 0 N (fun _ =>
        n ← sys (Write fd (replicate (Z.to_nat SZ) (u8 (c_0 + pi))));
        oops (negb (n =? SZ)) "write failed %d\n" [UNum n]);
      exit 0
    else Ret tt);
  _ ← for_range 0 NCHILD (fun _ =>
    '(_, xstatus) ← sys WaitStatus;
    if negb (xstatus =? 0) then exit xstatus else Ret tt);
  for_range 0 NCHILD (fun i =>
    fd ← sys (Open (name i) 0);
    total ← ITree.iter (all_bytes s fd (c_0 + i)) 0;
    _ ← call (Close fd);
    _ ← oops (negb (total =? N * SZ)) "wrong length %d\n" [UNum total];
    call (Unlink (name i))).

Definition createdelete s : prog unit :=
  let N := 20 in let NCHILD := 4 in
  let name pi i := [u8 (112 + pi); u8 (c_0 + i)] in
  _ ← for_range 0 NCHILD (fun pi =>
    pid ← sys Fork;
    _ ← oops (pid <? 0) "%s: fork failed\n" [str s];
    if pid =? 0 then
      _ ← for_range 0 N (fun i =>
        fd ← sys (Open (name pi i) (Z.lor O_CREATE O_RDWR));
        _ ← oops (fd <? 0) "%s: create failed\n" [str s];
        _ ← call (Close fd);
        if (0 <? i) && (i mod 2 =? 0) then
          r ← sys (Unlink (name pi (i / 2)));
          oops (r <? 0) "%s: unlink failed\n" [str s]
        else Ret tt);
      exit 0
    else Ret tt);
  _ ← for_range 0 NCHILD (fun _ =>
    '(_, xstatus) ← sys WaitStatus;
    if negb (xstatus =? 0) then exit 1 else Ret tt);
  _ ← for_range 0 N (fun i => for_range 0 NCHILD (fun pi =>
    fd ← sys (Open (name pi i) 0);
    _ ← (if ((i =? 0) || (N / 2 <=? i)) && (fd <? 0) then
           _ ← printf "%s: oops createdelete %s didn't exist\n" [str s; str (name pi i)];
           exit 1
         else oops ((1 <=? i) && (i <? N / 2) && (0 <=? fd)) "%s: oops createdelete %s did exist\n" [str s; str (name pi i)]);
    if 0 <=? fd then call (Close fd) else Ret tt));
  for_range 0 N (fun i => for_range 0 NCHILD (fun pi => call (Unlink (name pi i)))).

Definition unlinkread s : prog unit :=
  let SZ := 5 in
  fd ← sys (Open (lit "unlinkread") (Z.lor O_CREATE O_RDWR));
  _ ← oops (fd <? 0) "%s: create unlinkread failed\n" [str s];
  _ ← call (Write fd (lit "hello"));
  _ ← call (Close fd);
  fd ← sys (Open (lit "unlinkread") O_RDWR);
  _ ← oops (fd <? 0) "%s: open unlinkread failed\n" [str s];
  r ← sys (Unlink (lit "unlinkread"));
  _ ← oops (negb (r =? 0)) "%s: unlink unlinkread failed\n" [str s];
  fd1 ← sys (Open (lit "unlinkread") (Z.lor O_CREATE O_RDWR));
  _ ← call (Write fd1 (lit "yyy"));
  _ ← call (Close fd1);
  '(r, c) ← sys (Read fd BUFSZ);
  _ ← oops (negb (r =? SZ)) "%s: unlinkread read failed" [str s];
  let b := read_into buf0 c in
  _ ← oops (negb (nth 0 b 0 =? 104)) "%s: unlinkread wrong data\n" [str s];
  r ← sys (Write fd (take 10 b));
  _ ← oops (negb (r =? 10)) "%s: unlinkread write failed\n" [str s];
  _ ← call (Close fd);
  call (Unlink (lit "unlinkread")).

Definition linktest s : prog unit :=
  let SZ := 5 in
  _ ← call (Unlink (lit "lf1"));
  _ ← call (Unlink (lit "lf2"));
  fd ← sys (Open (lit "lf1") (Z.lor O_CREATE O_RDWR));
  _ ← oops (fd <? 0) "%s: create lf1 failed\n" [str s];
  r ← sys (Write fd (lit "hello"));
  _ ← oops (negb (r =? SZ)) "%s: write lf1 failed\n" [str s];
  _ ← call (Close fd);
  r ← sys (Link (lit "lf1") (lit "lf2"));
  _ ← oops (r <? 0) "%s: link lf1 lf2 failed\n" [str s];
  _ ← call (Unlink (lit "lf1"));
  r ← sys (Open (lit "lf1") 0);
  _ ← oops (0 <=? r) "%s: unlinked lf1 but it is still there!\n" [str s];
  fd ← sys (Open (lit "lf2") 0);
  _ ← oops (fd <? 0) "%s: open lf2 failed\n" [str s];
  '(r, _) ← sys (Read fd BUFSZ);
  _ ← oops (negb (r =? SZ)) "%s: read lf2 failed\n" [str s];
  _ ← call (Close fd);
  r ← sys (Link (lit "lf2") (lit "lf2"));
  _ ← oops (0 <=? r) "%s: link lf2 lf2 succeeded! oops\n" [str s];
  _ ← call (Unlink (lit "lf2"));
  r ← sys (Link (lit "lf2") (lit "lf1"));
  _ ← oops (0 <=? r) "%s: link non-existent succeeded! oops\n" [str s];
  r ← sys (Link (lit ".") (lit "lf1"));
  oops (0 <=? r) "%s: link . lf1 succeeded! oops\n" [str s].

(** The reading loop of [concreate]: the entry, which numbers were seen. *)
Definition concreate_read s (fd : Z) (st : list Z * list bool * Z) : prog ((list Z * list bool * Z) + Z) :=
  let '(de, fa, n) := st in
  '(r, c) ← sys (Read fd 16);
  let de := read_into de c in
  if 0 <? r then
    if de_inum de =? 0 then Ret (inl (de, fa, n))
    else if (nth 2 de 0 =? 67) && (nth 4 de 0 =? 0) then
      let i := nth 3 de 0 - c_0 in
      _ ← oops ((i <? 0) || (40 <=? i)) "%s: concreate weird file %s\n" [str s; str (drop 2 de)];
      _ ← oops (nth (Z.to_nat i) fa false) "%s: concreate duplicate file %s\n" [str s; str (drop 2 de)];
      Ret (inl (de, <[Z.to_nat i := true]> fa, n + 1))
    else Ret (inl (de, fa, n))
  else Ret (inr n).
Definition concreate s : prog unit :=
  let N := 40 in
  let file i := [67; u8 (c_0 + i)] in
  _ ← for_range 0 N (fun i =>
    _ ← call (Unlink (file i));
    pid ← sys Fork;
    _ ← (if negb (pid =? 0) && (i mod 3 =? 1) then call (Link (lit "C0") (file i))
         else if (pid =? 0) && (i mod 5 =? 1) then call (Link (lit "C0") (file i))
         else
           fd ← sys (Open (file i) (Z.lor O_CREATE O_RDWR));
           _ ← oops (fd <? 0) "concreate create %s failed\n" [str (file i)];
           call (Close fd));
    if pid =? 0 then exit 0
    else
      '(_, xstatus) ← sys WaitStatus;
      if negb (xstatus =? 0) then exit 1 else Ret tt);
  fd ← sys (Open (lit ".") 0);
  n ← ITree.iter (concreate_read s fd) (local_de, replicate (Z.to_nat N) false, 0);
  _ ← call (Close fd);
  _ ← oops (negb (n =? N)) "%s: concreate not enough files in directory listing\n" [str s];
  for_range 0 N (fun i =>
    pid ← sys Fork;
    _ ← oops (pid <? 0) "%s: fork failed\n" [str s];
    _ ← (if ((i mod 3 =? 0) && (pid =? 0)) || ((i mod 3 =? 1) && negb (pid =? 0)) then
           times 6 (fd ← sys (Open (file i) 0); call (Close fd))
         else times 6 (call (Unlink (file i))));
    if pid =? 0 then exit 0 else call Wait).

Fixpoint linkunlink_loop (n : nat) (x : Z) : prog unit :=
  match n with
  | O => Ret tt
  | S n' =>
      let x := u32 (x * 1103515245 + 12345) in
      _ ← (if x mod 3 =? 0 then close_new "x"
           else if x mod 3 =? 1 then call (Link (lit "cat") (lit "x"))
           else call (Unlink (lit "x")));
      linkunlink_loop n' x
  end.
Definition linkunlink s : prog unit :=
  _ ← call (Unlink (lit "x"));
  pid ← sys Fork;
  _ ← oops (pid <? 0) "%s: fork failed\n" [str s];
  _ ← linkunlink_loop 100 (if pid =? 0 then 97 else 1);
  if negb (pid =? 0) then call Wait else exit 0.

(** A call that must return 0, or must not; one that must or must not fail. *)
Definition must0 s (e : sysE Z) (fmt : string) : prog unit := r ← sys e; oops (negb (r =? 0)) fmt [str s].
Definition must_not0 s (e : sysE Z) (fmt : string) : prog unit := r ← sys e; oops (r =? 0) fmt [str s].
Definition must s (e : sysE Z) (fmt : string) : prog unit := r ← sys e; oops (r <? 0) fmt [str s].
Definition must_fail s (e : sysE Z) (fmt : string) : prog unit := r ← sys e; oops (0 <=? r) fmt [str s].

Definition subdir s : prog unit :=
  _ ← call (Unlink (lit "ff"));
  _ ← must0 s (Mkdir (lit "dd")) "%s: mkdir dd failed\n";
  fd ← sys (Open (lit "dd/ff") (Z.lor O_CREATE O_RDWR));
  _ ← oops (fd <? 0) "%s: create dd/ff failed\n" [str s];
  _ ← call (Write fd (lit "ff"));
  _ ← call (Close fd);
  _ ← must_fail s (Unlink (lit "dd")) "%s: unlink dd (non-empty dir) succeeded!\n";
  _ ← must0 s (Mkdir (lit "/dd/dd")) "%s: subdir mkdir dd/dd failed\n";
  fd ← sys (Open (lit "dd/dd/ff") (Z.lor O_CREATE O_RDWR));
  _ ← oops (fd <? 0) "%s: create dd/dd/ff failed\n" [str s];
  _ ← call (Write fd (lit "FF"));
  _ ← call (Close fd);
  fd ← sys (Open (lit "dd/dd/../ff") 0);
  _ ← oops (fd <? 0) "%s: open dd/dd/../ff failed\n" [str s];
  '(cc, c) ← sys (Read fd BUFSZ);
  _ ← oops (negb (cc =? 2) || negb (nth 0 (read_into buf0 c) 0 =? 102)) "%s: dd/dd/../ff wrong content\n" [str s];
  _ ← call (Close fd);
  _ ← must0 s (Link (lit "dd/dd/ff") (lit "dd/dd/ffff")) "%s: link dd/dd/ff dd/dd/ffff failed\n";
  _ ← must0 s (Unlink (lit "dd/dd/ff")) "%s: unlink dd/dd/ff failed\n";
  _ ← must_fail s (Open (lit "dd/dd/ff") O_RDONLY) "%s: open (unlinked) dd/dd/ff succeeded\n";
  _ ← must0 s (Chdir (lit "dd")) "%s: chdir dd failed\n";
  _ ← must0 s (Chdir (lit "dd/../../dd")) "%s: chdir dd/../../dd failed\n";
  _ ← must0 s (Chdir (lit "dd/../../../dd")) "%s: chdir dd/../../../dd failed\n";
  _ ← must0 s (Chdir (lit "./..")) "%s: chdir ./.. failed\n";
  fd ← sys (Open (lit "dd/dd/ffff") 0);
  _ ← oops (fd <? 0) "%s: open dd/dd/ffff failed\n" [str s];
  '(r, _) ← sys (Read fd BUFSZ);
  _ ← oops (negb (r =? 2)) "%s: read dd/dd/ffff wrong len\n" [str s];
  _ ← call (Close fd);
  _ ← must_fail s (Open (lit "dd/dd/ff") O_RDONLY) "%s: open (unlinked) dd/dd/ff succeeded!\n";
  _ ← must_fail s (Open (lit "dd/ff/ff") (Z.lor O_CREATE O_RDWR)) "%s: create dd/ff/ff succeeded!\n";
  _ ← must_fail s (Open (lit "dd/xx/ff") (Z.lor O_CREATE O_RDWR)) "%s: create dd/xx/ff succeeded!\n";
  _ ← must_fail s (Open (lit "dd") O_CREATE) "%s: create dd succeeded!\n";
  _ ← must_fail s (Open (lit "dd") O_RDWR) "%s: open dd rdwr succeeded!\n";
  _ ← must_fail s (Open (lit "dd") O_WRONLY) "%s: open dd wronly succeeded!\n";
  _ ← must_not0 s (Link (lit "dd/ff/ff") (lit "dd/dd/xx")) "%s: link dd/ff/ff dd/dd/xx succeeded!\n";
  _ ← must_not0 s (Link (lit "dd/xx/ff") (lit "dd/dd/xx")) "%s: link dd/xx/ff dd/dd/xx succeeded!\n";
  _ ← must_not0 s (Link (lit "dd/ff") (lit "dd/dd/ffff")) "%s: link dd/ff dd/dd/ffff succeeded!\n";
  _ ← must_not0 s (Mkdir (lit "dd/ff/ff")) "%s: mkdir dd/ff/ff succeeded!\n";
  _ ← must_not0 s (Mkdir (lit "dd/xx/ff")) "%s: mkdir dd/xx/ff succeeded!\n";
  _ ← must_not0 s (Mkdir (lit "dd/dd/ffff")) "%s: mkdir dd/dd/ffff succeeded!\n";
  _ ← must_not0 s (Unlink (lit "dd/xx/ff")) "%s: unlink dd/xx/ff succeeded!\n";
  _ ← must_not0 s (Unlink (lit "dd/ff/ff")) "%s: unlink dd/ff/ff succeeded!\n";
  _ ← must_not0 s (Chdir (lit "dd/ff")) "%s: chdir dd/ff succeeded!\n";
  _ ← must_not0 s (Chdir (lit "dd/xx")) "%s: chdir dd/xx succeeded!\n";
  _ ← must0 s (Unlink (lit "dd/dd/ffff")) "%s: unlink dd/dd/ff failed\n";
  _ ← must0 s (Unlink (lit "dd/ff")) "%s: unlink dd/ff failed\n";
  _ ← must_not0 s (Unlink (lit "dd")) "%s: unlink non-empty dd succeeded!\n";
  _ ← must s (Unlink (lit "dd/dd")) "%s: unlink dd/dd failed\n";
  must s (Unlink (lit "dd")) "%s: unlink dd failed\n".

(** [for (sz = 499; sz < BUFSZ; sz += 471)] *)
Definition bigwrite_sizes : list Z := (fun k => 499 + 471 * k) <$> seqZ 0 ((BUFSZ - 499 + 470) / 471).
Definition bigwrite s : prog unit :=
  _ ← call (Unlink (lit "bigwrite"));
  for_args bigwrite_sizes (fun sz =>
    fd ← sys (Open (lit "bigwrite") (Z.lor O_CREATE O_RDWR));
    _ ← oops (fd <? 0) "%s: cannot create bigwrite\n" [str s];
    _ ← for_range 0 2 (fun _ =>
      cc ← sys (Write fd (take (Z.to_nat sz) buf0));
      oops (negb (cc =? sz)) "%s: write(%d) ret %d\n" [str s; UNum sz; UNum cc]);
    _ ← call (Close fd);
    call (Unlink (lit "bigwrite"))).

(** The reading loop of [bigfile]: the buffer, the round and the total. *)
Definition bigfile_read s (fd : Z) (st : list Z * Z * Z) : prog ((list Z * Z * Z) + Z) :=
  let '(b, i, total) := st in
  '(cc, c) ← sys (Read fd 300);
  let b := read_into b c in
  _ ← oops (cc <? 0) "%s: read bigfile failed\n" [str s];
  if cc =? 0 then Ret (inr total)
  else
    _ ← oops (negb (cc =? 300)) "%s: short read bigfile\n" [str s];
    _ ← oops (negb (nth 0 b 0 =? i / 2) || negb (nth 299 b 0 =? i / 2)) "%s: read bigfile wrong data\n" [str s];
    Ret (inl (b, i + 1, total + cc)).
Definition bigfile s : prog unit :=
  let N := 20 in let SZ := 600 in
  _ ← call (Unlink (lit "bigfile.dat"));
  fd ← sys (Open (lit "bigfile.dat") (Z.lor O_CREATE O_RDWR));
  _ ← oops (fd <? 0) "%s: cannot create bigfile" [str s];
  _ ← for_range 0 N (fun i =>
    r ← sys (Write fd (replicate (Z.to_nat SZ) (u8 i)));
    oops (negb (r =? SZ)) "%s: write bigfile failed\n" [str s]);
  _ ← call (Close fd);
  fd ← sys (Open (lit "bigfile.dat") 0);
  _ ← oops (fd <? 0) "%s: cannot open bigfile\n" [str s];
  total ← ITree.iter (bigfile_read s fd) (buf0, 0, 0);
  _ ← call (Close fd);
  _ ← oops (negb (total =? N * SZ)) "%s: read bigfile wrong total\n" [str s];
  call (Unlink (lit "bigfile.dat")).

Definition fourteen s : prog unit :=
  _ ← must0 s (Mkdir (lit "12345678901234")) "%s: mkdir 12345678901234 failed\n";
  _ ← must0 s (Mkdir (lit "12345678901234/123456789012345")) "%s: mkdir 12345678901234/123456789012345 failed\n";
  fd ← sys (Open (lit "123456789012345/123456789012345/123456789012345") O_CREATE);
  _ ← oops (fd <? 0) "%s: create 123456789012345/123456789012345/123456789012345 failed\n" [str s];
  _ ← call (Close fd);
  fd ← sys (Open (lit "12345678901234/12345678901234/12345678901234") 0);
  _ ← oops (fd <? 0) "%s: open 12345678901234/12345678901234/12345678901234 failed\n" [str s];
  _ ← call (Close fd);
  _ ← must_not0 s (Mkdir (lit "12345678901234/12345678901234")) "%s: mkdir 12345678901234/12345678901234 succeeded!\n";
  _ ← must_not0 s (Mkdir (lit "123456789012345/12345678901234")) "%s: mkdir 12345678901234/123456789012345 succeeded!\n";
  for_args ["123456789012345/12345678901234"; "12345678901234/12345678901234"; "12345678901234/12345678901234/12345678901234";
            "123456789012345/123456789012345/123456789012345"; "12345678901234/123456789012345"; "12345678901234"]
    (fun path => call (Unlink (lit path))).

Definition rmdot s : prog unit :=
  _ ← must0 s (Mkdir (lit "dots")) "%s: mkdir dots failed\n";
  _ ← must0 s (Chdir (lit "dots")) "%s: chdir dots failed\n";
  _ ← must_not0 s (Unlink (lit ".")) "%s: rm . worked!\n";
  _ ← must_not0 s (Unlink (lit "..")) "%s: rm .. worked!\n";
  _ ← must0 s (Chdir (lit "/")) "%s: chdir / failed\n";
  _ ← must_not0 s (Unlink (lit "dots/.")) "%s: unlink dots/. worked!\n";
  _ ← must_not0 s (Unlink (lit "dots/..")) "%s: unlink dots/.. worked!\n";
  must0 s (Unlink (lit "dots")) "%s: unlink dots failed!\n".

Definition dirfile s : prog unit :=
  fd ← sys (Open (lit "dirfile") O_CREATE);
  _ ← oops (fd <? 0) "%s: create dirfile failed\n" [str s];
  _ ← call (Close fd);
  _ ← must_not0 s (Chdir (lit "dirfile")) "%s: chdir dirfile succeeded!\n";
  _ ← must_fail s (Open (lit "dirfile/xx") 0) "%s: create dirfile/xx succeeded!\n";
  _ ← must_fail s (Open (lit "dirfile/xx") O_CREATE) "%s: create dirfile/xx succeeded!\n";
  _ ← must_not0 s (Mkdir (lit "dirfile/xx")) "%s: mkdir dirfile/xx succeeded!\n";
  _ ← must_not0 s (Unlink (lit "dirfile/xx")) "%s: unlink dirfile/xx succeeded!\n";
  _ ← must_not0 s (Link (lit "README") (lit "dirfile/xx")) "%s: link to dirfile/xx succeeded!\n";
  _ ← must0 s (Unlink (lit "dirfile")) "%s: unlink dirfile failed!\n";
  _ ← must_fail s (Open (lit ".") O_RDWR) "%s: open . for writing succeeded!\n";
  fd ← sys (Open (lit ".") 0);
  r ← sys (Write fd (lit "x"));
  _ ← oops (0 <? r) "%s: write . succeeded!\n" [str s];
  call (Close fd).

Definition iref s : prog unit :=
  let rounds := Z.of_nat NINODE + 1 in
  _ ← for_range 0 rounds (fun _ =>
    _ ← must0 s (Mkdir (lit "irefd")) "%s: mkdir irefd failed\n";
    _ ← must0 s (Chdir (lit "irefd")) "%s: chdir irefd failed\n";
    _ ← call (Mkdir (lit ""));
    _ ← call (Link (lit "README") (lit ""));
    fd ← sys (Open (lit "") O_CREATE);
    _ ← (if 0 <=? fd then call (Close fd) else Ret tt);
    fd ← sys (Open (lit "xx") O_CREATE);
    _ ← (if 0 <=? fd then call (Close fd) else Ret tt);
    call (Unlink (lit "xx")));
  _ ← for_range 0 rounds (fun _ =>
    _ ← call (Chdir (lit ".."));
    call (Unlink (lit "irefd")));
  call (Chdir (lit "/")).

(** ** Memory *)

Fixpoint usertests_forks (left n : nat) : prog nat :=
  match left with
  | O => Ret n
  | S left' =>
      pid ← sys Fork;
      if pid <? 0 then Ret n
      else if pid =? 0 then exit 0
      else usertests_forks left' (S n)
  end.
Definition usertests_forktest s : prog unit :=
  let N := 1000%nat in
  n ← usertests_forks N 0;
  _ ← oops (n =? 0)%nat "%s: no fork at all!\n" [str s];
  _ ← oops (n =? N)%nat "%s: fork claimed to work 1000 times!\n" [str s];
  _ ← times n (
    r ← sys Wait;
    oops (r <? 0) "%s: wait stopped early\n" [str s]);
  r ← sys Wait;
  oops (negb (r =? -1)) "%s: wait got too many\n" [str s].

(** The loop of [sbrkbasic] over single bytes: the break expected. *)
Fixpoint sbrk_bytes s (n : nat) (i a : Z) : prog Z :=
  match n with
  | O => Ret a
  | S n' =>
      b ← sys (Sbrk 1);
      _ ← oops (negb (b =? a)) "%s: sbrk test failed %d %p %p\n" [str s; UNum i; UNum a; UNum b];
      _ ← sys (StoreByte b 1);
      sbrk_bytes s n' (i + 1) (b + 1)
  end.
Definition sbrkbasic s : prog unit :=
  let TOOMUCH := 1024 * 1024 * 1024 in
  pid ← sys Fork;
  _ ← oops (pid <? 0) "fork failed in sbrkbasic\n" [];
  _ ← (if pid =? 0 then
         a ← sys (Sbrk TOOMUCH);
         if a =? MINUS1 then exit 0
         else
           _ ← for_range 0 (TOOMUCH / 4096) (fun k => sys (StoreByte (a + 4096 * k) 99));
           exit 1
       else Ret tt);
  '(_, xstatus) ← sys WaitStatus;
  _ ← oops (xstatus =? 1) "%s: too much memory allocated!\n" [str s];
  a ← sys (Sbrk 0);
  a ← sbrk_bytes s 5000 0 a;
  pid ← sys Fork;
  _ ← oops (pid <? 0) "%s: sbrk test fork failed\n" [str s];
  _ ← call (Sbrk 1);
  c ← sys (Sbrk 1);
  _ ← oops (negb (c =? a + 1)) "%s: sbrk test failed post-fork\n" [str s];
  if pid =? 0 then exit 0
  else
    '(_, xstatus) ← sys WaitStatus;
    exit xstatus.

Definition sbrkmuch s : prog unit :=
  let BIG := 100 * 1024 * 1024 in
  oldbrk ← sys (Sbrk 0);
  a ← sys (Sbrk 0);
  p ← sys (Sbrk (i32 (BIG - a)));
  _ ← oops (negb (p =? a)) "%s: sbrk test failed to grow big address space; enough phys mem?\n" [str s];
  eee ← sys (Sbrk 0);
  _ ← for_range 0 ((eee - a + 4095) / 4096) (fun k => sys (StoreByte (a + 4096 * k) 1));
  let lastaddr := BIG - 1 in
  _ ← sys (StoreByte lastaddr 99);
  a ← sys (Sbrk 0);
  c ← sys (Sbrk (- PGSIZE));
  _ ← oops (c =? MINUS1) "%s: sbrk could not deallocate\n" [str s];
  c ← sys (Sbrk 0);
  _ ← oops (negb (c =? a - PGSIZE)) "%s: sbrk deallocation produced wrong address, a %p c %p\n" [str s; UNum a; UNum c];
  a ← sys (Sbrk 0);
  c ← sys (Sbrk PGSIZE);
  bad ← (if negb (c =? a) then Ret true else b ← sys (Sbrk 0); Ret (negb (b =? a + PGSIZE)));
  _ ← oops bad "%s: sbrk re-allocation failed, a %p c %p\n" [str s; UNum a; UNum c];
  x ← sys (LoadByte lastaddr);
  _ ← oops (x =? 99) "%s: sbrk de-allocation didn't really deallocate\n" [str s];
  a ← sys (Sbrk 0);
  b ← sys (Sbrk 0);
  c ← sys (Sbrk (i32 (- (b - oldbrk))));
  oops (negb (c =? a)) "%s: sbrk downsize failed, a %p c %p\n" [str s; UNum a; UNum c].

Definition kernmem s : prog unit :=
  for_range 0 40 (fun k =>
    let a := KERNBASE + 50000 * k in
    pid ← sys Fork;
    _ ← oops (pid <? 0) "%s: fork failed\n" [str s];
    _ ← (if pid =? 0 then
           x ← sys (LoadByte a);
           _ ← printf "%s: oops could read %p = %x\n" [str s; UNum a; UNum x];
           exit 1
         else Ret tt);
    '(_, xstatus) ← sys WaitStatus;
    if negb (xstatus =? -1) then exit 1 else Ret tt).

(** [for ( ; a != 0; a <<= 1)] from [MAXVA] on, in 64 bits. *)
Definition MAXVAplus s : prog unit :=
  for_range 0 26 (fun k =>
    let a := Z.shiftl MAXVA k in
    pid ← sys Fork;
    _ ← oops (pid <? 0) "%s: fork failed\n" [str s];
    _ ← (if pid =? 0 then
           _ ← sys (StoreByte a 99);
           _ ← printf "%s: oops wrote %p\n" [str s; UNum a];
           exit 1
         else Ret tt);
    '(_, xstatus) ← sys WaitStatus;
    if negb (xstatus =? -1) then exit 1 else Ret tt).

(** The children of [sbrkfail]: their process ids. *)
Fixpoint sbrkfail_forks (n : nat) (p0 p1 : Z) (pids : list Z) : prog (list Z) :=
  match n with
  | O => Ret pids
  | S n' =>
      pid ← sys Fork;
      _ ← (if pid =? 0 then
             b ← sys (Sbrk 0);
             _ ← call (Sbrk (i32 (100 * 1024 * 1024 - b)));
             _ ← call (Write p1 (lit "x"));
             forever (call (SleepE 1000))
           else Ret tt);
      _ ← (if negb (pid =? -1) then _ ← sys (Read p0 1); Ret tt else Ret tt);
      sbrkfail_forks n' p0 p1 (pids ++ [pid])
  end.
Fixpoint sum_bytes (n : nat) (a step acc : Z) : prog Z :=
  match n with
  | O => Ret acc
  | S n' => x ← sys (LoadByte a); sum_bytes n' (a + step) step (i32 (acc + x))
  end.
Definition sbrkfail s : prog unit :=
  let BIG := 100 * 1024 * 1024 in
  '(r, (p0, p1)) ← sys Pipe;
  _ ← oops (negb (r =? 0)) "%s: pipe() failed\n" [str s];
  pids ← sbrkfail_forks 10 p0 p1 [];
  c ← sys (Sbrk PGSIZE);
  _ ← for_args pids (fun pid =>
    if pid =? -1 then Ret tt
    else
      _ ← call (KillE pid);
      call Wait);
  _ ← oops (c =? MINUS1) "%s: failed sbrk leaked memory\n" [str s];
  pid ← sys Fork;
  _ ← oops (pid <? 0) "%s: fork failed\n" [str s];
  _ ← (if pid =? 0 then
         a ← sys (Sbrk 0);
         _ ← call (Sbrk (10 * BIG));
         n ← sum_bytes (Z.to_nat (10 * BIG / PGSIZE)) a PGSIZE 0;
         _ ← printf "%s: allocate a lot of memory succeeded %d\n" [str s; UNum n];
         exit 1
       else Ret tt);
  '(_, xstatus) ← sys WaitStatus;
  if negb (xstatus =? -1) && negb (xstatus =? 2) then exit 1 else Ret tt.

Definition sbrkarg s : prog unit :=
  a ← sys (Sbrk PGSIZE);
  fd ← sys (Open (lit "sbrk") (Z.lor O_CREATE O_WRONLY));
  _ ← call (Unlink (lit "sbrk"));
  _ ← oops (fd <? 0) "%s: open sbrk failed\n" [str s];
  n ← sys (WriteAt fd a PGSIZE);
  _ ← oops (n <? 0) "%s: write sbrk failed\n" [str s];
  _ ← call (Close fd);
  a ← sys (Sbrk PGSIZE);
  must0 s (PipeAt a) "%s: pipe() failed\n".

(** [for (p = 0; p <= 1100 * 1024; p += PGSIZE)] *)
Definition validatetest s : prog unit :=
  for_range 0 (1100 * 1024 / PGSIZE + 1) (fun k =>
    r ← sys (LinkNewAt (lit "nosuchfile") (PGSIZE * k));
    oops (negb (r =? -1)) "%s: link should not succeed\n" [str s]).

Definition uninit : list Z := replicate (Z.to_nat 10000) 0.
Definition bsstest s : prog unit := for_args uninit (fun x => oops (negb (x =? 0)) "%s: bss test failed\n" [str s]).

Definition bigargtest s : prog unit :=
  _ ← call (Unlink (lit "bigarg-ok"));
  pid ← sys Fork;
  _ ← (if pid =? 0 then
         let big := replicate 399 32 in
         _ ← call (ExecE (lit "echo") (replicate (Z.to_nat (MAXARG - 1)) big));
         fd ← sys (Open (lit "bigarg-ok") O_CREATE);
         _ ← call (Close fd);
         exit 0
       else oops (pid <? 0) "%s: bigargtest: fork failed\n" [str s]);
  '(_, xstatus) ← sys WaitStatus;
  if negb (xstatus =? 0) then exit xstatus
  else
    fd ← sys (Open (lit "bigarg-ok") 0);
    _ ← oops (fd <? 0) "%s: bigarg test failed!\n" [str s];
    call (Close fd).

(** The name of a file of [fsfull]. *)
Definition fsfull_name (n : Z) : list Z :=
  [102; u8 (c_0 + n / 1000); u8 (c_0 + n mod 1000 / 100); u8 (c_0 + n mod 100 / 10); u8 (c_0 + n mod 10)].
Definition fsfull : prog unit :=
  _ ← printf "fsfull test\n" [];
  nfiles ← ITree.iter (fun nfiles : Z =>
    _ ← printf "writing %s\n" [str (fsfull_name nfiles)];
    fd ← sys (Open (fsfull_name nfiles) (Z.lor O_CREATE O_RDWR));
    if fd <? 0 then
      _ ← printf "open %s failed\n" [str (fsfull_name nfiles)];
      Ret (inr nfiles)
    else
      total ← ITree.iter (fun total : Z =>
        cc ← sys (Write fd (take (Z.to_nat BSIZE) buf0));
        if cc <? BSIZE then Ret (inr total) else Ret (inl (total + cc))) 0;
      _ ← printf "wrote %d bytes\n" [UNum total];
      _ ← call (Close fd);
      if total =? 0 then Ret (inr nfiles) else Ret (inl (nfiles + 1))) 0;
  _ ← for_args (rev (seqZ 0 (nfiles + 1))) (fun n => call (Unlink (fsfull_name n)));
  printf "fsfull test finished\n" [].

Definition argptest s : prog unit :=
  fd ← sys (Open (lit "init") O_RDONLY);
  _ ← oops (fd <? 0) "%s: open failed\n" [str s];
  b ← sys (Sbrk 0);
  _ ← call (ReadAt fd (u64 (b - 1)) (-1));
  call (Close fd).

Definition stacktest s : prog unit :=
  pid ← sys Fork;
  _ ← (if pid =? 0 then
         x ← sys (LoadByte (u64 (stack_pointer - USERSTACK * PGSIZE)));
         _ ← printf "%s: stacktest: read below stack %d\n" [str s; UNum x];
         exit 1
       else oops (pid <? 0) "%s: fork failed\n" [str s]);
  '(_, xstatus) ← sys WaitStatus;
  if xstatus =? -1 then exit 0 else exit xstatus.

Definition nowrite s : prog unit :=
  _ ← for_args (0 :: bad_addrs) (fun addr =>
    pid ← sys Fork;
    _ ← (if pid =? 0 then
           _ ← sys (StoreInt addr 10);
           _ ← printf "%s: write to %p did not fail!\n" [str s; UNum addr];
           exit 0
         else oops (pid <? 0) "%s: fork failed\n" [str s]);
    '(_, xstatus) ← sys WaitStatus;
    if xstatus =? 0 then exit 1 else Ret tt);
  exit 0.

Definition big_pointer : Z := 0xeaeb0b5b00002f5e.
Definition pgbug s : prog unit :=
  _ ← call (ExecAt big_pointer []);
  _ ← call (PipeAt big_pointer);
  exit 0.

Definition sbrkbugs s : prog unit :=
  pid ← sys Fork;
  _ ← oops (pid <? 0) "fork failed\n" [];
  _ ← (if pid =? 0 then
         b ← sys (Sbrk 0);
         _ ← call (Sbrk (i32 (- i32 b)));
         exit 0
       else Ret tt);
  _ ← call Wait;
  pid ← sys Fork;
  _ ← oops (pid <? 0) "fork failed\n" [];
  _ ← (if pid =? 0 then
         b ← sys (Sbrk 0);
         _ ← call (Sbrk (i32 (- (i32 b - 3500))));
         exit 0
       else Ret tt);
  _ ← call Wait;
  pid ← sys Fork;
  _ ← oops (pid <? 0) "fork failed\n" [];
  _ ← (if pid =? 0 then
         b ← sys (Sbrk 0);
         _ ← call (Sbrk (i32 (10 * 4096 + 2048 - b)));
         _ ← call (Sbrk (-10));
         exit 0
       else Ret tt);
  _ ← call Wait;
  exit 0.

Definition sbrklast s : prog unit :=
  top ← sys (Sbrk 0);
  _ ← (if negb (top mod 4096 =? 0) then call (Sbrk (4096 - top mod 4096)) else Ret tt);
  _ ← call (Sbrk 4096);
  _ ← call (Sbrk 10);
  _ ← call (Sbrk (-20));
  top ← sys (Sbrk 0);
  let p := u64 (top - 64) in
  _ ← sys (StoreByte p 120);
  _ ← sys (StoreByte (p + 1) 0);
  fd ← sys (OpenAt p (Z.lor O_RDWR O_CREATE));
  _ ← call (WriteAt fd p 1);
  _ ← call (Close fd);
  fd ← sys (OpenAt p O_RDWR);
  _ ← sys (StoreByte p 0);
  _ ← call (ReadAt fd p 1);
  x ← sys (LoadByte p);
  if negb (x =? 120) then exit 1 else Ret tt.

Definition sbrk8000 s : prog unit :=
  _ ← call (Sbrk (i32 0x80000004));
  top ← sys (Sbrk 0);
  x ← sys (LoadByte (u64 (top - 1)));
  sys (StoreByte (u64 (top - 1)) (u8 (x + 1))).

Definition badarg s : prog unit :=
  _ ← for_range 0 50000 (fun _ => call (ExecArgsAt (lit "echo") [0xffffffff]));
  exit 0.

(** ** Slow tests *)

Definition bigdir_name (i : Z) : list Z := [120; u8 (c_0 + i / 64); u8 (c_0 + i mod 64)].
Definition bigdir s : prog unit :=
  let N := 500 in
  _ ← call (Unlink (lit "bd"));
  fd ← sys (Open (lit "bd") O_CREATE);
  _ ← oops (fd <? 0) "%s: bigdir create failed\n" [str s];
  _ ← call (Close fd);
  _ ← for_range 0 N (fun i =>
    r ← sys (Link (lit "bd") (bigdir_name i));
    oops (negb (r =? 0)) "%s: bigdir i=%d link(bd, %s) failed\n" [str s; UNum i; str (bigdir_name i)]);
  _ ← call (Unlink (lit "bd"));
  for_range 0 N (fun i => must0 s (Unlink (bigdir_name i)) "%s: bigdir unlink failed").

Definition manywrites s : prog unit :=
  let nchildren := 4 in let howmany := 30 in
  _ ← for_range 0 nchildren (fun ci =>
    pid ← sys Fork;
    _ ← oops (pid <? 0) "fork failed\n" [];
    if pid =? 0 then
      let name := [98; u8 (97 + ci)] in
      _ ← call (Unlink name);
      _ ← for_range 0 howmany (fun _ =>
        _ ← for_range 0 (ci + 1) (fun _ =>
          fd ← sys (Open name (Z.lor O_CREATE O_RDWR));
          _ ← oops (fd <? 0) "%s: cannot create %s\n" [str s; str name];
          cc ← sys (Write fd buf0);
          _ ← oops (negb (cc =? BUFSZ)) "%s: write(%d) ret %d\n" [str s; UNum BUFSZ; UNum cc];
          call (Close fd));
        call (Unlink name));
      _ ← call (Unlink name);
      exit 0
    else Ret tt);
  _ ← for_range 0 nchildren (fun _ =>
    '(_, st) ← sys WaitStatus;
    if negb (st =? 0) then exit st else Ret tt);
  exit 0.

Definition badwrite s : prog unit :=
  let assumed_free := 600 in
  _ ← call (Unlink (lit "junk"));
  _ ← for_range 0 assumed_free (fun _ =>
    fd ← sys (Open (lit "junk") (Z.lor O_CREATE O_WRONLY));
    _ ← oops (fd <? 0) "open junk failed\n" [];
    _ ← call (WriteAt fd 0xffffffffff 1);
    _ ← call (Close fd);
    call (Unlink (lit "junk")));
  fd ← sys (Open (lit "junk") (Z.lor O_CREATE O_WRONLY));
  _ ← oops (fd <? 0) "open junk failed\n" [];
  r ← sys (Write fd (lit "x"));
  _ ← oops (negb (r =? 1)) "write failed\n" [];
  _ ← call (Close fd);
  _ ← call (Unlink (lit "junk"));
  exit 0.

Definition execout s : prog unit :=
  _ ← for_range 0 15 (fun avail =>
    pid ← sys Fork;
    if pid <? 0 then
      _ ← printf "fork failed\n" [];
      exit 1
    else if pid =? 0 then
      _ ← ITree.iter (fun _ : unit =>
        a ← sys (Sbrk 4096);
        if a =? MINUS1 then Ret (inr tt)
        else
          _ ← sys (StoreByte (a + 4096 - 1) 1);
          Ret (inl tt)) tt;
      _ ← for_range 0 avail (fun _ => call (Sbrk (-4096)));
      _ ← call (Close 1);
      _ ← call (ExecE (lit "echo") [lit "echo"; lit "x"]);
      exit 0
    else call Wait);
  exit 0.

Definition big_name (i : Z) : list Z := [98; 105; 103; u8 (c_0 + i)].
Definition zz_name (i : Z) : list Z := [122; 122; u8 (c_0 + i / 32); u8 (c_0 + i mod 32)].
(** The writes to one file of [diskfull], with [n] blocks to go: whether the
    disk is full. *)
Fixpoint fill_file (n : nat) (fd : Z) : prog bool :=
  match n with
  | O => Ret false
  | S n' =>
      r ← sys (Write fd local_block);
      if negb (r =? BSIZE) then
        _ ← call (Close fd);
        Ret true
      else fill_file n' fd
  end.
(** [for (fi = 0; done == 0 && '0' + fi < 127; fi++)] *)
Fixpoint fill_disk s (n : nat) (fi : Z) : prog unit :=
  match n with
  | O => Ret tt
  | S n' =>
      _ ← call (Unlink (big_name fi));
      fd ← sys (Open (big_name fi) (Z.lor (Z.lor O_CREATE O_RDWR) O_TRUNC));
      if fd <? 0 then printf "%s: could not create file %s\n" [str s; str (big_name fi)]
      else
        done ← fill_file (Z.to_nat MAXFILE) fd;
        _ ← call (Close fd);
        if done : bool then Ret tt else fill_disk s n' (fi + 1)
  end.
(** Creating the files zz..., up to the first that fails. *)
Fixpoint create_zz (n : nat) (i : Z) : prog unit :=
  match n with
  | O => Ret tt
  | S n' =>
      _ ← call (Unlink (zz_name i));
      fd ← sys (Open (zz_name i) (Z.lor (Z.lor O_CREATE O_RDWR) O_TRUNC));
      if fd <? 0 then Ret tt
      else
        _ ← call (Close fd);
        create_zz n' (i + 1)
  end.
Definition diskfull s : prog unit :=
  let bigs := 127 - c_0 in let nzz := 128 in
  _ ← call (Unlink (lit "diskfulldir"));
  _ ← fill_disk s (Z.to_nat bigs) 0;
  _ ← create_zz (Z.to_nat nzz) 0;
  r ← sys (Mkdir (lit "diskfulldir"));
  _ ← (if r =? 0 then printf "%s: mkdir(diskfulldir) unexpectedly succeeded!\n" [str s] else Ret tt);
  _ ← call (Unlink (lit "diskfulldir"));
  _ ← for_range 0 nzz (fun i => call (Unlink (zz_name i)));
  for_range 0 bigs (fun i => call (Unlink (big_name i))).

Definition outofinodes s : prog unit :=
  let nzz := 32 * 32 in
  _ ← create_zz (Z.to_nat nzz) 0;
  for_range 0 nzz (fun i => call (Unlink (zz_name i))).

Definition quicktests : list test := (fun '(f, n) => mk_test f (lit n)) <$> [
  (copyin, "copyin"); (copyout, "copyout"); (copyinstr1, "copyinstr1"); (copyinstr2, "copyinstr2"); (copyinstr3, "copyinstr3");
  (rwsbrk, "rwsbrk"); (truncate1, "truncate1"); (truncate2, "truncate2"); (truncate3, "truncate3"); (openiputtest, "openiput");
  (exitiputtest, "exitiput"); (iputtest, "iput"); (opentest, "opentest"); (writetest, "writetest"); (writebig, "writebig");
  (createtest, "createtest"); (dirtest, "dirtest"); (exectest, "exectest"); (pipe1, "pipe1"); (killstatus, "killstatus");
  (preempt, "preempt"); (exitwait, "exitwait"); (reparent, "reparent"); (twochildren, "twochildren"); (forkfork, "forkfork");
  (forkforkfork, "forkforkfork"); (reparent2, "reparent2"); (mem, "mem"); (sharedfd, "sharedfd"); (fourfiles, "fourfiles");
  (createdelete, "createdelete"); (unlinkread, "unlinkread"); (linktest, "linktest"); (concreate, "concreate"); (linkunlink, "linkunlink");
  (subdir, "subdir"); (bigwrite, "bigwrite"); (bigfile, "bigfile"); (fourteen, "fourteen"); (rmdot, "rmdot"); (dirfile, "dirfile");
  (iref, "iref"); (usertests_forktest, "forktest"); (sbrkbasic, "sbrkbasic"); (sbrkmuch, "sbrkmuch"); (kernmem, "kernmem");
  (MAXVAplus, "MAXVAplus"); (sbrkfail, "sbrkfail"); (sbrkarg, "sbrkarg"); (validatetest, "validatetest"); (bsstest, "bsstest");
  (bigargtest, "bigargtest"); (argptest, "argptest"); (stacktest, "stacktest"); (nowrite, "nowrite"); (pgbug, "pgbug");
  (sbrkbugs, "sbrkbugs"); (sbrklast, "sbrklast"); (sbrk8000, "sbrk8000"); (badarg, "badarg")].
Definition slowtests : list test := (fun '(f, n) => mk_test f (lit n)) <$> [
  (bigdir, "bigdir"); (manywrites, "manywrites"); (badwrite, "badwrite"); (execout, "execout"); (diskfull, "diskfull");
  (outofinodes, "outofinodes")].
End tests.

(** ** The driver *)

(** [run] of one test: whether its process exits with 0. *)
Definition run (f : list Z -> prog unit) (s : list Z) : prog bool :=
  _ ← printf "test %s: " [str s];
  pid ← sys Fork;
  if pid <? 0 then
    _ ← printf "runtest: fork error\n" [];
    exit 1
  else if pid =? 0 then
    _ ← f s;
    exit 0
  else
    '(_, xstatus) ← sys WaitStatus;
    _ ← (if negb (xstatus =? 0) then printf "FAILED\n" [] else printf "OK\n" []);
    Ret (xstatus =? 0).

Fixpoint runtests (tests : list test) (justone : option (list Z)) (continuous : Z) : prog Z :=
  match tests with
  | [] => Ret 0
  | t :: tests' =>
      if match justone with None => true | Some j => strcmp (t_s t) j =? 0 end then
        ok ← run (t_f t) (t_s t);
        if negb ok && negb (continuous =? 2) then
          _ ← printf "SOME TESTS FAILED\n" [];
          Ret 1
        else runtests tests' justone continuous
      else runtests tests' justone continuous
  end.

(** The child of [countfree]: a byte for each page it gets. *)
Definition count_pages (p1 : Z) : prog unit :=
  ITree.iter (fun _ : unit =>
    a ← sys (Sbrk 4096);
    if a =? MINUS1 then Ret (inr tt)
    else
      _ ← sys (StoreByte (a + 4096 - 1) 1);
      r ← sys (Write p1 (lit "x"));
      _ ← oops (negb (r =? 1)) "write() failed in countfree()\n" [];
      Ret (inl tt)) tt.
Definition count_bytes (p0 : Z) (n : Z) : prog (Z + Z) :=
  '(cc, _) ← sys (Read p0 1);
  _ ← oops (cc <? 0) "read() failed in countfree()\n" [];
  if cc =? 0 then Ret (inr n) else Ret (inl (n + 1)).
Definition countfree : prog Z :=
  '(r, (p0, p1)) ← sys Pipe;
  _ ← oops (r <? 0) "pipe() failed in countfree()\n" [];
  pid ← sys Fork;
  _ ← oops (pid <? 0) "fork failed in countfree()\n" [];
  _ ← (if pid =? 0 then
         _ ← call (Close p0);
         _ ← count_pages p1;
         exit 0
       else Ret tt);
  _ ← call (Close p1);
  n ← ITree.iter (count_bytes p0) 0;
  _ ← call (Close p0);
  _ ← call Wait;
  Ret n.

Section driver.
Context (quick_tests slow_tests : list test).

(** The slow tests of a round of [drivetests]: whether they end it. *)
Definition drive_slow (quick : bool) (continuous : Z) (justone : option (list Z)) : prog bool :=
  if quick then Ret false
  else
    _ ← (if justone is None then printf "usertests slow tests starting\n" [] else Ret tt);
    r ← runtests slow_tests justone continuous;
    Ret (negb (r =? 0) && negb (continuous =? 2)).
(** The pages after the tests against those before. *)
Definition drive_recount (free0 continuous : Z) : prog (option Z) :=
  free1 ← countfree;
  if free1 <? free0 then
    _ ← printf "FAILED -- lost some free pages %d (out of %d)\n" [UNum free1; UNum free0];
    Ret (if negb (continuous =? 2) then Some 1 else None)
  else Ret None.
(** One round of [drivetests]: the verdict when it ends the loop. *)
Definition drive_round (quick : bool) (continuous : Z) (justone : option (list Z)) : prog (option Z) :=
  _ ← printf "usertests starting\n" [];
  free0 ← countfree;
  r ← runtests quick_tests justone continuous;
  if negb (r =? 0) && negb (continuous =? 2) then Ret (Some 1)
  else
    slow ← drive_slow quick continuous justone;
    if slow : bool then Ret (Some 1) else drive_recount free0 continuous.
Definition drivetests (quick : bool) (continuous : Z) (justone : option (list Z)) : prog Z :=
  ITree.iter (fun _ : unit =>
    r ← drive_round quick continuous justone;
    match r with
    | Some v => Ret (inr v)
    | None => if negb (continuous =? 0) then Ret (inl tt) else Ret (inr 0)
    end) tt.

Definition usertests_main (argv : list (list Z)) : prog Z :=
  let verdict quick continuous justone :=
    r ← drivetests quick continuous justone;
    if negb (r =? 0) then exit 1
    else
      _ ← printf "ALL TESTS PASSED\n" [];
      exit 0 in
  match argv with
  | [_; a] =>
      if strcmp a (lit "-q") =? 0 then verdict true 0 None
      else if strcmp a (lit "-c") =? 0 then verdict false 1 None
      else if strcmp a (lit "-C") =? 0 then verdict false 2 None
      else if negb (nth 0 a 0 =? 45) then verdict false 0 (Some a)
      else
        _ ← printf "Usage: usertests [-c] [-C] [-q] [testname]\n" [];
        exit 1
  | _ :: _ :: _ =>
      _ ← printf "Usage: usertests [-c] [-C] [-q] [testname]\n" [];
      exit 1
  | _ => verdict false 0 None
  end.
End driver.
