(* ===== verification/UserVerdict.v ===== *)
(** * The verdict of usertests

    The driver of usertests.c against a kernel whose children end with given
    statuses and whose free memory is given: what it prints and with which
    status it exits. *)

From ITree Require Import ITree.
From S2P Require Import Prelude KString Ulib UPrintf UPrintfTheorems UserProg UserRun UserTheorems UserTests.

(** The statuses the forked tests will exit with, the numbers of free pages the
    children of [countfree] will find, the bytes left in the pipe from the one
    that runs, and the output. *)
Record tkernel : Type := mk_tk { tk_statuses : list Z; tk_free : list nat; tk_left : nat; tk_out : list Z }.

Definition test_kernel : Kernel tkernel := fun X e s =>
  match e in sysE X return option (X * tkernel) with
  | Write _ bs => Some (Z.of_nat (length bs), mk_tk (tk_statuses s) (tk_free s) (tk_left s) (tk_out s ++ bs))
  | Fork => Some (4, s)
  | WaitStatus => match tk_statuses s with st :: l => Some ((4, st), mk_tk l (tk_free s) (tk_left s) (tk_out s)) | [] => None end
  | Pipe => match tk_free s with n :: l => Some ((0, (3, 5)), mk_tk (tk_statuses s) l n (tk_out s)) | [] => None end
  | Read _ _ =>
      match tk_left s with
      | O => Some ((0, []), s)
      | S n => Some ((1, lit "x"), mk_tk (tk_statuses s) (tk_free s) n (tk_out s))
      end
  | Close _ => Some (0, s)
  | Wait => Some (4, s)
  | _ => None
  end.
#[local] Existing Instance test_kernel.

(** ** What is printed *)

(** The lines of a sequence of tests, up to the first that fails; whether all
    pass. *)
Fixpoint report (tests : list test) (statuses : list Z) : list Z * bool :=
  match tests, statuses with
  | t :: tests', st :: l =>
      let head := lit "test " ++ cstr (t_s t) ++ lit ": " in
      if st =? 0 then let '(out, ok) := report tests' l in (head ++ lit "OK\n" ++ out, ok)
      else (head ++ lit "FAILED\n" ++ lit "SOME TESTS FAILED\n", false)
  | _, _ => ([], true)
  end.
Definition lost (free1 free0 : nat) : list Z :=
  lit "FAILED -- lost some free pages " ++ decimal (Z.of_nat free1) ++ lit " (out of " ++ decimal (Z.of_nat free0) ++ lit ")\n".
Definition slow_report (quick : bool) (slow_tests : list test) (statuses : list Z) : list Z * bool :=
  if quick then ([], true) else let '(out, ok) := report slow_tests statuses in (lit "usertests slow tests starting\n" ++ out, ok).
Definition transcript (quick : bool) (quick_tests slow_tests : list test) (statuses : list Z) (free0 free1 : nat) : list Z :=
  let '(out, ok) := report quick_tests statuses in
  let '(out', ok') := slow_report quick slow_tests (drop (length quick_tests) statuses) in
  lit "usertests starting\n" ++ out ++
  (if ok then out' ++ (if ok' then if (free1 <? free0)%nat then lost free1 free0 else lit "ALL TESTS PASSED\n" else []) else []).

(** ** The driver *)

Definition shout (bs : list Z) (s : tkernel) : tkernel := mk_tk (tk_statuses s) (tk_free s) (tk_left s) (tk_out s ++ bs).

Lemma test_puts bs s : finishes (puts 1 bs) s (Returned tt) (shout bs s).
Proof.
  apply finishes_puts; [|intros b c s'; unfold shout; cbn; by rewrite app_assoc|reflexivity].
  intros []. unfold shout. cbn. by rewrite app_nil_r.
Qed.
Lemma test_printf fmt args out s : vprintf (lit fmt) args = Some out -> finishes (printf fmt args) s (Returned tt) (shout out s).
Proof. intros E. unfold printf, fprintf. rewrite E. apply test_puts. Qed.
Lemma test_print fmt s : vprintf (lit fmt) [] = Some (lit fmt) -> finishes (printf fmt []) s (Returned tt) (shout (lit fmt) s).
Proof. apply test_printf. Qed.

Lemma run_judges f name st l fr n out :
  finishes (run f name) (mk_tk (st :: l) fr n out) (Returned (st =? 0))
    (mk_tk l fr n (out ++ lit "test " ++ cstr name ++ lit ": " ++ (if st =? 0 then lit "OK\n" else lit "FAILED\n"))).
Proof.
  unfold run. eapply finishes_bind; [apply (test_printf _ _ (lit "test " ++ cstr name ++ lit ": ")); reflexivity|]. eapply finishes_call; [reflexivity|]. cbn [Z.ltb Z.eqb Z.compare].
  eapply finishes_call; [reflexivity|]. cbn [tk_statuses tk_free tk_left tk_out shout fst snd].
  destruct (st =? 0); cbn [negb]; (eapply finishes_bind; [by apply test_print|]);
    unfold shout; cbn [tk_statuses tk_free tk_left tk_out]; rewrite <- !app_assoc; apply finishes_ret.
Qed.

Lemma runtests_reports tests statuses fr n out : (length tests <= length statuses)%nat ->
  let '(text, ok) := report tests statuses in
  exists l, finishes (runtests tests None 0) (mk_tk statuses fr n out) (Returned (if ok then 0 else 1)) (mk_tk l fr n (out ++ text)) /\
    (ok = true -> l = drop (length tests) statuses).
Proof.
  revert statuses out. induction tests as [|t tests IH]; intros [|st l] out Hl; cbn [report runtests length] in *; try lia.
  - rewrite app_nil_r. eexists. split; [apply finishes_ret|done].
  - rewrite app_nil_r. eexists. split; [apply finishes_ret|done].
  - pose proof (run_judges (t_f t) (t_s t) st l fr n out) as Hrun. destruct (st =? 0); cbn [negb andb].
    + specialize (IH l (out ++ lit "test " ++ cstr (t_s t) ++ lit ": " ++ lit "OK\n") ltac:(lia)). destruct (report tests l) as [text ok].
      destruct IH as (l' & Hf & Hl'). exists l'. split; [|done]. eapply finishes_bind; [exact Hrun|]. cbn [negb andb]. rewrite <- !app_assoc in *. exact Hf.
    + exists l. split; [|discriminate]. eapply finishes_bind; [exact Hrun|]. cbn [negb andb Z.eqb].
      eapply finishes_bind; [by apply test_print|]. unfold shout. cbn [tk_statuses tk_free tk_left tk_out]. rewrite <- !app_assoc. apply finishes_ret.
Qed.
Lemma report_ok tests statuses : (length tests <= length statuses)%nat ->
  (report tests statuses).2 = bool_decide (Forall (eq 0) (take (length tests) statuses)).
Proof.
  revert statuses. induction tests as [|t tests IH]; intros [|st l] Hl; cbn [report length take] in *; try lia; [by rewrite bool_decide_true..|].
  specialize (IH l ltac:(lia)). destruct (Z.eqb_spec st 0) as [->|Hn].
  - destruct (report tests l). cbn [snd] in *. rewrite IH. apply bool_decide_ext. rewrite Forall_cons. naive_solver.
  - rewrite bool_decide_false; [done|]. rewrite Forall_cons. naive_solver.
Qed.

Lemma counts_bytes n k st fr out :
  finishes (ITree.iter (count_bytes 3) k) (mk_tk st fr n out) (Returned (k + Z.of_nat n)) (mk_tk st fr 0 out).
Proof.
  revert k. induction n as [|n IH]; intros k.
  - replace (k + Z.of_nat 0) with k by lia. apply finishes_iter_end. eapply finishes_call; [reflexivity|].
    eapply finishes_bind; [apply finishes_ret|]. apply finishes_ret.
  - replace (k + Z.of_nat (S n)) with (k + 1 + Z.of_nat n) by lia. eapply finishes_iter_next; [|apply IH].
    eapply finishes_call; [reflexivity|]. eapply finishes_bind; [apply finishes_ret|]. apply finishes_ret.
Qed.
Lemma countfree_counts st n fr k out : finishes countfree (mk_tk st (n :: fr) k out) (Returned (Z.of_nat n)) (mk_tk st fr 0 out).
Proof.
  unfold countfree, call. eapply finishes_call; [reflexivity|]. eapply finishes_bind; [apply finishes_ret|].
  eapply finishes_call; [reflexivity|]. do 2 (eapply finishes_bind; [apply finishes_ret|]).
  eapply finishes_bind; [eapply finishes_call; [reflexivity|apply finishes_ret]|]. eapply finishes_bind; [apply (counts_bytes n 0)|].
  do 2 (eapply finishes_bind; [eapply finishes_call; [reflexivity|apply finishes_ret]|]). apply finishes_ret.
Qed.

Lemma lost_prints f1 f0 : Z.of_nat f1 < 2 ^ 31 -> Z.of_nat f0 < 2 ^ 31 ->
  vprintf (lit "FAILED -- lost some free pages %d (out of %d)\n") [UNum (Z.of_nat f1); UNum (Z.of_nat f0)] = Some (lost f1 f0).
Proof.
  assert (forall f : nat, Z.of_nat f < 2 ^ 31 -> uprintint (i32 (Z.of_nat f)) 10 true = Some (decimal (Z.of_nat f))) as E.
  { intros f Hf. rewrite i32_int by lia. apply uprintint_is_decimal. lia. }
  intros H1%E H0%E. clear E. unfold vprintf, lost. set (d1 := decimal (Z.of_nat f1)) in *. set (d0 := decimal (Z.of_nat f0)) in *.
  set (x1 := Z.of_nat f1) in *. set (x0 := Z.of_nat f0) in *. clearbody d1 d0 x1 x0.
  repeat match goal with |- context [lit ?x] => let l := eval vm_compute in (lit x) in change (lit x) with l end.
  cbn -[uprintint app i32]. rewrite H1. cbn -[uprintint app i32]. rewrite H0. cbn -[app]. reflexivity.
Qed.

Lemma recount_compares l f0 f1 k out : Z.of_nat f1 < 2 ^ 31 -> Z.of_nat f0 < 2 ^ 31 ->
  finishes (drive_recount (Z.of_nat f0) 0) (mk_tk l [f1] k out) (Returned (if (f1 <? f0)%nat then Some 1 else None))
    (mk_tk l [] 0 (out ++ if (f1 <? f0)%nat then lost f1 f0 else [])).
Proof.
  intros H1 H0. unfold drive_recount. eapply finishes_bind; [apply countfree_counts|]. cbn beta.
  destruct (Z.ltb_spec (Z.of_nat f1) (Z.of_nat f0)), (Nat.ltb_spec f1 f0); try lia.
  - eapply finishes_bind; [by apply test_printf, lost_prints|]. apply finishes_ret.
  - rewrite app_nil_r. apply finishes_ret.
Qed.

Section verdict.
Context (quick : bool) (quick_tests slow_tests : list test) (statuses : list Z) (free0 free1 : nat).

(** Every test that is run exits with 0, and the memory comes back. *)
Definition all_pass : bool :=
  bool_decide (Forall (eq 0) (take (length (quick_tests ++ if quick then [] else slow_tests)) statuses) /\ (free0 <= free1)%nat).

Hypothesis enough : (length quick_tests + length slow_tests <= length statuses)%nat.
Hypothesis pages : Z.of_nat free0 < 2 ^ 31 /\ Z.of_nat free1 < 2 ^ 31.

Lemma slow_reports out :
  let '(text, ok) := slow_report quick slow_tests (drop (length quick_tests) statuses) in
  exists l, finishes (drive_slow slow_tests quick 0 None) (mk_tk (drop (length quick_tests) statuses) [free1] 0 out) (Returned (negb ok))
    (mk_tk l [free1] 0 (out ++ text)).
Proof.
  unfold slow_report, drive_slow. destruct quick; [rewrite app_nil_r; eexists; apply finishes_ret|].
  pose proof (runtests_reports slow_tests (drop (length quick_tests) statuses) [free1] 0 (out ++ lit "usertests slow tests starting\n")
    ltac:(rewrite length_drop; lia)) as Hs.
  destruct (report _ _) as [text ok]. destruct Hs as (l & Hs & _). exists l.
  eapply finishes_bind; [by apply test_print|]. eapply finishes_bind; [exact Hs|]. rewrite app_assoc. destruct ok; apply finishes_ret.
Qed.
Lemma all_pass_reports : all_pass =
  (report quick_tests statuses).2 && (slow_report quick slow_tests (drop (length quick_tests) statuses)).2 && negb (free1 <? free0)%nat.
Proof.
  assert ((slow_report quick slow_tests (drop (length quick_tests) statuses)).2 =
    bool_decide (Forall (eq 0) (take (length (if quick then [] else slow_tests)) (drop (length quick_tests) statuses)))) as ->.
  { unfold slow_report. destruct quick; [by rewrite bool_decide_true|]. rewrite <- report_ok by (rewrite length_drop; lia). by destruct (report _ _). }
  unfold all_pass. rewrite report_ok by lia. apply Bool.eq_iff_eq_true.
  rewrite !andb_true_iff, negb_true_iff, Nat.ltb_ge, !bool_decide_eq_true, length_app, <- take_take_drop, Forall_app. naive_solver.
Qed.

Lemma drive_round_reports out : exists s,
  finishes (drive_round quick_tests slow_tests quick 0 None) (mk_tk statuses [free0; free1] 0 out) (Returned (if all_pass then None else Some 1)) s /\
  tk_out s ++ (if all_pass then lit "ALL TESTS PASSED\n" else []) = out ++ transcript quick quick_tests slow_tests statuses free0 free1.
Proof.
  destruct pages as [Hp0 Hp1]. rewrite all_pass_reports. unfold drive_round, transcript.
  pose proof (runtests_reports quick_tests statuses [free1] 0 (out ++ lit "usertests starting\n") ltac:(lia)) as Hq.
  destruct (report quick_tests statuses) as [text ok]. destruct Hq as (l & Hq & Hl).
  pose proof (slow_reports ((out ++ lit "usertests starting\n") ++ text)) as Hs.
  destruct (slow_report _ _ _) as [text' ok']. destruct Hs as (l' & Hs).
  pose proof (recount_compares l' free0 free1 0 (((out ++ lit "usertests starting\n") ++ text) ++ text') Hp1 Hp0) as Hr.
  destruct ok; [specialize (Hl eq_refl); subst l; destruct ok'; [destruct (free1 <? free0)%nat|]|]; cbn [snd negb andb]; eexists; split;
    try (eapply finishes_bind; [by apply test_print|]; eapply finishes_bind; [apply countfree_counts|]; eapply finishes_bind; [exact Hq|];
      cbn [Z.eqb negb andb]; first [apply finishes_ret|eapply finishes_bind; [exact Hs|]; cbn beta iota; first [exact Hr|apply finishes_ret]]);
    cbn [tk_out]; rewrite <- ?app_assoc, ?app_nil_r; done.
Qed.
End verdict.
