(* ===== verification/KernelRun.v ===== *)
(** * User programs on the kernel

    The kernel of this development as the kernel user programs run on.  A call
    is made the way the stubs of user/usys.pl make it: arguments in the
    registers of the trapframe, strings and buffers in the memory of the
    process; [syscall] then runs, with the disk answering while it waits.  The
    machine has started from an image built by mkfs. *)

From ITree Require Import ITree.
From S2P Require Import Prelude Spinlock Riscv Kalloc Vm VmProofs Queue PriorityQueue KString Proc ProcProofs ProcLife FsState FsBytes Env Sleeplock Virtio World VirtioProofs Bio Lru BioProofs Log LogSpec LogProofs FsBoot FsExample Fs Console File SysArgs Exec Sysfile Sysproc Mkfs MkfsTheorems MkfsBoot Ulib UPrintf UserProg UserRun UserTests.

(** ** The machine *)

(** The kernel ends where the last 64 pages of memory begin. *)
Definition page_at (i : Z) : Z := PHYSTOP - (64 - i) * PGSIZE.
Lemma run_image_layout :
  KERNBASE <= KERNBASE < KERNBASE + 4096 /\ KERNBASE + 4096 < page_at 0 < PHYSTOP /\
  (KERNBASE + 4096) mod PGSIZE = 0 /\ KERNBASE mod PGSIZE = 0.
Proof. by vm_compute. Qed.
#[local] Instance run_image : Image :=
  {| kernel_end := page_at 0; etext := KERNBASE + 4096; trampoline := KERNBASE; image_layout := run_image_layout |}.
#[local] Instance no_uninit : Uninit := {| cps_bytes := []; rep_bytes := []; top_entries := []; local_off := 0 |}.

(** A process with a page of code, which it may not write, at address 0, and
    four pages of data after it; the pages not in use are free. *)
Definition code_pte (pa : Z) : Z := leaf_pte pa (Z.lor PTE_R (Z.lor PTE_X PTE_U)).
Definition data_pte (pa : Z) : Z := leaf_pte pa (Z.lor (Z.lor PTE_W PTE_R) PTE_U).
Definition zero_bytes : page := PgBytes (replicate (Z.to_nat PGSIZE) 0).
Definition leaf_table : list Z :=
  [code_pte (page_at 3); data_pte (page_at 4); data_pte (page_at 5); data_pte (page_at 6); data_pte (page_at 7)] ++ drop 5 empty_table.
Definition used_pages : list (Z * page) :=
  [(page_at 0, PgTable (<[0%nat := table_pte (page_at 1)]> empty_table));
   (page_at 1, PgTable (<[0%nat := table_pte (page_at 2)]> empty_table));
   (page_at 2, PgTable leaf_table);
   (page_at 3, zero_bytes); (page_at 4, zero_bytes); (page_at 5, zero_bytes); (page_at 6, zero_bytes); (page_at 7, zero_bytes);
   (page_at 8, PgTrapframe (replicate 36 0));
   (page_at 9, PgUsage (mk_usage 0 0 MAX_UINT 0 MAX_UINT))].
Definition free_pages : list (Z * page) :=
  (fun i => (page_at i, PgRun (if i =? 63 then 0 else page_at (i + 1)))) <$> seqZ 10 54.
Definition user_mem : pmem := mk_pmem (list_to_map (used_pages ++ free_pages)) (page_at 10).
Definition user_proc : proc :=
  set_sz (5 * PGSIZE) (set_trapframe (page_at 8) (set_pagetable (page_at 0) (set_usage_time (page_at 9) runner))).
Definition user_kernel : kst fsys := set_pm user_mem (set_procs (<[0%nat := user_proc]> (procs kernel0)) kernel0).

(** No inode is in memory yet. *)
Definition fresh_fs (m : gmap Z (list Z)) : fsys := set_itable (replicate NINODE inode0) (fs_with m).

(** The calls of [main] and [forkret] that set up the buffers, the console and
    the file system, then the current directory. *)
Definition start_up : K unit :=
  binit ;; consoleinit ;; fsinit ROOTDEV ;; r <- namei (string_bytes "/") ;; upd_proc 0 (set_cwd r).
Definition powered_on (disk : gmap Z (list Z)) : st (kst fsys) :=
  mk_st [] (Proc.set_files (fresh_fs disk) user_kernel).
Definition result_of {S A} (r : outcome S A) : option (st S) := match r with Prelude.Ret _ s => Some s | _ => None end.
Definition boot_on (disk : gmap Z (list Z)) : option (st (kst fsys)) := result_of (settle sample_env (start_up (powered_on disk))).
Definition boot_with (args : list (list Z * option (list Z))) : option (st (kst fsys)) :=
  s ← result_of (@mkfs host_reads args); boot_on (image (data s)).

(** ** Calls *)

(** Where the program keeps its data: a path, a second path, a buffer. *)
Definition PATH1 : Z := PGSIZE.
Definition PATH2 : Z := PGSIZE + 512.
Definition BUFFER : Z := PGSIZE + 1024.
Definition room : Z := 5 * PGSIZE - BUFFER.

Definition TF_a1 : nat := TF_a0 + 1.
Definition TF_a2 : nat := TF_a0 + 2.
(** What the program does around a call: it stores the bytes at an address and
    the arguments in the registers, and reads the result and up to [n] bytes of
    the buffer. *)
Definition stub (num a0 a1 a2 : Z) (addr : Z) (bs : list Z) (n : Z) : K (Z * list Z) :=
  p <- my_proc ;;
  mem_op (Vm.copyout (pagetable p) addr bs) ;;
  mem_op (store_tf (trapframe_ptr p)
    (<[TF_a7 := num]> (<[TF_a0 := u64 a0]> (<[TF_a1 := u64 a1]> (<[TF_a2 := u64 a2]> (replicate 36 0)))))) ;;
  syscall ;;
  tf <- mem_op (load_tf (trapframe_ptr p)) ;;
  r <- deref (fun _ => tf !! TF_a0) ;;
  b <- mem_op (Vm.copyin (pagetable p) BUFFER n) ;;
  ret (i32 r, snd b).
Definition path_mem (p : list Z) : list Z := p ++ [0].
Definition two_paths (p q : list Z) : list Z := path_mem p ++ replicate (512 - length (path_mem p)) 0 ++ path_mem q.

Definition ran {A} (m : K A) (s : st (kst fsys)) : option (A * st (kst fsys)) :=
  match settle sample_env (m s) with Prelude.Ret x s' => Some (x, s') | _ => None end.
Definition plain (num a0 a1 a2 : Z) (bs : list Z) (s : st (kst fsys)) : option (Z * st (kst fsys)) :=
  '((r, _), s) ← ran (stub num a0 a1 a2 PATH1 bs 0) s; Some (r, s).
(** A load or store by the program itself, through its page table. *)
Definition load_byte (a : Z) : K (Z * list Z) := p <- my_proc ;; mem_op (Vm.copyin (pagetable p) a 1).
Definition store_bytes (a : Z) (bs : list Z) : K Z := p <- my_proc ;; mem_op (Vm.copyout (pagetable p) a bs).
Definition stored (a : Z) (bs : list Z) (s : st (kst fsys)) : option (unit * st (kst fsys)) :=
  '(r, s) ← ran (store_bytes a bs) s; if r =? 0 then Some (tt, s) else None.

#[export] Instance kernel_model : Kernel (st (kst fsys)) := fun X e s =>
  match e in sysE X return option (X * st (kst fsys)) with
  | Open path mode => plain 15 PATH1 mode 0 (path_mem path) s
  | Read fd n =>
      '((r, b), s) ← ran (stub 5 fd BUFFER n PATH1 [] (Z.min n room)) s;
      Some ((r, take (Z.to_nat r) b), s)
  | Write fd bs =>
      if Z.of_nat (length bs) <=? room
      then '((r, _), s) ← ran (stub 16 fd BUFFER (Z.of_nat (length bs)) BUFFER bs 0) s; Some (r, s) else None
  | Close fd => plain 21 fd 0 0 [] s
  | Mknod path major minor => plain 17 PATH1 major minor (path_mem path) s
  | Unlink path => plain 18 PATH1 0 0 (path_mem path) s
  | Link old new => plain 19 PATH1 PATH2 0 (two_paths old new) s
  | Mkdir path => plain 20 PATH1 0 0 (path_mem path) s
  | Chdir path => plain 9 PATH1 0 0 (path_mem path) s
  | Dup fd => plain 10 fd 0 0 [] s
  | Getpid => plain 11 0 0 0 [] s
  | Sbrk n => plain 12 n 0 0 [] s
  | Wait => plain 3 0 0 0 [] s
  | WaitStatus => '((r, b), s) ← ran (stub 3 BUFFER 0 0 PATH1 [] 4) s; Some ((r, i32 (get32 b 0)), s)
  | Pipe => '((r, b), s) ← ran (stub 4 BUFFER 0 0 PATH1 [] 8) s; Some ((r, (i32 (get32 b 0), i32 (get32 b 4))), s)
  | WriteAt fd addr n => plain 16 fd addr n [] s
  | ReadAt fd addr n => plain 5 fd addr n [] s
  | OpenAt path mode => plain 15 path mode 0 [] s
  | UnlinkAt path => plain 18 path 0 0 [] s
  | LinkAt old new => plain 19 old new 0 [] s
  | LinkNewAt old new => plain 19 PATH1 new 0 (path_mem old) s
  | PipeAt fds => plain 4 fds 0 0 [] s
  | LoadByte a => '((r, b), s) ← ran (load_byte a) s; if r =? 0 then Some (nth 0 b 0, s) else None
  | StoreByte a v => stored a [u8 v] s
  | StoreInt a v => stored a (int_bytes v) s
  | _ => None
  end.

(** ** Processes *)

(** The scheduler turns to process [j]. *)
Definition turn_to (j : nat) (s : st (kst fsys)) : option (st (kst fsys)) :=
  p ← procs (data s) !! j;
  Some (mk_st [] (set_cur (Some j) (set_procs (<[j := set_state RUNNING p]> (procs (data s))) (data s)))).
Fixpoint proc_of (ps : list proc) (n : Z) : option nat :=
  match ps with [] => None | p :: ps' => if pid p =? n then Some 0%nat else S <$> proc_of ps' n end.
(** [exit] until the process is a zombie and has given up the hart. *)
Fixpoint until_zombie {A} (fuel : nat) (j : nat) (o : outcome (kst fsys) A) : option (st (kst fsys)) :=
  match fuel, o with
  | S fuel', Swtch s k =>
      if bool_decide (Proc.state <$> procs (data s) !! j = Some ZOMBIE) then Some s else until_zombie fuel' j (k (sample_env s))
  | _, _ => None
  end.

#[export] Instance model_processes : Processes (st (kst fsys)) := {|
  spawn s :=
    '(n, s) ← plain 1 0 0 0 [] s;
    j ← proc_of (procs (data s)) n;
    s ← turn_to j s;
    Some (n, s);
  ended n status s s' :=
    j ← cur (data s');
    s' ← until_zombie 1000 j (stub 2 status 0 0 PATH1 [] 0 s');
    i ← cur (data s);
    turn_to i s';
  loaded _ _ := None
|}.

(** ** A session *)

Definition readme : list Z := lit "xv6 is a teaching operating system\n".
Definition boot_args : list (list Z * option (list Z)) :=
  [(string_bytes "README", Some readme); (string_bytes "user/_echo", Some [7; 7; 7])].
Definition booted0 : st (kst fsys) := default (mk_st [] user_kernel) (boot_with boot_args).
#[local] Instance zero_mem : TestMem := {| local_de := replicate 16 0; local_block := replicate 1024 0; stack_pointer := PGSIZE |}.

(** Tests of user/usertests.c, each run by the test driver in a child of its
    own; then the file README, printed by [cat] in another child. *)
Definition suite : list test := (fun '(f, n) => mk_test f (lit n)) <$>
  [(opentest, "opentest"); (dirtest, "dirtest"); (exitiputtest, "exitiput"); (truncate1, "truncate1"); (linktest, "linktest");
   (subdir, "subdir"); (copyout, "copyout"); (nowrite, "nowrite"); (rwsbrk, "rwsbrk")].
Definition session : prog Z :=
  _ ← init_console;
  r ← runtests suite None 0;
  pid ← sys Fork;
  _ ← (if pid =? 0 then cat_main [lit "cat"; lit "README"] else sys Wait);
  ITreeDefinition.Ret r.
Definition passed (t : test) : list Z := lit "test " ++ t_s t ++ lit ": OK\n".

(** The kernel is quiet: one process, no lock, no transaction, no buffer or
    inode in use but the current directory and the console's. *)
Definition quiet (s : st (kst fsys)) : bool :=
  let f := files (data s) in
  bool_decide (held s = []) && bool_decide (Proc.state <$> drop 1 (procs (data s)) = replicate (Z.to_nat NPROC - 1) UNUSED) &&
  (l_outstanding (lg f) =? 0) && (lh_n (lg f) =? 0) && forallb (fun b => b_refcnt b =? 0) (bufs f) &&
  bool_decide (length (filter (fun x => i_ref x <> 0) (itable f)) = 2%nat) &&
  bool_decide (length (filter (fun x => f_ref x <> 0) (ftable f)) = 1%nat).
Definition ends_well (r : option (stop Z * st (kst fsys))) (out : list Z) : bool :=
  match r with
  | Some (Returned v, s) => (v =? 0) && bool_decide (u_sent (uart (files (data s))) = out) && quiet s
  | _ => false
  end.

Lemma ends_well_sound r out : ends_well r out = true ->
  exists s, r = Some (Returned 0, s) /\ u_sent (uart (files (data s))) = out /\ quiet s = true.
Proof.
  destruct r as [[[v| |] s]|]; [|discriminate..]. intros [[Hr%Z.eqb_eq Hs%bool_decide_eq_true]%andb_prop Hq]%andb_prop. subst v. eauto.
Qed.

Lemma session_ends_well : ends_well (runf (Nat.pow 2 13) Z session booted0) (mjoin (passed <$> suite) ++ readme) = true.
Proof. vm_compute. reflexivity. Qed.

(** C130: From power-on with a disk built by mkfs, the kernel runs a session of
    user programs to its end: the console is opened as [init] opens it, nine
    tests of usertests.c, which work on files, directories, links, bad
    addresses and memory, each run in a forked child and pass, and a child that
    is [cat] prints a file.  Exactly this is sent on the serial line; afterwards
    the children are gone and no lock, transaction, buffer, inode or open file
    is in use but those of the first process. *)
Theorem kernel_passes_tests : exists s,
  runf (Nat.pow 2 13) Z session booted0 = Some (Returned 0, s) /\
  u_sent (uart (files (data s))) = mjoin (passed <$> suite) ++ readme /\ quiet s = true.
Proof. apply ends_well_sound, session_ends_well. Qed.
